(* ===== verification/_CoqProject ===== *)
-Q . S2P
Prelude.v
PhysMem.v
EdkMem.v
Sha256.v
CryptoMem.v
Aes.v
AesNi.v
AesModes.v
Kdf.v
Rng.v
Signature.v
Tpm2.v
Fat32.v
Ext2.v
Iso9660.v
Vfs.v
FsStack.v
Libb.v
LibbCoreboot.v
BootConfig.v
Menu.v
EdkString.v
EdkPrint.v
BootFlow.v
BootParams.v
BloodChain.v
Coreboot.v
CorebootPayload.v
UefiHelpers.v
Multiboot1.v
Multiboot2.v
LinuxBoot.v
ArchBoot.v
Chainload.v
Limine.v
CString.v
Net.v
Pxe.v
BootWrappers.v
Tables.v
Lua.v
ConfigParsers.v
Shell.v
ShellFs.v
Localization.v
Graphics.v
Font.v
MenuUi.v
Printing.v
MainProgram.v
MainRefine.v
MainBoot.v
