(* ===== verification/Prelude.v ===== *)
(** * BloodHorn: a verification of the bootloader's own C code

    BloodHorn is a UEFI/coreboot bootloader in C.  [UefiMain] (src/main.c) sets
    the machine up, loads its configuration, waits for a key, boots the
    configured Linux kernel or shows the boot menu, and finally loads, checks
    and enters kernel.efi.  Around it stand a crypto library (src/security), a
    TPM 2.0 driver with measured boot, read-only file systems under a small
    virtual file system (src/fs), boot protocols (src/boot/Arch32), network boot
    (src/net), fonts, screen output and localisation, a recovery shell, plugins,
    scripts and configuration parsers (src/recovery, src/plugins, src/scripting,
    src/config), and a development library (src/boot/libb).  src/Edk2BHModules is vendored EDK2;
    of it the memory, string and print functions the boot loader calls are
    translated, and the models the loader's own files use of them are shown to be
    what these functions compute.

    ** Files

    - [Prelude]: machine integers ([wrap], [u8] .. [u64], [s32]), byte strings
      indexed by [Z] ([zlen], [zget], [zset], [sub], [splice]), the result type
      [run] ([Ret], [UB] for undefined behaviour, [OutOfFuel]) with its monad,
      [for_loop], little and big endian values, UEFI status codes, and the
      tactics and lemmas on all these.
    - [PhysMem]: physical memory as the loaders write it: [poke], [fetch], [holds],
      and a [jump] to an entry point with the memory it is entered with.
    - [EdkMem], [EdkString], [EdkPrint]: EDK2's [CopyMem] and its relatives, the
      bounded string functions, and the formatted printer (MdePkg/Library), on
      physical memory or on the characters of the output buffer.
    - [Sha256]: [crypto_sha256_init/update/final], [sha256_hash] (security/crypto.c).
    - [CryptoMem]: constant-time comparison and wiping (security/crypto.c).
    - [Aes], [AesModes]: the block cipher with its key schedules; CBC and GCM
      against the class [BlockCipher], which AES implements (security/aes.c).
    - [AesNi]: the cipher through the processor's AES instructions (security/aes.c).
    - [Kdf]: HMAC and PBKDF2, and the older HMAC of security/hmac.c.
    - [Rng]: the XORShift generator, its seeding, [entropy_get].
    - [Signature]: [verify_signature], [secure_boot_verify], the self-tests, and
      the verified loading of boot/secure.c.
    - [Tpm2]: the TIS driver over the class [Bus] (a device register file), the
      marshalled commands, the event log, measured boot (security/tpm2.c).
    - [Fat32], [Ext2], [Iso9660]: the three drivers (fs/*.c), on byte images.
    - [Vfs]: paths, registries, mount tables and dispatch (fs_common.c, fs_mount.c);
      [FsStack]: the drivers' operation tables behind these two layers.
    - [Libb]: number formatting and printf, the reference-counted library state,
      memory and string helpers, the wrappers around the callbacks of the system
      table (boot/libb/bloodhorn.c); [LibbCoreboot] is the library's own reader of
      the coreboot table (bloodhorn/coreboot.h).
    - [BootConfig]: INI, JSON and UEFI-variable configuration (main.c).
    - [Menu]: entries, hotkeys, and the menu loop as a step function (boot/menu.c).
    - [BootFlow]: countdown, autoboot, the menu with [UefiMain]'s entries,
      [LoadAndVerifyKernel], boot parameters, leaving boot services, entering the
      kernel, [UefiMain] itself (main.c), as events without its messages; it
      composes [BootConfig] and [Menu].
    - [BootParams]: the boot parameter structure on its bytes, where main.c puts it.
    - [MainProgram], [MainRefine], [MainBoot]: main.c as a program of its own: a
      state monad over the console, the trace, the static variables and physical
      memory, every message printed by [EdkPrint]; the simulation of [BootFlow] by
      it; and whole boots of it, from a configuration file to the kernel.
    - [UefiHelpers]: finding the root directory and reading files, with the log of
      what is opened and allocated (uefi/uefi.c, boot/localization.c, main.c),
      [ExecuteKernel] of boot/secure.c, the console callbacks and the coreboot
      payload entry of main.c.
    - [BloodChain]: the BloodChain boot protocol's structure, on its bytes
      (boot/Arch32/BloodChain/bloodchain.c).
    - [Coreboot]: the coreboot table: search, checksums, entries, and the queries
      on it (coreboot/coreboot_platform.c), linked into [UefiMain]'s firmware.
    - [CorebootPayload]: [Payload] is coreboot_payload.c (payload files, the
      payload's menu and entry point), [CbMain] coreboot_main.c, over [Menu].
    - [Multiboot1], [Multiboot2], [LinuxBoot], [Limine], [Chainload]: the boot
      protocols of boot/Arch32 (multiboot1.c, multiboot2.c, linux.c, limine.c,
      chainload.c), as changes of physical memory that end in a jump.
    - [ArchBoot]: the loaders of ia32.c, x86_64.c, aarch64.c, riscv64.c and
      loongarch64.c, the last three as instances of one record.
    - [CString]: what these files use of the C library ([strtok], [atoi],
      [strncpy], [snprintf], [fgets], signed results) with its laws.
    - [Net], [Pxe]: checksums, ARP, DHCP and TFTP packets (net/*.c); network boot
      over a PXE stack, dispatching to the loaders above (net/pxe.c).
    - [BootWrappers]: the functions behind the menu's entries (main.c): each
      loader with its fixed paths, network boot, the UEFI shell, and the
      BloodChain wrapper, which builds the structure of [BloodChain].
    - [Tables]: the tables of plugins, script functions, script variables and
      shell history (plugins/*.c, scripting/script_*.c, shell_history.c).
    - [Lua]: the stack machine of scripting/lua.c.
    - [ConfigParsers]: the INI, JSON and environment parsers of src/config.
    - [Shell], [ShellFs]: the recovery shell's loop and commands (recovery/*.c);
      its file commands (shell_fs.c).
    - [Localization]: locale files, string lookup, the menu theme
      (boot/localization.c, boot/theme.c).
    - [Graphics], [Font]: video mode, rectangles (uefi/graphics.c); font objects
      on a heap, PSF files, the cache, glyphs and text (boot/font.c).
    - [MenuUi]: the menu with its screen: the drawing over [Graphics], the text
      output, the mouse (boot/mouse.c) and the language file, around the state
      machine of [Menu] (boot/menu.c).
    - [Printing]: the strings of [Localization], [Font] and [MenuUi] that EDK2's
      printer makes, computed by [EdkPrint].

    ** How the code is modelled

    A definition has the name of the C function or type it translates.  An
    unsigned [w]-bit value is a [Z] with its wrap-around written out; a buffer is
    the list of the bytes of the object a pointer designates; a NULL pointer is
    [None]; a string is the bytes before its NUL.  A read or write outside an
    object, a division by zero, a signed overflow is [UB].  Global state is
    passed explicitly ([menu], [lib], the generator state, mount tables);
    [UefiMain] also yields the trace of its externally visible actions.  What is
    not in the repository (the disk, the TPM registers, UEFI services, memory
    allocation, the C library's locale) is a parameter, and a theorem that needs
    it to behave states the documented behaviour as a hypothesis, with a witness
    at a concrete instance.

    Loops that are not structural have fuel: the number of bytes still to be
    processed or the bound of the source (cluster chains use the number of
    clusters, [bh_itoa] 64 digits, the INI loop one unit per byte); the theorems
    about results prove that the fuel suffices, never only "if it returns".

    ** What is shown

    - Crypto: SHA-256 never faults and is exactly the chain of compressions the
      code performs, and streaming refines concatenation; AES blocks (for at least
      one round and a key schedule of full length), CBC and GCM round trips; GCM releases a plaintext only for the right tag; HMAC and
      PBKDF2 are the RFC formulas over the code's hash; the S-box is FIPS 197's;
      the constant-time comparison decides equality; generator output and state.
      The code's deviations (an extra compression in [sha256_final], the GCM tag,
      the modular exponentiation that accepts nothing, the hardware path that is AES
      under byte-swapped round keys) are theorems as well.
    - Verification and measured boot: [verify_signature] accepts nothing; the
      verified loader gives out an image only when the external check it calls
      accepts (a call that does not match the library's declaration); a TPM command
      follows the TIS protocol with every device behind the registers, within the
      polling limits; the event log stays well formed.
    - File systems: file reads are functional refinements of the chain, block
      list or extent of the file, into buffers with room for whole blocks; mount
      lookup picks the longest prefix; normalised paths have no empty or dot
      components; a file of the root directory of a mounted FAT32 volume is read
      through its path (files of subdirectories are not found), ISO 9660 files are
      read 16 sectors behind their extent, ext2 files as copies of their first
      block; mounting and unmounting are inverse, and a volume mounted on "/" is out
      of reach.
    - The program: with its messages, its static variables and its stores to memory
      it takes the actions of the boot flow and leaves the flow's parameters at
      their address, on firmware whose services still answer after
      [ExitBootServices]; a bloodhorn.ini that names a kernel with the header magic
      where linux.c looks for it boots that kernel; the countdown shows a line for
      each second.
    - Boot: loading the configuration keeps every string in its array and the
      timeout in 0..300, or reads past the buffer of a string variable that is not
      terminated; INI print/parse round trip; UEFI variables win; autoboot happens
      exactly when the keyboard stays quiet; kernel.efi is entered only with valid
      parameters right after boot services were left (the loaders enter theirs with
      boot services running, never after they were left); the menu
      never leaves its entries and hotkeys select theirs; a BloodChain module
      that was added first is found, and the second one destroys its strings.
    - Coreboot: a well-formed table is found and read back as written; every
      pointer kept comes from an entry with its tag; without a table the code
      still believes in one and parses what lies behind the searched range, so that
      [UefiMain] does not enter kernel.efi unless a memory map is found there; a
      created payload file holds its parts, and the validator rejects it; the payload
      enters kernel.efi with its parameters in memory, or asks for a reboot; the
      coreboot main program runs to its end and its kernel hash decides nothing.
    - Loaders: each puts the kernel, the initrd, the command line and the
      information structure where it says, for images that fit; the theorems
      state the part of a command line that survives, and what happens to the
      images that do not fit (zero-sized tags, kernels over the initrd, sector
      structures past their buffer).

    - Network: the two checksum routines are the Internet checksum; ARP answers
      come from the first matching frame; DHCP options and TFTP requests are read
      back; a downloaded kernel is the one that is booted.
    - Menu entries: the BloodChain entry enters its kernel with a valid structure,
      which an initrd makes useless; the PXE entry boots what it downloads; the
      UEFI-shell entry starts the first image there is; a loader without a kernel
      file is an error.
    - Tools: tables find what was put into them and what the cut names miss;
      scripts compiled from expressions compute their value; INI files are read
      back, and the JSON parser returns or runs past the end of its text; a shell session answers
      line by line, and what happens when its input ends; locale files are read
      back and their table never overflows.
    - Screen: rectangles and glyphs change exactly their own pixels and never
      leave the frame buffer; a text is as wide as it was measured; the font
      cache's shutdown leaks every second font and frees a cached default font
      twice.  The menu with its drawing and mouse ends as the state machine does;
      the frame in which Enter is read makes the drawing calls for the entry that
      boots; without graphics the mouse code dereferences NULL.
    - Firmware library: [CopyMem] is a move for every alignment and overlap; the
      string functions compute what the configuration code's model of them
      computes; the printer terminates within its buffer for every format, prints
      the text of the loader's directives, and makes the strings the model uses.
    - Errors: the coreboot reader of the development library reports a missing table
      or memory record and a wrong checksum and adds no region; both file readers
      release what they hold on every path but the root directory.

    ** What is not modelled

    The responses [limine_load_kernel] builds in allocated memory, which it links
    to no request (the code that fills them does not type-check); inline assembly other than the AES
    instructions.  SHA-512 is a parameter, since security/sha512.c is one line of
    escaped text, and so are the functions the sources call and no file defines
    ([DrawImage], [AddLocalizedString], the driver functions of shell_fs.c,
    [LoadFileToMemory]).  The firmware calls around the modelled parts
    ([LoadImage], [StartImage], protocol lookups) are parameters.  The drivers,
    crypto and user-interface packages of EDK2 are third-party code the loader
    only reaches through those calls. *)

From stdpp Require Export base numbers list list_numbers gmap strings.
From Stdlib Require Export ZArith Lia.

#[export] Set Default Goal Selector "!".
#[global] Open Scope Z_scope.

Abbreviation bytes := (list Z).

(** ** Machine integers

    A [w]-bit unsigned C value is a [Z] in [0 .. 2^w - 1]; the wrap-around of
    the C operators is written with [wrap w]. *)

Definition wrap (w x : Z) : Z := x mod 2 ^ w.

Abbreviation u8 := (wrap 8).
Abbreviation u16 := (wrap 16).
Abbreviation u32 := (wrap 32).
Abbreviation u64 := (wrap 64).

(** The conversion of an unsigned 32-bit value to [int] (two's complement). *)
Definition s32 (x : Z) : Z := (x + 2 ^ 31) mod 2 ^ 32 - 2 ^ 31.

Definition in_u (w x : Z) : Prop := 0 <= x < 2 ^ w.

Declare Scope c_scope.
Delimit Scope c_scope with C.
Infix "|||" := Z.lor (at level 50, left associativity) : c_scope.
Infix "^^" := Z.lxor (at level 45, left associativity) : c_scope.
Infix "&&&" := Z.land (at level 40, left associativity) : c_scope.
Infix ">>>" := Z.shiftr (at level 36, left associativity) : c_scope.
Infix "<<<" := Z.shiftl (at level 36, left associativity) : c_scope.
#[global] Open Scope c_scope.

(** ** Results of C code

    A piece of C either returns a value, meets undefined behaviour (an access
    outside its object, a division by zero), or has not finished within the
    fuel given to its loop. *)

Inductive run (A : Type) : Type :=
| Ret (a : A)
| UB
| OutOfFuel.

Arguments Ret {A} a.
Arguments UB {A}.
Arguments OutOfFuel {A}.

#[export] Instance run_ret : MRet run := fun A a => Ret a.

#[export] Instance run_bind : MBind run := fun A B f m =>
  match m with
  | Ret a => f a
  | UB => UB
  | OutOfFuel => OutOfFuel
  end.

(** ** Arrays *)

Definition zlen {A} (l : list A) : Z := Z.of_nat (length l).

(** [zget l i] is the value of the element [i] where the access is in range. *)
Definition zget (l : bytes) (i : Z) : Z := nth (Z.to_nat i) l 0.

Definition zset (l : bytes) (i v : Z) : bytes := <[Z.to_nat i := v]> l.

(** [n] bytes of [l] from offset [off]. *)
Definition sub (l : bytes) (off n : Z) : bytes :=
  take (Z.to_nat n) (drop (Z.to_nat off) l).

(** [l] with [l'] written at offset [off]. *)
Definition splice (l : bytes) (off : Z) (l' : bytes) : bytes :=
  take (Z.to_nat off) l ++ l' ++ drop (Z.to_nat off + length l') l.

(** Checked accesses: outside the object the behaviour is undefined. *)
Definition rd (l : bytes) (i : Z) : run Z :=
  if (0 <=? i) && (i <? zlen l) then Ret (zget l i) else UB.

Definition wr (l : bytes) (i v : Z) : run bytes :=
  if (0 <=? i) && (i <? zlen l) then Ret (zset l i v) else UB.

(** [memcpy(dst + doff, src + soff, n)] for objects that do not overlap. *)
Definition memcpy (dst : bytes) (doff : Z) (src : bytes) (soff n : Z) : run bytes :=
  if (0 <=? n) && (0 <=? doff) && (0 <=? soff) &&
     (doff + n <=? zlen dst) && (soff + n <=? zlen src)
  then Ret (splice dst doff (sub src soff n))
  else UB.

Definition zeros (n : Z) : bytes := replicate (Z.to_nat n) 0.

(** Byte-wise [a[i] ^ b[i]]. *)
Definition xor_bytes (a b : bytes) : bytes := zip_with Z.lxor a b.

(** [for (i = lo; i < lo + n; i++) s = f i s] *)
Definition for_loop {S} (lo n : Z) (f : Z -> S -> S) (s : S) : S :=
  fold_left (fun s i => f i s) (seqZ lo n) s.

(** ** Little- and big-endian values *)

Fixpoint le_val (l : bytes) : Z :=
  match l with
  | [] => 0
  | b :: l' => b + 256 * le_val l'
  end.

Fixpoint le_bytes (n : nat) (v : Z) : bytes :=
  match n with
  | O => []
  | S n' => v mod 256 :: le_bytes n' (v / 256)
  end.

Definition be_val (l : bytes) : Z := le_val (rev l).
Definition be_bytes (n : nat) (v : Z) : bytes := rev (le_bytes n v).

(** An unaligned little-endian load of [n] bytes, as [*(uintN_t * )(l + off)]. *)
Definition rd_le (l : bytes) (off : Z) (n : Z) : run Z :=
  if (0 <=? off) && (off + n <=? zlen l) then Ret (le_val (sub l off n)) else UB.

(** ** UEFI status codes (64-bit: an error has the top bit set) *)

Definition EFI_SUCCESS : Z := 0.
Definition EFI_LOAD_ERROR : Z := 2 ^ 63 + 1.
Definition EFI_INVALID_PARAMETER : Z := 2 ^ 63 + 2.
Definition EFI_BUFFER_TOO_SMALL : Z := 2 ^ 63 + 5.
Definition EFI_NOT_READY : Z := 2 ^ 63 + 6.
Definition EFI_DEVICE_ERROR : Z := 2 ^ 63 + 7.
Definition EFI_OUT_OF_RESOURCES : Z := 2 ^ 63 + 9.
Definition EFI_NOT_FOUND : Z := 2 ^ 63 + 14.
Definition EFI_SECURITY_VIOLATION : Z := 2 ^ 63 + 26.
Definition EFI_ERROR (status : Z) : bool := 2 ^ 63 <=? status.

(** ** Well-formed byte strings *)

Definition is_byte (b : Z) : Prop := in_u 8 b.
Definition is_bytes (l : bytes) : Prop := Forall is_byte l.

#[export] Instance in_u_dec w x : Decision (in_u w x).
Proof. unfold in_u. apply _. Defined.

(** ** Automation *)

Create HintDb cbounds.
Create Rewrite HintDb clen.

(** Reduce a [run] computation whose first step is a known [Ret]. *)
Ltac run_step := cbn [mbind run_bind mret run_ret].

Lemma run_bind_ret {A B} (a : A) (f : A -> run B) : (Ret a ≫= f) = f a.
Proof. reflexivity. Qed.

Lemma run_mret {A} (a : A) : mret a = Ret a.
Proof. reflexivity. Qed.

(** The same by rewriting: the calls further on are not unfolded. *)
Ltac bind_step := rewrite ?run_mret, ?run_bind_ret; cbv beta zeta.

(** [lia] with the equations of [/] and [mod]. *)
Ltac dlia := Z.to_euclidean_division_equations; lia.

(** Split a conjunction of boolean tests in the context. *)
Ltac bool_hyps :=
  repeat match goal with
  | H : (_ && _) = true |- _ => apply andb_true_iff in H; destruct H
  | H : (_ || _) = false |- _ => apply orb_false_iff in H; destruct H
  | H : negb _ = true |- _ => apply negb_true_iff in H
  | H : negb _ = false |- _ => apply negb_false_iff in H
  | H : (_ <? _) = true |- _ => apply Z.ltb_lt in H
  | H : (_ <? _) = false |- _ => apply Z.ltb_ge in H
  | H : (_ <=? _) = true |- _ => apply Z.leb_le in H
  | H : (_ <=? _) = false |- _ => apply Z.leb_gt in H
  | H : (_ =? _) = true |- _ => apply Z.eqb_eq in H
  | H : (_ =? _) = false |- _ => apply Z.eqb_neq in H
  end.

(** Prove that a boolean test has a known value by arithmetic. *)
Ltac zbool :=
  repeat match goal with
  | |- (_ && _) = true => apply andb_true_iff; split
  | |- (_ || _) = false => apply orb_false_iff; split
  | |- negb _ = true => apply negb_true_iff
  | |- (_ <? _) = true => apply Z.ltb_lt
  | |- (_ <? _) = false => apply Z.ltb_ge
  | |- (_ <=? _) = true => apply Z.leb_le
  | |- (_ <=? _) = false => apply Z.leb_gt
  | |- (_ =? _) = true => apply Z.eqb_eq
  | |- (_ =? _) = false => apply Z.eqb_neq
  end; try lia.

(** ** Lemmas on machine integers *)

Lemma wrap_small w x : in_u w x -> wrap w x = x.
Proof. intros H. unfold wrap. apply Z.mod_small. exact H. Qed.

Lemma wrap_in_u w x : 0 <= w -> in_u w (wrap w x).
Proof. intros H. unfold in_u, wrap. apply Z.mod_pos_bound. lia. Qed.

Lemma wrap_idemp w x : 0 <= w -> wrap w (wrap w x) = wrap w x.
Proof. intros H. apply wrap_small, wrap_in_u, H. Qed.

Lemma in_u_le w w' x : w <= w' -> in_u w x -> in_u w' x.
Proof.
  unfold in_u. intros Hw Hx.
  destruct (Z.lt_ge_cases w 0) as [Hn|Hn].
  - rewrite Z.pow_neg_r in Hx by lia. lia.
  - assert (2 ^ w <= 2 ^ w') by (apply Z.pow_le_mono_r; lia). lia.
Qed.

(** A nonnegative value is a [w]-bit value when its bits from [w] on are 0. *)
Lemma in_u_bits w x :
  0 <= w -> 0 <= x -> (forall i, w <= i -> Z.testbit x i = false) -> in_u w x.
Proof.
  intros Hw Hx Hb. split; [exact Hx|].
  replace x with (x mod 2 ^ w).
  { apply Z.mod_pos_bound. lia. }
  apply Z.bits_inj'. intros i Hi. rewrite Z.testbit_mod_pow2 by lia.
  destruct (Z.ltb_spec i w); [reflexivity|]. rewrite Hb by lia. reflexivity.
Qed.

Lemma in_u_testbit w x i : in_u w x -> w <= i -> Z.testbit x i = false.
Proof.
  intros Hx Hi. destruct (Z.lt_ge_cases w 0) as [Hn|Hn].
  { unfold in_u in Hx. rewrite Z.pow_neg_r in Hx by lia. lia. }
  rewrite <- (wrap_small w x Hx). unfold wrap. apply Z.mod_pow2_bits_high. lia.
Qed.

Lemma in_u_lxor w x y : 0 <= w -> in_u w x -> in_u w y -> in_u w (x ^^ y).
Proof.
  intros Hw Hx Hy. apply in_u_bits; [lia| |].
  - apply Z.lxor_nonneg. unfold in_u in *. lia.
  - intros i Hi. rewrite Z.lxor_spec.
    by rewrite (in_u_testbit w x), (in_u_testbit w y).
Qed.

Lemma in_u_land w x y : 0 <= w -> in_u w x -> 0 <= y -> in_u w (x &&& y).
Proof.
  intros Hw Hx Hy. apply in_u_bits; [lia| |].
  - apply Z.land_nonneg. unfold in_u in *. lia.
  - intros i Hi. rewrite Z.land_spec. by rewrite (in_u_testbit w x).
Qed.

Lemma in_u_lor w x y : 0 <= w -> in_u w x -> in_u w y -> in_u w (x ||| y).
Proof.
  intros Hw Hx Hy. apply in_u_bits; [lia| |].
  - apply Z.lor_nonneg. unfold in_u in *. lia.
  - intros i Hi. rewrite Z.lor_spec.
    by rewrite (in_u_testbit w x), (in_u_testbit w y).
Qed.

Lemma in_u_shiftr w x n : 0 <= n -> in_u w x -> in_u w (x >>> n).
Proof.
  intros Hn Hx. unfold in_u in *. rewrite Z.shiftr_div_pow2 by lia.
  assert (0 < 2 ^ n) by lia. split.
  - apply Z.div_pos; lia.
  - apply Z.le_lt_trans with x; [|lia].
    apply Z.div_le_upper_bound; [lia|]. nia.
Qed.

#[export] Hint Resolve wrap_in_u in_u_lxor in_u_land in_u_lor in_u_shiftr : cbounds.
#[export] Hint Extern 1 (_ <= _)%Z => lia : cbounds.

Lemma lxor_cancel_r x y : (x ^^ y) ^^ y = x.
Proof. rewrite Z.lxor_assoc, Z.lxor_nilpotent, Z.lxor_0_r. reflexivity. Qed.

(** ** Lemmas on arrays *)

Lemma zlen_nonneg {A} (l : list A) : 0 <= zlen l.
Proof. unfold zlen. lia. Qed.

Lemma zlen_app {A} (l l' : list A) : zlen (l ++ l') = zlen l + zlen l'.
Proof. unfold zlen. rewrite length_app. lia. Qed.

Lemma zlen_zset l i v : zlen (zset l i v) = zlen l.
Proof. unfold zlen, zset. by rewrite length_insert. Qed.

Lemma zlen_sub l off n :
  0 <= off -> 0 <= n -> off + n <= zlen l -> zlen (sub l off n) = n.
Proof. unfold zlen, sub. intros. rewrite length_take, length_drop. lia. Qed.

Lemma length_sub l off n :
  0 <= off -> 0 <= n -> off + n <= zlen l -> length (sub l off n) = Z.to_nat n.
Proof. unfold zlen, sub. intros. rewrite length_take, length_drop. lia. Qed.

Lemma zlen_splice l off l' :
  0 <= off -> off + zlen l' <= zlen l -> zlen (splice l off l') = zlen l.
Proof.
  unfold zlen, splice. intros. rewrite !length_app, length_take, length_drop. lia.
Qed.

Lemma zget_zeros n i : zget (zeros n) i = 0.
Proof.
  unfold zget, zeros. generalize (Z.to_nat i), (Z.to_nat n). intros j k. revert j.
  induction k as [|k IH]; intros [|j]; cbn; auto.
Qed.

Lemma zlen_zeros n : 0 <= n -> zlen (zeros n) = n.
Proof. intros. unfold zlen, zeros. rewrite length_replicate. lia. Qed.

#[export] Hint Rewrite @zlen_app zlen_zset : clen.
#[export] Hint Rewrite zlen_sub zlen_splice zlen_zeros using (unfold zlen in *; lia) : clen.

Lemma memcpy_ok dst doff src soff n :
  0 <= n -> 0 <= doff -> 0 <= soff -> doff + n <= zlen dst -> soff + n <= zlen src ->
  memcpy dst doff src soff n = Ret (splice dst doff (sub src soff n)).
Proof.
  intros. unfold memcpy.
  replace ((0 <=? n) && _ && _ && _ && _) with true; [reflexivity|].
  symmetry. zbool.
Qed.

Lemma memcpy_overrun dst doff src soff n :
  zlen dst < doff + n -> memcpy dst doff src soff n = UB.
Proof.
  intros H. unfold memcpy. destruct (Z.leb_spec (doff + n) (zlen dst)); [lia|].
  by rewrite andb_false_r.
Qed.

Lemma sub_all l n : n = zlen l -> sub l 0 n = l.
Proof. intros ->. unfold sub, zlen. rewrite drop_0. apply take_ge. lia. Qed.

Lemma sub_0 l n : sub l 0 n = take (Z.to_nat n) l.
Proof. reflexivity. Qed.

Lemma splice_all l l' : zlen l' = zlen l -> splice l 0 l' = l'.
Proof.
  unfold zlen, splice. intros H. rewrite take_0, drop_ge by lia.
  by rewrite app_nil_r.
Qed.

(** ** Lemmas on byte strings *)

Lemma is_bytes_app l l' : is_bytes (l ++ l') <-> is_bytes l /\ is_bytes l'.
Proof. apply Forall_app. Qed.

Lemma is_bytes_take n l : is_bytes l -> is_bytes (take n l).
Proof. apply Forall_take. Qed.

Lemma is_bytes_drop n l : is_bytes l -> is_bytes (drop n l).
Proof. apply Forall_drop. Qed.

Lemma zeros_add n m : 0 <= n -> 0 <= m -> zeros (n + m) = zeros n ++ zeros m.
Proof. intros. unfold zeros. rewrite Z2Nat.inj_add by lia. apply replicate_add. Qed.

Lemma is_bytes_zeros n : is_bytes (zeros n).
Proof. apply Forall_replicate. unfold is_byte, in_u. lia. Qed.

Lemma is_bytes_xor a b : is_bytes a -> is_bytes b -> is_bytes (xor_bytes a b).
Proof.
  intros Ha Hb. revert b Hb. induction Ha as [|x a Hx Ha IH]; intros b Hb.
  { constructor. }
  destruct Hb as [|y b Hy Hb]; [constructor|]. cbn. constructor.
  - apply in_u_lxor; [lia|exact Hx|exact Hy].
  - by apply IH.
Qed.

#[export] Hint Resolve is_bytes_take is_bytes_drop is_bytes_zeros is_bytes_xor : cbounds.

Lemma is_bytes_get l i : is_bytes l -> is_byte (zget l i).
Proof.
  intros H. unfold zget. destruct (nth_in_or_default (Z.to_nat i) l 0) as [Hin| ->].
  - by eapply (proj1 (List.Forall_forall _ _) H).
  - unfold is_byte, in_u. lia.
Qed.
#[export] Hint Resolve is_bytes_get : cbounds.

Lemma length_xor_bytes a b :
  length (xor_bytes a b) = Nat.min (length a) (length b).
Proof. unfold xor_bytes. apply length_zip_with. Qed.

(** Masking twice with the same mask gives the text back. *)
Lemma xor_bytes_cancel a b :
  (length a <= length b)%nat -> xor_bytes (xor_bytes a b) b = a.
Proof.
  revert b. induction a as [|x a IH]; intros [|y b] H; cbn in *; try done || lia.
  f_equal; [apply lxor_cancel_r|]. apply IH. lia.
Qed.

Lemma length_le_bytes n v : length (le_bytes n v) = n.
Proof. revert v. induction n; intros v; cbn; auto. Qed.

Lemma is_bytes_le_bytes n v : is_bytes (le_bytes n v).
Proof.
  revert v. induction n as [|n IH]; intros v; [constructor|].
  constructor; [unfold is_byte, in_u; change (2 ^ 8) with 256; dlia | apply IH].
Qed.

Lemma le_val_bytes n v : le_val (le_bytes n v) = v mod 256 ^ Z.of_nat n.
Proof.
  revert v. induction n as [|n IH]; intros v.
  { cbn. by rewrite Z.mod_1_r. }
  cbn [le_bytes le_val]. rewrite IH.
  rewrite Nat2Z.inj_succ, Z.pow_succ_r by lia.
  rewrite Z.rem_mul_r by lia. lia.
Qed.

Lemma le_val_range l : is_bytes l -> 0 <= le_val l < 256 ^ zlen l.
Proof.
  unfold zlen. induction 1 as [|b l Hb Hl IH]; [cbn; lia|].
  cbn [le_val length]. rewrite Nat2Z.inj_succ, Z.pow_succ_r by lia.
  unfold is_byte, in_u in Hb. change (2 ^ 8) with 256 in Hb. lia.
Qed.

Lemma le_bytes_val l : is_bytes l -> le_bytes (length l) (le_val l) = l.
Proof.
  induction 1 as [|b l Hb Hl IH]; [done|]. cbn [le_val length le_bytes].
  unfold is_byte, in_u in Hb. change (2 ^ 8) with 256 in Hb.
  f_equal.
  - rewrite Z.mul_comm, Z.mod_add by lia. by apply Z.mod_small.
  - rewrite Z.mul_comm, Z.div_add, Z.div_small by lia. by rewrite Z.add_0_l.
Qed.

(** ** Folds *)

Lemma fold_left_inv {A B} (P : A -> Prop) (f : A -> B -> A) :
  (forall a b, P a -> P (f a b)) -> forall l a, P a -> P (fold_left f l a).
Proof. intros Hf l. induction l as [|b l IH]; intros a Ha; cbn; auto. Qed.

Lemma fold_left_ext_in {A B} (f g : A -> B -> A) l : forall a,
  (forall a b, b ∈ l -> f a b = g a b) -> fold_left f l a = fold_left g l a.
Proof.
  induction l as [|b l IH]; intros a H; [done|]. cbn. rewrite H by constructor.
  apply IH. intros. apply H. by constructor.
Qed.

(** If each step is undone, under [post], by a step of [undo], then a whole run
    is undone by the undo steps in reverse order. *)
Lemma fold_left_undo {A B} (P : A -> Prop) (step undo : A -> B -> A) (post : A -> A) :
  (forall a b, P a -> P (step a b)) ->
  (forall a b, P a -> undo (post (step a b)) b = post a) ->
  forall l a, P a -> fold_left undo (rev l) (post (fold_left step l a)) = post a.
Proof.
  intros Hs Hu l. induction l as [|b l IH]; intros a Ha; [reflexivity|].
  cbn [rev fold_left]. rewrite fold_left_app. cbn [fold_left].
  rewrite IH by auto. auto.
Qed.

(** ** In-place loops over an array *)

Lemma zget_zset l i j v :
  0 <= i -> 0 <= j -> zget (zset l i v) j = if (i =? j) && (j <? zlen l) then v else zget l j.
Proof.
  intros Hi Hj. unfold zget, zset, zlen.
  destruct (Z.eqb_spec i j) as [->|Hne]; cbn [andb].
  - destruct (Z.ltb_spec j (Z.of_nat (length l))) as [Hl|Hl].
    + erewrite nth_lookup_Some; [reflexivity|]. apply list_lookup_insert_eq. lia.
    + by rewrite list_insert_ge by lia.
  - rewrite !nth_lookup, list_lookup_insert_ne by lia. reflexivity.
Qed.

Lemma zget_ext (a b : bytes) :
  length a = length b -> (forall i, 0 <= i < zlen a -> zget a i = zget b i) -> a = b.
Proof.
  intros Hl H. apply (nth_ext a b 0 0 Hl). intros n Hn.
  specialize (H (Z.of_nat n)). unfold zget, zlen in H. rewrite Nat2Z.id in H. apply H. lia.
Qed.

(** [for (i = lo; i < lo + n; i++) p[i] = g(i, p[i]);] *)
Lemma for_loop_zset_length lo n g (p : bytes) :
  length (for_loop lo n (fun i p => zset p i (g i (zget p i))) p) = length p.
Proof.
  unfold for_loop. apply (fold_left_inv (fun q : bytes => length q = length p)); [|done].
  intros q i <-. unfold zset. apply length_insert.
Qed.

Lemma for_loop_zset_get lo n g (p : bytes) j :
  0 <= lo -> 0 <= n -> 0 <= j < zlen p ->
  zget (for_loop lo n (fun i p => zset p i (g i (zget p i))) p) j =
  if (lo <=? j) && (j <? lo + n) then g j (zget p j) else zget p j.
Proof.
  intros Hlo Hn. unfold for_loop. rewrite <- (Z2Nat.id n Hn). clear Hn.
  generalize (Z.to_nat n) as k. clear n. intros k. revert lo p Hlo.
  induction k as [|k IH]; intros lo p Hlo Hj.
  { change (Z.of_nat 0) with 0. replace ((lo <=? j) && (j <? lo + 0)) with false; [reflexivity|].
    destruct (Z.leb_spec lo j), (Z.ltb_spec j (lo + 0)); cbn [andb]; lia || reflexivity. }
  rewrite seqZ_cons, Nat2Z.inj_succ, Z.pred_succ by lia. cbn [fold_left].
  rewrite IH by (rewrite ?zlen_zset; lia). rewrite zget_zset by lia.
  destruct (Z.leb_spec (Z.succ lo) j), (Z.ltb_spec j (Z.succ lo + Z.of_nat k)),
    (Z.leb_spec lo j), (Z.ltb_spec j (lo + Z.succ (Z.of_nat k))),
    (Z.eqb_spec lo j), (Z.ltb_spec j (zlen p)); subst; cbn; lia || reflexivity.
Qed.

(** A loop over the whole of [p] is a map. *)
Lemma for_loop_map f (p : bytes) n :
  n = zlen p -> for_loop 0 n (fun i p => zset p i (f (zget p i))) p = map f p.
Proof.
  intros ->. apply zget_ext.
  { rewrite (for_loop_zset_length 0 (zlen p) (fun _ => f)). by rewrite length_map. }
  intros i Hi. unfold zlen in Hi. rewrite (for_loop_zset_length 0 (zlen p) (fun _ => f)) in Hi.
  rewrite (for_loop_zset_get 0 (zlen p) (fun _ => f)) by (unfold zlen; lia).
  replace ((0 <=? i) && (i <? 0 + zlen p)) with true by (symmetry; unfold zlen; zbool).
  unfold zget. rewrite (nth_indep (map f p) 0 (f 0)) by (rewrite length_map; lia).
  by rewrite map_nth.
Qed.

(** A loop that combines [p] with a second array of at least its length. *)
Lemma for_loop_zip f (p q : bytes) n :
  n = zlen p -> zlen p <= zlen q ->
  for_loop 0 n (fun i p => zset p i (f (zget p i) (zget q i))) p = zip_with f p q.
Proof.
  intros -> Hq. apply zget_ext.
  { rewrite (for_loop_zset_length 0 (zlen p) (fun i x => f x (zget q i))), length_zip_with.
    unfold zlen in *. lia. }
  intros i Hi. unfold zlen in Hi, Hq.
  rewrite (for_loop_zset_length 0 (zlen p) (fun i x => f x (zget q i))) in Hi.
  rewrite (for_loop_zset_get 0 (zlen p) (fun i x => f x (zget q i))) by (unfold zlen; lia).
  replace ((0 <=? i) && (i <? 0 + zlen p)) with true by (symmetry; unfold zlen; zbool).
  unfold zget. rewrite !nth_lookup, lookup_zip_with.
  destruct (lookup_lt_is_Some_2 p (Z.to_nat i)) as [x Hx]; [lia|].
  destruct (lookup_lt_is_Some_2 q (Z.to_nat i)) as [y Hy]; [lia|].
  by rewrite Hx, Hy.
Qed.

(** ** Writing into an array *)

Lemma memcpy_app (a b src : bytes) off n :
  off = zlen a -> 0 <= n <= zlen b -> n <= zlen src ->
  memcpy (a ++ b) off src 0 n = Ret (a ++ sub src 0 n ++ drop (Z.to_nat n) b).
Proof.
  intros -> Hb Hs. pose proof (zlen_nonneg a) as Ha.
  rewrite memcpy_ok by (rewrite ?zlen_app; lia). f_equal. unfold splice.
  rewrite length_sub by lia. unfold zlen. rewrite Nat2Z.id, take_app_length.
  by rewrite <- drop_drop, drop_app_length.
Qed.

Lemma memcpy_start (b src : bytes) n :
  0 <= n <= zlen b -> n <= zlen src ->
  memcpy b 0 src 0 n = Ret (sub src 0 n ++ drop (Z.to_nat n) b).
Proof. intros Hb Hs. by apply (memcpy_app [] b src 0 n). Qed.

Lemma wr_app (a : bytes) x (b : bytes) i v :
  i = zlen a -> wr (a ++ x :: b) i v = Ret ((a ++ [v]) ++ b).
Proof.
  intros ->. unfold wr. pose proof (zlen_nonneg a) as Ha.
  replace ((0 <=? zlen a) && _) with true
    by (symmetry; rewrite zlen_app; unfold zlen in *; cbn [length]; zbool).
  f_equal. unfold zset, zlen. rewrite Nat2Z.id.
  replace (length a) with (length a + 0)%nat by lia.
  rewrite insert_app_r. by rewrite <- app_assoc.
Qed.

Lemma splice_splice l off a b :
  0 <= off -> off + zlen a + zlen b <= zlen l ->
  splice (splice l off a) (off + zlen a) b = splice l off (a ++ b).
Proof.
  intros Ho Hl. unfold splice, zlen in *.
  assert (Ht : length (take (Z.to_nat off) l ++ a) = Z.to_nat (off + Z.of_nat (length a)))
    by (rewrite length_app, length_take; lia).
  rewrite (app_assoc (take (Z.to_nat off) l) a), <- Ht, take_app_length, <- drop_drop, drop_app_length, drop_drop.
  rewrite length_app, <- !app_assoc. do 3 f_equal. f_equal. lia.
Qed.

Lemma splice_nil l off : 0 <= off -> splice l off [] = l.
Proof. intros H. unfold splice. cbn [app length]. rewrite Nat.add_0_r. apply take_drop. Qed.

Lemma sub_app_l (a b : bytes) n : n = zlen a -> sub (a ++ b) 0 n = a.
Proof. intros ->. unfold sub, zlen. rewrite drop_0, Nat2Z.id. apply take_app_length. Qed.

Lemma sub_app_ge (a b : bytes) n :
  zlen a <= n -> sub (a ++ b) 0 n = a ++ sub b 0 (n - zlen a).
Proof.
  unfold sub, zlen. intros H. rewrite !drop_0, take_app, take_ge by lia. do 2 f_equal. lia.
Qed.

Lemma sub_app_le (a b : bytes) n : n <= zlen a -> sub (a ++ b) 0 n = sub a 0 n.
Proof. unfold sub, zlen. intros H. rewrite !drop_0. apply take_app_le. lia. Qed.

(** ** Reading parts of an array *)

Lemma zget_take (l : bytes) n i : 0 <= i < Z.of_nat n -> zget (take n l) i = zget l i.
Proof.
  intros Hi. unfold zget. rewrite !nth_lookup, lookup_take_lt by lia. reflexivity.
Qed.

Lemma zget_drop (l : bytes) n i : 0 <= i -> zget (drop n l) i = zget l (Z.of_nat n + i).
Proof.
  intros Hi. unfold zget. rewrite !nth_lookup, lookup_drop. do 2 f_equal. lia.
Qed.

Lemma zget_sub (l : bytes) off n i : 0 <= off -> 0 <= i < n -> zget (sub l off n) i = zget l (off + i).
Proof.
  intros Ho Hi. unfold sub. rewrite zget_take, zget_drop by lia. f_equal. lia.
Qed.

Lemma zget_app (a b : bytes) i :
  0 <= i -> zget (a ++ b) i = if i <? zlen a then zget a i else zget b (i - zlen a).
Proof.
  intros Hi. unfold zget, zlen. destruct (Z.ltb_spec i (Z.of_nat (length a))).
  - apply app_nth1. lia.
  - rewrite app_nth2 by lia. f_equal. lia.
Qed.

Lemma zget_splice (l : bytes) off l' i :
  0 <= off -> off + zlen l' <= zlen l -> 0 <= i ->
  zget (splice l off l') i =
  if (off <=? i) && (i <? off + zlen l') then zget l' (i - off) else zget l i.
Proof.
  intros Ho Hl Hi. unfold splice.
  assert (Ht : zlen (take (Z.to_nat off) l) = off)
    by (unfold zlen in *; rewrite length_take; lia).
  rewrite zget_app, Ht by lia. destruct (Z.ltb_spec i off), (Z.leb_spec off i); try lia; cbn [andb].
  - apply zget_take. lia.
  - rewrite zget_app by lia.
    destruct (Z.ltb_spec (i - off) (zlen l')), (Z.ltb_spec i (off + zlen l')); try lia.
    rewrite zget_drop by lia. f_equal. unfold zlen in *. lia.
Qed.

(** ** Byte strings as lists of fields *)

Lemma zlen_le_bytes n v : zlen (le_bytes n v) = Z.of_nat n.
Proof. unfold zlen. by rewrite length_le_bytes. Qed.

Lemma concat_chunk (cs : list bytes) k c : cs !! k = Some c ->
  concat cs = concat (take k cs) ++ c ++ concat (drop (S k) cs).
Proof. intros H. rewrite <- (take_drop_middle cs k c H) at 1. by rewrite concat_app. Qed.

Lemma splice_middle (a c d l : bytes) : zlen l = zlen c ->
  splice (a ++ c ++ d) (zlen a) l = a ++ l ++ d.
Proof.
  intros Hl. unfold splice.
  assert (E : Z.to_nat (zlen a) = length a) by (unfold zlen; lia). rewrite E, take_app_length.
  f_equal. f_equal. rewrite drop_app_ge, drop_app_ge; unfold zlen in *; try lia.
  replace (_ - _ - _)%nat with 0%nat by lia. done.
Qed.

(** The [k]-th field is read and written at the length of those before it. *)
Lemma sub_chunk (cs : list bytes) k c off n : cs !! k = Some c ->
  off = zlen (concat (take k cs)) -> n = zlen c -> sub (concat cs) off n = c.
Proof.
  intros Hc -> ->. rewrite (concat_chunk cs k c Hc). unfold sub, zlen. rewrite !Nat2Z.id.
  by rewrite drop_app_length, take_app_length.
Qed.

Lemma concat_insert (cs : list bytes) k c l : cs !! k = Some c ->
  concat (<[k:=l]> cs) = concat (take k cs) ++ l ++ concat (drop (S k) cs).
Proof.
  intros Hc. assert (Hk : (k < length cs)%nat) by (apply lookup_lt_is_Some; eauto).
  rewrite (concat_chunk (<[k:=l]> cs) k l) by (by apply list_lookup_insert_eq).
  by rewrite take_insert_ge, drop_insert_lt by lia.
Qed.

Lemma memcpy_chunk (cs : list bytes) k c off src n : cs !! k = Some c ->
  off = zlen (concat (take k cs)) -> zlen src = zlen c -> n = zlen c ->
  memcpy (concat cs) off src 0 n = Ret (concat (<[k:=src]> cs)).
Proof.
  intros Hc -> Hl ->. pose proof (zlen_nonneg (concat (take k cs))). pose proof (zlen_nonneg c).
  pose proof (zlen_nonneg (concat (drop (S k) cs))).
  rewrite memcpy_ok; rewrite ?(concat_chunk cs k c Hc), ?zlen_app; try lia.
  rewrite (concat_insert cs k c) by done. f_equal.
  replace (sub src 0 (zlen c)) with src.
  - by apply splice_middle.
  - unfold sub. rewrite drop_0. rewrite take_ge; [done|]. unfold zlen in *. lia.
Qed.
