(* ===== verification/PhysMem.v ===== *)
(** * Physical memory

    The loaders and the coreboot code read and write memory at fixed physical
    addresses.  Memory is a function from addresses to bytes; [poke] and [fill]
    are [memcpy]/[strcpy] and [memset] to such an address, [fetch] reads.  Files
    and local buffers are objects of their own, apart from this memory. *)

From S2P Require Import Prelude.
Import ListNotations.
#[local] Open Scope list_scope.

Definition phys : Type := Z -> Z.

Definition fetch (mem : phys) (a n : Z) : bytes := mem <$> seqZ a n.
Definition fetch_le (mem : phys) (a n : Z) : Z := le_val (fetch mem a n).

Definition poke (mem : phys) (a : Z) (l : bytes) : phys := fun x =>
  if (a <=? x) && (x <? a + zlen l) then zget l (x - a) else mem x.

Definition poke_le (mem : phys) (a : Z) (n : nat) (v : Z) : phys := poke mem a (le_bytes n v).

Definition fill (mem : phys) (a v n : Z) : phys := fun x =>
  if (a <=? x) && (x <? a + n) then v else mem x.

(** [mem] has the bytes [l] at [a]. *)
Definition holds (mem : phys) (a : Z) (l : bytes) : Prop := fetch mem a (zlen l) = l.

(** Parts of a file: reading past its end is undefined. *)
Definition file_part (data : bytes) (off n : Z) : run bytes :=
  if (0 <=? off) && (0 <=? n) && (off + n <=? zlen data) then Ret (sub data off n) else UB.

Definition word (data : bytes) (i : Z) : run Z := rd_le data (4 * i) 4.

(** Entering code: its address, the arguments passed, and memory at that moment. *)
Record jump := mk_jump { j_entry : Z; j_args : list Z; j_memory : phys }.

(** ** Reading *)

Lemma zlen_fetch mem a n : 0 <= n -> zlen (fetch mem a n) = n.
Proof. intros. unfold fetch, zlen. rewrite length_fmap, length_seqZ. lia. Qed.

Lemma fetch_app mem a n m : 0 <= n -> 0 <= m ->
  fetch mem a (n + m) = fetch mem a n ++ fetch mem (a + n) m.
Proof. intros. unfold fetch. rewrite seqZ_app by lia. by rewrite fmap_app. Qed.

Lemma zget_fetch mem a n i : 0 <= i < n -> zget (fetch mem a n) i = mem (a + i).
Proof.
  intros Hi. unfold zget, fetch. rewrite nth_lookup, list_lookup_fmap, lookup_seqZ_lt by lia.
  cbn. f_equal. lia.
Qed.

(** Two byte strings of the same length that agree everywhere. *)
Lemma zlen_ext (l l' : bytes) : zlen l = zlen l' ->
  (forall i, 0 <= i < zlen l -> zget l i = zget l' i) -> l = l'.
Proof. intros Hl H. apply zget_ext; [unfold zlen in Hl; lia|exact H]. Qed.

Lemma holds_iff mem a l : holds mem a l <-> forall i, 0 <= i < zlen l -> mem (a + i) = zget l i.
Proof.
  unfold holds. pose proof (zlen_nonneg l). split.
  - intros H' i Hi. transitivity (zget (fetch mem a (zlen l)) i); [by rewrite zget_fetch|by rewrite H'].
  - intros H'. apply zlen_ext; rewrite zlen_fetch by lia; [done|]. intros i Hi. rewrite zget_fetch by done. by apply H'.
Qed.

Lemma holds_app mem a l l' : holds mem a (l ++ l') <-> holds mem a l /\ holds mem (a + zlen l) l'.
Proof.
  unfold holds. rewrite zlen_app, fetch_app by apply zlen_nonneg. split.
  - intros H. apply app_inj_1 in H; [done|].
    pose proof (zlen_fetch mem a (zlen l) (zlen_nonneg l)). unfold zlen in *. lia.
  - intros [H H']. by rewrite H, H'.
Qed.

Lemma fetch_holds mem a n v : holds mem a (le_bytes n v) -> 0 <= v < 256 ^ Z.of_nat n ->
  fetch_le mem a (Z.of_nat n) = v.
Proof.
  unfold holds, fetch_le. intros H Hv. unfold zlen in H. rewrite length_le_bytes in H.
  rewrite H, le_val_bytes. by apply Z.mod_small.
Qed.

Lemma fetch_word mem a v : holds mem a (le_bytes 4 v) -> 0 <= v < 2 ^ 32 -> fetch_le mem a 4 = v.
Proof. exact (fetch_holds mem a 4 v). Qed.

Lemma fetch_le_range mem a n : (forall x, is_byte (mem x)) -> 0 <= n -> 0 <= fetch_le mem a n < 256 ^ n.
Proof.
  intros Hm Hn. unfold fetch_le. rewrite <- (zlen_fetch mem a n Hn) at 3. apply le_val_range.
  apply Forall_fmap, Forall_forall. intros x _. apply Hm.
Qed.

(** ** Writing *)

Lemma holds_poke mem a l : holds (poke mem a l) a l.
Proof.
  apply holds_iff. intros i Hi. unfold poke.
  replace ((a <=? a + i) && _) with true by (symmetry; zbool). f_equal. lia.
Qed.

Definition apart (a n b m : Z) : Prop := a + n <= b \/ b + m <= a.

Lemma poke_other mem a l x : x < a \/ a + zlen l <= x -> poke mem a l x = mem x.
Proof.
  intros H. unfold poke. destruct (Z.leb_spec a x), (Z.ltb_spec x (a + zlen l)); try done. lia.
Qed.

Lemma fill_other mem a v n x : x < a \/ a + n <= x -> fill mem a v n x = mem x.
Proof.
  intros H. unfold fill. destruct (Z.leb_spec a x), (Z.ltb_spec x (a + n)); try done. lia.
Qed.

Lemma holds_poke_apart mem a l b l' : apart a (zlen l) b (zlen l') -> holds mem b l' -> holds (poke mem a l) b l'.
Proof.
  rewrite !holds_iff. intros Ha H i Hi. unfold apart in Ha. rewrite poke_other by lia. by apply H.
Qed.

Lemma holds_fill_apart mem a v n b l : apart a n b (zlen l) -> holds mem b l -> holds (fill mem a v n) b l.
Proof.
  rewrite !holds_iff. intros Ha H i Hi. unfold apart in Ha. rewrite fill_other by lia. by apply H.
Qed.

Lemma holds_fill mem a n : 0 <= n -> holds (fill mem a 0 n) a (zeros n).
Proof.
  intros Hn. apply holds_iff. rewrite zlen_zeros by done. intros i Hi. unfold fill.
  replace ((a <=? a + i) && _) with true by (symmetry; zbool). by rewrite zget_zeros.
Qed.

Lemma holds_fill_sub mem a n b k : 0 <= k -> a <= b -> b + k <= a + n -> holds (fill mem a 0 n) b (zeros k).
Proof.
  intros Hk Ha Hn. apply holds_iff. rewrite zlen_zeros by done. intros i Hi. unfold fill.
  replace ((a <=? b + i) && _) with true by (symmetry; zbool). by rewrite zget_zeros.
Qed.

(** A write inside a region that is known. *)
Lemma holds_splice mem a l b l' : holds mem a l -> 0 <= b -> b + zlen l' <= zlen l ->
  holds (poke mem (a + b) l') a (splice l b l').
Proof.
  rewrite !holds_iff. intros H Hb Hl i. rewrite zlen_splice by done. intros Hi.
  rewrite zget_splice by lia. unfold poke.
  replace (a + b <=? a + i) with (b <=? i)
    by (destruct (Z.leb_spec b i), (Z.leb_spec (a + b) (a + i)); try done; lia).
  replace (a + i <? a + b + zlen l') with (i <? b + zlen l')
    by (destruct (Z.ltb_spec i (b + zlen l')), (Z.ltb_spec (a + i) (a + b + zlen l')); try done; lia).
  destruct ((b <=? i) && (i <? b + zlen l')); [f_equal; lia|by apply H].
Qed.

(** The same with the region cut into fields. *)
Lemma holds_chunk mem a (cs : list bytes) k c l b : holds mem a (concat cs) -> cs !! k = Some c ->
  b = a + zlen (concat (take k cs)) -> zlen l = zlen c ->
  holds (poke mem b l) a (concat (<[k:=l]> cs)).
Proof.
  intros H Hc -> Hl. rewrite (concat_insert cs k c l Hc). rewrite (concat_chunk cs k c Hc) in H.
  rewrite <- (splice_middle _ c) by done. apply holds_splice; [done|apply zlen_nonneg|].
  rewrite !zlen_app. pose proof (zlen_nonneg (concat (drop (S k) cs))). lia.
Qed.

Lemma file_part_ok data off n : 0 <= off -> 0 <= n -> off + n <= zlen data ->
  file_part data off n = Ret (sub data off n).
Proof. intros. unfold file_part. by replace (_ && _ && _) with true by (symmetry; zbool). Qed.

(** ** Automation: what a sequence of writes leaves at an address *)

Ltac mem_apart :=
  unfold apart; rewrite ?zlen_app, ?zlen_le_bytes; rewrite ?zlen_zeros by lia;
  try change (zlen [0]) with 1; lia.

Ltac mem_find :=
  unfold poke_le;
  repeat first
    [ apply holds_poke
    | apply holds_poke_apart; [solve [mem_apart]|]
    | apply holds_fill_apart; [solve [mem_apart]|]
    | apply holds_fill; solve [mem_apart] ].

(** A C string: its characters and the NUL. *)
Definition c_string_at (mem : phys) (a : Z) (s : bytes) : Prop :=
  holds mem a (s ++ [0]) /\ Forall (fun c => c <> 0) s.
