(* ===== verification/EdkMem.v ===== *)
(** * EDK2's memory functions (src/Edk2BHModules/MdePkg/Library/BaseMemoryLib)

    [CopyMem], [SetMem], [ZeroMem], [CompareMem] and [CompareGuid], which the boot
    loader calls, as they are built: copies and fills by 64-bit or 32-bit words
    when the addresses are aligned, forwards or backwards so that overlapping
    buffers are copied right.  Memory is the byte memory of [PhysMem.v]; a pointer
    is its address.  A failed ASSERT does nothing in a release build. *)

From S2P Require Import Prelude.
From S2P Require Import PhysMem.

(** [*(UINTn * )d = *(UINTn * )s]: [w] bytes are read, then stored. *)
Definition copy_word (w : Z) (m : phys) (d s : Z) : phys :=
  fun a => if (d <=? a) && (a <? d + w) then m (s + (a - d)) else m a.

(** ** Loops *)

Section Loops.
Context (w : Z).

(** [while (Length >= w) { *(d++) = *(s++); Length -= w; }]; for bytes the test is
    [Length-- != 0]. *)
Fixpoint copy_up (fuel : nat) (m : phys) (d s Length : Z) : run (phys * Z * Z * Z) :=
  if w <=? Length then
    match fuel with
    | O => OutOfFuel
    | S fuel => copy_up fuel (copy_word w m d s) (d + w) (s + w) (Length - w)
    end
  else mret (m, d, s, Length).

(** [while (Length > 0) { *(--d) = *(--s); Length -= w; }], from the ends. *)
Fixpoint copy_down (fuel : nat) (m : phys) (d s Length : Z) : run phys :=
  if 0 <? Length then
    match fuel with
    | O => OutOfFuel
    | S fuel => copy_down fuel (copy_word w m (d - w) (s - w)) (d - w) (s - w) (u64 (Length - w))
    end
  else mret m.

(** [while (Alignment-- != 0) { *(--d8) = *(--s8); --Length; }]: the memory; the
    pointers and the length move by [Alignment]. *)
Fixpoint align_down (Alignment : nat) (m : phys) (d s : Z) : phys :=
  match Alignment with
  | O => m
  | S n => align_down n (copy_word 1 m (d - 1) (s - 1)) (d - 1) (s - 1)
  end.

(** [*(p++) = v; Length -= w] *)
Fixpoint fill_up (fuel : nat) (m : phys) (p v Length : Z) : run (phys * Z * Z) :=
  if w <=? Length then
    match fuel with
    | O => OutOfFuel
    | S fuel => fill_up fuel (poke_le m p (Z.to_nat w) v) (p + w) v (Length - w)
    end
  else mret (m, p, Length).
End Loops.

(** ** Copying *)

Definition loop_fuel (Length : Z) : nat := Z.to_nat Length + 1.

(** The two branches of a width: words up and the rest by bytes, or the rest by
    bytes and words down. *)
Definition copy_width (w : Z) (m : phys) (d s Length : Z) : run phys :=
  if d <? s then
    r ← copy_up w (loop_fuel Length) m d s Length;
    let '(m, d, s, Length) := r in
    r ← copy_up 1 (loop_fuel Length) m d s Length;
    mret (fst (fst (fst r)))
  else if s <? d then
    let Alignment := Z.land Length (w - 1) in
    let m := align_down (Z.to_nat Alignment) m (d + Length) (s + Length) in
    copy_down w (loop_fuel Length) m (d + Length - Alignment) (s + Length - Alignment) (Length - Alignment)
  else mret m.

(** By bytes: up, or down from the last byte. *)
Definition copy_bytes (m : phys) (d s Length : Z) : run phys :=
  if d <? s then
    r ← copy_up 1 (loop_fuel Length) m d s Length; mret (fst (fst (fst r)))
  else if s <? d then copy_down 1 (loop_fuel Length) m (d + Length) (s + Length) Length
  else mret m.

Definition InternalMemCopyMem (m : phys) (DestinationBuffer SourceBuffer Length : Z) : run phys :=
  if (Z.land DestinationBuffer 7 =? 0) && (Z.land SourceBuffer 7 =? 0) && (8 <=? Length)
  then copy_width 8 m DestinationBuffer SourceBuffer Length
  else if (Z.land DestinationBuffer 3 =? 0) && (Z.land SourceBuffer 3 =? 0) && (4 <=? Length)
  then copy_width 4 m DestinationBuffer SourceBuffer Length
  else copy_bytes m DestinationBuffer SourceBuffer Length.

Definition CopyMem (m : phys) (DestinationBuffer SourceBuffer Length : Z) : run phys :=
  if Length =? 0 then mret m
  else if DestinationBuffer =? SourceBuffer then mret m
  else InternalMemCopyMem m DestinationBuffer SourceBuffer Length.

(** ** Filling *)

Definition value32 (Value : Z) : Z :=
  u32 (Z.lor (Z.lor (Z.lor (Z.shiftl Value 24) (Z.shiftl Value 16)) (Z.shiftl Value 8)) Value).
Definition value64 (Value : Z) : Z := Z.lor (u64 (Z.shiftl (value32 Value) 32)) (value32 Value).

Definition InternalMemSetMem (m : phys) (Buffer Length Value : Z) : run phys :=
  r ← (if (Z.land Buffer 7 =? 0) && (8 <=? Length) then fill_up 8 (loop_fuel Length) m Buffer (value64 Value) Length
       else if (Z.land Buffer 3 =? 0) && (4 <=? Length) then fill_up 4 (loop_fuel Length) m Buffer (value32 Value) Length
       else mret (m, Buffer, Length));
  let '(m, p, Length) := r in
  r ← fill_up 1 (loop_fuel Length) m p Value Length;
  mret (fst (fst r)).

Definition SetMem (m : phys) (Buffer Length Value : Z) : run phys :=
  if Length =? 0 then mret m else InternalMemSetMem m Buffer Length Value.

Definition InternalMemZeroMem (m : phys) (Buffer Length : Z) : run phys := InternalMemSetMem m Buffer Length 0.
Definition ZeroMem (m : phys) (Buffer Length : Z) : run phys :=
  if Length =? 0 then mret m else InternalMemZeroMem m Buffer Length.

(** ** Comparing *)

(** [while ((--Length != 0) && *d == *s) ...]: [n] is [Length - 1]. *)
Fixpoint compare_loop (n : nat) (m : phys) (d s : Z) : Z :=
  match n with
  | O => m d - m s
  | S n => if m d =? m s then compare_loop n m (d + 1) (s + 1) else m d - m s
  end.
Definition InternalMemCompareMem (m : phys) (d s Length : Z) : Z := compare_loop (Z.to_nat (Length - 1)) m d s.

Definition CompareMem (m : phys) (DestinationBuffer SourceBuffer Length : Z) : Z :=
  if (Length =? 0) || (DestinationBuffer =? SourceBuffer) then 0
  else InternalMemCompareMem m DestinationBuffer SourceBuffer Length.

Definition CompareGuid (m : phys) (Guid1 Guid2 : Z) : bool :=
  (fetch_le m Guid1 8 =? fetch_le m Guid2 8) && (fetch_le m (Guid1 + 8) 8 =? fetch_le m (Guid2 + 8) 8).

Definition CopyGuid (m : phys) (DestinationGuid SourceGuid : Z) : phys :=
  let m := poke_le m DestinationGuid 8 (fetch_le m SourceGuid 8) in
  poke_le m (DestinationGuid + 8) 8 (fetch_le m (SourceGuid + 8) 8).

(** ** Copying is right *)

(** The reference: the bytes of the old memory, all at once. *)
Definition moved (m : phys) (d s n : Z) : phys :=
  fun a => if (d <=? a) && (a <? d + n) then m (s + (a - d)) else m a.

Ltac on_addr := repeat match goal with
  | |- context [?a <=? ?b] => destruct (Z.leb_spec a b)
  | |- context [?a <? ?b] => destruct (Z.ltb_spec a b)
  end; cbn [andb]; try lia; try done; try (f_equal; lia).

(** One more word, upwards, when the source is above the destination. *)
Lemma moved_up m0 m d s k w : d < s -> 0 <= k -> 0 < w -> (forall a, m a = moved m0 d s k a) ->
  forall a, copy_word w m (d + k) (s + k) a = moved m0 d s (k + w) a.
Proof. intros Hd Hk Hw Hm a. unfold copy_word. rewrite !Hm. unfold moved. on_addr. Qed.

(** The last [k] of [n] bytes are done. *)
Definition moved_end (m : phys) (d s n k : Z) : phys :=
  fun a => if (d + n - k <=? a) && (a <? d + n) then m (s + (a - d)) else m a.

Lemma moved_down m0 m d s n k w : s < d -> 0 <= k -> 0 < w -> k + w <= n -> (forall a, m a = moved_end m0 d s n k a) ->
  forall a, copy_word w m (d + n - k - w) (s + n - k - w) a = moved_end m0 d s n (k + w) a.
Proof. intros Hd Hk Hw Hn Hm a. unfold copy_word. rewrite !Hm. unfold moved_end. on_addr. Qed.

Lemma copy_up_ok w m0 d s : 0 < w -> d < s -> forall fuel m k Length, 0 <= k -> 0 <= Length < w * (Z.of_nat fuel + 1) ->
  (forall a, m a = moved m0 d s k a) ->
  exists m' k', copy_up w fuel m (d + k) (s + k) Length = Ret (m', d + k', s + k', k + Length - k') /\
    k <= k' /\ 0 <= k + Length - k' < w /\ forall a, m' a = moved m0 d s k' a.
Proof.
  intros Hw Hd. induction fuel as [|fuel IH]; intros m k Length Hk HL Hm; cbn [copy_up];
    (destruct (Z.leb_spec w Length) as [Hge|Hlt]; [|exists m, k; split; [by replace (k + Length - k) with Length by lia|split; [lia|split; [lia|done]]]]).
  { lia. }
  destruct (IH (copy_word w m (d + k) (s + k)) (k + w) (Length - w)) as (m' & k' & E & H1 & H2 & H3); [lia|nia|by apply moved_up|].
  exists m', k'. replace (d + k + w) with (d + (k + w)) by lia. replace (s + k + w) with (s + (k + w)) by lia. rewrite E.
  replace (k + w + (Length - w) - k') with (k + Length - k') by lia. split; [done|]. split; [lia|]. split; [lia|done].
Qed.

Lemma copy_down_ok w m0 d s n : 0 < w -> s < d -> forall fuel m k q, 0 <= k -> 0 <= q <= Z.of_nat fuel -> n < 2 ^ 64 -> k + w * q = n ->
  (forall a, m a = moved_end m0 d s n k a) ->
  exists m', copy_down w fuel m (d + n - k) (s + n - k) (w * q) = Ret m' /\ forall a, m' a = moved m0 d s n a.
Proof.
  intros Hw Hd. induction fuel as [|fuel IH]; intros m k q Hk Hq Hn Hs Hm; cbn [copy_down];
    (destruct (Z.ltb_spec 0 (w * q)) as [Hpos|Hz];
     [|exists m; split; [done|]; intros a; assert (q = 0) by nia; subst q; rewrite Hm; unfold moved_end, moved;
       replace (d + n - k) with d by lia; done]).
  { nia. }
  assert (1 <= q) by nia. assert (w <= w * q) by nia. rewrite wrap_small by (unfold in_u; lia).
  replace (w * q - w) with (w * (q - 1)) by lia.
  destruct (IH (copy_word w m (d + n - k - w) (s + n - k - w)) (k + w) (q - 1)) as (m' & E & H'); [lia|nia|done|lia|apply moved_down; try done; nia|].
  exists m'. split; [|done]. rewrite <- E. f_equal; lia.
Qed.

Lemma align_down_ok m0 d s n : s < d -> forall k m j, 0 <= j -> j + Z.of_nat k <= n -> (forall a, m a = moved_end m0 d s n j a) ->
  forall a, align_down k m (d + n - j) (s + n - j) a = moved_end m0 d s n (j + Z.of_nat k) a.
Proof.
  intros Hd. induction k as [|k IH]; intros m j Hj Hn Hm a; cbn [align_down]; [by replace (j + Z.of_nat 0) with j by lia|].
  replace (d + n - j - 1) with (d + n - (j + 1)) by lia. replace (s + n - j - 1) with (s + n - (j + 1)) by lia.
  rewrite IH; [f_equal; lia|lia|lia|]. intros b.
  replace (d + n - (j + 1)) with (d + n - j - 1) by lia. replace (s + n - (j + 1)) with (s + n - j - 1) by lia.
  apply moved_down; [done|lia|lia|lia|done].
Qed.

Lemma land_mask n k : 0 <= k -> 0 <= n -> Z.land n (2 ^ k - 1) = n mod 2 ^ k.
Proof. intros Hk Hn. replace (2 ^ k - 1) with (Z.ones k) by (rewrite Z.ones_equiv; lia). by apply Z.land_ones. Qed.

(** A copy by words of [w = 2^k] bytes, whatever the overlap. *)
Lemma copy_width_ok w k m d s n : w = 2 ^ k -> 0 <= k -> 0 <= n < 2 ^ 64 ->
  exists m', copy_width w m d s n = Ret m' /\ forall a, m' a = moved m d s n a.
Proof.
  intros Ew Hk Hn. assert (Hw : 0 < w) by (subst; lia). unfold copy_width, loop_fuel.
  assert (Hm0 : forall a, m a = moved m d s 0 a) by (intros a; unfold moved; on_addr).
  destruct (Z.ltb_spec d s) as [Hlt|Hge]; [|destruct (Z.ltb_spec s d) as [Hgt|Heq]].
  - destruct (copy_up_ok w m d s Hw Hlt (Z.to_nat n + 1) m 0 n) as (m1 & k1 & E1 & K1 & K2 & P1); [lia|nia|done|].
    rewrite !Z.add_0_r in E1. rewrite E1. bind_step.
    destruct (copy_up_ok 1 m d s ltac:(lia) Hlt (Z.to_nat (0 + n - k1) + 1) m1 k1 (0 + n - k1)) as (m2 & k2 & E2 & K3 & K4 & P2); [lia|lia|done|].
    rewrite E2. bind_step. exists m2. split; [done|]. assert (k2 = n) by lia. by subst k2.
  - replace (w - 1) with (2 ^ k - 1) by lia. rewrite land_mask, <- Ew by lia.
    pose proof (Z.div_mod n w ltac:(lia)) as Hq. pose proof (Z.mod_pos_bound n w Hw) as Hr.
    assert (Hq0 : 0 <= n / w) by (apply Z.div_pos; lia).
    assert (He0 : forall a, m a = moved_end m d s n 0 a) by (intros a; unfold moved_end; on_addr).
    pose proof (align_down_ok m d s n Hgt (Z.to_nat (n mod w)) m 0 ltac:(lia) ltac:(lia) He0) as Ha.
    rewrite !Z.sub_0_r, Z.add_0_l, Z2Nat.id in Ha by lia.
    replace (n - n mod w) with (w * (n / w)) by lia.
    apply (copy_down_ok w m d s n Hw Hgt); [lia|nia|lia|lia|exact Ha].
  - exists m. split; [done|]. intros a. assert (s = d) by lia. subst s. unfold moved. on_addr.
Qed.

Lemma copy_bytes_ok m d s n : 0 <= n < 2 ^ 64 -> exists m', copy_bytes m d s n = Ret m' /\ forall a, m' a = moved m d s n a.
Proof.
  intros Hn. unfold copy_bytes, loop_fuel.
  assert (Hm0 : forall a, m a = moved m d s 0 a) by (intros a; unfold moved; on_addr).
  destruct (Z.ltb_spec d s) as [Hlt|Hge]; [|destruct (Z.ltb_spec s d) as [Hgt|Heq]].
  - destruct (copy_up_ok 1 m d s ltac:(lia) Hlt (Z.to_nat n + 1) m 0 n) as (m1 & k1 & E1 & K1 & K2 & P1); [lia|lia|done|].
    rewrite !Z.add_0_r in E1. rewrite E1. bind_step. exists m1. split; [done|]. assert (k1 = n) by lia. by subst k1.
  - destruct (copy_down_ok 1 m d s n ltac:(lia) Hgt (Z.to_nat n + 1) m 0 n) as (m' & E & H'); [lia|lia|lia|lia| |].
    + intros a. unfold moved_end. on_addr.
    + rewrite !Z.sub_0_r, Z.mul_1_l in E. by exists m'.
  - exists m. split; [done|]. intros a. assert (s = d) by lia. subst s. unfold moved. on_addr.
Qed.

(** C21. [CopyMem] is a move, whatever the addresses: on every alignment and
    every overlap of the two buffers it terminates, and afterwards the destination
    holds the bytes the source held before, with nothing else changed. *)
Theorem copy_mem_moves m d s n : 0 <= n < 2 ^ 64 ->
  exists m', CopyMem m d s n = Ret m' /\ forall a, m' a = moved m d s n a.
Proof.
  intros Hn. unfold CopyMem, InternalMemCopyMem.
  destruct (Z.eqb_spec n 0) as [->|]; [exists m; split; [done|]; intros a; unfold moved; on_addr|].
  destruct (Z.eqb_spec d s) as [->|]; [exists m; split; [done|]; intros a; unfold moved; on_addr|].
  repeat case_match; [by apply (copy_width_ok 8 3)|by apply (copy_width_ok 4 2)|by apply copy_bytes_ok].
Qed.

(** Eleven bytes moved up by eight, with the last bytes of the source overwritten. *)
Lemma copy_mem_moves_witness : exists m', CopyMem (fun a => a mod 256) 24 16 11 = Ret m' /\ m' 34 = 26 /\ m' 35 = 35.
Proof.
  destruct (copy_mem_moves (fun a => a mod 256) 24 16 11 ltac:(lia)) as (m' & E & H). exists m'. split; [exact E|].
  rewrite !H. split; reflexivity.
Defined.

(** ** Filling is right *)

Lemma values_repeat v : 0 <= v < 256 -> le_bytes 4 (value32 v) = replicate 4 v /\ le_bytes 8 (value64 v) = replicate 8 v /\
  le_bytes 1 v = replicate 1 v.
Proof.
  intros Hv.
  assert (C : forallb (fun v => bool_decide (le_bytes 4 (value32 v) = replicate 4 v /\ le_bytes 8 (value64 v) = replicate 8 v /\
    le_bytes 1 v = replicate 1 v)) (seqZ 0 256) = true) by (vm_compute; reflexivity).
  rewrite forallb_forall in C. assert (Hi : In v (seqZ 0 256)) by (apply list_elem_of_In, elem_of_seqZ; lia).
  specialize (C v Hi). by apply bool_decide_eq_true in C.
Qed.

Lemma poke_repeat m p v k x b : le_bytes k x = replicate k v -> b = Z.of_nat k ->
  forall a, poke_le m p k x a = if (p <=? a) && (a <? p + b) then v else m a.
Proof.
  intros E -> a. unfold poke_le, poke. rewrite E. unfold zlen. rewrite length_replicate. case_match; [|done]. bool_hyps.
  unfold zget. rewrite nth_lookup, lookup_replicate_2 by lia. done.
Qed.

Lemma fill_up_ok w x v m0 p : 0 < w -> le_bytes (Z.to_nat w) x = replicate (Z.to_nat w) v ->
  forall fuel m k Length, 0 <= k -> 0 <= Length < w * (Z.of_nat fuel + 1) -> (forall a, m a = fill m0 p v k a) ->
  exists m' k', fill_up w fuel m (p + k) x Length = Ret (m', p + k', k + Length - k') /\
    k <= k' /\ 0 <= k + Length - k' < w /\ forall a, m' a = fill m0 p v k' a.
Proof.
  intros Hw Hx. induction fuel as [|fuel IH]; intros m k Length Hk HL Hm; cbn [fill_up];
    (destruct (Z.leb_spec w Length) as [Hge|Hlt]; [|exists m, k; split; [by replace (k + Length - k) with Length by lia|split; [lia|split; [lia|done]]]]).
  { lia. }
  destruct (IH (poke_le m (p + k) (Z.to_nat w) x) (k + w) (Length - w)) as (m' & k' & E & H1 & H2 & H3); [lia|nia| |].
  { intros a. rewrite (poke_repeat m (p + k) v _ x w Hx) by lia. rewrite Hm. unfold fill. on_addr. }
  exists m', k'. replace (p + k + w) with (p + (k + w)) by lia. rewrite E.
  replace (k + w + (Length - w) - k') with (k + Length - k') by lia. split; [done|]. split; [lia|]. split; [lia|done].
Qed.

(** [SetMem] fills exactly the buffer. *)
Theorem set_mem_fills m p n v : 0 <= n < 2 ^ 64 -> 0 <= v < 256 ->
  exists m', SetMem m p n v = Ret m' /\ forall a, m' a = fill m p v n a.
Proof.
  intros Hn Hv. destruct (values_repeat v Hv) as (V4 & V8 & V1). unfold SetMem, InternalMemSetMem, loop_fuel.
  assert (H0 : forall a, m a = fill m p v 0 a) by (intros a; unfold fill; on_addr).
  destruct (Z.eqb_spec n 0) as [->|Hne]; [by exists m|].
  assert (exists m1 k, (if (Z.land p 7 =? 0) && (8 <=? n) then fill_up 8 (Z.to_nat n + 1) m p (value64 v) n
       else if (Z.land p 3 =? 0) && (4 <=? n) then fill_up 4 (Z.to_nat n + 1) m p (value32 v) n
       else mret (m, p, n)) = Ret (m1, p + k, n - k) /\ 0 <= k <= n /\ forall a, m1 a = fill m p v k a) as (m1 & k & -> & Hk & H1).
  { case_match; [|case_match].
    - destruct (fill_up_ok 8 (value64 v) v m p ltac:(lia) V8 (Z.to_nat n + 1) m 0 n) as (m1 & k & E & K1 & K2 & P); [lia|lia|done|].
      rewrite !Z.add_0_l, Z.add_0_r in E. exists m1, k. split; [done|]. split; [lia|done].
    - destruct (fill_up_ok 4 (value32 v) v m p ltac:(lia) V4 (Z.to_nat n + 1) m 0 n) as (m1 & k & E & K1 & K2 & P); [lia|lia|done|].
      rewrite !Z.add_0_l, Z.add_0_r in E. exists m1, k. split; [done|]. split; [lia|done].
    - exists m, 0. rewrite Z.add_0_r, Z.sub_0_r. split; [done|]. split; [lia|done]. }
  bind_step. destruct (fill_up_ok 1 v v m p ltac:(lia) V1 (Z.to_nat (n - k) + 1) m1 k (n - k)) as (m2 & k2 & E & K1 & K2 & P); [lia|lia|done|].
  rewrite E. bind_step. exists m2. split; [done|]. assert (k2 = n) by lia. by subst k2.
Qed.

(** ** Comparing is right *)

(** [CompareMem] gives 0 exactly on equal bytes, and otherwise the difference of
    the first two that differ. *)
Lemma compare_loop_ok m n : forall d s,
  (compare_loop n m d s = 0 <-> forall i, 0 <= i <= Z.of_nat n -> m (d + i) = m (s + i)) /\
  (compare_loop n m d s <> 0 -> exists i, 0 <= i <= Z.of_nat n /\ compare_loop n m d s = m (d + i) - m (s + i) /\
     forall j, 0 <= j < i -> m (d + j) = m (s + j)).
Proof.
  induction n as [|n IH]; intros d s; cbn [compare_loop].
  { split.
    - split; [intros H i Hi; assert (i = 0) by lia; subst i; rewrite !Z.add_0_r; lia|intros H; specialize (H 0); rewrite !Z.add_0_r in H; lia].
    - intros _. exists 0. rewrite !Z.add_0_r. split; [lia|]. split; [done|lia]. }
  destruct (Z.eqb_spec (m d) (m s)) as [E|E].
  - destruct (IH (d + 1) (s + 1)) as (I1 & I2). split.
    + rewrite I1. split; intros H i Hi.
      * destruct (Z.eq_dec i 0) as [->|]; [by rewrite !Z.add_0_r|]. specialize (H (i - 1) ltac:(lia)).
        by replace (d + 1 + (i - 1)) with (d + i) in H by lia; replace (s + 1 + (i - 1)) with (s + i) in H by lia.
      * specialize (H (i + 1) ltac:(lia)). by replace (d + 1 + i) with (d + (i + 1)) by lia; replace (s + 1 + i) with (s + (i + 1)) by lia.
    + intros H. destruct (I2 H) as (i & Hi & Ei & Hj). exists (i + 1). split; [lia|].
      replace (d + (i + 1)) with (d + 1 + i) by lia; replace (s + (i + 1)) with (s + 1 + i) by lia. split; [done|].
      intros j Hj'. destruct (Z.eq_dec j 0) as [->|]; [by rewrite !Z.add_0_r|]. specialize (Hj (j - 1) ltac:(lia)).
      by replace (d + 1 + (j - 1)) with (d + j) in Hj by lia; replace (s + 1 + (j - 1)) with (s + j) in Hj by lia.
  - split; [split; [lia|intros H; specialize (H 0); rewrite !Z.add_0_r in H; lia]|].
    intros _. exists 0. rewrite !Z.add_0_r. split; [lia|]. split; [done|lia].
Qed.

Theorem compare_mem_ok m d s n : 0 <= n ->
  (CompareMem m d s n = 0 <-> forall i, 0 <= i < n -> m (d + i) = m (s + i)) /\
  (CompareMem m d s n <> 0 -> exists i, 0 <= i < n /\ CompareMem m d s n = m (d + i) - m (s + i) /\
     forall j, 0 <= j < i -> m (d + j) = m (s + j)).
Proof.
  intros Hn. unfold CompareMem, InternalMemCompareMem.
  destruct (Z.eqb_spec n 0) as [->|Hne]; cbn [orb]; [split; [split; [lia|done]|done]|].
  destruct (Z.eqb_spec d s) as [->|Hds]; [split; [done|done]|].
  destruct (compare_loop_ok m (Z.to_nat (n - 1)) d s) as (H1 & H2). rewrite Z2Nat.id in * by lia. split.
  - rewrite H1. split; intros H i Hi; apply H; lia.
  - intros H. destruct (H2 H) as (i & Hi & R). exists i. split; [lia|done].
Qed.

Lemma le_val_inj a b : is_bytes a -> is_bytes b -> length a = length b -> le_val a = le_val b -> a = b.
Proof. intros Ha Hb Hl E. rewrite <- (le_bytes_val a Ha), <- (le_bytes_val b Hb). by rewrite Hl, E. Qed.

(** [CompareGuid] compares all 16 bytes. *)
Theorem compare_guid_ok m a b : (forall x, 0 <= m x < 256) -> CompareGuid m a b = bool_decide (fetch m a 16 = fetch m b 16).
Proof.
  intros Hm. assert (Hb : forall p n, is_bytes (fetch m p n)).
  { intros p n. unfold fetch, is_bytes. apply Forall_fmap, Forall_true. intros x. apply Hm. }
  change 16 with (8 + 8). rewrite !fetch_app by lia. unfold CompareGuid, fetch_le.
  assert (Hlen : forall p, length (fetch m p 8) = 8%nat) by done.
  case_bool_decide as E.
  - apply app_inj_1 in E as (-> & ->); [|by rewrite !Hlen]. by rewrite !Z.eqb_refl.
  - destruct (Z.eqb_spec (le_val (fetch m a 8)) (le_val (fetch m b 8))) as [E1|]; [|done].
    destruct (Z.eqb_spec (le_val (fetch m (a + 8) 8)) (le_val (fetch m (b + 8) 8))) as [E2|]; [|done].
    destruct E. f_equal; (apply le_val_inj; [apply Hb|apply Hb|by rewrite !Hlen|done]).
Qed.
