(* ===== verification/Sha256.v ===== *)
(** * SHA-256 (src/security/crypto.c)

    The streaming SHA-256 of the bootloader: context, compression function,
    [crypto_sha256_init], [crypto_sha256_update], [crypto_sha256_final] and the
    one-shot [sha256_hash].  The context is related to the message absorbed so
    far ([holds]); [update] refines the concatenation of messages, and [final]
    is characterised exactly, padding blocks included. *)

From S2P Require Import Prelude.

(** ** Error codes (src/security/crypto.h) *)

Definition CRYPTO_SUCCESS : Z := 0.
Definition CRYPTO_ERROR_INVALID_PARAM : Z := -1.
Definition CRYPTO_ERROR_VERIFICATION_FAILED : Z := -3.

(** ** Constants and bit functions *)

Definition sha256_k : list Z :=
  concat [
    [0x428a2f98; 0x71374491; 0xb5c0fbcf; 0xe9b5dba5];
    [0x3956c25b; 0x59f111f1; 0x923f82a4; 0xab1c5ed5];
    [0xd807aa98; 0x12835b01; 0x243185be; 0x550c7dc3];
    [0x72be5d74; 0x80deb1fe; 0x9bdc06a7; 0xc19bf174];
    [0xe49b69c1; 0xefbe4786; 0x0fc19dc6; 0x240ca1cc];
    [0x2de92c6f; 0x4a7484aa; 0x5cb0a9dc; 0x76f988da];
    [0x983e5152; 0xa831c66d; 0xb00327c8; 0xbf597fc7];
    [0xc6e00bf3; 0xd5a79147; 0x06ca6351; 0x14292967];
    [0x27b70a85; 0x2e1b2138; 0x4d2c6dfc; 0x53380d13];
    [0x650a7354; 0x766a0abb; 0x81c2c92e; 0x92722c85];
    [0xa2bfe8a1; 0xa81a664b; 0xc24b8b70; 0xc76c51a3];
    [0xd192e819; 0xd6990624; 0xf40e3585; 0x106aa070];
    [0x19a4c116; 0x1e376c08; 0x2748774c; 0x34b0bcb5];
    [0x391c0cb3; 0x4ed8aa4a; 0x5b9cca4f; 0x682e6ff3];
    [0x748f82ee; 0x78a5636f; 0x84c87814; 0x8cc70208];
    [0x90befffa; 0xa4506ceb; 0xbef9a3f7; 0xc67178f2]].

Definition sha256_h : list Z :=
  [0x6a09e667; 0xbb67ae85; 0x3c6ef372; 0xa54ff53a] ++
  [0x510e527f; 0x9b05688c; 0x1f83d9ab; 0x5be0cd19].

Definition rotr (x n : Z) : Z := (x >>> n) ||| u32 (x <<< (32 - n)).

Definition ch (x y z : Z) : Z := (x &&& y) ^^ (u32 (Z.lnot x) &&& z).

Definition maj (x y z : Z) : Z := (x &&& y) ^^ (x &&& z) ^^ (y &&& z).

Definition sigma0 (x : Z) : Z := rotr x 2 ^^ rotr x 13 ^^ rotr x 22.

Definition sigma1 (x : Z) : Z := rotr x 6 ^^ rotr x 11 ^^ rotr x 25.

Definition gamma0 (x : Z) : Z := rotr x 7 ^^ rotr x 18 ^^ (x >>> 3).

Definition gamma1 (x : Z) : Z := rotr x 17 ^^ rotr x 19 ^^ (x >>> 10).

(** ** The context *)

Record crypto_sha256_ctx_t := mk_sha256_ctx {
  ctx_h : list Z;
  ctx_len : Z;
  ctx_buf : bytes;
  ctx_buf_len : Z
}.

Definition with_buf (ctx : crypto_sha256_ctx_t) (b : bytes) (n : Z) : crypto_sha256_ctx_t :=
  mk_sha256_ctx (ctx_h ctx) (ctx_len ctx) b n.

(** [crypto_sha256_init]: every field is set, so the old contents do not matter. *)
Definition crypto_sha256_init (ctx : option crypto_sha256_ctx_t)
  : Z * option crypto_sha256_ctx_t :=
  match ctx with
  | None => (CRYPTO_ERROR_INVALID_PARAM, None)
  | Some _ => (CRYPTO_SUCCESS, Some (mk_sha256_ctx sha256_h 0 (zeros 64) 0))
  end.

(** ** Processing one 64-byte block (the inner part of [crypto_sha256_update]) *)

Definition load_word (b : bytes) (j : Z) : Z :=
  u32 (zget b (j * 4) <<< 24) ||| u32 (zget b (j * 4 + 1) <<< 16) |||
  u32 (zget b (j * 4 + 2) <<< 8) ||| zget b (j * 4 + 3).

Definition schedule (b : bytes) : list Z :=
  for_loop 16 48
    (fun j w => w ++ [u32 (gamma1 (zget w (j - 2)) + zget w (j - 7) +
                           gamma0 (zget w (j - 15)) + zget w (j - 16))])
    (map (load_word b) (seqZ 0 16)).

(** The working variables [a .. h_val]. *)
Record vars := mk_vars {
  va : Z; vb : Z; vc : Z; vd : Z; ve : Z; vf : Z; vg : Z; vh : Z
}.

Definition round (w : list Z) (j : Z) (v : vars) : vars :=
  let temp1 := u32 (vh v + sigma1 (ve v) + ch (ve v) (vf v) (vg v) +
                    zget sha256_k j + zget w j) in
  let temp2 := u32 (sigma0 (va v) + maj (va v) (vb v) (vc v)) in
  mk_vars (u32 (temp1 + temp2)) (va v) (vb v) (vc v)
          (u32 (vd v + temp1)) (ve v) (vf v) (vg v).

Definition process_block (h : list Z) (b : bytes) : list Z :=
  let w := schedule b in
  let v := for_loop 0 64 (round w)
             (mk_vars (zget h 0) (zget h 1) (zget h 2) (zget h 3)
                      (zget h 4) (zget h 5) (zget h 6) (zget h 7)) in
  [u32 (zget h 0 + va v); u32 (zget h 1 + vb v); u32 (zget h 2 + vc v);
   u32 (zget h 3 + vd v); u32 (zget h 4 + ve v); u32 (zget h 5 + vf v);
   u32 (zget h 6 + vg v); u32 (zget h 7 + vh v)].

(** ** [crypto_sha256_update]

    [data] is the object the pointer designates, from the pointer on.  The sum
    [ctx->buf_len + len] and the difference [64 - ctx->buf_len] are 32-bit. *)

Definition chunk_size (ctx : crypto_sha256_ctx_t) (len : Z) : Z :=
  if 64 <? u32 (ctx_buf_len ctx + len) then u32 (64 - ctx_buf_len ctx) else len.

Definition update_step (ctx : crypto_sha256_ctx_t) (data : bytes) (len : Z)
  : run crypto_sha256_ctx_t :=
  let chunk := chunk_size ctx len in
  b ← memcpy (ctx_buf ctx) (ctx_buf_len ctx) data 0 chunk;
  let n := u32 (ctx_buf_len ctx + chunk) in
  mret (if n =? 64
        then mk_sha256_ctx (process_block (ctx_h ctx) b) (ctx_len ctx) b 0
        else with_buf ctx b n).

Fixpoint update_loop (fuel : nat) (ctx : crypto_sha256_ctx_t) (data : bytes) (len : Z)
  : run crypto_sha256_ctx_t :=
  if len <=? 0 then Ret ctx
  else match fuel with
       | O => OutOfFuel
       | S fuel' =>
           let chunk := chunk_size ctx len in
           ctx' ← update_step ctx data len;
           update_loop fuel' ctx' (drop (Z.to_nat chunk) data) (u32 (len - chunk))
       end.

(** One more turn than bytes: a full buffer is flushed by a turn that copies
    nothing. *)
Definition update_fuel (len : Z) : nat := Z.to_nat (len + 1).

Definition crypto_sha256_update (ctx : option crypto_sha256_ctx_t) (data : option bytes)
  (len : Z) : run (Z * option crypto_sha256_ctx_t) :=
  match ctx, data with
  | Some ctx, Some data =>
      let ctx1 := mk_sha256_ctx (ctx_h ctx) (u64 (ctx_len ctx + len))
                                (ctx_buf ctx) (ctx_buf_len ctx) in
      ctx2 ← update_loop (update_fuel len) ctx1 data len;
      mret (CRYPTO_SUCCESS, Some ctx2)
  | _, _ => mret (CRYPTO_ERROR_INVALID_PARAM, ctx)
  end.

(** ** [crypto_sha256_final] *)

(** [ctx->buf[ctx->buf_len++] = v] *)
Definition push_byte (ctx : crypto_sha256_ctx_t) (v : Z) : run crypto_sha256_ctx_t :=
  b ← wr (ctx_buf ctx) (ctx_buf_len ctx) v;
  mret (with_buf ctx b (u32 (ctx_buf_len ctx + 1))).

(** [crypto_sha256_update(ctx, ctx->buf, n)]: the data is the context's own
    buffer; the calls made by [final] leave its bytes as they are until they
    have been read, so its value at the call is what the callee reads. *)
Definition update_self (ctx : crypto_sha256_ctx_t) (n : Z) : run crypto_sha256_ctx_t :=
  r ← crypto_sha256_update (Some ctx) (Some (ctx_buf ctx)) n;
  match r with
  | (_, Some ctx') => mret ctx'
  | (_, None) => mret ctx
  end.

Fixpoint pad_loop (fuel : nat) (ctx : crypto_sha256_ctx_t) : run crypto_sha256_ctx_t :=
  if ctx_buf_len ctx mod 64 =? 56 then Ret ctx
  else match fuel with
       | O => OutOfFuel
       | S fuel' =>
           ctx1 ← (if ctx_buf_len ctx =? 64
                   then ctx' ← update_self ctx 64;
                        mret (with_buf ctx' (ctx_buf ctx') 0)
                   else mret ctx);
           ctx2 ← push_byte ctx1 0;
           pad_loop fuel' ctx2
       end.

Fixpoint push_all (ctx : crypto_sha256_ctx_t) (l : bytes) : run crypto_sha256_ctx_t :=
  match l with
  | [] => Ret ctx
  | v :: l' => ctx' ← push_byte ctx v; push_all ctx' l'
  end.

(** The eight bytes [(bit_len >> (i * 8)) & 0xFF], [i] from 7 down to 0. *)
Definition length_bytes (bit_len : Z) : bytes :=
  map (fun i => (bit_len >>> (i * 8)) &&& 0xFF) [7; 6; 5; 4; 3; 2; 1; 0].

Definition digest (h : list Z) : bytes :=
  concat (map (fun i => [(zget h i >>> 24) &&& 0xFF; (zget h i >>> 16) &&& 0xFF;
                         (zget h i >>> 8) &&& 0xFF; zget h i &&& 0xFF]) (seqZ 0 8)).

(** The result is the return code, the context and, on success, the 32 bytes
    stored through [hash]; [hash_ok] says that [hash] is not NULL. *)
Definition crypto_sha256_final (ctx : option crypto_sha256_ctx_t) (hash_ok : bool)
  : run (Z * option crypto_sha256_ctx_t * option bytes) :=
  match ctx, hash_ok with
  | Some ctx, true =>
      let bit_len := u64 (ctx_len ctx * 8) in
      ctx1 ← push_byte ctx 0x80;
      ctx2 ← pad_loop 64 ctx1;
      ctx3 ← push_all ctx2 (length_bytes bit_len);
      ctx4 ← update_self ctx3 (ctx_buf_len ctx3);
      mret (CRYPTO_SUCCESS, Some ctx4, Some (digest (ctx_h ctx4)))
  | _, _ => mret (CRYPTO_ERROR_INVALID_PARAM, ctx, None)
  end.

(** ** [sha256_hash] *)

Definition blank_ctx : crypto_sha256_ctx_t := mk_sha256_ctx [] 0 [] 0.

Definition sha256_hash (data : option bytes) (len : Z) : run (option bytes) :=
  let '(_, ctx0) := crypto_sha256_init (Some blank_ctx) in
  r1 ← crypto_sha256_update ctx0 data len;
  r2 ← crypto_sha256_final (snd r1) true;
  mret (snd r2).

(** ** Reference: the padding and the block chain of FIPS 180-4 *)

Fixpoint blocks_fuel (fuel : nat) (l : bytes) : list bytes :=
  match fuel, l with
  | S fuel', _ :: _ => take 64 l :: blocks_fuel fuel' (drop 64 l)
  | _, _ => []
  end.

Definition blocks64 (l : bytes) : list bytes := blocks_fuel (length l) l.

Definition pad (m : bytes) : bytes :=
  m ++ [0x80] ++ zeros ((55 - zlen m) mod 64) ++ length_bytes (u64 (zlen m * 8)).

Definition fips_sha256 (m : bytes) : bytes :=
  digest (fold_left process_block (blocks64 (pad m)) sha256_h).

(** The chain the code computes: the blocks made by [final] go twice through
    the compression function. *)
Definition dup {A} (l : list A) : list A := concat (map (fun b => [b; b]) l).

Definition code_sha256 (m : bytes) : bytes :=
  let n := (length m / 64)%nat in
  let all := blocks64 (pad m) in
  digest (fold_left process_block (take n all ++ dup (drop n all)) sha256_h).

(** ** The abstraction of a context

    [holds ctx h r]: the chain value is [h] and the bytes [r] wait in the
    buffer. *)

Definition holds (ctx : crypto_sha256_ctx_t) (h : list Z) (r : bytes) : Prop :=
  ctx_h ctx = h /\ length (ctx_buf ctx) = 64%nat /\
  ctx_buf_len ctx = zlen r /\ take (length r) (ctx_buf ctx) = r.

Definition full_blocks (bs : list bytes) : Prop := Forall (fun b => length b = 64%nat) bs.

(** [ctx] has absorbed the message [m]. *)
Definition absorbed (ctx : crypto_sha256_ctx_t) (m : bytes) : Prop :=
  exists bs r, m = concat bs ++ r /\ full_blocks bs /\ (length r < 64)%nat /\
    holds ctx (fold_left process_block bs sha256_h) r /\ ctx_len ctx = u64 (zlen m).

Implicit Types (r data m buf : bytes) (bs : list bytes) (h : list Z) (ctx : crypto_sha256_ctx_t).

Lemma chunk_size_full ctx len r :
  ctx_buf_len ctx = zlen r -> zlen r <= 64 -> 0 <= len -> zlen r + len < 2 ^ 32 ->
  64 < zlen r + len -> chunk_size ctx len = 64 - zlen r.
Proof.
  intros Hn Hr Hl Hs Hgt. unfold chunk_size. rewrite Hn.
  pose proof (zlen_nonneg r).
  rewrite (wrap_small 32 (zlen r + len)) by (unfold in_u; lia).
  destruct (Z.ltb_spec 64 (zlen r + len)); [|lia].
  apply wrap_small. unfold in_u. lia.
Qed.

Lemma chunk_size_last ctx len r :
  ctx_buf_len ctx = zlen r -> 0 <= len -> zlen r + len <= 64 ->
  chunk_size ctx len = len.
Proof.
  intros Hn Hl Hs. unfold chunk_size. rewrite Hn. pose proof (zlen_nonneg r).
  rewrite wrap_small by (unfold in_u; lia).
  destruct (Z.ltb_spec 64 (zlen r + len)); [lia|reflexivity].
Qed.

(** Copying [n] more bytes behind the pending ones. *)
Lemma buf_append buf r data n :
  length buf = 64%nat -> take (length r) buf = r -> 0 <= n -> zlen r + n <= 64 ->
  n <= zlen data ->
  memcpy buf (zlen r) data 0 n = Ret (splice buf (zlen r) (sub data 0 n)) /\
  length (splice buf (zlen r) (sub data 0 n)) = 64%nat /\
  take (length (r ++ sub data 0 n)) (splice buf (zlen r) (sub data 0 n)) = r ++ sub data 0 n.
Proof.
  intros Hb Hr Hn Hs Hd.
  assert (Hl : zlen buf = 64) by (unfold zlen; lia).
  assert (Hsub : length (sub data 0 n) = Z.to_nat n) by (apply length_sub; lia).
  pose proof (zlen_nonneg r) as Hr0. split; [|split].
  - apply memcpy_ok; lia.
  - unfold splice. rewrite !length_app, length_take, length_drop. unfold zlen in *. lia.
  - unfold splice. rewrite app_assoc. unfold zlen at 1. rewrite Nat2Z.id, Hr.
    by rewrite take_app_length.
Qed.

Lemma update_step_full ctx h r data len :
  holds ctx h r -> (length r <= 64)%nat -> 0 < len <= zlen data -> zlen r + len < 2 ^ 32 ->
  64 < zlen r + len ->
  chunk_size ctx len = 64 - zlen r /\
  exists ctx', update_step ctx data len = Ret ctx' /\ ctx_len ctx' = ctx_len ctx /\
    holds ctx' (process_block h (r ++ sub data 0 (64 - zlen r))) [].
Proof.
  intros (Hh & Hb & Hn & Ht) Hr Hl Hs Hgt.
  pose proof (zlen_nonneg r) as Hr0.
  assert (Hc : chunk_size ctx len = 64 - zlen r)
    by (apply chunk_size_full; unfold zlen in *; lia).
  split; [exact Hc|]. unfold update_step. rewrite Hc, Hn.
  destruct (buf_append (ctx_buf ctx) r data (64 - zlen r)) as (Hm & Hlen & Htk);
    [assumption..|unfold zlen in *; lia|lia|unfold zlen in *; lia|].
  rewrite Hm. run_step. rewrite wrap_small by (unfold in_u; lia).
  replace (zlen r + (64 - zlen r) =? 64) with true by (symmetry; zbool).
  eexists; split; [reflexivity|]. split; [reflexivity|].
  unfold holds; split_and!; cbn [ctx_h ctx_buf ctx_buf_len]; try assumption || reflexivity.
  rewrite Hh. f_equal. rewrite <- Htk.
  symmetry. apply take_ge. rewrite Hlen, length_app, length_sub by (unfold zlen in *; lia).
  unfold zlen. lia.
Qed.

Lemma update_step_last ctx h r data len :
  holds ctx h r -> 0 < len <= zlen data -> zlen r + len <= 64 ->
  chunk_size ctx len = len /\
  exists ctx', update_step ctx data len = Ret ctx' /\ ctx_len ctx' = ctx_len ctx /\
    (if zlen r + len =? 64
     then holds ctx' (process_block h (r ++ sub data 0 len)) []
     else holds ctx' h (r ++ sub data 0 len)).
Proof.
  intros (Hh & Hb & Hn & Ht) Hl Hs.
  pose proof (zlen_nonneg r) as Hr0.
  assert (Hc : chunk_size ctx len = len) by (apply (chunk_size_last ctx len r); lia).
  split; [exact Hc|]. unfold update_step. rewrite Hc, Hn.
  destruct (buf_append (ctx_buf ctx) r data len) as (Hm & Hlen & Htk); [assumption..|lia|lia|lia|].
  rewrite Hm. run_step. rewrite wrap_small by (unfold in_u; lia).
  assert (Hz : zlen (sub data 0 len) = len) by (apply zlen_sub; lia).
  destruct (Z.eqb_spec (zlen r + len) 64) as [E|E];
    (eexists; split; [reflexivity|]; split; [reflexivity|]).
  - unfold holds; split_and!; cbn [ctx_h ctx_buf ctx_buf_len]; try assumption || reflexivity.
    rewrite Hh. f_equal. rewrite <- Htk.
    symmetry. apply take_ge. rewrite Hlen, length_app. unfold zlen in *. lia.
  - unfold holds; split_and!; cbn [with_buf ctx_h ctx_buf ctx_buf_len]; try assumption.
    by rewrite zlen_app, Hz.
Qed.

(** The loop turns the pending bytes and the data into full blocks and a rest,
    and ends within [len + 1] turns. *)
Lemma update_loop_spec fuel : forall ctx h r data len,
  holds ctx h r -> (length r < 64)%nat -> 0 <= len <= zlen data ->
  zlen r + len < 2 ^ 32 -> len <= Z.of_nat fuel ->
  exists ctx' bs r',
    update_loop fuel ctx data len = Ret ctx' /\ ctx_len ctx' = ctx_len ctx /\
    r ++ sub data 0 len = concat bs ++ r' /\ full_blocks bs /\ (length r' < 64)%nat /\
    holds ctx' (fold_left process_block bs h) r'.
Proof.
  induction fuel as [|fuel IH]; intros ctx h r data len Hc Hr Hl Hs Hf.
  all: destruct (Z.leb_spec len 0) as [H0|H0].
  1,3: (exists ctx, [], r; replace len with 0 by lia; cbn; rewrite app_nil_r;
        split_and!; first [assumption | constructor | reflexivity]).
  { lia. }
  cbn [update_loop]. destruct (Z.leb_spec len 0); [lia|].
  pose proof (zlen_nonneg r) as Hr0.
  assert (Hr64 : zlen r < 64) by (unfold zlen; lia).
  destruct (Z.lt_ge_cases 64 (zlen r + len)) as [Hgt|Hle].
  - destruct (update_step_full ctx h r data len) as (Hch & ctx1 & He & Hlen1 & Hh1);
      [assumption|lia|lia|assumption|assumption|].
    rewrite He, Hch. run_step. rewrite wrap_small by (unfold in_u; lia).
    remember (64 - zlen r) as n eqn:En in *.
    destruct (IH ctx1 _ [] (drop (Z.to_nat n) data) (len - n) Hh1)
      as (ctx2 & bs & r' & E & El & Eq & Hbs & Hr' & Hh2);
      [cbn; lia|unfold zlen in *; rewrite length_drop; lia|unfold zlen in *; cbn [length]; lia|lia|].
    exists ctx2, ((r ++ sub data 0 n) :: bs), r'.
    rewrite E, El, Hlen1. split_and!; try assumption || reflexivity.
    + cbn [concat]. rewrite <- app_assoc, <- Eq. cbn [app]. rewrite <- app_assoc. f_equal.
      unfold sub. rewrite !drop_0.
      replace (Z.to_nat len) with (Z.to_nat n + Z.to_nat (len - n))%nat by lia.
      by rewrite take_take_drop.
    + constructor; [|exact Hbs]. rewrite length_app, length_sub by lia. unfold zlen in *. lia.
  - destruct (update_step_last ctx h r data len) as (Hch & ctx1 & He & Hlen1 & Hh1);
      [assumption|lia|lia|].
    rewrite He, Hch, Z.sub_diag. run_step.
    assert (Hend : update_loop fuel ctx1 (drop (Z.to_nat len) data) (u32 0) = Ret ctx1)
      by (destruct fuel; reflexivity).
    rewrite Hend.
    destruct (Z.eqb_spec (zlen r + len) 64) as [E|E].
    + exists ctx1, [r ++ sub data 0 len], []. cbn [concat].
      rewrite !app_nil_r. split_and!; try assumption || reflexivity.
      * constructor; [|constructor]. rewrite length_app, length_sub by lia. unfold zlen in *. lia.
      * cbn. lia.
    + exists ctx1, [], (r ++ sub data 0 len).
      split_and!; try assumption || reflexivity; [constructor|].
      rewrite length_app, length_sub by lia. unfold zlen in *. lia.
Qed.

Lemma concat_full_length bs : full_blocks bs -> length (concat bs) = (64 * length bs)%nat.
Proof. induction 1 as [|b bs Hb Hbs IH]; cbn; [lia|]. rewrite length_app, Hb, IH. lia. Qed.

Lemma full_blocks_app bs bs' : full_blocks bs -> full_blocks bs' -> full_blocks (bs ++ bs').
Proof. intros. by apply Forall_app. Qed.

Lemma zlen_rest bs r :
  full_blocks bs -> (length r < 64)%nat -> zlen (concat bs ++ r) mod 64 = zlen r.
Proof.
  intros Hbs Hr. rewrite zlen_app. unfold zlen at 1. rewrite concat_full_length by assumption.
  replace (Z.of_nat (64 * length bs)) with (Z.of_nat (length bs) * 64) by lia.
  rewrite Z.add_comm, Z.mod_add by lia. apply Z.mod_small. unfold zlen. lia.
Qed.

Lemma init_absorbed c : exists ctx,
  crypto_sha256_init (Some c) = (CRYPTO_SUCCESS, Some ctx) /\ absorbed ctx [].
Proof.
  eexists; split; [reflexivity|]. exists [], [].
  split_and!; try reflexivity; [constructor|cbn; lia|]. repeat split.
Qed.

(** [update] appends the data to the message absorbed so far. *)
Lemma update_absorbed ctx m data len :
  absorbed ctx m -> 0 <= len <= zlen data -> zlen m mod 64 + len < 2 ^ 32 ->
  exists ctx', crypto_sha256_update (Some ctx) (Some data) len = Ret (CRYPTO_SUCCESS, Some ctx') /\
    absorbed ctx' (m ++ sub data 0 len).
Proof.
  intros (bs & r & -> & Hbs & Hr & Hh & Hlen) Hl Hs. rewrite zlen_rest in Hs by assumption.
  unfold crypto_sha256_update.
  edestruct (update_loop_spec (update_fuel len)) with
    (ctx := mk_sha256_ctx (ctx_h ctx) (u64 (ctx_len ctx + len)) (ctx_buf ctx) (ctx_buf_len ctx))
    as (ctx' & bs' & r' & E & El & Eq & Hbs' & Hr' & Hh');
    [exact Hh|assumption|exact Hl|assumption|unfold update_fuel; lia|].
  rewrite E. run_step. eexists; split; [reflexivity|].
  exists (bs ++ bs'), r'. split_and!; try assumption.
  - rewrite concat_app, <- !app_assoc. by rewrite Eq.
  - by apply full_blocks_app.
  - by rewrite fold_left_app.
  - rewrite El. cbn [ctx_len]. rewrite Hlen, (zlen_app (_ ++ _)), zlen_sub by lia.
    unfold wrap. rewrite Zplus_mod_idemp_l. reflexivity.
Qed.

(** ** [final] *)

Lemma push_byte_holds ctx h r v :
  holds ctx h r -> (length r < 64)%nat ->
  exists ctx', push_byte ctx v = Ret ctx' /\ holds ctx' h (r ++ [v]).
Proof.
  intros (Hh & Hb & Hn & Ht) Hr. unfold push_byte, wr. rewrite Hn.
  assert (Hz : zlen r < 64) by (unfold zlen; lia). pose proof (zlen_nonneg r).
  replace (zlen (ctx_buf ctx)) with 64 by (unfold zlen; lia).
  replace ((0 <=? zlen r) && _) with true by (symmetry; zbool).
  run_step. rewrite wrap_small by (unfold in_u; lia).
  eexists; split; [reflexivity|].
  unfold holds; split_and!; cbn [with_buf ctx_h ctx_buf ctx_buf_len].
  - assumption.
  - unfold zset. by rewrite length_insert.
  - rewrite zlen_app. reflexivity.
  - unfold zset, zlen. rewrite Nat2Z.id, length_app. cbn [length].
    replace (length r + 1)%nat with (S (length r)) by lia.
    erewrite take_S_r by (apply list_lookup_insert_eq; lia).
    rewrite take_insert_ge by lia. by rewrite Ht.
Qed.

Lemma push_all_holds l : forall ctx h r,
  holds ctx h r -> (length r + length l <= 64)%nat ->
  exists ctx', push_all ctx l = Ret ctx' /\ holds ctx' h (r ++ l).
Proof.
  induction l as [|v l IH]; intros ctx h r Hh Hl; cbn [push_all length] in *.
  { exists ctx. by rewrite app_nil_r. }
  destruct (push_byte_holds ctx h r v Hh) as (ctx1 & -> & H1); [lia|]. run_step.
  destruct (IH ctx1 h (r ++ [v]) H1) as (ctx2 & -> & H2); [rewrite length_app; cbn; lia|].
  exists ctx2. by rewrite <- app_assoc in H2.
Qed.

Lemma update_loop_S fuel ctx data len :
  0 < len ->
  update_loop (S fuel) ctx data len =
  (ctx' ← update_step ctx data len;
   update_loop fuel ctx' (drop (Z.to_nat (chunk_size ctx len)) data)
               (u32 (len - chunk_size ctx len))).
Proof. intros H. cbn [update_loop]. destruct (Z.leb_spec len 0); [lia|reflexivity]. Qed.

(** Feeding the context its own full buffer compresses that block twice. *)
Lemma update_self_full ctx h r :
  holds ctx h r -> length r = 64%nat ->
  exists ctx', update_self ctx 64 = Ret ctx' /\
    holds ctx' (process_block (process_block h r) r) [].
Proof.
  intros Hh Hr. pose proof Hh as (_ & Hb & _ & Ht).
  assert (Hz : zlen r = 64) by (unfold zlen; lia).
  assert (Hbuf : ctx_buf ctx = r) by (rewrite <- Ht; symmetry; apply take_ge; lia).
  unfold update_self, crypto_sha256_update. change (update_fuel 64) with (S (S 63)).
  set (c1 := mk_sha256_ctx _ _ _ _). assert (H1 : holds c1 h r) by exact Hh.
  rewrite Hbuf, update_loop_S by lia.
  destruct (update_step_full c1 h r r 64) as (Ec & c2 & -> & _ & H2); [assumption|lia..|].
  rewrite Ec, Hz. run_step. change (u32 (64 - (64 - 64))) with 64.
  change (Z.to_nat (64 - 64)) with 0%nat. rewrite drop_0, update_loop_S by lia.
  destruct (update_step_last c2 _ [] r 64 H2) as (Ec2 & c3 & -> & _ & H3);
    [lia|change (zlen []) with 0; lia|].
  rewrite Ec2. run_step. change (u32 (64 - 64)) with 0.
  exists c3; split; [reflexivity|]. change (zlen [] + 64 =? 64) with true in H3. cbn iota in H3.
  rewrite Hz, (sub_all r 64) in H3 by lia.
  change (sub r 0 (64 - 64)) with (@nil Z) in H3. by rewrite app_nil_r in H3.
Qed.

Lemma pad_loop_low fuel : forall ctx h r,
  holds ctx h r -> (length r <= 56)%nat -> (56 - length r <= fuel)%nat ->
  exists ctx', pad_loop fuel ctx = Ret ctx' /\ holds ctx' h (r ++ zeros (56 - zlen r)).
Proof.
  induction fuel as [|fuel IH]; intros ctx h r Hh Hr Hf.
  all: pose proof Hh as (_ & _ & Hn & _).
  all: assert (Hz : ctx_buf_len ctx mod 64 = zlen r)
    by (rewrite Hn; apply Z.mod_small; unfold zlen; lia).
  all: cbn [pad_loop]; rewrite Hz; destruct (Z.eqb_spec (zlen r) 56) as [E|E].
  1,3: (exists ctx; rewrite E; split; [reflexivity|]; by rewrite app_nil_r).
  { unfold zlen in *. lia. }
  rewrite Hn. replace (zlen r =? 64) with false by (symmetry; unfold zlen in *; zbool).
  run_step. destruct (push_byte_holds ctx h r 0 Hh) as (c1 & -> & H1); [lia|]. run_step.
  destruct (IH c1 h (r ++ [0]) H1) as (c2 & -> & H2);
    [rewrite length_app; unfold zlen in *; cbn; lia..|].
  exists c2; split; [reflexivity|]. rewrite <- app_assoc, zlen_app in H2.
  replace (zeros (56 - zlen r)) with ([0] ++ zeros (56 - (zlen r + zlen [0]))); [exact H2|].
  unfold zeros. change (zlen [0]) with 1.
  replace (Z.to_nat (56 - zlen r)) with (S (Z.to_nat (56 - (zlen r + 1)))); [reflexivity|].
  unfold zlen in *. lia.
Qed.

Lemma pad_loop_high fuel : forall ctx h r,
  holds ctx h r -> (56 < length r <= 64)%nat -> (120 - length r <= fuel)%nat ->
  exists ctx', pad_loop fuel ctx = Ret ctx' /\
    let b := r ++ zeros (64 - zlen r) in
    holds ctx' (process_block (process_block h b) b) (zeros 56).
Proof.
  induction fuel as [|fuel IH]; intros ctx h r Hh Hr Hf; [lia|].
  pose proof Hh as (_ & _ & Hn & _). cbn [pad_loop].
  replace (ctx_buf_len ctx mod 64 =? 56) with false.
  2: { symmetry. zbool. rewrite Hn. unfold zlen.
       destruct (decide (length r = 64%nat)) as [->|]; [done|].
       rewrite Z.mod_small; lia. }
  rewrite Hn. destruct (Z.eqb_spec (zlen r) 64) as [E|E].
  - destruct (update_self_full ctx h r Hh) as (c1 & -> & H1); [unfold zlen in E; lia|].
    run_step.
    destruct (push_byte_holds (with_buf c1 (ctx_buf c1) 0)
                (process_block (process_block h r) r) [] 0) as (c2 & -> & H2);
      [destruct H1 as (? & ? & ? & ?); by unfold holds; split_and!|cbn; lia|]. run_step.
    destruct (pad_loop_low fuel c2 _ [0] H2) as (c3 & -> & H3); [cbn; lia..|].
    exists c3; split; [reflexivity|]. rewrite E. cbn zeta.
    by rewrite app_nil_r.
  - run_step. destruct (push_byte_holds ctx h r 0 Hh) as (c1 & -> & H1); [unfold zlen in E; lia|].
    run_step. destruct (IH c1 h (r ++ [0]) H1) as (c2 & -> & H2);
      [rewrite length_app; unfold zlen in *; cbn; lia..|].
    exists c2; split; [reflexivity|]. cbn zeta in *. rewrite <- app_assoc, zlen_app in H2.
    replace (zeros (64 - zlen r)) with ([0] ++ zeros (64 - (zlen r + zlen [0]))); [exact H2|].
    unfold zeros. change (zlen [0]) with 1.
    replace (Z.to_nat (64 - zlen r)) with (S (Z.to_nat (64 - (zlen r + 1)))); [reflexivity|].
    unfold zlen in *. lia.
Qed.

(** ** Blocks of a message *)

Lemma blocks_fuel_irrel f1 : forall f2 (l : bytes),
  (length l <= f1)%nat -> (length l <= f2)%nat -> blocks_fuel f1 l = blocks_fuel f2 l.
Proof.
  induction f1 as [|f1 IH]; intros [|f2] [|x l] H1 H2; cbn [length] in *; try done || lia.
  cbn [blocks_fuel]. f_equal. apply IH; rewrite length_drop; cbn [length]; lia.
Qed.

Lemma blocks64_block b l :
  length b = 64%nat -> blocks64 (b ++ l) = b :: blocks64 l.
Proof.
  intros Hb. unfold blocks64. destruct b as [|x b]; [done|].
  cbn [app length blocks_fuel]. change (x :: b ++ l) with ((x :: b) ++ l).
  rewrite <- Hb, take_app_length, drop_app_length. f_equal.
  apply blocks_fuel_irrel; rewrite ?length_app; lia.
Qed.

Lemma blocks64_concat bs l :
  full_blocks bs -> blocks64 (concat bs ++ l) = bs ++ blocks64 l.
Proof.
  induction 1 as [|b bs Hb Hbs IH]; [done|].
  cbn [concat app]. rewrite <- app_assoc, blocks64_block by assumption. by rewrite IH.
Qed.

Lemma blocks64_one b : length b = 64%nat -> blocks64 b = [b].
Proof. intros Hb. rewrite <- (app_nil_r b) at 1. by rewrite blocks64_block. Qed.

Definition tail_bytes (r : bytes) (bit_len : Z) : bytes :=
  r ++ [0x80] ++ zeros ((55 - zlen r) mod 64) ++ length_bytes bit_len.

Lemma length_zeros n : length (zeros n) = Z.to_nat n.
Proof. apply length_replicate. Qed.

Lemma tail_blocks_low r n :
  (length r <= 55)%nat -> blocks64 (tail_bytes r n) = [tail_bytes r n].
Proof.
  intros Hr. apply blocks64_one. unfold tail_bytes.
  rewrite Z.mod_small by (unfold zlen; lia).
  rewrite !length_app, length_zeros. unfold zlen. cbn. lia.
Qed.

Lemma tail_blocks_high r n :
  (55 < length r < 64)%nat ->
  blocks64 (tail_bytes r n) = [r ++ [0x80] ++ zeros (63 - zlen r); zeros 56 ++ length_bytes n].
Proof.
  intros Hr. unfold tail_bytes.
  replace ((55 - zlen r) mod 64) with ((63 - zlen r) + 56)
    by (rewrite <- (Z.mod_add _ 1) by lia; rewrite Z.mod_small; unfold zlen; lia).
  rewrite zeros_add by (unfold zlen; lia).
  replace (r ++ [128] ++ (zeros (63 - zlen r) ++ zeros 56) ++ length_bytes n)
    with ((r ++ [128] ++ zeros (63 - zlen r)) ++ zeros 56 ++ length_bytes n)
    by (by rewrite <- !app_assoc).
  rewrite blocks64_block, blocks64_one; [reflexivity|..].
  - rewrite length_app, length_zeros. cbn. lia.
  - rewrite !length_app, length_zeros. unfold zlen. cbn. lia.
Qed.

(** The blocks built by [final] are each compressed twice. *)
Lemma final_holds ctx h r :
  holds ctx h r -> (length r < 64)%nat ->
  exists ctx', crypto_sha256_final (Some ctx) true =
    Ret (CRYPTO_SUCCESS, Some ctx',
         Some (digest (fold_left process_block
                 (dup (blocks64 (tail_bytes r (u64 (ctx_len ctx * 8))))) h))).
Proof.
  intros Hh Hr. unfold crypto_sha256_final. set (bl := u64 (ctx_len ctx * 8)).
  destruct (push_byte_holds ctx h r 0x80 Hh) as (c1 & -> & H1); [assumption|]. run_step.
  assert (Hl8 : forall n, length (length_bytes n) = 8%nat) by reflexivity.
  destruct (decide (length r <= 55)%nat) as [Hlow|Hhigh].
  - destruct (pad_loop_low 64 c1 h _ H1) as (c2 & -> & H2); [rewrite length_app; cbn; lia..|].
    run_step.
    destruct (push_all_holds (length_bytes bl) c2 _ _ H2) as (c3 & -> & H3);
      [rewrite Hl8, !length_app, length_zeros, zlen_app; unfold zlen; cbn [length]; lia|].
    run_step. pose proof H3 as (_ & _ & -> & _).
    assert (E : ((r ++ [128]) ++ zeros (56 - zlen (r ++ [128]))) ++ length_bytes bl = tail_bytes r bl).
    { unfold tail_bytes. rewrite <- !app_assoc, zlen_app.
      rewrite Z.mod_small by (unfold zlen; lia). change (zlen [128]) with 1.
      by replace (56 - (zlen r + 1)) with (55 - zlen r) by lia. }
    rewrite E in *.
    assert (Hlen : length (tail_bytes r bl) = 64%nat).
    { pose proof (tail_blocks_low r bl Hlow) as Hb. unfold tail_bytes.
      rewrite Z.mod_small by (unfold zlen; lia).
      rewrite !length_app, length_zeros, Hl8. unfold zlen. cbn [length]. lia. }
    replace (zlen (tail_bytes r bl)) with 64 by (unfold zlen; lia).
    destruct (update_self_full c3 h _ H3 Hlen) as (c4 & -> & (E4 & _)). run_step.
    exists c4. by rewrite E4, tail_blocks_low by assumption.
  - destruct (pad_loop_high 64 c1 h _ H1) as (c2 & -> & H2); [rewrite length_app; cbn; lia..|].
    run_step. cbn zeta in H2.
    destruct (push_all_holds (length_bytes bl) c2 _ _ H2) as (c3 & -> & H3);
      [rewrite length_zeros, Hl8; cbn; lia|].
    run_step. pose proof H3 as (_ & _ & -> & _).
    replace (zlen (zeros 56 ++ length_bytes bl)) with 64 by reflexivity.
    destruct (update_self_full c3 _ _ H3) as (c4 & -> & (E4 & _)); [reflexivity|]. run_step.
    exists c4. rewrite E4, tail_blocks_high by lia.
    rewrite zlen_app. change (zlen [128]) with 1.
    replace (64 - (zlen r + 1)) with (63 - zlen r) by lia.
    by rewrite <- app_assoc.
Qed.

Lemma pad_split bs r :
  full_blocks bs -> (length r < 64)%nat ->
  pad (concat bs ++ r) = concat bs ++ tail_bytes r (u64 (zlen (concat bs ++ r) * 8)).
Proof.
  intros Hbs Hr. unfold pad, tail_bytes. rewrite <- app_assoc. do 4 f_equal.
  rewrite <- (zlen_rest bs r) at 1 by assumption. f_equal.
  by rewrite Zminus_mod_idemp_r.
Qed.

(** [final] on a context that has absorbed [m]. *)
Lemma final_absorbed ctx m :
  absorbed ctx m ->
  exists ctx', crypto_sha256_final (Some ctx) true =
    Ret (CRYPTO_SUCCESS, Some ctx', Some (code_sha256 m)).
Proof.
  intros (bs & r & -> & Hbs & Hr & Hh & Hlen).
  destruct (final_holds ctx _ r Hh Hr) as (ctx' & ->). exists ctx'. do 3 f_equal.
  unfold code_sha256. rewrite pad_split, blocks64_concat by assumption.
  replace (length (concat bs ++ r) / 64)%nat with (length bs).
  2: { rewrite length_app, concat_full_length by assumption.
       rewrite Nat.mul_comm, Nat.div_add_l by lia. rewrite Nat.div_small by lia. lia. }
  rewrite take_app_length, drop_app_length, fold_left_app, Hlen. do 5 f_equal.
  unfold wrap. by rewrite Zmult_mod_idemp_l.
Qed.

Lemma sha256_hash_eq data len :
  0 <= len <= zlen data -> len < 2 ^ 32 ->
  sha256_hash (Some data) len = Ret (Some (code_sha256 (sub data 0 len))).
Proof.
  intros Hl Hs. unfold sha256_hash.
  destruct (init_absorbed blank_ctx) as (c0 & -> & H0).
  destruct (update_absorbed c0 [] data len H0) as (c1 & -> & H1);
    [assumption|change (zlen [] mod 64) with 0; lia|].
  run_step. cbn [snd]. destruct (final_absorbed c1 _ H1) as (c2 & ->). reflexivity.
Qed.

Lemma length_digest h : length (digest h) = 32%nat.
Proof. reflexivity. Qed.

Lemma length_code_sha256 m : length (code_sha256 m) = 32%nat.
Proof. apply length_digest. Qed.

Lemma zlen_code_sha256 m : zlen (code_sha256 m) = 32.
Proof. unfold zlen. by rewrite length_code_sha256. Qed.

Lemma is_bytes_digest h : is_bytes (digest h).
Proof.
  unfold digest. cbn [seqZ map concat app].
  repeat constructor; unfold is_byte, in_u; change 255 with (Z.ones 8);
    rewrite Z.land_ones by lia; apply Z.mod_pos_bound; lia.
Qed.

(** ** Properties *)

(** C3. For every message of fewer than 2^32 bytes, [sha256_hash] runs to its
    end without undefined behaviour and stores the digest [code_sha256]: the
    FIPS padding and block chain in which the blocks completed by
    [crypto_sha256_final] go twice through the compression function. *)
Theorem sha256_hash_functional data len :
  0 <= len <= zlen data -> len < 2 ^ 32 ->
  sha256_hash (Some data) len = Ret (Some (code_sha256 (sub data 0 len))).
Proof. apply sha256_hash_eq. Qed.

Lemma sha256_hash_functional_witness :
  sha256_hash (Some [97; 98; 99]) 3 = Ret (Some (code_sha256 (sub [97; 98; 99] 0 3))).
Proof. apply sha256_hash_functional; unfold zlen; cbn; lia. Defined.

(** C4. Streaming: however a message is cut into two [update] calls, the digest
    stored by [final] is the one of the concatenated message. *)
Theorem sha256_streaming (c : crypto_sha256_ctx_t) (a b : bytes) :
  zlen a < 2 ^ 32 -> 64 + zlen b <= 2 ^ 32 ->
  (let '(_, c0) := crypto_sha256_init (Some c) in
   r1 ← crypto_sha256_update c0 (Some a) (zlen a);
   r2 ← crypto_sha256_update (snd r1) (Some b) (zlen b);
   r3 ← crypto_sha256_final (snd r2) true;
   mret (snd r3)) = Ret (Some (code_sha256 (a ++ b))).
Proof.
  intros Ha Hb. pose proof (zlen_nonneg a) as Ha0. pose proof (zlen_nonneg b) as Hb0.
  destruct (init_absorbed c) as (c0 & -> & H0).
  destruct (update_absorbed c0 [] a (zlen a) H0) as (c1 & -> & H1);
    [lia|change (zlen [] mod 64) with 0; lia|].
  run_step. rewrite sub_all in H1 by reflexivity. cbn [app snd] in *.
  destruct (update_absorbed c1 a b (zlen b) H1) as (c2 & -> & H2); [lia| |].
  { pose proof (Z.mod_pos_bound (zlen a) 64). lia. }
  run_step. rewrite sub_all in H2 by reflexivity. cbn [snd].
  destruct (final_absorbed c2 _ H2) as (c3 & ->). reflexivity.
Qed.

Lemma sha256_streaming_witness :
  (let '(_, c0) := crypto_sha256_init (Some blank_ctx) in
   r1 ← crypto_sha256_update c0 (Some [97]) (zlen [97]);
   r2 ← crypto_sha256_update (snd r1) (Some [98; 99]) (zlen [98; 99]);
   r3 ← crypto_sha256_final (snd r2) true;
   mret (snd r3)) = Ret (Some (code_sha256 ([97] ++ [98; 99]))).
Proof. apply sha256_streaming; unfold zlen; cbn; lia. Defined.

(** [update] computes [ctx->buf_len + len] in 32 bits: with bytes pending, a
    length for which the sum wraps makes the first [memcpy] run past the
    64-byte buffer. *)
Theorem sha256_update_overflow ctx data len :
  length (ctx_buf ctx) = 64%nat -> 0 < ctx_buf_len ctx < 64 -> 0 <= len < 2 ^ 32 ->
  2 ^ 32 <= ctx_buf_len ctx + len ->
  crypto_sha256_update (Some ctx) (Some data) len = UB.
Proof.
  intros Hb Hn Hl Hw. unfold crypto_sha256_update, update_fuel.
  replace (Z.to_nat (len + 1)) with (S (Z.to_nat len)) by lia.
  rewrite update_loop_S by lia. unfold update_step.
  set (c1 := mk_sha256_ctx _ _ _ _).
  assert (Hc : chunk_size c1 len = len).
  { unfold chunk_size, wrap. cbn [c1 ctx_buf_len].
    rewrite <- (Z.mod_add _ (-1)) by lia. rewrite Z.mod_small by lia.
    destruct (Z.ltb_spec 64 (ctx_buf_len ctx + len + -1 * 2 ^ 32)); [lia|reflexivity]. }
  rewrite Hc. unfold memcpy. cbn [c1 ctx_buf ctx_buf_len].
  replace (ctx_buf_len ctx + len <=? zlen (ctx_buf ctx)) with false
    by (symmetry; zbool; unfold zlen; lia).
  by rewrite !andb_false_r.
Qed.

Lemma sha256_update_overflow_witness :
  crypto_sha256_update (Some (mk_sha256_ctx sha256_h 1 (zeros 64) 1)) (Some [97])
    (2 ^ 32 - 1) = UB.
Proof. apply sha256_update_overflow; [reflexivity|cbn [ctx_buf_len]; lia..]. Defined.
