(* ===== verification/CryptoMem.v ===== *)
(** * Constant-time memory helpers (src/security/crypto.c)

    [crypto_memcmp_constant_time], [crypto_memzero_secure] and
    [crypto_zeroize_context]. *)

From S2P Require Import Prelude.

(** [for (i = 0; i < len; i++) result |= pa[i] ^ pb[i];] over one [uint8_t]. *)
Definition crypto_memcmp_constant_time (a b : bytes) (len : Z) : Z :=
  for_loop 0 len (fun i result => u8 (result ||| (zget a i ^^ zget b i))) 0.

(** [for (i = 0; i < len; i++) p[i] = 0;] *)
Definition crypto_memzero_secure (p : bytes) (len : Z) : run bytes :=
  if (0 <=? len) && (len <=? zlen p)
  then Ret (for_loop 0 len (fun i p => zset p i 0) p) else UB.

Definition crypto_zeroize_context (ctx : bytes) (size : Z) : run bytes :=
  crypto_memzero_secure ctx size.

(** ** Lemmas *)

Lemma lor_eq_0 x y : (x ||| y) = 0 <-> x = 0 /\ y = 0.
Proof. apply Z.lor_eq_0_iff. Qed.

Lemma lxor_eq_0 x y : (x ^^ y) = 0 <-> x = y.
Proof. apply Z.lxor_eq_0_iff. Qed.

Lemma u8_byte x : is_byte x -> u8 x = x.
Proof. apply wrap_small. Qed.

Lemma memcmp_fold_zero (a b : bytes) (l : list Z) : is_bytes a -> is_bytes b ->
  forall r, is_byte r ->
  fold_left (fun r i => u8 (r ||| (zget a i ^^ zget b i))) l r = 0 <->
  r = 0 /\ Forall (fun i => zget a i = zget b i) l.
Proof.
  intros Ha Hb. induction l as [|i l IH]; intros r Hr; cbn [fold_left].
  { split; [intros ->; split; [done|constructor]|intuition]. }
  assert (Hx : is_byte (zget a i ^^ zget b i))
    by (apply in_u_lxor; [lia|by apply is_bytes_get..]).
  assert (Ho : is_byte (r ||| (zget a i ^^ zget b i))) by (by apply in_u_lor; [lia|..]).
  rewrite u8_byte, IH by assumption. rewrite lor_eq_0, lxor_eq_0, Forall_cons. tauto.
Qed.

Lemma sub_ext (a b : bytes) n :
  0 <= n -> n <= zlen a -> n <= zlen b ->
  sub a 0 n = sub b 0 n <-> (forall i, 0 <= i < n -> zget a i = zget b i).
Proof.
  intros Hn Ha Hb. unfold sub. rewrite !drop_0. unfold zlen in *. split.
  - intros E i Hi. unfold zget.
    rewrite <- (take_drop (Z.to_nat n) a), <- (take_drop (Z.to_nat n) b), E.
    rewrite !app_nth1; [reflexivity|rewrite length_take; lia..].
  - intros E. apply list_eq. intros i.
    destruct (decide (i < Z.to_nat n)%nat) as [Hi|Hi].
    + rewrite !lookup_take_lt by lia. specialize (E (Z.of_nat i) ltac:(lia)).
      unfold zget in E. rewrite Nat2Z.id in E.
      rewrite !nth_lookup in E.
      destruct (lookup_lt_is_Some_2 a i) as [x Hx]; [lia|].
      destruct (lookup_lt_is_Some_2 b i) as [y Hy]; [lia|].
      rewrite Hx, Hy in *. cbn in E. congruence.
    + rewrite !lookup_ge_None_2; [done|rewrite length_take; lia..].
Qed.

Lemma memcmp_zero_iff a b n :
  is_bytes a -> is_bytes b -> 0 <= n -> n <= zlen a -> n <= zlen b ->
  crypto_memcmp_constant_time a b n = 0 <-> sub a 0 n = sub b 0 n.
Proof.
  intros Ha Hb Hn Hla Hlb. rewrite sub_ext by assumption.
  unfold crypto_memcmp_constant_time, for_loop.
  rewrite memcmp_fold_zero by (assumption || (unfold is_byte, in_u; lia)).
  rewrite Forall_seqZ. split; [intros [_ H] i Hi; apply H; lia|].
  intros H. split; [reflexivity|]. intros i Hi. apply H. lia.
Qed.

Lemma memzero_fold (n : nat) : forall (k : nat) (p : bytes),
  fold_left (fun p i => zset p i 0) (seqZ (Z.of_nat k) (Z.of_nat n)) p =
  take k p ++ replicate (Nat.min n (length p - k)) 0 ++ drop (k + n) p.
Proof.
  induction n as [|n IH]; intros k p.
  { cbn. rewrite Nat.add_0_r. symmetry. apply take_drop. }
  rewrite seqZ_cons by lia. cbn [fold_left].
  replace (Z.succ (Z.of_nat k)) with (Z.of_nat (S k)) by lia.
  replace (Z.pred (Z.of_nat (S n))) with (Z.of_nat n) by lia.
  rewrite IH. unfold zset. rewrite Nat2Z.id, length_insert.
  destruct (decide (k < length p)%nat) as [Hk|Hk].
  - erewrite take_S_r by (apply list_lookup_insert_eq; lia).
    rewrite take_insert_ge, drop_insert_lt by lia.
    replace (Nat.min (S n) (length p - k)) with (S (Nat.min n (length p - S k))) by lia.
    rewrite <- app_assoc. cbn. do 3 f_equal. f_equal. lia.
  - rewrite list_insert_ge by lia.
    rewrite !take_ge, !drop_ge by lia.
    by replace (Nat.min n (length p - S k)) with 0%nat by lia;
      replace (Nat.min (S n) (length p - k)) with 0%nat by lia.
Qed.

(** ** Properties *)

(** The constant-time comparison returns 0 exactly when the first [len]
    bytes are equal (bytes of either buffer beyond them do not matter). *)
Theorem memcmp_constant_time_correct a b n :
  is_bytes a -> is_bytes b -> 0 <= n -> n <= zlen a -> n <= zlen b ->
  crypto_memcmp_constant_time a b n = 0 <-> sub a 0 n = sub b 0 n.
Proof. apply memcmp_zero_iff. Qed.

Lemma memcmp_constant_time_correct_witness :
  crypto_memcmp_constant_time [1; 2; 3] [1; 2; 4] 2 = 0 <->
  sub [1; 2; 3] 0 2 = sub [1; 2; 4] 0 2.
Proof.
  apply memcmp_constant_time_correct;
    try (unfold zlen; cbn; lia); repeat constructor; unfold in_u; lia.
Defined.

(** Zeroing a context overwrites exactly its first [size] bytes with zeros
    and faults when the object is shorter. *)
Theorem memzero_secure_correct p len :
  0 <= len ->
  crypto_zeroize_context p len =
  (if len <=? zlen p then Ret (zeros len ++ drop (Z.to_nat len) p) else UB).
Proof.
  intros Hl. unfold crypto_zeroize_context, crypto_memzero_secure, for_loop.
  replace (0 <=? len) with true by (symmetry; zbool). cbn [andb].
  destruct (Z.leb_spec len (zlen p)) as [Hp|Hp]; [|reflexivity].
  f_equal. rewrite <- (Z2Nat.id len) at 1 by lia. rewrite (memzero_fold _ 0).
  unfold zlen in Hp. rewrite take_0, Nat.min_l by lia. reflexivity.
Qed.

Lemma memzero_secure_correct_witness :
  crypto_zeroize_context [1; 2; 3] 2 =
  (if 2 <=? zlen [1; 2; 3] then Ret (zeros 2 ++ drop (Z.to_nat 2) [1; 2; 3]) else UB).
Proof. apply memzero_secure_correct. lia. Defined.
