(* ===== verification/Aes.v ===== *)
(** * The AES block cipher (src/security/aes.c)

    S-boxes, key expansion, the four round transformations and their inverses,
    [aes_encrypt_block_ex] / [aes_decrypt_block_ex] and the context functions
    built on them.  The 16-byte state is a list of bytes in the order of the C
    array, updated in place as the C code updates it. *)

From Stdlib Require Import Btauto.
From S2P Require Import Prelude Sha256.

Definition AES_BLOCK_SIZE : Z := 16.

Definition aes_sbox : bytes :=
  [0x63; 0x7c; 0x77; 0x7b; 0xf2; 0x6b; 0x6f; 0xc5; 0x30; 0x01; 0x67; 0x2b; 0xfe; 0xd7; 0xab; 0x76;
   0xca; 0x82; 0xc9; 0x7d; 0xfa; 0x59; 0x47; 0xf0; 0xad; 0xd4; 0xa2; 0xaf; 0x9c; 0xa4; 0x72; 0xc0;
   0xb7; 0xfd; 0x93; 0x26; 0x36; 0x3f; 0xf7; 0xcc; 0x34; 0xa5; 0xe5; 0xf1; 0x71; 0xd8; 0x31; 0x15;
   0x04; 0xc7; 0x23; 0xc3; 0x18; 0x96; 0x05; 0x9a; 0x07; 0x12; 0x80; 0xe2; 0xeb; 0x27; 0xb2; 0x75;
   0x09; 0x83; 0x2c; 0x1a; 0x1b; 0x6e; 0x5a; 0xa0; 0x52; 0x3b; 0xd6; 0xb3; 0x29; 0xe3; 0x2f; 0x84;
   0x53; 0xd1; 0x00; 0xed; 0x20; 0xfc; 0xb1; 0x5b; 0x6a; 0xcb; 0xbe; 0x39; 0x4a; 0x4c; 0x58; 0xcf;
   0xd0; 0xef; 0xaa; 0xfb; 0x43; 0x4d; 0x33; 0x85; 0x45; 0xf9; 0x02; 0x7f; 0x50; 0x3c; 0x9f; 0xa8;
   0x51; 0xa3; 0x40; 0x8f; 0x92; 0x9d; 0x38; 0xf5; 0xbc; 0xb6; 0xda; 0x21; 0x10; 0xff; 0xf3; 0xd2;
   0xcd; 0x0c; 0x13; 0xec; 0x5f; 0x97; 0x44; 0x17; 0xc4; 0xa7; 0x7e; 0x3d; 0x64; 0x5d; 0x19; 0x73;
   0x60; 0x81; 0x4f; 0xdc; 0x22; 0x2a; 0x90; 0x88; 0x46; 0xee; 0xb8; 0x14; 0xde; 0x5e; 0x0b; 0xdb;
   0xe0; 0x32; 0x3a; 0x0a; 0x49; 0x06; 0x24; 0x5c; 0xc2; 0xd3; 0xac; 0x62; 0x91; 0x95; 0xe4; 0x79;
   0xe7; 0xc8; 0x37; 0x6d; 0x8d; 0xd5; 0x4e; 0xa9; 0x6c; 0x56; 0xf4; 0xea; 0x65; 0x7a; 0xae; 0x08;
   0xba; 0x78; 0x25; 0x2e; 0x1c; 0xa6; 0xb4; 0xc6; 0xe8; 0xdd; 0x74; 0x1f; 0x4b; 0xbd; 0x8b; 0x8a;
   0x70; 0x3e; 0xb5; 0x66; 0x48; 0x03; 0xf6; 0x0e; 0x61; 0x35; 0x57; 0xb9; 0x86; 0xc1; 0x1d; 0x9e;
   0xe1; 0xf8; 0x98; 0x11; 0x69; 0xd9; 0x8e; 0x94; 0x9b; 0x1e; 0x87; 0xe9; 0xce; 0x55; 0x28; 0xdf;
   0x8c; 0xa1; 0x89; 0x0d; 0xbf; 0xe6; 0x42; 0x68; 0x41; 0x99; 0x2d; 0x0f; 0xb0; 0x54; 0xbb; 0x16].

Definition aes_inv_sbox : bytes :=
  [0x52; 0x09; 0x6a; 0xd5; 0x30; 0x36; 0xa5; 0x38; 0xbf; 0x40; 0xa3; 0x9e; 0x81; 0xf3; 0xd7; 0xfb;
   0x7c; 0xe3; 0x39; 0x82; 0x9b; 0x2f; 0xff; 0x87; 0x34; 0x8e; 0x43; 0x44; 0xc4; 0xde; 0xe9; 0xcb;
   0x54; 0x7b; 0x94; 0x32; 0xa6; 0xc2; 0x23; 0x3d; 0xee; 0x4c; 0x95; 0x0b; 0x42; 0xfa; 0xc3; 0x4e;
   0x08; 0x2e; 0xa1; 0x66; 0x28; 0xd9; 0x24; 0xb2; 0x76; 0x5b; 0xa2; 0x49; 0x6d; 0x8b; 0xd1; 0x25;
   0x72; 0xf8; 0xf6; 0x64; 0x86; 0x68; 0x98; 0x16; 0xd4; 0xa4; 0x5c; 0xcc; 0x5d; 0x65; 0xb6; 0x92;
   0x6c; 0x70; 0x48; 0x50; 0xfd; 0xed; 0xb9; 0xda; 0x5e; 0x15; 0x46; 0x57; 0xa7; 0x8d; 0x9d; 0x84;
   0x90; 0xd8; 0xab; 0x00; 0x8c; 0xbc; 0xd3; 0x0a; 0xf7; 0xe4; 0x58; 0x05; 0xb8; 0xb3; 0x45; 0x06;
   0xd0; 0x2c; 0x1e; 0x8f; 0xca; 0x3f; 0x0f; 0x02; 0xc1; 0xaf; 0xbd; 0x03; 0x01; 0x13; 0x8a; 0x6b;
   0x3a; 0x91; 0x11; 0x41; 0x4f; 0x67; 0xdc; 0xea; 0x97; 0xf2; 0xcf; 0xce; 0xf0; 0xb4; 0xe6; 0x73;
   0x96; 0xac; 0x74; 0x22; 0xe7; 0xad; 0x35; 0x85; 0xe2; 0xf9; 0x37; 0xe8; 0x1c; 0x75; 0xdf; 0x6e;
   0x47; 0xf1; 0x1a; 0x71; 0x1d; 0x29; 0xc5; 0x89; 0x6f; 0xb7; 0x62; 0x0e; 0xaa; 0x18; 0xbe; 0x1b;
   0xfc; 0x56; 0x3e; 0x4b; 0xc6; 0xd2; 0x79; 0x20; 0x9a; 0xdb; 0xc0; 0xfe; 0x78; 0xcd; 0x5a; 0xf4;
   0x1f; 0xdd; 0xa8; 0x33; 0x88; 0x07; 0xc7; 0x31; 0xb1; 0x12; 0x10; 0x59; 0x27; 0x80; 0xec; 0x5f;
   0x60; 0x51; 0x7f; 0xa9; 0x19; 0xb5; 0x4a; 0x0d; 0x2d; 0xe5; 0x7a; 0x9f; 0x93; 0xc9; 0x9c; 0xef;
   0xa0; 0xe0; 0x3b; 0x4d; 0xae; 0x2a; 0xf5; 0xb0; 0xc8; 0xeb; 0xbb; 0x3c; 0x83; 0x53; 0x99; 0x61;
   0x17; 0x2b; 0x04; 0x7e; 0xba; 0x77; 0xd6; 0x26; 0xe1; 0x69; 0x14; 0x63; 0x55; 0x21; 0x0c; 0x7d].

Definition aes_rcon : bytes :=
  [0x00; 0x01; 0x02; 0x04; 0x08; 0x10; 0x20; 0x40; 0x80; 0x1b; 0x36].

(** ** Key expansion *)

Definition aes_sub_word (word : Z) : Z :=
  u32 (zget aes_sbox ((word >>> 24) &&& 0xFF) <<< 24) |||
  u32 (zget aes_sbox ((word >>> 16) &&& 0xFF) <<< 16) |||
  u32 (zget aes_sbox ((word >>> 8) &&& 0xFF) <<< 8) |||
  zget aes_sbox (word &&& 0xFF).

Definition aes_rot_word (word : Z) : Z := u32 (word <<< 8) ||| (word >>> 24).

(** The expanded words in the order in which the two loops store them. *)
Definition aes_key_expansion (key : bytes) (key_bits : Z) : Z * list Z :=
  let key_words := key_bits / 32 in
  let rounds := if key_bits =? 128 then 10 else if key_bits =? 192 then 12 else 14 in
  let total_words := 4 * (rounds + 1) in
  let rk0 := map (load_word key) (seqZ 0 key_words) in
  let rk := for_loop key_words (total_words - key_words)
    (fun i rk =>
       let temp := zget rk (i - 1) in
       let temp :=
         if i mod key_words =? 0
         then aes_sub_word (aes_rot_word temp) ^^ u32 (zget aes_rcon (i / key_words) <<< 24)
         else if (6 <? key_words) && (i mod key_words =? 4)
              then aes_sub_word temp
              else temp in
       rk ++ [zget rk (i - key_words) ^^ temp]) rk0 in
  (rounds, rk).

(** ** Round transformations *)

(** [round_key] is the schedule from the pointer on. *)
Definition aes_add_round_key (state : bytes) (round_key : list Z) : bytes :=
  for_loop 0 4
    (fun i state =>
       let key_word := zget round_key i in
       let state := zset state (i * 4) (zget state (i * 4) ^^ ((key_word >>> 24) &&& 0xFF)) in
       let state := zset state (i * 4 + 1) (zget state (i * 4 + 1) ^^ ((key_word >>> 16) &&& 0xFF)) in
       let state := zset state (i * 4 + 2) (zget state (i * 4 + 2) ^^ ((key_word >>> 8) &&& 0xFF)) in
       zset state (i * 4 + 3) (zget state (i * 4 + 3) ^^ (key_word &&& 0xFF))) state.

Definition aes_sub_bytes (state : bytes) : bytes :=
  for_loop 0 16 (fun i state => zset state i (zget aes_sbox (zget state i))) state.

Definition aes_inv_sub_bytes (state : bytes) : bytes :=
  for_loop 0 16 (fun i state => zset state i (zget aes_inv_sbox (zget state i))) state.

Definition aes_shift_rows (state : bytes) : bytes :=
  let temp := zget state 1 in
  let state := zset state 1 (zget state 5) in
  let state := zset state 5 (zget state 9) in
  let state := zset state 9 (zget state 13) in
  let state := zset state 13 temp in
  let temp := zget state 2 in
  let state := zset state 2 (zget state 10) in
  let state := zset state 10 temp in
  let temp := zget state 6 in
  let state := zset state 6 (zget state 14) in
  let state := zset state 14 temp in
  let temp := zget state 3 in
  let state := zset state 3 (zget state 15) in
  let state := zset state 15 (zget state 11) in
  let state := zset state 11 (zget state 7) in
  zset state 7 temp.

Definition aes_inv_shift_rows (state : bytes) : bytes :=
  let temp := zget state 13 in
  let state := zset state 13 (zget state 9) in
  let state := zset state 9 (zget state 5) in
  let state := zset state 5 (zget state 1) in
  let state := zset state 1 temp in
  let temp := zget state 2 in
  let state := zset state 2 (zget state 10) in
  let state := zset state 10 temp in
  let temp := zget state 6 in
  let state := zset state 6 (zget state 14) in
  let state := zset state 14 temp in
  let temp := zget state 3 in
  let state := zset state 3 (zget state 7) in
  let state := zset state 7 (zget state 11) in
  let state := zset state 11 (zget state 15) in
  zset state 15 temp.

(** One turn of the loop of [aes_gf_mult] on [(result, a, b)]. *)
Definition gf_step (s : Z * Z * Z) : Z * Z * Z :=
  let '(result, a, b) := s in
  let result := if (b &&& 1) =? 0 then result else result ^^ a in
  let hi_bit_set := a &&& 0x80 in
  let a := u8 (a <<< 1) in
  let a := if hi_bit_set =? 0 then a else a ^^ 0x1b in
  (result, a, b >>> 1).

Definition aes_gf_mult (a b : Z) : Z :=
  fst (fst (for_loop 0 8 (fun _ => gf_step) (0, a, b))).

Definition aes_mix_columns (state : bytes) : bytes :=
  for_loop 0 4
    (fun c state =>
       let s0 := zget state (c * 4) in let s1 := zget state (c * 4 + 1) in
       let s2 := zget state (c * 4 + 2) in let s3 := zget state (c * 4 + 3) in
       let state := zset state (c * 4) (aes_gf_mult 0x02 s0 ^^ aes_gf_mult 0x03 s1 ^^ s2 ^^ s3) in
       let state := zset state (c * 4 + 1) (s0 ^^ aes_gf_mult 0x02 s1 ^^ aes_gf_mult 0x03 s2 ^^ s3) in
       let state := zset state (c * 4 + 2) (s0 ^^ s1 ^^ aes_gf_mult 0x02 s2 ^^ aes_gf_mult 0x03 s3) in
       zset state (c * 4 + 3) (aes_gf_mult 0x03 s0 ^^ s1 ^^ s2 ^^ aes_gf_mult 0x02 s3)) state.

Definition aes_inv_mix_columns (state : bytes) : bytes :=
  for_loop 0 4
    (fun c state =>
       let s0 := zget state (c * 4) in let s1 := zget state (c * 4 + 1) in
       let s2 := zget state (c * 4 + 2) in let s3 := zget state (c * 4 + 3) in
       let state := zset state (c * 4)
         (aes_gf_mult 0x0e s0 ^^ aes_gf_mult 0x0b s1 ^^ aes_gf_mult 0x0d s2 ^^ aes_gf_mult 0x09 s3) in
       let state := zset state (c * 4 + 1)
         (aes_gf_mult 0x09 s0 ^^ aes_gf_mult 0x0e s1 ^^ aes_gf_mult 0x0b s2 ^^ aes_gf_mult 0x0d s3) in
       let state := zset state (c * 4 + 2)
         (aes_gf_mult 0x0d s0 ^^ aes_gf_mult 0x09 s1 ^^ aes_gf_mult 0x0e s2 ^^ aes_gf_mult 0x0b s3) in
       zset state (c * 4 + 3)
         (aes_gf_mult 0x0b s0 ^^ aes_gf_mult 0x0d s1 ^^ aes_gf_mult 0x09 s2 ^^ aes_gf_mult 0x0e s3)) state.

(** ** Block functions *)

(** [round_keys + 4 * round] *)
Definition key_at (round_keys : list Z) (round : Z) : list Z :=
  drop (Z.to_nat (round * 4)) round_keys.

Definition encrypt_round (round_keys : list Z) (round : Z) (state : bytes) : bytes :=
  aes_add_round_key (aes_mix_columns (aes_shift_rows (aes_sub_bytes state)))
                    (key_at round_keys round).

Definition decrypt_round (round_keys : list Z) (round : Z) (state : bytes) : bytes :=
  aes_inv_mix_columns (aes_add_round_key (aes_inv_sub_bytes (aes_inv_shift_rows state))
                                         (key_at round_keys round)).

(** The four words from [round_keys + round * 4] on are read; the index is a
    32-bit product. *)
Definition with_key (round_keys : list Z) (round : Z) (state : list Z -> bytes) : run bytes :=
  let offset := u32 (round * 4) in
  if offset + 4 <=? zlen round_keys then Ret (state (drop (Z.to_nat offset) round_keys)) else UB.

(** [for (; n turns left; round++)] and [for (; round > 0; round--)]. *)
Fixpoint rounds_up (n : nat) (round : Z) (body : Z -> bytes -> run bytes) (state : bytes) : run bytes :=
  match n with
  | O => Ret state
  | S n' => state ← body round state; rounds_up n' (round + 1) body state
  end.

Fixpoint rounds_down (round : nat) (body : Z -> bytes -> run bytes) (state : bytes) : run bytes :=
  match round with
  | O => Ret state
  | S round' => state ← body (Z.of_nat round) state; rounds_down round' body state
  end.

Definition encrypt_body (round_keys : list Z) (round : Z) (state : bytes) : run bytes :=
  with_key round_keys round (aes_add_round_key (aes_mix_columns (aes_shift_rows (aes_sub_bytes state)))).

Definition aes_encrypt_block_ex (round_keys : list Z) (rounds : Z) (plaintext : bytes) : run bytes :=
  state ← with_key round_keys 0 (aes_add_round_key (sub plaintext 0 16));
  state ← rounds_up (Z.to_nat (rounds - 1)) 1 (encrypt_body round_keys) state;
  with_key round_keys rounds (aes_add_round_key (aes_shift_rows (aes_sub_bytes state))).

Definition decrypt_body (round_keys : list Z) (round : Z) (state : bytes) : run bytes :=
  with_key round_keys round
    (fun k => aes_inv_mix_columns (aes_add_round_key (aes_inv_sub_bytes (aes_inv_shift_rows state)) k)).

(** The counter of the loop is unsigned: it starts at 2^32 - 1 when [rounds] is 0. *)
Definition aes_decrypt_block_ex (round_keys : list Z) (rounds : Z) (ciphertext : bytes) : run bytes :=
  state ← with_key round_keys rounds (aes_add_round_key (sub ciphertext 0 16));
  state ← rounds_down (Z.to_nat (u32 (rounds - 1))) (decrypt_body round_keys) state;
  with_key round_keys 0 (aes_add_round_key (aes_inv_sub_bytes (aes_inv_shift_rows state))).

(** ** Contexts *)

Record crypto_aes_ctx_t := mk_aes_ctx {
  key_schedule : list Z;
  aes_rounds : Z
}.

(** The context on success, the error code otherwise; [ctx_ok]: [ctx] is not NULL. *)
Definition crypto_aes_init (ctx_ok : bool) (key : option bytes) (key_bits : Z)
  : Z * option crypto_aes_ctx_t :=
  match ctx_ok, key with
  | true, Some key =>
      if negb (key_bits =? 128) && negb (key_bits =? 192) && negb (key_bits =? 256)
      then (CRYPTO_ERROR_INVALID_PARAM, None)
      else let '(rounds, rk) := aes_key_expansion key key_bits in
           (CRYPTO_SUCCESS, Some (mk_aes_ctx rk rounds))
  | _, _ => (CRYPTO_ERROR_INVALID_PARAM, None)
  end.

Definition crypto_aes_encrypt_block (ctx : crypto_aes_ctx_t) (plaintext : bytes) : run bytes :=
  aes_encrypt_block_ex (key_schedule ctx) (aes_rounds ctx) plaintext.

Definition crypto_aes_decrypt_block (ctx : crypto_aes_ctx_t) (ciphertext : bytes) : run bytes :=
  aes_decrypt_block_ex (key_schedule ctx) (aes_rounds ctx) ciphertext.

(** [aes_encrypt_block]: the legacy entry point kept for compatibility. *)
Definition aes_encrypt_block (input key : bytes) : bytes :=
  map (fun i => zget input i ^^ zget key i) (seqZ 0 16).

(** ** Multiplication in GF(2^8) *)

Lemma land1_cases x : (x &&& 1) = 0 \/ (x &&& 1) = 1.
Proof.
  assert (E : x &&& 1 = x mod 2) by (apply (Z.land_ones x 1); lia). rewrite E. dlia.
Qed.

Lemma lxor_land1 x y : (x ^^ y) &&& 1 = (x &&& 1) ^^ (y &&& 1).
Proof.
  apply Z.bits_inj'. intros i _. rewrite !Z.land_spec, !Z.lxor_spec, !Z.land_spec. btauto.
Qed.

Lemma gf_step_linear r r' a b b' :
  exists a1, gf_step (r, a, b) = (fst (fst (gf_step (r, a, b))), a1, b >>> 1) /\
    gf_step (r', a, b') = (fst (fst (gf_step (r', a, b'))), a1, b' >>> 1) /\
    gf_step (r ^^ r', a, b ^^ b') =
      (fst (fst (gf_step (r, a, b))) ^^ fst (fst (gf_step (r', a, b'))), a1,
       (b >>> 1) ^^ (b' >>> 1)).
Proof.
  eexists. split; [reflexivity|]. split; [reflexivity|]. cbn [gf_step fst].
  rewrite Z.shiftr_lxor. f_equal. f_equal.
  rewrite lxor_land1. destruct (land1_cases b) as [-> | ->], (land1_cases b') as [-> | ->];
    rewrite ?Z.lxor_0_l, ?Z.lxor_0_r, ?Z.lxor_nilpotent; cbn;
    try reflexivity; apply Z.bits_inj'; intros i _; rewrite !Z.lxor_spec; btauto.
Qed.

Lemma gf_loop_linear n : forall lo r r' a b b',
  let f s := for_loop lo (Z.of_nat n) (fun _ => gf_step) s in
  fst (fst (f (r ^^ r', a, b ^^ b'))) = fst (fst (f (r, a, b))) ^^ fst (fst (f (r', a, b'))).
Proof.
  induction n as [|n IH]; intros lo r r' a b b' f; unfold f, for_loop in *.
  { reflexivity. }
  rewrite seqZ_cons by lia. replace (Z.pred (Z.of_nat (S n))) with (Z.of_nat n) by lia.
  cbn [fold_left]. destruct (gf_step_linear r r' a b b') as (a1 & E1 & E2 & E3).
  rewrite E1, E2, E3. apply IH.
Qed.

(** [aes_gf_mult] is linear in its second argument. *)
Lemma aes_gf_mult_lxor a b b' :
  aes_gf_mult a (b ^^ b') = aes_gf_mult a b ^^ aes_gf_mult a b'.
Proof. apply (gf_loop_linear 8 0 0 0). Qed.

(** A property of all byte values, checked by evaluation. *)
Lemma byte_forall (P : Z -> bool) :
  forallb P (seqZ 0 256) = true -> forall x, is_byte x -> P x = true.
Proof.
  intros H x Hx. rewrite forallb_forall in H. apply H.
  apply list_elem_of_In, elem_of_seqZ. exact Hx.
Qed.

Lemma gf_inverse_diag x : is_byte x ->
  (aes_gf_mult 14 (aes_gf_mult 2 x) ^^ aes_gf_mult 11 x ^^ aes_gf_mult 13 x ^^
   aes_gf_mult 9 (aes_gf_mult 3 x)) = x.
Proof.
  intros Hx. apply Z.eqb_eq.
  by apply (byte_forall (fun x => (aes_gf_mult 14 (aes_gf_mult 2 x) ^^ aes_gf_mult 11 x ^^
    aes_gf_mult 13 x ^^ aes_gf_mult 9 (aes_gf_mult 3 x)) =? x)); [vm_compute|].
Qed.

Lemma gf_inverse_1 x : is_byte x ->
  (aes_gf_mult 14 (aes_gf_mult 3 x) ^^ aes_gf_mult 11 (aes_gf_mult 2 x) ^^ aes_gf_mult 13 x ^^
   aes_gf_mult 9 x) = 0.
Proof.
  intros Hx. apply Z.eqb_eq.
  by apply (byte_forall (fun x => (aes_gf_mult 14 (aes_gf_mult 3 x) ^^
    aes_gf_mult 11 (aes_gf_mult 2 x) ^^ aes_gf_mult 13 x ^^ aes_gf_mult 9 x) =? 0)); [vm_compute|].
Qed.

Lemma gf_inverse_2 x : is_byte x ->
  (aes_gf_mult 14 x ^^ aes_gf_mult 11 (aes_gf_mult 3 x) ^^ aes_gf_mult 13 (aes_gf_mult 2 x) ^^
   aes_gf_mult 9 x) = 0.
Proof.
  intros Hx. apply Z.eqb_eq.
  by apply (byte_forall (fun x => (aes_gf_mult 14 x ^^ aes_gf_mult 11 (aes_gf_mult 3 x) ^^
    aes_gf_mult 13 (aes_gf_mult 2 x) ^^ aes_gf_mult 9 x) =? 0)); [vm_compute|].
Qed.

Lemma gf_inverse_3 x : is_byte x ->
  (aes_gf_mult 14 x ^^ aes_gf_mult 11 x ^^ aes_gf_mult 13 (aes_gf_mult 3 x) ^^
   aes_gf_mult 9 (aes_gf_mult 2 x)) = 0.
Proof.
  intros Hx. apply Z.eqb_eq.
  by apply (byte_forall (fun x => (aes_gf_mult 14 x ^^ aes_gf_mult 11 x ^^
    aes_gf_mult 13 (aes_gf_mult 3 x) ^^ aes_gf_mult 9 (aes_gf_mult 2 x)) =? 0)); [vm_compute|].
Qed.

Lemma aes_inv_sbox_sbox x : is_byte x -> zget aes_inv_sbox (zget aes_sbox x) = x.
Proof.
  intros Hx. apply Z.eqb_eq.
  by apply (byte_forall (fun x => zget aes_inv_sbox (zget aes_sbox x) =? x)); [vm_compute|].
Qed.

(** ** States *)

Definition wf_state (s : bytes) : Prop := length s = 16%nat /\ is_bytes s.

(** Name the sixteen bytes of a state. *)
Ltac explode_state s Hlen :=
  do 16 (destruct s as [|? s]; [discriminate Hlen|]);
  destruct s; [clear Hlen|discriminate Hlen].

Ltac byte_hyps H :=
  unfold is_bytes in H; rewrite ?Forall_cons in H;
  destruct H as (?&?&?&?&?&?&?&?&?&?&?&?&?&?&?&?&_).

Lemma sbox_byte x : is_byte (zget aes_sbox x).
Proof.
  apply is_bytes_get. apply Forall_forall.
  assert (E : forallb (fun b => (0 <=? b) && (b <? 256)) aes_sbox = true) by (vm_compute; done).
  intros b Hb%list_elem_of_In. rewrite forallb_forall in E. specialize (E b Hb).
  bool_hyps. unfold is_byte, in_u. lia.
Qed.

Lemma and_ff_byte x : is_byte (x &&& 0xFF).
Proof.
  unfold is_byte, in_u. change 255 with (Z.ones 8). rewrite Z.land_ones by lia.
  apply Z.mod_pos_bound. lia.
Qed.

Lemma gf_step_bytes r a b :
  is_byte r -> is_byte a ->
  is_byte (fst (fst (gf_step (r, a, b)))) /\ is_byte (snd (fst (gf_step (r, a, b)))).
Proof.
  intros Hr Ha. cbn [gf_step fst snd]. unfold is_byte in *.
  assert (Hw : in_u 8 (u8 (a <<< 1))) by (apply wrap_in_u; lia).
  split; [destruct (b &&& 1 =? 0)|destruct (a &&& 128 =? 0)];
    try assumption; apply in_u_lxor; try assumption; unfold in_u; lia.
Qed.

Lemma aes_gf_mult_byte a b : is_byte a -> is_byte (aes_gf_mult a b).
Proof.
  intros Ha. unfold aes_gf_mult, for_loop.
  assert (G : forall l r a b, is_byte r -> is_byte a ->
    is_byte (fst (fst (fold_left (fun s (_ : Z) => gf_step s) l (r, a, b))))).
  { induction l as [|i l IH]; intros r x y Hr Hx; [exact Hr|]. cbn [fold_left].
    destruct (gf_step_bytes r x y Hr Hx) as [H1 H2].
    destruct (gf_step (r, x, y)) as [[r' x'] y']. by apply IH. }
  apply G; [unfold is_byte, in_u; lia|assumption].
Qed.

(** The in-place loops, as functions of the whole state. *)

Definition key_bytes (k : list Z) : bytes :=
  concat (map (fun w => [(w >>> 24) &&& 0xFF; (w >>> 16) &&& 0xFF; (w >>> 8) &&& 0xFF; w &&& 0xFF])
              [zget k 0; zget k 1; zget k 2; zget k 3]).

Definition mix_col (s0 s1 s2 s3 : Z) : bytes :=
  [aes_gf_mult 0x02 s0 ^^ aes_gf_mult 0x03 s1 ^^ s2 ^^ s3;
   s0 ^^ aes_gf_mult 0x02 s1 ^^ aes_gf_mult 0x03 s2 ^^ s3;
   s0 ^^ s1 ^^ aes_gf_mult 0x02 s2 ^^ aes_gf_mult 0x03 s3;
   aes_gf_mult 0x03 s0 ^^ s1 ^^ s2 ^^ aes_gf_mult 0x02 s3].

Definition inv_mix_col (s0 s1 s2 s3 : Z) : bytes :=
  [aes_gf_mult 0x0e s0 ^^ aes_gf_mult 0x0b s1 ^^ aes_gf_mult 0x0d s2 ^^ aes_gf_mult 0x09 s3;
   aes_gf_mult 0x09 s0 ^^ aes_gf_mult 0x0e s1 ^^ aes_gf_mult 0x0b s2 ^^ aes_gf_mult 0x0d s3;
   aes_gf_mult 0x0d s0 ^^ aes_gf_mult 0x09 s1 ^^ aes_gf_mult 0x0e s2 ^^ aes_gf_mult 0x0b s3;
   aes_gf_mult 0x0b s0 ^^ aes_gf_mult 0x0d s1 ^^ aes_gf_mult 0x09 s2 ^^ aes_gf_mult 0x0e s3].

(** Apply a column function to the four columns of a state. *)
Definition on_columns (f : Z -> Z -> Z -> Z -> bytes) (s : bytes) : bytes :=
  concat (map (fun c => f (zget s (c * 4)) (zget s (c * 4 + 1)) (zget s (c * 4 + 2))
                          (zget s (c * 4 + 3))) [0; 1; 2; 3]).

Lemma add_round_key_xor s k : length s = 16%nat -> aes_add_round_key s k = xor_bytes s (key_bytes k).
Proof. intros Hlen. explode_state s Hlen. reflexivity. Qed.

Lemma sub_bytes_map s : length s = 16%nat -> aes_sub_bytes s = map (zget aes_sbox) s.
Proof. intros Hlen. explode_state s Hlen. reflexivity. Qed.

Lemma inv_sub_bytes_map s : length s = 16%nat -> aes_inv_sub_bytes s = map (zget aes_inv_sbox) s.
Proof. intros Hlen. explode_state s Hlen. reflexivity. Qed.

Lemma mix_columns_on s : length s = 16%nat -> aes_mix_columns s = on_columns mix_col s.
Proof. intros Hlen. explode_state s Hlen. reflexivity. Qed.

Lemma inv_mix_columns_on s : length s = 16%nat -> aes_inv_mix_columns s = on_columns inv_mix_col s.
Proof. intros Hlen. explode_state s Hlen. reflexivity. Qed.

Lemma is_bytes_key_bytes k : is_bytes (key_bytes k).
Proof. unfold key_bytes. cbn [map concat app]. repeat constructor; apply and_ff_byte. Qed.

(** The round transformations keep a state well formed. *)
Lemma wf_add_round_key s k : wf_state s -> wf_state (aes_add_round_key s k).
Proof.
  intros [Hl Hb]. rewrite add_round_key_xor by assumption. split.
  - rewrite length_xor_bytes, Hl. reflexivity.
  - apply is_bytes_xor; [assumption|apply is_bytes_key_bytes].
Qed.

Lemma wf_sub_bytes s : wf_state s -> wf_state (aes_sub_bytes s).
Proof.
  intros [Hl Hb]. rewrite sub_bytes_map by assumption. split; [by rewrite length_map|].
  apply List.Forall_map, List.Forall_forall. intros x _. apply sbox_byte.
Qed.

Lemma wf_shift_rows s : wf_state s -> wf_state (aes_shift_rows s).
Proof.
  intros [Hl Hb]. explode_state s Hl. byte_hyps Hb. split; [reflexivity|].
  cbv [aes_shift_rows zget zset]. cbn. by repeat (constructor; [assumption|]).
Qed.

Lemma is_bytes_mix_col s0 s1 s2 s3 :
  is_byte s0 -> is_byte s1 -> is_byte s2 -> is_byte s3 -> is_bytes (mix_col s0 s1 s2 s3).
Proof.
  intros. unfold mix_col.
  repeat (constructor; [repeat (apply in_u_lxor; [lia| |]); try assumption;
    apply aes_gf_mult_byte; unfold is_byte, in_u; lia|]). constructor.
Qed.

Lemma wf_mix_columns s : wf_state s -> wf_state (aes_mix_columns s).
Proof.
  intros [Hl Hb]. rewrite mix_columns_on by assumption. split; [reflexivity|].
  unfold on_columns. cbn [map concat].
  repeat (apply is_bytes_app; split; [apply is_bytes_mix_col; by apply is_bytes_get|]). constructor.
Qed.

Create HintDb aes.
#[export] Hint Resolve wf_add_round_key wf_sub_bytes wf_shift_rows wf_mix_columns : aes.

(** ** Each transformation is undone by its inverse *)

Lemma add_round_key_cancel s k :
  wf_state s -> aes_add_round_key (aes_add_round_key s k) k = s.
Proof.
  intros H. pose proof (wf_add_round_key s k H) as [Hl' _]. destruct H as [Hl Hb].
  rewrite (add_round_key_xor _ _ Hl'), add_round_key_xor by assumption.
  apply xor_bytes_cancel. by rewrite Hl.
Qed.

Lemma inv_shift_shift_rows s : wf_state s -> aes_inv_shift_rows (aes_shift_rows s) = s.
Proof. intros [Hl _]. explode_state s Hl. reflexivity. Qed.

Lemma inv_sub_sub_bytes s : wf_state s -> aes_inv_sub_bytes (aes_sub_bytes s) = s.
Proof.
  intros H. pose proof (wf_sub_bytes s H) as [Hl' _]. destruct H as [Hl Hb].
  rewrite (inv_sub_bytes_map _ Hl'), sub_bytes_map by assumption.
  rewrite map_map. clear Hl Hl'. induction Hb as [|x l Hx _ IH]; [reflexivity|].
  cbn [map]. by rewrite aes_inv_sbox_sbox, IH.
Qed.

(** Regroup a combination of xors by bits. *)
Ltac lxor_regroup :=
  apply Z.bits_inj'; intros ? _; rewrite ?Z.lxor_spec; btauto.

Lemma inv_mix_mix_col s0 s1 s2 s3 :
  is_byte s0 -> is_byte s1 -> is_byte s2 -> is_byte s3 ->
  match mix_col s0 s1 s2 s3 with
  | [t0; t1; t2; t3] => inv_mix_col t0 t1 t2 t3 = [s0; s1; s2; s3]
  | _ => False
  end.
Proof.
  intros H0 H1 H2 H3. unfold mix_col, inv_mix_col. rewrite !aes_gf_mult_lxor.
  pose proof (gf_inverse_diag s0 H0) as D0. pose proof (gf_inverse_diag s1 H1) as D1.
  pose proof (gf_inverse_diag s2 H2) as D2. pose proof (gf_inverse_diag s3 H3) as D3.
  pose proof (fun x Hx => gf_inverse_1 x Hx) as E1.
  pose proof (fun x Hx => gf_inverse_2 x Hx) as E2.
  pose proof (fun x Hx => gf_inverse_3 x Hx) as E3.
  assert (G : forall a b c d x, a = x -> b = 0 -> c = 0 -> d = 0 -> a ^^ b ^^ c ^^ d = x)
    by (intros; subst; by rewrite !Z.lxor_0_r).
  f_equal; [|f_equal; [|f_equal; [|f_equal]]].
  - rewrite <- (G _ _ _ _ _ D0 (E1 s1 H1) (E2 s2 H2) (E3 s3 H3)) at 5. lxor_regroup.
  - rewrite <- (G _ _ _ _ _ D1 (E1 s2 H2) (E2 s3 H3) (E3 s0 H0)) at 5. lxor_regroup.
  - rewrite <- (G _ _ _ _ _ D2 (E1 s3 H3) (E2 s0 H0) (E3 s1 H1)) at 5. lxor_regroup.
  - rewrite <- (G _ _ _ _ _ D3 (E1 s0 H0) (E2 s1 H1) (E3 s2 H2)) at 5. lxor_regroup.
Qed.

Lemma inv_mix_mix_columns s : wf_state s -> aes_inv_mix_columns (aes_mix_columns s) = s.
Proof.
  intros H. pose proof (wf_mix_columns s H) as [Hl' _]. destruct H as [Hl Hb].
  rewrite (inv_mix_columns_on _ Hl'), mix_columns_on by assumption.
  explode_state s Hl. byte_hyps Hb.
  transitivity (concat [inv_mix_col (zget (mix_col z z0 z1 z2) 0) (zget (mix_col z z0 z1 z2) 1)
      (zget (mix_col z z0 z1 z2) 2) (zget (mix_col z z0 z1 z2) 3);
    inv_mix_col (zget (mix_col z3 z4 z5 z6) 0) (zget (mix_col z3 z4 z5 z6) 1)
      (zget (mix_col z3 z4 z5 z6) 2) (zget (mix_col z3 z4 z5 z6) 3);
    inv_mix_col (zget (mix_col z7 z8 z9 z10) 0) (zget (mix_col z7 z8 z9 z10) 1)
      (zget (mix_col z7 z8 z9 z10) 2) (zget (mix_col z7 z8 z9 z10) 3);
    inv_mix_col (zget (mix_col z11 z12 z13 z14) 0) (zget (mix_col z11 z12 z13 z14) 1)
      (zget (mix_col z11 z12 z13 z14) 2) (zget (mix_col z11 z12 z13 z14) 3)]); [reflexivity|].
  pose proof (inv_mix_mix_col z z0 z1 z2) as E0. pose proof (inv_mix_mix_col z3 z4 z5 z6) as E1.
  pose proof (inv_mix_mix_col z7 z8 z9 z10) as E2.
  pose proof (inv_mix_mix_col z11 z12 z13 z14) as E3.
  unfold mix_col in E0, E1, E2, E3 |- *. cbn [zget nth] in *.
  change (Z.to_nat 0) with 0%nat. change (Z.to_nat 1) with 1%nat.
  change (Z.to_nat 2) with 2%nat. change (Z.to_nat 3) with 3%nat. cbn [nth].
  by rewrite E0, E1, E2, E3.
Qed.

(** ** Encryption and decryption *)

#[local] Opaque aes_add_round_key aes_sub_bytes aes_shift_rows aes_mix_columns
  aes_inv_sub_bytes aes_inv_shift_rows aes_inv_mix_columns.

Lemma wf_encrypt_round rk r s : wf_state s -> wf_state (encrypt_round rk r s).
Proof. unfold encrypt_round. auto 8 with aes. Qed.
#[export] Hint Resolve wf_encrypt_round : aes.

Lemma wf_encrypt_rounds rk l s :
  wf_state s -> wf_state (fold_left (fun s r => encrypt_round rk r s) l s).
Proof. apply fold_left_inv. intros a r. apply wf_encrypt_round. Qed.
#[export] Hint Resolve wf_encrypt_rounds : aes.

(** A decryption round undoes an encryption round on the states between the
    substitution layer and the key addition of the next round. *)
Lemma decrypt_round_undo rk r s :
  wf_state s ->
  decrypt_round rk r (aes_shift_rows (aes_sub_bytes (encrypt_round rk r s))) =
  aes_shift_rows (aes_sub_bytes s).
Proof.
  intros Hs. unfold decrypt_round. rewrite inv_shift_shift_rows, inv_sub_sub_bytes by auto with aes.
  unfold encrypt_round. rewrite add_round_key_cancel, inv_mix_mix_columns by auto with aes.
  reflexivity.
Qed.

Lemma decrypt_rounds_undo rk l s :
  wf_state s ->
  fold_left (fun s r => decrypt_round rk r s) (rev l)
    (aes_shift_rows (aes_sub_bytes (fold_left (fun s r => encrypt_round rk r s) l s))) =
  aes_shift_rows (aes_sub_bytes s).
Proof.
  apply (fold_left_undo wf_state (fun s r => encrypt_round rk r s)
           (fun s r => decrypt_round rk r s) (fun s => aes_shift_rows (aes_sub_bytes s))).
  - intros a r. apply wf_encrypt_round.
  - intros a r. apply decrypt_round_undo.
Qed.

(** The cipher on a schedule that has all the round keys it names: what the block
    functions compute there. *)
Definition encrypt_words (round_keys : list Z) (rounds : Z) (p : bytes) : bytes :=
  let state := aes_add_round_key (sub p 0 16) round_keys in
  let state := for_loop 1 (rounds - 1) (encrypt_round round_keys) state in
  aes_add_round_key (aes_shift_rows (aes_sub_bytes state)) (key_at round_keys rounds).

Definition decrypt_words (round_keys : list Z) (rounds : Z) (c : bytes) : bytes :=
  let state := aes_add_round_key (sub c 0 16) (key_at round_keys rounds) in
  let state := fold_left (fun s round => decrypt_round round_keys round s)
                         (rev (seqZ 1 (rounds - 1))) state in
  aes_add_round_key (aes_inv_sub_bytes (aes_inv_shift_rows state)) round_keys.

Lemma with_key_ok rk round f : 0 <= round < 2 ^ 30 -> 4 * (round + 1) <= zlen rk ->
  with_key rk round f = Ret (f (key_at rk round)).
Proof.
  intros Hr Hl. unfold with_key, key_at. rewrite wrap_small by (unfold in_u; lia).
  destruct (Z.leb_spec (round * 4 + 4) (zlen rk)); [reflexivity|lia].
Qed.

Lemma with_key_short rk round f : 0 <= round < 2 ^ 30 -> zlen rk < 4 * (round + 1) ->
  with_key rk round f = UB.
Proof.
  intros Hr Hl. unfold with_key. rewrite wrap_small by (unfold in_u; lia).
  destruct (Z.leb_spec (round * 4 + 4) (zlen rk)); [lia|reflexivity].
Qed.

Lemma encrypt_body_ok rk round s : 0 <= round < 2 ^ 30 -> 4 * (round + 1) <= zlen rk ->
  encrypt_body rk round s = Ret (encrypt_round rk round s).
Proof. intros Hr Hl. unfold encrypt_body, encrypt_round. by rewrite with_key_ok. Qed.

Lemma decrypt_body_ok rk round s : 0 <= round < 2 ^ 30 -> 4 * (round + 1) <= zlen rk ->
  decrypt_body rk round s = Ret (decrypt_round rk round s).
Proof. intros Hr Hl. unfold decrypt_body, decrypt_round. by rewrite with_key_ok. Qed.

Lemma rounds_up_ok body f n : forall round s,
  (forall r s, round <= r < round + Z.of_nat n -> body r s = Ret (f r s)) ->
  rounds_up n round body s = Ret (fold_left (fun s r => f r s) (seqZ round (Z.of_nat n)) s).
Proof.
  induction n as [|n IH]; intros round s H; [reflexivity|]. cbn [rounds_up].
  rewrite H by lia. bind_step. rewrite IH by (intros; apply H; lia).
  rewrite (seqZ_cons round (Z.of_nat (S n))) by lia. cbn [fold_left].
  by replace (Z.pred (Z.of_nat (S n))) with (Z.of_nat n) by lia.
Qed.

Lemma rounds_down_ok body f n : forall s,
  (forall r s, 1 <= r <= Z.of_nat n -> body r s = Ret (f r s)) ->
  rounds_down n body s = Ret (fold_left (fun s r => f r s) (rev (seqZ 1 (Z.of_nat n))) s).
Proof.
  induction n as [|n IH]; intros s H; [reflexivity|]. cbn [rounds_down].
  rewrite H by lia. bind_step. rewrite IH by (intros; apply H; lia).
  rewrite seqZ_S, rev_app_distr. cbn [rev app fold_left].
  by replace (1 + Z.of_nat n) with (Z.of_nat (S n)) by lia.
Qed.

Lemma aes_encrypt_words rk rounds p : 1 <= rounds < 2 ^ 30 -> 4 * (rounds + 1) <= zlen rk ->
  aes_encrypt_block_ex rk rounds p = Ret (encrypt_words rk rounds p).
Proof.
  intros Hr Hl. unfold aes_encrypt_block_ex. rewrite with_key_ok by lia. bind_step.
  rewrite (rounds_up_ok _ (encrypt_round rk)) by (intros; apply encrypt_body_ok; lia). bind_step. rewrite with_key_ok by lia.
  rewrite Z2Nat.id by lia. reflexivity.
Qed.

Lemma aes_decrypt_words rk rounds c : 1 <= rounds < 2 ^ 30 -> 4 * (rounds + 1) <= zlen rk ->
  aes_decrypt_block_ex rk rounds c = Ret (decrypt_words rk rounds c).
Proof.
  intros Hr Hl. unfold aes_decrypt_block_ex. rewrite with_key_ok by lia. bind_step.
  rewrite (wrap_small 32 (rounds - 1)) by (unfold in_u; lia).
  rewrite (rounds_down_ok _ (decrypt_round rk)) by (intros; apply decrypt_body_ok; lia). bind_step. rewrite with_key_ok by lia.
  rewrite Z2Nat.id by lia. reflexivity.
Qed.

Lemma rounds_up_ends body n : (forall r s, body r s = UB \/ exists s', body r s = Ret s') ->
  forall round s, rounds_up n round body s = UB \/ exists s', rounds_up n round body s = Ret s'.
Proof.
  intros H. induction n as [|n IH]; intros round s; cbn [rounds_up]; [right; by eexists|].
  destruct (H round s) as [->|[s' ->]]; [by left|]. bind_step. apply IH.
Qed.

Lemma with_key_ends rk r f : with_key rk r f = UB \/ exists s', with_key rk r f = Ret s'.
Proof. unfold with_key. destruct (_ <=? _); [right; by eexists|by left]. Qed.

Lemma aes_encrypt_short rk rounds p : 1 <= rounds < 2 ^ 30 -> zlen rk < 4 * (rounds + 1) ->
  aes_encrypt_block_ex rk rounds p = UB.
Proof.
  intros Hr Hl. unfold aes_encrypt_block_ex.
  destruct (with_key_ends rk 0 (aes_add_round_key (sub p 0 16))) as [->|[s ->]]; [reflexivity|].
  bind_step. match goal with |- context [rounds_up ?n ?k ?b ?s] =>
    destruct (rounds_up_ends b n (fun r s => with_key_ends rk r _) k s) as [->|[s' ->]]; [reflexivity|] end.
  bind_step. by apply with_key_short; lia.
Qed.

Lemma encrypt_words_state rk rounds p : wf_state p -> wf_state (encrypt_words rk rounds p).
Proof.
  intros [Hl Hb]. unfold encrypt_words, for_loop. rewrite (sub_all p 16) by (unfold zlen; lia).
  assert (wf_state p) by done. auto 8 with aes.
Qed.

Lemma decrypt_encrypt_words rk rounds p :
  wf_state p -> decrypt_words rk rounds (encrypt_words rk rounds p) = p.
Proof.
  intros Hp. pose proof (encrypt_words_state rk rounds p Hp) as [Hl' _].
  unfold decrypt_words.
  rewrite (sub_all (encrypt_words _ _ _) 16) by (unfold zlen; lia).
  unfold encrypt_words, for_loop.
  rewrite (sub_all p 16) by (destruct Hp; unfold zlen; lia).
  rewrite add_round_key_cancel by auto 8 with aes.
  rewrite decrypt_rounds_undo by auto with aes.
  by rewrite inv_shift_shift_rows, inv_sub_sub_bytes, add_round_key_cancel by auto with aes.
Qed.

(** The schedule of a key has all its round keys. *)
Lemma key_expansion_length key bits : bits = 128 \/ bits = 192 \/ bits = 256 ->
  let '(rounds, rk) := aes_key_expansion key bits in
  10 <= rounds <= 14 /\ zlen rk = 4 * (rounds + 1).
Proof.
  intros Hb. unfold aes_key_expansion. set (rounds := if bits =? 128 then _ else _).
  cbv beta iota zeta.
  assert (Hr : 10 <= rounds <= 14 /\ 0 <= bits / 32 <= 4 * (rounds + 1))
    by (subst rounds; destruct Hb as [->|[->| ->]]; vm_compute; repeat split; discriminate).
  split; [lia|]. unfold for_loop.
  match goal with |- zlen (fold_left ?f _ _) = _ =>
    assert (Hf : forall l a, zlen (fold_left f l a) = zlen a + Z.of_nat (length l)) end.
  { intros l. induction l as [|x l IH]; intros a; cbn [fold_left length]; [lia|].
    rewrite IH, zlen_app. change (zlen [?x]) with 1. lia. }
  rewrite Hf. unfold zlen. rewrite length_map, !length_seqZ. lia.
Qed.

(** ** The interface the modes of operation use *)

(** A block cipher on 16-byte blocks whose decryption inverts its encryption. *)
Class BlockCipher (C : Type) := {
  bc_encrypt : C -> bytes -> bytes;
  bc_decrypt : C -> bytes -> bytes;
  bc_encrypt_state : forall c p, wf_state p -> wf_state (bc_encrypt c p);
  bc_decrypt_encrypt : forall c p, wf_state p -> bc_decrypt c (bc_encrypt c p) = p
}.

#[export] Instance aes_cipher : BlockCipher crypto_aes_ctx_t := {|
  bc_encrypt c := encrypt_words (key_schedule c) (aes_rounds c);
  bc_decrypt c := decrypt_words (key_schedule c) (aes_rounds c);
  bc_encrypt_state c p H := encrypt_words_state (key_schedule c) (aes_rounds c) p H;
  bc_decrypt_encrypt c p H := decrypt_encrypt_words (key_schedule c) (aes_rounds c) p H
|}.

(** On a context that [crypto_aes_init] made, the block functions of the source are
    this instance. *)
Lemma aes_cipher_computes key bits ctx block :
  crypto_aes_init true key bits = (CRYPTO_SUCCESS, Some ctx) ->
  crypto_aes_encrypt_block ctx block = Ret (bc_encrypt ctx block) /\
  crypto_aes_decrypt_block ctx block = Ret (bc_decrypt ctx block).
Proof.
  unfold crypto_aes_init. destruct key as [key|]; [|done]. destruct (_ && _) eqn:Hb; [done|].
  assert (bits = 128 \/ bits = 192 \/ bits = 256) as Hbits by
    (destruct (Z.eqb_spec bits 128), (Z.eqb_spec bits 192), (Z.eqb_spec bits 256); cbn in Hb; tauto || discriminate).
  pose proof (key_expansion_length key bits Hbits) as Hl.
  destruct (aes_key_expansion key bits) as [rounds rk]. intros [= <-].
  unfold crypto_aes_encrypt_block, crypto_aes_decrypt_block. cbn [key_schedule aes_rounds].
  split; [apply aes_encrypt_words|apply aes_decrypt_words]; lia.
Qed.

(** ** Reference: the S-box of FIPS 197

    The multiplicative inverse in GF(2^8) (0 for 0), as the power 254, followed
    by the affine map. *)

Definition gf_inv (x : Z) : Z :=
  let m := aes_gf_mult in
  let x2 := m x x in let x3 := m x2 x in let x6 := m x3 x3 in let x12 := m x6 x6 in
  let x15 := m x12 x3 in let x30 := m x15 x15 in let x60 := m x30 x30 in
  let x120 := m x60 x60 in let x126 := m x120 x6 in let x127 := m x126 x in
  m x127 x127.

Definition rotl8 (x n : Z) : Z := u8 (x <<< n) ||| (x >>> (8 - n)).

Definition affine (x : Z) : Z :=
  x ^^ rotl8 x 1 ^^ rotl8 x 2 ^^ rotl8 x 3 ^^ rotl8 x 4 ^^ 0x63.

(** ** Properties *)

(** C5. For every number of rounds from 1 on (below 2^30, where the index of a round
    key does not wrap) and every 16-byte block: with a key schedule that has all its
    [4 * (rounds + 1)] words, encrypting ends, and decrypting the result ends with
    the block; with a shorter schedule both functions read past its end. *)
Theorem aes_block_roundtrip rk rounds p :
  1 <= rounds < 2 ^ 30 -> length p = 16%nat -> is_bytes p ->
  (4 * (rounds + 1) <= zlen rk ->
   exists c, aes_encrypt_block_ex rk rounds p = Ret c /\ aes_decrypt_block_ex rk rounds c = Ret p) /\
  (zlen rk < 4 * (rounds + 1) ->
   aes_encrypt_block_ex rk rounds p = UB /\ aes_decrypt_block_ex rk rounds p = UB).
Proof.
  intros Hr Hl Hb. split; intros Hz.
  - exists (encrypt_words rk rounds p). rewrite aes_encrypt_words, aes_decrypt_words by lia.
    split; [done|]. f_equal. by apply decrypt_encrypt_words.
  - split; [by apply aes_encrypt_short|].
    unfold aes_decrypt_block_ex. by rewrite with_key_short by lia.
Qed.

Lemma aes_block_roundtrip_witness :
  (exists c, aes_encrypt_block_ex (seqZ 0 44) 10 (zeros 16) = Ret c /\
             aes_decrypt_block_ex (seqZ 0 44) 10 c = Ret (zeros 16)) /\
  aes_encrypt_block_ex (seqZ 0 43) 10 (zeros 16) = UB.
Proof.
  split.
  - apply (aes_block_roundtrip (seqZ 0 44) 10 (zeros 16)); [lia|reflexivity|apply is_bytes_zeros|by vm_compute].
  - apply (aes_block_roundtrip (seqZ 0 43) 10 (zeros 16)); [lia|reflexivity|apply is_bytes_zeros|by vm_compute].
Defined.

(** With no rounds the counter of the decryption loop wraps to 2^32 - 1, and its
    first round key lies far behind any schedule. *)
Theorem aes_decrypt_zero_rounds rk c : zlen rk < 2 ^ 32 -> aes_decrypt_block_ex rk 0 c = UB.
Proof.
  intros Hl. unfold aes_decrypt_block_ex.
  destruct (with_key_ends rk 0 (aes_add_round_key (sub c 0 16))) as [->|[s ->]]; [reflexivity|].
  bind_step. set (top := u32 (0 - 1)). assert (Ht : top = 2 ^ 32 - 1) by reflexivity. clearbody top.
  destruct (Z.to_nat top) as [|n] eqn:En; [lia|]. cbn [rounds_down].
  replace (Z.of_nat (S n)) with top by lia.
  replace (decrypt_body rk top s) with (@UB bytes); [reflexivity|]. unfold decrypt_body, with_key.
  rewrite Ht. change (u32 ((2 ^ 32 - 1) * 4)) with (2 ^ 32 - 4).
  by destruct (Z.leb_spec (2 ^ 32 - 4 + 4) (zlen rk)); [lia|].
Qed.

(** The S-box table of the source is the FIPS 197 function: inversion in
    GF(2^8), computed with the code's own multiplication, then the affine map;
    and [aes_inv_sbox] is its inverse. *)
Theorem aes_sbox_fips x :
  is_byte x ->
  zget aes_sbox x = affine (gf_inv x) /\ zget aes_inv_sbox (zget aes_sbox x) = x.
Proof.
  intros Hx. split; [|by apply aes_inv_sbox_sbox]. apply Z.eqb_eq.
  by apply (byte_forall (fun x => zget aes_sbox x =? affine (gf_inv x))); [vm_compute|].
Qed.

Lemma aes_sbox_fips_witness :
  is_byte 0x53 /\ zget aes_sbox 0x53 = affine (gf_inv 0x53) /\
  zget aes_inv_sbox (zget aes_sbox 0x53) = 0x53.
Proof. split; [unfold is_byte, in_u; lia|]. apply aes_sbox_fips. unfold is_byte, in_u; lia. Defined.
