(* ===== verification/AesNi.v ===== *)
(** * AES with the processor's instructions (src/security/aes.c)

    [aes_hw_encrypt_block] and [aes_hw_decrypt_block]: the round keys of
    [aes_key_expansion] fed to AESENC and AESDEC.  The instructions are those of
    the processor manual on a 16-byte register, in the byte order of memory;
    [xmm0] keeps its value from one assembly statement to the next, and the answer
    of CPUID is an argument.  The theorems say which cipher the functions compute:
    AES under round keys whose words have their bytes reversed. *)

From Stdlib Require Import Btauto.
From S2P Require Import Prelude Sha256.
From S2P Require Import Aes.

(** ** The instructions *)

(** [movdqu] from [&round_keys[i]]: the words lie in memory low byte first. *)
Definition movdqu (round_keys : list Z) (i : Z) : bytes :=
  concat (map (fun j => le_bytes 4 (zget round_keys (i + j))) [0; 1; 2; 3]).

Definition pxor (xmm0 xmm1 : bytes) : bytes := xor_bytes xmm0 xmm1.
Definition aesenc (xmm0 xmm1 : bytes) : bytes := pxor (aes_mix_columns (aes_sub_bytes (aes_shift_rows xmm0))) xmm1.
Definition aesenclast (xmm0 xmm1 : bytes) : bytes := pxor (aes_sub_bytes (aes_shift_rows xmm0)) xmm1.
Definition aesdec (xmm0 xmm1 : bytes) : bytes := pxor (aes_inv_mix_columns (aes_inv_sub_bytes (aes_inv_shift_rows xmm0))) xmm1.
Definition aesdeclast (xmm0 xmm1 : bytes) : bytes := pxor (aes_inv_sub_bytes (aes_inv_shift_rows xmm0)) xmm1.

(** ** The functions *)

(** [ecx] is the register CPUID leaves for leaf 1. *)
Definition aes_hw_available (ecx : Z) : bool := negb (ecx &&& (1 <<< 25) =? 0).

Definition hw_encrypt (round_keys : list Z) (rounds : Z) (plaintext : bytes) : bytes :=
  let xmm0 := pxor (sub plaintext 0 16) (movdqu round_keys 0) in
  let xmm0 := for_loop 1 (rounds - 1) (fun i xmm0 => aesenc xmm0 (movdqu round_keys (i * 4))) xmm0 in
  aesenclast xmm0 (movdqu round_keys (rounds * 4)).

Definition hw_decrypt (round_keys : list Z) (rounds : Z) (ciphertext : bytes) : bytes :=
  let xmm0 := pxor (sub ciphertext 0 16) (movdqu round_keys (rounds * 4)) in
  let xmm0 := fold_left (fun xmm0 i => aesdec xmm0 (movdqu round_keys (i * 4))) (rev (seqZ 1 (rounds - 1))) xmm0 in
  aesdeclast xmm0 (movdqu round_keys 0).

(** The two paths of either function: the software cipher on a context that
    [crypto_aes_init] may leave uninitialised, and the instructions with the
    schedule in an array of 60 words. *)
Definition hw_block (ecx : Z) (key : bytes) (key_bits : Z)
  (soft : crypto_aes_ctx_t -> run bytes) (hard : list Z -> Z -> bytes) : run bytes :=
  if negb (aes_hw_available ecx) then
    match snd (crypto_aes_init true (Some key) key_bits) with
    | Some ctx => soft ctx
    | None => UB
    end
  else if (key_bits / 32 =? 0) || (60 <? key_bits / 32) || (zlen key <? 4 * (key_bits / 32)) then UB
  else let '(rounds, round_keys) := aes_key_expansion key key_bits in mret (hard round_keys rounds).

Definition aes_hw_encrypt_block (ecx : Z) (key : bytes) (key_bits : Z) (plaintext : bytes) : run bytes :=
  hw_block ecx key key_bits (fun ctx => crypto_aes_encrypt_block ctx plaintext) (fun rk rounds => hw_encrypt rk rounds plaintext).

Definition aes_hw_decrypt_block (ecx : Z) (key : bytes) (key_bits : Z) (ciphertext : bytes) : run bytes :=
  hw_block ecx key key_bits (fun ctx => crypto_aes_decrypt_block ctx ciphertext) (fun rk rounds => hw_decrypt rk rounds ciphertext).

(** ** The round keys the instructions see *)

Definition bswap (w : Z) : Z := le_val (be_bytes 4 w).

(** The words whose big-endian bytes are a given block. *)
Definition block_words (b : bytes) : list Z := map (fun j => be_val (sub b (4 * j) 4)) [0; 1; 2; 3].

Lemma word_bytes_be w : [(w >>> 24) &&& 0xFF; (w >>> 16) &&& 0xFF; (w >>> 8) &&& 0xFF; w &&& 0xFF] = be_bytes 4 w.
Proof.
  unfold be_bytes. cbn [le_bytes rev app]. change 0xFF with (Z.ones 8). rewrite !Z.land_ones, !Z.shiftr_div_pow2 by lia.
  rewrite !Z.div_div by lia. reflexivity.
Qed.

Lemma be_bytes_val l : is_bytes l -> be_bytes (length l) (be_val l) = l.
Proof.
  intros Hl. unfold be_bytes, be_val. rewrite <- (length_rev l), le_bytes_val by (by apply Forall_rev). apply rev_involutive.
Qed.

Lemma bswap_bytes w : be_bytes 4 (bswap w) = le_bytes 4 w.
Proof.
  assert (Hb : is_bytes (be_bytes 4 w)) by (apply Forall_rev, is_bytes_le_bytes).
  pose proof (le_bytes_val _ Hb) as E. change (length (be_bytes 4 w)) with 4%nat in E.
  unfold bswap, be_bytes at 1. rewrite E. unfold be_bytes. apply rev_involutive.
Qed.

Lemma zget_bswap rk i : zget (map bswap rk) i = bswap (zget rk i).
Proof. unfold zget. change 0 with (bswap 0) at 1. apply map_nth. Qed.

Lemma key_bytes_be k : key_bytes k = concat (map (fun j => be_bytes 4 (zget k j)) [0; 1; 2; 3]).
Proof. unfold key_bytes. cbn [map]. by rewrite !word_bytes_be. Qed.

Lemma zget_key_at rk r j : 0 <= r -> 0 <= j -> zget (key_at rk r) j = zget rk (r * 4 + j).
Proof. intros Hr Hj. unfold zget, key_at. rewrite !nth_lookup, lookup_drop. do 2 f_equal. lia. Qed.

Lemma swapped_key rk r : 0 <= r -> key_bytes (key_at (map bswap rk) r) = movdqu rk (r * 4).
Proof.
  intros Hr. rewrite key_bytes_be. unfold movdqu. cbn [map]. rewrite !zget_key_at, !zget_bswap, !bswap_bytes by lia. reflexivity.
Qed.

(** The schedule made of given 16-byte round keys. *)
Definition schedule_of (f : Z -> bytes) (rounds : Z) : list Z := concat (map (fun r => block_words (f r)) (seqZ 0 (rounds + 1))).

Lemma be_word a b c d : is_byte a -> is_byte b -> is_byte c -> is_byte d -> be_bytes 4 (be_val [a; b; c; d]) = [a; b; c; d].
Proof. intros. apply (be_bytes_val [a; b; c; d]). unfold is_bytes. rewrite !Forall_cons. done. Qed.

Lemma block_words_bytes b : length b = 16%nat -> is_bytes b -> key_bytes (block_words b) = b.
Proof.
  intros Hl Hb. rewrite key_bytes_be. explode_state b Hl. byte_hyps Hb.
  change (concat [be_bytes 4 (be_val [z; z0; z1; z2]); be_bytes 4 (be_val [z3; z4; z5; z6]);
    be_bytes 4 (be_val [z7; z8; z9; z10]); be_bytes 4 (be_val [z11; z12; z13; z14])] =
    [z; z0; z1; z2; z3; z4; z5; z6; z7; z8; z9; z10; z11; z12; z13; z14]).
  by rewrite !be_word.
Qed.

Lemma length_movdqu rk i : length (movdqu rk i) = 16%nat.
Proof. reflexivity. Qed.
Lemma is_bytes_movdqu rk i : is_bytes (movdqu rk i).
Proof. unfold movdqu. cbn [map concat]. unfold is_bytes. rewrite !Forall_app. repeat split; try apply is_bytes_le_bytes. constructor. Qed.
Lemma wf_movdqu rk i : wf_state (movdqu rk i).
Proof. split; [apply length_movdqu|apply is_bytes_movdqu]. Qed.
#[local] Hint Resolve wf_movdqu : aes.

Lemma length_words (f : Z -> bytes) l : length (concat (map (fun r => block_words (f r)) l)) = (4 * length l)%nat.
Proof. induction l as [|x l IH]; [done|]. cbn [map concat length]. rewrite length_app, IH. cbn. lia. Qed.

Lemma schedule_key f rounds r : 0 <= r <= rounds -> (forall i, wf_state (f i)) -> key_bytes (key_at (schedule_of f rounds) r) = f r.
Proof.
  intros Hr Hf. destruct (Hf r) as (Hl & Hb). rewrite <- (block_words_bytes (f r) Hl Hb).
  unfold key_at, schedule_of. replace (rounds + 1) with (r + Z.succ (rounds - r)) by lia.
  rewrite seqZ_app, map_app, concat_app, drop_app_length' by (rewrite ?length_words, ?length_seqZ; lia).
  rewrite seqZ_cons by lia. reflexivity.
Qed.

(** ** The ciphers computed *)

Lemma sub_shift_comm s : length s = 16%nat -> aes_sub_bytes (aes_shift_rows s) = aes_shift_rows (aes_sub_bytes s).
Proof. intros Hl. explode_state s Hl. reflexivity. Qed.

(** [InvMixColumns] is linear. *)
Lemma inv_mix_columns_xor a b : length a = 16%nat -> length b = 16%nat ->
  aes_inv_mix_columns (xor_bytes a b) = xor_bytes (aes_inv_mix_columns a) (aes_inv_mix_columns b).
Proof.
  intros Ha Hb. rewrite !inv_mix_columns_on by (unfold xor_bytes; rewrite ?length_zip_with; lia).
  explode_state a Ha. explode_state b Hb.
  cbv [on_columns inv_mix_col xor_bytes zget map concat app zip_with nth Z.to_nat Z.mul Z.add Pos.mul Pos.add Pos.add_carry Pos.succ
       Pos.to_nat Pos.iter_op Nat.add Init.Nat.add].
  rewrite !aes_gf_mult_lxor. repeat (apply f_equal2; [lxor_regroup|]). reflexivity.
Qed.

(** Folding two functions that agree on the states reached. *)
Lemma fold_left_agree {S A} (I : S -> Prop) (f g : S -> A -> S) l :
  (forall s a, In a l -> I s -> f s a = g s a /\ I (g s a)) -> forall s, I s -> fold_left f l s = fold_left g l s /\ I (fold_left g l s).
Proof.
  induction l as [|a l IH]; intros H s Hs; [done|]. cbn [fold_left]. destruct (H s a (or_introl eq_refl) Hs) as (-> & Hg).
  apply IH; [|done]. intros s' a' Ha'. apply H. by right.
Qed.

Lemma key_xor s k b : length s = 16%nat -> key_bytes k = b -> aes_add_round_key s k = pxor s b.
Proof. intros Hl <-. by apply add_round_key_xor. Qed.

Lemma in_rounds r rounds : In r (seqZ 1 (rounds - 1)) -> 1 <= r < rounds.
Proof. intros H%list_elem_of_In%elem_of_seqZ. lia. Qed.

(** The sixteen bytes of a state stay sixteen. *)
Lemma length_inv_round s : length s = 16%nat -> length (aes_inv_sub_bytes (aes_inv_shift_rows s)) = 16%nat /\
  length (aes_inv_mix_columns (aes_inv_sub_bytes (aes_inv_shift_rows s))) = 16%nat.
Proof.
  intros Hl. assert (H : length (aes_inv_sub_bytes (aes_inv_shift_rows s)) = 16%nat) by (explode_state s Hl; reflexivity).
  split; [done|]. rewrite inv_mix_columns_on by done. reflexivity.
Qed.
#[local] Opaque aes_add_round_key aes_sub_bytes aes_shift_rows aes_mix_columns
  aes_inv_sub_bytes aes_inv_shift_rows aes_inv_mix_columns.

Lemma length_pxor a b : length a = 16%nat -> length b = 16%nat -> length (pxor a b) = 16%nat.
Proof. intros Ha Hb. unfold pxor, xor_bytes. rewrite length_zip_with. lia. Qed.

(** The encryption of the instructions is AES under the round keys with the bytes
    of every word reversed. *)
Lemma hw_encrypt_swapped rk rounds p : wf_state p -> 0 <= rounds ->
  hw_encrypt rk rounds p = encrypt_words (map bswap rk) rounds p.
Proof.
  intros Hp Hr. unfold hw_encrypt, encrypt_words, for_loop. rewrite (sub_all p 16) by (destruct Hp; unfold zlen; lia).
  rewrite <- (key_xor p (map bswap rk) (movdqu rk 0)); [|apply Hp|exact (swapped_key rk 0 (Z.le_refl 0))].
  destruct (fold_left_agree wf_state (fun x i => aesenc x (movdqu rk (i * 4))) (fun s r => encrypt_round (map bswap rk) r s)
    (seqZ 1 (rounds - 1))) with (s := aes_add_round_key p (map bswap rk)) as (E & Hs); [|auto with aes|].
  - intros s r Hin%in_rounds Hs. split; [|auto with aes]. unfold aesenc, encrypt_round.
    rewrite sub_shift_comm by apply Hs. symmetry. apply key_xor; [|apply swapped_key; lia].
    assert (W : wf_state (aes_mix_columns (aes_shift_rows (aes_sub_bytes s)))) by auto 8 with aes. apply W.
  - rewrite E. unfold aesenclast. rewrite sub_shift_comm by apply Hs. symmetry. apply key_xor; [|by apply swapped_key].
    assert (W : wf_state (aes_shift_rows (aes_sub_bytes (fold_left (fun s r => encrypt_round (map bswap rk) r s) (seqZ 1 (rounds - 1)) (aes_add_round_key p (map bswap rk))))))
      by auto 8 with aes. apply W.
Qed.

(** The round keys under which the decryption of the instructions is AES: AESDEC
    adds its key after [InvMixColumns], so the inner ones go through [MixColumns]. *)
Definition hw_decrypt_key (rk : list Z) (rounds r : Z) : bytes :=
  if (0 <? r) && (r <? rounds) then aes_mix_columns (movdqu rk (r * 4)) else movdqu rk (r * 4).

Lemma wf_hw_decrypt_key rk rounds r : wf_state (hw_decrypt_key rk rounds r).
Proof. unfold hw_decrypt_key. case_match; auto with aes. Qed.

Lemma hw_decrypt_scheduled rk rounds c : length c = 16%nat -> 0 <= rounds ->
  hw_decrypt rk rounds c = decrypt_words (schedule_of (hw_decrypt_key rk rounds) rounds) rounds c.
Proof.
  intros Hc Hr. set (K := schedule_of _ _).
  assert (HK : forall r, 0 <= r <= rounds -> key_bytes (key_at K r) = hw_decrypt_key rk rounds r).
  { intros r Hr'. apply schedule_key; [done|]. intros i. apply wf_hw_decrypt_key. }
  assert (E0 : key_bytes K = movdqu rk 0) by exact (HK 0 ltac:(lia)).
  assert (En : key_bytes (key_at K rounds) = movdqu rk (rounds * 4)).
  { rewrite HK by lia. unfold hw_decrypt_key. by rewrite Z.ltb_irrefl, andb_false_r. }
  unfold hw_decrypt, decrypt_words. rewrite (sub_all c 16) by (unfold zlen; lia).
  rewrite <- (key_xor c _ _ Hc En).
  destruct (fold_left_agree (fun s : bytes => length s = 16%nat) (fun x i => aesdec x (movdqu rk (i * 4))) (fun s r => decrypt_round K r s)
    (rev (seqZ 1 (rounds - 1)))) with (s := aes_add_round_key c (key_at K rounds)) as (E & Hs).
  - intros s r Hin%in_rev%in_rounds Hs. destruct (length_inv_round s Hs) as (H1 & H2). unfold aesdec, decrypt_round.
    rewrite (key_xor _ _ _ H1 (HK r ltac:(lia))). unfold hw_decrypt_key. rewrite !(proj2 (Z.ltb_lt _ _)) by lia. cbn [andb].
    unfold pxor at 2 3. rewrite inv_mix_columns_xor, inv_mix_mix_columns by (try apply wf_mix_columns; auto with aes).
    split; [done|]. by apply length_pxor.
  - rewrite (key_xor c _ _ Hc En). by apply length_pxor.
  - rewrite E. unfold aesdeclast. symmetry. apply key_xor; [|done]. by apply length_inv_round.
Qed.

(** ** Properties *)

(** Which cipher [aes_hw_encrypt_block] and [aes_hw_decrypt_block] compute, for
    every valid key and block: without the instructions the software cipher; with
    them AES under round keys that are not those of the key: the words have their
    bytes reversed, and for decryption the inner keys are also mixed. *)
Theorem aes_hw_computes ecx key key_bits block :
  key_bits = 128 \/ key_bits = 192 \/ key_bits = 256 -> key_bits / 8 <= zlen key -> wf_state block ->
  let '(rounds, rk) := aes_key_expansion key key_bits in
  aes_hw_encrypt_block ecx key key_bits block =
    Ret (encrypt_words (if aes_hw_available ecx then map bswap rk else rk) rounds block) /\
  aes_hw_decrypt_block ecx key key_bits block =
    Ret (decrypt_words (if aes_hw_available ecx then schedule_of (hw_decrypt_key rk rounds) rounds else rk) rounds block).
Proof.
  intros Hbits Hkey Hb. unfold aes_hw_encrypt_block, aes_hw_decrypt_block, hw_block, crypto_aes_init.
  assert (Hrounds : 0 <= fst (aes_key_expansion key key_bits)) by (unfold aes_key_expansion; cbn [fst]; repeat case_match; lia).
  assert (Hok : negb (key_bits =? 128) && negb (key_bits =? 192) && negb (key_bits =? 256) = false)
    by (destruct Hbits as [->|[->| ->]]; reflexivity).
  assert (Hsize : (key_bits / 32 =? 0) || (60 <? key_bits / 32) || (zlen key <? 4 * (key_bits / 32)) = false).
  { destruct Hbits as [->|[->| ->]]; cbn [Z.eqb orb]; apply Z.ltb_ge; vm_compute (_ / _) in *; lia. }
  pose proof (key_expansion_length key key_bits Hbits) as Hlen.
  rewrite Hok, Hsize. destruct (aes_key_expansion key key_bits) as (rounds & rk). destruct (aes_hw_available ecx); cbn [negb snd fst] in *.
  - by rewrite hw_encrypt_swapped, hw_decrypt_scheduled by (try apply Hb; done).
  - split; [apply aes_encrypt_words|apply aes_decrypt_words]; cbn [key_schedule aes_rounds]; lia.
Qed.

(** The key and block of FIPS 197, appendix C.1. *)
Definition fips_key : bytes := seqZ 0 16.
Definition fips_block : bytes := map (fun i => 17 * i) (seqZ 0 16).
Definition fips_cipher : bytes := [0x69; 0xc4; 0xe0; 0xd8; 0x6a; 0x7b; 0x04; 0x30; 0xd8; 0xcd; 0xb7; 0x80; 0x70; 0xb4; 0xc5; 0x5a].
Definition AES_NI : Z := 1 <<< 25.

Lemma aes_hw_computes_witness :
  let '(rounds, rk) := aes_key_expansion fips_key 128 in
  aes_hw_encrypt_block AES_NI fips_key 128 fips_block = Ret (encrypt_words (map bswap rk) rounds fips_block).
Proof.
  assert (Hb : wf_state fips_block) by (split; [reflexivity|]; apply (bool_decide_eq_true_1 _); vm_compute; reflexivity).
  assert (Hk : 128 / 8 <= zlen fips_key) by (vm_compute; discriminate).
  pose proof (aes_hw_computes AES_NI fips_key 128 fips_block (or_introl eq_refl) Hk Hb) as H.
  change (aes_hw_available AES_NI) with true in H. destruct (aes_key_expansion fips_key 128) as (rounds & rk). apply H.
Defined.

(** On the test vector of FIPS 197 the software path gives the published
    ciphertext; with the instructions the ciphertext is another one, and decrypting
    it with the instructions does not give the block back. *)
Theorem aes_hw_not_aes :
  aes_hw_encrypt_block 0 fips_key 128 fips_block = Ret fips_cipher /\
  (exists c, aes_hw_encrypt_block AES_NI fips_key 128 fips_block = Ret c /\ c <> fips_cipher /\
     aes_hw_decrypt_block AES_NI fips_key 128 c <> Ret fips_block).
Proof.
  split; [vm_compute; reflexivity|]. eexists. split; [vm_compute; reflexivity|]. split; [discriminate|vm_compute; discriminate].
Qed.
