(* ===== verification/AesModes.v ===== *)
(** * AES modes of operation (src/security/aes.c)

    CBC and GCM over the [BlockCipher] interface, which the AES context of
    [Aes.v] implements: the C functions call [crypto_aes_encrypt_block] and
    [crypto_aes_decrypt_block] and use nothing else of the context, and on a context
    that [crypto_aes_init] made these two are the class's operations
    ([aes_cipher_computes]).  The output
    buffers do not overlap the inputs and hold at least [len] bytes. *)

From S2P Require Import Prelude Sha256 CryptoMem Aes.

Section modes.
Context {C : Type} `{!BlockCipher C}.

(** ** CBC *)

(** The loop of [crypto_aes_cbc_encrypt] over the [n] remaining blocks. *)
Fixpoint cbc_encrypt_loop (c : C) (n : nat) (prev_block plaintext : bytes) : bytes :=
  match n with
  | O => []
  | S n' =>
      let temp_block := xor_bytes (sub plaintext 0 16) prev_block in
      let out := bc_encrypt c temp_block in
      out ++ cbc_encrypt_loop c n' out (drop 16 plaintext)
  end.

Fixpoint cbc_decrypt_loop (c : C) (n : nat) (prev_block ciphertext : bytes) : bytes :=
  match n with
  | O => []
  | S n' =>
      let temp_block := bc_decrypt c (sub ciphertext 0 16) in
      xor_bytes temp_block prev_block ++
      cbc_decrypt_loop c n' (sub ciphertext 0 16) (drop 16 ciphertext)
  end.

(** The arguments that are pointers are [None] for NULL; the result is the
    return code and the bytes written. *)
Definition cbc_encrypt (ctx : option C) (iv plaintext : option bytes) (len : Z)
  (out_ok : bool) : run (Z * bytes) :=
  match ctx, iv, plaintext, out_ok with
  | Some c, Some iv, Some pt, true =>
      if negb (len mod AES_BLOCK_SIZE =? 0) then mret (CRYPTO_ERROR_INVALID_PARAM, [])
      else if (zlen iv <? 16) || (zlen pt <? len) then UB
      else mret (CRYPTO_SUCCESS,
                 cbc_encrypt_loop c (Z.to_nat (len / 16)) (sub iv 0 16) pt)
  | _, _, _, _ => mret (CRYPTO_ERROR_INVALID_PARAM, [])
  end.

Definition cbc_decrypt (ctx : option C) (iv ciphertext : option bytes) (len : Z)
  (out_ok : bool) : run (Z * bytes) :=
  match ctx, iv, ciphertext, out_ok with
  | Some c, Some iv, Some ct, true =>
      if negb (len mod AES_BLOCK_SIZE =? 0) then mret (CRYPTO_ERROR_INVALID_PARAM, [])
      else if (zlen iv <? 16) || (zlen ct <? len) then UB
      else mret (CRYPTO_SUCCESS,
                 cbc_decrypt_loop c (Z.to_nat (len / 16)) (sub iv 0 16) ct)
  | _, _, _, _ => mret (CRYPTO_ERROR_INVALID_PARAM, [])
  end.

(** ** GCM helpers *)

(** The shift loop: [k] from 15 down to 1, then [v[0] >>= 1]. *)
Definition gcm_shift (v : bytes) : bytes :=
  let lsb := zget v 15 &&& 1 in
  let v := fold_left
    (fun v k => zset v k ((zget v k >>> 1) ||| ((zget v (k - 1) &&& 1) <<< 7)))
    (rev (seqZ 1 15)) v in
  let v := zset v 0 (zget v 0 >>> 1) in
  if lsb =? 0 then v else zset v 0 (zget v 0 ^^ 0xe1).

Definition aes_gcm_gf_mult (a b : bytes) : bytes :=
  fst (for_loop 0 16 (fun i zv =>
    for_loop 0 8 (fun j (zv : bytes * bytes) =>
      let '(z, v) := zv in
      let z := if (zget a i &&& (1 <<< (7 - j))) =? 0 then z else xor_bytes z v in
      (z, gcm_shift v)) zv) (zeros 16, sub b 0 16)).

(** One 16-byte block of [data] at [i], zero-padded. *)
Definition ghash_block (data : bytes) (len i : Z) : bytes :=
  let block_len := if len - i <? 16 then len - i else 16 in
  splice (zeros 16) 0 (sub data i block_len).

(** [for (i = 0; i < len; i += 16)]: [(len + 15) / 16] turns. *)
Definition aes_gcm_ghash (h data : bytes) (len : Z) : bytes :=
  for_loop 0 ((len + 15) / 16)
    (fun n y => aes_gcm_gf_mult (xor_bytes y (ghash_block data len (16 * n))) h)
    (zeros 16).

Definition aes_gcm_inc32 (block : bytes) : bytes :=
  let counter := u32 (zget block 12 <<< 24) ||| u32 (zget block 13 <<< 16) |||
                 u32 (zget block 14 <<< 8) ||| zget block 15 in
  let counter := u32 (counter + 1) in
  let block := zset block 12 ((counter >>> 24) &&& 0xFF) in
  let block := zset block 13 ((counter >>> 16) &&& 0xFF) in
  let block := zset block 14 ((counter >>> 8) &&& 0xFF) in
  zset block 15 (counter &&& 0xFF).

(** The counter-mode loop shared by encryption and decryption. *)
Fixpoint gcm_ctr (c : C) (n : nat) (counter data : bytes) (len : Z) : bytes :=
  match n with
  | O => []
  | S n' =>
      let keystream := bc_encrypt c counter in
      let block_len := if len <? 16 then len else 16 in
      xor_bytes (sub data 0 block_len) keystream ++
      gcm_ctr c n' (aes_gcm_inc32 counter) (drop 16 data) (len - 16)
  end.

Definition ctr_blocks (len : Z) : nat := Z.to_nat ((len + 15) / 16).

Definition gcm_h (c : C) : bytes := bc_encrypt c (zeros 16).

(** [iv_len * 8], [aad_len * 8] and [len * 8] are 32-bit products, stored in a
    [uint64_t]. *)
Definition bits64 (n : Z) : bytes := length_bytes (u32 (n * 8)).

Definition gcm_j0 (c : C) (iv : bytes) (iv_len : Z) : bytes :=
  if iv_len =? 12 then zset (splice (zeros 16) 0 (sub iv 0 12)) 15 1
  else
    let h := gcm_h c in
    let j0 := aes_gcm_ghash h iv iv_len in
    let len_block := zeros 8 ++ bits64 iv_len in
    aes_gcm_gf_mult (xor_bytes (aes_gcm_gf_mult j0 h) len_block) h.

Definition gcm_tag (c : C) (j0 : bytes) (aad : option bytes) (aad_len : Z)
  (ciphertext : bytes) (len : Z) : bytes :=
  let h := gcm_h c in
  let s := match aad with
           | Some aad => if 0 <? aad_len then aes_gcm_ghash h aad aad_len else zeros 16
           | None => zeros 16
           end in
  let s := if 0 <? len
           then aes_gcm_gf_mult (xor_bytes s (aes_gcm_ghash h ciphertext len)) h
           else s in
  let len_block := bits64 aad_len ++ bits64 len in
  let s := aes_gcm_gf_mult (xor_bytes s len_block) h in
  xor_bytes s (bc_encrypt c j0).

(** The reads through [iv], [aad] and the text stay inside their objects. *)
Definition gcm_reads_ok (iv : bytes) (iv_len : Z) (aad : option bytes) (aad_len : Z)
  (text : option bytes) (len : Z) : bool :=
  (iv_len <=? zlen iv) &&
  match aad with Some aad => aad_len <=? zlen aad | None => true end &&
  match text with Some t => len <=? zlen t | None => len <=? 0 end.

(** [i += 16] on a [uint32_t] never passes a bound above [2^32 - 16]. *)
Definition gcm_loops_end (iv_len : Z) (aad : option bytes) (aad_len len : Z) : bool :=
  ((iv_len =? 12) || (iv_len <=? 2 ^ 32 - 16)) &&
  match aad with Some _ => aad_len <=? 2 ^ 32 - 16 | None => true end &&
  (len <=? 2 ^ 32 - 16).

(** Return code, ciphertext and tag. *)
Definition gcm_encrypt (ctx : option C) (iv : option bytes) (iv_len : Z)
  (aad : option bytes) (aad_len : Z) (plaintext : option bytes) (len : Z)
  (ct_ok tag_ok : bool) : run (Z * bytes * bytes) :=
  match ctx, iv, ct_ok, tag_ok with
  | Some c, Some iv, true, true =>
      if negb (gcm_loops_end iv_len aad aad_len len) then OutOfFuel
      else if negb (gcm_reads_ok iv iv_len aad aad_len plaintext len) then UB
      else
        let j0 := gcm_j0 c iv iv_len in
        let ct := gcm_ctr c (ctr_blocks len) (aes_gcm_inc32 j0) (default [] plaintext) len in
        mret (CRYPTO_SUCCESS, ct, gcm_tag c j0 aad aad_len ct len)
  | _, _, _, _ => mret (CRYPTO_ERROR_INVALID_PARAM, [], [])
  end.

(** Return code, the contents of the caller's [ciphertext] buffer afterwards
    (the re-encryption writes through it) and the plaintext if it was copied. *)
Definition gcm_decrypt (ctx : option C) (iv : option bytes) (iv_len : Z)
  (aad : option bytes) (aad_len : Z) (ciphertext : option bytes) (len : Z)
  (tag : option bytes) (pt_ok : bool) : run (Z * bytes * option bytes) :=
  match ctx, iv, ciphertext, tag, pt_ok with
  | Some c, Some iv, Some ct, Some tag, true =>
      if negb (gcm_loops_end iv_len aad aad_len len) then OutOfFuel
      else if negb (gcm_reads_ok iv iv_len aad aad_len (Some ct) len) || (zlen tag <? 16) then UB
      else
        let j0 := if iv_len =? 12 then zset (splice (zeros 16) 0 (sub iv 0 12)) 15 1
                  else zeros 16 in
        let temp_plaintext := gcm_ctr c (ctr_blocks len) (aes_gcm_inc32 j0) ct len in
        r ← gcm_encrypt (Some c) (Some iv) iv_len aad aad_len (Some temp_plaintext) len true true;
        let '(_, ct', computed_tag) := r in
        let ct_buf := splice ct 0 ct' in
        if negb (crypto_memcmp_constant_time tag computed_tag 16 =? 0)
        then mret (CRYPTO_ERROR_VERIFICATION_FAILED, ct_buf, None)
        else mret (CRYPTO_SUCCESS, ct_buf, Some temp_plaintext)
  | _, _, _, _, _ => mret (CRYPTO_ERROR_INVALID_PARAM, default [] ciphertext, None)
  end.


(** ** Lemmas: CBC *)

Implicit Types (c : C) (iv pt ct prev counter data : bytes).

Lemma wf_sub_block data : is_bytes data -> 16 <= zlen data -> wf_state (sub data 0 16).
Proof.
  intros Hb Hl. split; [by rewrite length_sub by lia|]. unfold sub. auto with cbounds.
Qed.

Lemma wf_xor a b : wf_state a -> wf_state b -> wf_state (xor_bytes a b).
Proof.
  intros [Ha Hb] [Ha' Hb']. split; [rewrite length_xor_bytes; lia|by apply is_bytes_xor].
Qed.

Lemma sub_app_block (b l : bytes) : length b = 16%nat -> sub (b ++ l) 0 16 = b.
Proof. intros H. unfold sub. rewrite drop_0. change (Z.to_nat 16) with 16%nat. by rewrite <- H, take_app_length. Qed.

Lemma drop_app_block (b l : bytes) : length b = 16%nat -> drop 16 (b ++ l) = l.
Proof. intros <-. apply drop_app_length. Qed.

Lemma take_block_drop n (l : bytes) : take 16 l ++ take (16 * n) (drop 16 l) = take (16 * S n) l.
Proof. rewrite take_take_drop. f_equal. lia. Qed.

Lemma cbc_loop_roundtrip c n : forall prev pt,
  wf_state prev -> is_bytes pt -> (16 * n <= length pt)%nat ->
  cbc_decrypt_loop c n prev (cbc_encrypt_loop c n prev pt) = take (16 * n) pt.
Proof.
  induction n as [|n IH]; intros prev pt Hp Hb Hl; [done|].
  assert (Hz : 16 <= zlen pt) by (unfold zlen; lia).
  pose proof (wf_sub_block pt Hb Hz) as Hs.
  pose proof (bc_encrypt_state c _ (wf_xor _ _ Hs Hp)) as He.
  cbn [cbc_encrypt_loop cbc_decrypt_loop].
  rewrite sub_app_block, drop_app_block by apply He.
  rewrite bc_decrypt_encrypt by (by apply wf_xor).
  rewrite xor_bytes_cancel by (destruct Hs as [-> _], Hp as [-> _]; lia).
  rewrite IH; [apply take_block_drop|assumption|auto with cbounds|rewrite length_drop; lia].
Qed.

Lemma cbc_encrypt_loop_bytes c n : forall prev pt,
  wf_state prev -> is_bytes pt -> (16 * n <= length pt)%nat ->
  length (cbc_encrypt_loop c n prev pt) = (16 * n)%nat.
Proof.
  induction n as [|n IH]; intros prev pt Hp Hb Hl; [done|].
  assert (Hz : 16 <= zlen pt) by (unfold zlen; lia).
  pose proof (bc_encrypt_state c _ (wf_xor _ _ (wf_sub_block pt Hb Hz) Hp)) as He.
  cbn [cbc_encrypt_loop]. rewrite length_app, IH;
    [destruct He as [-> _]; lia|assumption|auto with cbounds|rewrite length_drop; lia].
Qed.

(** ** Lemmas: counter mode *)

Lemma wf_zset s i v : wf_state s -> is_byte v -> wf_state (zset s i v).
Proof.
  intros [Hl Hb] Hv. split; [unfold zset; by rewrite length_insert|].
  by apply Forall_insert.
Qed.

Lemma wf_inc32 s : wf_state s -> wf_state (aes_gcm_inc32 s).
Proof. intros H. unfold aes_gcm_inc32. auto 8 using wf_zset, and_ff_byte. Qed.

Lemma wf_zeros16 : wf_state (zeros 16).
Proof. split; [reflexivity|apply is_bytes_zeros]. Qed.

Lemma wf_j0_12 iv : is_bytes iv -> 12 <= zlen iv ->
  wf_state (zset (splice (zeros 16) 0 (sub iv 0 12)) 15 1).
Proof.
  intros Hb Hl. apply wf_zset; [|unfold is_byte, in_u; lia]. split.
  - pose proof (zlen_splice (zeros 16) 0 (sub iv 0 12)) as E.
    rewrite zlen_sub in E by lia. change (zlen (zeros 16)) with 16 in E.
    specialize (E ltac:(lia) ltac:(lia)). unfold zlen in E. lia.
  - unfold splice, sub. rewrite !is_bytes_app. auto 10 with cbounds.
Qed.

(** The [n] turns of a loop over [len] bytes. *)
Definition turns (n : nat) (len : Z) : Prop :=
  0 <= len <= 16 * Z.of_nat n /\ (0 < Z.of_nat n -> 16 * (Z.of_nat n - 1) < len).

Lemma turns_ctr_blocks len : 0 <= len -> turns (ctr_blocks len) len.
Proof. intros H. unfold turns, ctr_blocks. rewrite Z2Nat.id by dlia. dlia. Qed.

Lemma turns_S n len :
  turns (S n) len -> (len <= 16 /\ n = 0%nat) \/ (16 < len /\ turns n (len - 16)).
Proof. unfold turns. intros H. destruct (Z.le_gt_cases len 16); [left|right]; lia. Qed.

Lemma sub_split (l : bytes) len : 16 <= len -> len <= zlen l ->
  sub l 0 16 ++ sub (drop 16 l) 0 (len - 16) = sub l 0 len.
Proof.
  intros H1 H2. unfold sub. rewrite !drop_0. change (Z.to_nat 16) with 16%nat.
  rewrite take_take_drop. f_equal. lia.
Qed.

Lemma block_len_eq len : 16 < len -> (if len <? 16 then len else 16) = 16.
Proof. intros. destruct (Z.ltb_spec len 16); lia. Qed.

Lemma block_len_last len : len <= 16 -> (if len <? 16 then len else 16) = len.
Proof. intros. destruct (Z.ltb_spec len 16); lia. Qed.

(** Only the first [len] bytes of the text matter. *)
Lemma gcm_ctr_prefix c n : forall counter data len,
  turns n len -> len <= zlen data ->
  gcm_ctr c n counter (sub data 0 len) len = gcm_ctr c n counter data len.
Proof.
  induction n as [|n IH]; intros counter data len Ht Hl; [done|].
  pose proof (turns_S _ _ Ht) as [[H16 ->]|[H16 Ht']]; cbn [gcm_ctr].
  - rewrite block_len_last by lia. unfold turns in Ht.
    by rewrite (sub_all (sub data 0 len)) by (rewrite zlen_sub; lia).
  - rewrite block_len_eq by lia. unfold turns in Ht.
    rewrite <- (sub_split data len) by lia.
    rewrite sub_app_block, drop_app_block by (rewrite length_sub; lia).
    f_equal. apply IH; [assumption|]. unfold zlen in *. rewrite length_drop. lia.
Qed.

Lemma gcm_ctr_length c n : forall counter data len,
  wf_state counter -> turns n len -> len <= zlen data ->
  zlen (gcm_ctr c n counter data len) = len.
Proof.
  induction n as [|n IH]; intros counter data len Hc Ht Hl.
  { unfold turns in Ht. unfold zlen. cbn [gcm_ctr length]. lia. }
  pose proof (bc_encrypt_state c _ Hc) as [Hk _].
  pose proof (turns_S _ _ Ht) as [[H16 ->]|[H16 Ht']]; cbn [gcm_ctr]; unfold turns in Ht.
  - rewrite block_len_last, app_nil_r by lia. unfold zlen in *.
    rewrite length_xor_bytes, length_sub, Hk by (unfold zlen; lia). lia.
  - rewrite block_len_eq, zlen_app by lia.
    rewrite IH; [|by apply wf_inc32|assumption|unfold zlen in *; rewrite length_drop; lia].
    unfold zlen in *. rewrite length_xor_bytes, length_sub, Hk by (unfold zlen; lia). lia.
Qed.

(** Applying the counter mode twice gives the text back. *)
Lemma gcm_ctr_involutive c n : forall counter data len,
  wf_state counter -> turns n len -> len <= zlen data ->
  gcm_ctr c n counter (gcm_ctr c n counter data len) len = sub data 0 len.
Proof.
  induction n as [|n IH]; intros counter data len Hc Ht Hl.
  { unfold turns in Ht. replace len with 0 by lia. by destruct data. }
  pose proof (bc_encrypt_state c _ Hc) as [Hk _].
  pose proof (turns_S _ _ Ht) as [[H16 ->]|[H16 Ht']]; cbn [gcm_ctr]; unfold turns in Ht.
  - rewrite block_len_last, !app_nil_r by lia.
    rewrite (sub_all (xor_bytes _ _)).
    2: { unfold zlen in *. rewrite length_xor_bytes, length_sub, Hk by (unfold zlen; lia). lia. }
    apply xor_bytes_cancel. rewrite length_sub, Hk by (unfold zlen in *; lia). lia.
  - rewrite block_len_eq by lia.
    assert (Hx : length (xor_bytes (sub data 0 16) (bc_encrypt c counter)) = 16%nat)
      by (rewrite length_xor_bytes, length_sub, Hk by lia; lia).
    rewrite sub_app_block, drop_app_block by exact Hx.
    rewrite xor_bytes_cancel by (rewrite length_sub, Hk by lia; lia).
    rewrite IH; [|by apply wf_inc32|assumption|unfold zlen in *; rewrite length_drop; lia].
    by apply sub_split; lia.
Qed.

(** ** Lemmas: tags are bytes *)

Lemma wf_gcm_shift v : wf_state v -> wf_state (gcm_shift v).
Proof.
  intros H. unfold gcm_shift.
  set (v1 := fold_left _ _ _).
  assert (H1 : wf_state v1).
  { unfold v1. apply fold_left_inv; [|assumption]. intros u k Hu. apply wf_zset; [assumption|].
    apply in_u_lor; [lia|apply in_u_shiftr; [lia|apply is_bytes_get, Hu]|].
    destruct (land1_cases (zget u (k - 1))) as [-> | ->]; apply (bool_decide_unpack _); vm_compute; done. }
  assert (H2 : wf_state (zset v1 0 (zget v1 0 >>> 1)))
    by (apply wf_zset; [assumption|apply in_u_shiftr; [lia|apply is_bytes_get, H1]]).
  destruct (_ =? 0); [assumption|]. apply wf_zset; [assumption|].
  apply in_u_lxor; [lia|apply is_bytes_get, H2|unfold in_u; lia].
Qed.

Lemma wf_gcm_gf_mult a b : wf_state b -> wf_state (aes_gcm_gf_mult a b).
Proof.
  intros Hb. unfold aes_gcm_gf_mult, for_loop.
  rewrite (sub_all b 16) by (destruct Hb; unfold zlen; lia).
  assert (G : wf_state (zeros 16) /\ wf_state b) by (split; [apply wf_zeros16|assumption]).
  revert G. generalize (zeros 16) as z, b as v. intros z v G.
  apply (fold_left_inv (fun zv : bytes * bytes => wf_state (fst zv) /\ wf_state (snd zv)));
    [|exact G].
  intros zv i Hzv.
  apply (fold_left_inv (fun zv : bytes * bytes => wf_state (fst zv) /\ wf_state (snd zv)));
    [|exact Hzv].
  intros [z' v'] j [Hz Hv]. cbn [fst snd] in *. split; [|by apply wf_gcm_shift].
  destruct (_ =? 0); [assumption|by apply wf_xor].
Qed.

Lemma wf_gcm_tag c j0 aad aad_len text len :
  wf_state j0 -> wf_state (gcm_tag c j0 aad aad_len text len).
Proof.
  intros Hj. assert (Hh : wf_state (gcm_h c)) by apply bc_encrypt_state, wf_zeros16.
  unfold gcm_tag. apply wf_xor; [by apply wf_gcm_gf_mult|by apply bc_encrypt_state].
Qed.

End modes.

(** ** The functions of the source: the modes over the AES context *)

Definition crypto_aes_cbc_encrypt := @cbc_encrypt crypto_aes_ctx_t aes_cipher.
Definition crypto_aes_cbc_decrypt := @cbc_decrypt crypto_aes_ctx_t aes_cipher.
Definition crypto_aes_gcm_encrypt := @gcm_encrypt crypto_aes_ctx_t aes_cipher.
Definition crypto_aes_gcm_decrypt := @gcm_decrypt crypto_aes_ctx_t aes_cipher.

(** ** GCM over any block cipher *)

Section gcm_facts.
Context {C : Type} `{!BlockCipher C}.
Implicit Types (c : C) (iv ct : bytes).

Lemma gcm_reads_text iv iv_len aad aad_len t t' len :
  gcm_reads_ok iv iv_len aad aad_len (Some t) len = true -> len <= zlen t' ->
  gcm_reads_ok iv iv_len aad aad_len (Some t') len = true.
Proof.
  unfold gcm_reads_ok. intros H Hl. apply andb_true_iff in H as [H _].
  rewrite H. cbn [andb]. zbool.
Qed.

Lemma gcm_j0_12 c iv : gcm_j0 c iv 12 = zset (splice (zeros 16) 0 (sub iv 0 12)) 15 1.
Proof. reflexivity. Qed.

(** With a 12-byte IV, decryption recomputes the tag of the ciphertext it was
    given, leaves that ciphertext as it was, and releases the counter-mode
    plaintext exactly when the tags agree. *)
Lemma gcm_decrypt_12 c iv aad aad_len ct len tag :
  is_bytes iv -> is_bytes tag -> 0 <= len -> 16 <= zlen tag ->
  gcm_loops_end 12 aad aad_len len = true ->
  gcm_reads_ok iv 12 aad aad_len (Some ct) len = true ->
  let j0 := gcm_j0 c iv 12 in
  gcm_decrypt (Some c) (Some iv) 12 aad aad_len (Some ct) len (Some tag) true =
  if decide (sub tag 0 16 = gcm_tag c j0 aad aad_len (sub ct 0 len) len)
  then Ret (CRYPTO_SUCCESS, ct,
            Some (gcm_ctr c (ctr_blocks len) (aes_gcm_inc32 j0) ct len))
  else Ret (CRYPTO_ERROR_VERIFICATION_FAILED, ct, None).
Proof.
  intros Hiv Htag Hlen Ht He Hr j0. unfold gcm_decrypt. rewrite He, Hr. cbn [negb orb].
  destruct (Z.ltb_spec (zlen tag) 16) as [|_]; [lia|]. rewrite Z.eqb_refl.
  pose proof Hr as Hb. unfold gcm_reads_ok in Hb. bool_hyps.
  assert (Hj : wf_state j0) by (apply wf_j0_12; [assumption|lia]).
  assert (Hturns := turns_ctr_blocks len Hlen).
  assert (E0 : gcm_j0 c iv 12 = j0) by reflexivity. rewrite <- gcm_j0_12 with (c := c).
  rewrite E0. clearbody j0.
  assert (Hpt : zlen (gcm_ctr c (ctr_blocks len) (aes_gcm_inc32 j0) ct len) = len)
    by (apply gcm_ctr_length; [by apply wf_inc32|assumption..]).
  unfold gcm_encrypt. rewrite He. erewrite gcm_reads_text by (exact Hr || lia).
  cbn [negb]. run_step. rewrite E0. cbn [from_option id].
  assert (E : gcm_ctr c (ctr_blocks len) (aes_gcm_inc32 j0)
                (gcm_ctr c (ctr_blocks len) (aes_gcm_inc32 j0) ct len) len = sub ct 0 len)
    by (apply gcm_ctr_involutive; [by apply wf_inc32|assumption..]).
  rewrite E.
  assert (Es : splice ct 0 (sub ct 0 len) = ct).
  { unfold splice, sub. rewrite drop_0, take_0. cbn [app]. unfold zlen in *.
    rewrite length_take, Nat.min_l by lia. apply take_drop. }
  rewrite Es. destruct (wf_gcm_tag c j0 aad aad_len (sub ct 0 len) len Hj) as [Hgl Hgb].
  pose proof (memcmp_zero_iff tag (gcm_tag c j0 aad aad_len (sub ct 0 len) len) 16
    Htag Hgb ltac:(lia) Ht ltac:(unfold zlen; lia)) as Hm.
  rewrite (sub_all (gcm_tag _ _ _ _ _ _)) in Hm by (unfold zlen; lia).
  destruct (Z.eqb_spec (crypto_memcmp_constant_time tag
    (gcm_tag c j0 aad aad_len (sub ct 0 len) len) 16) 0) as [Em|Em]; cbn [negb];
    (destruct (decide _); [|]); try reflexivity; tauto.
Qed.
End gcm_facts.

(** ** Properties *)

(** CBC round trip: for any context, IV and text of whole blocks, decrypting
    what [crypto_aes_cbc_encrypt] produced returns the text; both calls succeed
    without a fault. *)
Theorem cbc_roundtrip ctx iv pt len :
  is_bytes iv -> is_bytes pt -> 16 <= zlen iv -> 0 <= len <= zlen pt -> len mod 16 = 0 ->
  exists ct,
    crypto_aes_cbc_encrypt (Some ctx) (Some iv) (Some pt) len true = Ret (CRYPTO_SUCCESS, ct) /\
    zlen ct = len /\
    crypto_aes_cbc_decrypt (Some ctx) (Some iv) (Some ct) len true =
      Ret (CRYPTO_SUCCESS, sub pt 0 len).
Proof.
  intros Hiv Hpt Hl Hlen Hm. pose proof (wf_sub_block iv Hiv Hl) as Hw.
  assert (Hn : (16 * Z.to_nat (len / 16) <= length pt)%nat) by (unfold zlen in *; dlia).
  exists (cbc_encrypt_loop ctx (Z.to_nat (len / 16)) (sub iv 0 16) pt).
  assert (Hz : zlen (cbc_encrypt_loop ctx (Z.to_nat (len / 16)) (sub iv 0 16) pt) = len).
  { unfold zlen. rewrite cbc_encrypt_loop_bytes by assumption. dlia. }
  unfold crypto_aes_cbc_encrypt, crypto_aes_cbc_decrypt, cbc_encrypt, cbc_decrypt.
  change AES_BLOCK_SIZE with 16. rewrite Hm, Hz. cbn [negb Z.eqb].
  replace ((zlen iv <? 16) || (zlen pt <? len)) with false by (symmetry; zbool).
  replace ((zlen iv <? 16) || (len <? len)) with false by (symmetry; zbool).
  split_and!; [reflexivity..|]. cbn. rewrite cbc_loop_roundtrip by assumption.
  do 2 f_equal. unfold sub. rewrite drop_0. f_equal. dlia.
Qed.

Lemma cbc_roundtrip_witness :
  exists ct,
    crypto_aes_cbc_encrypt (Some (mk_aes_ctx (zeros 44) 10)) (Some (zeros 16)) (Some (zeros 32)) 32 true
      = Ret (CRYPTO_SUCCESS, ct) /\ zlen ct = 32 /\
    crypto_aes_cbc_decrypt (Some (mk_aes_ctx (zeros 44) 10)) (Some (zeros 16)) (Some ct) 32 true
      = Ret (CRYPTO_SUCCESS, sub (zeros 32) 0 32).
Proof.
  apply cbc_roundtrip;
    first [apply is_bytes_zeros | reflexivity | (rewrite !zlen_zeros by lia; lia)].
Defined.

(** C10. Authenticated decryption with a 12-byte IV: the plaintext is released
    exactly when the presented tag is the tag [crypto_aes_gcm_encrypt] computes
    for this ciphertext and associated data; otherwise the result is
    [CRYPTO_ERROR_VERIFICATION_FAILED] and no plaintext is written. *)
Theorem gcm_decrypt_authenticates ctx iv aad aad_len ct len tag :
  is_bytes iv -> is_bytes tag -> 0 <= len -> 16 <= zlen tag ->
  gcm_loops_end 12 aad aad_len len = true ->
  gcm_reads_ok iv 12 aad aad_len (Some ct) len = true ->
  crypto_aes_gcm_decrypt (Some ctx) (Some iv) 12 aad aad_len (Some ct) len (Some tag) true =
  if decide (sub tag 0 16 = gcm_tag ctx (gcm_j0 ctx iv 12) aad aad_len (sub ct 0 len) len)
  then Ret (CRYPTO_SUCCESS, ct,
            Some (gcm_ctr ctx (ctr_blocks len) (aes_gcm_inc32 (gcm_j0 ctx iv 12)) ct len))
  else Ret (CRYPTO_ERROR_VERIFICATION_FAILED, ct, None).
Proof. apply gcm_decrypt_12. Qed.

Lemma gcm_decrypt_authenticates_witness :
  crypto_aes_gcm_decrypt (Some (mk_aes_ctx (zeros 44) 10)) (Some (zeros 12)) 12 None 0
    (Some (zeros 3)) 3 (Some (zeros 16)) true =
  if decide (sub (zeros 16) 0 16 =
             gcm_tag (mk_aes_ctx (zeros 44) 10) (gcm_j0 (mk_aes_ctx (zeros 44) 10) (zeros 12) 12)
                     None 0 (sub (zeros 3) 0 3) 3)
  then Ret (CRYPTO_SUCCESS, zeros 3,
            Some (gcm_ctr (mk_aes_ctx (zeros 44) 10) (ctr_blocks 3)
                    (aes_gcm_inc32 (gcm_j0 (mk_aes_ctx (zeros 44) 10) (zeros 12) 12)) (zeros 3) 3))
  else Ret (CRYPTO_ERROR_VERIFICATION_FAILED, zeros 3, None).
Proof.
  apply gcm_decrypt_authenticates;
    first [apply is_bytes_zeros | reflexivity | (rewrite ?zlen_zeros by lia; lia)].
Defined.

(** C12. GCM round trip with a 12-byte IV: what [crypto_aes_gcm_encrypt] produced
    is accepted by [crypto_aes_gcm_decrypt] and decrypts to the text. *)
Theorem gcm_roundtrip ctx iv aad aad_len pt len :
  is_bytes iv -> 0 <= len ->
  gcm_loops_end 12 aad aad_len len = true ->
  gcm_reads_ok iv 12 aad aad_len (Some pt) len = true ->
  exists ct tag,
    crypto_aes_gcm_encrypt (Some ctx) (Some iv) 12 aad aad_len (Some pt) len true true =
      Ret (CRYPTO_SUCCESS, ct, tag) /\
    crypto_aes_gcm_decrypt (Some ctx) (Some iv) 12 aad aad_len (Some ct) len (Some tag) true =
      Ret (CRYPTO_SUCCESS, ct, Some (sub pt 0 len)).
Proof.
  intros Hiv Hlen He Hr. unfold crypto_aes_gcm_encrypt, gcm_encrypt. rewrite He, Hr. cbn [negb].
  set (j0 := gcm_j0 ctx iv 12).
  pose proof Hr as Hb. unfold gcm_reads_ok in Hb. bool_hyps.
  assert (Hj : wf_state j0) by (apply wf_j0_12; [assumption|lia]).
  assert (Ht := turns_ctr_blocks len Hlen). cbn [default].
  set (ct := gcm_ctr ctx (ctr_blocks len) (aes_gcm_inc32 j0) pt len).
  assert (Hct : zlen ct = len) by (apply gcm_ctr_length; [by apply wf_inc32|assumption..]).
  exists ct, (gcm_tag ctx j0 aad aad_len ct len). split; [reflexivity|].
  destruct (wf_gcm_tag ctx j0 aad aad_len ct len Hj) as [Hgl Hgb].
  unfold crypto_aes_gcm_decrypt.
  rewrite gcm_decrypt_12; try assumption;
    [|unfold zlen; lia|eapply gcm_reads_text; [exact Hr|lia]].
  rewrite (sub_all (gcm_tag _ _ _ _ _ _)), (sub_all ct) by (unfold zlen in *; lia).
  fold j0. rewrite decide_True by reflexivity. do 3 f_equal.
  apply gcm_ctr_involutive; [by apply wf_inc32|assumption..].
Qed.

Lemma gcm_roundtrip_witness :
  exists ct tag,
    crypto_aes_gcm_encrypt (Some (mk_aes_ctx (zeros 44) 10)) (Some (zeros 12)) 12 None 0
      (Some (zeros 20)) 20 true true = Ret (CRYPTO_SUCCESS, ct, tag) /\
    crypto_aes_gcm_decrypt (Some (mk_aes_ctx (zeros 44) 10)) (Some (zeros 12)) 12 None 0
      (Some ct) 20 (Some tag) true = Ret (CRYPTO_SUCCESS, ct, Some (sub (zeros 20) 0 20)).
Proof. apply gcm_roundtrip; first [apply is_bytes_zeros | reflexivity | lia]. Defined.

(** The key schedule of the all-zero AES-128 key, computed by the code. *)
Definition zero_key_ctx : crypto_aes_ctx_t :=
  match crypto_aes_init true (Some (zeros 16)) 128 with
  | (_, Some ctx) => ctx
  | (_, None) => mk_aes_ctx [] 0
  end.

(** On the second test case of the GCM specification (zero key, IV and
    block) the ciphertext is the published one and the tag is not: GHASH is
    multiplied by H once more than the standard does when there is a text. *)
Theorem gcm_tag_not_standard :
  exists tag,
    crypto_aes_gcm_encrypt (Some zero_key_ctx) (Some (zeros 12)) 12 None 0
      (Some (zeros 16)) 16 true true =
    Ret (CRYPTO_SUCCESS,
         [0x03; 0x88; 0xda; 0xce; 0x60; 0xb6; 0xa3; 0x92;
          0xf3; 0x28; 0xc2; 0xb9; 0x71; 0xb2; 0xfe; 0x78], tag) /\
    tag <> [0xab; 0x6e; 0x47; 0xd4; 0x2c; 0xec; 0x13; 0xbd;
            0xf5; 0x3a; 0x67; 0xb2; 0x12; 0x57; 0xbd; 0xdf].
Proof. eexists. split; [vm_compute; reflexivity|]. vm_compute. congruence. Qed.

(** With an IV that is not 12 bytes long, [crypto_aes_gcm_decrypt] starts
    from a zero J0 while the encryption derived J0 from the IV: a genuine
    ciphertext and tag are refused, and the caller's ciphertext buffer is left
    overwritten. *)
Theorem gcm_iv16_not_decryptable :
  exists ct tag ct',
    crypto_aes_gcm_encrypt (Some zero_key_ctx) (Some (zeros 16)) 16 None 0
      (Some (zeros 1)) 1 true true = Ret (CRYPTO_SUCCESS, ct, tag) /\
    crypto_aes_gcm_decrypt (Some zero_key_ctx) (Some (zeros 16)) 16 None 0
      (Some ct) 1 (Some tag) true = Ret (CRYPTO_ERROR_VERIFICATION_FAILED, ct', None) /\
    ct' <> ct.
Proof.
  do 3 eexists. split; [vm_compute; reflexivity|]. split; [vm_compute; reflexivity|].
  vm_compute. congruence.
Qed.
