(* ===== verification/Kdf.v ===== *)
(** * HMAC-SHA256 and PBKDF2 (src/security/crypto.c, src/security/hmac.c)

    [crypto_hmac_sha256], the older [hmac_sha256] of hmac.c with its fixed
    stack buffer, and [crypto_pbkdf2_sha256].  The references are the formulas of
    RFC 2104 and RFC 8018 over the hash the code computes ([code_sha256]). *)

From S2P Require Import Prelude Sha256 CryptoMem.

(** ** [crypto_hmac_sha256]

    [key] and [data] are the objects the pointers designate; neither is checked
    for NULL by the code. *)

(** [init; update(a, alen); update(b, blen); final] on a fresh context. *)
Definition hash_two (a : bytes) (alen : Z) (b : bytes) (blen : Z) : run bytes :=
  let '(_, c0) := crypto_sha256_init (Some blank_ctx) in
  r1 ← crypto_sha256_update c0 (Some a) alen;
  r2 ← crypto_sha256_update (snd r1) (Some b) blen;
  r3 ← crypto_sha256_final (snd r2) true;
  mret (default [] (snd r3)).

(** [for (i = 0; i < 64; i++) k_pad[i] ^= c;] *)
Definition xor_pad (k_pad : bytes) (c : Z) : bytes :=
  for_loop 0 64 (fun i p => zset p i (zget p i ^^ c)) k_pad.

Definition hmac_key (key : bytes) (key_len : Z) : run bytes :=
  if 64 <? key_len
  then h ← sha256_hash (Some key) key_len;
       memcpy (zeros 64) 0 (default [] h) 0 32
  else memcpy (zeros 64) 0 key 0 key_len.

Definition crypto_hmac_sha256 (key : bytes) (key_len : Z) (data : bytes) (data_len : Z)
  : run bytes :=
  k_pad ← hmac_key key key_len;
  let k_pad := xor_pad k_pad 0x36 in
  inner_hash ← hash_two k_pad 64 data data_len;
  let k_pad := xor_pad k_pad (0x36 ^^ 0x5c) in
  hash_two k_pad 64 inner_hash 32.

(** ** [hmac_sha256] of hmac.c

    [buf] has 64 + 1024 bytes; its uninitialised contents are never read, since
    only the prefix that was written is hashed. *)

Definition hmac_sha256 (key : bytes) (keylen : Z) (data : bytes) (datalen : Z) : run bytes :=
  kl ← (if 64 <? keylen
        then tk ← sha256_hash (Some key) keylen; mret (default [] tk, 32)
        else mret (key, keylen));
  let '(key, keylen) := kl in
  if zlen key <? keylen then UB else
  let mask c := for_loop 0 keylen (fun i p => zset p i (zget p i ^^ zget key i))
                         (replicate 64 c) in
  buf ← memcpy (zeros (64 + 1024)) 0 (mask 0x36) 0 64;
  buf ← memcpy buf 64 data 0 datalen;
  inner ← sha256_hash (Some buf) (64 + datalen);
  buf ← memcpy buf 0 (mask 0x5c) 0 64;
  buf ← memcpy buf 64 (default [] inner) 0 32;
  out ← sha256_hash (Some buf) (64 + 32);
  mret (default [] out).

(** ** [crypto_pbkdf2_sha256] *)

(** [for (i = 2; i <= iterations; i++)]: [i] is 32 bits wide. *)
Fixpoint pbkdf2_iter (fuel : nat) (i iterations : Z) (password : bytes) (password_len : Z)
  (u f : bytes) : run bytes :=
  if negb (i <=? iterations) then Ret f
  else match fuel with
       | O => OutOfFuel
       | S fuel' =>
           u ← crypto_hmac_sha256 password password_len u 32;
           pbkdf2_iter fuel' (u32 (i + 1)) iterations password password_len u
             (for_loop 0 32 (fun j f => zset f j (zget f j ^^ zget u j)) f)
       end.

(** [uint8_t salt_block[salt_len + 4]] and the four bytes of the block number. *)
Definition pbkdf2_salt (salt : bytes) (salt_len block : Z) : run bytes :=
  let salt_block := zeros (u32 (salt_len + 4)) in
  s ← memcpy salt_block 0 salt 0 salt_len;
  s ← wr s salt_len ((block >>> 24) &&& 0xFF);
  s ← wr s (u32 (salt_len + 1)) ((block >>> 16) &&& 0xFF);
  s ← wr s (u32 (salt_len + 2)) ((block >>> 8) &&& 0xFF);
  wr s (u32 (salt_len + 3)) (block &&& 0xFF).

Definition pbkdf2_block (password : bytes) (password_len : Z) (salt : bytes)
  (salt_len iterations block : Z) : run bytes :=
  salt_block ← pbkdf2_salt salt salt_len block;
  u ← crypto_hmac_sha256 password password_len salt_block (u32 (salt_len + 4));
  pbkdf2_iter (Z.to_nat iterations) 2 iterations password password_len u u.

(** The loop over the blocks, [turns] of them left. *)
Fixpoint pbkdf2_loop (turns : nat) (password : bytes) (password_len : Z) (salt : bytes)
  (salt_len iterations blocks_needed block : Z) (derived_key : bytes) (key_len : Z)
  : run bytes :=
  match turns with
  | O => Ret derived_key
  | S turns' =>
      f ← pbkdf2_block password password_len salt salt_len iterations block;
      let copy_len := if key_len <? 32 then key_len else 32 in
      let copy_len := if (block =? blocks_needed) && negb (key_len mod 32 =? 0)
                      then key_len mod 32 else copy_len in
      derived_key ← memcpy derived_key (u32 ((block - 1) * 32)) f 0 copy_len;
      pbkdf2_loop turns' password password_len salt salt_len iterations blocks_needed
        (u32 (block + 1)) derived_key (u32 (key_len - copy_len))
  end.

(** [(key_len + 31) / 32] in 32 bits: at most [2^27 - 1], so [block] runs from 1
    to [blocks_needed] without wrapping. *)
Definition crypto_pbkdf2_sha256 (password : option bytes) (password_len : Z)
  (salt : option bytes) (salt_len iterations : Z) (derived_key : option bytes) (key_len : Z)
  : run (Z * option bytes) :=
  match password, salt, derived_key with
  | Some password, Some salt, Some dk =>
      if (iterations =? 0) || (key_len =? 0) then mret (CRYPTO_ERROR_INVALID_PARAM, Some dk)
      else
        let blocks_needed := u32 (key_len + 31) / 32 in
        dk ← pbkdf2_loop (Z.to_nat blocks_needed) password password_len salt salt_len
               iterations blocks_needed 1 dk key_len;
        mret (CRYPTO_SUCCESS, Some dk)
  | _, _, _ => mret (CRYPTO_ERROR_INVALID_PARAM, derived_key)
  end.

(** ** References *)

Section rfc.
Variable H : bytes -> bytes.

Definition rfc_key (key : bytes) : bytes :=
  let k := if 64 <? zlen key then H key else key in k ++ zeros (64 - zlen k).

(** RFC 2104. *)
Definition rfc_hmac (key m : bytes) : bytes :=
  let k := rfc_key key in
  H (map (fun b => b ^^ 0x5c) k ++ H (map (fun b => b ^^ 0x36) k ++ m)).

(** RFC 8018: [U_1 xor ... xor U_c]. *)
Fixpoint rfc_xor (n : nat) (password u f : bytes) : bytes :=
  match n with
  | O => f
  | S n' => let u' := rfc_hmac password u in rfc_xor n' password u' (xor_bytes f u')
  end.

Definition rfc_F (password salt : bytes) (c i : Z) : bytes :=
  let u1 := rfc_hmac password (salt ++ be_bytes 4 i) in
  rfc_xor (Z.to_nat (c - 1)) password u1 u1.

Definition rfc_pbkdf2 (password salt : bytes) (c dk_len : Z) : bytes :=
  sub (concat (map (rfc_F password salt c) (seqZ 1 ((dk_len + 31) / 32)))) 0 dk_len.
End rfc.

(** ** Lemmas: HMAC *)

Implicit Types (key data password salt u f dk : bytes).

#[local] Opaque code_sha256 sha256_hash crypto_sha256_update crypto_sha256_final crypto_sha256_init.

Lemma hash_two_eq (a b : bytes) alen blen :
  0 <= alen <= zlen a -> alen < 2 ^ 32 -> 0 <= blen <= zlen b -> alen mod 64 + blen < 2 ^ 32 ->
  hash_two a alen b blen = Ret (code_sha256 (sub a 0 alen ++ sub b 0 blen)).
Proof.
  intros Ha Ha2 Hb Hs. unfold hash_two.
  destruct (init_absorbed blank_ctx) as (c0 & -> & H0).
  destruct (update_absorbed c0 [] a alen H0) as (c1 & -> & H1);
    [assumption|change (zlen [] mod 64) with 0; lia|].
  run_step. cbn [snd app] in *.
  destruct (update_absorbed c1 _ b blen H1) as (c2 & -> & H2);
    [assumption|rewrite zlen_sub by lia; assumption|].
  run_step. cbn [snd]. destruct (final_absorbed c2 _ H2) as (c3 & ->). reflexivity.
Qed.

Lemma memcpy_zeros n (src : bytes) soff k :
  0 <= k <= n -> 0 <= soff -> soff + k <= zlen src ->
  memcpy (zeros n) 0 src soff k = Ret (sub src soff k ++ zeros (n - k)).
Proof.
  intros Hk Hs Hl. rewrite memcpy_ok by (rewrite ?zlen_zeros; lia). f_equal.
  unfold splice. rewrite take_0. cbn [app]. f_equal.
  rewrite length_sub by lia. unfold zeros. rewrite drop_replicate. f_equal. lia.
Qed.

Lemma zlen_rfc_key H key : zlen (H key) = 32 -> zlen (rfc_key H key) = 64.
Proof.
  intros HH. unfold rfc_key. rewrite zlen_app.
  destruct (Z.ltb_spec 64 (zlen key)); rewrite zlen_zeros; lia.
Qed.

Lemma hmac_key_eq key key_len :
  0 <= key_len <= zlen key -> key_len < 2 ^ 32 ->
  hmac_key key key_len = Ret (rfc_key code_sha256 (sub key 0 key_len)).
Proof.
  intros Hk Hs. unfold hmac_key, rfc_key. rewrite zlen_sub by lia.
  destruct (Z.ltb_spec 64 key_len) as [Hgt|Hle].
  - rewrite sha256_hash_eq by assumption. run_step. cbn [from_option id].
    rewrite memcpy_zeros, sub_all by (rewrite ?zlen_code_sha256; lia).
    by rewrite zlen_code_sha256.
  - rewrite memcpy_zeros, zlen_sub by lia. reflexivity.
Qed.

Lemma xor_pad_map p c : zlen p = 64 -> xor_pad p c = map (fun b => b ^^ c) p.
Proof. intros H. apply (for_loop_map (fun b => b ^^ c)). lia. Qed.

Lemma zlen_map {A B} (f : A -> B) l : zlen (map f l) = zlen l.
Proof. unfold zlen. by rewrite length_map. Qed.

Lemma crypto_hmac_eq key key_len data data_len :
  0 <= key_len <= zlen key -> key_len < 2 ^ 32 ->
  0 <= data_len <= zlen data -> data_len < 2 ^ 32 ->
  crypto_hmac_sha256 key key_len data data_len =
  Ret (rfc_hmac code_sha256 (sub key 0 key_len) (sub data 0 data_len)).
Proof.
  intros Hk Hks Hd Hds. unfold crypto_hmac_sha256. rewrite hmac_key_eq by assumption. bind_step.
  pose proof (zlen_rfc_key code_sha256 (sub key 0 key_len) (zlen_code_sha256 _)) as Hl.
  unfold rfc_hmac. cbv zeta. set (k := rfc_key _ _) in *. clearbody k.
  rewrite (xor_pad_map k) by assumption. set (ki := map _ k).
  assert (Hi : zlen ki = 64) by (unfold ki; by rewrite zlen_map).
  rewrite hash_two_eq by (change (64 mod 64) with 0; lia). bind_step.
  rewrite (sub_all ki) by lia. rewrite xor_pad_map by assumption.
  rewrite hash_two_eq by (rewrite ?zlen_map, ?zlen_code_sha256; change (64 mod 64) with 0; lia).
  rewrite !sub_all by (rewrite ?zlen_map, ?zlen_code_sha256; lia).
  do 3 f_equal. unfold ki. rewrite map_map. apply map_ext. intros b.
  rewrite Z.lxor_assoc. f_equal.
Qed.

(** The padded key of hmac.c, masked in place, is the masked padded key. *)
Lemma mask_key key c :
  zlen key <= 64 ->
  for_loop 0 (zlen key) (fun i p => zset p i (zget p i ^^ zget key i)) (replicate 64 c) =
  map (fun b => b ^^ c) (key ++ zeros (64 - zlen key)).
Proof.
  intros Hk. pose proof (zlen_nonneg key) as H0. apply zget_ext.
  { rewrite (for_loop_zset_length 0 _ (fun i x => x ^^ zget key i)), length_map, length_app.
    unfold zeros, zlen in *. rewrite !length_replicate. lia. }
  intros i Hi. unfold zlen in Hi.
  rewrite (for_loop_zset_length 0 _ (fun i x => x ^^ zget key i)), length_replicate in Hi.
  rewrite (for_loop_zset_get 0 _ (fun i x => x ^^ zget key i))
    by (unfold zlen in *; rewrite ?length_replicate; lia).
  assert (Hr : zget (replicate 64 c) i = c)
    by (unfold zget; rewrite nth_lookup, lookup_replicate_2 by lia; reflexivity).
  rewrite Hr. unfold zget at 2.
  rewrite (nth_indep _ 0 (0 ^^ c))
    by (rewrite length_map, length_app; unfold zeros, zlen in *; rewrite length_replicate; lia).
  rewrite (map_nth (fun b => b ^^ c)). rewrite ?Z.add_0_l. destruct (Z.ltb_spec i (zlen key)) as [Hlt|Hge].
  - rewrite app_nth1 by (unfold zlen in *; lia). destruct (Z.leb_spec 0 i); [|lia].
    cbn [andb]. apply Z.lxor_comm.
  - rewrite andb_false_r, app_nth2 by (unfold zlen in *; lia). unfold zeros.
    rewrite nth_lookup, lookup_replicate_2 by (unfold zlen in *; lia). reflexivity.
Qed.

Lemma rfc_key_short key : zlen key <= 64 -> rfc_key code_sha256 key = key ++ zeros (64 - zlen key).
Proof. intros H. unfold rfc_key. destruct (Z.ltb_spec 64 (zlen key)); [lia|done]. Qed.

Lemma rfc_key_long key : 64 < zlen key ->
  rfc_key code_sha256 key = code_sha256 key ++ zeros (64 - zlen (code_sha256 key)).
Proof. intros H. unfold rfc_key. destruct (Z.ltb_spec 64 (zlen key)); [done|lia]. Qed.

(** The part of hmac.c after the key was shortened. *)
Lemma hmac_buffer k data datalen (mi mo : bytes) :
  mi = map (fun b => b ^^ 0x36) k -> mo = map (fun b => b ^^ 0x5c) k -> zlen k = 64 ->
  0 <= datalen <= 1024 -> datalen <= zlen data ->
  (buf ← memcpy (zeros (64 + 1024)) 0 mi 0 64;
   buf ← memcpy buf 64 data 0 datalen;
   inner ← sha256_hash (Some buf) (64 + datalen);
   buf ← memcpy buf 0 mo 0 64;
   buf ← memcpy buf 64 (default [] inner) 0 32;
   out ← sha256_hash (Some buf) (64 + 32);
   mret (default [] out)) =
  Ret (code_sha256 (mo ++ code_sha256 (mi ++ sub data 0 datalen))).
Proof.
  intros Ei Eo Hk Hd Hl.
  assert (Hi : zlen mi = 64) by (by rewrite Ei, zlen_map).
  assert (Ho : zlen mo = 64) by (by rewrite Eo, zlen_map). clear Ei Eo.
  rewrite memcpy_start by (rewrite ?zlen_zeros; lia). bind_step. rewrite sub_all by lia.
  set (z := drop _ (zeros _)).
  assert (Hz : zlen z = 1024) by (unfold z, zlen, zeros; rewrite length_drop, length_replicate; lia).
  rewrite memcpy_app by lia. bind_step.
  set (z1 := drop _ z). assert (Hz1 : zlen z1 = 1024 - datalen)
    by (unfold z1, zlen in *; rewrite length_drop; lia).
  assert (Hs : zlen (sub data 0 datalen) = datalen) by (apply zlen_sub; lia).
  rewrite sha256_hash_eq by (rewrite ?zlen_app; lia). bind_step. cbn [from_option id].
  assert (E : sub (mi ++ sub data 0 datalen ++ z1) 0 (64 + datalen) = mi ++ sub data 0 datalen)
    by (rewrite app_assoc; apply sub_app_l; rewrite zlen_app; lia).
  rewrite E.
  rewrite memcpy_start by (rewrite ?zlen_app; lia). bind_step. rewrite sub_all by lia.
  rewrite (drop_app_le mi), (drop_ge mi) by (unfold zlen in *; lia). cbn [app].
  rewrite memcpy_app by (rewrite ?zlen_app, ?zlen_code_sha256; lia).
  bind_step. rewrite sub_all by (rewrite ?zlen_code_sha256; lia).
  rewrite sha256_hash_eq; [|rewrite !zlen_app, zlen_code_sha256|]; [|pose proof (zlen_nonneg (drop (Z.to_nat 32) (sub data 0 datalen ++ z1))); lia..].
  bind_step. cbn [from_option id]. rewrite app_assoc, sub_app_l; [reflexivity|].
  rewrite zlen_app, zlen_code_sha256. lia.
Qed.

(** Only the first [n] bytes of the key are read. *)
Lemma mask_sub key n p : 0 <= n ->
  for_loop 0 n (fun i p => zset p i (zget p i ^^ zget key i)) p =
  for_loop 0 n (fun i p => zset p i (zget p i ^^ zget (sub key 0 n) i)) p.
Proof.
  intros Hn. unfold for_loop. apply fold_left_ext_in. intros q i Hi. do 2 f_equal.
  unfold zget, sub. apply elem_of_seqZ in Hi. by rewrite drop_0, !nth_lookup, lookup_take_lt by lia.
Qed.

Lemma hmac_sha256_eq key keylen data datalen :
  0 <= keylen <= zlen key -> keylen < 2 ^ 31 -> 0 <= datalen <= 1024 -> datalen <= zlen data ->
  hmac_sha256 key keylen data datalen =
  Ret (rfc_hmac code_sha256 (sub key 0 keylen) (sub data 0 datalen)).
Proof.
  intros Hk Hks Hd Hl. unfold hmac_sha256, rfc_hmac.
  pose proof (zlen_rfc_key code_sha256 (sub key 0 keylen) (zlen_code_sha256 _)) as Hz.
  assert (Hsub : zlen (sub key 0 keylen) = keylen) by (apply zlen_sub; lia).
  destruct (Z.ltb_spec 64 keylen) as [Hgt|Hle].
  - rewrite sha256_hash_eq by lia. bind_step. cbn [from_option id].
    replace (zlen (code_sha256 _) <? 32) with false by (symmetry; rewrite zlen_code_sha256; zbool).
    rewrite rfc_key_long in * by lia. cbv zeta. rewrite <- !mask_key, zlen_code_sha256
      by (rewrite zlen_code_sha256; lia).
    eapply hmac_buffer; try exact Hz; try lia.
    all: rewrite <- mask_key by (rewrite zlen_code_sha256; lia); by rewrite zlen_code_sha256.
  - bind_step. replace (zlen key <? keylen) with false by (symmetry; zbool).
    rewrite rfc_key_short in * by lia. cbv zeta. rewrite <- !mask_key, Hsub by lia.
    rewrite <- !(mask_sub key) by lia.
    eapply hmac_buffer; try exact Hz; try lia.
    all: rewrite <- mask_key, Hsub by lia; apply mask_sub; lia.
Qed.

(** ** Lemmas: PBKDF2 *)

Lemma byte_of_be v k : 0 <= k -> (v >>> (8 * k)) &&& 0xFF = v / 256 ^ k mod 256.
Proof.
  intros Hk. change 0xFF with (Z.ones 8). rewrite Z.land_ones, Z.shiftr_div_pow2 by lia.
  by rewrite Z.pow_mul_r by lia.
Qed.

Lemma be_bytes_4 v :
  be_bytes 4 v = [(v >>> 24) &&& 0xFF; (v >>> 16) &&& 0xFF; (v >>> 8) &&& 0xFF; v &&& 0xFF].
Proof.
  pose proof (byte_of_be v 3 ltac:(lia)) as E3. pose proof (byte_of_be v 2 ltac:(lia)) as E2.
  pose proof (byte_of_be v 1 ltac:(lia)) as E1.
  change (8 * 3) with 24 in E3. change (8 * 2) with 16 in E2. change (8 * 1) with 8 in E1.
  rewrite E3, E2, E1.
  change 0xFF with (Z.ones 8). rewrite Z.land_ones by lia.
  unfold be_bytes. cbn [le_bytes rev app]. rewrite !Z.div_div by lia. reflexivity.
Qed.

Lemma pbkdf2_salt_eq salt salt_len block :
  0 <= salt_len <= zlen salt -> salt_len + 4 < 2 ^ 32 ->
  pbkdf2_salt salt salt_len block = Ret (sub salt 0 salt_len ++ be_bytes 4 block).
Proof.
  intros Hs H4. unfold pbkdf2_salt. rewrite !wrap_small by (unfold in_u; lia).
  rewrite memcpy_zeros by lia. bind_step.
  replace (salt_len + 4 - salt_len) with 4 by lia. change (zeros 4) with [0; 0; 0; 0].
  assert (Hz : zlen (sub salt 0 salt_len) = salt_len) by (apply zlen_sub; lia).
  do 3 (rewrite wr_app by (rewrite ?zlen_app, Hz; unfold zlen; cbn [length]; lia); bind_step).
  rewrite wr_app by (rewrite ?zlen_app, Hz; unfold zlen; cbn [length]; lia).
  rewrite be_bytes_4, app_nil_r, <- !app_assoc. reflexivity.
Qed.

Lemma xor_loop_32 f u : zlen f = 32 -> zlen u = 32 ->
  for_loop 0 32 (fun j f => zset f j (zget f j ^^ zget u j)) f = xor_bytes f u.
Proof. intros Hf Hu. apply (for_loop_zip Z.lxor); lia. Qed.

Lemma zlen_rfc_hmac key m : zlen (rfc_hmac code_sha256 key m) = 32.
Proof. apply zlen_code_sha256. Qed.

Lemma zlen_xor_bytes a b : zlen a = zlen b -> zlen (xor_bytes a b) = zlen a.
Proof. unfold zlen. rewrite length_xor_bytes. lia. Qed.

Lemma zlen_rfc_xor n password : forall u f,
  zlen f = 32 -> zlen (rfc_xor code_sha256 n password u f) = 32.
Proof.
  induction n as [|n IH]; intros u f Hf; [done|]. cbn [rfc_xor]. apply IH.
  by rewrite zlen_xor_bytes; rewrite ?zlen_rfc_hmac.
Qed.

(** The iteration loop ends, and is the iterated XOR, for every count below
    [2^32 - 1] (at [2^32 - 1] the counter never exceeds the bound). *)
Lemma pbkdf2_iter_eq fuel : forall i c password plen u f,
  0 <= plen <= zlen password -> plen < 2 ^ 32 -> zlen u = 32 -> zlen f = 32 ->
  0 <= i <= c + 1 -> c < 2 ^ 32 - 1 -> c + 1 - i <= Z.of_nat fuel ->
  pbkdf2_iter fuel i c password plen u f =
  Ret (rfc_xor code_sha256 (Z.to_nat (c + 1 - i)) (sub password 0 plen) u f).
Proof.
  induction fuel as [|fuel IH]; intros i c password plen u f Hp Hp2 Hu Hf Hi Hc Hfuel.
  - cbn [pbkdf2_iter]. replace (i <=? c) with false by (symmetry; zbool). cbn [negb].
    by replace (Z.to_nat (c + 1 - i)) with 0%nat by lia.
  - cbn [pbkdf2_iter]. destruct (Z.leb_spec i c) as [Hle|Hgt]; cbn [negb].
    + rewrite crypto_hmac_eq by lia. bind_step. rewrite (sub_all u) by lia.
      rewrite xor_loop_32 by (rewrite ?zlen_rfc_hmac; lia).
      rewrite wrap_small by (unfold in_u; lia). rewrite IH; try assumption; try lia.
      * replace (Z.to_nat (c + 1 - i)) with (S (Z.to_nat (c + 1 - (i + 1)))) by lia. reflexivity.
      * apply zlen_rfc_hmac.
      * by rewrite zlen_xor_bytes; rewrite ?zlen_rfc_hmac.
    + by replace (Z.to_nat (c + 1 - i)) with 0%nat by lia.
Qed.

Lemma pbkdf2_block_eq password plen salt slen c block :
  0 <= plen <= zlen password -> plen < 2 ^ 32 -> 0 <= slen <= zlen salt -> slen + 4 < 2 ^ 32 ->
  1 <= c < 2 ^ 32 - 1 ->
  pbkdf2_block password plen salt slen c block =
  Ret (rfc_F code_sha256 (sub password 0 plen) (sub salt 0 slen) c block).
Proof.
  intros Hp Hp2 Hs Hs4 Hc. unfold pbkdf2_block. rewrite pbkdf2_salt_eq by lia. bind_step.
  assert (Hl : zlen (sub salt 0 slen ++ be_bytes 4 block) = slen + 4)
    by (rewrite zlen_app, zlen_sub by lia; reflexivity).
  rewrite (wrap_small 32 (slen + 4)) by (unfold in_u; lia).
  rewrite crypto_hmac_eq by lia. bind_step. rewrite (sub_all (_ ++ _)) by lia.
  rewrite pbkdf2_iter_eq by (rewrite ?zlen_rfc_hmac; lia). unfold rfc_F. cbv zeta.
  by replace (c + 1 - 2) with (c - 1) by lia.
Qed.

Lemma zlen_rfc_F password salt c i : zlen (rfc_F code_sha256 password salt c i) = 32.
Proof. apply zlen_rfc_xor, zlen_rfc_hmac. Qed.

(** Every turn copies the rest of the key, but at most one block of it. *)
Lemma copy_len_eq block blocks_needed kl turns :
  0 < kl -> (kl + 31) / 32 = turns -> block + turns = blocks_needed + 1 ->
  (if (block =? blocks_needed) && negb (kl mod 32 =? 0) then kl mod 32
   else if kl <? 32 then kl else 32) = Z.min kl 32.
Proof.
  intros Hk Ht Hb. destruct (Z.eqb_spec block blocks_needed), (Z.eqb_spec (kl mod 32) 0),
    (Z.ltb_spec kl 32); cbn [andb negb]; dlia.
Qed.

Lemma pbkdf2_loop_eq password plen salt slen c blocks_needed :
  0 <= plen <= zlen password -> plen < 2 ^ 32 -> 0 <= slen <= zlen salt -> slen + 4 < 2 ^ 32 ->
  1 <= c < 2 ^ 32 - 1 ->
  forall turns block dk kl, 0 <= kl -> (kl + 31) / 32 = Z.of_nat turns ->
  block + Z.of_nat turns = blocks_needed + 1 -> 1 <= block ->
  (block - 1) * 32 + kl <= zlen dk -> (block - 1) * 32 + kl < 2 ^ 32 - 31 ->
  pbkdf2_loop turns password plen salt slen c blocks_needed block dk kl =
  Ret (splice dk ((block - 1) * 32)
         (sub (concat (map (rfc_F code_sha256 (sub password 0 plen) (sub salt 0 slen) c)
                           (seqZ block (Z.of_nat turns)))) 0 kl)).
Proof.
  intros Hp Hp2 Hs Hs4 Hc turns.
  induction turns as [|turns IH]; intros block dk kl Hk Ht Hb H1 Hd Hw.
  { cbn [pbkdf2_loop]. change (seqZ block (Z.of_nat 0)) with (@nil Z). cbn [map concat].
    unfold sub. by rewrite drop_nil, take_nil, splice_nil by lia. }
  assert (Hkl : 0 < kl) by dlia.
  cbn [pbkdf2_loop]. rewrite pbkdf2_block_eq by lia. bind_step.
  rewrite (copy_len_eq block blocks_needed kl (Z.of_nat (S turns))) by lia.
  set (f := rfc_F code_sha256 _ _ _). pose proof (zlen_rfc_F (sub password 0 plen) (sub salt 0 slen) c) as Hf.
  fold f in Hf. rewrite seqZ_cons, Nat2Z.inj_succ, Z.pred_succ by lia. cbn [map concat].
  rewrite !wrap_small by (unfold in_u; lia).
  rewrite memcpy_ok by (rewrite ?Hf; lia). bind_step.
  assert (Hz : zlen (sub (f block) 0 (Z.min kl 32)) = Z.min kl 32)
    by (apply zlen_sub; rewrite ?Hf; lia).
  destruct (Z.le_gt_cases kl 32) as [Hle|Hgt].
  - assert (turns = 0%nat) as -> by dlia. cbn [pbkdf2_loop].
    change (seqZ (Z.succ block) (Z.of_nat 0)) with (@nil Z). cbn [map concat].
    rewrite app_nil_r. do 2 f_equal. by rewrite Z.min_l by lia.
  - rewrite Z.min_r in * by lia. rewrite IH; try lia; [|dlia|rewrite zlen_splice by lia; lia].
    f_equal. rewrite sub_app_ge, Hf by (rewrite Hf; lia).
    replace (Z.succ block) with (block + 1) by lia.
    rewrite <- splice_splice, Hf; rewrite ?Hf.
    + rewrite sub_all by (by rewrite Hf). f_equal. lia.
    + lia.
    + unfold sub, zlen in *. rewrite length_take. lia.
Qed.

(** ** Properties *)

(** C19. The HMAC of crypto.c is the RFC 2104 construction over the code's hash
    for every key and message, and the one of hmac.c computes the same value
    whenever its 1024-byte buffer suffices. *)
Theorem hmac_functional key keylen data datalen :
  0 <= keylen <= zlen key -> keylen < 2 ^ 31 -> 0 <= datalen <= zlen data -> datalen < 2 ^ 31 ->
  crypto_hmac_sha256 key keylen data datalen =
    Ret (rfc_hmac code_sha256 (sub key 0 keylen) (sub data 0 datalen)) /\
  (datalen <= 1024 ->
   hmac_sha256 key keylen data datalen = crypto_hmac_sha256 key keylen data datalen).
Proof.
  intros Hk Hks Hd Hds. rewrite crypto_hmac_eq by lia. split; [reflexivity|].
  intros H. apply hmac_sha256_eq; lia.
Qed.

Lemma hmac_functional_witness :
  hmac_sha256 [1; 2] 2 [3; 4; 5] 3 = crypto_hmac_sha256 [1; 2] 2 [3; 4; 5] 3.
Proof.
  apply (proj2 (hmac_functional [1; 2] 2 [3; 4; 5] 3 ltac:(by vm_compute) ltac:(by vm_compute)
    ltac:(by vm_compute) ltac:(by vm_compute))). lia.
Defined.

(** A message of more than 1024 bytes overruns the stack buffer of
    [hmac_sha256]. *)
Theorem hmac_c_overflow key keylen data datalen :
  0 <= keylen <= zlen key -> keylen <= 64 -> 1024 < datalen ->
  hmac_sha256 key keylen data datalen = UB.
Proof.
  intros Hk H64 Hd. unfold hmac_sha256.
  replace (64 <? keylen) with false by (symmetry; zbool). bind_step.
  replace (zlen key <? keylen) with false by (symmetry; zbool).
  set (mi := for_loop 0 keylen _ (replicate 64 0x36)). assert (Hi : zlen mi = 64).
  { unfold mi, zlen. by rewrite (for_loop_zset_length 0 keylen (fun i x => x ^^ zget key i)). }
  rewrite memcpy_start by (rewrite ?zlen_zeros; lia). bind_step.
  rewrite memcpy_overrun; [reflexivity|]. rewrite zlen_app, zlen_sub by lia.
  unfold zlen, zeros. rewrite length_drop, length_replicate. lia.
Qed.

Lemma hmac_c_overflow_witness : hmac_sha256 [] 0 (zeros 1025) 1025 = UB.
Proof. apply hmac_c_overflow; [split; by vm_compute|lia..]. Defined.

(** C26. For any non-zero iteration count below [2^32 - 1] and any key length the
    32-bit block count can represent, [crypto_pbkdf2_sha256] ends and writes
    exactly the RFC 8018 key (over the code's HMAC) at the start of the output
    buffer, leaving the rest of the buffer as it was. *)
Theorem pbkdf2_functional password plen salt slen c dk key_len :
  0 <= plen <= zlen password -> plen < 2 ^ 32 -> 0 <= slen <= zlen salt -> slen + 4 < 2 ^ 32 ->
  1 <= c < 2 ^ 32 - 1 -> 0 < key_len < 2 ^ 32 - 31 -> key_len <= zlen dk ->
  crypto_pbkdf2_sha256 (Some password) plen (Some salt) slen c (Some dk) key_len =
  Ret (CRYPTO_SUCCESS,
       Some (splice dk 0 (rfc_pbkdf2 code_sha256 (sub password 0 plen) (sub salt 0 slen) c key_len))).
Proof.
  intros Hp Hp2 Hs Hs4 Hc Hk Hd. unfold crypto_pbkdf2_sha256.
  replace ((c =? 0) || (key_len =? 0)) with false by (symmetry; zbool).
  rewrite wrap_small by (unfold in_u; lia). cbv zeta.
  rewrite pbkdf2_loop_eq by dlia. bind_step. unfold rfc_pbkdf2.
  by rewrite Z2Nat.id by dlia.
Qed.

Lemma pbkdf2_functional_witness :
  crypto_pbkdf2_sha256 (Some [1]) 1 (Some [2; 3]) 2 1000 (Some (zeros 40)) 33 =
  Ret (CRYPTO_SUCCESS,
       Some (splice (zeros 40) 0 (rfc_pbkdf2 code_sha256 (sub [1] 0 1) (sub [2; 3] 0 2) 1000 33))).
Proof. apply pbkdf2_functional; first [lia | split; by vm_compute | by vm_compute]. Defined.

(** A key length above [2^32 - 32] wraps the block count to 0: the call
    reports success and derives nothing. *)
Theorem pbkdf2_key_len_wrap password plen salt slen c dk key_len :
  c <> 0 -> 2 ^ 32 - 31 <= key_len < 2 ^ 32 ->
  crypto_pbkdf2_sha256 (Some password) plen (Some salt) slen c (Some dk) key_len =
  Ret (CRYPTO_SUCCESS, Some dk).
Proof.
  intros Hc Hk. unfold crypto_pbkdf2_sha256.
  replace ((c =? 0) || (key_len =? 0)) with false by (symmetry; zbool).
  unfold wrap. assert (E : (key_len + 31) mod 2 ^ 32 / 32 = 0) by dlia.
  rewrite E. reflexivity.
Qed.

Lemma pbkdf2_key_len_wrap_witness :
  crypto_pbkdf2_sha256 (Some []) 0 (Some []) 0 1 (Some [7]) (2 ^ 32 - 31) =
  Ret (CRYPTO_SUCCESS, Some [7]).
Proof. apply pbkdf2_key_len_wrap; lia. Defined.
