(* ===== verification/Rng.v ===== *)
(** * Random numbers and hardware flags (src/security/crypto.c, src/security/entropy.c)

    The global XORShift128 generator with its seeding, [entropy_get] over the
    hardware's answers, and the hardware-acceleration flags. *)

From S2P Require Import Prelude Sha256 CryptoMem.

(** ** [entropy_get] (src/security/entropy.c)

    What one call reads from the machine: the results of [rdrand] and [rdseed]
    ([None]: carry clear), the two reads of the word at 0x80000000, the stack
    addresses [&t] and [pool], and the low half of the time-stamp counter. *)
Record hw_sample := mk_hw {
  hw_rdrand : option Z;
  hw_rdseed : option Z;
  hw_word_test : Z;
  hw_word : Z;
  hw_t_addr : Z;
  hw_tsc : Z;
  hw_pool_addr : Z
}.

Definition rdrand (s : hw_sample) : option Z := hw_rdrand s.
Definition rdseed (s : hw_sample) : option Z := hw_rdseed s.

Definition uefi_random (s : hw_sample) : Z :=
  if hw_word_test s =? 0 then 0 else u32 (hw_word s).

Definition timing_jitter (s : hw_sample) : Z :=
  let t := for_loop 0 1000 (fun i t => u32 (t + i * hw_t_addr s)) 0 in
  u32 (t ^^ hw_t_addr s).

Definition entropy_pool (s : hw_sample) : bytes :=
  let v := match rdrand s with
           | Some v => u32 v
           | None => match rdseed s with Some v => u32 v | None => 0 end
           end in
  le_bytes 4 v ++ le_bytes 4 (uefi_random s) ++ le_bytes 4 (timing_jitter s) ++
  le_bytes 4 (u32 (hw_tsc s)) ++
  concat (map (fun i => le_bytes 4 (u32 (hw_pool_addr s + i))) [16; 20; 24; 28]).

Definition entropy_get (s : hw_sample) : run Z :=
  h ← sha256_hash (Some (entropy_pool s)) 32;
  rd_le (default [] h) 0 4.

(** ** The generator *)

Record rng := mk_rng { g_rng_state : list Z; g_rng_initialized : bool }.

(** [samples] are what the four calls of [entropy_get] see. *)
Definition crypto_random_init (g : rng) (s0 s1 s2 s3 : hw_sample) : run (Z * rng) :=
  e0 ← entropy_get s0;
  e1 ← entropy_get s1;
  e2 ← entropy_get s2;
  e3 ← entropy_get s3;
  mret (CRYPTO_SUCCESS,
        mk_rng [e0; e1 ^^ 0xDEADBEEF; e2 ^^ 0xCAFEBABE; e3 ^^ 0xFEEDFACE] true).

Definition xorshift (st : list Z) : list Z :=
  let t := zget st 3 in
  let s := zget st 0 in
  let t := t ^^ u32 (t <<< 11) in
  let t := t ^^ (t >>> 8) in
  [t ^^ s ^^ (s >>> 19); s; zget st 1; zget st 2].

(** [value_ok]: [value] is not NULL. *)
Definition crypto_random_uint32 (g : rng) (value_ok : bool) : Z * rng * option Z :=
  if negb (g_rng_initialized g) || negb value_ok then (CRYPTO_ERROR_INVALID_PARAM, g, None)
  else let st := xorshift (g_rng_state g) in
       (CRYPTO_SUCCESS, mk_rng st (g_rng_initialized g), Some (zget st 0)).

(** [for (i = 0; i < len; i += 4)] with a 32-bit [i]. *)
Fixpoint random_bytes_loop (fuel : nat) (g : rng) (buf : bytes) (len i : Z)
  : run (Z * rng * bytes) :=
  if negb (i <? len) then Ret (CRYPTO_SUCCESS, g, buf)
  else match fuel with
       | O => OutOfFuel
       | S fuel' =>
           match crypto_random_uint32 g true with
           | (_, g', Some v) =>
               let copy_len := if u32 (len - i) <? 4 then u32 (len - i) else 4 in
               buf' ← memcpy buf i (le_bytes 4 v) 0 copy_len;
               random_bytes_loop fuel' g' buf' len (u32 (i + 4))
           | (result, g', None) => Ret (result, g', buf)
           end
       end.

Definition crypto_random_bytes (g : rng) (buf : option bytes) (len : Z)
  : run (Z * rng * option bytes) :=
  match buf with
  | None => mret (CRYPTO_ERROR_INVALID_PARAM, g, None)
  | Some b =>
      if len =? 0 then mret (CRYPTO_ERROR_INVALID_PARAM, g, Some b)
      else r ← random_bytes_loop (Z.to_nat len) g b len 0;
           let '(code, g', b') := r in mret (code, g', Some b')
  end.

Definition crypto_random_cleanup (g : rng) : rng :=
  mk_rng (for_loop 0 4 (fun i p => zset p i 0) (g_rng_state g)) false.

(** ** Hardware acceleration flags *)

Definition CRYPTO_HW_NONE : Z := 0.
Definition CRYPTO_HW_INTEL_AESNI : Z := 1.
Definition CRYPTO_HW_INTEL_SHA : Z := 8.

(** [ecx] of CPUID leaf 1 and [ebx] of CPUID leaf 7. *)
Definition crypto_detect_hardware_support (ecx ebx : Z) : Z :=
  let support := CRYPTO_HW_NONE in
  let support := if (ecx &&& (1 <<< 25)) =? 0 then support
                 else support ||| CRYPTO_HW_INTEL_AESNI in
  if (ebx &&& (1 <<< 29)) =? 0 then support else support ||| CRYPTO_HW_INTEL_SHA.

(** The new value of [g_hw_support]. *)
Definition crypto_init_hardware_acceleration (ecx ebx hw_mask : Z) : Z * Z :=
  (CRYPTO_SUCCESS, crypto_detect_hardware_support ecx ebx &&& hw_mask).

Definition crypto_cleanup_hardware (g_hw_support : Z) : Z := CRYPTO_HW_NONE.

Definition crypto_cleanup_all_contexts (g : rng) (g_hw_support : Z) : rng * Z :=
  (crypto_random_cleanup g, crypto_cleanup_hardware g_hw_support).

(** ** Lemmas *)

(** The generator's words are 32-bit and not all zero. *)
Definition rng_wf (st : list Z) : Prop := length st = 4%nat /\ Forall (in_u 32) st.
Definition rng_live (st : list Z) : Prop := exists x, x ∈ st /\ x <> 0.

Lemma rng_wf_get st i : rng_wf st -> in_u 32 (zget st i).
Proof.
  intros [_ H]. unfold zget. destruct (nth_in_or_default (Z.to_nat i) st 0) as [Hin| ->].
  - by eapply (proj1 (List.Forall_forall _ _) H).
  - unfold in_u. lia.
Qed.

(** Both linear maps of the step lose nothing. *)
Lemma shl_xor_zero t : in_u 32 t -> t ^^ u32 (t <<< 11) = 0 -> t = 0.
Proof.
  intros Ht H. rewrite Z.lxor_eq_0_iff in H. rewrite Z.shiftl_mul_pow2 in H by lia.
  unfold wrap, in_u in *. change (2 ^ 11) with 2048 in H.
  assert (D : (2 ^ 32 | 2047 * t)).
  { exists (t * 2048 / 2 ^ 32). pose proof (Z.div_mod (t * 2048) (2 ^ 32) ltac:(lia)) as E. lia. }
  apply Z.gauss in D; [|reflexivity].
  destruct D as [k D]. lia.
Qed.

Lemma shr_xor_zero t : in_u 32 t -> t ^^ (t >>> 8) = 0 -> t = 0.
Proof.
  intros Ht H. rewrite Z.lxor_eq_0_iff in H. rewrite Z.shiftr_div_pow2 in H by lia.
  unfold in_u in *. change (2 ^ 8) with 256 in H. dlia.
Qed.

Lemma xorshift_wf st : rng_wf st -> rng_wf (xorshift st).
Proof.
  intros H. split; [reflexivity|]. unfold xorshift.
  assert (G := fun i => rng_wf_get st i H).
  repeat apply Forall_cons_2; auto 8 with cbounds.
Qed.

Lemma xorshift_live st : rng_wf st -> rng_live st -> rng_live (xorshift st).
Proof.
  intros Hw (x & Hx & Hnz). assert (G := fun i => rng_wf_get st i Hw).
  destruct Hw as [Hl Hf]. destruct st as [|a [|b [|c [|d [|]]]]]; try discriminate Hl.
  unfold xorshift. change (zget [a; b; c; d] 3) with d. change (zget [a; b; c; d] 0) with a.
  change (zget [a; b; c; d] 1) with b. change (zget [a; b; c; d] 2) with c.
  destruct (decide (a = 0)) as [->|Ha]; [|exists a; split; [set_solver|assumption]].
  destruct (decide (b = 0)) as [->|Hb]; [|exists b; split; [set_solver|assumption]].
  destruct (decide (c = 0)) as [->|Hc]; [|exists c; split; [set_solver|assumption]].
  assert (Hd : d <> 0) by set_solver. pose proof (G 3) as Gd. change (in_u 32 d) in Gd.
  eexists. split; [left|]. rewrite Z.shiftr_0_l, !Z.lxor_0_r. intros E.
  apply shr_xor_zero in E; [|auto with cbounds]. by apply shl_xor_zero in E.
Qed.

(** The successive outputs of the generator. *)
Fixpoint outputs (n : nat) (st : list Z) : list Z :=
  match n with
  | O => []
  | S n' => let st' := xorshift st in zget st' 0 :: outputs n' st'
  end.

Definition states (n : nat) (st : list Z) : list Z := Nat.iter n xorshift st.

Definition stream (n : nat) (st : list Z) : bytes := concat (map (le_bytes 4) (outputs n st)).

Lemma states_S n st : states (S n) st = states n (xorshift st).
Proof. unfold states. rewrite Nat.iter_succ_r. reflexivity. Qed.

#[local] Opaque xorshift.

(** [n] turns are left when [4 * (n - 1) < len - i <= 4 * n]. *)
Lemma random_bytes_loop_eq n : forall fuel st buf len i,
  0 <= i -> i <= len \/ n = 0%nat -> (n = 0%nat -> len <= i) ->
  (n <> 0%nat -> 4 * (Z.of_nat n - 1) < len - i <= 4 * Z.of_nat n) ->
  len <= zlen buf -> len <= 2 ^ 32 - 4 -> (n <= fuel)%nat ->
  random_bytes_loop fuel (mk_rng st true) buf len i =
  Ret (CRYPTO_SUCCESS, mk_rng (states n st) true,
       if decide (n = 0%nat) then buf else splice buf i (sub (stream n st) 0 (len - i))).
Proof.
  induction n as [|n IH]; intros fuel st buf len i Hi Hil H0 Hn Hb Hw Hf.
  { destruct fuel; cbn [random_bytes_loop];
      (replace (i <? len) with false by (symmetry; zbool; by apply H0)); reflexivity. }
  specialize (Hn ltac:(lia)). destruct fuel as [|fuel]; [lia|].
  rewrite decide_False by lia. cbn [random_bytes_loop].
  replace (i <? len) with true by (symmetry; zbool). cbn [negb].
  unfold crypto_random_uint32. cbn [g_rng_initialized g_rng_state negb orb].
  set (v := zget (xorshift st) 0). rewrite !wrap_small by (unfold in_u; lia).
  assert (Hl4 : zlen (le_bytes 4 v) = 4) by (unfold zlen; by rewrite length_le_bytes).
  set (cl := if len - i <? 4 then len - i else 4).
  assert (Hcl : cl = Z.min (len - i) 4) by (unfold cl; destruct (Z.ltb_spec (len - i) 4); lia).
  clearbody cl. rewrite memcpy_ok by lia. bind_step.
  assert (Hs : zlen (sub (le_bytes 4 v) 0 cl) = cl) by (apply zlen_sub; lia).
  rewrite (IH fuel (xorshift st)); try (rewrite ?zlen_splice; lia).
  rewrite states_S. do 3 f_equal. unfold stream. cbn [outputs map concat]. fold v.
  change (concat (map (le_bytes 4) (outputs n (xorshift st)))) with (stream n (xorshift st)).
  destruct (decide (n = 0%nat)) as [->|Hne].
  - rewrite sub_app_le by lia. do 2 f_equal. lia.
  - rewrite sub_app_ge by lia. rewrite Hcl, Z.min_r by lia.
    rewrite (sub_all (le_bytes 4 v)) by lia. rewrite Hl4.
    replace (len - (i + 4)) with (len - i - 4) by lia.
    rewrite <- Hl4 at 1. apply splice_splice; [lia|]. rewrite Hl4. unfold sub, zlen in *.
    rewrite length_take. lia.
Qed.

Lemma zlen_stream n : forall st, zlen (stream n st) = 4 * Z.of_nat n.
Proof.
  unfold stream. induction n as [|n IH]; intros st; [done|]. cbn [outputs map concat].
  rewrite zlen_app, IH. unfold zlen at 1. rewrite length_le_bytes. lia.
Qed.

#[local] Transparent xorshift.

(** ** Properties *)

(** Every step of the generator keeps four 32-bit words that are not all
    zero: once seeded with a non-zero state it never reaches the fixed point 0. *)
Theorem rng_step_invariant g code g' v :
  rng_wf (g_rng_state g) -> rng_live (g_rng_state g) ->
  crypto_random_uint32 g true = (code, g', v) ->
  rng_wf (g_rng_state g') /\ rng_live (g_rng_state g') /\
  g_rng_initialized g' = g_rng_initialized g.
Proof.
  intros Hw Hl. unfold crypto_random_uint32.
  destruct (g_rng_initialized g) eqn:E; cbn [negb orb]; intros [= <- <- <-].
  - cbn [g_rng_state g_rng_initialized]. auto using xorshift_wf, xorshift_live.
  - auto.
Qed.

Lemma rng_step_invariant_witness :
  rng_live (xorshift [1; 2; 3; 4]).
Proof.
  apply (rng_step_invariant (mk_rng [1; 2; 3; 4] true) CRYPTO_SUCCESS
    (mk_rng (xorshift [1; 2; 3; 4]) true) (Some (zget (xorshift [1; 2; 3; 4]) 0))).
  - split; [reflexivity|]. repeat apply Forall_cons_2; first [apply Forall_nil_2 | unfold in_u; lia].
  - exists 1. split; [left|lia].
  - reflexivity.
Defined.

(** [crypto_random_bytes] on a seeded generator ends, fills exactly the first
    [len] bytes of the buffer with the little-endian bytes of the successive
    outputs, and advances the state by one step per four bytes. *)
Theorem random_bytes_functional st buf len :
  0 < len <= 2 ^ 32 - 4 -> len <= zlen buf ->
  let n := Z.to_nat ((len + 3) / 4) in
  crypto_random_bytes (mk_rng st true) (Some buf) len =
  Ret (CRYPTO_SUCCESS, mk_rng (states n st) true,
       Some (sub (stream n st) 0 len ++ drop (Z.to_nat len) buf)).
Proof.
  intros Hl Hb n. unfold crypto_random_bytes. destruct (Z.eqb_spec len 0); [lia|].
  rewrite (random_bytes_loop_eq n) by (unfold n; dlia). bind_step.
  destruct (decide (n = 0%nat)) as [E|E]; [unfold n in E; dlia|].
  do 3 f_equal. unfold splice. rewrite take_0. cbn [app]. rewrite Z.sub_0_r.
  rewrite length_sub; [reflexivity|lia|lia|]. rewrite zlen_stream. unfold n. dlia.
Qed.

Lemma random_bytes_functional_witness :
  crypto_random_bytes (mk_rng [1; 2; 3; 4] true) (Some (zeros 8)) 6 =
  Ret (CRYPTO_SUCCESS, mk_rng (states 2 [1; 2; 3; 4]) true,
       Some (sub (stream 2 [1; 2; 3; 4]) 0 6 ++ drop 6 (zeros 8))).
Proof. apply random_bytes_functional; [lia|by vm_compute]. Defined.
