(* ===== verification/Signature.v ===== *)
(** * Signatures, self-tests and verified loading
    (src/security/crypto.c, src/security/secure_boot.c, src/boot/secure.c)

    The byte-wise [mod_exp], [verify_signature] and [secure_boot_verify]; the
    self-tests of the crypto library; and the UEFI path that loads a kernel and
    checks its signature. *)

From S2P Require Import Prelude Sha256 CryptoMem Aes.

(** ** [mod_exp]

    Every byte of [result] is squared and multiplied on its own, modulo the
    byte of [mod] at the same index; a zero byte there is a division by 0. *)

(** [for (j = 0; j < out_len; j++) result[j] = (result[j] * b(j)) % mod[j];] *)
Fixpoint mul_mod_bytes (result b modulus : bytes) : run bytes :=
  match result, b, modulus with
  | [], _, _ => Ret []
  | r :: result', x :: b', m :: modulus' =>
      if m =? 0 then UB
      else rest ← mul_mod_bytes result' b' modulus';
           mret ((r * x) mod m :: rest)
  | _, _, _ => UB
  end.

Definition exp_bit (e : bytes) (i : Z) : Z := (zget e (i / 8) >>> (7 - i mod 8)) &&& 1.

Fixpoint mod_exp_loop (n : nat) (base e modulus : bytes) (i : Z) (result : bytes) : run bytes :=
  match n with
  | O => Ret result
  | S n' =>
      result ← mul_mod_bytes result result modulus;
      result ← (if exp_bit e i =? 0 then Ret result else mul_mod_bytes result base modulus);
      mod_exp_loop n' base e modulus (i + 1) result
  end.

(** The first [out_len] bytes of [result]; the call site passes
    [out_len = mod_len = 256], within the 512 bytes of the array. *)
Definition mod_exp (base e : bytes) (exp_len : Z) (modulus : bytes) (out_len : Z) : run bytes :=
  if (out_len <? 1) || (512 <? out_len) || (zlen e <? exp_len) then UB
  else mod_exp_loop (Z.to_nat (exp_len * 8)) base e modulus 0
         (zset (zeros out_len) (out_len - 1) 1).

(** ** [verify_signature] *)

Definition sha256_prefix : bytes :=
  [0x30; 0x31; 0x30; 0x0d; 0x06; 0x09; 0x60; 0x86; 0x48; 0x01;
   0x65; 0x03; 0x04; 0x02; 0x01; 0x05; 0x00; 0x04; 0x20].

(** [while (i < 256 && decrypted[i] == 0xFF) i++;] *)
Fixpoint skip_ff (fuel : nat) (decrypted : bytes) (i : Z) : Z :=
  match fuel with
  | O => i
  | S fuel' =>
      if (i <? 256) && (zget decrypted i =? 0xFF) then skip_ff fuel' decrypted (i + 1) else i
  end.

(** [memcmp(p + off, q, n) != 0] *)
Definition memcmp_at (p : bytes) (off : Z) (q : bytes) (n : Z) : run bool :=
  if (off + n <=? zlen p) && (n <=? zlen q)
  then Ret (bool_decide (sub p off n = sub q 0 n)) else UB.

Definition check_padding (decrypted hash : bytes) : run Z :=
  if negb (zget decrypted 0 =? 0) || negb (zget decrypted 1 =? 1) then mret 0
  else
    let i := skip_ff 254 decrypted 2 in
    d ← rd decrypted i;
    if negb (d =? 0) then mret 0
    else
      let i := i + 1 in
      eq1 ← memcmp_at decrypted i sha256_prefix 19;
      if negb eq1 then mret 0
      else eq2 ← memcmp_at decrypted (i + 19) hash 32;
           mret (if negb eq2 then 0 else 1).

Definition verify_signature (data : bytes) (len : Z) (signature public_key : bytes) : run Z :=
  h ← sha256_hash (Some data) len;
  if zlen public_key <? 516 then UB
  else decrypted ← mod_exp signature (sub public_key 4 256) 256 (sub public_key 260 256) 256;
       check_padding decrypted (default [] h).

(** [ksize] is an [int], converted to the [uint32_t] parameter. *)
Definition secure_boot_verify (kernel : bytes) (ksize : Z) (sig pubkey : bytes) : run Z :=
  verify_signature kernel (u32 ksize) sig pubkey.

(** ** Self-tests *)

Definition abc_expected : bytes :=
  concat [[0xba; 0x78; 0x16; 0xbf; 0x8f; 0x01; 0xcf; 0xea];
          [0x41; 0x41; 0x40; 0xde; 0x5d; 0xae; 0x22; 0x23];
          [0xb0; 0x03; 0x61; 0xa3; 0x96; 0x17; 0x7a; 0x9c];
          [0xb4; 0x10; 0xff; 0x61; 0xf2; 0x00; 0x15; 0xad]].

Definition crypto_self_test_sha256 : run Z :=
  h ← sha256_hash (Some [97; 98; 99]) 3;
  mret (if crypto_memcmp_constant_time (default [] h) abc_expected 32 =? 0
        then CRYPTO_SUCCESS else CRYPTO_ERROR_VERIFICATION_FAILED).

Definition crypto_self_test_aes : run Z :=
  let key := [0x2b; 0x7e; 0x15; 0x16; 0x28; 0xae; 0xd2; 0xa6;
              0xab; 0xf7; 0x15; 0x88; 0x09; 0xcf; 0x4f; 0x3c] in
  let plaintext := [0x32; 0x43; 0xf6; 0xa8; 0x88; 0x5a; 0x30; 0x8d;
                    0x31; 0x31; 0x98; 0xa2; 0xe0; 0x37; 0x07; 0x34] in
  let expected_ciphertext := [0x39; 0x25; 0x84; 0x1d; 0x02; 0xdc; 0x09; 0xfb;
                              0xdc; 0x11; 0x85; 0x97; 0x19; 0x6a; 0x0b; 0x32] in
  match crypto_aes_init true (Some key) 128 with
  | (code, Some ctx) =>
      if negb (code =? CRYPTO_SUCCESS) then mret CRYPTO_ERROR_VERIFICATION_FAILED
      else
        ciphertext ← crypto_aes_encrypt_block ctx plaintext;
        mret (if crypto_memcmp_constant_time ciphertext expected_ciphertext 16 =? 0
              then CRYPTO_SUCCESS else CRYPTO_ERROR_VERIFICATION_FAILED)
  | (_, None) => mret CRYPTO_ERROR_VERIFICATION_FAILED
  end.

Definition crypto_run_all_self_tests : run Z :=
  r ← crypto_self_test_sha256;
  if negb (r =? CRYPTO_SUCCESS) then mret CRYPTO_ERROR_VERIFICATION_FAILED
  else
    r ← crypto_self_test_aes;
    mret (if negb (r =? CRYPTO_SUCCESS) then CRYPTO_ERROR_VERIFICATION_FAILED else CRYPTO_SUCCESS).

(** ** The UEFI loading path (src/boot/secure.c)

    UEFI services and the EDK2 crypto library are parameters. *)

Section efi.
Variable Sha256HashAll : bytes -> option bytes.
(** The six arguments of the call: key, its size, digest, its size, signature, its
    size.  BaseCryptLib.h declares a function of five, with an RSA context first;
    what stands here is the function the call asks for. *)
Variable RsaPkcs1Verify : bytes -> Z -> bytes -> Z -> bytes -> Z -> bool.
(** [GetVariable name]: status and data. *)
Variable GetVariable : string -> Z * bytes.
(** [ReadFile name]: status and contents. *)
Variable ReadFile : string -> Z * bytes.

Definition VerifyImageSignature (image public_key : bytes) : Z :=
  if zlen image <? 256 then EFI_SECURITY_VIOLATION
  else
    let data_size := zlen image - 256 in
    match Sha256HashAll (sub image 0 data_size) with
    | None => EFI_SECURITY_VIOLATION
    | Some hash =>
        if negb (RsaPkcs1Verify public_key (zlen public_key) hash 32 (sub image data_size 256) 256)
        then EFI_SECURITY_VIOLATION else EFI_SUCCESS
    end.

Definition IsSecureBootEnabled : bool :=
  let '(status, data) := GetVariable "SecureBoot" in
  negb (EFI_ERROR status) && (zget data 0 =? 1).

(** Status, the image handed to the caller, and whether the buffer that
    [ReadFile] allocated was freed. *)
Definition LoadAndVerifyKernel (name : string) : Z * option bytes * bool :=
  let '(status, buffer) := ReadFile name in
  if EFI_ERROR status then (status, None, false)
  else if IsSecureBootEnabled then
    let '(status, public_key) := GetVariable "PK" in
    if EFI_ERROR status then (status, None, true)
    else
      let status := VerifyImageSignature buffer public_key in
      if EFI_ERROR status then (status, None, true) else (EFI_SUCCESS, Some buffer, false)
  else (EFI_SUCCESS, Some buffer, false).
End efi.

(** ** Lemmas *)

Implicit Types (result b modulus base e : bytes).

(** The first two bytes are 0. *)
Definition starts00 (l : bytes) : Prop := zget l 0 = 0 /\ zget l 1 = 0.

Lemma mul_mod_ub result : forall b modulus,
  (length result <= length b)%nat -> (length result <= length modulus)%nat ->
  0 ∈ take (length result) modulus -> mul_mod_bytes result b modulus = UB.
Proof.
  induction result as [|r result IH]; intros b modulus Hb Hm H0; [by apply not_elem_of_nil in H0|].
  destruct b as [|x b]; [cbn in Hb; lia|]. destruct modulus as [|m modulus]; [cbn in Hm; lia|].
  cbn [mul_mod_bytes length take] in *. destruct (Z.eqb_spec m 0) as [|Hne]; [reflexivity|].
  apply elem_of_cons in H0 as [Heq|H0]; [congruence|]. rewrite IH by (assumption || lia). reflexivity.
Qed.

Lemma mul_mod_ok result : forall b modulus,
  (length result <= length b)%nat -> (length result <= length modulus)%nat ->
  Forall (fun m => m <> 0) (take (length result) modulus) ->
  exists out, mul_mod_bytes result b modulus = Ret out /\ length out = length result /\
    (forall i, zget result i = 0 -> zget out i = 0).
Proof.
  induction result as [|r result IH]; intros b modulus Hb Hm Hf.
  { exists []. destruct b; auto. }
  destruct b as [|x b]; [cbn in Hb; lia|]. destruct modulus as [|m modulus]; [cbn in Hm; lia|].
  cbn [length take] in *. apply Forall_cons in Hf as [Hne Hf].
  destruct (IH b modulus) as (out & E & Hl & Hz); [lia..|assumption|].
  exists ((r * x) mod m :: out). cbn [mul_mod_bytes]. destruct (Z.eqb_spec m 0); [done|].
  rewrite E. split_and!; [reflexivity|cbn; lia|]. intros i Hi. unfold zget in *.
  destruct (Z.to_nat i) as [|k] eqn:Ek; cbn [nth] in *.
  - by rewrite Hi, Z.mul_0_l, Z.mod_0_l.
  - specialize (Hz (Z.of_nat k)). rewrite Nat2Z.id in Hz. auto.
Qed.

Lemma mod_exp_loop_ok n base e modulus : forall i result,
  (length result <= length base)%nat -> (length result <= length modulus)%nat ->
  Forall (fun m => m <> 0) (take (length result) modulus) -> starts00 result ->
  exists out, mod_exp_loop n base e modulus i result = Ret out /\ starts00 out.
Proof.
  induction n as [|n IH]; intros i result Hb Hm Hf Hs; [by exists result|].
  cbn [mod_exp_loop].
  destruct (mul_mod_ok result result modulus) as (r1 & -> & H1 & Hz1); [lia|assumption..|].
  bind_step.
  assert (H2 : exists r2, (if exp_bit e i =? 0 then Ret r1 else mul_mod_bytes r1 base modulus) = Ret r2
    /\ length r2 = length result /\ starts00 r2).
  { destruct Hs as [Hs0 Hs1]. destruct (exp_bit e i =? 0).
    - exists r1. split_and!; [done..|]. split; auto.
    - destruct (mul_mod_ok r1 base modulus) as (r2 & -> & H2 & Hz2); rewrite ?H1; try assumption.
      exists r2. split_and!; [done|lia|]. split; auto. }
  destruct H2 as (r2 & -> & Hl2 & Hs2). bind_step. apply IH; rewrite ?Hl2; assumption.
Qed.

Lemma mod_exp_loop_ub n base e modulus i result :
  (0 < n)%nat -> (length result <= length modulus)%nat ->
  0 ∈ take (length result) modulus -> mod_exp_loop n base e modulus i result = UB.
Proof.
  intros Hn Hm H0. destruct n as [|n]; [lia|]. cbn [mod_exp_loop].
  by rewrite mul_mod_ub by (assumption || lia).
Qed.

Lemma check_padding_starts00 decrypted hash :
  starts00 decrypted -> check_padding decrypted hash = Ret 0.
Proof. intros [H0 H1]. unfold check_padding. by rewrite H0, H1. Qed.

Lemma starts00_init : starts00 (zset (zeros 256) (256 - 1) 1).
Proof. split; reflexivity. Qed.

#[local] Opaque sha256_hash.

(** ** Properties *)

(** C28. [verify_signature] accepts nothing: on every input it can read, the
    result is 0, or the call divides by a zero byte of the modulus. *)
Theorem verify_signature_never_accepts data len signature public_key :
  0 <= len <= zlen data -> len < 2 ^ 32 -> 256 <= zlen signature -> 516 <= zlen public_key ->
  verify_signature data len signature public_key =
  if decide (0 ∈ sub public_key 260 256) then UB else Ret 0.
Proof.
  intros Hl Hw Hs Hp. unfold verify_signature. rewrite sha256_hash_eq by assumption. bind_step.
  replace (zlen public_key <? 516) with false by (symmetry; zbool). unfold mod_exp.
  assert (He : zlen (sub public_key 4 256) = 256) by (apply zlen_sub; lia).
  assert (Hm : length (sub public_key 260 256) = 256%nat) by (by rewrite length_sub by lia).
  rewrite He. change ((256 <? 1) || (512 <? 256) || (256 <? 256)) with false. cbv iota.
  pose proof starts00_init as Hi. set (init := zset _ _ _) in *.
  assert (Hil : length init = 256%nat) by reflexivity. clearbody init.
  assert (Ht : take (length init) (sub public_key 260 256) = sub public_key 260 256)
    by (rewrite Hil; apply take_ge; lia).
  destruct (decide (0 ∈ sub public_key 260 256)) as [H0|H0].
  - rewrite mod_exp_loop_ub; [reflexivity|lia|lia|by rewrite Ht].
  - destruct (mod_exp_loop_ok (Z.to_nat (256 * 8)) signature (sub public_key 4 256)
      (sub public_key 260 256) 0 init) as (out & -> & Ho);
      [unfold zlen in *; lia|lia| |assumption|].
    { rewrite Ht. apply Forall_forall. intros x Hx ->. contradiction. }
    bind_step. by apply check_padding_starts00.
Qed.

Lemma verify_signature_never_accepts_witness :
  verify_signature [1] 1 (zeros 256) (zeros 260 ++ replicate 256 7) =
  if decide (0 ∈ sub (zeros 260 ++ replicate 256 7) 260 256) then UB else Ret 0.
Proof.
  apply verify_signature_never_accepts; first [lia | split; by vm_compute | by vm_compute].
Defined.

(** The verdict of the self-tests: AES passes its FIPS 197 vector, SHA-256
    fails the "abc" vector, and so the whole run reports failure. *)
Theorem self_tests_verdict :
  crypto_self_test_aes = Ret CRYPTO_SUCCESS /\
  crypto_self_test_sha256 = Ret CRYPTO_ERROR_VERIFICATION_FAILED /\
  crypto_run_all_self_tests = Ret CRYPTO_ERROR_VERIFICATION_FAILED.
Proof.
  assert (Hs : crypto_self_test_sha256 = Ret CRYPTO_ERROR_VERIFICATION_FAILED)
    by (vm_compute; reflexivity).
  split; [vm_compute; reflexivity|]. split; [exact Hs|].
  unfold crypto_run_all_self_tests. rewrite Hs. reflexivity.
Qed.

(** Verified loading: an image is handed out only on success, and then it is the
    file's contents; with Secure Boot on, the call of [RsaPkcs1Verify] with the
    contents of the variable PK, the hash of all but the last 256 bytes and these
    bytes returned TRUE.  On every error after the read the buffer is freed. *)
Theorem load_and_verify_sound Sha256HashAll RsaPkcs1Verify GetVariable ReadFile name status image freed :
  LoadAndVerifyKernel Sha256HashAll RsaPkcs1Verify GetVariable ReadFile name = (status, image, freed) ->
  match image with
  | Some img =>
      status = EFI_SUCCESS /\ freed = false /\ img = snd (ReadFile name) /\
      (IsSecureBootEnabled GetVariable = true ->
       256 <= zlen img /\ exists hash,
         Sha256HashAll (sub img 0 (zlen img - 256)) = Some hash /\
         let pk := snd (GetVariable "PK"%string) in
         RsaPkcs1Verify pk (zlen pk) hash 32 (sub img (zlen img - 256) 256) 256 = true)
  | None => EFI_ERROR status = true /\ (EFI_ERROR (fst (ReadFile name)) = false -> freed = true)
  end.
Proof.
  unfold LoadAndVerifyKernel. destruct (ReadFile name) as [st buf]. cbn [fst snd].
  destruct (EFI_ERROR st) eqn:E1; [intros [= <- <- <-]; by rewrite ?E1|].
  destruct (IsSecureBootEnabled GetVariable) eqn:E2; [|intros [= <- <- <-]; split_and!; done].
  destruct (GetVariable "PK"%string) as [st2 pk]. cbn [snd].
  destruct (EFI_ERROR st2) eqn:E3; [intros [= <- <- <-]; by rewrite E3|].
  destruct (EFI_ERROR (VerifyImageSignature _ _ _ _)) eqn:E4; [intros [= <- <- <-]; by rewrite E4|].
  intros [= <- <- <-]. split_and!; [done..|]. intros _.
  unfold VerifyImageSignature in E4. destruct (Z.ltb_spec (zlen buf) 256) as [|Hl]; [discriminate E4|].
  split; [assumption|]. destruct (Sha256HashAll _) as [h|]; [|discriminate E4].
  exists h. split; [reflexivity|]. by destruct (RsaPkcs1Verify _ _ _ _ _ _).
Qed.

Lemma load_and_verify_sound_witness :
  let get := fun name => if String.eqb name "SecureBoot" then (0, [1]) else (0, [9]) in
  let img := zeros 300 in
  LoadAndVerifyKernel (fun _ => Some [5]) (fun _ _ _ _ _ _ => true) get (fun _ => (0, img)) "k" =
    (EFI_SUCCESS, Some img, false) /\ EFI_SUCCESS = EFI_SUCCESS.
Proof.
  intros get img.
  assert (E : LoadAndVerifyKernel (fun _ => Some [5]) (fun _ _ _ _ _ _ => true) get (fun _ => (0, img)) "k" =
    (EFI_SUCCESS, Some img, false)) by (vm_compute; reflexivity).
  split; [exact E|].
  exact (proj1 (load_and_verify_sound _ _ _ _ _ _ (Some img) _ E)).
Defined.
