(* ===== verification/Tpm2.v ===== *)
(** * TPM 2.0 and measured boot (src/security/tpm2.c)

    The TIS driver (locality request, polling with a time-out, command and
    response transfer), the marshalled commands, the event log and the measured
    boot context.  The memory-mapped device is a parameter: a state with the
    reads and writes of its registers ([Bus]); so is the success of [malloc].
    The source spells some of its globals and calls [g_tmp_...], [tmp_...]; they
    are read as the declared [g_tpm_...], [tpm_...]. *)

From S2P Require Import Prelude Sha256.

(** ** Registers and codes *)

Definition TPM_ACCESS_REG : Z := 0x0000.
Definition TPM_INTF_CAPS_REG : Z := 0x0014.
Definition TPM_STS_REG : Z := 0x0018.
Definition TPM_DATA_FIFO_REG : Z := 0x0024.
Definition TPM_DID_VID_REG : Z := 0x0F00.

Definition TPM_ACCESS_ACTIVE_LOCALITY : Z := 1 <<< 5.
Definition TPM_ACCESS_REQUEST_USE : Z := 1 <<< 1.
Definition TPM_STS_COMMAND_READY : Z := 1 <<< 6.
Definition TPM_STS_GO : Z := 1 <<< 5.
Definition TPM_STS_DATA_AVAIL : Z := 1 <<< 4.

Definition TPM2_RC_SUCCESS : Z := 0.
Definition TPM2_SU_CLEAR : Z := 0.
Definition TPM2_ALG_SHA256 : Z := 0x000B.
Definition TPM2_PCR_BOOTLOADER : Z := 8.
Definition TPM2_PCR_KERNEL : Z := 9.
Definition EV_SEPARATOR : Z := 4.
Definition EV_S_CRTM_VERSION : Z := 8.
Definition EV_IPL : Z := 0xD.

Inductive TPM2_INTERFACE_TYPE :=
| TPM2_INTERFACE_TIS | TPM2_INTERFACE_CRB | TPM2_INTERFACE_FTPM | TPM2_INTERFACE_NONE.

#[export] Instance interface_eq_dec : EqDecision TPM2_INTERFACE_TYPE.
Proof. solve_decision. Defined.

(** ** The event log *)

Record TCG_PCR_EVENT := mk_event {
  ev_pcr_index : Z; ev_event_type : Z; ev_digest : bytes; ev_data_size : Z
}.

(** [events] holds the entries in use; a released log has no buffer. *)
Record TPM2_EVENT_LOG := mk_log {
  events : list TCG_PCR_EVENT;
  event_count : Z;
  max_events : Z;
  log_buffer : bytes;
  log_size : Z;
  max_log_size : Z
}.

Definition no_log : TPM2_EVENT_LOG := mk_log [] 0 0 [] 0 0.

(** [sizeof(TCG_PCR_EVENT)], packed, with its flexible array member. *)
Definition sizeof_event : Z := 32.

(** [malloc n] says whether an allocation of [n] bytes succeeds.  A failed call
    leaves the counters, and the pointers NULL or freed. *)
Definition tpm2_event_log_init (malloc : Z -> bool) (log : TPM2_EVENT_LOG) (maxev maxsz : Z)
  : Z * TPM2_EVENT_LOG :=
  if negb (malloc (maxev * sizeof_event)) then
    (-1, mk_log [] (event_count log) (max_events log) (log_buffer log) (log_size log) (max_log_size log))
  else if negb (malloc maxsz) then
    (-1, mk_log [] (event_count log) (max_events log) [] (log_size log) (max_log_size log))
  else (0, mk_log [] 0 maxev (zeros maxsz) 0 maxsz).

(** [strlen(description) + 1], or 0; the copied bytes include the final NUL. *)
Definition desc_bytes (description : option bytes) : bytes :=
  match description with Some d => d ++ [0] | None => [] end.

Definition tpm2_event_log_add (log : TPM2_EVENT_LOG) (pcr_index event_type : Z)
  (data : option bytes) (data_size : Z) (description : option bytes)
  : run (Z * TPM2_EVENT_LOG) :=
  match data with
  | None => mret (-1, log)
  | Some data =>
      if max_events log <=? event_count log then mret (-1, log)
      else
        let desc_len := u32 (zlen (desc_bytes description)) in
        let total_event_size := u32 (sizeof_event + data_size + desc_len) in
        if max_log_size log <? u32 (log_size log + total_event_size) then mret (-1, log)
        else
          let n := u32 (data_size + desc_len) in
          combined ← memcpy (zeros n) 0 data 0 data_size;
          combined ← memcpy combined data_size (desc_bytes description) 0 desc_len;
          h ← sha256_hash (Some combined) n;
          buffer ← memcpy (log_buffer log) (log_size log) combined 0 n;
          mret (0, mk_log (events log ++ [mk_event pcr_index event_type
                                            (sub (default [] h) 0 20) n])
                     (u32 (event_count log + 1)) (max_events log) buffer
                     (u32 (log_size log + total_event_size)) (max_log_size log))
  end.

Definition tpm2_event_log_cleanup (log : option TPM2_EVENT_LOG) : option TPM2_EVENT_LOG :=
  match log with Some _ => Some no_log | None => None end.

(** ** The device *)

Class Bus (D : Type) := {
  bus_read : D -> Z -> Z * D;
  bus_write : D -> Z -> Z -> D
}.

Section tpm.
Context {D : Type} `{!Bus D}.
Variable malloc : Z -> bool.

Record tpm := mk_tpm {
  g_tpm_interface : TPM2_INTERFACE_TYPE;
  g_tpm_base_address : Z;
  g_tpm_initialized : bool;
  g_global_event_log : TPM2_EVENT_LOG;
  device : D
}.

Definition with_device (g : tpm) (d : D) : tpm :=
  mk_tpm (g_tpm_interface g) (g_tpm_base_address g) (g_tpm_initialized g) (g_global_event_log g) d.
Definition with_interface (g : tpm) (i : TPM2_INTERFACE_TYPE) : tpm :=
  mk_tpm i (g_tpm_base_address g) (g_tpm_initialized g) (g_global_event_log g) (device g).
Definition with_base (g : tpm) (a : Z) : tpm :=
  mk_tpm (g_tpm_interface g) a (g_tpm_initialized g) (g_global_event_log g) (device g).
Definition with_init (g : tpm) (b : bool) : tpm :=
  mk_tpm (g_tpm_interface g) (g_tpm_base_address g) b (g_global_event_log g) (device g).
Definition with_log (g : tpm) (l : TPM2_EVENT_LOG) : tpm :=
  mk_tpm (g_tpm_interface g) (g_tpm_base_address g) (g_tpm_initialized g) l (device g).

Definition tpm_read8 (g : tpm) (offset : Z) : Z * tpm :=
  let '(v, d) := bus_read (device g) (u32 (g_tpm_base_address g + offset)) in
  (u8 v, with_device g d).

Definition tpm_read32 (g : tpm) (offset : Z) : Z * tpm :=
  let '(v, d) := bus_read (device g) (u32 (g_tpm_base_address g + offset)) in
  (u32 v, with_device g d).

Definition tpm_write8 (g : tpm) (offset value : Z) : tpm :=
  with_device g (bus_write (device g) (u32 (g_tpm_base_address g + offset)) (u8 value)).

Definition tpm_write32 (g : tpm) (offset value : Z) : tpm :=
  with_device g (bus_write (device g) (u32 (g_tpm_base_address g + offset)) (u32 value)).

(** ** Interface detection and locality *)

Fixpoint detect_at (g : tpm) (addresses : list Z) : TPM2_INTERFACE_TYPE * tpm :=
  match addresses with
  | [] => (TPM2_INTERFACE_NONE, g)
  | a :: rest =>
      let g := with_base g a in
      let '(did_vid, g) := tpm_read32 g TPM_DID_VID_REG in
      if negb (did_vid =? 0xFFFFFFFF) && negb (did_vid =? 0) then
        let '(intf_caps, g) := tpm_read32 g TPM_INTF_CAPS_REG in
        ((if (intf_caps &&& (1 <<< 2)) =? 0 then TPM2_INTERFACE_TIS else TPM2_INTERFACE_CRB), g)
      else detect_at g rest
  end.

Definition tpm2_detect_interface (g : tpm) : TPM2_INTERFACE_TYPE * tpm :=
  detect_at g [0xFED40000; 0xFED41000].

(** [while (timeout-- > 0) { if (read & mask) break; }] with [timeout] turns
    left: the value of [timeout] afterwards and the state. *)
Fixpoint poll (timeout : nat) (read : tpm -> Z * tpm) (mask : Z) (g : tpm) : Z * tpm :=
  match timeout with
  | O => (-1, g)
  | S n =>
      let '(v, g') := read g in
      if (v &&& mask) =? 0 then poll n read mask g' else (Z.of_nat n, g')
  end.

Definition tpm2_init_interface (g : tpm) (interface_type : TPM2_INTERFACE_TYPE) : Z * tpm :=
  let g := with_interface g interface_type in
  match interface_type with
  | TPM2_INTERFACE_NONE => (-1, g)
  | TPM2_INTERFACE_TIS =>
      let g := tpm_write8 g TPM_ACCESS_REG TPM_ACCESS_REQUEST_USE in
      let '(timeout, g) := poll 1000 (fun g => tpm_read8 g TPM_ACCESS_REG)
                             TPM_ACCESS_ACTIVE_LOCALITY g in
      if timeout <=? 0 then (-1, g) else (0, g)
  | _ => (0, g)
  end.

(** ** Sending a command *)

Definition send_fifo (g : tpm) (cmd : bytes) : tpm :=
  fold_left (fun g b => tpm_write8 g TPM_DATA_FIFO_REG b) cmd g.

(** At most [room] bytes are read. *)
Fixpoint read_response (room : nat) (g : tpm) : bytes * tpm :=
  match room with
  | O => ([], g)
  | S room' =>
      let '(status, g) := tpm_read32 g TPM_STS_REG in
      if (status &&& TPM_STS_DATA_AVAIL) =? 0 then ([], g)
      else
        let '(b, g) := tpm_read8 g TPM_DATA_FIFO_REG in
        let '(rest, g) := read_response room' g in
        (b :: rest, g)
  end.

(** The result is the return code and the bytes stored through [response]
    ([*response_size] of them); [response_size] is the size of that buffer. *)
Definition tpm2_send_command (g : tpm) (command : bytes) (response_size : Z)
  : Z * bytes * tpm :=
  match g_tpm_interface g with
  | TPM2_INTERFACE_TIS =>
      let '(timeout, g) := poll 1000 (fun g => tpm_read32 g TPM_STS_REG) TPM_STS_COMMAND_READY g in
      if timeout <=? 0 then (-1, [], g)
      else
        let g := send_fifo g command in
        let g := tpm_write32 g TPM_STS_REG TPM_STS_GO in
        let '(timeout, g) := poll 5000 (fun g => tpm_read32 g TPM_STS_REG) TPM_STS_DATA_AVAIL g in
        if timeout <=? 0 then (-1, [], g)
        else let '(resp, g) := read_response (Z.to_nat response_size) g in (0, resp, g)
  | _ => (-1, [], g)
  end.

Definition response_code (r : bytes) : Z :=
  u32 (zget r 6 <<< 24) ||| u32 (zget r 7 <<< 16) ||| u32 (zget r 8 <<< 8) ||| zget r 9.

(** The shared tail of the commands: send, then look at the response code. *)
Definition exec_command (g : tpm) (command : bytes) : Z * tpm :=
  let '(result, response, g) := tpm2_send_command g command 64 in
  if negb (result =? 0) then (result, g)
  else if 10 <=? zlen response
       then ((if response_code response =? TPM2_RC_SUCCESS then 0 else -1), g)
       else (-1, g).

Definition startup_command (startup_type : Z) : bytes :=
  [0x80; 0x01; 0; 0; 0; 0x0C; 0; 0; 0x01; 0x44;
   (startup_type >>> 8) &&& 0xFF; startup_type &&& 0xFF].

Definition self_test_command : bytes := [0x80; 0x01; 0; 0; 0; 0x0B; 0; 0; 0x01; 0x43; 0x01].

Definition be32 (v : Z) : bytes :=
  [(v >>> 24) &&& 0xFF; (v >>> 16) &&& 0xFF; (v >>> 8) &&& 0xFF; v &&& 0xFF].

(** The bytes after the length field, and the whole command. *)
Definition extend_body (pcr_index hash_alg : Z) (digest : bytes) : bytes :=
  [0; 0; 0x01; 0x82] ++ be32 pcr_index ++ [0; 0; 0; 0] ++ [0; 0; 0; 1] ++
  [(hash_alg >>> 8) &&& 0xFF; hash_alg &&& 0xFF] ++ digest.

Definition extend_command (pcr_index hash_alg : Z) (digest : bytes) : bytes :=
  let body := extend_body pcr_index hash_alg digest in
  let cmd_size := 6 + zlen body in
  [0x80; 0x01] ++ be32 cmd_size ++ body.

Definition tpm2_startup (g : tpm) (startup_type : Z) : Z * tpm :=
  if negb (g_tpm_initialized g) then (-1, g) else exec_command g (startup_command startup_type).

Definition tpm2_self_test (g : tpm) : Z * tpm :=
  if negb (g_tpm_initialized g) then (-1, g) else exec_command g self_test_command.

Definition tpm2_pcr_extend (g : tpm) (pcr_index hash_alg : Z) (digest : option bytes)
  : run (Z * tpm) :=
  match digest with
  | None => mret (-1, g)
  | Some digest =>
      if negb (g_tpm_initialized g) || (23 <? pcr_index) then mret (-1, g)
      else
        let digest_size := if hash_alg =? TPM2_ALG_SHA256 then 32 else 20 in
        if zlen digest <? digest_size then UB
        else mret (exec_command g (extend_command pcr_index hash_alg (sub digest 0 digest_size)))
  end.

(** ** Measurements *)

Definition tpm2_measure_data (g : tpm) (pcr_index event_type : Z) (data : option bytes)
  (data_size : Z) (description : option bytes) : run (Z * tpm) :=
  match data with
  | None => mret (-1, g)
  | Some _ =>
      if data_size =? 0 then mret (-1, g)
      else
        digest ← sha256_hash data data_size;
        r ← tpm2_pcr_extend g pcr_index TPM2_ALG_SHA256 digest;
        let '(result, g) := r in
        if negb (result =? 0) then mret (result, g)
        else
          l ← tpm2_event_log_add (g_global_event_log g) pcr_index event_type data data_size
                description;
          let '(result, log) := l in mret (result, with_log g log)
  end.

Definition tpm2_measure_string (g : tpm) (pcr_index event_type : Z) (s : option bytes)
  : run (Z * tpm) :=
  match s with
  | None => mret (-1, g)
  | Some str => tpm2_measure_data g pcr_index event_type (Some (str ++ [0])) (u32 (zlen str)) (Some str)
  end.

Definition tpm2_measure_separator (g : tpm) (pcr_index : Z) : run (Z * tpm) :=
  tpm2_measure_data g pcr_index EV_SEPARATOR (Some [0xFF; 0xFF; 0xFF; 0xFF]) 4
    (Some [83; 101; 112; 97; 114; 97; 116; 111; 114]).

Definition tpm2_measure_file (g : tpm) (pcr_index event_type : Z) (filename file_data : option bytes)
  (file_size : Z) : run (Z * tpm) :=
  match filename, file_data with
  | Some name, Some data =>
      let filename_len := u32 (zlen name + 1) in
      let total_size := u32 (filename_len + file_size) in
      if negb (malloc total_size) then mret (-1, g)
      else
        event_data ← memcpy (zeros total_size) 0 (name ++ [0]) 0 filename_len;
        event_data ← memcpy event_data filename_len data 0 file_size;
        tpm2_measure_data g pcr_index event_type (Some event_data) total_size (Some name)
  | _, _ => mret (-1, g)
  end.

(** ** Initialisation and measured boot *)

Definition tpm2_initialize (g : tpm) : Z * tpm :=
  if g_tpm_initialized g then (0, g)
  else
    let '(interface, g) := tpm2_detect_interface g in
    if decide (interface = TPM2_INTERFACE_NONE) then (-1, g)
    else
      let '(r, g) := tpm2_init_interface g interface in
      if negb (r =? 0) then (-1, g)
      else
        let '(r, log) := tpm2_event_log_init malloc (g_global_event_log g) 1000 (64 * 1024) in
        let g := with_log g log in
        if negb (r =? 0) then (-1, g) else (0, with_init g true).

Record MeasuredBootContext := mk_mbc {
  measurement_count : Z; pcr_mask : Z; boot_path : bytes; mb_event_log : TPM2_EVENT_LOG
}.

(** The TPM bring-up at the start of [measured_boot_init]. *)
Definition bring_up (g : tpm) : Z * tpm :=
  if g_tpm_initialized g then (0, g)
  else
    let '(r, g) := tpm2_initialize g in
    if negb (r =? 0) then (-1, g)
    else
      let '(r, g) := tpm2_startup g TPM2_SU_CLEAR in
      if negb (r =? 0) then (-1, g)
      else
        let '(r, g) := tpm2_self_test g in
        if negb (r =? 0) then (-1, g) else (0, g).

(** [for (pcr = 0; pcr <= 7; pcr++) { measure_separator; pcr_mask |= 1 << pcr; }] *)
Fixpoint separators (pcrs : list Z) (g : tpm) (mask : Z) : run (Z * tpm) :=
  match pcrs with
  | [] => Ret (mask, g)
  | pcr :: rest =>
      r ← tpm2_measure_separator g pcr;
      separators rest (snd r) (mask ||| u32 (1 <<< pcr))
  end.

Definition measured_boot_init (g : tpm) : run (Z * MeasuredBootContext * tpm) :=
  let context := mk_mbc 0 0 (zeros 256) no_log in
  let '(r, g) := bring_up g in
  if negb (r =? 0) then mret (-1, context, g)
  else
    let '(r, log) := tpm2_event_log_init malloc no_log 500 (32 * 1024) in
    if negb (r =? 0) then mret (-1, context, g)
    else
      s ← separators [0; 1; 2; 3; 4; 5; 6; 7] g 0;
      let '(mask, g) := s in mret (0, mk_mbc 0 mask (zeros 256) log, g).

Definition measured_boot_measure_bootloader (context : MeasuredBootContext) (g : tpm)
  : run (Z * MeasuredBootContext * tpm) :=
  r ← tpm2_measure_string g TPM2_PCR_BOOTLOADER EV_S_CRTM_VERSION
        (Some [66; 108; 111; 111; 100; 72; 111; 114; 110; 32; 118; 49; 46; 48]);
  let '(result, g) := r in
  if result =? 0
  then mret (result, mk_mbc (u32 (measurement_count context + 1))
                       (pcr_mask context ||| (1 <<< TPM2_PCR_BOOTLOADER))
                       (boot_path context) (mb_event_log context), g)
  else mret (result, context, g).

(** [strncpy(dst, src, n)] into an array of at least [n] bytes: at most [n]
    bytes of [src], then NULs up to [n]. *)
Definition strncpy (dst src : bytes) (n : Z) : bytes :=
  let k := Z.min n (zlen src) in
  splice dst 0 (sub src 0 k ++ zeros (n - k)).

Definition measured_boot_measure_kernel (context : MeasuredBootContext) (g : tpm)
  (kernel_data : option bytes) (kernel_size : Z) (kernel_path : option bytes)
  : run (Z * MeasuredBootContext * tpm) :=
  match kernel_data, kernel_path with
  | Some _, Some path =>
      r ← tpm2_measure_file g TPM2_PCR_KERNEL EV_IPL kernel_path kernel_data kernel_size;
      let '(result, g) := r in
      if result =? 0
      then mret (result, mk_mbc (u32 (measurement_count context + 1))
                           (pcr_mask context ||| (1 <<< TPM2_PCR_KERNEL))
                           (strncpy (boot_path context) path 255) (mb_event_log context), g)
      else mret (result, context, g)
  | _, _ => mret (-1, context, g)
  end.

(** "TPM Diagnostic Test" *)
Definition diagnostic_text : bytes :=
  [84; 80; 77; 32; 68; 105; 97; 103; 110; 111; 115; 116; 105; 99; 32; 84; 101; 115; 116].

Definition tpm2_run_diagnostics (g : tpm) : run (Z * tpm) :=
  if negb (g_tpm_initialized g) then mret (-1, g)
  else digest ← sha256_hash (Some diagnostic_text) 19;
       tpm2_pcr_extend g 23 TPM2_ALG_SHA256 digest.

Definition tpm2_is_available (g : tpm) : bool := g_tpm_initialized g.

Definition tpm2_cleanup (g : tpm) : tpm :=
  if g_tpm_initialized g then with_init (with_log g no_log) false else g.

End tpm.

Arguments tpm : clear implicits.

Open Scope string_scope.
Definition tpm2_get_error_string (error_code : Z) : string :=
  if (error_code =? 0x000)%Z then "Success"
  else if (error_code =? 0x101)%Z then "General failure"
  else if (error_code =? 0x120)%Z then "TPM is disabled"
  else if (error_code =? 0x121)%Z then "Exclusive access required"
  else if (error_code =? 0x124)%Z then "Authentication type not supported"
  else if (error_code =? 0x125)%Z then "Authentication missing"
  else if (error_code =? 0x126)%Z then "Policy failure"
  else if (error_code =? 0x127)%Z then "PCR error"
  else if (error_code =? 0x128)%Z then "PCR changed"
  else if (error_code =? 0x130)%Z then "Reboot required"
  else "Unknown error".
Close Scope string_scope.

(** ** Lemmas: the event log *)

Definition log_wf (l : TPM2_EVENT_LOG) : Prop :=
  zlen (log_buffer l) = max_log_size l /\ 0 <= log_size l <= max_log_size l /\
  max_log_size l < 2 ^ 31 /\ event_count l = zlen (events l) /\
  event_count l <= max_events l < 2 ^ 32.

Definition payload (data : bytes) (data_size : Z) (description : option bytes) : bytes :=
  sub data 0 data_size ++ desc_bytes description.

Definition logged (l : TPM2_EVENT_LOG) (pcr ty : Z) (p : bytes) : TPM2_EVENT_LOG :=
  mk_log (events l ++ [mk_event pcr ty (sub (code_sha256 p) 0 20) (zlen p)])
    (event_count l + 1) (max_events l) (splice (log_buffer l) (log_size l) p)
    (log_size l + (sizeof_event + zlen p)) (max_log_size l).

Definition log_room (l : TPM2_EVENT_LOG) (p : bytes) : bool :=
  (event_count l <? max_events l) &&
  (log_size l + (sizeof_event + zlen p) <=? max_log_size l).

#[local] Opaque sha256_hash code_sha256.

Lemma event_log_add_eq l pcr ty data ds d :
  log_wf l -> 0 <= ds <= zlen data -> ds + zlen (desc_bytes d) < 2 ^ 31 - 32 ->
  tpm2_event_log_add l pcr ty (Some data) ds d =
  Ret (if log_room l (payload data ds d)
       then (0, logged l pcr ty (payload data ds d)) else (-1, l)).
Proof.
  intros (Hb & Hs & Hm & Hc & Hx) Hd Hn. unfold tpm2_event_log_add, log_room.
  pose proof (zlen_nonneg (desc_bytes d)) as H0. pose proof (zlen_nonneg (events l)) as He.
  assert (Hp : zlen (payload data ds d) = ds + zlen (desc_bytes d))
    by (unfold payload; rewrite zlen_app, zlen_sub by lia; lia).
  rewrite Hp. unfold sizeof_event.
  destruct (Z.leb_spec (max_events l) (event_count l)) as [Hfull|Hroom].
  { replace (event_count l <? max_events l) with false by (symmetry; zbool). reflexivity. }
  replace (event_count l <? max_events l) with true by (symmetry; zbool). cbn [andb].
  rewrite (wrap_small 32 (zlen (desc_bytes d))) by (unfold in_u; lia).
  rewrite (wrap_small 32 (32 + ds + zlen (desc_bytes d))) by (unfold in_u; lia).
  rewrite !(wrap_small 32) by (unfold in_u; lia).
  destruct (Z.ltb_spec (max_log_size l) (log_size l + (32 + ds + zlen (desc_bytes d)))) as [Hno|Hyes].
  { replace (log_size l + (32 + (ds + zlen (desc_bytes d))) <=? max_log_size l) with false
      by (symmetry; zbool). reflexivity. }
  replace (log_size l + (32 + (ds + zlen (desc_bytes d))) <=? max_log_size l) with true
    by (symmetry; zbool).
  rewrite memcpy_start by (rewrite ?zlen_zeros; lia). bind_step.
  assert (Hz : zlen (drop (Z.to_nat ds) (zeros (ds + zlen (desc_bytes d)))) = zlen (desc_bytes d))
    by (unfold zeros, zlen; rewrite length_drop, length_replicate; lia).
  rewrite memcpy_app by (rewrite ?zlen_sub; lia). bind_step.
  rewrite (sub_all (desc_bytes d)), (drop_ge (drop _ _)) by (unfold zlen in *; lia).
  rewrite app_nil_r. fold (payload data ds d).
  rewrite sha256_hash_eq by lia. bind_step. cbn [from_option id].
  rewrite memcpy_ok by lia. bind_step. rewrite (sub_all (payload data ds d)) by lia.
  unfold logged, sizeof_event. rewrite Hp. do 3 f_equal. lia.
Qed.

Lemma logged_wf l pcr ty p : log_wf l -> log_room l p = true -> log_wf (logged l pcr ty p).
Proof.
  unfold log_wf, log_room, logged, sizeof_event. intros (Hb & Hs & Hm & Hc & Hx) Hr. bool_hyps.
  cbn [events event_count max_events log_buffer log_size max_log_size].
  pose proof (zlen_nonneg p). rewrite zlen_splice, zlen_app by lia.
  change (zlen [_]) with 1. lia.
Qed.

(** ** Lemmas: the driver changes nothing but the device *)

Section frame.
Context {D : Type} `{!Bus D}.
Implicit Types g : tpm D.

Definition frame g g' : Prop := g' = with_device g (device g').

Lemma frame_refl g : frame g g.
Proof. by destruct g. Qed.

Lemma frame_trans g1 g2 g3 : frame g1 g2 -> frame g2 g3 -> frame g1 g3.
Proof. unfold frame, with_device. intros -> ->. reflexivity. Qed.

Lemma frame_with_device g d : frame g (with_device g d).
Proof. reflexivity. Qed.

Lemma frame_read8 g off : frame g (snd (tpm_read8 g off)).
Proof. unfold tpm_read8. destruct (bus_read _ _). reflexivity. Qed.

Lemma frame_read32 g off : frame g (snd (tpm_read32 g off)).
Proof. unfold tpm_read32. destruct (bus_read _ _). reflexivity. Qed.

Lemma frame_poll n read mask : (forall g, frame g (snd (read g))) ->
  forall g, frame g (snd (poll n read mask g)).
Proof.
  intros Hr. induction n as [|n IH]; intros g; [apply frame_refl|]. cbn [poll].
  specialize (Hr g). destruct (read g) as [v g']. cbn [snd] in Hr.
  destruct (_ =? 0); [|exact Hr]. eapply frame_trans; [exact Hr|apply IH].
Qed.

Lemma frame_send_fifo cmd : forall g, frame g (send_fifo g cmd).
Proof.
  induction cmd as [|b cmd IH]; intros g; [apply frame_refl|].
  eapply frame_trans; [apply (frame_with_device g)|apply IH].
Qed.

Lemma frame_read_response n : forall g, frame g (snd (read_response n g)).
Proof.
  induction n as [|n IH]; intros g; [apply frame_refl|]. cbn [read_response].
  pose proof (frame_read32 g TPM_STS_REG) as H1. destruct (tpm_read32 g TPM_STS_REG) as [st g1].
  cbn [snd] in H1. destruct (_ =? 0); [exact H1|].
  pose proof (frame_read8 g1 TPM_DATA_FIFO_REG) as H2. destruct (tpm_read8 _ _) as [b g2].
  cbn [snd] in H2. specialize (IH g2). destruct (read_response n g2) as [rest g3].
  cbn [snd] in *. eauto using frame_trans.
Qed.

#[local] Opaque poll read_response.

Lemma frame_send_command g cmd n : frame g (snd (tpm2_send_command g cmd n)).
Proof.
  unfold tpm2_send_command. destruct (g_tpm_interface g); try apply frame_refl.
  pose proof (frame_poll 1000 (fun g => tpm_read32 g TPM_STS_REG) TPM_STS_COMMAND_READY
    (fun g => frame_read32 g _) g) as H1.
  destruct (poll _ _ _ g) as [t1 g1]. cbn [snd] in H1. destruct (t1 <=? 0); [exact H1|].
  pose proof (frame_send_fifo cmd g1) as H2. set (g2 := send_fifo g1 cmd) in *.
  pose proof (frame_with_device g2 (device (tpm_write32 g2 TPM_STS_REG TPM_STS_GO))) as H3.
  change (frame g2 (tpm_write32 g2 TPM_STS_REG TPM_STS_GO)) in H3.
  set (g3 := tpm_write32 _ _ _) in *.
  pose proof (frame_poll 5000 (fun g => tpm_read32 g TPM_STS_REG) TPM_STS_DATA_AVAIL
    (fun g => frame_read32 g _) g3) as H4.
  destruct (poll _ _ _ g3) as [t2 g4]. cbn [snd] in H4.
  destruct (t2 <=? 0); [cbn [snd]; eauto using frame_trans|].
  pose proof (frame_read_response (Z.to_nat n) g4) as H5. destruct (read_response _ g4).
  cbn [snd] in *. eauto using frame_trans.
Qed.

Lemma frame_exec_command g cmd : frame g (snd (exec_command g cmd)).
Proof.
  unfold exec_command. pose proof (frame_send_command g cmd 64) as H.
  destruct (tpm2_send_command g cmd 64) as [[r resp] g']. cbn [snd] in H.
  destruct (negb (r =? 0)); [exact H|]. by destruct (10 <=? zlen resp).
Qed.

(** Measuring is defined for every device, keeps the log well formed, and on
    success has added exactly one event. *)
Lemma measure_data_spec g pcr ty data ds d :
  log_wf (g_global_event_log g) -> 0 <= ds <= zlen data ->
  ds + zlen (desc_bytes d) < 2 ^ 31 - 32 ->
  exists r g', tpm2_measure_data g pcr ty (Some data) ds d = Ret (r, g') /\
    g_tpm_initialized g' = g_tpm_initialized g /\ log_wf (g_global_event_log g') /\
    g_global_event_log g' =
      (if r =? 0 then logged (g_global_event_log g) pcr ty (payload data ds d)
       else g_global_event_log g).
Proof.
  intros Hw Hd Hn. unfold tpm2_measure_data. pose proof (zlen_nonneg (desc_bytes d)) as H0.
  destruct (Z.eqb_spec ds 0) as [->|Hne]; [by exists (-1), g|].
  rewrite sha256_hash_eq by lia. bind_step. unfold tpm2_pcr_extend. rewrite Z.eqb_refl.
  assert (Hl : zlen (code_sha256 (sub data 0 ds)) = 32) by apply zlen_code_sha256.
  destruct (negb (g_tpm_initialized g) || (23 <? pcr)); [bind_step; by exists (-1), g|].
  rewrite Hl. change (32 <? 32) with false. cbv iota. bind_step.
  set (cmd := extend_command _ _ _). pose proof (frame_exec_command g cmd) as Hf.
  destruct (exec_command g cmd) as [r g1]. cbn [snd] in Hf.
  assert (Hlog : g_global_event_log g1 = g_global_event_log g) by (by rewrite Hf).
  assert (Hi : g_tpm_initialized g1 = g_tpm_initialized g) by (by rewrite Hf).
  destruct (Z.eqb_spec r 0) as [->|Hr]; cbn [negb].
  - rewrite Hlog, event_log_add_eq by (assumption || lia). bind_step.
    destruct (log_room _ _) eqn:Er; do 2 eexists; (split; [reflexivity|]);
      cbn [with_log g_tpm_initialized g_global_event_log Z.eqb]; auto using logged_wf.
  - exists r, g1. destruct (Z.eqb_spec r 0); [lia|]. by rewrite Hlog.
Qed.

Lemma separators_spec pcrs : forall g mask,
  log_wf (g_global_event_log g) ->
  exists g', separators pcrs g mask =
    Ret (fold_left (fun m p => m ||| u32 (1 <<< p)) pcrs mask, g') /\
    log_wf (g_global_event_log g').
Proof.
  induction pcrs as [|p pcrs IH]; intros g mask Hw; [by exists g|].
  cbn [separators fold_left]. unfold tpm2_measure_separator.
  edestruct (measure_data_spec g p EV_SEPARATOR) as (r & g1 & -> & _ & Hw1 & _);
    [exact Hw| | |bind_step; cbn [snd]; by apply IH].
  - split; by vm_compute.
  - by vm_compute.
Qed.
End frame.

(** ** The bus traffic of a command

    The accesses of the registers, in order, with the values read and written; a
    device [replays] a list of accesses when it answers each read with the value
    recorded.  [exchange] is the protocol of one command: wait for commandReady,
    write the command byte by byte and GO, wait for dataAvail, and read status
    and FIFO in turn while dataAvail is set and the 64 bytes of the buffer are
    not full. *)

Inductive access := Rd (address value : Z) | Wr (address value : Z).

Section protocol.
Context {D : Type} `{!Bus D}.
Implicit Types (d : D) (g : tpm D) (t : list access).

Fixpoint replays d t d' : Prop :=
  match t with
  | [] => d = d'
  | Rd a v :: t => exists d1, bus_read d a = (v, d1) /\ replays d1 t d'
  | Wr a v :: t => replays (bus_write d a v) t d'
  end.

Variable base : Z.

Definition status_reads (vs : list Z) : list access := Rd (u32 (base + TPM_STS_REG)) <$> vs.
Definition sent (cmd : bytes) : list access :=
  (Wr (u32 (base + TPM_DATA_FIFO_REG)) <$> cmd) ++ [Wr (u32 (base + TPM_STS_REG)) TPM_STS_GO].
Definition response_reads (l : list (Z * Z)) : list access :=
  l ≫= fun p => [Rd (u32 (base + TPM_STS_REG)) p.1; Rd (u32 (base + TPM_DATA_FIFO_REG)) p.2].

Definition bit_clear (mask v : Z) : Prop := (u32 v &&& mask) = 0.

(** Fewer than [n] polls, the last of which and no earlier one saw the bit. *)
Definition waited (n : nat) (mask : Z) (vs : list Z) : Prop :=
  exists pre v, vs = pre ++ [v] /\ (length vs < n)%nat /\
    Forall (bit_clear mask) pre /\ ~ bit_clear mask v.

(** All [n] polls, none but possibly the last of which saw the bit. *)
Definition timed_out (n : nat) (mask : Z) (vs : list Z) : Prop :=
  length vs = n /\ Forall (bit_clear mask) (take (n - 1) vs).

(** The status and FIFO values read, then the status read that ended the loop. *)
Definition answered (room : nat) (l : list (Z * Z)) (last : list Z) : Prop :=
  Forall (fun p => ~ bit_clear TPM_STS_DATA_AVAIL p.1) l /\
  ((length l = room /\ last = []) \/
   (length l < room)%nat /\ exists s, last = [s] /\ bit_clear TPM_STS_DATA_AVAIL s).

Definition verdict (response : bytes) : Z :=
  if (10 <=? zlen response) && (response_code response =? TPM2_RC_SUCCESS) then 0 else -1.

Inductive exchange (cmd : bytes) : list access -> Z -> Prop :=
| not_ready ws : timed_out 1000 TPM_STS_COMMAND_READY ws ->
    exchange cmd (status_reads ws) (-1)
| no_answer ws ws' : waited 1000 TPM_STS_COMMAND_READY ws ->
    timed_out 5000 TPM_STS_DATA_AVAIL ws' ->
    exchange cmd (status_reads ws ++ sent cmd ++ status_reads ws') (-1)
| with_answer ws ws' l last : waited 1000 TPM_STS_COMMAND_READY ws ->
    waited 5000 TPM_STS_DATA_AVAIL ws' -> answered 64 l last ->
    exchange cmd (status_reads ws ++ sent cmd ++ status_reads ws' ++ response_reads l ++ status_reads last)
      (verdict ((fun p => u8 p.2) <$> l)).

Lemma replays_app t1 t2 : forall d d1 d', replays d t1 d1 -> replays d1 t2 d' -> replays d (t1 ++ t2) d'.
Proof.
  induction t1 as [|[a v|a v] t1 IH]; cbn [replays app]; intros d d1 d'; [by intros ->| |apply IH].
  intros (d2 & E & H) H2. exists d2. eauto.
Qed.

Lemma poll_trace n mask : forall g, g_tpm_base_address g = base ->
  let p := poll n (fun g => tpm_read32 g TPM_STS_REG) mask g in
  frame g p.2 /\ exists vs, replays (device g) (status_reads vs) (device p.2) /\
    (if p.1 <=? 0 then timed_out n mask vs else waited n mask vs).
Proof.
  induction n as [|n IH]; intros g Hg; [split; [apply frame_refl|by exists []]|]. cbn [poll].
  unfold tpm_read32. rewrite Hg. destruct (bus_read (device g) _) as [v d] eqn:E.
  destruct (Z.eqb_spec (u32 v &&& mask) 0) as [Ez|Ez]; cbv zeta.
  - destruct (IH (with_device g d) Hg) as (Hf & vs & Hr & Hw). split; [exact (frame_trans _ _ _ (frame_with_device g d) Hf)|].
    exists (v :: vs). split; [exists d; eauto|]. destruct (_ <=? 0).
    + destruct Hw as (Hl & Hw). split; [cbn; lia|]. destruct n as [|n]; [constructor|]. cbn [Nat.sub take] in *.
      rewrite Nat.sub_0_r in Hw. by constructor.
    + destruct Hw as (pre & w & -> & Hl & Hp & Hn). exists (v :: pre), w. split; [done|]. split; [cbn; lia|]. split; [by constructor|done].
  - split; [apply frame_with_device|]. exists [v]. split; [exists d; split; [done|reflexivity]|]. cbn [fst]. destruct n as [|n].
    + by split; [|constructor].
    + replace (Z.of_nat (S n) <=? 0) with false by (symmetry; zbool). exists [], v. split; [done|]. split; [cbn; lia|]. by split.
Qed.

Lemma send_trace cmd : forall g, g_tpm_base_address g = base -> is_bytes cmd ->
  replays (device g) (sent cmd) (device (tpm_write32 (send_fifo g cmd) TPM_STS_REG TPM_STS_GO)).
Proof.
  induction cmd as [|b cmd IH]; intros g Hg Hb.
  - cbn. by rewrite Hg.
  - apply Forall_cons in Hb as [Hb Hc]. cbn [sent fmap list_fmap app replays send_fifo fold_left].
    rewrite <- (wrap_small 8 b Hb) at 1. specialize (IH (tpm_write8 g TPM_DATA_FIFO_REG b) Hg Hc).
    cbn [tpm_write8 with_device device] in IH. rewrite Hg in IH. exact IH.
Qed.

Lemma response_trace n : forall g, g_tpm_base_address g = base ->
  let p := read_response n g in
  frame g p.2 /\ exists l last, p.1 = ((fun q => u8 q.2) <$> l) /\ answered n l last /\
    replays (device g) (response_reads l ++ status_reads last) (device p.2).
Proof.
  induction n as [|n IH]; intros g Hg; [split; [apply frame_refl|by exists [], []; repeat split; [constructor|left]]|].
  cbn [read_response]. unfold tpm_read32. rewrite Hg. destruct (bus_read (device g) _) as [s d] eqn:E.
  destruct (Z.eqb_spec (u32 s &&& TPM_STS_DATA_AVAIL) 0) as [Ez|Ez]; cbv zeta.
  - split; [apply frame_with_device|]. exists [], [s]. split; [done|]. split; [|by exists d].
    split; [constructor|]. right. split; [cbn; lia|]. by exists s.
  - unfold tpm_read8. cbn [with_device g_tpm_base_address device]. rewrite Hg.
    destruct (bus_read d _) as [b d2] eqn:E2.
    destruct (IH (with_device g d2) Hg) as (Hf & l & last & Hb & (Ha & Hl) & Hr).
    change (with_device (mk_tpm _ _ _ _ _) d2) with (with_device g d2). destruct (read_response n _) as [rest g3].
    cbn [fst snd] in *. subst rest. split; [exact (frame_trans _ _ _ (frame_with_device g d2) Hf)|].
    exists ((s, b) :: l), last. split; [done|]. split; [|exists d; split; [done|]; exists d2; done].
    split; [by constructor|]. cbn [length]. destruct Hl as [[-> ->]|(Hl & Hs)]; [by left|]. right. split; [lia|done].
Qed.
End protocol.

(** What a call of the driver did: only the device changed, through the accesses
    of one exchange. *)
Definition session {D} `{!Bus D} (g : tpm D) (cmd : bytes) (p : Z * tpm D) : Prop :=
  exists t d', p.2 = with_device g d' /\ replays (device g) t d' /\
    exchange (g_tpm_base_address g) cmd t p.1.

Lemma exec_session {D} `{!Bus D} (g : tpm D) cmd :
  g_tpm_interface g = TPM2_INTERFACE_TIS -> is_bytes cmd -> session g cmd (exec_command g cmd).
Proof.
  intros Hi Hb. unfold exec_command, tpm2_send_command. rewrite Hi.
  destruct (poll_trace _ 1000 TPM_STS_COMMAND_READY g eq_refl) as (Hf & ws & Hr & Hw).
  destruct (poll 1000 _ _ g) as [t1 g1]. cbn [fst snd] in *.
  destruct (t1 <=? 0); [exists (status_reads (g_tpm_base_address g) ws), (device g1); repeat split; [done..|by constructor]|].
  assert (Hg1 : g_tpm_base_address g1 = g_tpm_base_address g) by (by rewrite Hf).
  pose proof (send_trace _ cmd g1 Hg1 Hb) as Hs. pose proof (frame_send_fifo cmd g1) as Hf2.
  pose proof (frame_trans _ _ _ Hf (frame_trans _ _ _ Hf2
    (frame_with_device _ (device (tpm_write32 (send_fifo g1 cmd) TPM_STS_REG TPM_STS_GO))))) as Hf3.
  change (with_device (send_fifo g1 cmd) _) with (tpm_write32 (send_fifo g1 cmd) TPM_STS_REG TPM_STS_GO) in Hf3.
  set (g2 := tpm_write32 _ _ _) in *. assert (Hg2 : g_tpm_base_address g2 = g_tpm_base_address g) by (by rewrite Hf3).
  destruct (poll_trace _ 5000 TPM_STS_DATA_AVAIL g2 Hg2) as (Hf4 & ws' & Hr' & Hw').
  destruct (poll 5000 _ _ g2) as [t2 g3]. cbn [fst snd] in *. pose proof (frame_trans _ _ _ Hf3 Hf4) as Hf5.
  destruct (t2 <=? 0).
  { do 2 eexists. split; [exact Hf5|]. split; [|by apply no_answer]. eauto using replays_app. }
  assert (Hg3 : g_tpm_base_address g3 = g_tpm_base_address g) by (by rewrite Hf5).
  destruct (response_trace _ (Z.to_nat 64) g3 Hg3) as (Hf6 & l & last & El & Ha & Hr6).
  destruct (read_response _ g3) as [resp g4]. cbn [fst snd] in *. subst resp. cbn [negb Z.eqb].
  exists (status_reads (g_tpm_base_address g) ws ++ sent (g_tpm_base_address g) cmd ++ status_reads (g_tpm_base_address g) ws' ++
    response_reads (g_tpm_base_address g) l ++ status_reads (g_tpm_base_address g) last), (device g4).
  split; [|split; [eauto using replays_app|]].
  - pose proof (frame_trans _ _ _ Hf5 Hf6) as H. by destruct (10 <=? _).
  - pose proof (with_answer (g_tpm_base_address g) cmd ws ws' l last Hw Hw' Ha) as H. unfold verdict in H.
    by destruct (10 <=? _); [destruct (_ =? _)|].
Qed.

(** ** Lemmas: the commands are bytes *)

Lemma low_byte v : in_u 8 (v &&& 0xFF).
Proof. change 0xFF with (Z.ones 8). rewrite Z.land_ones by lia. unfold in_u. apply Z.mod_pos_bound. lia. Qed.

Ltac solve_bytes := repeat apply Forall_cons_2; first [apply low_byte|apply Forall_nil_2|by vm_compute].

Lemma be32_bytes v : is_bytes (be32 v).
Proof. unfold be32. solve_bytes. Qed.

Lemma startup_command_bytes ty : is_bytes (startup_command ty).
Proof. unfold startup_command. solve_bytes. Qed.

Lemma extend_command_bytes pcr alg digest n : is_bytes digest -> is_bytes (extend_command pcr alg (sub digest 0 n)).
Proof.
  intros Hd. unfold extend_command, extend_body. repeat apply Forall_app_2; try apply be32_bytes;
    try solve_bytes.
  by apply Forall_take, Forall_drop.
Qed.

(** ** Lemmas: polling *)

Section polling.
Context {D : Type}.
Variables (read : tpm D -> Z * tpm D) (mask : Z).

Definition state_after (k : nat) (g : tpm D) : tpm D := Nat.iter k (fun g => snd (read g)) g.
Definition ready_at (k : nat) (g : tpm D) : Prop := (fst (read (state_after k g)) &&& mask) <> 0.

Lemma poll_iff n : forall g,
  0 < fst (poll n read mask g) <-> exists k, (S k < n)%nat /\ ready_at k g /\
    forall j, (j < k)%nat -> ~ ready_at j g.
Proof.
  induction n as [|n IH]; intros g.
  { cbn. split; [lia|]. intros (k & Hk & _). lia. }
  cbn [poll]. destruct (read g) as [v g'] eqn:E.
  assert (Hs : forall k, state_after (S k) g = state_after k g')
    by (intros k; unfold state_after; rewrite Nat.iter_succ_r, E; reflexivity).
  assert (Hr : forall k, ready_at (S k) g <-> ready_at k g') by (intros k; unfold ready_at; by rewrite Hs).
  assert (H0 : ready_at 0 g <-> (v &&& mask) <> 0) by (unfold ready_at; cbn; by rewrite E).
  destruct (Z.eqb_spec (v &&& mask) 0) as [Ez|Ez]; cbn [fst].
  - rewrite IH. split.
    + intros (k & Hk & Hy & Hn). exists (S k). split; [lia|]. rewrite Hr. split; [assumption|].
      intros [|j] Hj; [rewrite H0; lia|]. rewrite Hr. apply Hn. lia.
    + intros ([|k] & Hk & Hy & Hn); [rewrite H0 in Hy; lia|]. exists k. split; [lia|].
      rewrite Hr in Hy. split; [assumption|]. intros j Hj. rewrite <- Hr. apply Hn. lia.
  - split.
    + intros H. exists 0%nat. split; [lia|]. split; [by apply H0|]. lia.
    + intros ([|k] & Hk & _ & Hn); [lia|]. exfalso. apply (Hn 0%nat); [lia|]. by apply H0.
Qed.
End polling.

(** ** Properties *)

(** C29. The driver follows the TIS protocol with every device behind the
    registers, ready or not.  A startup, self-test or PCR extend command on an
    initialised TIS interface changes nothing but the device, through exactly one
    exchange: status reads until commandReady is seen, at most 1000 of them (the
    bit must be seen before the last one); the bytes of the command, each once and
    in order, and GO, never before commandReady was seen; at most 5000 status reads
    for dataAvail; then the response, a status read before each byte, for as long
    as dataAvail is set and fewer than 64 bytes were read.  The result is -1 after
    a time-out and otherwise 0 exactly when at least ten bytes came with a zero
    response code. *)
Theorem tpm_command_protocol {D} `{!Bus D} (g : tpm D) ty pcr alg digest :
  g_tpm_initialized g = true -> g_tpm_interface g = TPM2_INTERFACE_TIS ->
  0 <= pcr <= 23 -> is_bytes digest -> (if alg =? TPM2_ALG_SHA256 then 32 else 20) <= zlen digest ->
  session g (startup_command ty) (tpm2_startup g ty) /\
  session g self_test_command (tpm2_self_test g) /\
  exists res, tpm2_pcr_extend g pcr alg (Some digest) = Ret res /\
    session g (extend_command pcr alg (sub digest 0 (if alg =? TPM2_ALG_SHA256 then 32 else 20))) res.
Proof.
  intros Hin Hi Hp Hd Hl. unfold tpm2_startup, tpm2_self_test, tpm2_pcr_extend. rewrite Hin. cbn [negb orb].
  rewrite (proj2 (Z.ltb_ge 23 pcr)), (proj2 (Z.ltb_ge (zlen digest) _)) by lia.
  split; [|split; [|eexists; split; [reflexivity|]]]; apply exec_session; try done.
  - apply startup_command_bytes.
  - solve_bytes.
  - by apply extend_command_bytes.
Qed.

(** A device that answers the reads from a list and takes every write. *)
#[export] Instance script_bus : Bus (list Z) :=
  {| bus_read l _ := (zget l 0, drop 1 l); bus_write l _ _ := l |}.

(** Two polls before commandReady, one before dataAvail, and a ten-byte response
    with response code 0. *)
Definition sample_script : list Z :=
  [0; 64; 0; 16] ++ (zeros 10 ≫= fun b => [16; b]) ++ [0].

Lemma tpm_command_protocol_witness :
  let g := mk_tpm TPM2_INTERFACE_TIS 0xFED40000 true no_log sample_script in
  session g self_test_command (tpm2_self_test g) /\ fst (tpm2_self_test g) = 0.
Proof.
  intros g. split; [|by vm_compute].
  apply (tpm_command_protocol g 0 0 TPM2_ALG_SHA256 (zeros 32)); [done|done|lia|apply is_bytes_zeros|by vm_compute].
Defined.

(** The commands are well formed: each carries its own length in its header,
    and the PCR_Extend command ends with the index, the algorithm and the
    digest, big-endian. *)
Theorem extend_command_wf pcr alg digest :
  in_u 32 pcr -> in_u 16 alg -> zlen digest <= 64 ->
  be_val (sub (extend_command pcr alg digest) 2 4) = zlen (extend_command pcr alg digest) /\
  be_val (sub (extend_command pcr alg digest) 10 4) = pcr /\
  be_val (sub (extend_command pcr alg digest) 22 2) = alg /\
  drop 24 (extend_command pcr alg digest) = digest /\
  be_val (sub (startup_command alg) 2 4) = zlen (startup_command alg) /\
  be_val (sub self_test_command 2 4) = zlen self_test_command.
Proof.
  intros Hp Ha Hd. pose proof (zlen_nonneg digest) as H0.
  assert (E4 : forall v, in_u 32 v -> be_val (be32 v) = v).
  { intros v Hv. unfold be_val, be32. cbn [rev app le_val]. change 0xFF with (Z.ones 8).
    rewrite !Z.land_ones, !Z.shiftr_div_pow2 by lia. unfold in_u in Hv. dlia. }
  assert (E2 : forall v, in_u 16 v -> be_val [(v >>> 8) &&& 0xFF; v &&& 0xFF] = v).
  { intros v Hv. unfold be_val. cbn [rev app le_val]. change 0xFF with (Z.ones 8).
    rewrite !Z.land_ones, !Z.shiftr_div_pow2 by lia. unfold in_u in Hv. dlia. }
  assert (Hz : zlen (extend_body pcr alg digest) = 18 + zlen digest)
    by (unfold extend_body, be32, zlen; cbn [app length]; lia).
  assert (Ht : zlen (extend_command pcr alg digest) = 24 + zlen digest)
    by (unfold extend_command; rewrite Hz; unfold extend_body, be32, zlen; cbn [app length]; lia).
  split_and!; try reflexivity.
  - rewrite Ht. change (sub (extend_command pcr alg digest) 2 4)
      with (be32 (6 + zlen (extend_body pcr alg digest))).
    rewrite Hz, E4 by (unfold in_u; lia). lia.
  - by apply E4.
  - by apply E2.
Qed.

Lemma extend_command_wf_witness :
  be_val (sub (extend_command 9 11 (zeros 32)) 2 4) = zlen (extend_command 9 11 (zeros 32)).
Proof. apply extend_command_wf; try (unfold in_u; lia). by vm_compute. Defined.

(** A wait of [n] polls succeeds exactly when the bit is seen set within the
    first [n - 1] polls: a bit that comes up on the last poll is reported as a
    time-out. *)
Theorem poll_success_iff {D} (read : tpm D -> Z * tpm D) mask n g :
  0 < fst (poll n read mask g) <-> exists k, (S k < n)%nat /\ ready_at read mask k g /\
    forall j, (j < k)%nat -> ~ ready_at read mask j g.
Proof. apply poll_iff. Qed.

(** Adding to a well-formed event log either appends the event with the
    truncated hash of data and description, stores the bytes at the old end of
    the buffer and keeps the log well formed, or, when the log is full, changes
    nothing and returns -1. *)
Theorem event_log_add_functional l pcr ty data ds d :
  log_wf l -> 0 <= ds <= zlen data -> ds + zlen (desc_bytes d) < 2 ^ 31 - 32 ->
  let p := payload data ds d in
  tpm2_event_log_add l pcr ty (Some data) ds d =
    Ret (if log_room l p then (0, logged l pcr ty p) else (-1, l)) /\
  (log_room l p = true -> log_wf (logged l pcr ty p)).
Proof. intros Hw Hd Hn p. split; [by apply event_log_add_eq|by apply logged_wf]. Qed.

Lemma event_log_add_functional_witness :
  let l := mk_log [] 0 2 (zeros 100) 0 100 in
  tpm2_event_log_add l 8 4 (Some [1; 2]) 2 None =
  Ret (if log_room l (payload [1; 2] 2 None) then (0, logged l 8 4 (payload [1; 2] 2 None)) else (-1, l)).
Proof.
  intros l. apply (event_log_add_functional l 8 4 [1; 2] 2 None).
  - unfold l, log_wf. cbn [log_buffer max_log_size log_size event_count events max_events].
    change (zlen (zeros 100)) with 100. change (zlen []) with 0. lia.
  - split; by vm_compute.
  - by vm_compute.
Defined.

(** Once the TPM counts as initialised, [measured_boot_init] returns 0 with
    PCRs 0 to 7 marked as measured whatever the device answers: failed extends
    and a failed earlier self-test go unnoticed. *)
Theorem measured_boot_init_ignores_device {D} `{!Bus D} (g : tpm D) :
  g_tpm_initialized g = true -> log_wf (g_global_event_log g) ->
  exists log g', measured_boot_init (fun _ => true) g =
    Ret (0, mk_mbc 0 0xFF (zeros 256) log, g') /\ log_wf log /\
    log_wf (g_global_event_log g').
Proof.
  intros Hi Hw. unfold measured_boot_init, bring_up. rewrite Hi. cbn [negb Z.eqb].
  unfold tpm2_event_log_init. cbn [negb Z.eqb].
  destruct (separators_spec [0; 1; 2; 3; 4; 5; 6; 7] g 0 Hw) as (g' & -> & Hw').
  bind_step. do 2 eexists. split; [reflexivity|]. split; [|exact Hw'].
  unfold log_wf. cbn [log_buffer max_log_size log_size event_count events max_events].
  rewrite zlen_zeros by lia. change (zlen []) with 0. lia.
Qed.

(** A device that never answers. *)
#[export] Instance dead_bus : Bus unit := {| bus_read _ _ := (0, tt); bus_write _ _ _ := tt |}.

Lemma measured_boot_init_ignores_device_witness :
  exists log g', measured_boot_init (fun _ => true)
    (mk_tpm TPM2_INTERFACE_CRB 0 true (mk_log [] 0 1 (zeros 10) 0 10) tt) =
    Ret (0, mk_mbc 0 0xFF (zeros 256) log, g') /\ log_wf log /\ log_wf (g_global_event_log g').
Proof.
  apply measured_boot_init_ignores_device; [reflexivity|].
  unfold log_wf. cbn [g_global_event_log log_buffer max_log_size log_size event_count events max_events].
  change (zlen (zeros 10)) with 10. change (zlen []) with 0. lia.
Defined.
