(* ===== verification/Fat32.v ===== *)
(** * FAT32 (src/fs/fat32.c)

    Mounting, FAT lookup, cluster reads, path lookup, file reads and directory
    listing of the FAT32 driver.  The disk is the parameter [read_sector] (an
    external function), [malloc] says which allocations succeed.  A path is the
    byte string before its NUL. *)

From S2P Require Import Prelude.

Definition ATTR_DIRECTORY : Z := 0x10.
Definition ATTR_LONG_NAME : Z := 0x0F.

(** [strchr]: the index of the first [c]. *)
Fixpoint strchr (l : bytes) (c : Z) : option nat :=
  match l with
  | [] => None
  | x :: l' => if x =? c then Some 0%nat else S <$> strchr l' c
  end.

(** [while ( *path == '/') path++;] *)
Fixpoint skip_slashes (path : bytes) : bytes :=
  match path with
  | x :: path' => if x =? 47 then skip_slashes path' else path
  | [] => []
  end.

(** A field of [n] bytes at offset [off]. *)
Definition field (l : bytes) (off n : Z) : Z := le_val (sub l off n).

Record fat32_private_t := mk_fat {
  fp_lba : Z;
  bs_bytes_per_sector : Z;
  bs_sectors_per_cluster : Z;
  fat_begin_lba : Z;
  cluster_begin_lba : Z;
  root_dir_first_cluster : Z;
  bytes_per_cluster : Z;
  total_clusters : Z
}.

Section fat32.
Variable read_sector : Z -> bytes.
Variable malloc : Z -> bool.
Implicit Types priv : fat32_private_t.

(** ** Clusters *)

Definition fat32_get_cluster priv (cluster : Z) : run Z :=
  if 0x0FFFFFF8 <=? cluster then mret 0x0FFFFFFF
  else
    let fat_offset := u32 (cluster * 4) in
    if bs_bytes_per_sector priv =? 0 then UB
    else
      let fat_sector := u32 (fat_begin_lba priv + fat_offset / bs_bytes_per_sector priv) in
      let entry_offset := fat_offset mod bs_bytes_per_sector priv in
      v ← rd_le (read_sector fat_sector) entry_offset 4;
      mret (v &&& 0x0FFFFFFF).

(** [read_sector(first_sector + i, buffer + i * bytes_per_sector)] *)
Fixpoint read_sectors (n : nat) priv (first_sector i : Z) (buffer : bytes) : run bytes :=
  match n with
  | O => Ret buffer
  | S n' =>
      buffer ← memcpy buffer (u32 (i * bs_bytes_per_sector priv))
                 (read_sector (u32 (first_sector + i))) 0 512;
      read_sectors n' priv first_sector (i + 1) buffer
  end.

Definition fat32_read_cluster priv (cluster : Z) (buffer : bytes) : run (option bytes) :=
  if (cluster <? 2) || (u32 (total_clusters priv + 2) <=? cluster) then mret None
  else
    let first_sector := u32 (cluster_begin_lba priv +
                             (cluster - 2) * bs_sectors_per_cluster priv) in
    b ← read_sectors (Z.to_nat (bs_sectors_per_cluster priv)) priv first_sector 0 buffer;
    mret (Some b).

(** ** Path lookup *)

(** The 8.3 form of a path component, in upper case. *)
Definition upcase (b : Z) : Z := if (97 <=? b) && (b <=? 122) then b - 97 + 65 else b.

Definition fatname (component : bytes) : bytes :=
  let blank := replicate 11 32 in
  let name :=
    match strchr component 46 with
    | Some dot =>
        let ext := drop (S dot) component in
        splice (splice blank 0 (take (Nat.min dot 8) component)) 8 (take 3 ext)
    | None => splice blank 0 (take 8 component)
    end in
  map upcase name.

Definition dent_cluster (d : bytes) : Z := u32 (field d 20 2 <<< 16) ||| field d 26 2.
Definition dent_size (d : bytes) : Z := field d 28 4.
Definition dent_attr (d : bytes) : Z := zget d 11.

(** The directory entries skipped by both walks. *)
Definition skipped (d : bytes) : bool :=
  (zget d 0 =? 0xE5) || ((dent_attr d &&& ATTR_LONG_NAME) =? ATTR_LONG_NAME).

Inductive scan := Found (cluster size : Z) | EndOfDirectory | NextCluster.

(** The loop over the entries of one cluster, [n] of them left. *)
Fixpoint scan_entries (n : nat) (buf : bytes) (i : Z) (name : bytes) : run scan :=
  match n with
  | O => Ret NextCluster
  | S n' =>
      let d := sub buf i 32 in
      if zget d 0 =? 0 then Ret EndOfDirectory
      else if zlen d <? 32 then UB
      else if skipped d then scan_entries n' buf (i + 32) name
      else if bool_decide (sub d 0 11 = name) then Ret (Found (dent_cluster d) (dent_size d))
      else scan_entries n' buf (i + 32) name
  end.

Definition entries_per_cluster priv : nat := Z.to_nat ((bytes_per_cluster priv + 31) / 32).

(** [while (current_cluster < 0x0FFFFFF8)]: a chain of more than
    [total_clusters] readable clusters is a cycle, which the code would follow
    for ever. *)
Fixpoint scan_chain (fuel : nat) priv (cluster : Z) (buf name : bytes) : run (option (Z * Z)) :=
  if 0x0FFFFFF8 <=? cluster then Ret None
  else match fuel with
       | O => OutOfFuel
       | S fuel' =>
           r ← fat32_read_cluster priv cluster buf;
           match r with
           | None => mret None
           | Some buf =>
               s ← scan_entries (entries_per_cluster priv) buf 0 name;
               match s with
               | Found c sz => mret (Some (c, sz))
               | EndOfDirectory => mret None
               | NextCluster =>
                   next ← fat32_get_cluster priv cluster;
                   scan_chain fuel' priv next buf name
               end
           end
       end.

Definition chain_fuel priv : nat := Z.to_nat (total_clusters priv + 2).

(** Searching one component; the search starts in the root directory. *)
Definition find_component priv (component : bytes) : run (option (Z * Z)) :=
  if negb (malloc (bytes_per_cluster priv)) then mret None
  else scan_chain (chain_fuel priv) priv (root_dir_first_cluster priv)
         (zeros (bytes_per_cluster priv)) (fatname component).

(** The result is the cluster and the size; [None] is -1.  The recursive call
    is on the rest of the path, so the length of the path is enough fuel. *)
Fixpoint find_file_fuel (fuel : nat) priv (path : bytes) : run (option (Z * Z)) :=
  match fuel with
  | O => OutOfFuel
  | S fuel' =>
      let path := skip_slashes path in
      match path with
      | [] => mret (Some (root_dir_first_cluster priv, 0))
      | _ =>
          let next := strchr path 47 in
          let len := match next with Some n => n | None => length path end in
          if (256 <=? len)%nat then mret None
          else
            r ← find_component priv (take len path);
            match r, next with
            | None, _ => mret None
            | Some found, None => mret (Some found)
            | Some _, Some n => find_file_fuel fuel' priv (drop (S n) path)
            end
      end
  end.

Definition fat32_find_file priv (path : bytes) : run (option (Z * Z)) :=
  find_file_fuel (S (length path)) priv path.

(** ** Reading a file *)

Fixpoint skip_clusters (n : nat) priv (cluster : Z) : run (option Z) :=
  match n with
  | O => Ret (Some cluster)
  | S n' =>
      c ← fat32_get_cluster priv cluster;
      if 0x0FFFFFF8 <=? c then mret None else skip_clusters n' priv c
  end.

(** Every turn copies at least one byte: [size + 1] turns are enough. *)
Fixpoint read_loop (fuel : nat) priv (cluster : Z) (buf : bytes)
  (bytes_read size offset_in_cluster : Z) : run (Z * bytes) :=
  if negb ((bytes_read <? size) && (cluster <? 0x0FFFFFF8)) then Ret (s32 bytes_read, buf)
  else match fuel with
       | O => OutOfFuel
       | S fuel' =>
           if negb (malloc (bytes_per_cluster priv)) then Ret (-1, buf)
           else
             r ← fat32_read_cluster priv cluster (zeros (bytes_per_cluster priv));
             match r with
             | None => mret (-1, buf)
             | Some cluster_buf =>
                 let to_copy := u32 (bytes_per_cluster priv - offset_in_cluster) in
                 let to_copy := if size <? u32 (bytes_read + to_copy)
                                then u32 (size - bytes_read) else to_copy in
                 buf ← memcpy buf bytes_read cluster_buf offset_in_cluster to_copy;
                 next ← fat32_get_cluster priv cluster;
                 read_loop fuel' priv next buf (u32 (bytes_read + to_copy)) size 0
             end
       end.

(** Return value and the caller's buffer. *)
Definition fat32_read priv (path buf : bytes) (size offset : Z) : run (Z * bytes) :=
  r ← fat32_find_file priv path;
  match r with
  | None => mret (-1, buf)
  | Some (cluster, file_size) =>
      if file_size <=? offset then mret (0, buf)
      else
        let size := if file_size <? u32 (offset + size) then u32 (file_size - offset) else size in
        if bytes_per_cluster priv =? 0 then UB
        else
          let cluster_offset := offset / bytes_per_cluster priv in
          let offset_in_cluster := offset mod bytes_per_cluster priv in
          c ← skip_clusters (Z.to_nat cluster_offset) priv cluster;
          match c with
          | None => mret (-1, buf)
          | Some cluster =>
              read_loop (Z.to_nat (size + 1)) priv cluster buf 0 size offset_in_cluster
          end
  end.

(** ** Listing a directory *)

Definition not_blank (l : bytes) : bytes :=
  take (match strchr l 32 with Some n => n | None => length l end) l.

(** The 8.3 name in normal form. *)
Definition display_name (d : bytes) : bytes :=
  not_blank (sub d 0 8) ++
  (if zget d 8 =? 32 then [] else 46 :: not_blank (sub d 8 3)).

(** The bytes appended to [buffer], and whether the listing is over. *)
Fixpoint list_entries (n : nat) (buf : bytes) (i offset size : Z) : run (bytes * bool) :=
  match n with
  | O => Ret ([], false)
  | S n' =>
      let d := sub buf i 32 in
      if zget d 0 =? 0 then Ret ([], true)
      else if zlen d <? 32 then UB
      else if skipped d then list_entries n' buf (i + 32) offset size
      else
        let name := display_name d in
        if size <? offset + (zlen name + 2) then Ret ([], true)
        else
          r ← list_entries n' buf (i + 32) (offset + zlen name + 1) size;
          let '(out, stop) := r in mret (name ++ [10] ++ out, stop)
  end.

Fixpoint list_chain (fuel : nat) priv (cluster : Z) (buf : bytes) (offset size : Z)
  : run (option bytes) :=
  if 0x0FFFFFF8 <=? cluster then Ret (Some [])
  else match fuel with
       | O => OutOfFuel
       | S fuel' =>
           r ← fat32_read_cluster priv cluster buf;
           match r with
           | None => mret None
           | Some buf =>
               e ← list_entries (entries_per_cluster priv) buf 0 offset size;
               let '(out, stop) := e in
               if stop : bool then mret (Some out)
               else
                 next ← fat32_get_cluster priv cluster;
                 rest ← list_chain fuel' priv next buf (offset + zlen out) size;
                 mret (app out <$> rest)
           end
       end.

(** Return value and the text stored in the caller's buffer (on -1 the buffer
    may hold the text of the clusters read so far). *)
Definition fat32_read_dir priv (path : bytes) (size : Z) : run (Z * bytes) :=
  r ← fat32_find_file priv path;
  match r with
  | None => mret (-1, [])
  | Some (cluster, _) =>
      if negb (malloc (bytes_per_cluster priv)) then mret (-1, [])
      else
        t ← list_chain (chain_fuel priv) priv cluster (zeros (bytes_per_cluster priv)) 0 size;
        match t with
        | None => mret (-1, [])
        | Some text => mret (zlen text, text)
        end
  end.

(** [size], [is_dir]; [None] is -1. *)
Definition fat32_get_info priv (path : bytes) : run (option (Z * bool)) :=
  r ← fat32_find_file priv path;
  mret (match r with
        | None => None
        | Some (cluster, size) => Some (size, negb ((cluster &&& ATTR_DIRECTORY) =? 0))
        end).

(** ** Mounting *)

Definition fat32_mount (lba : Z) : run (option fat32_private_t) :=
  if negb (malloc 536) then mret None
  else
    let bs := read_sector lba in
    if negb (field bs 510 2 =? 0xAA55) then mret None
    else
      let bps := field bs 11 2 in
      let spc := field bs 13 1 in
      let fat_begin := u32 (lba + field bs 14 2) in
      let fat_size := if field bs 36 4 =? 0 then field bs 22 2 else field bs 36 4 in
      let cluster_begin := u32 (fat_begin + field bs 16 1 * fat_size) in
      let total := if field bs 32 4 =? 0 then field bs 19 2 else field bs 32 4 in
      let data_sectors := u32 (total - u32 (cluster_begin - lba)) in
      if spc =? 0 then UB
      else mret (Some (mk_fat lba bps spc fat_begin cluster_begin (field bs 44 4)
                         (bps * spc) (data_sectors / spc))).

Definition fat32_detect (lba : Z) : bool :=
  let bs := read_sector lba in
  let bps := field bs 11 2 in
  let spc := field bs 13 1 in
  (field bs 510 2 =? 0xAA55) &&
  bool_decide (sub bs 82 8 = [70; 65; 84; 51; 50; 32; 32; 32]) &&
  ((bps &&& (bps - 1)) =? 0) && (512 <=? bps) && (bps <=? 4096) &&
  ((spc &&& (spc - 1)) =? 0) && negb (spc =? 0).

End fat32.

(** ** The abstract file system

    A volume with 512-byte sectors; the contents of a cluster, and of a chain of
    clusters. *)

Section volume.
Variable read_sector : Z -> bytes.
Hypothesis sector_size : forall lba, length (read_sector lba) = 512%nat.
Implicit Types priv : fat32_private_t.

Record geometry_ok priv : Prop := {
  geo_bps : bs_bytes_per_sector priv = 512;
  geo_spc : 1 <= bs_sectors_per_cluster priv < 256;
  geo_bpc : bytes_per_cluster priv = 512 * bs_sectors_per_cluster priv;
  geo_total : 0 <= total_clusters priv < 2 ^ 28 - 10
}.

Definition first_sector_of priv (c : Z) : Z :=
  u32 (cluster_begin_lba priv + (c - 2) * bs_sectors_per_cluster priv).

Definition cluster_data priv (c : Z) : bytes :=
  concat (map (fun i => read_sector (u32 (first_sector_of priv c + i)))
              (seqZ 0 (bs_sectors_per_cluster priv))).

Definition valid_cluster priv (c : Z) : Prop := 2 <= c < total_clusters priv + 2.

(** [chain priv c l]: the FAT links [c] to the clusters [l] and then to an end
    marker. *)
Inductive chain priv : Z -> list Z -> Prop :=
| chain_end c : 0x0FFFFFF8 <= c -> chain priv c []
| chain_step c n l : valid_cluster priv c ->
    fat32_get_cluster read_sector priv c = Ret n -> chain priv n l -> chain priv c (c :: l).

Definition chain_data priv (l : list Z) : bytes := concat (map (cluster_data priv) l).

Lemma concat_sectors_length (f : Z -> Z) n : forall i,
  zlen (concat (map (fun i => read_sector (f i)) (seqZ i (Z.of_nat n)))) = 512 * Z.of_nat n.
Proof.
  induction n as [|n IH]; intros i; [reflexivity|].
  rewrite seqZ_cons, Nat2Z.inj_succ, Z.pred_succ by lia. cbn [map concat].
  rewrite zlen_app, IH. unfold zlen. rewrite sector_size. lia.
Qed.

Lemma zlen_cluster_data priv c : geometry_ok priv ->
  zlen (cluster_data priv c) = bytes_per_cluster priv.
Proof.
  intros [Hb Hs Hc Ht]. unfold cluster_data.
  rewrite <- (Z2Nat.id (bs_sectors_per_cluster priv)) at 1 by lia.
  rewrite (concat_sectors_length (fun i => u32 (first_sector_of priv c + i))). lia.
Qed.

(** Filling the buffer sector by sector. *)
Lemma read_sectors_eq priv first n : forall i (a b : bytes),
  bs_bytes_per_sector priv = 512 -> 0 <= i -> zlen a = 512 * i ->
  zlen b = 512 * Z.of_nat n -> 512 * (i + Z.of_nat n) < 2 ^ 32 ->
  read_sectors read_sector n priv first i (a ++ b) =
  Ret (a ++ concat (map (fun i => read_sector (u32 (first + i))) (seqZ i (Z.of_nat n)))).
Proof.
  induction n as [|n IH]; intros i a b Hbps Hi Ha Hb Hw.
  { change (seqZ i (Z.of_nat 0)) with (@nil Z). destruct b; [reflexivity|]. unfold zlen in Hb. cbn [length] in Hb. lia. }
  cbn [read_sectors]. rewrite Hbps, wrap_small by (unfold in_u; lia).
  assert (Hl : zlen (read_sector (u32 (first + i))) = 512) by (unfold zlen; by rewrite sector_size).
  rewrite memcpy_app by lia. bind_step. rewrite (sub_all (read_sector _)) by lia.
  rewrite app_assoc, IH; try assumption; try lia.
  - rewrite (seqZ_cons i) by lia. rewrite Nat2Z.inj_succ, Z.pred_succ. cbn [map concat].
    by rewrite <- app_assoc.
  - rewrite zlen_app. lia.
  - unfold zlen in *. rewrite length_drop. lia.
Qed.

Lemma read_cluster_eq priv c (buf : bytes) :
  geometry_ok priv -> valid_cluster priv c -> zlen buf = bytes_per_cluster priv ->
  fat32_read_cluster read_sector priv c buf = Ret (Some (cluster_data priv c)).
Proof.
  intros [Hb Hs Hc Ht] [Hc1 Hc2] Hl. unfold fat32_read_cluster.
  rewrite (wrap_small 32 (total_clusters priv + 2)) by (unfold in_u; lia).
  replace ((c <? 2) || (total_clusters priv + 2 <=? c)) with false by (symmetry; zbool).
  pose proof (read_sectors_eq priv (first_sector_of priv c)
    (Z.to_nat (bs_sectors_per_cluster priv)) 0 [] buf) as E. cbn [app] in E.
  unfold first_sector_of in E at 1. rewrite E; [|assumption|lia|reflexivity|lia|lia].
  bind_step. unfold cluster_data. by rewrite Z2Nat.id by lia.
Qed.

Lemma zlen_chain_data priv l : geometry_ok priv ->
  zlen (chain_data priv l) = bytes_per_cluster priv * zlen l.
Proof.
  intros Hg. unfold chain_data. induction l as [|c l IH]; cbn [map concat].
  { unfold zlen. cbn [length]. lia. }
  rewrite zlen_app, IH, zlen_cluster_data by assumption. unfold zlen. cbn [length]. lia.
Qed.

Lemma valid_not_end priv c : geometry_ok priv -> valid_cluster priv c -> c < 0x0FFFFFF8.
Proof. intros [? ? ? Ht] [_ Hc]. lia. Qed.

(** Skipping [n] clusters drops them from the chain. *)
Lemma skip_clusters_eq priv n : geometry_ok priv -> forall c l,
  chain priv c l -> (n < length l)%nat ->
  exists c', skip_clusters read_sector n priv c = Ret (Some c') /\ chain priv c' (drop n l).
Proof.
  intros Hg. induction n as [|n IH]; intros c l Hc Hn; [exists c; split; [done|by rewrite drop_0]|].
  destruct Hc as [|c nx l Hv Hget Hc]; [cbn in Hn; lia|]. cbn [skip_clusters length drop] in *.
  rewrite Hget. bind_step. pose proof Hc as Hc'. destruct Hc as [e He|nx n2 l2 Hv2 Hg2 Hc2].
  { cbn [length] in Hn. lia. }
  pose proof (valid_not_end priv nx Hg Hv2).
  replace (0x0FFFFFF8 <=? nx) with false by (symmetry; zbool). apply IH; [assumption|lia].
Qed.

(** The read loop copies the bytes of the chain from its offset on. *)
Lemma read_loop_eq priv size l : geometry_ok priv -> forall fuel c (buf : bytes) br oic,
  chain priv c l -> 0 <= oic < bytes_per_cluster priv -> 0 <= br <= size ->
  size - br <= zlen (chain_data priv l) - oic \/ size = br -> size <= zlen buf -> size < 2 ^ 31 ->
  size - br < Z.of_nat fuel ->
  read_loop read_sector (fun _ => true) fuel priv c buf br size oic =
  Ret (size, splice buf br (sub (chain_data priv l) oic (size - br))).
Proof.
  intros Hg. destruct Hg as [Hb Hs Hbc Ht] eqn:Eg. clear Eg.
  assert (Hs32 : forall x, 0 <= x < 2 ^ 31 -> s32 x = x) by (intros x Hx; unfold s32; dlia).
  induction l as [|d l IH]; intros fuel c buf br oic Hc Hoic Hbr Hn Hbuf Hsz Hf.
  { change (zlen (chain_data priv [])) with 0 in Hn. assert (size = br) as -> by lia.
    destruct fuel; cbn [read_loop]; rewrite Z.ltb_irrefl; cbn [andb negb].
    all: rewrite Hs32 by lia. all: by rewrite Z.sub_diag, splice_nil by lia. }
  destruct fuel as [|fuel]; [lia|]. cbn [read_loop].
  destruct (Z.ltb_spec br size) as [Hlt|Hge]; cbn [andb negb].
  2: { assert (size = br) as -> by lia. rewrite Hs32, Z.sub_diag by lia.
       unfold sub. cbn [Z.to_nat take]. by rewrite splice_nil by lia. }
  inversion Hc as [|c0 nx l0 Hv Hget Hc' E1 E2]; subst c0 d l0.
  pose proof (valid_not_end priv c Hg Hv) as He.
  replace (c <? 0x0FFFFFF8) with true by (symmetry; zbool). cbn [negb].
  rewrite read_cluster_eq by (try assumption; rewrite zlen_zeros; lia). bind_step.
  assert (Hcd : zlen (cluster_data priv c) = bytes_per_cluster priv) by (by apply zlen_cluster_data).
  destruct Hn as [Hn| ->]; [|lia].
  change (chain_data priv (c :: l)) with (cluster_data priv c ++ chain_data priv l) in *.
  rewrite zlen_app in Hn. set (bpc := bytes_per_cluster priv) in *.
  rewrite (wrap_small 32 (bpc - oic)) by (unfold in_u; lia).
  rewrite (wrap_small 32 (br + (bpc - oic))) by (unfold in_u; lia).
  rewrite (wrap_small 32 (size - br)) by (unfold in_u; lia).
  set (tc := if size <? _ then _ else _).
  assert (Htc : tc = Z.min (size - br) (bpc - oic))
    by (unfold tc; destruct (Z.ltb_spec size (br + (bpc - oic))); lia).
  clearbody tc. rewrite memcpy_ok by lia. bind_step. rewrite Hget. bind_step.
  rewrite wrap_small by (unfold in_u; lia).
  assert (Hz : zlen (sub (cluster_data priv c) oic tc) = tc) by (apply zlen_sub; lia).
  rewrite IH; try assumption; try (rewrite ?zlen_splice; lia).
  do 2 f_equal. rewrite <- Hz at 2. rewrite splice_splice by
    (rewrite ?Hz; unfold sub, zlen in *; rewrite ?length_take, ?length_drop; lia).
  f_equal. unfold sub in *. cbn [Z.to_nat]. rewrite drop_0.
  rewrite drop_app_le by (unfold zlen in *; lia).
  destruct (Z.le_gt_cases (size - br) (bpc - oic)) as [Hle|Hgt].
  - rewrite (take_app_le (drop _ _)) by (rewrite length_drop; unfold zlen in *; lia).
    replace (Z.to_nat (size - (br + tc))) with 0%nat by lia. rewrite take_0, app_nil_r.
    f_equal. lia.
  - rewrite (take_app (drop _ _)), (take_ge (drop _ (cluster_data priv c)) (Z.to_nat tc)),
      (take_ge (drop _ (cluster_data priv c))) by (rewrite length_drop; unfold zlen in *; lia).
    do 2 f_equal. rewrite length_drop. unfold zlen in *. lia.
Qed.

Lemma chain_data_drop priv n l :
  geometry_ok priv -> chain_data priv (drop n l) =
  drop (Z.to_nat (bytes_per_cluster priv * Z.of_nat n)) (chain_data priv l).
Proof.
  intros Hg. revert l. induction n as [|n IH]; intros l.
  { rewrite Z.mul_0_r. by rewrite !drop_0. }
  destruct l as [|c l]; [unfold chain_data; cbn [drop map concat]; by rewrite drop_nil|].
  cbn [drop]. rewrite IH.
  change (chain_data priv (c :: l)) with (cluster_data priv c ++ chain_data priv l).
  pose proof (zlen_cluster_data priv c Hg) as Hz. unfold zlen in Hz.
  rewrite drop_app_ge by lia. f_equal. lia.
Qed.

Lemma read_file_eq priv c l (buf : bytes) offset n :
  geometry_ok priv -> chain priv c l -> 0 <= offset -> 0 <= n < 2 ^ 31 -> n <= zlen buf ->
  offset + n <= zlen (chain_data priv l) -> offset < zlen (chain_data priv l) ->
  (c' ← skip_clusters read_sector (Z.to_nat (offset / bytes_per_cluster priv)) priv c;
   match c' with
   | None => mret (-1, buf)
   | Some cluster =>
       read_loop read_sector (fun _ => true) (Z.to_nat (n + 1)) priv cluster buf 0 n
         (offset mod bytes_per_cluster priv)
   end) = Ret (n, splice buf 0 (sub (chain_data priv l) offset n)).
Proof.
  intros Hg Hc Ho Hn Hb Hl Hlt. pose proof (zlen_chain_data priv l Hg) as Hz.
  destruct Hg as [Hbps Hs Hbc Ht] eqn:Eg. clear Eg. set (bpc := bytes_per_cluster priv) in *.
  pose proof (Z.div_mod offset bpc ltac:(lia)) as Hd.
  pose proof (Z.mod_pos_bound offset bpc ltac:(lia)) as Hm.
  assert (Hq : 0 <= offset / bpc) by (apply Z.div_pos; lia).
  destruct (skip_clusters_eq priv (Z.to_nat (offset / bpc)) Hg c l Hc) as (c' & -> & Hc').
  { apply Nat2Z.inj_lt. rewrite Z2Nat.id by lia. fold (zlen l).
    apply Z.div_lt_upper_bound; lia. }
  bind_step. assert (Hdd := chain_data_drop priv (Z.to_nat (offset / bpc)) l Hg).
  rewrite Z2Nat.id in Hdd by lia. fold bpc in Hdd.
  assert (Hdl : zlen (chain_data priv (drop (Z.to_nat (offset / bpc)) l)) =
                zlen (chain_data priv l) - bpc * (offset / bpc))
    by (rewrite Hdd; unfold zlen in *; rewrite length_drop; nia).
  assert (Hroom : n - 0 <= zlen (chain_data priv (drop (Z.to_nat (offset / bpc)) l)) - offset mod bpc)
    by (rewrite Hdl; lia).
  rewrite (read_loop_eq priv n (drop (Z.to_nat (offset / bpc)) l) Hg _ c' buf 0 (offset mod bpc)) by (assumption || lia || (left; assumption)).
  do 2 f_equal. rewrite Hdd, Z.sub_0_r. f_equal. unfold sub. rewrite drop_drop. do 2 f_equal. nia.
Qed.

(** *** The root directory

    The [k]-th 32-byte slot of a directory's bytes; an entry the search passes
    over, and the one it stops at. *)

Definition slot (dir : bytes) (k : Z) : bytes := sub dir (32 * k) 32.

Definition passed (name d : bytes) : Prop :=
  zget d 0 <> 0 /\ (skipped d = true \/ sub d 0 11 <> name).

Definition entry_for (name d : bytes) : Prop :=
  zget d 0 <> 0 /\ skipped d = false /\ sub d 0 11 = name.

(** The slots of [dir] up to and with the [k]-th, whose entry is [name]'s. *)
Definition first_entry (dir name : bytes) (k : Z) : Prop :=
  0 <= k /\ 32 * (k + 1) <= zlen dir /\ entry_for name (slot dir k) /\
  forall j, 0 <= j < k -> passed name (slot dir j).

Lemma scan_step n buf i name : zlen (sub buf i 32) = 32 -> passed name (sub buf i 32) ->
  scan_entries (S n) buf i name = scan_entries n buf (i + 32) name.
Proof.
  intros Hl (H0 & Hp). cbn [scan_entries]. rewrite (proj2 (Z.eqb_neq _ _)) by done. rewrite Hl.
  change (32 <? 32) with false. cbv iota. destruct (skipped _); [done|]. rewrite bool_decide_eq_false_2; [done|]. by destruct Hp.
Qed.

Lemma scan_passes (name buf : bytes) m : forall n i, 0 <= i -> 32 * (i + Z.of_nat m) <= zlen buf ->
  (forall j, i <= j < i + Z.of_nat m -> passed name (slot buf j)) ->
  scan_entries (m + n) buf (32 * i) name = scan_entries n buf (32 * (i + Z.of_nat m)) name.
Proof.
  induction m as [|m IH]; intros n i Hi Hb Hp; [by rewrite Z.add_0_r|]. cbn [Nat.add].
  rewrite scan_step; [|apply zlen_sub; lia|apply (Hp i); lia].
  replace (32 * i + 32) with (32 * (i + 1)) by lia. rewrite IH; [f_equal; lia|lia|lia|]. intros j Hj. apply Hp. lia.
Qed.

Lemma scan_hit n (buf name : bytes) i : zlen (sub buf i 32) = 32 -> entry_for name (sub buf i 32) ->
  scan_entries (S n) buf i name = Ret (Found (dent_cluster (sub buf i 32)) (dent_size (sub buf i 32))).
Proof.
  intros Hl (H0 & Hs & Hn). cbn [scan_entries]. rewrite (proj2 (Z.eqb_neq _ _)) by done. rewrite Hl.
  change (32 <? 32) with false. cbv iota. by rewrite Hs, bool_decide_eq_true_2.
Qed.

Lemma slot_app_l (a b : bytes) k : 0 <= k -> 32 * (k + 1) <= zlen a -> slot (a ++ b) k = slot a k.
Proof.
  intros Hk Hl. unfold slot, sub, zlen in *. rewrite drop_app_le by lia.
  rewrite take_app_le; [done|]. rewrite length_drop. lia.
Qed.

Lemma slot_app_r (a b : bytes) n k : zlen a = 32 * n -> 0 <= n -> 0 <= k -> slot (a ++ b) (n + k) = slot b k.
Proof.
  intros Ha Hn Hk. unfold slot, sub, zlen in *. rewrite drop_app_ge by lia. do 2 f_equal. lia.
Qed.

(** Searching the clusters of a chain searches the slots of its bytes. *)
Lemma scan_chain_finds priv name l : geometry_ok priv -> forall fuel c (buf : bytes) k,
  chain priv c l -> (length l <= fuel)%nat -> zlen buf = bytes_per_cluster priv ->
  first_entry (chain_data priv l) name k ->
  scan_chain read_sector fuel priv c buf name =
  Ret (Some (dent_cluster (slot (chain_data priv l) k), dent_size (slot (chain_data priv l) k))).
Proof.
  intros Hg. pose proof Hg as [Hb Hs Hbc Ht]. set (e := 16 * bs_sectors_per_cluster priv).
  assert (He : entries_per_cluster priv = Z.to_nat e) by (unfold entries_per_cluster, e; rewrite Hbc; dlia).
  induction l as [|d l IH]; intros fuel c buf k Hc Hf Hl (Hk & Hkl & He1 & Hp).
  { unfold chain_data, zlen in Hkl. cbn in Hkl. lia. }
  inversion Hc as [|c0 nx l0 Hv Hget Hc' E1 E2]; subst c0 d l0.
  destruct fuel as [|fuel]; [cbn in Hf; lia|]. cbn [scan_chain length] in *.
  rewrite (proj2 (Z.leb_gt _ _)) by (by eapply valid_not_end).
  rewrite read_cluster_eq by done. bind_step. rewrite He.
  pose proof (zlen_cluster_data priv c Hg) as Hcd.
  change (chain_data priv (c :: l)) with (cluster_data priv c ++ chain_data priv l) in *.
  assert (Hcd' : zlen (cluster_data priv c) = 32 * e) by lia.
  destruct (Z.lt_ge_cases k e) as [Hlt|Hge].
  - rewrite slot_app_l in * by lia. replace (Z.to_nat e) with (Z.to_nat k + S (Z.to_nat (e - k - 1)))%nat by lia.
    replace 0 with (32 * 0) at 1 by lia. rewrite scan_passes; [|lia|lia|].
    + rewrite Z.add_0_l, Z2Nat.id by lia. rewrite scan_hit; [done|apply zlen_sub; lia|done].
    + intros j Hj. rewrite <- (slot_app_l _ (chain_data priv l)) by lia. apply Hp. lia.
  - replace (Z.to_nat e) with (Z.to_nat e + 0)%nat by lia. replace 0 with (32 * 0) at 1 by lia.
    rewrite scan_passes; [|lia|lia|].
    + cbn [scan_entries]. bind_step. rewrite Hget. bind_step. replace k with (e + (k - e)) in * by lia.
      rewrite slot_app_r in * by lia. apply IH; [done|lia|lia|]. rewrite zlen_app in Hkl.
      split; [lia|]. split; [lia|]. split; [done|]. intros j Hj.
      rewrite <- (slot_app_r (cluster_data priv c) _ e j) by lia. apply Hp. lia.
    + intros j Hj. rewrite <- (slot_app_l _ (chain_data priv l)) by lia. apply Hp. lia.
Qed.

(** A chain that ends visits no cluster twice, so the fuel is enough. *)
Lemma chain_det priv c l1 : geometry_ok priv -> chain priv c l1 -> forall l2, chain priv c l2 -> l1 = l2.
Proof.
  intros Hg. induction 1 as [c Hc|c n l1 Hv Hn _ IH]; intros l2 H2; inversion H2 as [? Hc2|? n2 l2' Hv2 Hn2 H2']; subst.
  - done.
  - pose proof (valid_not_end priv c Hg Hv2). lia.
  - pose proof (valid_not_end priv c Hg Hv). lia.
  - f_equal. apply IH. congruence.
Qed.

Lemma chain_suffix priv c l d : chain priv c l -> d ∈ l -> exists l', chain priv d l' /\ (length l' <= length l)%nat.
Proof.
  induction 1 as [|c n l Hv Hn Hc IH]; [by intros ?%not_elem_of_nil|]. intros [->|Hd]%elem_of_cons.
  - exists (c :: l). split; [by econstructor|done].
  - destruct (IH Hd) as (l' & H1 & H2). exists l'. split; [done|cbn; lia].
Qed.

Lemma chain_NoDup priv c l : geometry_ok priv -> chain priv c l -> NoDup l /\ Forall (valid_cluster priv) l.
Proof.
  intros Hg. induction 1 as [|c n l Hv Hn Hc (IH & IHv)]; [split; constructor|]. split; [|by constructor].
  constructor; [|done]. intros Hin. destruct (chain_suffix priv n l c Hc Hin) as (l' & Hc' & Hl).
  rewrite (chain_det priv c l' Hg Hc' (c :: l)) in Hl by (by econstructor). cbn in Hl. lia.
Qed.

Lemma chain_length priv c l : geometry_ok priv -> chain priv c l -> (length l <= chain_fuel priv)%nat.
Proof.
  intros Hg Hc. destruct (chain_NoDup priv c l Hg Hc) as (Hd & Hv). unfold chain_fuel.
  rewrite <- (length_seqZ 2 (total_clusters priv + 2)). apply (submseteq_length l), NoDup_submseteq; [done|].
  intros x Hx. rewrite Forall_forall in Hv. specialize (Hv x Hx) as [H1 H2]. apply elem_of_seqZ. lia.
Qed.

Lemma strchr_none l c : Forall (fun x => x <> c) l -> strchr l c = None.
Proof. induction 1 as [|x l Hx _ IH]; [done|]. cbn [strchr]. by rewrite (proj2 (Z.eqb_neq _ _)), IH. Qed.

(** A name of the root directory is found there. *)
Lemma find_in_root priv name rl k : geometry_ok priv ->
  Forall (fun x => x <> 47) name -> (0 < length name < 256)%nat ->
  chain priv (root_dir_first_cluster priv) rl -> first_entry (chain_data priv rl) (fatname name) k ->
  let e := slot (chain_data priv rl) k in
  fat32_find_file read_sector (fun _ => true) priv name = Ret (Some (dent_cluster e, dent_size e)).
Proof.
  intros Hg Hn Hl Hc He e. unfold fat32_find_file. cbn [find_file_fuel].
  assert (Hs : skip_slashes name = name).
  { destruct Hn as [|x a Hx Ha]; [done|]. cbn [skip_slashes]. by rewrite (proj2 (Z.eqb_neq _ _)). }
  rewrite Hs, strchr_none by done. destruct name as [|x nm] eqn:E; [cbn in Hl; lia|]. rewrite <- E in *.
  destruct (Nat.leb_spec 256 (length name)) as [H|_]; [subst; lia|]. rewrite take_ge by done.
  unfold find_component. cbn [negb]. rewrite (scan_chain_finds priv (fatname name) rl Hg _ _ _ k); [done|done| | |done].
  - by eapply chain_length.
  - rewrite zlen_zeros; [done|]. destruct Hg; lia.
Qed.
End volume.

(** ** Properties *)

(** Reading a file refines the abstract contents: when the lookup finds a
    file whose cluster chain holds its data, [fat32_read] ends and stores exactly
    the requested part of the file's bytes at the start of the buffer, clipped at
    the end of the file, and returns its length. *)
Theorem fat32_read_refines read_sector priv path buf size offset c fsize l :
  (forall lba, length (read_sector lba) = 512%nat) -> geometry_ok priv ->
  fat32_find_file read_sector (fun _ => true) priv path = Ret (Some (c, fsize)) ->
  chain read_sector priv c l -> fsize <= zlen (chain_data read_sector priv l) ->
  0 <= offset -> 0 <= size -> offset + size < 2 ^ 31 -> size <= zlen buf ->
  let n := if fsize <=? offset then 0 else Z.min size (fsize - offset) in
  fat32_read read_sector (fun _ => true) priv path buf size offset =
  Ret (n, splice buf 0 (sub (chain_data read_sector priv l) offset n)).
Proof.
  intros Hsec Hg Hfind Hc Hf Ho Hs Hw Hb n. unfold fat32_read. rewrite Hfind. bind_step.
  unfold n. destruct (Z.leb_spec fsize offset) as [Hle|Hgt].
  { unfold sub. cbn [Z.to_nat take]. by rewrite splice_nil by lia. }
  rewrite (wrap_small 32 (offset + size)) by (unfold in_u; lia).
  assert (Hn : (if fsize <? offset + size then u32 (fsize - offset) else size) =
               Z.min size (fsize - offset)).
  { destruct (Z.ltb_spec fsize (offset + size)); [rewrite wrap_small by (unfold in_u; lia)|]; lia. }
  rewrite Hn. assert (Hbpc : bytes_per_cluster priv <> 0) by (destruct Hg; lia).
  destruct (Z.eqb_spec (bytes_per_cluster priv) 0); [contradiction|].
  apply read_file_eq; try assumption; lia.
Qed.

(** A volume with one directory cluster and a five-byte file A in cluster 3. *)
Definition tiny_sector (lba : Z) : bytes :=
  if lba =? 1 then zeros 8 ++ [0xFF; 0xFF; 0xFF; 0x0F] ++ [0xFF; 0xFF; 0xFF; 0x0F] ++ zeros 496
  else if lba =? 2 then [65] ++ replicate 10 32 ++ [0x20] ++ zeros 14 ++ [3; 0; 5; 0; 0; 0] ++ zeros 480
  else if lba =? 3 then [72; 69; 76; 76; 79] ++ zeros 507
  else zeros 512.

Definition tiny : fat32_private_t := mk_fat 0 512 1 1 2 2 512 2.

Lemma tiny_geometry : geometry_ok tiny.
Proof. split; cbn; lia. Qed.

Lemma tiny_chain : chain tiny_sector tiny 3 [3].
Proof.
  apply chain_step with 0x0FFFFFFF; [unfold valid_cluster; cbn; lia|by vm_compute|].
  apply chain_end. lia.
Qed.

Lemma tiny_sector_size lba : length (tiny_sector lba) = 512%nat.
Proof. unfold tiny_sector. by destruct (lba =? 1), (lba =? 2), (lba =? 3). Qed.

Lemma fat32_read_refines_witness :
  fat32_read tiny_sector (fun _ => true) tiny [47; 97] (zeros 4) 4 2 =
  Ret (3, splice (zeros 4) 0 (sub (chain_data tiny_sector tiny [3]) 2 3)).
Proof.
  apply (fat32_read_refines tiny_sector tiny [47; 97] (zeros 4) 4 2 3 5 [3]).
  - exact tiny_sector_size.
  - exact tiny_geometry.
  - vm_compute. reflexivity.
  - exact tiny_chain.
  - by vm_compute.
  - lia.
  - lia.
  - lia.
  - by vm_compute.
Defined.

Lemma length_skip_slashes path : (length (skip_slashes path) <= length path)%nat.
Proof. induction path as [|x path IH]; cbn [skip_slashes length]; [lia|]. destruct (x =? 47); cbn [length]; lia. Qed.

(** Any fuel above the length of the path gives the same result. *)
Lemma find_file_fuel_enough read_sector malloc priv n : forall m path,
  (length path < n)%nat -> (length path < m)%nat ->
  find_file_fuel read_sector malloc n priv path = find_file_fuel read_sector malloc m priv path.
Proof.
  induction n as [|n IH]; intros m path Hn Hm; [lia|]. destruct m as [|m]; [lia|].
  cbn [find_file_fuel]. pose proof (length_skip_slashes path) as Hl.
  destruct (skip_slashes path) as [|x p] eqn:E; [reflexivity|].
  destruct (256 <=? _)%nat; [reflexivity|]. destruct (find_component _ _ _ _) as [r| |]; [|done..].
  cbn [mbind run_bind]. destruct r as [found|]; [|reflexivity].
  destruct (strchr (x :: p) 47) as [k|]; [|reflexivity].
  apply IH; rewrite length_drop; cbn [length] in *; lia.
Qed.

Lemma strchr_app a l c : Forall (fun x => x <> c) a -> strchr (a ++ c :: l) c = Some (length a).
Proof.
  induction 1 as [|x a Hx Ha IH]; cbn [app strchr length]; [by rewrite Z.eqb_refl|].
  destruct (Z.eqb_spec x c); [contradiction|]. by rewrite IH.
Qed.

(** Looking up [a/rest] searches [a] in the root directory and then [rest]
    from the root directory again: the directory found for [a] is not
    entered. *)
Theorem fat32_nested_lookup read_sector malloc priv (a rest : bytes) :
  Forall (fun x => x <> 47) a -> (0 < length a < 256)%nat ->
  fat32_find_file read_sector malloc priv (a ++ 47 :: rest) =
  (r ← find_component read_sector malloc priv a;
   match r with
   | None => mret None
   | Some _ => fat32_find_file read_sector malloc priv rest
   end).
Proof.
  intros Ha Hl. unfold fat32_find_file at 1. cbn [find_file_fuel].
  assert (Hs : skip_slashes (a ++ 47 :: rest) = a ++ 47 :: rest).
  { destruct Ha as [|x a Hx Ha]; [cbn in Hl; lia|]. cbn [app skip_slashes].
    by destruct (Z.eqb_spec x 47). }
  rewrite Hs, strchr_app by assumption.
  destruct (a ++ 47 :: rest) as [|x p] eqn:E; [by destruct a|]. rewrite <- E.
  destruct (Nat.leb_spec 256 (length a)); [lia|]. rewrite take_app_length.
  destruct (find_component read_sector malloc priv a) as [[r|]| |]; try reflexivity.
  cbn [mbind run_bind]. unfold fat32_find_file.
  rewrite drop_app_ge by lia. replace (S (length a) - length a)%nat with 1%nat by lia. cbn [drop].
  apply find_file_fuel_enough; [|lia]. rewrite length_app. cbn [length]. lia.
Qed.

Lemma fat32_nested_lookup_witness :
  fat32_find_file tiny_sector (fun _ => true) tiny ([97] ++ 47 :: [97]) =
  fat32_find_file tiny_sector (fun _ => true) tiny [97].
Proof.
  rewrite (fat32_nested_lookup tiny_sector (fun _ => true) tiny [97] [97]).
  - vm_compute. reflexivity.
  - apply Forall_cons_2; [lia|apply Forall_nil_2].
  - cbn. lia.
Defined.
