(* ===== verification/Ext2.v ===== *)
(** * ext2 (src/fs/ext2.c)

    Superblock and group descriptors, inode lookup, file reads, the root
    directory search and the directory listing of the ext2 driver, with the
    wrappers of its operations table.  [disk_read lba count] is the external disk
    function ([None]: a read error); [kmalloc] says which allocations succeed.
    Structures are read from their byte images at the offsets of ext2.h. *)

From S2P Require Import Prelude Fat32.

Definition EXT2_SUPER_MAGIC : Z := 0xEF53.
Definition EXT2_S_IFMT : Z := 0xF000.
Definition EXT2_S_IFDIR : Z := 0x4000.

(** The string in a character array: the bytes before the first NUL. *)
Definition c_str (l : bytes) : bytes :=
  match strchr l 0 with Some n => take n l | None => l end.

(** ** Structures *)

Definition s_blocks_count (sb : bytes) : Z := field sb 4 4.
Definition s_log_block_size (sb : bytes) : Z := field sb 24 4.
Definition s_blocks_per_group (sb : bytes) : Z := field sb 32 4.
Definition s_inodes_per_group (sb : bytes) : Z := field sb 40 4.
Definition s_magic (sb : bytes) : Z := field sb 56 2.
Definition s_rev_level (sb : bytes) : Z := field sb 76 4.
Definition s_first_ino (sb : bytes) : Z := field sb 84 4.
Definition s_inode_size (sb : bytes) : Z := field sb 88 2.

Definition sizeof_group_desc : Z := 32.
Definition sizeof_inode : Z := 128.

Definition i_mode (i : bytes) : Z := field i 0 2.
Definition i_uid (i : bytes) : Z := field i 2 2.
Definition i_size (i : bytes) : Z := field i 4 4.
Definition i_atime (i : bytes) : Z := field i 8 4.
Definition i_ctime (i : bytes) : Z := field i 12 4.
Definition i_mtime (i : bytes) : Z := field i 16 4.
Definition i_gid (i : bytes) : Z := field i 24 2.
Definition i_links_count (i : bytes) : Z := field i 26 2.
Definition i_block (i : bytes) (k : Z) : Z := field i (40 + 4 * k) 4.

Record ext2_private_t := mk_ext2 {
  e_lba : Z;
  e_sb : bytes;
  block_size : Z;
  inode_size : Z;
  blocks_per_group : Z;
  inodes_per_group : Z;
  inodes_per_block : Z;
  desc_per_block : Z;
  group_count : Z;
  gd : bytes
}.

(** A directory entry handed to the caller. *)
Record fs_dirent_t := mk_dirent {
  de_inode : Z; de_name : bytes; de_name_len : Z; de_file_type : Z
}.

Inductive file_type :=
| FS_FILE_UNKNOWN | FS_FILE_REGULAR | FS_FILE_DIRECTORY | FS_FILE_SYMLINK
| FS_FILE_BLOCK_DEVICE | FS_FILE_CHAR_DEVICE | FS_FILE_FIFO | FS_FILE_SOCKET.

Record fs_file_info_t := mk_info {
  fi_size : Z; fi_mode : Z; fi_uid : Z; fi_gid : Z; fi_atime : Z; fi_ctime : Z;
  fi_mtime : Z; fi_links : Z; fi_type : file_type
}.

Section ext2.
Variable disk_read : Z -> Z -> option bytes.
Variable kmalloc : Z -> bool.
Implicit Types priv : ext2_private_t.

(** ** Blocks *)

(** [count] blocks from [block] on. *)
Definition ext2_read_blocks priv (block count : Z) : option bytes :=
  let per := block_size priv / 512 in
  disk_read (u32 (e_lba priv + block * per)) (u32 (count * per)).

Definition ext2_read_block priv (block_num : Z) : option bytes :=
  ext2_read_blocks priv block_num 1.

Definition ext2_read_superblock (lba : Z) : option bytes := disk_read (u32 (lba + 1024 / 512)) 2.

(** ** Detection and mounting *)

Definition ext2_detect (lba : Z) : Z :=
  match disk_read (u32 (lba + 1024 / 512)) 2 with
  | None => 0
  | Some sb =>
      if negb (s_magic sb =? EXT2_SUPER_MAGIC) then 0
      else if (s_rev_level sb =? 0) && negb (s_first_ino sb =? 11) then 0
      else 1
  end.

(** The number of groups and the descriptor table. *)
Definition ext2_read_group_descriptors priv : run (option (Z * bytes)) :=
  if blocks_per_group priv =? 0 then UB
  else
    let count := u32 (s_blocks_count (e_sb priv) + blocks_per_group priv - 1)
                 / blocks_per_group priv in
    let gd_size := u32 (count * sizeof_group_desc) in
    if negb (kmalloc gd_size) then mret None
    else if block_size priv =? 0 then UB
    else
      let gd_block := 1 + (if 1024 <? block_size priv then 1 else 0) in
      let blocks := u32 (gd_size + block_size priv - 1) / block_size priv in
      match ext2_read_blocks priv gd_block blocks with
      | None => mret None
      | Some data => mret (Some (count, sub data 0 gd_size))
      end.

Definition ext2_mount (lba : Z) : run (option ext2_private_t) :=
  if negb (kmalloc 1064) then mret None
  else match ext2_read_superblock lba with
  | None => mret None
  | Some sb =>
      if negb (s_magic sb =? EXT2_SUPER_MAGIC) then mret None
      else if 31 <? s_log_block_size sb then UB
      else
        let bs := u32 (1024 <<< s_log_block_size sb) in
        let isz := if s_inode_size sb <? 128 then 128 else s_inode_size sb in
        let priv := mk_ext2 lba sb bs isz (s_blocks_per_group sb) (s_inodes_per_group sb)
                      (bs / isz) (bs / sizeof_group_desc) 0 [] in
        g ← ext2_read_group_descriptors priv;
        match g with
        | None => mret None
        | Some (count, table) =>
            mret (Some (mk_ext2 lba sb bs isz (s_blocks_per_group sb) (s_inodes_per_group sb)
                          (bs / isz) (bs / sizeof_group_desc) count table))
        end
  end.

(** ** Inodes *)

Definition ext2_read_inode priv (inode_num : Z) : run (option bytes) :=
  if inode_num =? 0 then mret None
  else if inodes_per_group priv =? 0 then UB
  else
    let group := (inode_num - 1) / inodes_per_group priv in
    if group_count priv <=? group then mret None
    else
      inode_table_block ← rd_le (gd priv) (group * sizeof_group_desc + 8) 4;
      let index := (inode_num - 1) mod inodes_per_group priv in
      let pos := u32 (index * inode_size priv) in
      if block_size priv =? 0 then UB
      else
        let block_offset := pos / block_size priv in
        let inode_offset := pos mod block_size priv in
        if negb (kmalloc (block_size priv)) then mret None
        else match ext2_read_block priv (u32 (inode_table_block + block_offset)) with
        | None => mret None
        | Some block =>
            if block_size priv <? inode_offset + sizeof_inode then UB
            else mret (Some (sub block inode_offset sizeof_inode))
        end.

(** ** Reading a file

    A whole block is stored at [buf + read_bytes] whatever the size of the last
    chunk; [turns] of the twelve direct blocks are left. *)
Fixpoint read_file_loop (turns : nat) priv (inode : bytes) (i : Z) (buf : bytes)
  (read_bytes to_read : Z) : run (Z * bytes) :=
  match turns with
  | O => Ret (0, buf)
  | S turns' =>
      if negb (read_bytes <? to_read) then Ret (0, buf)
      else if i_block inode i =? 0 then Ret (0, buf)
      else
        let chunk := if block_size priv <? to_read - read_bytes then block_size priv
                     else to_read - read_bytes in
        match ext2_read_block priv (i_block inode i) with
        | None => Ret (-1, buf)
        | Some block =>
            buf ← memcpy buf read_bytes block 0 (block_size priv);
            read_file_loop turns' priv inode (i + 1) buf (read_bytes + chunk) to_read
        end
  end.

Definition ext2_read_file priv (inode_num : Z) (buf : bytes) (max_size : Z) : run (Z * bytes) :=
  i ← ext2_read_inode priv inode_num;
  match i with
  | None => mret (-1, buf)
  | Some inode =>
      let to_read := if i_size inode <? max_size then i_size inode else max_size in
      read_file_loop 12 priv inode 0 buf 0 to_read
  end.

(** ** Searching the root directory *)

(** The fields of the entry at [offset] (reads past the block are undefined). *)
Definition dir_name (dir : bytes) (offset name_len : Z) : run bytes :=
  if zlen dir <? offset + 8 + name_len then UB else Ret (c_str (sub dir (offset + 8) name_len)).

Fixpoint find_loop (fuel : nat) (dir : bytes) (bsize offset : Z) (filename : bytes)
  : run (option Z) :=
  if negb (offset <? bsize) then Ret None
  else match fuel with
       | O => OutOfFuel
       | S fuel' =>
           inode_num ← rd_le dir offset 4;
           rec_len ← rd_le dir (offset + 4) 2;
           name_len ← rd dir (offset + 6);
           name ← dir_name dir offset name_len;
           if negb (inode_num =? 0) && bool_decide (name = filename) then mret (Some inode_num)
           else if rec_len =? 0 then mret None
           else find_loop fuel' dir bsize (offset + rec_len) filename
       end.

Definition ext2_find_file priv (filename : bytes) : run (option Z) :=
  i ← ext2_read_inode priv 2;
  match i with
  | None => mret None
  | Some root_inode =>
      match ext2_read_block priv (i_block root_inode 0) with
      | None => mret None
      | Some block =>
          find_loop (Z.to_nat (block_size priv)) (sub block 0 (block_size priv))
            (block_size priv) 0 filename
      end
  end.

(** ** Listing a directory

    The inner loop over one block: the entries found from [offset] on. *)
Fixpoint list_block (fuel : nat) (block : bytes) (bsize offset entry_count max_entries : Z)
  : run (list fs_dirent_t) :=
  if negb ((offset <? bsize) && (entry_count <? max_entries)) then Ret []
  else match fuel with
       | O => OutOfFuel
       | S fuel' =>
           inode ← rd_le block offset 4;
           rec_len ← rd_le block (offset + 4) 2;
           if inode =? 0 then
             list_block fuel' block bsize (offset + rec_len) entry_count max_entries
           else
             name_len ← rd block (offset + 6);
             ftype ← rd block (offset + 7);
             if zlen block <? offset + 8 + name_len then UB
             else
               let e := mk_dirent inode (sub block (offset + 8) name_len) name_len ftype in
               if rec_len =? 0 then mret [e]
               else
                 rest ← list_block fuel' block bsize (offset + rec_len) (entry_count + 1)
                          max_entries;
                 mret (e :: rest)
       end.

Fixpoint list_blocks (fuel turns : nat) priv (inode : bytes) (i entry_count max_entries : Z)
  : run (option (list fs_dirent_t)) :=
  match turns with
  | O => Ret (Some [])
  | S turns' =>
      if i_block inode i =? 0 then Ret (Some [])
      else match ext2_read_block priv (i_block inode i) with
      | None => Ret None
      | Some block =>
          es ← list_block fuel (sub block 0 (block_size priv)) (block_size priv) 0 entry_count
                 max_entries;
          rest ← list_blocks fuel turns' priv inode (i + 1) (entry_count + zlen es) max_entries;
          mret (option_map (app es) rest)
      end
  end.

(** [None] is -1; otherwise the entries, whose number is returned. *)
Definition ext2_list_dir (fuel : nat) priv (path : bytes) (max_entries : Z)
  : run (option (list fs_dirent_t)) :=
  n ← (if decide (path = [47]) then mret (Some 2) else ext2_find_file priv path);
  match n with
  | None => mret None
  | Some inode_num =>
      i ← ext2_read_inode priv inode_num;
      match i with
      | None => mret None
      | Some inode =>
          if negb ((i_mode inode &&& EXT2_S_IFMT) =? EXT2_S_IFDIR) then mret None
          else if negb (kmalloc (block_size priv)) then mret None
          else list_blocks fuel 12 priv inode 0 0 max_entries
      end
  end.

(** ** File information *)

Definition type_of_mode (mode : Z) : file_type :=
  let m := mode &&& EXT2_S_IFMT in
  if m =? 0x8000 then FS_FILE_REGULAR
  else if m =? 0x4000 then FS_FILE_DIRECTORY
  else if m =? 0xA000 then FS_FILE_SYMLINK
  else if m =? 0x6000 then FS_FILE_BLOCK_DEVICE
  else if m =? 0x2000 then FS_FILE_CHAR_DEVICE
  else if m =? 0x1000 then FS_FILE_FIFO
  else if m =? 0xC000 then FS_FILE_SOCKET
  else FS_FILE_UNKNOWN.

Definition ext2_get_info priv (inode_num : Z) : run (option fs_file_info_t) :=
  i ← ext2_read_inode priv inode_num;
  mret (option_map (fun inode => mk_info (i_size inode) (i_mode inode) (i_uid inode) (i_gid inode)
           (i_atime inode) (i_ctime inode) (i_mtime inode) (i_links_count inode)
           (type_of_mode (i_mode inode))) i).

(** ** The wrappers of the operations table *)

(** The [while (remaining > 0)] loop, whatever the [offset] argument. *)
Fixpoint fs_read_loop (fuel : nat) priv (inode_num : Z) (buf : bytes) (pos remaining : Z)
  : run (Z * bytes) :=
  if remaining <=? 0 then Ret (s32 pos, buf)
  else match fuel with
       | O => OutOfFuel
       | S fuel' =>
           let to_read := if block_size priv <? remaining then block_size priv else remaining in
           r ← ext2_read_file priv inode_num (drop (Z.to_nat pos) buf) to_read;
           let '(code, part) := r in
           let buf := take (Z.to_nat pos) buf ++ part in
           if negb (code =? 0) then mret (-1, buf)
           else fs_read_loop fuel' priv inode_num buf (pos + to_read) (remaining - to_read)
       end.

Definition ext2_fs_read_file priv (path buf : bytes) (size offset : Z) : run (Z * bytes) :=
  n ← ext2_find_file priv path;
  match n with
  | None => mret (-1, buf)
  | Some inode_num => fs_read_loop (Z.to_nat size) priv inode_num buf 0 size
  end.

Definition ext2_fs_list_dir := ext2_list_dir.

Definition ext2_fs_get_info priv (path : bytes) : run (option fs_file_info_t) :=
  n ← (if decide (path = [47]) then mret (Some 2) else ext2_find_file priv path);
  match n with
  | None => mret None
  | Some inode_num => ext2_get_info priv inode_num
  end.

Definition ext2_fs_find_file := ext2_find_file.

End ext2.

(** ** Lemmas *)

Section facts.
Variable disk_read : Z -> Z -> option bytes.
Variable kmalloc : Z -> bool.
Implicit Types priv : ext2_private_t.

Lemma ceil_div x bs : 0 < bs ->
  x <= (x + bs - 1) / bs * bs /\ ((x + bs - 1) / bs - 1) * bs < x.
Proof.
  intros H. pose proof (Z.div_mod (x + bs - 1) bs ltac:(lia)).
  pose proof (Z.mod_pos_bound (x + bs - 1) bs H). lia.
Qed.

(** The first [k] direct blocks of [inode] are allocated and readable, with
    contents [data i]. *)
Definition blocks_ok priv (inode : bytes) (k : Z) (data : Z -> bytes) : Prop :=
  forall i, 0 <= i < k -> i_block inode i <> 0 /\
    ext2_read_block disk_read priv (i_block inode i) = Some (data i) /\
    zlen (data i) = block_size priv.

Lemma read_file_loop_eq priv inode to_read k data :
  0 < block_size priv -> 0 <= to_read -> k = (to_read + block_size priv - 1) / block_size priv ->
  blocks_ok priv inode k data ->
  forall j turns i (a b : bytes), (j <= turns)%nat -> 0 <= i -> i + Z.of_nat j = k ->
  zlen a = i * block_size priv -> Z.of_nat j * block_size priv <= zlen b ->
  read_file_loop disk_read turns priv inode i (a ++ b) (Z.min (i * block_size priv) to_read) to_read =
  Ret (0, a ++ concat (map data (seqZ i (Z.of_nat j))) ++
          drop (Z.to_nat (Z.of_nat j * block_size priv)) b).
Proof.
  intros Hbs Ht Hk Hok. set (bs := block_size priv) in *.
  destruct (ceil_div to_read bs Hbs) as [Hup Hlo]. rewrite <- Hk in Hup, Hlo.
  clear Hk. induction j as [|j IH]; intros turns i a b Hj Hi Hik Ha Hb.
  { change (seqZ i (Z.of_nat 0)) with (@nil Z). cbn [map concat Z.of_nat Z.mul Z.to_nat app].
    rewrite drop_0. assert (i = k) as -> by lia. rewrite Z.min_r by lia.
    destruct turns; [reflexivity|]. cbn [read_file_loop]. by rewrite Z.ltb_irrefl. }
  destruct turns as [|turns]; [lia|]. cbn [read_file_loop].
  assert (Hlt : i * bs < to_read) by nia. rewrite Z.min_l by lia.
  replace (i * bs <? to_read) with true by (symmetry; zbool). cbn [negb].
  destruct (Hok i ltac:(lia)) as (Hne & Hrd & Hlen).
  destruct (Z.eqb_spec (i_block inode i) 0); [contradiction|]. rewrite Hrd.
  rewrite memcpy_app by lia. bind_step. rewrite (sub_all (data i)) by lia.
  fold bs. set (chunk := if bs <? to_read - i * bs then bs else to_read - i * bs).
  assert (Hc : i * bs + chunk = Z.min ((i + 1) * bs) to_read)
    by (unfold chunk; destruct (Z.ltb_spec bs (to_read - i * bs)); lia).
  rewrite Hc, app_assoc, IH; [|lia|lia|lia|rewrite zlen_app; lia|].
  - rewrite (seqZ_cons i), Nat2Z.inj_succ, Z.pred_succ by lia. cbn [map concat].
    rewrite drop_drop, <- !app_assoc.
    by replace (Z.to_nat bs + Z.to_nat (Z.of_nat j * bs))%nat
      with (Z.to_nat (Z.succ (Z.of_nat j) * bs)) by nia.
  - unfold zlen in *. rewrite length_drop. nia.
Qed.

(** Without room for whole blocks the block that does not fit is stored past the
    end of the buffer. *)
Lemma read_file_loop_overrun priv inode to_read k data :
  0 < block_size priv -> 0 <= to_read -> k = (to_read + block_size priv - 1) / block_size priv ->
  blocks_ok priv inode k data ->
  forall j turns i (buf : bytes), (j <= turns)%nat -> 0 <= i -> i + Z.of_nat j = k ->
  i * block_size priv <= zlen buf < k * block_size priv ->
  read_file_loop disk_read turns priv inode i buf (Z.min (i * block_size priv) to_read) to_read = UB.
Proof.
  intros Hbs Ht Hk Hok. set (bs := block_size priv) in *.
  destruct (ceil_div to_read bs Hbs) as [Hup Hlo]. rewrite <- Hk in Hup, Hlo.
  clear Hk. induction j as [|j IH]; intros turns i buf Hj Hi Hik Hb; [nia|].
  destruct turns as [|turns]; [lia|]. cbn [read_file_loop].
  assert (Hlt : i * bs < to_read) by nia. rewrite Z.min_l by lia.
  replace (i * bs <? to_read) with true by (symmetry; zbool). cbn [negb].
  destruct (Hok i ltac:(lia)) as (Hne & Hrd & Hlen).
  destruct (Z.eqb_spec (i_block inode i) 0); [contradiction|]. rewrite Hrd.
  destruct (Z.lt_ge_cases (zlen buf) (i * bs + bs)) as [Hover|Hroom]; [rewrite memcpy_overrun by lia; reflexivity|].
  rewrite memcpy_ok by lia. bind_step. rewrite (sub_all (data i)) by lia.
  fold bs. set (chunk := if bs <? to_read - i * bs then bs else to_read - i * bs).
  assert (Hc : i * bs + chunk = Z.min ((i + 1) * bs) to_read)
    by (unfold chunk; destruct (Z.ltb_spec bs (to_read - i * bs)); lia).
  rewrite Hc. apply IH; [lia|lia|lia|]. rewrite zlen_splice by lia. lia.
Qed.

Lemma zlen_blocks priv inode k data : blocks_ok priv inode k data ->
  forall m i, 0 <= i -> i + Z.of_nat m <= k ->
  zlen (concat (map data (seqZ i (Z.of_nat m)))) = Z.of_nat m * block_size priv.
Proof.
  intros Hok. induction m as [|m IH]; intros i Hi0 Hm; [reflexivity|].
  rewrite seqZ_cons, Nat2Z.inj_succ, Z.pred_succ by lia. cbn [map concat].
  rewrite zlen_app, IH by lia. destruct (Hok i ltac:(lia)) as (_ & _ & ->). lia.
Qed.

Lemma first_block_overrun n priv inode (buf : bytes) to_read block :
  0 < to_read -> i_block inode 0 <> 0 ->
  ext2_read_block disk_read priv (i_block inode 0) = Some block -> zlen buf < block_size priv ->
  read_file_loop disk_read (S n) priv inode 0 buf 0 to_read = UB.
Proof.
  intros Ht Hne Hb Hl. cbn [read_file_loop].
  replace (0 <? to_read) with true by (symmetry; zbool). cbn [negb].
  destruct (Z.eqb_spec (i_block inode 0) 0); [contradiction|].
  rewrite Hb, memcpy_overrun by lia. reflexivity.
Qed.
End facts.

(** ** Properties *)

(** C38. Reading a file: of the smaller of the file's size and [max_size] bytes,
    rounded up to whole blocks, when these are at most twelve direct blocks that
    are allocated and readable.  With room for the whole blocks in the buffer the
    call ends and stores the blocks in order at the start of the buffer, leaving the
    rest untouched; they cover the requested bytes.  Without that room, even when
    the requested bytes would fit, the block that does not fit is stored past the
    end of the buffer. *)
Theorem ext2_read_file_functional disk_read kmalloc priv n inode buf max_size data :
  0 < block_size priv -> ext2_read_inode disk_read kmalloc priv n = Ret (Some inode) ->
  let to_read := if i_size inode <? max_size then i_size inode else max_size in
  let k := (to_read + block_size priv - 1) / block_size priv in
  0 <= to_read -> k <= 12 -> blocks_ok disk_read priv inode k data ->
  to_read <= zlen (concat (map data (seqZ 0 k))) /\
  ext2_read_file disk_read kmalloc priv n buf max_size =
  if k * block_size priv <=? zlen buf then Ret (0, splice buf 0 (concat (map data (seqZ 0 k)))) else UB.
Proof.
  intros Hbs Hi to_read k Ht Hk Hok. unfold ext2_read_file. rewrite Hi. bind_step.
  fold to_read. assert (H0 : 0 <= k) by (apply Z.div_pos; lia).
  pose proof (zlen_blocks disk_read priv inode k data Hok (Z.to_nat k) 0) as Hz. rewrite Z2Nat.id in Hz by lia.
  specialize (Hz ltac:(lia) ltac:(lia)). split; [rewrite Hz; by apply ceil_div|].
  destruct (Z.leb_spec (k * block_size priv) (zlen buf)) as [Hb|Hb].
  - pose proof (read_file_loop_eq disk_read priv inode to_read k data Hbs Ht eq_refl Hok
      (Z.to_nat k) 12 0 [] buf ltac:(lia) ltac:(lia) ltac:(lia) eq_refl ltac:(lia)) as E.
    cbn [app] in E. rewrite Z.mul_0_l, Z.min_l in E by lia. rewrite E, Z2Nat.id by lia.
    do 2 f_equal. unfold splice. rewrite take_0. cbn [app]. do 2 f_equal. unfold zlen in Hz. lia.
  - pose proof (read_file_loop_overrun disk_read priv inode to_read k data Hbs Ht eq_refl Hok
      (Z.to_nat k) 12 0 buf ltac:(lia) ltac:(lia) ltac:(lia)) as E.
    rewrite Z.mul_0_l, Z.min_l in E by lia. apply E. pose proof (zlen_nonneg buf). lia.
Qed.

(** The block contents of a small concrete volume: 1024-byte blocks, one group
    whose inode table is block 5, and inode 1 a five-byte file in block 9. *)
Definition small_disk (lba count : Z) : option bytes :=
  if lba =? 10 then Some (zeros 4 ++ [5; 0; 0; 0] ++ zeros 32 ++ [9; 0; 0; 0] ++ zeros 980)
  else if lba =? 18 then Some ([72; 69; 76; 76; 79] ++ zeros 1019)
  else Some (zeros 1024).

Definition small_fs : ext2_private_t :=
  mk_ext2 0 [] 1024 128 8192 8 8 32 1 (zeros 8 ++ [5; 0; 0; 0] ++ zeros 20).

Definition small_inode : bytes := zeros 4 ++ [5; 0; 0; 0] ++ zeros 32 ++ [9; 0; 0; 0] ++ zeros 84.
Definition small_data (i : Z) : bytes := [72; 69; 76; 76; 79] ++ zeros 1019.

Lemma ext2_read_file_functional_witness :
  ext2_read_file small_disk (fun _ => true) small_fs 1 (zeros 2000) 100 =
  Ret (0, splice (zeros 2000) 0 (concat (map small_data (seqZ 0 1)))) /\
  ext2_read_file small_disk (fun _ => true) small_fs 1 (zeros 100) 100 = UB.
Proof.
  assert (H : blocks_ok small_disk small_fs small_inode 1 small_data).
  { intros i Hi. assert (i = 0) as -> by lia. split; [by vm_compute|]. split; vm_compute; reflexivity. }
  split.
  - apply (ext2_read_file_functional small_disk (fun _ => true) small_fs 1 small_inode (zeros 2000) 100
      small_data); [by vm_compute|vm_compute; reflexivity|by vm_compute|by vm_compute|exact H].
  - apply (ext2_read_file_functional small_disk (fun _ => true) small_fs 1 small_inode (zeros 100) 100
      small_data); [by vm_compute|vm_compute; reflexivity|by vm_compute|by vm_compute|exact H].
Defined.

(** A buffer smaller than one block is overrun even when the file and the
    request are small. *)
Theorem ext2_read_file_overrun disk_read kmalloc priv n inode buf max_size block :
  ext2_read_inode disk_read kmalloc priv n = Ret (Some inode) ->
  0 < i_size inode -> 0 < max_size -> i_block inode 0 <> 0 ->
  ext2_read_block disk_read priv (i_block inode 0) = Some block ->
  zlen buf < block_size priv ->
  ext2_read_file disk_read kmalloc priv n buf max_size = UB.
Proof.
  intros Hi Hs Hm Hne Hb Hl. unfold ext2_read_file. rewrite Hi. bind_step.
  apply (first_block_overrun _ 11) with block; try assumption.
  destruct (i_size inode <? max_size); assumption.
Qed.

(** The directory listing does not end on a directory block with an unused
    entry of record length 0: no amount of fuel is enough. *)
Theorem ext2_list_dir_diverges fuel block bsize offset count max_entries :
  0 <= offset < bsize -> bsize <= zlen block -> offset + 6 <= zlen block -> count < max_entries ->
  field block offset 4 = 0 -> field block (offset + 4) 2 = 0 ->
  list_block fuel block bsize offset count max_entries = OutOfFuel.
Proof.
  intros Ho Hb Hl Hc Hi Hr. induction fuel as [|fuel IH]; cbn [list_block].
  all: replace ((offset <? bsize) && (count <? max_entries)) with true by (symmetry; zbool).
  all: cbn [negb]. { reflexivity. }
  unfold rd_le. replace ((0 <=? offset) && (offset + 4 <=? zlen block)) with true by (symmetry; zbool).
  bind_step. replace ((0 <=? offset + 4) && (offset + 4 + 2 <=? zlen block)) with true
    by (symmetry; zbool).
  bind_step. fold (field block offset 4). fold (field block (offset + 4) 2). rewrite Hi, Hr.
  cbn [Z.eqb]. rewrite Z.add_0_r. exact IH.
Qed.

Lemma ext2_list_dir_diverges_witness :
  list_block 1000 (zeros 1024) 1024 0 0 10 = OutOfFuel.
Proof.
  apply ext2_list_dir_diverges; first [lia | by vm_compute | split; by vm_compute].
Defined.

(** On a volume of 1024-byte blocks with at most 32 groups the group descriptors
    are looked for in block 1, which is the superblock: the table the driver uses
    is the superblock's own bytes. *)
Theorem ext2_descriptors_are_superblock disk_read kmalloc lba sb priv :
  ext2_read_superblock disk_read lba = Some sb -> s_log_block_size sb = 0 ->
  ext2_mount disk_read kmalloc lba = Ret (Some priv) -> 0 < group_count priv <= 32 ->
  gd priv = sub sb 0 (32 * group_count priv).
Proof.
  intros Hsb Hlog. unfold ext2_mount. rewrite Hsb, Hlog.
  destruct (kmalloc 1064); [|done]. destruct (s_magic sb =? EXT2_SUPER_MAGIC); [|done].
  change (31 <? 0) with false. change (u32 (1024 <<< 0)) with 1024. cbn [negb]. cbv iota zeta.
  unfold ext2_read_group_descriptors. cbn [blocks_per_group e_sb block_size].
  destruct (s_blocks_per_group sb =? 0); [done|].
  set (count := u32 (s_blocks_count sb + s_blocks_per_group sb - 1) / s_blocks_per_group sb).
  destruct (kmalloc _); [|done]. change (1024 =? 0) with false. change (1024 <? 1024) with false.
  cbn [negb]. cbv iota zeta. destruct (ext2_read_blocks _ _ _ _) as [data|] eqn:E; [|done].
  bind_step. intros [= <-]. cbn [group_count gd]. intros Hc. unfold sizeof_group_desc in *.
  rewrite (wrap_small 32 (count * 32)) in * by (unfold in_u; lia).
  rewrite (wrap_small 32 (count * 32 + 1024 - 1)) in E by (unfold in_u; lia).
  replace ((count * 32 + 1024 - 1) / 1024) with 1 in E by (clearbody count; dlia).
  unfold ext2_read_blocks in E. cbn [block_size e_lba] in E.
  change (1024 / 512) with 2 in E. unfold ext2_read_superblock in Hsb. change (1024 / 512) with 2 in Hsb.
  change (1 + 0) with 1 in E. change (u32 (1 * 2)) with 2 in E. change (1 * 2) with 2 in E.
  rewrite Hsb in E. injection E as <-. f_equal. lia.
Qed.
