(* ===== verification/Iso9660.v ===== *)
(** * ISO 9660 (src/fs/iso9660.c)

    Volume descriptor, directory walk, file reads and listing of the ISO 9660
    driver.  [disk_read lba count] is the external disk function; structures are
    read at the offsets of iso9660.h. *)

From S2P Require Import Prelude Fat32 Ext2.

(** The volume descriptor, as the packed structure of iso9660.h lays it out. *)
Definition pvd_logical_block_size (v : bytes) : Z := field v 120 2.
Definition pvd_path_table_size (v : bytes) : Z := field v 122 4.
Definition pvd_path_table_l (v : bytes) : Z := field v 126 4.
Definition pvd_root_record (v : bytes) : bytes := sub v 142 34.
Definition sizeof_pvd : Z := 2034.

(** Directory records. *)
Definition rec_length (r : bytes) : Z := zget r 0.
Definition rec_extent (r : bytes) : Z := field r 2 4.
Definition rec_data_length (r : bytes) : Z := field r 10 4.
Definition rec_flags (r : bytes) : Z := zget r 25.
Definition rec_name_len (r : bytes) : Z := zget r 32.
Definition sizeof_record : Z := 33.

Record iso9660_private_t := mk_iso {
  iso_lba : Z; iso_block_size : Z; iso_pvd : bytes; iso_path_table : option bytes
}.

Definition iso_up (c : Z) : Z := if (97 <=? c) && (c <=? 122) then c - 32 else c.

(** The comparison loop over [n] characters; [b] is NUL-terminated. *)
Fixpoint stricmp (n : nat) (a b : bytes) (i : Z) : Z :=
  match n with
  | O => 0
  | S n' =>
      let ca := iso_up (zget a i) in
      let cb := iso_up (zget b i) in
      if negb (ca =? cb) then 1 else if ca =? 0 then 0 else stricmp n' a b (i + 1)
  end.

Definition iso9660_stricmp (a b : bytes) (n : Z) : Z := stricmp (Z.to_nat n) a b 0.

Section iso.
Variable disk_read : Z -> Z -> option bytes.
Variable kmalloc : Z -> bool.
Implicit Types priv : iso9660_private_t.

Definition iso9660_read_blocks priv (block count : Z) : option bytes :=
  let per := iso_block_size priv / 512 in
  disk_read (u32 (iso_lba priv + block * per)) (u32 (count * per)).

Definition iso9660_read_block priv (block_num : Z) : option bytes :=
  iso9660_read_blocks priv block_num 1.

(** ** Mounting *)

(** Sectors [i], [i + 1], ... of the descriptor sequence, [n] of them left. *)
Fixpoint find_descriptor (n : nat) (lba i : Z) : option bytes :=
  match n with
  | O => None
  | S n' =>
      match disk_read (u32 (lba + i)) 1 with
      | None => None
      | Some buffer =>
          if zget buffer 0 =? 1 then Some (sub buffer 0 sizeof_pvd)
          else if zget buffer 0 =? 0xFF then None
          else find_descriptor n' lba (i + 1)
      end
  end.

Definition iso9660_read_volume_descriptor (lba : Z) : option bytes := find_descriptor 32 lba 16.

(** The path table when it could be read. *)
Definition iso9660_read_path_table priv : run (option bytes) :=
  let size := pvd_path_table_size (iso_pvd priv) in
  if negb (kmalloc size) then mret None
  else if iso_block_size priv =? 0 then UB
  else
    let blocks := u32 (size + iso_block_size priv - 1) / iso_block_size priv in
    mret (match iso9660_read_blocks priv (pvd_path_table_l (iso_pvd priv)) blocks with
          | None => None
          | Some data => Some (sub data 0 size)
          end).

Definition iso9660_detect (lba : Z) : Z :=
  match disk_read (u32 (lba + 16)) 1 with
  | None => 0
  | Some buffer =>
      if bool_decide (sub buffer 0 6 = [1; 67; 68; 48; 48; 49]) then 1 else 0
  end.

Definition iso9660_mount (lba : Z) : run (option iso9660_private_t) :=
  if negb (kmalloc 2064) then mret None
  else
    let lba := u32 (lba + 16) in
    match iso9660_read_volume_descriptor lba with
    | None => mret None
    | Some pvd =>
        let priv := mk_iso lba (pvd_logical_block_size pvd) pvd None in
        table ← iso9660_read_path_table priv;
        mret (Some (mk_iso lba (pvd_logical_block_size pvd) pvd table))
    end.

(** ** The directory walk *)

(** The "." and ".." records. *)
Definition dot_record (r : bytes) : bool :=
  (rec_name_len r =? 1) && ((zget r 33 =? 0) || (zget r 33 =? 1)).

(** One block from [block_off] on: the first record with the name [part] that
    is usable (a directory when more of the path follows). *)
Fixpoint scan_block (fuel : nat) (dir : bytes) (bsize block_off : Z) (part : bytes)
  (more : bool) : run (option (Z * Z)) :=
  if negb (block_off <? bsize) then Ret None
  else match fuel with
       | O => OutOfFuel
       | S fuel' =>
           let r := drop (Z.to_nat block_off) dir in
           if rec_length r =? 0 then Ret None
           else if zlen r <? sizeof_record then UB
           else if (rec_name_len r =? 1) && (zlen r <? 34) then UB
           else if dot_record r then
             scan_block fuel' dir bsize (block_off + rec_length r) part more
           else if rec_name_len r =? zlen part then
             if zlen r <? sizeof_record + zlen part then UB
             else if (iso9660_stricmp (sub r 33 (zlen part)) part (zlen part) =? 0) &&
                     (negb more || negb ((rec_flags r &&& 2) =? 0))
             then Ret (Some (rec_extent r, rec_data_length r))
             else scan_block fuel' dir bsize (block_off + rec_length r) part more
           else scan_block fuel' dir bsize (block_off + rec_length r) part more
       end.

(** The blocks of a directory, [n] of them left; a read error and an exhausted
    directory both give -1 ([None]).  A directory of more than [2^32 - block_size] bytes,
    where the 32-bit [off] would wrap, is outside the model. *)
Fixpoint scan_extent (n : nat) priv (block : Z) (part : bytes) (more : bool)
  : run (option (Z * Z)) :=
  match n with
  | O => Ret None
  | S n' =>
      match iso9660_read_block priv (u32 block) with
      | None => Ret None
      | Some dir =>
          r ← scan_block (Z.to_nat (iso_block_size priv)) (sub dir 0 (iso_block_size priv))
                (iso_block_size priv) 0 part more;
          match r with
          | Some found => mret (Some found)
          | None => scan_extent n' priv (block + 1) part more
          end
      end
  end.

(** The recursion is on the rest of the path after the slash. *)
Fixpoint find_entry_fuel (fuel : nat) priv (extent size : Z) (path : bytes)
  : run (option (Z * Z)) :=
  match fuel with
  | O => OutOfFuel
  | S fuel' =>
      let slash := strchr path 47 in
      let partlen := match slash with Some n => n | None => length path end in
      if (256 <=? partlen)%nat then UB
      else if negb (kmalloc (iso_block_size priv)) then mret None
      else if iso_block_size priv =? 0 then (if 0 <? size then UB else mret None)
      else
        let blocks := (size + iso_block_size priv - 1) / iso_block_size priv in
        r ← scan_extent (Z.to_nat blocks) priv extent (take partlen path)
              (match slash with Some _ => true | None => false end);
        match r, slash with
        | None, _ => mret None
        | Some found, None => mret (Some found)
        | Some (e, s), Some n => find_entry_fuel fuel' priv e s (drop (S n) path)
        end
  end.

Definition iso9660_find_entry priv (extent size : Z) (path : bytes) : run (option (Z * Z)) :=
  find_entry_fuel (S (length path)) priv extent size path.

(** Both callers start from byte 2 of the root record and its length field. *)
Definition find_from_root priv (path : bytes) : run (option (Z * Z)) :=
  let root := pvd_root_record (iso_pvd priv) in
  iso9660_find_entry priv (zget root 2) (field root 10 4) path.

(** ** Operations *)

Definition iso9660_read_file priv (path buf : bytes) (size offset : Z) : run (Z * bytes) :=
  r ← find_from_root priv path;
  match r with
  | None => mret (-1, buf)
  | Some (extent, file_size) =>
      if file_size <=? offset then mret (0, buf)
      else
        let size := if file_size <? u32 (offset + size) then u32 (file_size - offset) else size in
        let bs := iso_block_size priv in
        if bs =? 0 then UB
        else
          let start_block := u32 (extent + offset / bs) in
          let end_block := u32 (extent + u32 (offset + size - 1) / bs) in
          let blocks_to_read := u32 (end_block - start_block + 1) in
          if negb (kmalloc (u32 (blocks_to_read * bs))) then mret (-1, buf)
          else match iso9660_read_blocks priv start_block blocks_to_read with
          | None => mret (-1, buf)
          | Some block_buf =>
              buf ← memcpy buf 0 block_buf (offset mod bs) size;
              mret (s32 size, buf)
          end
  end.

Definition entry_of (r : bytes) : fs_dirent_t :=
  let name_len := rec_name_len r in
  mk_dirent (rec_extent r) (sub r 33 name_len) name_len
    (if (rec_flags r &&& 2) =? 0 then 1 else 2).

Fixpoint iso_list_block (fuel : nat) (dir : bytes) (bsize block_off count max_entries : Z)
  : run (list fs_dirent_t) :=
  if negb ((block_off <? bsize) && (count <? max_entries)) then Ret []
  else match fuel with
       | O => OutOfFuel
       | S fuel' =>
           let r := drop (Z.to_nat block_off) dir in
           if rec_length r =? 0 then Ret []
           else if zlen r <? sizeof_record then UB
           else if (rec_name_len r =? 1) && (zlen r <? 34) then UB
           else if dot_record r then
             iso_list_block fuel' dir bsize (block_off + rec_length r) count max_entries
           else if zlen r <? sizeof_record + rec_name_len r then UB
           else
             rest ← iso_list_block fuel' dir bsize (block_off + rec_length r) (count + 1) max_entries;
             mret (entry_of r :: rest)
       end.

Fixpoint iso_list_extent (n : nat) priv (block count max_entries : Z)
  : run (option (list fs_dirent_t)) :=
  match n with
  | O => Ret (Some [])
  | S n' =>
      if negb (count <? max_entries) then Ret (Some [])
      else match iso9660_read_block priv (u32 block) with
      | None => Ret None
      | Some dir =>
          es ← iso_list_block (Z.to_nat (iso_block_size priv)) (sub dir 0 (iso_block_size priv))
                 (iso_block_size priv) 0 count max_entries;
          rest ← iso_list_extent n' priv (block + 1) (count + zlen es) max_entries;
          mret (option_map (app es) rest)
      end
  end.

Definition iso9660_list_dir priv (path : bytes) (max_entries : Z)
  : run (option (list fs_dirent_t)) :=
  r ← find_from_root priv path;
  match r with
  | None => mret None
  | Some (extent, size) =>
      if negb (kmalloc (iso_block_size priv)) then mret None
      else if iso_block_size priv =? 0 then (if (0 <? size) && (0 <? max_entries) then UB else mret (Some []))
      else iso_list_extent
             (Z.to_nat ((size + iso_block_size priv - 1) / iso_block_size priv))
             priv extent 0 max_entries
  end.

(** The record search of [iso9660_get_info], byte by byte through a block.  The
    modes 0444 and 0111 (octal) are 292 and 73. *)
Fixpoint find_record (n : nat) (dir : bytes) (i extent size : Z) : option bytes :=
  match n with
  | O => None
  | S n' =>
      let r := drop (Z.to_nat i) dir in
      if rec_length r =? 0 then None
      else if (rec_extent r =? extent) && (rec_data_length r =? size) then Some r
      else find_record n' dir (i + 1) extent size
  end.

Definition iso9660_get_info priv (path : bytes) : run (option fs_file_info_t) :=
  r ← find_from_root priv path;
  match r with
  | None => mret None
  | Some (extent, size) =>
      let bs := iso_block_size priv in
      if negb (kmalloc bs) then mret None
      else if bs / 256 =? 0 then UB
      else match iso9660_read_block priv (extent / (bs / 256)) with
      | None => mret None
      | Some dir =>
          mret (match find_record (Z.to_nat (bs - sizeof_record)) (sub dir 0 bs) 0 extent size with
                | None => None
                | Some rc =>
                    let isdir := negb ((rec_flags rc &&& 2) =? 0) in
                    Some (mk_info size (if isdir then 292 ||| 73 else 292) 0 0 0 0 0 0
                            (if isdir then FS_FILE_DIRECTORY else FS_FILE_REGULAR))
                end)
      end
  end.

Definition iso9660_find_file_fs priv (path : bytes) : run (option Z) :=
  r ← find_from_root priv path;
  mret (option_map fst r).
End iso.

(** ** Lemmas: files on a flat disk image *)

(** [disk_read] returns the sectors of the image [img]. *)
Definition reads_image (disk_read : Z -> Z -> option bytes) (img : bytes) : Prop :=
  forall lba count, 0 <= lba -> 0 <= count -> (lba + count) * 512 <= zlen img ->
    disk_read lba count = Some (sub img (lba * 512) (count * 512)).

Lemma sub_sub (l : bytes) a n b m :
  0 <= a -> 0 <= b -> 0 <= m -> b + m <= n -> sub (sub l a n) b m = sub l (a + b) m.
Proof.
  intros Ha Hb Hm Hn. unfold sub. rewrite take_drop_commute, take_take, Nat.min_l by lia.
  rewrite <- take_drop_commute, drop_drop, Z2Nat.inj_add by lia. reflexivity.
Qed.

(** ** Properties *)

(** Reading refines the disk image: when the walk finds a file at [extent],
    [iso9660_read_file] returns the requested bytes of the contiguous run of
    sectors that starts there, clipped at the file size. *)
Theorem iso9660_read_refines disk_read priv path buf size offset extent fsize img :
  reads_image disk_read img -> 0 <= iso_lba priv -> 0 <= extent ->
  0 < iso_block_size priv < 2 ^ 16 -> iso_block_size priv mod 512 = 0 ->
  find_from_root disk_read (fun _ => true) priv path = Ret (Some (extent, fsize)) ->
  0 <= offset < fsize -> 0 < size -> offset + size < 2 ^ 31 -> size <= zlen buf ->
  let base := iso_lba priv * 512 + extent * iso_block_size priv in
  base + fsize + iso_block_size priv <= zlen img -> zlen img < 2 ^ 31 ->
  let n := Z.min size (fsize - offset) in
  iso9660_read_file disk_read (fun _ => true) priv path buf size offset =
  Ret (n, splice buf 0 (sub img (base + offset) n)).
Proof.
  intros Hd Hlba He Hbs Hmod Hfind Ho Hs Hw Hbuf base Hfit Himg n.
  unfold iso9660_read_file. rewrite Hfind. bind_step.
  destruct (Z.leb_spec fsize offset); [lia|].
  rewrite (wrap_small 32 (offset + size)) by (unfold in_u; lia).
  assert (Hn : (if fsize <? offset + size then u32 (fsize - offset) else size) = n).
  { unfold n. destruct (Z.ltb_spec fsize (offset + size));
      [rewrite wrap_small by (unfold in_u; lia)|]; lia. }
  rewrite Hn. cbv zeta. remember (iso_block_size priv) as bs eqn:Ebs.
  destruct (Z.eqb_spec bs 0); [lia|]. assert (Hn0 : 0 < n <= fsize - offset) by (unfold n; lia).
  assert (Hnb : n <= zlen buf) by (unfold n; lia). clear Hn. clearbody n.
  rewrite (wrap_small 32 (offset + n - 1)) by (unfold in_u; lia).
  pose proof (Z.div_mod offset bs ltac:(lia)) as E1. pose proof (Z.mod_pos_bound offset bs ltac:(lia)) as B1.
  pose proof (Z.div_mod (offset + n - 1) bs ltac:(lia)) as E2.
  pose proof (Z.mod_pos_bound (offset + n - 1) bs ltac:(lia)) as B2.
  remember (offset / bs) as q1 eqn:Eq1. remember (offset mod bs) as r1 eqn:Er1.
  remember ((offset + n - 1) / bs) as q2 eqn:Eq2. remember ((offset + n - 1) mod bs) as r2 eqn:Er2.
  assert (Hq1 : 0 <= q1) by (subst q1; apply Z.div_pos; lia).
  assert (Hq : q1 <= q2) by (subst q1 q2; apply Z.div_le_mono; lia).
  assert (Hb : base = iso_lba priv * 512 + extent * bs) by reflexivity. clearbody base.
  set (per := bs / 512). assert (Hper : bs = per * 512) by (unfold per; dlia).
  assert (Hper0 : 1 <= per) by lia.
  assert (P1 : 0 <= extent * per) by (apply Z.mul_nonneg_nonneg; lia).
  assert (P2 : 0 <= q1 * per) by (apply Z.mul_nonneg_nonneg; lia).
  assert (P3 : q1 * per <= q2 * per) by (apply Z.mul_le_mono_nonneg_r; lia).
  assert (P4 : extent <= extent * per) by (rewrite <- (Z.mul_1_r extent) at 1; apply Z.mul_le_mono_nonneg_l; lia).
  assert (P5 : q2 <= q2 * per) by (rewrite <- (Z.mul_1_r q2) at 1; apply Z.mul_le_mono_nonneg_l; lia).
  assert (Hsec : (iso_lba priv + (extent + q1) * per + (q2 - q1 + 1) * per) * 512 <= zlen img) by lia.
  rewrite (wrap_small 32 (extent + q1)), (wrap_small 32 (extent + q2)) by (unfold in_u; lia).
  replace (extent + q2 - (extent + q1) + 1) with (q2 - q1 + 1) by lia.
  rewrite (wrap_small 32 (q2 - q1 + 1)) by (unfold in_u; lia). cbn [negb].
  unfold iso9660_read_blocks. rewrite <- Ebs. fold per. clearbody per.
  rewrite !(wrap_small 32) by (unfold in_u; lia).
  rewrite Hd by lia. rewrite memcpy_ok; [|lia|lia|lia|lia|rewrite zlen_sub by lia; lia].
  bind_step. rewrite sub_sub by lia.
  assert (Hs32 : s32 n = n) by (unfold s32; dlia). rewrite Hs32.
  do 4 f_equal. lia.
Qed.

(** A four-sector image: the root directory in sector 1, a five-byte file A in
    sector 2. *)
Definition disc_image : bytes :=
  zeros 512 ++
  ([40; 0; 2; 0; 0; 0] ++ zeros 4 ++ [5; 0; 0; 0] ++ zeros 18 ++ [1; 65] ++ zeros 478) ++
  ([72; 69; 76; 76; 79] ++ zeros 507) ++ zeros 512.

Definition disc_read (lba count : Z) : option bytes :=
  Some (sub disc_image (lba * 512) (count * 512)).

Definition disc : iso9660_private_t :=
  mk_iso 0 512 (zeros 144 ++ [1] ++ zeros 7 ++ [0; 2; 0; 0] ++ zeros 30) None.

Lemma iso9660_read_refines_witness :
  iso9660_read_file disc_read (fun _ => true) disc [97] (zeros 8) 8 1 =
  Ret (4, splice (zeros 8) 0 (sub disc_image 1025 4)).
Proof.
  apply (iso9660_read_refines disc_read disc [97] (zeros 8) 8 1 2 5 disc_image).
  - intros lba count _ _ _. reflexivity.
  - by vm_compute.
  - lia.
  - split; by vm_compute.
  - reflexivity.
  - vm_compute. reflexivity.
  - lia.
  - lia.
  - lia.
  - by vm_compute.
  - by vm_compute.
  - by vm_compute.
Defined.
