(* ===== verification/Vfs.v ===== *)
(** * Paths, mount tables and dispatch (src/fs/fs_common.c, src/fs/fs_mount.c)

    The two virtual file system layers of the repository: [FsCommon] models
    fs_common.c (path helpers, normalisation, the mount list that doubles as the
    registry), [FsMount] models fs_mount.c (the eight-entry registry, the mount
    list in mounting order, dispatch, root detection).  A file system type is a
    record of operations ([filesystem]); the drivers of [Fat32.v], [Ext2.v] and
    [Iso9660.v] are instances of such records.  A path is the byte string before
    its NUL; 47 is the slash, 92 the backslash, 46 the dot. *)

From S2P Require Import Prelude Fat32.

(** ** Strings *)

(** [strrchr(path, '/')] as the bytes up to and after the last slash. *)
Fixpoint split_last (sep : Z -> bool) (path : bytes) : option (bytes * bytes) :=
  match path with
  | [] => None
  | x :: path' =>
      match split_last sep path' with
      | Some (d, f) => Some (x :: d, f)
      | None => if sep x then Some ([], path') else None
      end
  end.

Definition is_slash (x : Z) : bool := x =? 47.
Definition is_sep (x : Z) : bool := (x =? 47) || (x =? 92).

Definition tolower (c : Z) : Z := if (65 <=? c) && (c <=? 90) then c + 32 else c.

(** The difference of the first differing characters after [tolower]. *)
Fixpoint strcasecmp (a b : bytes) : Z :=
  match a, b with
  | [], [] => 0
  | [], y :: _ => - tolower y
  | x :: _, [] => tolower x
  | x :: a', y :: b' => if tolower x =? tolower y then strcasecmp a' b' else tolower x - tolower y
  end.

(** The tokens of [strtok(s, "/")]: the maximal runs without a slash. *)
Fixpoint tokens_acc (path cur : bytes) : list bytes :=
  match path with
  | [] => if decide (cur = []) then [] else [cur]
  | x :: path' =>
      if x =? 47 then (if decide (cur = []) then [] else [cur]) ++ tokens_acc path' []
      else tokens_acc path' (cur ++ [x])
  end.

Definition tokens (path : bytes) : list bytes := tokens_acc path [].

(** ** File system types and mount points *)

Record filesystem (P R : Type) := mk_fs {
  fs_id : Z;
  fs_name : bytes;
  fs_detect : option (Z -> bool);
  fs_do_mount : Z -> run (option P);
  op_read_file : option (option P -> bytes -> R);
  op_write : option (option P -> bytes -> R);
  op_list_dir : option (option P -> bytes -> R);
  op_get_info : option (option P -> bytes -> R);
  op_find_file : option (option P -> bytes -> R)
}.
Arguments fs_id {P R}. Arguments fs_name {P R}. Arguments fs_detect {P R}.
Arguments fs_do_mount {P R}. Arguments op_read_file {P R}. Arguments op_write {P R}.
Arguments op_list_dir {P R}. Arguments op_get_info {P R}. Arguments op_find_file {P R}.

(** [mp_private = None] is the NULL of a registration entry. *)
Record mount_point (P R : Type) := mk_mp {
  mp_path : bytes; mp_fs : filesystem P R; mp_private : option P
}.
Arguments mk_mp {P R}. Arguments mp_path {P R}. Arguments mp_fs {P R}. Arguments mp_private {P R}.

Section lookup.
Context {P R : Type}.
Implicit Types (mp : mount_point P R) (mps : list (mount_point P R)) (path : bytes).

(** Whether the mount path is a prefix of [path] that ends at a component
    boundary; [boundary] tests the character [path[mp_len]] (0 is the NUL). *)
Definition matches (boundary : Z -> bool) mp path : bool :=
  bool_decide (take (length (mp_path mp)) path = mp_path mp) &&
  boundary (zget path (zlen (mp_path mp))).

(** The loop that keeps the longest match seen so far. *)
Definition best_match (boundary : Z -> bool) mps path : option (mount_point P R) :=
  fst (fold_left (fun '(best, best_len) mp =>
         if matches boundary mp path && (best_len <? zlen (mp_path mp))
         then (Some mp, zlen (mp_path mp)) else (best, best_len)) mps (None, 0)).

(** [path + strlen(mp->path)], one separator skipped. *)
Definition rel_path (skip : Z -> bool) mp path : bytes :=
  let p := drop (length (mp_path mp)) path in
  match p with
  | x :: p' => if skip x then p' else p
  | [] => []
  end.

(** The code shared by the operations: find the mount point, check that the
    type has the operation, and call it on the private data (NULL included) and the
    rest of the path.  [None] is -1. *)
Definition dispatch (boundary skip : Z -> bool) (op : filesystem P R -> option (option P -> bytes -> R))
  mps path : option R :=
  match best_match boundary mps path with
  | None => None
  | Some mp =>
      match op (mp_fs mp) with
      | Some f => Some (f (mp_private mp) (rel_path skip mp path))
      | None => None
      end
  end.
End lookup.

(** ** fs_common.c *)

Module FsCommon.

Definition FS_MAX_PATH : Z := 4096.

Definition fs_filename_cmp (a b : bytes) : Z := strcasecmp a b.

(** The strings stored in [dir] and [file]. *)
Definition fs_path_split (path : bytes) : bytes * bytes :=
  match split_last is_slash path with
  | Some (d, f) => ((if 0 <? zlen d then d else [47]), f)
  | None => ([46], path)
  end.

Definition fs_basename (path : bytes) : bytes :=
  match split_last is_slash path with Some (_, f) => f | None => path end.

(** [None]: NULL (a missing argument or no memory). *)
Definition fs_join_path (kmalloc : Z -> bool) (dir file : option bytes) : option bytes :=
  match dir, file with
  | Some dir, Some file =>
      let dir_len := zlen dir in
      if negb (kmalloc (dir_len + zlen file + 2)) then None
      else if (0 <? dir_len) && negb (zget dir (dir_len - 1) =? 47) && negb (zget file 0 =? 47)
      then Some (dir ++ [47] ++ file)
      else if (0 <? dir_len) && (zget dir (dir_len - 1) =? 47) && (zget file 0 =? 47)
      then Some (dir ++ drop 1 file)
      else Some (dir ++ file)
  | _, _ => None
  end.

(** One token of the normalisation; the components are in order. *)
Definition norm_step (is_absolute : bool) (components : list bytes) (token : bytes)
  : option (list bytes) :=
  if decide (token = [46]) then Some components
  else if decide (token = [46; 46]) then
    if decide (components = []) then
      (if is_absolute then Some components else Some [token])
    else Some (removelast components)
  else if FS_MAX_PATH <=? zlen components then None
  else Some (components ++ [token]).

Fixpoint norm_loop (is_absolute : bool) (toks : list bytes) (components : list bytes)
  : option (list bytes) :=
  match toks with
  | [] => Some components
  | t :: toks' =>
      match norm_step is_absolute components t with
      | Some c => norm_loop is_absolute toks' c
      | None => None
      end
  end.

(** The output loop from component [i] on, [out] being written so far. *)
Fixpoint build (components : list bytes) (i : Z) (out : bytes) (out_size : Z) : option bytes :=
  match components with
  | [] => Some out
  | c :: rest =>
      let sep := if 0 <? i then [47] else [] in
      if out_size <=? zlen out + zlen c + zlen sep then None
      else build rest (i + 1) (out ++ sep ++ c) out_size
  end.

(** [None] is -1; otherwise the normalised path stored in [out]. *)
Definition fs_normalize_path (kmalloc : Z -> bool) (path : option bytes) (out_size : Z)
  : option bytes :=
  match path with
  | None => None
  | Some path =>
      if out_size <? 2 then None
      else
        let is_absolute := zget path 0 =? 47 in
        if negb (kmalloc (zlen path + 1)) then None
        else match norm_loop is_absolute (tokens path) [] with
        | None => None
        | Some components => build components 0 (if is_absolute then [47] else []) out_size
        end
  end.

Section mounts.
Context {P R : Type}.
Variable kmalloc : bool.
Implicit Types (mps : list (mount_point P R)).

(** Registration pushes a dummy mount point on "/". *)
Definition fs_register mps (fs : option (filesystem P R)) : Z * list (mount_point P R) :=
  match fs with
  | None => (-1, mps)
  | Some fs =>
      if existsb (fun mp => fs_id (mp_fs mp) =? fs_id fs) mps then (0, mps)
      else if negb kmalloc then (-1, mps)
      else (0, mk_mp [47] fs None :: mps)
  end.

Definition find_type mps (name : bytes) : option (filesystem P R) :=
  mp_fs <$> find (fun mp => bool_decide (fs_name (mp_fs mp) = name)) mps.

Definition fs_mount mps (path fs_type : option bytes) (lba : Z)
  : run (Z * list (mount_point P R)) :=
  match path, fs_type with
  | Some path, Some name =>
      match find_type mps name with
      | None => mret (-1, mps)
      | Some fs =>
          p ← fs_do_mount fs lba;
          match p with
          | None => mret (-1, mps)
          | Some p =>
              if negb kmalloc then mret (-1, mps) else mret (0, mk_mp path fs (Some p) :: mps)
          end
      end
  | _, _ => mret (-1, mps)
  end.

Fixpoint remove_first mps (path : bytes) : option (list (mount_point P R)) :=
  match mps with
  | [] => None
  | mp :: mps' =>
      if decide (mp_path mp = path) then Some mps'
      else cons mp <$> remove_first mps' path
  end.

(** The driver's [unmount] and the frees have no effect on the list; the path of
    a registration entry is a string literal, which [kfree] must not be given. *)
Definition fs_unmount mps (path : option bytes) : run (Z * list (mount_point P R)) :=
  match path with
  | None => mret (-1, mps)
  | Some path =>
      match find (fun mp => bool_decide (mp_path mp = path)) mps, remove_first mps path with
      | Some mp, Some mps' =>
          match mp_private mp with
          | None => UB
          | Some _ => mret (0, mps')
          end
      | _, _ => mret (-1, mps)
      end
  end.

Definition boundary (c : Z) : bool := (c =? 47) || (c =? 0).

Definition fs_find_mount_point mps (path : bytes) : option (mount_point P R) :=
  best_match boundary mps path.

Definition fs_read_file := @dispatch P R boundary is_slash op_read_file.
Definition fs_list_dir := @dispatch P R boundary is_slash op_list_dir.
Definition fs_get_info := @dispatch P R boundary is_slash op_get_info.
Definition fs_find_file := @dispatch P R boundary is_slash op_find_file.
End mounts.
End FsCommon.

(** ** fs_mount.c *)

Module FsMount.

Section mounts.
Context {P R : Type}.

Record vfs := mk_vfs {
  registered_fs : list (filesystem P R);
  mount_points : list (mount_point P R)
}.

Definition find_filesystem (v : vfs) (name : bytes) : option (filesystem P R) :=
  find (fun fs => bool_decide (fs_name fs = name)) (registered_fs v).

Definition boundary (c : Z) : bool := (c =? 47) || (c =? 92) || (c =? 0).

(** The test [path_len >= mp_len] is part of the prefix test. *)
Definition find_mount_point (v : vfs) (path : bytes) : option (mount_point P R) :=
  best_match boundary (mount_points v) path.

Definition fs_register (v : vfs) (fs : filesystem P R) : vfs :=
  if zlen (registered_fs v) <? 8 then mk_vfs (registered_fs v ++ [fs]) (mount_points v) else v.

Definition fs_mount (malloc : bool) (v : vfs) (path fstype : bytes) (lba : Z) : run (Z * vfs) :=
  match find_filesystem v fstype with
  | None => mret (-1, v)
  | Some fs =>
      if negb malloc then mret (-2, v)
      else
        p ← fs_do_mount fs lba;
        match p with
        | None => mret (-3, v)
        | Some p => mret (0, mk_vfs (registered_fs v) (mount_points v ++ [mk_mp path fs (Some p)]))
        end
  end.

Definition fs_unmount (v : vfs) (path : bytes) : Z * vfs :=
  match FsCommon.remove_first (mount_points v) path with
  | Some mps => (0, mk_vfs (registered_fs v) mps)
  | None => (-1, v)
  end.

Definition fs_get_mount_point := find_mount_point.

Definition on_mounts (op : filesystem P R -> option (option P -> bytes -> R)) (v : vfs) (path : bytes)
  : option R := dispatch boundary is_sep op (mount_points v) path.

Definition fs_read := on_mounts op_read_file.
Definition fs_write := on_mounts op_write.
Definition fs_list_dir := on_mounts op_list_dir.
Definition fs_get_info := on_mounts op_get_info.

(** [for (i = 0; i < num_registered_fs; i++)] of [fs_init]: mount "/" with the
    first type that detects the partition and mounts. *)
Fixpoint mount_root (malloc : bool) (types : list (filesystem P R)) (v : vfs) : run vfs :=
  match types with
  | [] => Ret v
  | fs :: rest =>
      match fs_detect fs with
      | Some detect =>
          if detect 0 then
            m ← fs_mount malloc v [47] (fs_name fs) 0;
            let '(r, v') := m in
            if r =? 0 then mret v' else mount_root malloc rest v'
          else mount_root malloc rest v
      | None => mount_root malloc rest v
      end
  end.

Definition fs_init (malloc : bool) (fat32_fs ext2_fs iso9660_fs : filesystem P R) (v : vfs) : run vfs :=
  let v := fs_register (fs_register (fs_register v fat32_fs) ext2_fs) iso9660_fs in
  mount_root malloc (registered_fs v) v.
End mounts.
Arguments vfs : clear implicits.

(** ** Path helpers of fs_mount.c *)

Definition fs_basename (path : bytes) : bytes :=
  match split_last is_sep path with Some (_, f) => f | None => path end.

(** [while (end > path && p( *end)) end--;] on the position of [end]. *)
Fixpoint back_while (p : Z -> bool) (path : bytes) (e : nat) : nat :=
  match e with
  | O => O
  | S e' => if p (nth e path 0) then back_while p path e' else e
  end.

(** [path] is not empty: [path + strlen(path) - 1] points before an empty one. *)
Definition fs_dirname (path : bytes) (size : Z) : run (option bytes) :=
  if size =? 0 then mret None
  else if decide (path = []) then UB
  else
    let e := back_while is_sep path (length path - 1) in
    let e := back_while (fun c => negb (is_sep c)) path e in
    let len := Z.of_nat e + 1 in
    let len := if size <=? len then size - 1 else len in
    mret (Some (sub path 0 len)).

Fixpoint strip_leading (l : bytes) : bytes :=
  match l with
  | x :: l' => if is_sep x then strip_leading l' else l
  | [] => []
  end.

Definition strip_trailing (l : bytes) : bytes := rev (strip_leading (rev l)).

Definition fs_join_path (dir file : bytes) (size : Z) : option bytes :=
  if size =? 0 then None
  else
    let d := strip_trailing dir in
    let f := strip_leading file in
    if size <? zlen d + 1 + zlen f + 1 then None else Some (d ++ [47] ++ f).

End FsMount.

(** ** Lemmas: the longest match *)

Section best.
Context {P R : Type}.
Variable b : Z -> bool.
Implicit Types (mp : mount_point P R) (mps : list (mount_point P R)) (path : bytes).

Definition best_step path (acc : option (mount_point P R) * Z) mp :=
  if matches b mp path && (acc.2 <? zlen (mp_path mp)) then (Some mp, zlen (mp_path mp)) else acc.

Lemma best_match_fold mps path :
  best_match b mps path = fst (fold_left (best_step path) mps (None, 0)).
Proof.
  unfold best_match. f_equal. apply fold_left_ext_in. intros [best n] mp _. reflexivity.
Qed.

(** What the loop knows after the mount points [seen]. *)
Definition best_inv path (seen : list (mount_point P R)) (acc : option (mount_point P R) * Z) : Prop :=
  0 <= acc.2 /\
  (forall mp, mp ∈ seen -> matches b mp path = true -> zlen (mp_path mp) <= acc.2) /\
  match acc.1 with
  | Some mp => mp ∈ seen /\ matches b mp path = true /\ zlen (mp_path mp) = acc.2 /\ 0 < acc.2
  | None => acc.2 = 0
  end.

Lemma best_inv_step path seen acc mp :
  best_inv path seen acc -> best_inv path (seen ++ [mp]) (best_step path acc mp).
Proof.
  destruct acc as [best n]. intros (H0 & Hmax & Hb). cbn [fst snd] in *. unfold best_step, best_inv.
  cbn [snd]. destruct (matches b mp path) eqn:Em; cbn [andb].
  - destruct (Z.ltb_spec n (zlen (mp_path mp))) as [Hlt|Hge]; cbn [fst snd].
    + split_and!; [lia| |set_solver|assumption|reflexivity|lia].
      intros mp' [Hin|Hin%list_elem_of_singleton]%elem_of_app Hm; [specialize (Hmax mp' Hin Hm); lia|].
      subst. lia.
    + split_and!; [lia| |].
      * intros mp' [Hin|Hin%list_elem_of_singleton]%elem_of_app Hm; [auto|]. subst. lia.
      * destruct best as [x|]; [|assumption]. destruct Hb as (Hin & Hb). split; [set_solver|assumption].
  - cbn [fst snd]. split_and!; [lia| |].
    + intros mp' [Hin|Hin%list_elem_of_singleton]%elem_of_app Hm; [auto|]. subst. congruence.
    + destruct best as [x|]; [|assumption]. destruct Hb as (Hin & Hb). split; [set_solver|assumption].
Qed.

Lemma best_inv_fold path mps : forall seen acc,
  best_inv path seen acc -> best_inv path (seen ++ mps) (fold_left (best_step path) mps acc).
Proof.
  induction mps as [|mp mps IH]; intros seen acc H; [by rewrite app_nil_r|].
  cbn [fold_left]. rewrite (cons_middle mp seen mps), app_assoc. by apply IH, best_inv_step.
Qed.

Lemma best_match_spec mps path :
  match best_match b mps path with
  | Some mp => mp ∈ mps /\ matches b mp path = true /\ 0 < zlen (mp_path mp) /\
      forall mp', mp' ∈ mps -> matches b mp' path = true ->
        zlen (mp_path mp') <= zlen (mp_path mp)
  | None => forall mp', mp' ∈ mps -> matches b mp' path = true -> mp_path mp' = []
  end.
Proof.
  rewrite best_match_fold.
  pose proof (best_inv_fold path mps [] (None, 0)) as H. cbn [app] in H.
  destruct H as (H0 & Hmax & Hb).
  { split_and!; cbn; [lia|set_solver|reflexivity]. }
  destruct (fold_left _ _ _) as [best n]. cbn [fst snd] in *.
  destruct best as [mp|].
  - destruct Hb as (Hin & Hm & Hz & Hpos). split_and!; try assumption; [lia|].
    intros mp' Hin' Hm'. specialize (Hmax mp' Hin' Hm'). lia.
  - intros mp' Hin' Hm'. specialize (Hmax mp' Hin' Hm'). unfold zlen in Hmax.
    destruct (mp_path mp'); [done|]. cbn [length] in Hmax. lia.
Qed.

(** A matching mount that is longer than every other matching one is found. *)
Lemma best_match_dominant before after mp path :
  matches b mp path = true -> 0 < zlen (mp_path mp) ->
  (forall mp', mp' ∈ before ++ after -> matches b mp' path = true ->
     zlen (mp_path mp') < zlen (mp_path mp)) ->
  best_match b (before ++ mp :: after) path = Some mp.
Proof.
  intros Hm Hpos Hdom. pose proof (best_match_spec (before ++ mp :: after) path) as H.
  destruct (best_match b _ path) as [x|].
  - destruct H as (Hin & Hx & _ & Hmax). specialize (Hmax mp ltac:(set_solver) Hm).
    assert (x = mp \/ x ∈ before ++ after) as [->|Hi] by set_solver; [reflexivity|].
    specialize (Hdom x Hi Hx). lia.
  - specialize (H mp ltac:(set_solver) Hm). rewrite H in Hpos. by cbn in Hpos.
Qed.

Lemma matches_below mp c rest : b c = true -> matches b mp (mp_path mp ++ c :: rest) = true.
Proof.
  intros Hc. unfold matches. rewrite take_app_length, bool_decide_eq_true_2 by reflexivity.
  unfold zlen. cbn [andb]. unfold zget. rewrite Nat2Z.id, nth_middle. exact Hc.
Qed.

(** An operation on a path below the dominant mount is the operation of its type,
    on its private data and the rest of the path. *)
Lemma dispatch_below (skip : Z -> bool) op f before after mp c rest :
  b c = true -> skip c = true -> 0 < zlen (mp_path mp) -> op (mp_fs mp) = Some f ->
  (forall mp', mp' ∈ before ++ after -> matches b mp' (mp_path mp ++ c :: rest) = true ->
     zlen (mp_path mp') < zlen (mp_path mp)) ->
  dispatch b skip op (before ++ mp :: after) (mp_path mp ++ c :: rest) =
  Some (f (mp_private mp) rest).
Proof.
  intros Hc Hs Hpos Hop Hdom. unfold dispatch.
  rewrite best_match_dominant by (try assumption; by apply matches_below).
  rewrite Hop. unfold rel_path. rewrite drop_app_length, Hs. reflexivity.
Qed.

(** Unmounting takes the mount away that was made last on a new path. *)
Lemma remove_first_fresh before after mp :
  (forall mp', mp' ∈ before -> mp_path mp' <> mp_path mp) ->
  FsCommon.remove_first (before ++ mp :: after) (mp_path mp) = Some (before ++ after).
Proof.
  induction before as [|x before IH]; intros Hf; cbn [app FsCommon.remove_first].
  - by rewrite decide_True.
  - rewrite decide_False by (apply Hf; set_solver). rewrite IH by (intros; apply Hf; set_solver).
    reflexivity.
Qed.
End best.

(** ** Lemmas: normalisation *)

Import FsCommon.

Definition is_token (c : bytes) : Prop := c <> [] /\ Forall (fun x => x <> 47) c.
Definition clean (c : bytes) : Prop := is_token c /\ c <> [46] /\ c <> [46; 46].

Definition joined (comps : list bytes) : bytes :=
  match comps with
  | [] => []
  | c :: rest => c ++ concat (map (cons 47) rest)
  end.

Lemma tokens_acc_ok path : forall cur,
  Forall (fun x => x <> 47) cur -> Forall is_token (tokens_acc path cur).
Proof.
  assert (Hone : forall cur : bytes, Forall (fun x => x <> 47) cur ->
    Forall is_token (if decide (cur = []) then [] else [cur])).
  { intros cur Hc. destruct (decide (cur = [])); [constructor|]. by repeat constructor. }
  induction path as [|x path IH]; intros cur Hc; cbn [tokens_acc]; [by apply Hone|].
  destruct (Z.eqb_spec x 47).
  - apply Forall_app. split; [by apply Hone|apply IH; constructor].
  - apply IH, Forall_app. split; [assumption|by repeat constructor].
Qed.

Lemma tokens_acc_token c rest : forall cur,
  Forall (fun x => x <> 47) c -> tokens_acc (c ++ rest) cur = tokens_acc rest (cur ++ c).
Proof.
  induction c as [|x c IH]; intros cur Hc; [by rewrite app_nil_r|].
  apply Forall_cons in Hc as [Hx Hc]. cbn [app tokens_acc].
  destruct (Z.eqb_spec x 47); [contradiction|]. rewrite IH by assumption. by rewrite <- app_assoc.
Qed.

Lemma tokens_rest comps : forall cur, Forall is_token comps -> cur <> [] ->
  tokens_acc (concat (map (cons 47) comps)) cur = cur :: comps.
Proof.
  induction comps as [|c comps IH]; intros cur Hc Hne; cbn [map concat app tokens_acc].
  { by rewrite decide_False. }
  apply Forall_cons in Hc as [[Hn Hs] Hc]. rewrite Z.eqb_refl, decide_False by assumption.
  cbn [app]. rewrite tokens_acc_token by assumption. cbn [app]. by rewrite IH.
Qed.

Lemma tokens_joined comps : Forall is_token comps -> tokens (47 :: joined comps) = comps.
Proof.
  intros Hc. unfold tokens. cbn [tokens_acc]. rewrite Z.eqb_refl, decide_True by reflexivity.
  cbn [app]. destruct comps as [|c comps]; cbn [joined]; [reflexivity|].
  apply Forall_cons in Hc as [[Hn Hs] Hc]. rewrite tokens_acc_token by assumption.
  by apply tokens_rest.
Qed.

Lemma norm_step_clean abs comps t comps' :
  abs = true -> is_token t -> Forall clean comps -> zlen comps <= FS_MAX_PATH ->
  norm_step abs comps t = Some comps' -> Forall clean comps' /\ zlen comps' <= FS_MAX_PATH.
Proof.
  intros -> Ht Hc Hl. unfold norm_step.
  destruct (decide (t = [46])); [by intros [= <-]|].
  destruct (decide (t = [46; 46])).
  - destruct (decide (comps = [])) as [->|Hne]; [by intros [= <-]|]. intros [= <-].
    destruct (exists_last Hne) as (l & x & ->). rewrite removelast_last.
    apply Forall_app in Hc as [Hc _]. rewrite zlen_app in Hl. pose proof (zlen_nonneg [x]).
    split; [assumption|lia].
  - destruct (Z.leb_spec FS_MAX_PATH (zlen comps)); [discriminate|]. intros [= <-].
    rewrite zlen_app. change (zlen [t]) with 1. split; [|lia].
    apply Forall_app. split; [assumption|]. apply Forall_singleton. done.
Qed.

Lemma norm_loop_clean toks : forall comps comps',
  Forall is_token toks -> Forall clean comps -> zlen comps <= FS_MAX_PATH ->
  norm_loop true toks comps = Some comps' -> Forall clean comps' /\ zlen comps' <= FS_MAX_PATH.
Proof.
  induction toks as [|t toks IH]; intros comps comps' Ht Hc Hl E; cbn [norm_loop] in E.
  { by injection E as <-. }
  apply Forall_cons in Ht as [Ht Hts]. destruct (norm_step true comps t) as [c1|] eqn:E1; [|done].
  destruct (norm_step_clean true comps t c1) as [H1 H2]; try done. by apply (IH c1).
Qed.

Lemma norm_loop_id comps : forall acc,
  Forall clean comps -> zlen acc + zlen comps <= FS_MAX_PATH ->
  norm_loop true comps acc = Some (acc ++ comps).
Proof.
  induction comps as [|c comps IH]; intros acc Hc Hl; [by rewrite app_nil_r|].
  apply Forall_cons in Hc as [(Ht & H1 & H2) Hc]. cbn [norm_loop]. unfold norm_step.
  rewrite !decide_False by assumption. unfold zlen in Hl. cbn [length] in Hl.
  destruct (Z.leb_spec FS_MAX_PATH (zlen acc)) as [Hge|_]; [unfold zlen in Hge; lia|].
  rewrite IH, <- app_assoc; [done|assumption|]. rewrite zlen_app. unfold zlen. cbn [length]. lia.
Qed.

Lemma build_some comps : forall i out sz o, 0 <= i -> zlen out < sz ->
  build comps i out sz = Some o ->
  o = out ++ (if 0 <? i then concat (map (cons 47) comps) else joined comps) /\ zlen o < sz.
Proof.
  induction comps as [|c comps IH]; intros i out sz o Hi Hz E; cbn [build] in E.
  { injection E as <-. by destruct (0 <? i); rewrite app_nil_r. }
  destruct (Z.leb_spec sz (zlen out + zlen c + zlen (if 0 <? i then [47] else []))); [done|].
  apply IH in E as [-> Hlt]; [|lia|rewrite !zlen_app; lia].
  destruct (Z.ltb_spec 0 (i + 1)); [|lia]. split; [|exact Hlt].
  destruct (0 <? i); cbn [map concat joined app]; by rewrite <- !app_assoc.
Qed.

(** ** Properties *)


(** A file system mounted on "/" serves no file below it: with only such
    mounts, every operation on a path "/c..." fails, because the character after
    the mount path is not a separator. *)
Theorem root_mount_serves_nothing {P R} (v : FsMount.vfs P R) op c rest :
  Forall (fun mp => mp_path mp = [47]) (FsMount.mount_points v) ->
  FsMount.boundary c = false ->
  FsMount.on_mounts op v (47 :: c :: rest) = None.
Proof.
  intros Hr Hc. unfold FsMount.on_mounts, dispatch.
  pose proof (best_match_spec FsMount.boundary (FsMount.mount_points v) (47 :: c :: rest)) as H.
  destruct (best_match _ _ _) as [mp|]; [|reflexivity]. destruct H as (Hin & Hm & _).
  rewrite Forall_forall in Hr. specialize (Hr mp Hin). unfold matches in Hm. rewrite Hr in Hm.
  apply andb_true_iff in Hm as [_ Hm]. change (FsMount.boundary c = true) in Hm. congruence.
Qed.

Lemma root_mount_serves_nothing_witness :
  let fs := mk_fs Z Z 1 [102] None (fun _ => Ret (Some 5)) (Some (fun _ _ => 7)) None None None None in
  match FsMount.fs_mount true (FsMount.mk_vfs [fs] []) [47] [102] 0 with
  | Ret (_, v) => FsMount.fs_read v [47; 98; 111; 111; 116] = None
  | _ => False
  end.
Proof.
  cbv zeta. cbn [FsMount.fs_mount]. apply (root_mount_serves_nothing _ op_read_file 98 [111; 111; 116]).
  - repeat constructor.
  - reflexivity.
Defined.

(** Normalising an absolute path gives an absolute path without empty, "."
    or ".." components that fits the buffer with its NUL, and is idempotent. *)
Theorem normalize_absolute path sz out :
  zget path 0 = 47 ->
  fs_normalize_path (fun _ => true) (Some path) sz = Some out ->
  zget out 0 = 47 /\ Forall clean (tokens out) /\ zlen out + 1 <= sz /\
  fs_normalize_path (fun _ => true) (Some out) sz = Some out.
Proof.
  intros Ha E. unfold fs_normalize_path in E. rewrite Ha in E. cbn [negb] in E.
  destruct (Z.ltb_spec sz 2) as [|Hsz]; [done|]. change (47 =? 47) with true in E.
  destruct (norm_loop true (tokens path) []) as [comps|] eqn:En; [|done].
  destruct (norm_loop_clean (tokens path) [] comps) as [Hc Hl];
    [apply tokens_acc_ok; constructor|constructor|unfold zlen, FS_MAX_PATH; cbn; lia|exact En|].
  pose proof E as Eb. apply build_some in E as [-> Hlt]; [|lia|unfold zlen; cbn [length]; lia].
  change (0 <? 0) with false in *. cbv iota in *. cbn [app] in *.
  assert (Ht : tokens (47 :: joined comps) = comps).
  { apply tokens_joined. eapply Forall_impl; [exact Hc|]. by intros c [? _]. }
  rewrite Ht. split_and!; [reflexivity|assumption|lia|].
  unfold fs_normalize_path. destruct (Z.ltb_spec sz 2); [lia|].
  change (zget (47 :: joined comps) 0 =? 47) with true. cbn [negb].
  rewrite Ht, norm_loop_id by (assumption || (change (zlen (@nil bytes)) with 0; lia)). exact Eb.
Qed.

Lemma normalize_absolute_witness :
  Forall clean (tokens [47; 97; 47; 98]).
Proof.
  apply (normalize_absolute [47; 97; 47; 46; 47; 99; 47; 46; 46; 47; 98] 16 [47; 97; 47; 98]).
  - reflexivity.
  - vm_compute. reflexivity.
Defined.

(** In a relative path the second ".." removes the first one: "../.." becomes
    the empty path. *)
Theorem normalize_dotdot_lost :
  fs_normalize_path (fun _ => true) (Some [46; 46; 47; 46; 46]) 16 = Some [].
Proof. reflexivity. Qed.
