(* ===== verification/FsStack.v ===== *)
(** * File systems under the virtual file system (src/fs)

    The operation tables the drivers hand to the two virtual file system layers,
    and what a caller of a layer sees: the FAT32 driver behind fs_mount.c
    (fat32.c), the ext2 and ISO 9660 drivers behind fs_common.c (ext2.c,
    iso9660.c).  A mounted file is read through its path as the driver reads it (a
    FAT32 file when it is in the root directory, an ext2 file as copies of its first
    block, an ISO 9660 file from 16 sectors behind its extent), the mount is undone by
    unmounting; [fs_init] mounts a detected FAT32
    partition where no path reaches it; a registered but unmounted ext2 is called
    with a NULL private pointer. *)

From S2P Require Import Prelude.
From S2P Require Import Fat32.
From S2P Require Import Ext2.
From S2P Require Import Iso9660.
From S2P Require Import Vfs.
Import ListNotations.
#[local] Open Scope list_scope.

(** The arguments after the path; [a_size] is also [max_entries]. *)
Record fs_args := mk_args { a_buf : bytes; a_size : Z; a_offset : Z }.

(** Return value and out parameters of an operation ([None] is -1). *)
Inductive fs_answer :=
| Data (ret : Z) (buf : bytes)
| Entries (entries : option (list fs_dirent_t))
| Info (info : option fs_file_info_t)
| SizeIsDir (info : option (Z * bool))
| Inode (inode : option Z).

Abbreviation operation := (fs_args -> run fs_answer).

Definition data (r : run (Z * bytes)) : run fs_answer := x ← r; let '(n, buf) := x in mret (Data n buf).

Definition ascii_fat32 : bytes := [102; 97; 116; 51; 50].
Definition ascii_ext2 : bytes := [101; 120; 116; 50].
Definition ascii_iso9660 : bytes := [105; 115; 111; 57; 54; 54; 48].

(** ** fs_mount.c over FAT32 *)

Module FatStack.

Section tables.
Variable read_sector : Z -> bytes.
Variable malloc : Z -> bool.

(** The driver dereferences [mp->private_data] without a test. *)
Definition on_private (f : fat32_private_t -> bytes -> operation)
  : option (option fat32_private_t -> bytes -> operation) :=
  Some (fun private_data path a =>
          match private_data with Some priv => f priv path a | None => UB end).

Definition fat32_ops_read := on_private (fun priv path a =>
  data (fat32_read read_sector malloc priv path (a_buf a) (a_size a) (a_offset a))).

Definition fat32_ops_list_dir := on_private (fun priv path a =>
  data (fat32_read_dir read_sector malloc priv path (a_size a))).

Definition fat32_ops_get_info := on_private (fun priv path a =>
  i ← fat32_get_info read_sector malloc priv path; mret (SizeIsDir i)).

Definition fat32_fs : filesystem fat32_private_t operation :=
  mk_fs _ _ 1 ascii_fat32 (Some (fat32_detect read_sector)) (fat32_mount read_sector malloc)
    fat32_ops_read None fat32_ops_list_dir fat32_ops_get_info None.
End tables.
End FatStack.

(** ** fs_common.c over ext2 and ISO 9660 *)

Module CommonStack.

(** What [private_data] points to. *)
Inductive volume := Ext2Volume (priv : ext2_private_t) | IsoVolume (priv : iso9660_private_t).

Section tables.
Variable disk_read : Z -> Z -> option bytes.
Variable kmalloc : Z -> bool.

(** The pointer a driver's mount function returns, as a [void *]. *)
Definition mount_as {A} (mk : A -> volume) (mount : Z -> run (option A)) (lba : Z)
  : run (option volume) := p ← mount lba; mret (option_map mk p).

(** The ext2 wrappers cast and dereference [private_data]. *)
Definition on_ext2 (f : ext2_private_t -> bytes -> operation)
  : option (option volume -> bytes -> operation) :=
  Some (fun private_data path a =>
          match private_data with Some (Ext2Volume priv) => f priv path a | _ => UB end).

(** The ISO 9660 operations return [failed] (-1) for a NULL pointer. *)
Definition on_iso (failed : fs_args -> fs_answer) (f : iso9660_private_t -> bytes -> operation)
  : option (option volume -> bytes -> operation) :=
  Some (fun private_data path a =>
          match private_data with
          | None => Ret (failed a)
          | Some (IsoVolume priv) => f priv path a
          | Some (Ext2Volume _) => UB
          end).

Definition ext2_ops_read_file := on_ext2 (fun priv path a =>
  data (ext2_fs_read_file disk_read kmalloc priv path (a_buf a) (a_size a) (a_offset a))).
Definition ext2_ops_list_dir (fuel : nat) := on_ext2 (fun priv path a =>
  e ← ext2_fs_list_dir disk_read kmalloc fuel priv path (a_size a); mret (Entries e)).
Definition ext2_ops_get_info := on_ext2 (fun priv path a =>
  i ← ext2_fs_get_info disk_read kmalloc priv path; mret (Info i)).
Definition ext2_ops_find_file := on_ext2 (fun priv path a =>
  n ← ext2_fs_find_file disk_read kmalloc priv path; mret (Inode n)).

(** [fuel] bounds the turns of the listing loop, which may not end. *)
Definition ext2_fs (fuel : nat) : filesystem volume operation :=
  mk_fs _ _ 2 ascii_ext2 (Some (fun lba => negb (ext2_detect disk_read lba =? 0)))
    (mount_as Ext2Volume (ext2_mount disk_read kmalloc))
    ext2_ops_read_file None (ext2_ops_list_dir fuel) ext2_ops_get_info ext2_ops_find_file.

Definition iso9660_ops_read_file := on_iso (fun a => Data (-1) (a_buf a)) (fun priv path a =>
  data (iso9660_read_file disk_read kmalloc priv path (a_buf a) (a_size a) (a_offset a))).
Definition iso9660_ops_list_dir := on_iso (fun _ => Entries None) (fun priv path a =>
  e ← iso9660_list_dir disk_read kmalloc priv path (a_size a); mret (Entries e)).
Definition iso9660_ops_get_info := on_iso (fun _ => Info None) (fun priv path a =>
  i ← iso9660_get_info disk_read kmalloc priv path; mret (Info i)).
Definition iso9660_ops_find_file := on_iso (fun _ => Inode None) (fun priv path a =>
  n ← iso9660_find_file_fs disk_read kmalloc priv path; mret (Inode n)).

Definition iso9660_fs : filesystem volume operation :=
  mk_fs _ _ 3 ascii_iso9660 (Some (fun lba => negb (iso9660_detect disk_read lba =? 0)))
    (mount_as IsoVolume (iso9660_mount disk_read kmalloc))
    iso9660_ops_read_file None iso9660_ops_list_dir iso9660_ops_get_info iso9660_ops_find_file.

(** [iso9660_init] *)
Definition iso9660_init (mps : list (mount_point volume operation)) :=
  snd (FsCommon.fs_register true mps (Some iso9660_fs)).
End tables.
End CommonStack.

(** ** Lemmas *)

(** A path on which no mount matches as far as [dir] does has no mount on [dir]. *)
Lemma dominant_fresh {P R} b (mps : list (mount_point P R)) dir c rest :
  b c = true ->
  (forall mp, mp ∈ mps -> matches b mp (dir ++ c :: rest) = true -> zlen (mp_path mp) < zlen dir) ->
  forall mp, mp ∈ mps -> mp_path mp <> dir.
Proof.
  intros Hc Hdom mp Hin <-. specialize (Hdom mp Hin (matches_below b mp c rest Hc)). lia.
Qed.

(** What a caller of [fs_mount.c] sees of a type's operation on a new mount. *)
Lemma fs_mount_serves {P R} (v : FsMount.vfs P R) fs op f p dir name lba rest :
  FsMount.find_filesystem v name = Some fs -> fs_do_mount fs lba = Ret (Some p) ->
  op fs = Some f -> 0 < zlen dir ->
  (forall mp, mp ∈ FsMount.mount_points v ->
     matches FsMount.boundary mp (dir ++ 47 :: rest) = true -> zlen (mp_path mp) < zlen dir) ->
  exists v', FsMount.fs_mount true v dir name lba = Ret (0, v') /\
    FsMount.on_mounts op v' (dir ++ 47 :: rest) = Some (f (Some p) rest) /\
    FsMount.fs_unmount v' dir = (0, v).
Proof.
  intros Hfs Hp Hop Hdir Hdom. unfold FsMount.fs_mount. rewrite Hfs. cbn [negb]. rewrite Hp. bind_step.
  eexists. split_and!; [reflexivity| |].
  - apply (dispatch_below FsMount.boundary is_sep op f (FsMount.mount_points v) []
             (mk_mp dir fs (Some p))); try assumption; try reflexivity. by rewrite app_nil_r.
  - unfold FsMount.fs_unmount. cbn [FsMount.mount_points FsMount.registered_fs].
    pose proof (remove_first_fresh (FsMount.mount_points v) [] (mk_mp dir fs (Some p))
      (dominant_fresh FsMount.boundary _ dir 47 rest eq_refl Hdom)) as Hr.
    cbn [mp_path] in Hr. rewrite Hr, app_nil_r. by destruct v.
Qed.

(** The same for fs_common.c, where mounts are pushed in front. *)
Lemma fs_common_serves {P R} (mps : list (mount_point P R)) fs op f p dir name lba rest :
  FsCommon.find_type mps name = Some fs -> fs_do_mount fs lba = Ret (Some p) ->
  op fs = Some f -> 0 < zlen dir ->
  (forall mp, mp ∈ mps ->
     matches FsCommon.boundary mp (dir ++ 47 :: rest) = true -> zlen (mp_path mp) < zlen dir) ->
  exists mps', FsCommon.fs_mount true mps (Some dir) (Some name) lba = Ret (0, mps') /\
    dispatch FsCommon.boundary is_slash op mps' (dir ++ 47 :: rest) = Some (f (Some p) rest) /\
    FsCommon.fs_unmount mps' (Some dir) = Ret (0, mps).
Proof.
  intros Hfs Hp Hop Hdir Hdom. unfold FsCommon.fs_mount. rewrite Hfs, Hp. bind_step. cbn [negb].
  eexists. split_and!; [reflexivity| |].
  - by apply (dispatch_below FsCommon.boundary is_slash op f [] mps (mk_mp dir fs (Some p))).
  - unfold FsCommon.fs_unmount. cbn [find mp_path FsCommon.remove_first].
    by rewrite bool_decide_eq_true_2, decide_True by reflexivity.
Qed.

(** [data] of a completed read. *)
Lemma data_ret n buf : data (Ret (n, buf)) = Ret (Data n buf).
Proof. reflexivity. Qed.

(** A partition the FAT32 driver detects is one it mounts. *)
Lemma fat32_detected_mounts read_sector lba :
  fat32_detect read_sector lba = true ->
  exists priv, fat32_mount read_sector (fun _ => true) lba = Ret (Some priv).
Proof.
  unfold fat32_detect, fat32_mount. cbn [negb]. cbv zeta.
  destruct (field (read_sector lba) 510 2 =? 0xAA55); [|done]. cbn [negb andb].
  destruct (field (read_sector lba) 13 1 =? 0); [by rewrite andb_false_r|]. intros _. by eexists.
Qed.

(** ** Properties *)

(** C36. A file of the root directory of a FAT32 partition, read through its path.
    On a volume with 512-byte sectors mounted on a directory [dir] of fs_mount.c,
    where no older mount reaches as far into the path as [dir], and for a name
    without slash of 1 to 255 characters whose 8.3 form is that of an entry of the
    root directory's cluster chain, with only deleted entries, long-name entries and
    entries of other names before it: [fs_read] of "[dir]/[name]" stores exactly the
    requested part of the bytes of the entry's own cluster chain, clipped at the
    entry's size, and returns its length; unmounting [dir] restores the table of
    mounts.  Files in subdirectories are not found ([Fat32.fat32_nested_lookup]:
    every component is looked up in the root directory). *)
Theorem fat32_file_by_path read_sector v dir name lba priv buf size offset rl k l :
  (forall lba, length (read_sector lba) = 512%nat) ->
  FsMount.find_filesystem v ascii_fat32 = Some (FatStack.fat32_fs read_sector (fun _ => true)) ->
  fat32_mount read_sector (fun _ => true) lba = Ret (Some priv) -> geometry_ok priv ->
  0 < zlen dir ->
  (forall mp, mp ∈ FsMount.mount_points v ->
     matches FsMount.boundary mp (dir ++ 47 :: name) = true -> zlen (mp_path mp) < zlen dir) ->
  Forall (fun x => x <> 47) name -> (0 < length name < 256)%nat ->
  chain read_sector priv (root_dir_first_cluster priv) rl ->
  first_entry (chain_data read_sector priv rl) (fatname name) k ->
  let e := slot (chain_data read_sector priv rl) k in
  chain read_sector priv (dent_cluster e) l -> dent_size e <= zlen (chain_data read_sector priv l) ->
  0 <= offset -> 0 <= size -> offset + size < 2 ^ 31 -> size <= zlen buf ->
  let n := if dent_size e <=? offset then 0 else Z.min size (dent_size e - offset) in
  exists v', FsMount.fs_mount true v dir ascii_fat32 lba = Ret (0, v') /\
    (fun read => read (mk_args buf size offset)) <$> FsMount.fs_read v' (dir ++ 47 :: name) =
      Some (Ret (Data n (splice buf 0 (sub (chain_data read_sector priv l) offset n)))) /\
    FsMount.fs_unmount v' dir = (0, v).
Proof.
  intros Hsec Hfs Hm Hg Hdir Hdom Hname Hlen Hroot Hk e Hc Hf Ho Hs Hw Hb n.
  destruct (fs_mount_serves v _ op_read_file _ priv dir ascii_fat32 lba name Hfs Hm eq_refl Hdir Hdom)
    as (v' & Hmount & Hread & Hun).
  exists v'. split_and!; [assumption| |assumption].
  pose proof (find_in_root read_sector Hsec priv name rl k Hg Hname Hlen Hroot Hk) as Hfind. cbv zeta in Hfind. fold e in Hfind.
  unfold FsMount.fs_read. rewrite Hread. cbn [fmap option_fmap option_map a_buf a_size a_offset].
  by rewrite (fat32_read_refines read_sector priv name buf size offset (dent_cluster e) (dent_size e) l), data_ret.
Qed.

(** A partition of four sectors: boot sector, file allocation table, directory, file. *)
Definition floppy_sector (lba : Z) : bytes :=
  if lba =? 0 then
    zeros 11 ++ [0; 2; 1; 1; 0; 1; 0; 0; 4; 0; 0; 1; 0] ++ zeros 20 ++ [2; 0; 0; 0] ++ zeros 34 ++
    [70; 65; 84; 51; 50; 32; 32; 32] ++ zeros 420 ++ [0x55; 0xAA]
  else tiny_sector lba.

Lemma floppy_sector_size lba : length (floppy_sector lba) = 512%nat.
Proof. unfold floppy_sector. destruct (lba =? 0); [reflexivity|apply tiny_sector_size]. Qed.

Lemma floppy_chain : chain floppy_sector tiny 3 [3].
Proof.
  apply chain_step with 0x0FFFFFFF; [unfold valid_cluster; cbn; lia|by vm_compute|].
  apply chain_end. lia.
Qed.

Lemma floppy_root : chain floppy_sector tiny 2 [2].
Proof.
  apply chain_step with 0x0FFFFFFF; [unfold valid_cluster; cbn; lia|by vm_compute|].
  apply chain_end. lia.
Qed.

(** The file A, mounted on "/f" beside a mount on "/" that came first. *)
Lemma fat32_file_by_path_witness :
  let fs := FatStack.fat32_fs floppy_sector (fun _ => true) in
  let v := FsMount.mk_vfs [fs] [mk_mp [47] fs (Some tiny)] in
  exists v', FsMount.fs_mount true v [47; 102] ascii_fat32 0 = Ret (0, v') /\
    (fun read => read (mk_args (zeros 4) 4 2)) <$> FsMount.fs_read v' [47; 102; 47; 97] =
      Some (Ret (Data 3 (splice (zeros 4) 0 (sub (chain_data floppy_sector tiny [3]) 2 3)))) /\
    FsMount.fs_unmount v' [47; 102] = (0, v).
Proof.
  intros fs v.
  apply (fat32_file_by_path floppy_sector v [47; 102] [97] 0 tiny (zeros 4) 4 2 [2] 0 [3]).
  - exact floppy_sector_size.
  - reflexivity.
  - vm_compute. reflexivity.
  - exact tiny_geometry.
  - by vm_compute.
  - intros mp ->%list_elem_of_singleton _. by vm_compute.
  - apply Forall_cons_2; [lia|apply Forall_nil_2].
  - cbn. lia.
  - exact floppy_root.
  - split; [lia|]. split; [by vm_compute|]. split; [|lia]. split; [by vm_compute|]. split; by vm_compute.
  - exact floppy_chain.
  - by vm_compute.
  - lia.
  - lia.
  - lia.
  - by vm_compute.
Defined.

Lemma iso9660_mount_lba disk_read kmalloc lba priv :
  iso9660_mount disk_read kmalloc lba = Ret (Some priv) -> 0 <= iso_lba priv.
Proof.
  unfold iso9660_mount. destruct (kmalloc 2064); [|done]. cbn [negb]. cbv zeta.
  destruct (iso9660_read_volume_descriptor _ _); [|done].
  destruct (iso9660_read_path_table _ _ _); [|done|done]. bind_step. intros [= <-]. cbn [iso_lba].
  apply Z.mod_pos_bound. lia.
Qed.

(** The start of the area a file is read from is 8192 bytes behind the file's
    extent of the partition. *)
Theorem iso9660_displaced disk_read kmalloc lba priv extent :
  iso9660_mount disk_read kmalloc lba = Ret (Some priv) -> 0 <= lba < 2 ^ 32 - 16 ->
  iso_lba priv * 512 + extent * iso_block_size priv =
  (lba * 512 + extent * iso_block_size priv) + 8192.
Proof.
  unfold iso9660_mount. destruct (kmalloc 2064); [|done]. cbn [negb]. cbv zeta.
  destruct (iso9660_read_volume_descriptor _ _); [|done].
  destruct (iso9660_read_path_table _ _ _); [|done|done]. bind_step. intros [= <-] Hl. cbn [iso_lba].
  rewrite wrap_small by (unfold in_u; lia). lia.
Qed.

(** An ISO 9660 file read through its path.  Once the type is registered with
    fs_common.c, mounting a disc on [dir] succeeds; [fs_read_file] of
    "[dir]/[rest]" stores the requested number of bytes, clipped at the file size,
    of the disc image from [base + offset] on, and returns their number; unmounting
    [dir] restores the table.  [base] is not where the file lies: the mount keeps
    [lba + 16], so that every read is displaced by 16 sectors behind the extent
    ([iso9660_displaced]). *)
Theorem iso9660_file_by_path disk_read mps dir rest lba priv buf size offset extent fsize img :
  let alloc := fun _ : Z => true in
  reads_image disk_read img ->
  FsCommon.find_type mps ascii_iso9660 = Some (CommonStack.iso9660_fs disk_read alloc) ->
  iso9660_mount disk_read alloc lba = Ret (Some priv) ->
  0 < iso_block_size priv < 2 ^ 16 -> iso_block_size priv mod 512 = 0 ->
  0 < zlen dir ->
  (forall mp, mp ∈ mps ->
     matches FsCommon.boundary mp (dir ++ 47 :: rest) = true -> zlen (mp_path mp) < zlen dir) ->
  find_from_root disk_read alloc priv rest = Ret (Some (extent, fsize)) -> 0 <= extent ->
  0 <= offset < fsize -> 0 < size -> offset + size < 2 ^ 31 -> size <= zlen buf ->
  let base := iso_lba priv * 512 + extent * iso_block_size priv in
  base + fsize + iso_block_size priv <= zlen img -> zlen img < 2 ^ 31 ->
  let n := Z.min size (fsize - offset) in
  exists mps', FsCommon.fs_mount true mps (Some dir) (Some ascii_iso9660) lba = Ret (0, mps') /\
    (fun read => read (mk_args buf size offset)) <$> FsCommon.fs_read_file mps' (dir ++ 47 :: rest) =
      Some (Ret (Data n (splice buf 0 (sub img (base + offset) n)))) /\
    FsCommon.fs_unmount mps' (Some dir) = Ret (0, mps).
Proof.
  intros alloc Himg Hfs Hm Hbs Hmod Hdir Hdom Hfind He Ho Hs Hw Hb base Hfit Hlen n. subst alloc.
  assert (Hp : fs_do_mount (CommonStack.iso9660_fs disk_read (fun _ => true)) lba =
               Ret (Some (CommonStack.IsoVolume priv))).
  { cbn [fs_do_mount CommonStack.iso9660_fs]. unfold CommonStack.mount_as. by rewrite Hm. }
  destruct (fs_common_serves mps _ op_read_file _ _ dir ascii_iso9660 lba rest Hfs Hp eq_refl Hdir Hdom)
    as (mps' & Hmount & Hread & Hun).
  exists mps'. split_and!; [assumption| |assumption].
  unfold FsCommon.fs_read_file. rewrite Hread. cbn [fmap option_fmap option_map a_buf a_size a_offset].
  rewrite (iso9660_read_refines disk_read priv rest buf size offset extent fsize img); try assumption.
  - by rewrite data_ret.
  - by eapply iso9660_mount_lba.
Qed.

(** A disc whose volume descriptor lies where the driver looks for it, in sector
    32 (twice sixteen sectors are skipped); directory and file as in [disc_image]. *)
Definition cd_image : bytes :=
  zeros 8192 ++ disc_image ++ zeros 6144 ++
  ([1] ++ zeros 119 ++ [0; 2] ++ zeros 22 ++ [1] ++ zeros 7 ++ [0; 2; 0; 0] ++ zeros 356) ++ zeros 512.

Definition cd_read (lba count : Z) : option bytes := Some (sub cd_image (lba * 512) (count * 512)).

Definition cd_private : iso9660_private_t := Eval vm_compute in
  match iso9660_mount cd_read (fun _ => true) 0 with
  | Ret (Some priv) => priv
  | _ => disc
  end.

(** Registered by [iso9660_init], mounted on "/c": the last four bytes of A. *)
Lemma iso9660_file_by_path_witness :
  let mps := CommonStack.iso9660_init cd_read (fun _ => true) [] in
  exists mps', FsCommon.fs_mount true mps (Some [47; 99]) (Some ascii_iso9660) 0 = Ret (0, mps') /\
    (fun read => read (mk_args (zeros 8) 8 1)) <$> FsCommon.fs_read_file mps' [47; 99; 47; 97] =
      Some (Ret (Data 4 (splice (zeros 8) 0 (sub cd_image 9217 4)))) /\
    FsCommon.fs_unmount mps' (Some [47; 99]) = Ret (0, mps).
Proof.
  intros mps.
  apply (iso9660_file_by_path cd_read mps [47; 99] [97] 0 cd_private (zeros 8) 8 1 2 5 cd_image).
  - intros lba count _ _ _. reflexivity.
  - reflexivity.
  - vm_compute. reflexivity.
  - split; by vm_compute.
  - reflexivity.
  - by vm_compute.
  - intros mp ->%list_elem_of_singleton _. by vm_compute.
  - vm_compute. reflexivity.
  - lia.
  - lia.
  - lia.
  - lia.
  - by vm_compute.
  - by vm_compute.
  - by vm_compute.
Defined.

(** [fs_init] mounts a detected FAT32 partition on "/", and then no operation on
    a path below "/" reaches it. *)
Theorem fs_init_unreachable read_sector ext2_fs iso9660_fs :
  fat32_detect read_sector 0 = true ->
  let fat32_fs := FatStack.fat32_fs read_sector (fun _ => true) in
  exists v priv,
    FsMount.fs_init true fat32_fs ext2_fs iso9660_fs (FsMount.mk_vfs [] []) = Ret v /\
    FsMount.mount_points v = [mk_mp [47] fat32_fs (Some priv)] /\
    forall op c rest, FsMount.boundary c = false ->
      FsMount.on_mounts op v (47 :: c :: rest) = None.
Proof.
  intros Hd fat32_fs. destruct (fat32_detected_mounts read_sector 0 Hd) as [priv Hp].
  exists (FsMount.mk_vfs [fat32_fs; ext2_fs; iso9660_fs] [mk_mp [47] fat32_fs (Some priv)]), priv.
  split_and!; [|reflexivity|].
  - change (FsMount.mount_root true [fat32_fs; ext2_fs; iso9660_fs]
              (FsMount.mk_vfs [fat32_fs; ext2_fs; iso9660_fs] []) =
            Ret (FsMount.mk_vfs [fat32_fs; ext2_fs; iso9660_fs] [mk_mp [47] fat32_fs (Some priv)])).
    cbn [FsMount.mount_root fs_detect fat32_fs FatStack.fat32_fs]. rewrite Hd.
    unfold FsMount.fs_mount, FsMount.find_filesystem. cbn [FsMount.registered_fs find].
    rewrite bool_decide_eq_true_2 by reflexivity. cbn [negb fs_do_mount fat32_fs FatStack.fat32_fs].
    by rewrite Hp.
  - intros op c rest. apply root_mount_serves_nothing. by repeat constructor.
Qed.

Lemma fs_init_unreachable_witness :
  let fat := FatStack.fat32_fs floppy_sector (fun _ => true) in
  exists v priv, FsMount.fs_init true fat fat fat (FsMount.mk_vfs [] []) = Ret v /\
    FsMount.mount_points v = [mk_mp [47] fat (Some priv)] /\
    forall op c rest, FsMount.boundary c = false ->
      FsMount.on_mounts op v (47 :: c :: rest) = None.
Proof.
  intros fat. apply (fs_init_unreachable floppy_sector fat fat). vm_compute. reflexivity.
Defined.

(** Registering a type with fs_common.c puts an entry without private data on
    "/": an ext2 operation on "/" then dereferences NULL, an ISO 9660 operation
    fails, and unmounting "/" frees a string literal. *)
Theorem registered_type_null disk_read kmalloc fuel a :
  let ext2 := snd (FsCommon.fs_register true [] (Some (CommonStack.ext2_fs disk_read kmalloc fuel))) in
  let iso := CommonStack.iso9660_init disk_read kmalloc [] in
  (fun read => read a) <$> FsCommon.fs_read_file ext2 [47] = Some UB /\
  (fun read => read a) <$> FsCommon.fs_read_file iso [47] = Some (Ret (Data (-1) (a_buf a))) /\
  FsCommon.fs_unmount ext2 (Some [47]) = UB /\ FsCommon.fs_unmount iso (Some [47]) = UB.
Proof. by repeat split. Qed.

(** ** ext2 files by path *)

(** One block of a file that is at least a block long: the loop ends after it. *)
Lemma read_file_loop_one n disk_read priv inode block buf :
  let bs := block_size priv in
  0 < bs -> i_block inode 0 <> 0 ->
  ext2_read_block disk_read priv (i_block inode 0) = Some block -> zlen block = bs ->
  bs <= zlen buf ->
  read_file_loop disk_read (S n) priv inode 0 buf 0 bs = Ret (0, splice buf 0 block).
Proof.
  intros bs Hs Hne Hb Hl Hbuf. cbn [read_file_loop]. fold bs.
  destruct (Z.ltb_spec 0 bs); [|lia]. destruct (Z.eqb_spec (i_block inode 0) 0); [done|].
  rewrite Hb. destruct (Z.ltb_spec bs (bs - 0)); [lia|]. cbn [negb].
  rewrite memcpy_ok by lia. bind_step. rewrite sub_all by lia.
  destruct n; cbn [read_file_loop]; [reflexivity|].
  destruct (Z.ltb_spec (0 + (bs - 0)) bs); [lia|reflexivity].
Qed.

Lemma ext2_read_first_block disk_read kmalloc priv inode_num inode block buf :
  let bs := block_size priv in
  ext2_read_inode disk_read kmalloc priv inode_num = Ret (Some inode) ->
  0 < bs <= i_size inode -> i_block inode 0 <> 0 ->
  ext2_read_block disk_read priv (i_block inode 0) = Some block -> zlen block = bs ->
  bs <= zlen buf ->
  ext2_read_file disk_read kmalloc priv inode_num buf bs = Ret (0, splice buf 0 block).
Proof.
  intros bs Hi Hs Hne Hb Hl Hbuf. unfold ext2_read_file. rewrite Hi. bind_step.
  destruct (Z.ltb_spec (i_size inode) bs); [lia|]. apply read_file_loop_one; try assumption; lia.
Qed.

(** The wrapper's loop, [m] blocks before its end, behind the [a] already stored. *)
Lemma fs_read_loop_repeats disk_read kmalloc priv inode_num block m :
  let bs := block_size priv in
  0 < bs -> zlen block = bs ->
  (forall buf, bs <= zlen buf ->
     ext2_read_file disk_read kmalloc priv inode_num buf bs = Ret (0, splice buf 0 block)) ->
  forall fuel a buf, (m <= fuel)%nat -> Z.of_nat m * bs <= zlen buf ->
  fs_read_loop disk_read kmalloc fuel priv inode_num (a ++ buf) (zlen a) (Z.of_nat m * bs) =
  Ret (s32 (zlen a + Z.of_nat m * bs), a ++ splice buf 0 (concat (replicate m block))).
Proof.
  intros bs Hbs Hl Hread. induction m as [|m IH]; intros fuel a buf Hf Hb.
  { destruct fuel; cbn; by rewrite Z.add_0_r, splice_nil by lia. }
  destruct fuel as [|fuel]; [lia|]. rewrite Nat2Z.inj_succ, Z.mul_succ_l in *. cbn [fs_read_loop].
  destruct (Z.leb_spec (Z.of_nat m * bs + bs) 0); [lia|]. fold bs.
  replace (if bs <? Z.of_nat m * bs + bs then bs else Z.of_nat m * bs + bs) with bs
    by (destruct (Z.ltb_spec bs (Z.of_nat m * bs + bs)); lia).
  replace (Z.to_nat (zlen a)) with (length a) by (unfold zlen; lia).
  rewrite drop_app_length, take_app_length, Hread by lia. bind_step.
  change (negb (0 =? 0)) with false. cbv iota.
  unfold splice at 1. rewrite take_0. cbn [app]. rewrite app_assoc.
  replace (zlen a + bs) with (zlen (a ++ block)) by (rewrite zlen_app; lia).
  replace (Z.of_nat m * bs + bs - bs) with (Z.of_nat m * bs) by lia.
  rewrite IH by (unfold zlen in *; rewrite ?length_drop; lia).
  rewrite zlen_app, <- app_assoc. cbn [replicate concat].
  f_equal. f_equal; [f_equal; lia|]. f_equal. unfold splice. rewrite !take_0. cbn [app].
  rewrite <- app_assoc, drop_drop, length_app. reflexivity.
Qed.

(** A mounted ext2 file read through its path: whatever the offset, a request of
    [m] blocks is answered with [m] copies of the first block of the file. *)
Theorem ext2_file_by_path disk_read fuel mps dir rest lba priv inode_num inode block buf m offset :
  let alloc := fun _ : Z => true in
  let bs := block_size priv in
  FsCommon.find_type mps ascii_ext2 = Some (CommonStack.ext2_fs disk_read alloc fuel) ->
  ext2_mount disk_read alloc lba = Ret (Some priv) ->
  0 < zlen dir ->
  (forall mp, mp ∈ mps ->
     matches FsCommon.boundary mp (dir ++ 47 :: rest) = true -> zlen (mp_path mp) < zlen dir) ->
  ext2_find_file disk_read alloc priv rest = Ret (Some inode_num) ->
  ext2_read_inode disk_read alloc priv inode_num = Ret (Some inode) ->
  0 < bs <= i_size inode -> i_block inode 0 <> 0 ->
  ext2_read_block disk_read priv (i_block inode 0) = Some block -> zlen block = bs ->
  Z.of_nat m * bs <= zlen buf -> Z.of_nat m * bs < 2 ^ 31 ->
  exists mps', FsCommon.fs_mount true mps (Some dir) (Some ascii_ext2) lba = Ret (0, mps') /\
    (fun read => read (mk_args buf (Z.of_nat m * bs) offset)) <$>
      FsCommon.fs_read_file mps' (dir ++ 47 :: rest) =
      Some (Ret (Data (Z.of_nat m * bs) (splice buf 0 (concat (replicate m block))))) /\
    FsCommon.fs_unmount mps' (Some dir) = Ret (0, mps).
Proof.
  intros alloc bs Hfs Hm Hdir Hdom Hfind Hi Hbs Hne Hblk Hl Hb Hw. subst alloc.
  assert (Hp : fs_do_mount (CommonStack.ext2_fs disk_read (fun _ => true) fuel) lba =
               Ret (Some (CommonStack.Ext2Volume priv))).
  { cbn [fs_do_mount CommonStack.ext2_fs]. unfold CommonStack.mount_as. by rewrite Hm. }
  destruct (fs_common_serves mps _ op_read_file _ _ dir ascii_ext2 lba rest Hfs Hp eq_refl Hdir Hdom)
    as (mps' & Hmount & Hread & Hun).
  exists mps'. split_and!; [assumption| |assumption].
  unfold FsCommon.fs_read_file. rewrite Hread. cbn [fmap option_fmap option_map a_buf a_size a_offset].
  unfold ext2_fs_read_file. rewrite Hfind. bind_step.
  pose proof (fs_read_loop_repeats disk_read (fun _ => true) priv inode_num block m) as E.
  fold bs in E. specialize (E ltac:(lia) Hl).
  specialize (E ltac:(intros; by eapply ext2_read_first_block) (Z.to_nat (Z.of_nat m * bs)) [] buf).
  change (zlen (@nil Z)) with 0 in E. cbn [app] in E. rewrite Z.add_0_l in E.
  rewrite E, data_ret by (assumption || nia). do 3 f_equal. unfold s32. dlia.
Qed.

(** A volume of 1024-byte blocks whose superblock doubles as the group descriptors
    ([Ext2.ext2_descriptors_are_superblock]): inode table in block 5, the root directory in
    block 7, its file "a" (inode 3) in block 9. *)
Definition ext2_image (lba count : Z) : option bytes :=
  Some (
    if lba =? 2 then zeros 4 ++ [16; 0; 0; 0; 5] ++ zeros 24 ++ [32] ++ zeros 6 ++ [8] ++ zeros 15 ++ [0x53; 0xEF] ++ zeros 966
    else if lba =? 10 then zeros 168 ++ [7; 0; 0; 0] ++ zeros 88 ++ [0; 4; 0; 0] ++ zeros 32 ++ [9; 0; 0; 0] ++ zeros 724
    else if lba =? 14 then [3; 0; 0; 0; 0; 4; 1; 1; 97] ++ zeros 1015
    else if lba =? 18 then [72; 69; 76; 76; 79] ++ zeros 1019
    else zeros 1024).

Definition ext2_image_private : ext2_private_t := Eval vm_compute in
  match ext2_mount ext2_image (fun _ => true) 0 with
  | Ret (Some priv) => priv
  | _ => small_fs
  end.

(** Two blocks from offset 1024 on are the first block, twice. *)
Lemma ext2_file_by_path_witness :
  let fs := CommonStack.ext2_fs ext2_image (fun _ => true) 1 in
  let mps := snd (FsCommon.fs_register true [] (Some fs)) in
  exists mps', FsCommon.fs_mount true mps (Some [47; 101]) (Some ascii_ext2) 0 = Ret (0, mps') /\
    (fun read => read (mk_args (zeros 2048) 2048 1024)) <$> FsCommon.fs_read_file mps' [47; 101; 47; 97] =
      Some (Ret (Data 2048 (splice (zeros 2048) 0 (concat (replicate 2 (small_data 0)))))) /\
    FsCommon.fs_unmount mps' (Some [47; 101]) = Ret (0, mps).
Proof.
  intros fs mps.
  apply (ext2_file_by_path ext2_image 1 mps [47; 101] [97] 0 ext2_image_private 3
           (zeros 4 ++ [0; 4; 0; 0] ++ zeros 32 ++ [9; 0; 0; 0] ++ zeros 84) (small_data 0) (zeros 2048) 2 1024).
  - reflexivity.
  - vm_compute. reflexivity.
  - by vm_compute.
  - intros mp ->%list_elem_of_singleton _. by vm_compute.
  - vm_compute. reflexivity.
  - vm_compute. reflexivity.
  - split; by vm_compute.
  - by vm_compute.
  - vm_compute. reflexivity.
  - by vm_compute.
  - by vm_compute.
  - by vm_compute.
Defined.

Lemma ext2_descriptors_are_superblock_witness :
  exists sb, ext2_read_superblock ext2_image 0 = Some sb /\ gd ext2_image_private = sub sb 0 32.
Proof.
  eexists. split; [reflexivity|].
  apply (ext2_descriptors_are_superblock ext2_image (fun _ => true) 0 _ ext2_image_private).
  - reflexivity.
  - by vm_compute.
  - vm_compute. reflexivity.
  - split; by vm_compute.
Defined.
