(* ===== verification/Libb.v ===== *)
(** * The bootloader development library (src/boot/libb/bloodhorn.c)

    Number formatting and the default printf, the reference-counted library
    state, status codes, and the memory and string helpers.  The system table
    is a set of callbacks supplied by the bootloader: the state records whether
    one is installed and what was printed through it. *)

From S2P Require Import Prelude.

(** ** Status codes (include/bloodhorn/status.h) *)

Inductive bh_status_t :=
| BH_SUCCESS | BH_PENDING | BH_TIMEOUT
| BH_ERROR | BH_INVALID_ARGUMENT | BH_INVALID_HANDLE | BH_INVALID_OPERATION
| BH_NOT_IMPLEMENTED | BH_NOT_SUPPORTED | BH_ACCESS_DENIED | BH_OUT_OF_MEMORY
| BH_OUT_OF_RESOURCES | BH_DEVICE_ERROR | BH_IO_ERROR | BH_TIMED_OUT
| BH_WOULD_BLOCK | BH_ALREADY_EXISTS | BH_NOT_FOUND | BH_BUFFER_TOO_SMALL
| BH_PATH_NOT_FOUND | BH_PATH_ALREADY_EXISTS | BH_DIRECTORY_NOT_EMPTY
| BH_IS_A_DIRECTORY | BH_NOT_A_DIRECTORY | BH_READ_ONLY_FILESYSTEM | BH_FILESYSTEM_FULL
| BH_NETWORK_ERROR | BH_CONNECTION_REFUSED | BH_CONNECTION_RESET
| BH_CONNECTION_ABORTED | BH_HOST_UNREACHABLE | BH_NETWORK_UNREACHABLE | BH_NETWORK_DOWN
| BH_PERMISSION_DENIED | BH_AUTH_FAILED | BH_NOT_AUTHORIZED | BH_CERTIFICATE_ERROR
| BH_HARDWARE_ERROR | BH_DEVICE_NOT_FOUND | BH_DEVICE_BUSY | BH_DEVICE_OFFLINE
| BH_INTERNAL_ERROR | BH_ASSERTION_FAILED | BH_UNEXPECTED_ERROR | BH_UNKNOWN_ERROR.

#[export] Instance bh_status_eq_dec : EqDecision bh_status_t.
Proof. solve_decision. Defined.

Definition bh_status_to_string (status : bh_status_t) : string :=
  (match status with
   | BH_SUCCESS => "Success"
   | BH_PENDING => "Operation pending"
   | BH_TIMEOUT => "Operation timed out"
   | BH_ERROR => "Generic error"
   | BH_INVALID_ARGUMENT => "Invalid argument"
   | BH_INVALID_HANDLE => "Invalid handle"
   | BH_INVALID_OPERATION => "Invalid operation"
   | BH_NOT_IMPLEMENTED => "Not implemented"
   | BH_NOT_SUPPORTED => "Not supported"
   | BH_ACCESS_DENIED => "Access denied"
   | BH_OUT_OF_MEMORY => "Out of memory"
   | BH_OUT_OF_RESOURCES => "Out of resources"
   | BH_DEVICE_ERROR => "Device error"
   | BH_IO_ERROR => "I/O error"
   | BH_TIMED_OUT => "Timed out"
   | BH_WOULD_BLOCK => "Would block"
   | BH_ALREADY_EXISTS => "Already exists"
   | BH_NOT_FOUND => "Not found"
   | BH_BUFFER_TOO_SMALL => "Buffer too small"
   | BH_PATH_NOT_FOUND => "Path not found"
   | BH_PATH_ALREADY_EXISTS => "Path already exists"
   | BH_DIRECTORY_NOT_EMPTY => "Directory not empty"
   | BH_IS_A_DIRECTORY => "Is a directory"
   | BH_NOT_A_DIRECTORY => "Not a directory"
   | BH_READ_ONLY_FILESYSTEM => "Read-only filesystem"
   | BH_FILESYSTEM_FULL => "Filesystem full"
   | BH_NETWORK_ERROR => "Network error"
   | BH_CONNECTION_REFUSED => "Connection refused"
   | BH_CONNECTION_RESET => "Connection reset"
   | BH_CONNECTION_ABORTED => "Connection aborted"
   | BH_HOST_UNREACHABLE => "Host unreachable"
   | BH_NETWORK_UNREACHABLE => "Network unreachable"
   | BH_NETWORK_DOWN => "Network down"
   | BH_PERMISSION_DENIED => "Permission denied"
   | BH_AUTH_FAILED => "Authentication failed"
   | BH_NOT_AUTHORIZED => "Not authorized"
   | BH_CERTIFICATE_ERROR => "Certificate error"
   | BH_HARDWARE_ERROR => "Hardware error"
   | BH_DEVICE_NOT_FOUND => "Device not found"
   | BH_DEVICE_BUSY => "Device busy"
   | BH_DEVICE_OFFLINE => "Device offline"
   | BH_INTERNAL_ERROR => "Internal error"
   | BH_ASSERTION_FAILED => "Assertion failed"
   | BH_UNEXPECTED_ERROR => "Unexpected error"
   | BH_UNKNOWN_ERROR => "Unknown error"
   end)%string.

(** ** [bh_itoa]

    [value] is a [long long]; division truncates as in C. *)

Definition digit_char (digit : Z) : Z := if digit <? 10 then 48 + digit else 97 + digit - 10.

(** [while (tmp_value) ...]: the characters appended, least significant first. *)
Fixpoint digits_loop (fuel : nat) (tmp_value base : Z) : run bytes :=
  if tmp_value =? 0 then Ret []
  else match fuel with
       | O => OutOfFuel
       | S fuel' =>
           rest ← digits_loop fuel' (Z.quot tmp_value base) base;
           mret (digit_char (Z.rem tmp_value base) :: rest)
       end.

(** [while (ptr1 < ptr)]: swap the ends of [s[i .. j]] and move inwards. *)
Fixpoint reverse_loop (fuel : nat) (s : bytes) (i j : Z) : bytes :=
  match fuel with
  | O => s
  | S fuel' =>
      if i <? j then
        let tmp_char := zget s j in
        let s := zset s j (zget s i) in
        let s := zset s i tmp_char in
        reverse_loop fuel' s (i + 1) (j - 1)
      else s
  end.

(** The characters before the NUL, and the returned count.  At most 64 digits
    are produced in base 2 or more (the loop does not end in base 1 or -1, and
    the remainder of base 0 is undefined); negating the least value overflows. *)
Definition bh_itoa (value base : Z) (is_signed : bool) : run (bytes * Z) :=
  if value =? 0 then mret ([48], 1)
  else if base =? 0 then UB
  else
    let neg := is_signed && (value <? 0) in
    if neg && (value =? - 2 ^ 63) then UB
    else
      let value := if neg then - value else value in
      let prefix := if neg then [45] else [] in
      d ← digits_loop 64 value base;
      let s := prefix ++ d in
      let i := if is_signed && (zget s 0 =? 45) then 1 else 0 in
      mret (reverse_loop (length s) s i (zlen s - 1), zlen s).

(** ** The default printf *)

Inductive parg := AInt (v : Z) | APtr (v : Z) | AStr (s : option bytes).

(** [default_puts]: the string and a newline. *)
Definition default_puts (str : option bytes) : bytes :=
  match str with Some s => s ++ [10] | None => [] end.

Definition upper_hex (c : Z) : Z := if (97 <=? c) && (c <=? 102) then c - 97 + 65 else c.

(** The conversion of a [long long] argument from the C type of the specifier. *)
Definition as_int (v : Z) : Z := s32 v.
Definition as_uint (v : Z) : Z := u32 v.
Definition as_ptr (v : Z) : Z := (v + 2 ^ 63) mod 2 ^ 64 - 2 ^ 63.

(** One specifier: the characters printed and the remaining arguments. *)
Definition format_one (c : Z) (args : list parg) : run (bytes * list parg) :=
  if (c =? 100) || (c =? 105) then
    match args with
    | AInt v :: args' => r ← bh_itoa (as_int v) 10 true; mret (default_puts (Some (fst r)), args')
    | _ => UB
    end
  else if c =? 117 then
    match args with
    | AInt v :: args' => r ← bh_itoa (as_uint v) 10 false; mret (default_puts (Some (fst r)), args')
    | _ => UB
    end
  else if c =? 120 then
    match args with
    | AInt v :: args' => r ← bh_itoa (as_uint v) 16 false; mret (default_puts (Some (fst r)), args')
    | _ => UB
    end
  else if c =? 88 then
    match args with
    | AInt v :: args' =>
        r ← bh_itoa (as_uint v) 16 false;
        mret (default_puts (Some (map upper_hex (fst r))), args')
    | _ => UB
    end
  else if c =? 112 then
    match args with
    | APtr v :: args' =>
        r ← bh_itoa (as_ptr v) 16 false;
        mret (default_puts (Some [48; 120]) ++ default_puts (Some (fst r)), args')
    | _ => UB
    end
  else if c =? 115 then
    match args with
    | AStr (Some s) :: args' => mret (s, args')
    | AStr None :: args' => mret (default_puts (Some [40; 110; 117; 108; 108; 41]), args')
    | _ => UB
    end
  else if c =? 99 then
    match args with
    | AInt v :: args' => mret ([u8 v], args')
    | _ => UB
    end
  else if c =? 37 then mret ([37], args)
  else mret ([37; c], args).

Fixpoint printf_loop (format : bytes) (args : list parg) : run bytes :=
  match format with
  | [] => Ret []
  | x :: rest =>
      if x =? 37 then
        match rest with
        | c :: rest' =>
            r ← format_one c args;
            tail ← printf_loop rest' (snd r);
            mret (fst r ++ tail)
        | [] => Ret [x]
        end
      else
        tail ← printf_loop rest args;
        mret (x :: tail)
  end.

Definition default_printf (format : option bytes) (args : list parg) : run bytes :=
  match format with Some f => printf_loop f args | None => mret [] end.

(** ** Library state *)

(** A system table: which table it is, and its callbacks.  A callback that
    returns something is [None] for NULL or the function; of the others only
    their presence matters, since what they do is the bootloader's. *)
Record table := mk_table {
  table_id : Z;
  table_alloc : option (Z -> option Z); table_free : bool;
  table_putc : bool; table_puts : bool; table_printf : bool;
  table_get_memory_map : option (bh_status_t * bytes);
  table_get_graphics_info : option (bh_status_t * bytes);
  table_get_rsdp : option (option Z); table_get_boot_device : option (option Z);
  table_reboot : bool; table_shutdown : bool; table_debug_break : bool }.

Definition default_alloc (size : Z) : option Z := None.
Definition default_get_memory_map : bh_status_t * bytes := (BH_ERROR, []).
Definition default_get_graphics_info : bh_status_t * bytes := (BH_ERROR, []).
Definition default_get_rsdp : option Z := None.
Definition default_get_boot_device : option Z := None.

Definition default_system_table : table :=
  mk_table 0 (Some default_alloc) true true true true (Some default_get_memory_map)
    (Some default_get_graphics_info) (Some default_get_rsdp) (Some default_get_boot_device) true true true.

(** ** The wrappers of the callbacks

    The first component is the result, the second the callbacks that were called. *)

Inductive callback :=
| CallAlloc (size : Z) | CallFree (ptr : option Z) | CallPutc (c : Z) | CallPuts (str : string)
| CallGetMemoryMap | CallGetGraphicsInfo | CallGetRsdp | CallGetBootDevice
| CallReboot | CallShutdown | CallDebugBreak.

(** [if (bh_system_table && bh_system_table->f) return bh_system_table->f(...); return dflt;] *)
Definition through {A B} (t : option table) (field : table -> option A) (call : callback) (app : A -> B) (dflt : B)
  : B * list callback :=
  match t with
  | Some x => match field x with Some f => (app f, [call]) | None => (dflt, []) end
  | None => (dflt, [])
  end.

Definition present (b : bool) : option () := if b then Some () else None.

Definition bh_malloc (t : option table) (size : Z) : option Z * list callback :=
  through t table_alloc (CallAlloc size) (fun f => f size) None.
Definition bh_free (t : option table) (ptr : option Z) : () * list callback :=
  through t (fun x => present (table_free x)) (CallFree ptr) id ().
Definition bh_putc (t : option table) (c : Z) : () * list callback :=
  through t (fun x => present (table_putc x)) (CallPutc c) id ().

(** The variable arguments are started and ended; nothing is printed. *)
Definition bh_printf (t : option table) (format : bytes) (args : list parg) : () * list callback := ((), []).

Definition bh_get_memory_map (t : option table) : (bh_status_t * bytes) * list callback :=
  through t table_get_memory_map CallGetMemoryMap id (BH_ERROR, []).
Definition bh_get_graphics_info (t : option table) : (bh_status_t * bytes) * list callback :=
  through t table_get_graphics_info CallGetGraphicsInfo id (BH_ERROR, []).
Definition bh_get_rsdp (t : option table) : option Z * list callback :=
  through t table_get_rsdp CallGetRsdp id None.
Definition bh_get_boot_device (t : option table) : option Z * list callback :=
  through t table_get_boot_device CallGetBootDevice id None.
Definition bh_reboot (t : option table) : () * list callback :=
  through t (fun x => present (table_reboot x)) CallReboot id ().

(** The first definition of [bh_shutdown]. *)
Definition bh_shutdown_system (t : option table) : () * list callback :=
  through t (fun x => present (table_shutdown x)) CallShutdown id ().
Definition bh_debug_break (t : option table) : () * list callback :=
  through t (fun x => present (table_debug_break x)) CallDebugBreak id ().

(** The default table answers like no table at all: what [bh_initialize(NULL)]
    installs makes no request of the caller succeed. *)
Theorem default_table_absent size :
  let t := Some default_system_table in
  fst (bh_malloc t size) = fst (bh_malloc None size) /\
  fst (bh_get_memory_map t) = fst (bh_get_memory_map None) /\
  fst (bh_get_graphics_info t) = fst (bh_get_graphics_info None) /\
  fst (bh_get_rsdp t) = fst (bh_get_rsdp None) /\ fst (bh_get_boot_device t) = fst (bh_get_boot_device None).
Proof. by repeat split. Qed.

(** [bh_system_table] ([None] is NULL), the two static variables of the
    reference count, and the strings handed to the [puts] callback so far. *)
Record lib := mk_lib {
  bh_system_table : option table;
  bh_initialized : bool;
  bh_init_count : Z;
  bh_output : list string }.

Definition bh_init_system_table (l : lib) (t : option table) : lib :=
  let set x := mk_lib (Some x) (bh_initialized l) (bh_init_count l) (bh_output l) in
  match t with
  | Some x => match bh_system_table l with None => set x | Some _ => l end
  | None => set default_system_table
  end.

(** [bh_puts]: a string for the installed table's callback. *)
Definition bh_puts (l : lib) (str : string) : lib :=
  match bh_system_table l with
  | Some x =>
      if table_puts x
      then mk_lib (bh_system_table l) (bh_initialized l) (bh_init_count l) (bh_output l ++ [str])
      else l
  | None => l
  end.

Definition init_message : string := "BloodHorn library initialized successfully"%string.
Definition shutdown_message : string := "BloodHorn library shutting down"%string.

Definition bh_initialize (l : lib) (t : option table) : bh_status_t * lib :=
  if bh_initialized l then
    (BH_SUCCESS, mk_lib (bh_system_table l) true (u32 (bh_init_count l + 1)) (bh_output l))
  else
    let l := bh_init_system_table l t in
    match bh_system_table l with
    | None => (BH_ERROR, l)
    | Some _ => (BH_SUCCESS, bh_puts (mk_lib (bh_system_table l) true 1 (bh_output l)) init_message)
    end.

(** The second definition of [bh_shutdown], which manages the library state. *)
Definition bh_shutdown (l : lib) : lib :=
  if negb (bh_initialized l) then l
  else
    let count := u32 (bh_init_count l - 1) in
    if 0 <? count then mk_lib (bh_system_table l) true count (bh_output l)
    else
      let l := bh_puts (mk_lib (bh_system_table l) true count (bh_output l)) shutdown_message in
      mk_lib (bh_system_table l) false 0 (bh_output l).

Definition bh_is_initialized (l : lib) : bool := bh_initialized l.

Definition bh_get_version : Z * Z * Z := (1, 0, 0).

(** ** Memory and strings

    [mem] is the object that holds both regions; [d] and [s] are offsets. *)

Definition copy_up (mem : bytes) (d s size : Z) : bytes :=
  for_loop 0 size (fun i m => zset m (d + i) (zget m (s + i))) mem.

Definition copy_down (mem : bytes) (d s size : Z) : bytes :=
  fold_left (fun m i => zset m (d + i) (zget m (s + i))) (rev (seqZ 0 size)) mem.

Definition bh_memory_copy (mem : bytes) (dest src : option Z) (size : Z)
  : run (bh_status_t * bytes) :=
  match dest, src with
  | Some d, Some s =>
      if size =? 0 then mret (BH_SUCCESS, mem)
      else if (d <? 0) || (s <? 0) || (zlen mem <? d + size) || (zlen mem <? s + size) then UB
      else if d <? s then mret (BH_SUCCESS, copy_up mem d s size)
      else if s <? d then mret (BH_SUCCESS, copy_down mem d s size)
      else mret (BH_SUCCESS, mem)
  | _, _ => mret (BH_INVALID_ARGUMENT, mem)
  end.

Definition bh_memory_set (dest : option bytes) (value size : Z)
  : run (bh_status_t * option bytes) :=
  match dest with
  | None => mret (BH_INVALID_ARGUMENT, None)
  | Some d =>
      if size =? 0 then mret (BH_SUCCESS, Some d)
      else if zlen d <? size then UB
      else mret (BH_SUCCESS, Some (for_loop 0 size (fun i d => zset d i (u8 value)) d))
  end.

(** [char] is signed. *)
Definition schar (b : Z) : Z := if b <? 128 then b else b - 256.

Fixpoint compare_loop (n : nat) (p1 p2 : bytes) : run Z :=
  match n with
  | O => Ret 0
  | S n' =>
      match p1, p2 with
      | x :: p1', y :: p2' =>
          if schar x <? schar y then Ret (-1)
          else if schar y <? schar x then Ret 1
          else compare_loop n' p1' p2'
      | _, _ => UB
      end
  end.

Definition bh_memory_compare (ptr1 ptr2 : option bytes) (size : Z) (result_ok : bool)
  : run (bh_status_t * option Z) :=
  match ptr1, ptr2, result_ok with
  | Some p1, Some p2, true =>
      r ← compare_loop (Z.to_nat size) p1 p2; mret (BH_SUCCESS, Some r)
  | _, _, _ => mret (BH_INVALID_ARGUMENT, None)
  end.

(** The object that holds the string; without a NUL the scan leaves it. *)
Fixpoint strlen (l : bytes) : run Z :=
  match l with
  | [] => UB
  | x :: l' => if x =? 0 then Ret 0 else n ← strlen l'; mret (n + 1)
  end.

Definition bh_string_length (str : option bytes) : run Z :=
  match str with None => mret 0 | Some l => strlen l end.

(** [while (i < dest_size - 1 && src[i] != 0) dest[i] = src[i], i++;]: the
    number of characters copied. *)
Fixpoint copy_count (room : nat) (src : bytes) : run nat :=
  match room with
  | O => Ret 0%nat
  | S room' =>
      match src with
      | [] => UB
      | x :: src' => if x =? 0 then Ret 0%nat else n ← copy_count room' src'; mret (S n)
      end
  end.

Definition bh_string_copy (dest src : option bytes) (dest_size : Z)
  : run (bh_status_t * option bytes) :=
  match dest, src with
  | Some dest, Some src =>
      if dest_size =? 0 then mret (BH_BUFFER_TOO_SMALL, Some dest)
      else
        i ← copy_count (Z.to_nat (dest_size - 1)) src;
        d ← memcpy dest 0 (take i src ++ [0]) 0 (Z.of_nat i + 1);
        e ← rd src (Z.of_nat i);
        mret ((if e =? 0 then BH_SUCCESS else BH_BUFFER_TOO_SMALL), Some d)
  | _, _ => mret (BH_INVALID_ARGUMENT, dest)
  end.

(** ** Lemmas: formatting *)

Implicit Types (s mem ds : bytes).

Lemma length_reverse_loop fuel : forall s i j, length (reverse_loop fuel s i j) = length s.
Proof.
  induction fuel as [|fuel IH]; intros s i j; cbn [reverse_loop]; [done|].
  destruct (i <? j); [|done]. rewrite IH. unfold zset. by rewrite !length_insert.
Qed.

Lemma reverse_loop_get fuel : forall s i j k,
  0 <= i -> j < zlen s -> j - i <= 2 * Z.of_nat fuel -> 0 <= k < zlen s ->
  zget (reverse_loop fuel s i j) k =
  if (i <=? k) && (k <=? j) then zget s (i + j - k) else zget s k.
Proof.
  induction fuel as [|fuel IH]; intros s i j k Hi Hj Hf Hk; cbn [reverse_loop].
  - destruct (Z.leb_spec i k), (Z.leb_spec k j); cbn [andb]; try done. f_equal. lia.
  - destruct (Z.ltb_spec i j) as [Hlt|Hge].
    + rewrite IH by (rewrite ?zlen_zset; lia).
      destruct (Z.leb_spec i k), (Z.leb_spec k j), (Z.leb_spec (i + 1) k), (Z.leb_spec k (j - 1));
        try lia; cbn [andb]; rewrite !zget_zset, ?zlen_zset by (rewrite ?zlen_zset; lia).
      all: repeat match goal with
           | |- context [Z.eqb ?a ?b] => destruct (Z.eqb_spec a b); try lia
           | |- context [Z.ltb ?a ?b] => destruct (Z.ltb_spec a b); try lia
           end; cbn [andb]; f_equal; lia.
    + destruct (Z.leb_spec i k), (Z.leb_spec k j); cbn [andb]; try done. f_equal. lia.
Qed.

Lemma zget_rev s k : 0 <= k < zlen s -> zget (rev s) k = zget s (zlen s - 1 - k).
Proof.
  intros Hk. unfold zget, zlen in *. rewrite rev_nth by lia. f_equal. lia.
Qed.

(** The swap loop reverses the characters behind the sign. *)
Lemma reverse_loop_eq (p d : bytes) :
  reverse_loop (length (p ++ d)) (p ++ d) (zlen p) (zlen (p ++ d) - 1) = p ++ rev d.
Proof.
  apply zget_ext.
  { rewrite length_reverse_loop, !length_app, length_rev. done. }
  intros k Hk. unfold zlen in Hk at 1. rewrite length_reverse_loop in Hk. fold (zlen (p ++ d)) in Hk.
  pose proof (zlen_nonneg p) as Hp. pose proof (zlen_nonneg d) as Hd.
  assert (Hl : zlen (p ++ d) = zlen p + zlen d) by apply zlen_app.
  rewrite reverse_loop_get by (try lia; unfold zlen in *; lia).
  rewrite !zget_app by lia.
  destruct (Z.leb_spec (zlen p) k), (Z.leb_spec k (zlen (p ++ d) - 1)), (Z.ltb_spec k (zlen p));
    try lia; cbn [andb]; [|done].
  destruct (Z.ltb_spec (zlen p + (zlen (p ++ d) - 1) - k) (zlen p)); [lia|].
  rewrite zget_rev by lia. f_equal. lia.
Qed.

(** Reading a number back. *)
Definition char_digit (c : Z) : Z := if c <? 58 then c - 48 else c - 87.

Fixpoint num_le (base : Z) ds : Z :=
  match ds with
  | [] => 0
  | c :: ds' => char_digit c + base * num_le base ds'
  end.

Definition parse_int (base : Z) s : Z :=
  match s with
  | c :: rest => if c =? 45 then - num_le base (rev rest) else num_le base (rev s)
  | [] => 0
  end.

Lemma char_digit_char d : 0 <= d < 36 -> char_digit (digit_char d) = d /\ digit_char d <> 45.
Proof.
  intros Hd. unfold char_digit, digit_char. destruct (Z.ltb_spec d 10).
  - destruct (Z.ltb_spec (48 + d) 58); lia.
  - destruct (Z.ltb_spec (97 + d - 10) 58); lia.
Qed.

Lemma digits_loop_eq fuel base : 2 <= base <= 36 -> forall v,
  0 <= v < 2 ^ Z.of_nat fuel ->
  exists ds, digits_loop fuel v base = Ret ds /\ num_le base ds = v /\
    Forall (fun c => c <> 45) ds /\ (v <> 0 -> ds <> []).
Proof.
  intros Hb. induction fuel as [|fuel IH]; intros v Hv.
  { cbn [digits_loop]. change (2 ^ Z.of_nat 0) with 1 in Hv. destruct (Z.eqb_spec v 0); [|lia].
    by exists []. }
  cbn [digits_loop]. destruct (Z.eqb_spec v 0) as [->|Hne]; [by exists []|].
  rewrite Nat2Z.inj_succ, Z.pow_succ_r in Hv by lia.
  rewrite Z.quot_div_nonneg, Z.rem_mod_nonneg by lia.
  destruct (IH (v / base)) as (ds & -> & Hn & Hf & _).
  { split; [apply Z.div_pos; lia|]. apply Z.div_lt_upper_bound; [lia|]. nia. }
  bind_step. pose proof (Z.mod_pos_bound v base ltac:(lia)) as Hm.
  destruct (char_digit_char (v mod base) ltac:(lia)) as [Hc H45].
  eexists. split; [reflexivity|]. split_and!.
  - cbn [num_le]. rewrite Hc, Hn. pose proof (Z.div_mod v base ltac:(lia)). lia.
  - by constructor.
  - discriminate.
Qed.

(** ** Lemmas: copying *)

Lemma copy_up_get mem (d s n : Z) : 0 <= d < s -> 0 <= n -> s + n <= zlen mem -> forall k, 0 <= k < zlen mem ->
  zget (copy_up mem d s n) k = if (d <=? k) && (k <? d + n) then zget mem (s + (k - d)) else zget mem k.
Proof.
  intros Hd Hn Hs. unfold copy_up, for_loop. rewrite <- (Z2Nat.id n Hn) in *.
  generalize dependent (Z.to_nat n). clear n Hn. intros n. induction n as [|n IH]; intros Hs k Hk.
  { destruct (Z.leb_spec d k), (Z.ltb_spec k (d + Z.of_nat 0)); try lia; done. }
  rewrite seqZ_S, fold_left_app. cbn [fold_left]. rewrite Z.add_0_l.
  set (m := fold_left _ _ _). assert (Hm : zlen m = zlen mem).
  { unfold m. apply (fold_left_inv (fun q => zlen q = zlen mem)); [|done].
    intros q i <-. apply zlen_zset. }
  rewrite zget_zset, Hm by lia. specialize (IH ltac:(lia)). unfold m.
  rewrite (IH (s + Z.of_nat n)), (IH k) by lia.
  destruct (Z.eqb_spec (d + Z.of_nat n) k), (Z.ltb_spec k (zlen mem)), (Z.leb_spec d k),
    (Z.ltb_spec k (d + Z.of_nat (S n))), (Z.ltb_spec k (d + Z.of_nat n)),
    (Z.leb_spec d (s + Z.of_nat n)), (Z.ltb_spec (s + Z.of_nat n) (d + Z.of_nat n));
    try lia; cbn [andb]; try done; f_equal; lia.
Qed.

Lemma copy_down_get mem (d s size : Z) : 0 <= s < d -> 0 <= size -> d + size <= zlen mem ->
  forall k, 0 <= k < zlen mem ->
  zget (copy_down mem d s size) k =
  if (d <=? k) && (k <? d + size) then zget mem (s + (k - d)) else zget mem k.
Proof.
  intros Hs Hn Hd.
  assert (G : forall n, Z.of_nat n <= size -> forall k, 0 <= k < zlen mem ->
    zget (fold_left (fun m i => zset m (d + i) (zget m (s + i)))
            (rev (seqZ (size - Z.of_nat n) (Z.of_nat n))) mem) k =
    if (d + (size - Z.of_nat n) <=? k) && (k <? d + size) then zget mem (s + (k - d)) else zget mem k).
  { induction n as [|n IH]; intros Hsz k Hk.
    { change (seqZ _ (Z.of_nat 0)) with (@nil Z). cbn [rev fold_left].
      destruct (Z.leb_spec (d + (size - Z.of_nat 0)) k), (Z.ltb_spec k (d + size)); try lia; done. }
    rewrite seqZ_cons, Nat2Z.inj_succ, Z.pred_succ by lia. cbn [rev]. rewrite fold_left_app.
    cbn [fold_left]. replace (Z.succ (size - Z.succ (Z.of_nat n))) with (size - Z.of_nat n) by lia.
    set (m := fold_left _ _ _). assert (Hm : zlen m = zlen mem).
    { unfold m. apply (fold_left_inv (fun q => zlen q = zlen mem)); [|done].
      intros q i <-. apply zlen_zset. }
    rewrite zget_zset, Hm by lia. specialize (IH ltac:(lia)). unfold m.
    rewrite (IH (s + (size - Z.succ (Z.of_nat n)))), (IH k) by lia.
    repeat match goal with
      | |- context [Z.eqb ?a ?b] => destruct (Z.eqb_spec a b); try lia
      | |- context [Z.ltb ?a ?b] => destruct (Z.ltb_spec a b); try lia
      | |- context [Z.leb ?a ?b] => destruct (Z.leb_spec a b); try lia
      end; cbn [andb]; try done; f_equal; lia. }
  intros k Hk. unfold copy_down. specialize (G (Z.to_nat size) ltac:(lia) k Hk).
  rewrite Z2Nat.id, Z.sub_diag, Z.add_0_r in G by lia. exact G.
Qed.

Lemma zlen_copies mem (d s size : Z) :
  zlen (copy_up mem d s size) = zlen mem /\ zlen (copy_down mem d s size) = zlen mem.
Proof.
  unfold copy_up, copy_down, for_loop. split.
  all: apply (fold_left_inv (fun q => zlen q = zlen mem)); [|done].
  all: intros q i <-; apply zlen_zset.
Qed.

(** ** Properties *)

(** Number formatting round trip: for every base from 2 to 36 and every
    [long long] but the least, the characters produced by [bh_itoa] read back as
    the number, and the returned count is their number. *)
Theorem itoa_roundtrip v base :
  2 <= base <= 36 -> - 2 ^ 63 < v < 2 ^ 63 ->
  exists s, bh_itoa v base true = Ret (s, zlen s) /\ parse_int base s = v.
Proof.
  intros Hb Hv. unfold bh_itoa. destruct (Z.eqb_spec v 0) as [->|Hne].
  { exists [48]. split; [reflexivity|]. cbn. lia. }
  replace (base =? 0) with false by (symmetry; zbool).
  destruct (Z.eqb_spec v (- 2 ^ 63)); [lia|]. rewrite andb_false_r. cbn [andb].
  destruct (digits_loop_eq 64 base Hb (if v <? 0 then - v else v)) as (ds & -> & Hn & Hf & Hd).
  { change (Z.of_nat 64) with 64. destruct (Z.ltb_spec v 0); lia. }
  bind_step. assert (Hds : ds <> []) by (apply Hd; destruct (Z.ltb_spec v 0); lia). clear Hd.
  set (p := if v <? 0 then [45] else []).
  assert (Hi : (if zget (p ++ ds) 0 =? 45 then 1 else 0) = zlen p).
  { unfold p. destruct (v <? 0); [reflexivity|]. destruct ds as [|c ds]; [done|].
    apply Forall_cons in Hf as [Hc _]. change (zget ([] ++ c :: ds) 0) with c.
    by destruct (Z.eqb_spec c 45). }
  rewrite Hi, reverse_loop_eq. exists (p ++ rev ds). split.
  - do 2 f_equal. unfold zlen. by rewrite !length_app, length_rev.
  - unfold p. destruct (Z.ltb_spec v 0) as [Hlt|Hge]; cbn [app parse_int].
    + rewrite Z.eqb_refl, rev_involutive. lia.
    + destruct (rev ds) as [|c r] eqn:Er.
      { apply (f_equal (@rev Z)) in Er. by rewrite rev_involutive in Er. }
      assert (Hc : c <> 45).
      { apply List.Forall_rev in Hf. rewrite Er in Hf. by apply Forall_cons in Hf as [Hf _]. }
      cbn [parse_int]. destruct (Z.eqb_spec c 45); [contradiction|]. by rewrite <- Er, rev_involutive.
Qed.

Lemma itoa_roundtrip_witness :
  exists s, bh_itoa (-255) 16 true = Ret (s, zlen s) /\ parse_int 16 s = -255.
Proof. apply itoa_roundtrip; lia. Defined.

(** [bh_memory_copy] is a correct memmove: for regions of one object that
    may overlap in either direction, the destination ends up with the original
    source bytes and nothing else changes. *)
Theorem memory_copy_memmove mem (d s size : Z) :
  0 <= d -> 0 <= s -> 0 <= size -> d + size <= zlen mem -> s + size <= zlen mem ->
  bh_memory_copy mem (Some d) (Some s) size =
  Ret (BH_SUCCESS, splice mem d (sub mem s size)).
Proof.
  intros Hd Hs Hn Hdl Hsl. unfold bh_memory_copy.
  assert (Hz : zlen (sub mem s size) = size) by (apply zlen_sub; lia).
  assert (Hspl : zlen (splice mem d (sub mem s size)) = zlen mem) by (apply zlen_splice; lia).
  destruct (Z.eqb_spec size 0) as [->|Hne].
  { unfold sub. cbn [Z.to_nat take]. by rewrite splice_nil by lia. }
  replace ((d <? 0) || (s <? 0) || (zlen mem <? d + size) || (zlen mem <? s + size)) with false
    by (symmetry; zbool).
  destruct (zlen_copies mem d s size) as [Hup Hdn].
  assert (G : forall m, zlen m = zlen mem -> (forall k, 0 <= k < zlen mem -> zget m k =
      if (d <=? k) && (k <? d + size) then zget mem (s + (k - d)) else zget mem k) ->
      m = splice mem d (sub mem s size)).
  { intros m Hm Hk. apply zget_ext; [unfold zlen in *; lia|]. intros i Hi.
    rewrite Hk, zget_splice, Hz by lia.
    destruct (Z.leb_spec d i), (Z.ltb_spec i (d + size)); cbn [andb]; try done.
    by rewrite zget_sub by lia. }
  destruct (Z.ltb_spec d s); [|destruct (Z.ltb_spec s d)]; rewrite run_mret; do 2 f_equal.
  - apply G; [assumption|]. apply copy_up_get; lia.
  - apply G; [assumption|]. apply copy_down_get; lia.
  - assert (d = s) as -> by lia. apply G; [done|]. intros k Hk.
    destruct (Z.leb_spec s k), (Z.ltb_spec k (s + size)); cbn [andb]; try done. f_equal. lia.
Qed.

Lemma memory_copy_memmove_witness :
  bh_memory_copy [1; 2; 3; 4; 5] (Some 1) (Some 0) 4 =
  Ret (BH_SUCCESS, splice [1; 2; 3; 4; 5] 1 (sub [1; 2; 3; 4; 5] 0 4)).
Proof. apply memory_copy_memmove; first [lia | by vm_compute]. Defined.

(** [n] calls of [bh_initialize] (with the same table), of [bh_shutdown]. *)
Definition initialize_n (n : nat) (t : option table) (l : lib) : lib :=
  Nat.iter n (fun l => snd (bh_initialize l t)) l.
Definition shutdown_n (n : nat) (l : lib) : lib := Nat.iter n bh_shutdown l.

(** What a message adds to the output: nothing without a [puts] callback. *)
Definition message (x : table) (str : string) : list string := if table_puts x then [str] else [].

Lemma puts_lib x b c o str :
  bh_puts (mk_lib (Some x) b c o) str = mk_lib (Some x) b c (o ++ message x str).
Proof.
  unfold bh_puts, message. cbn [bh_system_table bh_initialized bh_init_count bh_output].
  destruct (table_puts x); [done|by rewrite app_nil_r].
Qed.

(** The table an initialisation leaves installed. *)
Definition table_in_use (l : lib) (t : option table) : table :=
  match t with
  | None => default_system_table
  | Some x => match bh_system_table l with Some y => y | None => x end
  end.

Lemma initialize_n_state n t l :
  bh_initialized l = false -> Z.of_nat (S n) < 2 ^ 32 ->
  initialize_n (S n) t l =
  mk_lib (Some (table_in_use l t)) true (Z.of_nat (S n))
         (bh_output l ++ message (table_in_use l t) init_message).
Proof.
  intros Hi Hw. unfold initialize_n. induction n as [|n IH].
  - cbn [Nat.iter nat_rect]. unfold bh_initialize. rewrite Hi. destruct l as [tb b c o].
    unfold bh_init_system_table, table_in_use. cbn [bh_system_table bh_output bh_initialized bh_init_count].
    destruct t as [x|]; [destruct tb as [y|]|];
      cbn [bh_system_table bh_output bh_initialized bh_init_count snd]; apply puts_lib.
  - rewrite Nat.iter_succ, IH by lia. unfold bh_initialize at 1.
    cbn [snd bh_initialized bh_init_count bh_system_table bh_output].
    rewrite wrap_small by (unfold in_u; lia). do 2 f_equal. lia.
Qed.

Lemma shutdown_n_state m : forall x n o, Z.of_nat n < 2 ^ 32 -> (m < n)%nat ->
  shutdown_n m (mk_lib (Some x) true (Z.of_nat n) o) = mk_lib (Some x) true (Z.of_nat (n - m)) o.
Proof.
  induction m as [|m IH]; intros x n o Hw Hm; [cbn; rewrite Nat.sub_0_r; done|].
  unfold shutdown_n in *. rewrite Nat.iter_succ, IH by lia. unfold bh_shutdown.
  cbn [negb bh_initialized bh_init_count bh_system_table bh_output].
  rewrite wrap_small by (unfold in_u; lia).
  destruct (Z.ltb_spec 0 (Z.of_nat (n - m) - 1)); [|lia]. f_equal. lia.
Qed.

(** The library is reference counted: started from a state that is down,
    after [n] initialisations and [m <= n] shutdowns it is up exactly when
    [m < n]; the "initialized" message is printed once, by the first
    initialisation, and the "shutting down" message once, by the last shutdown
    (each only through a table whose [puts] is set). *)
Theorem init_refcount n m t l :
  bh_initialized l = false -> (0 < n)%nat -> Z.of_nat n < 2 ^ 32 -> (m <= n)%nat ->
  let l' := shutdown_n m (initialize_n n t l) in
  let x := table_in_use l t in
  bh_is_initialized l' = bool_decide (m < n)%nat /\
  bh_init_count l' = Z.of_nat (n - m) /\
  bh_output l' = bh_output l ++ message x init_message ++
                 (if decide (m < n)%nat then [] else message x shutdown_message).
Proof.
  intros Hi Hn Hw Hm l' x. subst l'. destruct n as [|n]; [lia|].
  rewrite initialize_n_state by assumption. fold x. destruct (decide (m < S n)%nat) as [Hlt|Hge].
  - rewrite bool_decide_true, shutdown_n_state by assumption.
    cbn [bh_is_initialized bh_initialized bh_init_count bh_output]. by rewrite app_nil_r.
  - rewrite bool_decide_false by assumption. assert (m = S n) as -> by lia.
    unfold shutdown_n. rewrite Nat.iter_succ. fold (shutdown_n n (mk_lib (Some x) true (Z.of_nat (S n))
      (bh_output l ++ message x init_message))). rewrite shutdown_n_state by lia.
    replace (S n - n)%nat with 1%nat by lia. rewrite Nat.sub_diag. unfold bh_shutdown.
    cbn [negb bh_initialized bh_init_count bh_system_table bh_output].
    change (0 <? u32 (Z.of_nat 1 - 1)) with false. cbv iota. rewrite puts_lib.
    cbn [bh_is_initialized bh_initialized bh_init_count bh_output bh_system_table].
    by rewrite <- app_assoc.
Qed.

Lemma init_refcount_witness :
  let l2 := shutdown_n 2 (initialize_n 3 None (mk_lib None false 0 [])) in
  bh_is_initialized l2 = true /\ bh_init_count l2 = 1 /\ bh_output l2 = [init_message].
Proof. apply (init_refcount 3 2 None (mk_lib None false 0 [])); first [reflexivity | lia]. Defined.
