(* ===== verification/LibbCoreboot.v ===== *)
(** * Coreboot support of the development library
      (src/boot/libb/include/bloodhorn/coreboot.h)

    The header-only reader of the coreboot table: the search for the table, the
    walk over its records, the queries built on it, and the initialisation that
    hands the memory ranges to the memory manager.  Memory is physical memory; a
    pointer is an address with 0 for NULL, because the search itself may leave
    address 0 in [g_coreboot_table]. *)

From S2P Require Import Prelude.
From S2P Require Import PhysMem.
Import ListNotations.
#[local] Open Scope list_scope.

Definition CB_HEADER_SIGNATURE : Z := 0x4F49424C.

Inductive cb_status :=
| BH_STATUS_SUCCESS | BH_STATUS_NOT_FOUND | BH_STATUS_INVALID_PARAMETER | BH_STATUS_CHECKSUM_MISMATCH.
#[export] Instance cb_status_eq : EqDecision cb_status.
Proof. solve_decision. Defined.

Definition CB_TAG_NONE : Z := 0.
Definition CB_TAG_MEMORY : Z := 1.
Definition CB_TAG_FRAMEBUFFER : Z := 19.
Definition CB_TAG_OPTION_CHECKSUM : Z := 33.
Definition CB_TAG_ACPI_RSDP : Z := 0x21.
Definition CB_MEM_RAM : Z := 1.

Definition sizeof_header : Z := 8.
Definition sizeof_range : Z := 24.

(** What [bh_coreboot_initialize] passes to [bh_memory_add_region]. *)
Inductive memory_type := BH_MEMORY_TYPE_USABLE | BH_MEMORY_TYPE_RESERVED.
Record bh_memory_region := mk_region { r_base : Z; r_size : Z; r_type : memory_type }.

Section Reader.
Context (mem : phys).

(** ** The search *)

Definition bh_coreboot_checksum (data len : Z) : Z := for_loop 0 len (fun i sum => u8 (sum + mem (data + i))) 0.

(** The first of [n] addresses, 16 apart, that [hit] accepts. *)
Fixpoint scan16 (hit : Z -> bool) (n : nat) (addr : Z) : option Z :=
  match n with
  | O => None
  | S n => if hit addr then Some addr else scan16 hit n (addr + 16)
  end.

Definition signature_at (addr : Z) : bool := fetch_le mem addr 4 =? CB_HEADER_SIGNATURE.

(** A [uint16_t]: the shifted segment is cut to 16 bits. *)
Definition ebda_segment : Z := u16 (fetch_le mem 0x40E 2 <<< 4).

(** The status and [g_coreboot_table]. *)
Definition bh_coreboot_find_table (g : Z) : cb_status * Z :=
  match (if (0x8000 <=? ebda_segment) && (ebda_segment <? 0xA0000) then scan16 signature_at 64 ebda_segment else None) with
  | Some t => (BH_STATUS_SUCCESS, t)
  | None =>
      match scan16 signature_at 256 0 with
      | Some t => (BH_STATUS_SUCCESS, t)
      | None => (BH_STATUS_NOT_FOUND, g)
      end
  end.

(** ** The walk *)

Definition tbl_header_bytes (t : Z) : Z := fetch_le mem (t + 4) 4.
Definition tbl_table_bytes (t : Z) : Z := fetch_le mem (t + 12) 4.
Definition rec_tag (p : Z) : Z := fetch_le mem p 4.
Definition rec_size (p : Z) : Z := fetch_le mem (p + 4) 4.

(** [(header->size + 3) & ~3], in 32 bits. *)
Definition rec_step (p : Z) : Z := u32 (rec_size p + 3) &&& 0xFFFFFFFC.

(** [while (ptr < end)]; a record of size 0 does not advance. *)
Fixpoint tag_walk (fuel : nat) (ptr end_ tag : Z) : run Z :=
  match fuel with
  | O => OutOfFuel
  | S fuel =>
      if ptr <? end_ then
        if rec_tag ptr =? CB_TAG_NONE then mret 0
        else if rec_tag ptr =? tag then mret ptr
        else tag_walk fuel (ptr + rec_step ptr) end_ tag
      else mret 0
  end.

Definition walk_fuel (t : Z) : nat := Z.to_nat (tbl_table_bytes t / 4 + 2).

(** The record's address (0 for NULL) and [g_coreboot_table]. *)
Definition bh_coreboot_find_tag_internal (g tag : Z) : run (Z * Z) :=
  let '(status, g) := if g =? 0 then bh_coreboot_find_table g else (BH_STATUS_SUCCESS, g) in
  match status with
  | BH_STATUS_SUCCESS =>
      p ← tag_walk (walk_fuel g) (g + tbl_header_bytes g) (g + tbl_table_bytes g) tag;
      mret (p, g)
  | _ => mret (0, g)
  end.

(** ** The queries: the status, the result, and [g_coreboot_table].  [out] tells
    whether the result pointer is not NULL. *)

Definition bh_coreboot_get_table (g : Z) (out : bool) : cb_status * option Z * Z :=
  if negb out then (BH_STATUS_INVALID_PARAMETER, None, g)
  else if g =? 0 then
    match bh_coreboot_find_table g with
    | (BH_STATUS_SUCCESS, g) =>
        if negb (bh_coreboot_checksum g (tbl_header_bytes g) =? 0) then (BH_STATUS_CHECKSUM_MISMATCH, None, 0)
        else (BH_STATUS_SUCCESS, Some g, g)
    | (status, g) => (status, None, g)
    end
  else (BH_STATUS_SUCCESS, Some g, g).

(** The address of the ranges and their number; the subtraction is in 64 bits. *)
Definition bh_coreboot_get_memory_map (g : Z) (out : bool) : run (cb_status * option (Z * Z) * Z) :=
  if negb out then mret (BH_STATUS_INVALID_PARAMETER, None, g) else
  r ← bh_coreboot_find_tag_internal g CB_TAG_MEMORY;
  let '(p, g) := r in
  if p =? 0 then mret (BH_STATUS_NOT_FOUND, None, g)
  else mret (BH_STATUS_SUCCESS, Some (p + sizeof_header, u64 (rec_size p - sizeof_header) / sizeof_range), g).

(** The address of the record's contents and their size. *)
Definition bh_coreboot_find_tag (g tag : Z) (out : bool) : run (cb_status * option (Z * Z) * Z) :=
  if negb out then mret (BH_STATUS_INVALID_PARAMETER, None, g) else
  r ← bh_coreboot_find_tag_internal g tag;
  let '(p, g) := r in
  if p =? 0 then mret (BH_STATUS_NOT_FOUND, None, g)
  else mret (BH_STATUS_SUCCESS, Some (p + sizeof_header, u64 (rec_size p - sizeof_header)), g).

Definition bh_coreboot_get_framebuffer (g : Z) (out : bool) : run (cb_status * option Z * Z) :=
  if negb out then mret (BH_STATUS_INVALID_PARAMETER, None, g) else
  r ← bh_coreboot_find_tag_internal g CB_TAG_FRAMEBUFFER;
  let '(p, g) := r in
  if p =? 0 then mret (BH_STATUS_NOT_FOUND, None, g) else mret (BH_STATUS_SUCCESS, Some (p + sizeof_header), g).

Definition RSD_PTR : bytes := [82; 83; 68; 32; 80; 84; 82; 32].

Definition rsdp_at (addr : Z) : bool :=
  bool_decide (fetch mem addr 8 = RSD_PTR) && (bh_coreboot_checksum addr 20 =? 0).

Definition bh_coreboot_get_rsdp (g : Z) (out : bool) : run (cb_status * option Z * Z) :=
  if negb out then mret (BH_STATUS_INVALID_PARAMETER, None, g) else
  r ← bh_coreboot_find_tag_internal g CB_TAG_ACPI_RSDP;
  let '(p, g) := r in
  if p =? 0 then
    mret (match scan16 rsdp_at 0x2000 0xE0000 with
          | Some a => (BH_STATUS_SUCCESS, Some a, g)
          | None => (BH_STATUS_NOT_FOUND, None, g)
          end)
  else mret (BH_STATUS_SUCCESS, Some (p + sizeof_header), g).

(** ** Initialisation *)

Definition range_region (ranges i : Z) : bh_memory_region :=
  let e := ranges + sizeof_range * i in
  mk_region (fetch_le mem e 8) (fetch_le mem (e + 8) 8)
    (if fetch_le mem (e + 16) 4 =? CB_MEM_RAM then BH_MEMORY_TYPE_USABLE else BH_MEMORY_TYPE_RESERVED).

(** The status, the regions added in order, and [g_coreboot_table]. *)
Definition bh_coreboot_initialize (g : Z) : run (cb_status * list bh_memory_region * Z) :=
  match bh_coreboot_get_table g true with
  | (BH_STATUS_SUCCESS, _, g) =>
      r ← bh_coreboot_get_memory_map g true;
      match r with
      | (_, Some (ranges, count), g) => mret (BH_STATUS_SUCCESS, range_region ranges <$> seqZ 0 count, g)
      | (status, None, g) => mret (status, [], g)
      end
  | (status, _, g) => mret (status, [], g)
  end.

End Reader.

(** ** Searching *)

Lemma scan16_first (hit : Z -> bool) n : forall a k, (k < n)%nat -> hit (a + 16 * Z.of_nat k) = true ->
  (forall j, (j < k)%nat -> hit (a + 16 * Z.of_nat j) = false) ->
  scan16 hit n a = Some (a + 16 * Z.of_nat k).
Proof.
  induction n as [|n IH]; intros a k Hk Ht Hf; [lia|]. cbn [scan16]. destruct k as [|k].
  - replace (a + 16 * Z.of_nat 0) with a in * by lia. by rewrite Ht.
  - pose proof (Hf 0%nat ltac:(lia)) as H0. replace (a + 16 * Z.of_nat 0) with a in H0 by lia. rewrite H0.
    replace (a + 16 * Z.of_nat (S k)) with (a + 16 + 16 * Z.of_nat k) in * by lia. apply IH; [lia|done|].
    intros j Hj. specialize (Hf (S j) ltac:(lia)). by replace (a + 16 * Z.of_nat (S j)) with (a + 16 + 16 * Z.of_nat j) in Hf by lia.
Qed.

Lemma scan16_none (hit : Z -> bool) n : forall a, (forall j, (j < n)%nat -> hit (a + 16 * Z.of_nat j) = false) -> scan16 hit n a = None.
Proof.
  induction n as [|n IH]; intros a H; [done|]. cbn [scan16].
  pose proof (H 0%nat ltac:(lia)) as H0. replace (a + 16 * Z.of_nat 0) with a in H0 by lia. rewrite H0. apply IH.
  intros j Hj. specialize (H (S j) ltac:(lia)). by replace (a + 16 * Z.of_nat (S j)) with (a + 16 + 16 * Z.of_nat j) in H by lia.
Qed.

Section Tables.
Context (mem : phys).

(** No signature in the EBDA window. *)
Definition ebda_clear : Prop :=
  0x8000 <= ebda_segment mem -> forall j, (j < 64)%nat -> signature_at mem (ebda_segment mem + 16 * Z.of_nat j) = false.

(** The first signature of low memory is at [t]. *)
Definition first_in_low (t : Z) : Prop :=
  exists k, (k < 256)%nat /\ t = 16 * Z.of_nat k /\ signature_at mem t = true /\
    forall j, (j < k)%nat -> signature_at mem (16 * Z.of_nat j) = false.

Lemma ebda_window : ebda_clear ->
  (if (0x8000 <=? ebda_segment mem) && (ebda_segment mem <? 0xA0000)
   then scan16 (signature_at mem) 64 (ebda_segment mem) else None) = None.
Proof.
  intros He. destruct (Z.leb_spec 0x8000 (ebda_segment mem)) as [H8|]; cbn [andb]; [|done].
  destruct (ebda_segment mem <? 0xA0000); [|done]. apply scan16_none. intros j Hj. by apply He.
Qed.

Lemma find_in_low t : ebda_clear -> first_in_low t -> bh_coreboot_find_table mem 0 = (BH_STATUS_SUCCESS, t).
Proof.
  intros He (k & Hk & -> & Ht & Hf). unfold bh_coreboot_find_table. rewrite ebda_window by done.
  by rewrite (scan16_first _ 256 0 k).
Qed.

Lemma find_nowhere : ebda_clear -> (forall j, (j < 256)%nat -> signature_at mem (16 * Z.of_nat j) = false) ->
  bh_coreboot_find_table mem 0 = (BH_STATUS_NOT_FOUND, 0).
Proof.
  intros He Hf. unfold bh_coreboot_find_table. rewrite ebda_window by done. by rewrite (scan16_none _ 256 0).
Qed.

(** The byte sum. *)
Lemma checksum_sum a n : bh_coreboot_checksum mem a n = u8 (foldr Z.add 0 (fetch mem a n)).
Proof.
  unfold bh_coreboot_checksum, for_loop, fetch.
  assert (H : forall l s, fold_left (fun sum i => u8 (sum + mem (a + i))) l (u8 s) = u8 (s + foldr Z.add 0 (map (fun i => mem (a + i)) l))).
  { induction l as [|i l IH]; intros s; cbn [fold_left foldr map]; [f_equal; lia|].
    replace (u8 (u8 s + mem (a + i))) with (u8 (s + mem (a + i))) by (unfold wrap; by rewrite Zplus_mod_idemp_l).
    rewrite IH. f_equal. lia. }
  specialize (H (seqZ 0 n) 0). change (u8 0) with 0 in H. rewrite Z.add_0_l in H. rewrite H. f_equal. f_equal.
  replace (seqZ a n) with ((fun i => a + i) <$> seqZ 0 n) by (rewrite fmap_add_seqZ; f_equal; lia).
  rewrite <- list_fmap_compose. done.
Qed.

(** ** Records *)

(** A record: its tag and its contents, padded to four bytes. *)
Definition render_record (r : Z * bytes) : bytes :=
  le_bytes 4 (fst r) ++ le_bytes 4 (8 + zlen (snd r)) ++ snd r ++ zeros ((- zlen (snd r)) mod 4).

Definition record_ok (r : Z * bytes) : Prop := 0 < fst r < 2 ^ 32 /\ zlen (snd r) < 2 ^ 32 - 16.

Lemma land_align4 x : 0 <= x < 2 ^ 32 -> x &&& 0xFFFFFFFC = 4 * (x / 4).
Proof.
  intros Hx. change 0xFFFFFFFC with (Z.shiftl (Z.ones 30) 2). rewrite Z.mul_comm. change 4 with (2 ^ 2).
  rewrite <- Z.shiftr_div_pow2, <- Z.shiftl_mul_pow2 by lia.
  apply Z.bits_inj'. intros n Hn. rewrite Z.land_spec, !Z.shiftl_spec by lia.
  destruct (Z.ltb_spec n 2) as [H2|H2].
  - rewrite !(Z.testbit_neg_r _ (n - 2)) by lia. by rewrite andb_false_r.
  - rewrite Z.shiftr_spec by lia. replace (n - 2 + 2) with n by lia. rewrite Z.testbit_ones by lia.
    destruct (Z.ltb_spec (n - 2) 30) as [H3|H3].
    + rewrite (proj2 (Z.leb_le 0 (n - 2))) by lia. by rewrite andb_true_r.
    + rewrite andb_false_r, andb_false_r. symmetry. apply (in_u_testbit 32); [unfold in_u; lia|lia].
Qed.

Lemma zlen_render r : zlen (render_record r) = 4 * ((zlen (snd r) + 11) / 4).
Proof.
  unfold render_record. rewrite !zlen_app, !zlen_le_bytes, zlen_zeros by dlia. dlia.
Qed.

Lemma render_holds p r : record_ok r -> holds mem p (render_record r) ->
  rec_tag mem p = fst r /\ rec_size mem p = 8 + zlen (snd r) /\
  rec_step mem p = zlen (render_record r) /\ holds mem (p + 8) (snd r).
Proof.
  intros (Ht & Hl) H. unfold render_record in H. pose proof (zlen_nonneg (snd r)).
  rewrite !holds_app, !zlen_le_bytes in H. destruct H as (H1 & H2 & H3 & _).
  assert (E : rec_size mem p = 8 + zlen (snd r)) by (apply fetch_word; [done|lia]).
  split; [by apply fetch_word; [done|lia]|]. split; [done|]. split.
  - unfold rec_step. rewrite E, wrap_small by (unfold in_u; lia). rewrite land_align4 by lia.
    rewrite zlen_render. do 2 f_equal. lia.
  - by replace (p + 8) with (p + Z.of_nat 4 + Z.of_nat 4) by lia.
Qed.

(** The address of the first record with the tag. *)
Fixpoint first_record (ptr : Z) (rs : list (Z * bytes)) (tag : Z) : option Z :=
  match rs with
  | [] => None
  | r :: rs => if fst r =? tag then Some ptr else first_record (ptr + zlen (render_record r)) rs tag
  end.

Lemma tag_walk_records tag fuel : forall rs ptr, (length rs < fuel)%nat -> Forall record_ok rs ->
  holds mem ptr (concat (render_record <$> rs)) ->
  tag_walk mem fuel ptr (ptr + zlen (concat (render_record <$> rs))) tag = Ret (default 0 (first_record ptr rs tag)).
Proof.
  induction fuel as [|fuel IH]; intros rs ptr Hf Hok Hh; [lia|]. cbn [tag_walk].
  destruct rs as [|r rs]; cbn [fmap list_fmap concat] in *.
  { rewrite (proj2 (Z.ltb_ge _ _)); [done|]. change (zlen []) with 0. lia. }
  apply Forall_cons in Hok as (Hr & Hok). rewrite holds_app in Hh. destruct Hh as (H1 & H2).
  destruct (render_holds ptr r Hr H1) as (Et & _ & Es & _). pose proof Hr as (Hr1 & Hr2).
  rewrite zlen_app. pose proof (zlen_nonneg (snd r)). pose proof (zlen_nonneg (concat (render_record <$> rs))).
  rewrite (proj2 (Z.ltb_lt _ _)) by (rewrite zlen_render; dlia).
  rewrite Et, (proj2 (Z.eqb_neq _ _)) by (unfold CB_TAG_NONE; lia). cbn [first_record].
  destruct (fst r =? tag); [done|]. rewrite Es, Z.add_assoc. apply IH; [cbn [length] in Hf; lia|done|done].
Qed.

(** The first record's contents lie eight bytes behind its address. *)
Lemma first_record_spec tag : forall rs ptr, 0 < ptr -> Forall record_ok rs -> holds mem ptr (concat (render_record <$> rs)) ->
  match List.find (fun r => fst r =? tag) rs with
  | Some (_, d) => exists a, first_record ptr rs tag = Some a /\ 0 < a /\ rec_size mem a = 8 + zlen d /\
                     zlen d < 2 ^ 32 - 16 /\ holds mem (a + 8) d
  | None => first_record ptr rs tag = None
  end.
Proof.
  induction rs as [|[t d] rs IH]; intros ptr Hp Hok Hh; [done|]. cbn [fmap list_fmap concat] in Hh.
  apply Forall_cons in Hok as (Hr & Hok). rewrite holds_app in Hh. destruct Hh as (H1 & H2).
  destruct (render_holds ptr _ Hr H1) as (_ & E & _ & Hd). cbn [List.find first_record fst snd] in *.
  destruct (t =? tag); [exists ptr; destruct Hr; done|]. apply IH; [|done|done].
  pose proof (zlen_nonneg (render_record (t, d))). lia.
Qed.
End Tables.

Section Queries.
Context (mem : phys).

(** A table at [t] with a header of [hb] bytes and the records [rs], which end
    where [table_bytes] says. *)
Record table_at (t hb : Z) (rs : list (Z * bytes)) : Prop := mk_table_at {
  ta_header : tbl_header_bytes mem t = hb;
  ta_bytes : tbl_table_bytes mem t = hb + zlen (concat (render_record <$> rs));
  ta_ok : Forall record_ok rs;
  ta_records : holds mem (t + hb) (concat (render_record <$> rs));
  ta_pos : 0 < t + hb /\ 0 <= hb }.

(** The table is known already, or the search finds it. *)
Definition reached (g t : Z) : Prop :=
  (g = t /\ t <> 0) \/ (g = 0 /\ bh_coreboot_find_table mem 0 = (BH_STATUS_SUCCESS, t)).

Lemma length_records (rs : list (Z * bytes)) : 8 * Z.of_nat (length rs) <= zlen (concat (render_record <$> rs)).
Proof.
  induction rs as [|r rs IH]; [done|]. cbn [fmap list_fmap concat length]. rewrite zlen_app, zlen_render.
  pose proof (zlen_nonneg (snd r)). dlia.
Qed.

Lemma find_tag_internal_at g t hb rs tag : table_at t hb rs -> reached g t ->
  bh_coreboot_find_tag_internal mem g tag = Ret (default 0 (first_record (t + hb) rs tag), t).
Proof.
  intros [Hh Hb Hok Hr Hp] Hg. unfold bh_coreboot_find_tag_internal.
  replace (if g =? 0 then _ else _) with (BH_STATUS_SUCCESS, t)
    by (destruct Hg as [(-> & H0)|(-> & E)]; [by rewrite (proj2 (Z.eqb_neq _ _))|done]).
  cbv beta iota. rewrite Hh, Hb, Z.add_assoc. rewrite tag_walk_records; [done| |done|done].
  unfold walk_fuel. rewrite Hb. pose proof (length_records rs). pose proof (zlen_nonneg (concat (render_record <$> rs))). dlia.
Qed.

(** The record lookup of the development library: in a table with well-formed
    records, [bh_coreboot_find_tag] finds the first record with the tag and gives
    the address and the size of exactly its contents; without such a record the
    result is NOT_FOUND; and the table that was found is remembered. *)
Theorem libb_find_tag_roundtrip g t hb rs tag : table_at t hb rs -> reached g t ->
  match List.find (fun r => fst r =? tag) rs with
  | Some (_, d) => exists a, bh_coreboot_find_tag mem g tag true = Ret (BH_STATUS_SUCCESS, Some (a, zlen d), t) /\
                     holds mem a d
  | None => bh_coreboot_find_tag mem g tag true = Ret (BH_STATUS_NOT_FOUND, None, t)
  end.
Proof.
  intros Ht Hg. unfold bh_coreboot_find_tag. cbn [negb]. rewrite (find_tag_internal_at g t hb rs) by done. bind_step.
  destruct Ht as [_ _ Hok Hr (Hp & _)]. pose proof (first_record_spec mem tag rs (t + hb) Hp Hok Hr) as H.
  destruct (List.find _ rs) as [[t' d]|].
  - destruct H as (a & -> & Ha & Es & Hl & Hd). change (default 0 (Some a)) with a. rewrite (proj2 (Z.eqb_neq a 0)) by lia.
    exists (a + 8). split; [|done]. rewrite Es. unfold sizeof_header. pose proof (zlen_nonneg d).
    by replace (u64 (8 + zlen d - 8)) with (zlen d) by (rewrite wrap_small; [lia|unfold in_u; lia]).
  - by rewrite H.
Qed.

(** ** Initialisation *)

(** A memory range as coreboot stores it, with the padding of the structure. *)
Record range := mk_range { m_start : Z; m_size : Z; m_type : Z }.
Definition render_range (r : range) : bytes :=
  le_bytes 8 (m_start r) ++ le_bytes 8 (m_size r) ++ le_bytes 4 (m_type r) ++ zeros 4.
Definition range_ok (r : range) : Prop := in_u 64 (m_start r) /\ in_u 64 (m_size r) /\ in_u 32 (m_type r).
Definition region_of (r : range) : bh_memory_region :=
  mk_region (m_start r) (m_size r) (if m_type r =? CB_MEM_RAM then BH_MEMORY_TYPE_USABLE else BH_MEMORY_TYPE_RESERVED).

Lemma zlen_ranges (rs : list range) : zlen (concat (render_range <$> rs)) = 24 * Z.of_nat (length rs).
Proof.
  induction rs as [|r rs IH]; [done|]. cbn [fmap list_fmap concat length]. unfold render_range at 1.
  rewrite !zlen_app, !zlen_le_bytes, IH. change (zlen (zeros 4)) with 4. lia.
Qed.

Lemma fetch_quad a v : holds mem a (le_bytes 8 v) -> 0 <= v < 2 ^ 64 -> fetch_le mem a 8 = v.
Proof. exact (fetch_holds mem a 8 v). Qed.

Lemma regions_of_ranges : forall (rs : list range) a k, Forall range_ok rs ->
  holds mem (a + 24 * k) (concat (render_range <$> rs)) ->
  range_region mem a <$> seqZ k (Z.of_nat (length rs)) = region_of <$> rs.
Proof.
  induction rs as [|r rs IH]; intros a k Hok Hh; [done|]. apply Forall_cons in Hok as ((H1 & H2 & H3) & Hok).
  cbn [length]. rewrite seqZ_cons by lia. replace (Z.pred (Z.of_nat (S (length rs)))) with (Z.of_nat (length rs)) by lia.
  cbn [fmap list_fmap concat] in *. rewrite holds_app in Hh. destruct Hh as (Hr & Hh). f_equal.
  - unfold render_range in Hr. rewrite !holds_app, !zlen_le_bytes in Hr. destruct Hr as (F1 & F2 & F3 & _).
    change (Z.of_nat 8) with 8 in *. unfold range_region, region_of, sizeof_range, in_u in *.
    rewrite (fetch_quad _ (m_start r) F1), (fetch_quad _ (m_size r) F2) by done.
    replace (a + 24 * k + 16) with (a + 24 * k + 8 + 8) by lia.
    by rewrite (fetch_word mem _ (m_type r) F3).
  - apply IH; [done|]. replace (a + 24 * Z.succ k) with (a + 24 * k + zlen (render_range r)); [done|].
    pose proof (zlen_ranges [r]) as Hz. cbn [fmap list_fmap concat length] in Hz. rewrite app_nil_r in Hz. lia.
Qed.

(** [bh_coreboot_initialize] on a machine whose coreboot table is the first in
    low memory, with a header whose bytes add up to zero: the memory manager gets
    exactly the ranges of the memory record, in order, RAM as usable and all
    other types as reserved; and the table is remembered. *)
Theorem libb_coreboot_initialize t hb rs ranges : ebda_clear mem -> first_in_low mem t -> 0 < t ->
  table_at t hb rs -> foldr Z.add 0 (fetch mem t hb) mod 256 = 0 ->
  List.find (fun r => fst r =? CB_TAG_MEMORY) rs = Some (CB_TAG_MEMORY, concat (render_range <$> ranges)) ->
  Forall range_ok ranges ->
  bh_coreboot_initialize mem 0 = Ret (BH_STATUS_SUCCESS, region_of <$> ranges, t).
Proof.
  intros He Hl Ht Hta Hsum Hf Hok. unfold bh_coreboot_initialize, bh_coreboot_get_table. cbn [negb Z.eqb].
  rewrite (find_in_low mem t He Hl), (ta_header _ _ _ Hta), checksum_sum. unfold wrap at 1. change (2 ^ 8) with 256.
  rewrite Hsum. cbn [Z.eqb negb]. unfold bh_coreboot_get_memory_map. cbn [negb].
  rewrite (find_tag_internal_at t t hb rs) by (try done; left; lia). bind_step.
  destruct Hta as [_ _ Hrok Hr (Hp & _)]. pose proof (first_record_spec mem CB_TAG_MEMORY rs (t + hb) Hp Hrok Hr) as H.
  rewrite Hf in H. destruct H as (a & -> & Ha & Es & Hz & Hd). change (default 0 (Some a)) with a. rewrite (proj2 (Z.eqb_neq a 0)) by lia. bind_step.
  rewrite zlen_ranges in *. rewrite Es. unfold sizeof_header, sizeof_range.
  replace (u64 (8 + 24 * Z.of_nat (length ranges) - 8) / 24) with (Z.of_nat (length ranges)).
  - f_equal. f_equal. f_equal. apply regions_of_ranges; [done|]. by rewrite Z.mul_0_r, Z.add_0_r.
  - rewrite wrap_small by (unfold in_u; lia). replace (8 + 24 * Z.of_nat (length ranges) - 8) with (Z.of_nat (length ranges) * 24) by lia.
    by rewrite Z.div_mul.
Qed.

(** C18. The errors of the initialisation, where the window that the truncated
    EBDA word selects holds no signature.  Without a signature on the 16-byte
    boundaries of the low 4 KiB it reports NOT_FOUND with no region added and no
    table remembered; when the first signature found there has a header whose bytes
    do not add up to zero, CHECKSUM_MISMATCH, again with nothing added or
    remembered; when the table is valid, is not at address 0 and its records are
    well formed (sizes of at least 8 that end at the table's end: a record of size
    0 is never left, [tag_walk_zero_record]) but none is a memory record, NOT_FOUND
    again, with no region added but the table remembered.  So a missing table and a
    missing memory record share one status, and the remembered table is the only
    difference. *)
Theorem libb_coreboot_errors t hb rs : ebda_clear mem ->
  ((forall j, (j < 256)%nat -> signature_at mem (16 * Z.of_nat j) = false) ->
     bh_coreboot_initialize mem 0 = Ret (BH_STATUS_NOT_FOUND, [], 0)) /\
  (first_in_low mem t -> foldr Z.add 0 (fetch mem t (tbl_header_bytes mem t)) mod 256 <> 0 ->
     bh_coreboot_initialize mem 0 = Ret (BH_STATUS_CHECKSUM_MISMATCH, [], 0)) /\
  (first_in_low mem t -> 0 < t -> table_at t hb rs -> foldr Z.add 0 (fetch mem t hb) mod 256 = 0 ->
     Forall (fun r => fst r <> CB_TAG_MEMORY) rs -> bh_coreboot_initialize mem 0 = Ret (BH_STATUS_NOT_FOUND, [], t)).
Proof.
  intros He. unfold bh_coreboot_initialize, bh_coreboot_get_table. cbn [negb Z.eqb]. split_and!.
  - intros H. by rewrite (find_nowhere mem He H).
  - intros Hl Hs. rewrite (find_in_low mem t He Hl), checksum_sum. unfold wrap at 1. change (2 ^ 8) with 256.
    by rewrite (proj2 (Z.eqb_neq _ _)).
  - intros Hl Ht Hta Hs Hn. rewrite (find_in_low mem t He Hl), (ta_header _ _ _ Hta), checksum_sum.
    unfold wrap at 1. change (2 ^ 8) with 256. rewrite Hs. cbn [Z.eqb negb]. unfold bh_coreboot_get_memory_map. cbn [negb].
    rewrite (find_tag_internal_at t t hb rs) by (try done; left; lia). bind_step.
    destruct Hta as [_ _ Hrok Hr (Hp & _)]. pose proof (first_record_spec mem CB_TAG_MEMORY rs (t + hb) Hp Hrok Hr) as H.
    replace (List.find _ rs) with (@None (Z * bytes)) in H; [by rewrite H|].
    symmetry. clear -Hn. induction Hn as [|r rs Hr _ IH]; [done|]. cbn [List.find]. by rewrite (proj2 (Z.eqb_neq _ _)).
Qed.

(** A record of size 0 whose tag is not the one sought is never left: the walk
    does not end, however long it runs. *)
Theorem tag_walk_zero_record ptr end_ tag : ptr < end_ -> rec_size mem ptr = 0 -> rec_tag mem ptr <> CB_TAG_NONE ->
  rec_tag mem ptr <> tag -> forall fuel, tag_walk mem fuel ptr end_ tag = OutOfFuel.
Proof.
  intros Hp Hs H0 Ht. induction fuel as [|fuel IH]; [done|]. cbn [tag_walk].
  rewrite (proj2 (Z.ltb_lt _ _)), !(proj2 (Z.eqb_neq _ _)) by done. unfold rec_step. rewrite Hs.
  change (u32 (0 + 3) &&& 0xFFFFFFFC) with 0. by rewrite Z.add_0_r.
Qed.

(** The window searched for the EBDA: only the low 16 bits of its address are
    kept, so an EBDA above 64 KiB, where every machine has it, is not searched. *)
Theorem ebda_truncated : fetch_le mem 0x40E 2 = 0x9FC0 -> ebda_segment mem = 0xFC00.
Proof. intros H. unfold ebda_segment. by rewrite H. Qed.
End Queries.

(** ** A machine *)

Definition sample_ranges : list range := [mk_range 0 0x9F000 1; mk_range 0xF0000 0x10000 2].
Definition sample_records : list (Z * bytes) := [(4, [118; 49]); (CB_TAG_MEMORY, concat (render_range <$> sample_ranges))].

(** The table is at address 16; the checksum field makes the header's bytes add up
    to zero. *)
Definition sample_header : bytes :=
  le_bytes 4 CB_HEADER_SIGNATURE ++ le_bytes 4 24 ++ le_bytes 4 0x66 ++ le_bytes 4 (24 + 68) ++ zeros 8.
Definition sample_mem : phys :=
  poke (poke (fun _ => 0) 16 sample_header) 40 (concat (render_record <$> sample_records)).

Lemma sample_table : table_at sample_mem 16 24 sample_records.
Proof.
  split; [by vm_compute|by vm_compute| |by vm_compute|lia].
  repeat constructor; by vm_compute.
Qed.

Lemma sample_low : ebda_clear sample_mem /\ first_in_low sample_mem 16.
Proof.
  split; [intros H; exfalso; by vm_compute in H|]. exists 1%nat. split; [lia|]. split; [done|]. split; [by vm_compute|].
  intros j Hj. replace j with 0%nat by lia. by vm_compute.
Qed.

Lemma libb_find_tag_roundtrip_witness : exists a,
  bh_coreboot_find_tag sample_mem 0 4 true = Ret (BH_STATUS_SUCCESS, Some (a, 2), 16) /\ holds sample_mem a [118; 49].
Proof.
  apply (libb_find_tag_roundtrip sample_mem 0 16 24 sample_records 4 sample_table).
  right. split; [reflexivity|]. apply find_in_low; apply sample_low.
Defined.

Lemma libb_coreboot_initialize_witness :
  bh_coreboot_initialize sample_mem 0 = Ret (BH_STATUS_SUCCESS, region_of <$> sample_ranges, 16).
Proof.
  apply (libb_coreboot_initialize sample_mem 16 24 sample_records sample_ranges).
  - apply sample_low.
  - apply sample_low.
  - lia.
  - exact sample_table.
  - by vm_compute.
  - reflexivity.
  - repeat constructor; by vm_compute.
Defined.

Lemma libb_coreboot_errors_witness :
  ebda_clear (fun _ => 0) /\ bh_coreboot_initialize (fun _ => 0) 0 = Ret (BH_STATUS_NOT_FOUND, [], 0).
Proof.
  assert (H : ebda_clear (fun _ => 0)) by (intros H; exfalso; by vm_compute in H).
  split; [exact H|]. apply (proj1 (libb_coreboot_errors (fun _ => 0) 0 0 [] H)). intros j Hj. reflexivity.
Defined.
