(* ===== verification/BootConfig.v ===== *)
(** * Boot configuration and autoboot (src/main.c)

    The configuration the bootloader runs with: compiled-in defaults, then
    bloodhorn.ini, then bloodhorn.json, then the UEFI variables, and last the
    clamp of the menu timeout; and the pre-menu countdown of [UefiMain].

    A [CHAR8*] string is the list of its bytes before the NUL; a fixed array of
    [BOOT_CONFIG] is the string it holds, and the array's size appears in the
    copies ([AsciiStrCpyS] leaves the destination alone when it is too small).
    What the firmware answers (file protocol, [GetVariable], pool allocation,
    key strokes) is an argument of the definitions. *)

From Stdlib Require Import Ascii String.
From S2P Require Import Prelude.
Import ListNotations.
#[local] Open Scope list_scope.

(** The bytes of an ASCII literal. *)
Definition lit (s : string) : bytes :=
  List.map (fun c => Z.of_nat (nat_of_ascii c)) (list_ascii_of_string s).

(** ** Configuration *)

Record BOOT_CONFIG := mk_config {
  default_entry : bytes;  (* [64] *)
  menu_timeout : Z;       (* int *)
  kernel : bytes;         (* [128] *)
  initrd : bytes;         (* [128] *)
  cmdline : bytes;        (* [256] *)
  tpm_enabled : bool;
  secure_boot : bool;
  use_gui : bool;
  font_path : bytes;      (* [256] *)
  font_size : Z;
  header_font_size : Z;
  language : bytes;       (* [8] *)
  enable_networking : bool }.

(** The sizes of the arrays. *)
Definition default_entry_size : Z := 64.
Definition kernel_size : Z := 128.
Definition initrd_size : Z := 128.
Definition cmdline_size : Z := 256.
Definition font_path_size : Z := 256.
Definition language_size : Z := 8.

Section Setters.
  Implicit Types c : BOOT_CONFIG.
Definition set_default_entry c v := mk_config v (menu_timeout c) (kernel c) (initrd c) (cmdline c)
  (tpm_enabled c) (secure_boot c) (use_gui c) (font_path c) (font_size c) (header_font_size c)
  (language c) (enable_networking c).
Definition set_menu_timeout c v := mk_config (default_entry c) v (kernel c) (initrd c) (cmdline c)
  (tpm_enabled c) (secure_boot c) (use_gui c) (font_path c) (font_size c) (header_font_size c)
  (language c) (enable_networking c).
Definition set_kernel c v := mk_config (default_entry c) (menu_timeout c) v (initrd c) (cmdline c)
  (tpm_enabled c) (secure_boot c) (use_gui c) (font_path c) (font_size c) (header_font_size c)
  (language c) (enable_networking c).
Definition set_initrd c v := mk_config (default_entry c) (menu_timeout c) (kernel c) v (cmdline c)
  (tpm_enabled c) (secure_boot c) (use_gui c) (font_path c) (font_size c) (header_font_size c)
  (language c) (enable_networking c).
Definition set_cmdline c v := mk_config (default_entry c) (menu_timeout c) (kernel c) (initrd c) v
  (tpm_enabled c) (secure_boot c) (use_gui c) (font_path c) (font_size c) (header_font_size c)
  (language c) (enable_networking c).
Definition set_tpm_enabled c v := mk_config (default_entry c) (menu_timeout c) (kernel c) (initrd c)
  (cmdline c) v (secure_boot c) (use_gui c) (font_path c) (font_size c) (header_font_size c)
  (language c) (enable_networking c).
Definition set_secure_boot c v := mk_config (default_entry c) (menu_timeout c) (kernel c) (initrd c)
  (cmdline c) (tpm_enabled c) v (use_gui c) (font_path c) (font_size c) (header_font_size c)
  (language c) (enable_networking c).
Definition set_use_gui c v := mk_config (default_entry c) (menu_timeout c) (kernel c) (initrd c)
  (cmdline c) (tpm_enabled c) (secure_boot c) v (font_path c) (font_size c) (header_font_size c)
  (language c) (enable_networking c).
Definition set_language c v := mk_config (default_entry c) (menu_timeout c) (kernel c) (initrd c)
  (cmdline c) (tpm_enabled c) (secure_boot c) (use_gui c) (font_path c) (font_size c)
  (header_font_size c) v (enable_networking c).
End Setters.

(** ** String helpers *)

(** [AsciiStrCpyS]: the destination is left alone when the source does not fit. *)
Definition AsciiStrCpyS (dst : bytes) (DestMax : Z) (src : bytes) : bytes :=
  if zlen src <? DestMax then src else dst.

Definition is_digit (c : Z) : bool := (48 <=? c) && (c <=? 57).

(** The digit loop of [AsciiStrDecimalToUintnS]: saturates at [MAX_UINTN]. *)
Fixpoint decimal_loop (data : Z) (s : bytes) : Z :=
  match s with
  | c :: s' =>
      if is_digit c then
        if (2 ^ 64 - 1 - (c - 48)) / 10 <? data then 2 ^ 64 - 1
        else decimal_loop (data * 10 + (c - 48)) s'
      else data
  | [] => data
  end.

Fixpoint drop_while (p : Z -> bool) (s : bytes) : bytes :=
  match s with c :: s' => if p c then drop_while p s' else s | [] => [] end.

Definition AsciiStrDecimalToUintn (s : bytes) : Z :=
  let s := drop_while (fun c => (c =? 32) || (c =? 9)) s in
  let s := drop_while (fun c => c =? 48) s in
  decimal_loop 0 s.

(** The inner comparison of [AsciiStrStr]. *)
Fixpoint prefix_of (pat s : bytes) : bool :=
  match pat, s with
  | [], _ => true
  | p :: pat', c :: s' => (c =? p) && prefix_of pat' s'
  | _ :: _, [] => false
  end.

(** [AsciiStrStr]: the suffix that starts with the first match. *)
Fixpoint AsciiStrStr (s pat : bytes) : option bytes :=
  if prefix_of pat s then Some s
  else match s with [] => None | _ :: s' => AsciiStrStr s' pat end.

(** What precedes the first [c], and what follows it. *)
Fixpoint split_at (c : Z) (s : bytes) : option (bytes * bytes) :=
  match s with
  | [] => None
  | x :: s' =>
      if x =? c then Some ([], s')
      else match split_at c s' with Some (a, b) => Some (x :: a, b) | None => None end
  end.

Definition lower (c : Z) : Z := if (65 <=? c) && (c <=? 90) then c - 65 + 97 else c.

Fixpoint str_ieq (a b : bytes) : bool :=
  match a, b with
  | x :: a', y :: b' => if lower x =? lower y then str_ieq a' b' else false
  | [], [] => true
  | _, _ => false
  end.

Definition parse_bool_ascii (v : option bytes) (defv : bool) : bool :=
  match v with
  | None => defv
  | Some v =>
      if str_ieq v (lit "true") || str_ieq v (lit "1") || str_ieq v (lit "yes") then true
      else if str_ieq v (lit "false") || str_ieq v (lit "0") || str_ieq v (lit "no") then false
      else defv
  end.

Definition is_blank (c : Z) : bool := (c =? 32) || (c =? 9) || (c =? 13) || (c =? 10).

(** [while (n > 0 && blank s[n-1]) s[n-1] = 0, n--;] *)
Fixpoint trim_trailing (n : nat) (s : bytes) : bytes :=
  match n with
  | O => s
  | S n' => if is_blank (nth n' s 0) then trim_trailing n' (take n' s) else s
  end.

Definition trim_ascii (s : bytes) : bytes :=
  let s := drop_while is_blank s in trim_trailing (length s) s.

(** A C string read from a buffer: the bytes before the first NUL. *)
Fixpoint c_string (s : bytes) : bytes :=
  match s with c :: s' => if c =? 0 then [] else c :: c_string s' | [] => [] end.

(** ** Reading a file *)

(** What the file protocol and the pool allocator answer for one open file:
    [GetInfo] without and with a buffer, the two allocations, the file size, and
    [Read] of up to that many bytes. *)
Record efi_file := mk_file {
  f_info_probe : Z;
  f_info_alloc : bool;
  f_info_status : Z;
  f_size : Z;
  f_buf_alloc : bool;
  f_read_status : Z;
  f_data : bytes }.

(** A directory: the status or the file [Open] gives for each name. *)
Definition efi_dir := string -> Z + efi_file.

(** The status, and the buffer's [size] bytes.  [info->FileSize] with [info]
    still NULL (a first [GetInfo] that succeeds) and a read longer than the
    buffer are undefined. *)
Definition ReadWholeFileAscii (root : efi_dir) (path : string) : run (Z * option bytes) :=
  match root path with
  | inl status => mret (status, None)
  | inr f =>
      if f_info_probe f =? EFI_BUFFER_TOO_SMALL then
        if negb (f_info_alloc f) then mret (EFI_OUT_OF_RESOURCES, None)
        else if EFI_ERROR (f_info_status f) then mret (f_info_status f, None)
        else if negb (f_buf_alloc f) then mret (EFI_OUT_OF_RESOURCES, None)
        else if EFI_ERROR (f_read_status f) then mret (f_read_status f, None)
        else if f_size f <? zlen (f_data f) then UB
        else mret (EFI_SUCCESS, Some (f_data f))
      else if EFI_ERROR (f_info_probe f) then mret (f_info_probe f, None)
      else UB
  end.

(** ** bloodhorn.ini *)

Definition ini_boot_key (k v : bytes) (c : BOOT_CONFIG) : BOOT_CONFIG :=
  if str_ieq k (lit "default") then
    set_default_entry c (AsciiStrCpyS (default_entry c) default_entry_size v)
  else if str_ieq k (lit "menu_timeout") then
    set_menu_timeout c (s32 (AsciiStrDecimalToUintn v))
  else if str_ieq k (lit "language") then
    set_language c (AsciiStrCpyS (language c) language_size v)
  else if str_ieq k (lit "secure_boot") then
    set_secure_boot c (parse_bool_ascii (Some v) (secure_boot c))
  else if str_ieq k (lit "tpm_enabled") then
    set_tpm_enabled c (parse_bool_ascii (Some v) (tpm_enabled c))
  else if str_ieq k (lit "use_gui") then
    set_use_gui c (parse_bool_ascii (Some v) (use_gui c))
  else c.

Definition ini_linux_key (k v : bytes) (c : BOOT_CONFIG) : BOOT_CONFIG :=
  if str_ieq k (lit "kernel") then set_kernel c (AsciiStrCpyS (kernel c) kernel_size v)
  else if str_ieq k (lit "initrd") then set_initrd c (AsciiStrCpyS (initrd c) initrd_size v)
  else if str_ieq k (lit "cmdline") then set_cmdline c (AsciiStrCpyS (cmdline c) cmdline_size v)
  else c.

Definition ini_key (section k v : bytes) (c : BOOT_CONFIG) : BOOT_CONFIG :=
  if str_ieq section (lit "boot") then ini_boot_key k v c
  else if str_ieq section (lit "linux") then ini_linux_key k v c
  else c.

(** One line, after it has been copied: the section and the configuration. *)
Definition ini_line (section : bytes) (c : BOOT_CONFIG) (line : bytes) : bytes * BOOT_CONFIG :=
  match trim_ascii line with
  | [] => (section, c)
  | (x :: _) as line =>
      if (x =? 35) || (x =? 59) then (section, c)
      else if x =? 91 then
        match split_at 93 line with
        | Some (head, _) => (AsciiStrCpyS section 64 (tail head), c)
        | None => (section, c)
        end
      else
        match split_at 61 line with
        | None => (section, c)
        | Some (k, v) => (section, ini_key section (trim_ascii k) (trim_ascii v) c)
        end
  end.

(** The line at [cur], and what follows its newline. *)
Definition next_line (cur : bytes) : bytes * bytes :=
  match split_at 10 cur with Some (line, rest) => (line, rest) | None => (cur, []) end.

(** [alloc n] tells whether the allocation of the [n]-th line succeeds. *)
Fixpoint ini_loop (alloc : nat -> bool) (fuel n : nat) (section cur : bytes) (c : BOOT_CONFIG)
  : run BOOT_CONFIG :=
  match cur with
  | [] => Ret c
  | _ :: _ =>
      match fuel with
      | O => OutOfFuel
      | S fuel' =>
          let '(line, rest) := next_line cur in
          if negb (alloc n) then Ret c
          else let '(section, c) := ini_line section c line in
               ini_loop alloc fuel' (S n) section rest c
      end
  end.

Definition ApplyIniToConfig (alloc : nat -> bool) (ini : bytes) (c : BOOT_CONFIG)
  : run BOOT_CONFIG := ini_loop alloc (length ini) 0 [] ini c.

(** ** bloodhorn.json *)

Definition json_blank (c : Z) : bool := (c =? 32) || (c =? 9) || (c =? 10).

(** The text of the value: after the first occurrence of the key, after the
    next colon, past the blanks. *)
Definition json_value (js key : bytes) : option bytes :=
  match AsciiStrStr js key with
  | None => None
  | Some p =>
      match AsciiStrStr p (lit ":") with
      | None => None
      | Some p => Some (drop_while json_blank (tail p))
      end
  end.

(** The characters up to the closing quote (or the end). *)
Fixpoint until_quote (s : bytes) : bytes :=
  match s with c :: s' => if c =? 34 then [] else c :: until_quote s' | [] => [] end.

(** [FIND_STR], through the 512-byte [tmp]. *)
Definition find_str (js key dst : bytes) (size : Z) : bytes :=
  match json_value js key with
  | Some (c :: p) => if c =? 34 then AsciiStrCpyS dst size (take 511 (until_quote p)) else dst
  | _ => dst
  end.

(** The digit loop of [FIND_INT], on an [INTN]. *)
Fixpoint int_loop (val : Z) (p : bytes) : run Z :=
  match p with
  | c :: p' =>
      if is_digit c then
        let val := val * 10 + (c - 48) in
        if 2 ^ 63 <=? val then UB else int_loop val p'
      else Ret val
  | [] => Ret val
  end.

Definition find_int (js key : bytes) (dst : Z) : run Z :=
  match json_value js key with
  | Some p => val ← int_loop 0 p; mret (s32 val)
  | None => mret dst
  end.

Definition quoted (s : string) : bytes := 34 :: lit s ++ [34].

Definition ApplyJsonToConfig (js : bytes) (c : BOOT_CONFIG) : run BOOT_CONFIG :=
  let c := set_default_entry c (find_str js (quoted "default") (default_entry c) default_entry_size) in
  t ← find_int js (quoted "menu_timeout") (menu_timeout c);
  let c := set_menu_timeout c t in
  let c := set_language c (find_str js (quoted "language") (language c) language_size) in
  let c := set_kernel c (find_str js (quoted "kernel") (kernel c) kernel_size) in
  let c := set_initrd c (find_str js (quoted "initrd") (initrd c) initrd_size) in
  let c := set_cmdline c (find_str js (quoted "cmdline") (cmdline c) cmdline_size) in
  mret c.

(** ** UEFI variables *)

(** What [GetVariable] and the allocator answer for one variable: the status and
    size of the call without a buffer, the allocation, and the status and data
    of the second call. *)
Record efi_var := mk_var {
  v_probe : Z;
  v_size : Z;
  v_alloc : bool;
  v_status : Z;
  v_data : bytes }.

(** The buffer of [sz] zeroed bytes with the data at its start, when the second
    call succeeds; [None] where the loop body continues. *)
Definition get_var (v : efi_var) : run (option bytes) :=
  if negb (v_probe v =? EFI_BUFFER_TOO_SMALL) then mret None
  else if negb (v_alloc v) then mret None
  else if EFI_ERROR (v_status v) then mret None
  else if v_size v <? zlen (v_data v) then UB
  else mret (Some (v_data v ++ zeros (v_size v - zlen (v_data v)))).

(** [UnicodeStrToAsciiStrS(w, a, 256)] on the zeroed [a]: a string that does not
    fit leaves [a] empty; a string with no NUL in the buffer is read past it.
    A character is truncated to its low byte. *)
Fixpoint unicode_to_ascii (room : nat) (w : bytes) : run (option bytes) :=
  match room with
  | O => Ret None
  | S room' =>
      match w with
      | lo :: hi :: w' =>
          if (lo =? 0) && (hi =? 0) then Ret (Some [])
          else r ← unicode_to_ascii room' w';
               mret (match r with Some a => Some (lo :: a) | None => None end)
      | _ => UB
      end
  end.

Definition env_str (v : efi_var) (dst : bytes) (size : Z) : run bytes :=
  b ← get_var v;
  match b with
  | None => mret dst
  | Some w =>
      r ← unicode_to_ascii 256 w;
      mret (AsciiStrCpyS dst size (c_string (default [] r)))
  end.

(** [sz] is the size the second call reports: the length of its data. *)
Definition env_int (v : efi_var) (dst : Z) : run Z :=
  b ← get_var v;
  match b with
  | Some w => mret (if 4 <=? zlen (v_data v) then s32 (le_val (sub w 0 4)) else dst)
  | None => mret dst
  end.

Definition env_bool (v : efi_var) (dst : bool) : run bool :=
  b ← get_var v;
  match b with
  | Some w => mret (if 1 <=? zlen (v_data v) then negb (zget w 0 =? 0) else dst)
  | None => mret dst
  end.

Definition ApplyUefiEnvOverrides (vars : string -> efi_var) (c : BOOT_CONFIG) : run BOOT_CONFIG :=
  x ← env_str (vars "BLOODHORN_DEFAULT"%string) (default_entry c) default_entry_size;
  let c := set_default_entry c x in
  x ← env_int (vars "BLOODHORN_MENU_TIMEOUT"%string) (menu_timeout c);
  let c := set_menu_timeout c x in
  x ← env_str (vars "BLOODHORN_LANGUAGE"%string) (language c) language_size;
  let c := set_language c x in
  x ← env_str (vars "BLOODHORN_LINUX_KERNEL"%string) (kernel c) kernel_size;
  let c := set_kernel c x in
  x ← env_str (vars "BLOODHORN_LINUX_INITRD"%string) (initrd c) initrd_size;
  let c := set_initrd c x in
  x ← env_str (vars "BLOODHORN_LINUX_CMDLINE"%string) (cmdline c) cmdline_size;
  let c := set_cmdline c x in
  x ← env_bool (vars "BLOODHORN_SECURE_BOOT"%string) (secure_boot c);
  let c := set_secure_boot c x in
  x ← env_bool (vars "BLOODHORN_TPM_ENABLED"%string) (tpm_enabled c);
  mret (set_tpm_enabled c x).

(** ** Loading *)

Definition default_config : BOOT_CONFIG :=
  mk_config (lit "linux") 10 [] [] [] true false true (lit "DejaVuSans.ttf") 12 16 (lit "en") false.

Definition clamp_timeout (c : BOOT_CONFIG) : BOOT_CONFIG :=
  let c := if menu_timeout c <? 0 then set_menu_timeout c 0 else c in
  if 300 <? menu_timeout c then set_menu_timeout c 300 else c.

(** [apply] runs on a file that was read and is not empty. *)
Definition apply_file (r : Z * option bytes) (apply : bytes -> BOOT_CONFIG -> run BOOT_CONFIG)
  (c : BOOT_CONFIG) : run BOOT_CONFIG :=
  match r with
  | (status, Some buf) =>
      if negb (EFI_ERROR status) && (0 <? zlen buf) then apply (c_string buf) c else mret c
  | (_, None) => mret c
  end.

(** [root]: the status of [get_root_dir], or the root directory. *)
Definition LoadBootConfig (root : Z + efi_dir) (alloc : nat -> bool) (vars : string -> efi_var)
  : run (Z * BOOT_CONFIG) :=
  let c := default_config in
  match root with
  | inl _ => mret (EFI_SUCCESS, c)
  | inr dir =>
      r ← ReadWholeFileAscii dir "bloodhorn.ini"%string;
      c ← apply_file r (ApplyIniToConfig alloc) c;
      r ← ReadWholeFileAscii dir "bloodhorn.json"%string;
      c ← apply_file r ApplyJsonToConfig c;
      c ← ApplyUefiEnvOverrides vars c;
      mret (EFI_SUCCESS, clamp_timeout c)
  end.

(** ** Strings: lemmas *)

Implicit Types s : bytes.

Lemma split_at_app c a b : Forall (fun x => x <> c) a -> split_at c (a ++ c :: b) = Some (a, b).
Proof.
  induction 1 as [|x a Hx Ha IH]; cbn [app split_at]; [by rewrite Z.eqb_refl|].
  destruct (Z.eqb_spec x c); [done|]. by rewrite IH.
Qed.

Lemma split_at_length c s a b : split_at c s = Some (a, b) -> (length s = length a + S (length b))%nat.
Proof.
  revert a. induction s as [|x s IH]; intros a; cbn [split_at]; [done|].
  destruct (x =? c); [intros [= <- <-]; done|].
  destruct (split_at c s) as [[a' b']|]; [|done]. intros [= <- <-]. cbn. by rewrite (IH a').
Qed.

(** Neither end is blank. *)
Definition trimmed s : bool :=
  match s with [] => true | x :: _ => negb (is_blank x) && negb (is_blank (List.last s 0)) end.

Lemma nth_last_pred s : s <> [] -> nth (pred (length s)) s 0 = List.last s 0.
Proof.
  intros Hs. destruct (exists_last Hs) as (l & x & ->).
  rewrite length_app, last_last. cbn [length]. rewrite Nat.add_1_r. cbn [pred].
  rewrite app_nth2, Nat.sub_diag by lia. done.
Qed.

Lemma trim_ascii_id s : trimmed s = true -> trim_ascii s = s.
Proof.
  unfold trim_ascii. destruct s as [|x s']; [done|]. cbn [trimmed]. intros [Hx Hl]%andb_prop.
  cbn [drop_while]. rewrite negb_true_iff in Hx, Hl. rewrite Hx. cbn [length trim_trailing].
  change (length s') with (pred (length (x :: s'))). rewrite nth_last_pred by done. by rewrite Hl.
Qed.

Lemma last_app_cons (a b : bytes) x : List.last (a ++ x :: b) 0 = List.last (x :: b) 0.
Proof.
  induction a as [|y a IH]; [done|]. cbn [app]. rewrite <- IH. cbn [List.last].
  destruct (a ++ x :: b) eqn:E; [by destruct a|done].
Qed.

(** A key, an equals sign and a trimmed value make a trimmed line. *)
Lemma trimmed_line k v :
  k <> [] -> trimmed k = true -> trimmed v = true -> trimmed (k ++ 61 :: v) = true.
Proof.
  destruct k as [|x k]; [done|]. intros _ [Hx _]%andb_prop Hv. cbn [app trimmed].
  rewrite Hx. cbn [andb]. rewrite app_comm_cons, last_app_cons. destruct v as [|y v]; [done|].
  change (List.last (61 :: y :: v) 0) with (List.last (y :: v) 0).
  cbn [trimmed] in Hv. by apply andb_prop in Hv as [_ ->].
Qed.

(** *** Decimal numbers *)

Lemma decimal_loop_zeros s : decimal_loop 0 (drop_while (fun c => c =? 48) s) = decimal_loop 0 s.
Proof.
  induction s as [|c s IH]; [done|]. cbn [drop_while].
  destruct (Z.eqb_spec c 48) as [->|]; [|done]. rewrite IH. reflexivity.
Qed.

(** The decimal notation of a number below [10 ^ fuel]. *)
Fixpoint decimal_digits (fuel : nat) (n : Z) (acc : bytes) : bytes :=
  match fuel with
  | O => acc
  | S fuel' =>
      if n <? 10 then (48 + n) :: acc
      else decimal_digits fuel' (n / 10) ((48 + n mod 10) :: acc)
  end.
Definition decimal (n : Z) : bytes := decimal_digits 20 n [].

Lemma is_digit_digit d : 0 <= d < 10 -> is_digit (48 + d) = true.
Proof. intros. unfold is_digit. zbool. Qed.

Lemma decimal_digits_read fuel : forall n acc, 0 <= n < 2 ^ 64 -> n < 10 ^ Z.of_nat fuel ->
  decimal_loop 0 (decimal_digits fuel n acc) = decimal_loop n acc.
Proof.
  induction fuel as [|fuel IH]; intros n acc Hn Hf.
  { change (10 ^ Z.of_nat 0) with 1 in Hf. by assert (n = 0) as -> by lia. }
  rewrite Nat2Z.inj_succ, Z.pow_succ_r in Hf by lia. cbn [decimal_digits].
  destruct (Z.ltb_spec n 10) as [Hlt|Hge].
  - cbn [decimal_loop]. rewrite is_digit_digit by lia. replace (48 + n - 48) with n by lia.
    destruct (Z.ltb_spec ((2 ^ 64 - 1 - n) / 10) 0); [dlia|]. done.
  - rewrite IH by dlia. cbn [decimal_loop]. rewrite is_digit_digit by dlia.
    replace (48 + n mod 10 - 48) with (n mod 10) by lia.
    destruct (Z.ltb_spec ((2 ^ 64 - 1 - n mod 10) / 10) (n / 10)); [dlia|]. f_equal. dlia.
Qed.

Lemma decimal_digits_all fuel : forall n acc, 0 <= n -> Forall (fun c => 48 <= c <= 57) acc ->
  Forall (fun c => 48 <= c <= 57) (decimal_digits fuel n acc).
Proof.
  induction fuel as [|fuel IH]; intros n acc Hn Ha; [done|]. cbn [decimal_digits].
  destruct (Z.ltb_spec n 10); [constructor; [lia|done]|]. apply IH; [dlia|].
  constructor; [dlia|done].
Qed.

Lemma decimal_all n : 0 <= n -> Forall (fun c => 48 <= c <= 57) (decimal n).
Proof. intros. by apply decimal_digits_all. Qed.

Lemma decimal_read n : 0 <= n < 2 ^ 64 -> AsciiStrDecimalToUintn (decimal n) = n.
Proof.
  intros Hn. unfold AsciiStrDecimalToUintn.
  assert (Hd : drop_while (fun c => (c =? 32) || (c =? 9)) (decimal n) = decimal n).
  { destruct (decimal_all n) as [|c l Hc _]; [lia|done|]. cbn [drop_while].
    by replace ((c =? 32) || (c =? 9)) with false by (symmetry; zbool). }
  rewrite Hd, decimal_loop_zeros. unfold decimal.
  rewrite decimal_digits_read; [done|lia|]. change (Z.of_nat 20) with 20. lia.
Qed.

Lemma Forall_last (P : Z -> Prop) s : s <> [] -> Forall P s -> P (List.last s 0).
Proof. intros Hs Hf. destruct (exists_last Hs) as (l & x & ->). rewrite last_last.
  apply Forall_app in Hf as [_ Hf]. by apply Forall_inv in Hf. Qed.

Lemma decimal_trimmed n : 0 <= n -> trimmed (decimal n) = true.
Proof.
  intros Hn. pose proof (decimal_all n Hn) as Hd. unfold trimmed.
  destruct (decimal n) as [|c l] eqn:E; [done|].
  assert (Hb : forall x, 48 <= x <= 57 -> is_blank x = false) by (intros; unfold is_blank; zbool).
  rewrite !Hb; [done| |by apply Forall_inv in Hd].
  by apply (Forall_last (fun c => 48 <= c <= 57)).
Qed.

(** ** The INI file: lemmas *)

Definition no_newline s : Prop := Forall (fun c => c <> 10) s.

(** A file of complete lines. *)
Definition unlines (ls : list bytes) : bytes := concat (List.map (fun l => l ++ [10]) ls).

Definition ini_lines (ls : list bytes) (p : bytes * BOOT_CONFIG) : bytes * BOOT_CONFIG :=
  fold_left (fun p l => ini_line (fst p) (snd p) l) ls p.

Lemma ini_loop_lines alloc ls : forall fuel n section c,
  (forall k, alloc k = true) -> Forall no_newline ls -> (length ls <= fuel)%nat ->
  ini_loop alloc fuel n section (unlines ls) c = Ret (snd (ini_lines ls (section, c))).
Proof.
  induction ls as [|l ls IH]; intros fuel n section c Ha Hf Hn; [by destruct fuel|].
  apply Forall_cons in Hf as [Hl Hf]. cbn [length] in Hn. destruct fuel as [|fuel]; [lia|].
  change (unlines (l :: ls)) with ((l ++ [10]) ++ unlines ls). rewrite <- app_assoc. cbn [app].
  cbn [ini_loop]. unfold next_line. rewrite split_at_app by done.
  destruct (l ++ 10 :: unlines ls) eqn:E; [by destruct l|]. rewrite Ha. cbn [negb].
  cbn [ini_lines fold_left fst snd]. destruct (ini_line section c l) as [section' c'].
  by apply IH; [|done|lia].
Qed.

Lemma length_unlines ls : (length ls <= length (unlines ls))%nat.
Proof.
  induction ls as [|l ls IH]; [done|]. change (unlines (l :: ls)) with ((l ++ [10]) ++ unlines ls).
  rewrite !length_app. cbn [length]. lia.
Qed.

(** A line that sets a key: no blank around the sign, a key that does not open
    a comment or a section. *)
Definition plain_key k : bool :=
  match k with
  | [] => false
  | x :: _ => negb ((x =? 35) || (x =? 59)) && negb (x =? 91)
              && forallb (fun c => negb (c =? 61)) k && trimmed k
  end.

Lemma ini_line_key section c k v :
  plain_key k = true -> trimmed v = true ->
  ini_line section c (k ++ 61 :: v) = (section, ini_key section k v c).
Proof.
  intros Hk Hv. destruct k as [|x k]; [done|]. cbn [plain_key] in Hk.
  rewrite !andb_true_iff, !negb_true_iff in Hk. destruct Hk as [[[H1 H2] H3] H4].
  unfold ini_line. rewrite trim_ascii_id by (apply trimmed_line; done). cbn [app].
  rewrite H1, H2. rewrite app_comm_cons, split_at_app.
  - by rewrite !trim_ascii_id.
  - rewrite forallb_forall in H3. apply Forall_forall. intros y Hy%list_elem_of_In.
    specialize (H3 y Hy). by destruct (Z.eqb_spec y 61).
Qed.

(** The INI file that says what the fields the INI reader knows are. *)
Definition bool_text (b : bool) : bytes := if b then lit "true" else lit "false".
Definition entry_line (k : string) (v : bytes) : bytes := lit k ++ 61 :: v.
Definition ini_of_config (c : BOOT_CONFIG) : list bytes :=
  [lit "[boot]";
   entry_line "default" (default_entry c);
   entry_line "menu_timeout" (decimal (menu_timeout c));
   entry_line "language" (language c);
   entry_line "secure_boot" (bool_text (secure_boot c));
   entry_line "tpm_enabled" (bool_text (tpm_enabled c));
   entry_line "use_gui" (bool_text (use_gui c));
   lit "[linux]";
   entry_line "kernel" (kernel c);
   entry_line "initrd" (initrd c);
   entry_line "cmdline" (cmdline c)].

(** A value the INI reader can carry into an array of [size] bytes. *)
Definition ini_value s (size : Z) : Prop := no_newline s /\ trimmed s = true /\ zlen s < size.

Definition ini_config (c : BOOT_CONFIG) : Prop :=
  ini_value (default_entry c) default_entry_size /\ 0 <= menu_timeout c < 2 ^ 31 /\
  ini_value (language c) language_size /\ ini_value (kernel c) kernel_size /\
  ini_value (initrd c) initrd_size /\ ini_value (cmdline c) cmdline_size.

Lemma no_newline_forallb s : forallb (fun c => negb (c =? 10)) s = true -> no_newline s.
Proof.
  intros Hk. rewrite forallb_forall in Hk. apply Forall_forall. intros y Hy%list_elem_of_In.
  specialize (Hk y Hy). by destruct (Z.eqb_spec y 10).
Qed.

Lemma entry_no_newline k v :
  forallb (fun c => negb (c =? 10)) (lit k) = true -> no_newline v -> no_newline (entry_line k v).
Proof. intros Hk Hv. apply Forall_app. split; [by apply no_newline_forallb|by constructor]. Qed.

Lemma decimal_no_newline n : 0 <= n -> no_newline (decimal n).
Proof. intros Hn. eapply Forall_impl; [by apply decimal_all|]. cbn. lia. Qed.

Lemma bool_no_newline b : no_newline (bool_text b).
Proof. by apply no_newline_forallb; destruct b. Qed.

Lemma bool_trimmed b : trimmed (bool_text b) = true.
Proof. by destruct b. Qed.

Lemma parse_bool_text b d : parse_bool_ascii (Some (bool_text b)) d = b.
Proof. by destruct b. Qed.

Lemma cpy_value dst size s : zlen s < size -> AsciiStrCpyS dst size s = s.
Proof. intros. unfold AsciiStrCpyS. by destruct (Z.ltb_spec (zlen s) size); [|lia]. Qed.

Lemma s32_small x : 0 <= x < 2 ^ 31 -> s32 x = x.
Proof. unfold s32. intros. rewrite Z.mod_small; lia. Qed.

Lemma ini_of_config_no_newline c : ini_config c -> Forall no_newline (ini_of_config c).
Proof.
  intros ([H1 _] & Hm & [H2 _] & [H3 _] & [H4 _] & [H5 _]). unfold ini_of_config.
  repeat (apply Forall_cons; split); try (apply entry_no_newline; [reflexivity|]);
    auto using decimal_no_newline, bool_no_newline.
  all: try (apply decimal_no_newline; lia).
  all: first [apply bool_no_newline | by apply no_newline_forallb].
Qed.

(** What each line of such a file does; [autorewrite with ini] runs them. *)
Lemma ini_section_boot section c : ini_line section c (lit "[boot]") = (lit "boot", c).
Proof. reflexivity. Qed.
Lemma ini_section_linux section c : ini_line section c (lit "[linux]") = (lit "linux", c).
Proof. reflexivity. Qed.
Lemma ini_default v c : ini_key (lit "boot") (lit "default") v c =
  set_default_entry c (AsciiStrCpyS (default_entry c) default_entry_size v).
Proof. reflexivity. Qed.
Lemma ini_timeout v c : ini_key (lit "boot") (lit "menu_timeout") v c =
  set_menu_timeout c (s32 (AsciiStrDecimalToUintn v)).
Proof. reflexivity. Qed.
Lemma ini_language v c : ini_key (lit "boot") (lit "language") v c =
  set_language c (AsciiStrCpyS (language c) language_size v).
Proof. reflexivity. Qed.
Lemma ini_secure_boot v c : ini_key (lit "boot") (lit "secure_boot") v c =
  set_secure_boot c (parse_bool_ascii (Some v) (secure_boot c)).
Proof. reflexivity. Qed.
Lemma ini_tpm v c : ini_key (lit "boot") (lit "tpm_enabled") v c =
  set_tpm_enabled c (parse_bool_ascii (Some v) (tpm_enabled c)).
Proof. reflexivity. Qed.
Lemma ini_gui v c : ini_key (lit "boot") (lit "use_gui") v c =
  set_use_gui c (parse_bool_ascii (Some v) (use_gui c)).
Proof. reflexivity. Qed.
Lemma ini_kernel v c : ini_key (lit "linux") (lit "kernel") v c =
  set_kernel c (AsciiStrCpyS (kernel c) kernel_size v).
Proof. reflexivity. Qed.
Lemma ini_initrd v c : ini_key (lit "linux") (lit "initrd") v c =
  set_initrd c (AsciiStrCpyS (initrd c) initrd_size v).
Proof. reflexivity. Qed.
Lemma ini_cmdline v c : ini_key (lit "linux") (lit "cmdline") v c =
  set_cmdline c (AsciiStrCpyS (cmdline c) cmdline_size v).
Proof. reflexivity. Qed.
#[local] Hint Rewrite ini_default ini_timeout ini_language ini_secure_boot ini_tpm
  ini_gui ini_kernel ini_initrd ini_cmdline : ini.

(** Reading such a file, whatever the configuration was. *)
Lemma ini_reads_back alloc c c0 : (forall k, alloc k = true) -> ini_config c ->
  ApplyIniToConfig alloc (unlines (ini_of_config c)) c0 =
  Ret (mk_config (default_entry c) (menu_timeout c) (kernel c) (initrd c) (cmdline c)
         (tpm_enabled c) (secure_boot c) (use_gui c) (font_path c0) (font_size c0)
         (header_font_size c0) (language c) (enable_networking c0)).
Proof.
  intros Halloc Hc. unfold ApplyIniToConfig.
  rewrite ini_loop_lines; [|done|by apply ini_of_config_no_newline|apply length_unlines].
  destruct Hc as ((_ & T1 & L1) & Hm & (_ & T2 & L2) & (_ & T3 & L3) & (_ & T4 & L4) & (_ & T5 & L5)).
  f_equal. unfold ini_lines, ini_of_config, entry_line. cbn [fold_left fst snd].
  rewrite ini_section_boot. cbn [fst snd].
  do 6 (rewrite (ini_line_key (lit "boot"))
    by first [reflexivity | assumption | apply bool_trimmed | apply decimal_trimmed; lia];
    cbn [fst snd]).
  rewrite ini_section_linux. cbn [fst snd].
  do 3 (rewrite (ini_line_key (lit "linux")) by first [reflexivity | assumption]; cbn [fst snd]).
  autorewrite with ini.
  rewrite !cpy_value by assumption. rewrite !parse_bool_text, decimal_read, s32_small by lia.
  reflexivity.
Qed.

(** C11. The INI reader reads back what a configuration file says: from the file
    that lists a configuration's fields (any values without newlines or blanks
    at the ends that fit their arrays, and any non-negative [int] timeout) every
    one of these fields is set to its value, whatever the configuration was
    before, and the other fields stay. *)
Theorem ini_roundtrip c c0 :
  ini_config c ->
  ApplyIniToConfig (fun _ => true) (unlines (ini_of_config c)) c0 =
  Ret (mk_config (default_entry c) (menu_timeout c) (kernel c) (initrd c) (cmdline c)
         (tpm_enabled c) (secure_boot c) (use_gui c) (font_path c0) (font_size c0)
         (header_font_size c0) (language c) (enable_networking c0)).
Proof. by apply ini_reads_back. Qed.

Lemma ini_roundtrip_witness :
  ini_config (set_kernel default_config (lit "/boot/vmlinuz")) /\
  ApplyIniToConfig (fun _ => true)
    (unlines (ini_of_config (set_kernel default_config (lit "/boot/vmlinuz")))) default_config =
  Ret (set_kernel default_config (lit "/boot/vmlinuz")).
Proof.
  assert (H : ini_config (set_kernel default_config (lit "/boot/vmlinuz"))).
  { repeat split; first [by apply no_newline_forallb | lia | by vm_compute]. }
  split; [exact H|]. apply (ini_roundtrip (set_kernel default_config (lit "/boot/vmlinuz")) default_config H).
Defined.

(** ** Well-formed configurations *)

(** Every string, with its NUL, lies within its array. *)
Definition config_wf (c : BOOT_CONFIG) : Prop :=
  zlen (default_entry c) < default_entry_size /\ zlen (kernel c) < kernel_size /\
  zlen (initrd c) < initrd_size /\ zlen (cmdline c) < cmdline_size /\
  zlen (font_path c) < font_path_size /\ zlen (language c) < language_size.

Lemma cpy_fits dst size s : zlen dst < size -> zlen (AsciiStrCpyS dst size s) < size.
Proof. unfold AsciiStrCpyS. by destruct (Z.ltb_spec (zlen s) size). Qed.

(** Closes [config_wf] of a configuration built with the setters. *)
Ltac wf_setters :=
  unfold config_wf in *;
  cbn [set_default_entry set_menu_timeout set_kernel set_initrd set_cmdline set_tpm_enabled
       set_secure_boot set_use_gui set_language default_entry kernel initrd cmdline font_path
       language] in *;
  intuition auto using cpy_fits.

Lemma ini_key_wf section k v c : config_wf c -> config_wf (ini_key section k v c).
Proof.
  intros Hc. unfold ini_key, ini_boot_key, ini_linux_key. repeat case_match; wf_setters.
Qed.

Lemma ini_line_wf section c line : config_wf c -> config_wf (snd (ini_line section c line)).
Proof.
  intros Hc. unfold ini_line. destruct (trim_ascii line) as [|x l]; [done|].
  destruct ((x =? 35) || (x =? 59)); [done|].
  destruct (x =? 91); [by destruct (split_at 93 (x :: l)) as [[? ?]|]|].
  destruct (split_at 61 (x :: l)) as [[k v]|]; [|done]. by apply ini_key_wf.
Qed.

Lemma next_line_length x cur line rest :
  next_line (x :: cur) = (line, rest) -> (length rest <= length cur)%nat.
Proof.
  unfold next_line. destruct (split_at 10 (x :: cur)) as [[l r]|] eqn:E.
  - intros [= <- <-]. apply split_at_length in E. cbn [length] in E. lia.
  - intros [= _ <-]. cbn. lia.
Qed.

Lemma ini_loop_total alloc fuel : forall n section cur c,
  (length cur <= fuel)%nat -> config_wf c ->
  exists c', ini_loop alloc fuel n section cur c = Ret c' /\ config_wf c'.
Proof.
  induction fuel as [|fuel IH]; intros n section cur c Hf Hc; destruct cur as [|x cur];
    [by exists c|cbn in Hf; lia|by exists c|]. cbn [ini_loop].
  destruct (next_line (x :: cur)) as [line rest] eqn:E. apply next_line_length in E.
  destruct (alloc n); cbn [negb]; [|by exists c].
  pose proof (ini_line_wf section c line Hc) as Hw.
  destruct (ini_line section c line) as [section' c']. apply IH; [|done]. cbn in Hf. lia.
Qed.

(** *** JSON *)

Fixpoint digit_run s : nat :=
  match s with c :: s' => if is_digit c then S (digit_run s') else O | [] => O end.

(** No more than 18 digits in a row: an [INTN] holds any such number. *)
Fixpoint short_runs s : bool :=
  (digit_run s <=? 18)%nat && match s with _ :: s' => short_runs s' | [] => true end.

Lemma short_runs_suffix s t : t `suffix_of` s -> short_runs s = true -> short_runs t = true.
Proof.
  intros [a ->]. induction a as [|x a IH]; [done|]. cbn [app short_runs].
  intros [_ H]%andb_prop. by apply IH.
Qed.

Lemma strstr_suffix s pat t : AsciiStrStr s pat = Some t -> t `suffix_of` s.
Proof.
  induction s as [|x s IH]; cbn [AsciiStrStr].
  - destruct (prefix_of pat []); [by intros [= <-]|done].
  - destruct (prefix_of pat (x :: s)); [by intros [= <-]|]. intros H. by apply suffix_cons_r, IH.
Qed.

Lemma drop_while_suffix p s : drop_while p s `suffix_of` s.
Proof.
  induction s as [|x s IH]; [done|]. cbn [drop_while]. destruct (p x); [|done]. by apply suffix_cons_r.
Qed.

Lemma json_value_suffix js key p : json_value js key = Some p -> p `suffix_of` js.
Proof.
  unfold json_value. destruct (AsciiStrStr js key) as [q|] eqn:E1; [|done].
  destruct (AsciiStrStr q (lit ":")) as [r|] eqn:E2; [|done]. intros [= <-].
  apply strstr_suffix in E1, E2. etrans; [apply drop_while_suffix|].
  etrans; [|by etrans]. destruct r as [|y r]; [done|]. by apply suffix_cons_r.
Qed.

Lemma int_loop_total p : forall val (k : nat), 0 <= val < 10 ^ Z.of_nat k ->
  (k + digit_run p <= 18)%nat -> exists v, int_loop val p = Ret v.
Proof.
  induction p as [|c p IH]; intros val k Hv Hk; [by exists val|].
  cbn [int_loop digit_run] in *. destruct (is_digit c) eqn:Ec; [|by exists val].
  unfold is_digit in Ec. apply andb_prop in Ec as [E1%Z.leb_le E2%Z.leb_le].
  assert (Hp : val * 10 + (c - 48) < 10 ^ Z.of_nat (S k)).
  { rewrite Nat2Z.inj_succ, Z.pow_succ_r by lia. lia. }
  assert (10 ^ Z.of_nat (S k) <= 10 ^ 18) by (apply Z.pow_le_mono_r; lia).
  destruct (Z.leb_spec (2 ^ 63) (val * 10 + (c - 48))); [lia|].
  apply (IH _ (S k)); [lia|]. lia.
Qed.

Lemma find_int_total js key dst : short_runs js = true -> exists v, find_int js key dst = Ret v.
Proof.
  intros Hs. unfold find_int. destruct (json_value js key) as [p|] eqn:E; [|by exists dst].
  apply json_value_suffix in E. apply (short_runs_suffix _ _ E) in Hs.
  destruct (int_loop_total p 0 0) as [v ->]; [lia| |bind_step; by exists (s32 v)].
  destruct p as [|x p]; [cbn; lia|]. cbn [short_runs] in Hs.
  apply andb_prop in Hs as [Hs%Nat.leb_le _]. exact Hs.
Qed.

Lemma find_str_fits js key dst size : zlen dst < size -> zlen (find_str js key dst size) < size.
Proof. intros. unfold find_str. repeat case_match; auto using cpy_fits. Qed.

Lemma json_total js c : short_runs js = true -> config_wf c ->
  exists c', ApplyJsonToConfig js c = Ret c' /\ config_wf c'.
Proof.
  intros Hs Hc. unfold ApplyJsonToConfig.
  match goal with |- context [find_int js ?k ?d] => destruct (find_int_total js k d Hs) as [v ->] end.
  bind_step. eexists; split; [reflexivity|]. pose proof find_str_fits. wf_setters.
Qed.

(** *** UEFI variables *)

(** The UTF-16LE text of the characters [(low byte, high byte)]. *)
Definition utf16 (cs : list (Z * Z)) : bytes := concat (List.map (fun p => [fst p; snd p]) cs).

(** [GetVariable] returns no more than the size it announced. *)
Definition var_ok (v : efi_var) : Prop := zlen (v_data v) <= v_size v.
(** A NUL character in the buffer, at an even offset. *)
Definition nul_at (w : bytes) : Prop :=
  exists i, 0 <= i /\ 2 * i + 1 < zlen w /\ zget w (2 * i) = 0 /\ zget w (2 * i + 1) = 0.

(** The conversion stays inside the buffer: [GetVariable] succeeds only with a
    buffer (the zeroed one, with the data at its start) that has a NUL character or
    at least 256 characters.  Nothing guarantees this, since a variable may hold
    anything. *)
Definition str_var_ok (v : efi_var) : Prop :=
  forall w, get_var v = Ret (Some w) -> 512 <= zlen w \/ nul_at w.

Lemma nul_at_cons lo hi w : nul_at (lo :: hi :: w) <-> (lo = 0 /\ hi = 0) \/ nul_at w.
Proof.
  assert (Hz : forall k, 0 <= k -> zget (lo :: hi :: w) (2 + k) = zget w k).
  { intros k Hk. unfold zget. rewrite Z2Nat.inj_add by lia. reflexivity. }
  unfold nul_at, zlen. cbn [length]. split.
  - intros (i & Hi & Hl & H1 & H2). destruct (decide (i = 0)) as [->|Hne]; [by left|right].
    exists (i - 1). rewrite <- !Hz by lia. split_and!; try lia.
    + rewrite <- H1. f_equal. lia. + rewrite <- H2. f_equal. lia.
  - intros [[-> ->]|(i & Hi & Hl & H1 & H2)]; [exists 0; split_and!; by (lia || reflexivity)|].
    exists (i + 1). split_and!; try lia.
    + rewrite <- H1, <- Hz by lia. f_equal. lia. + rewrite <- H2, <- Hz by lia. f_equal. lia.
Qed.

(** The conversion of [room] characters: it ends, or leaves the buffer. *)
Lemma unicode_read room : forall w,
  (2 * Z.of_nat room <= zlen w \/ nul_at w -> exists r, unicode_to_ascii room w = Ret r) /\
  (~ (2 * Z.of_nat room <= zlen w \/ nul_at w) -> unicode_to_ascii room w = UB).
Proof.
  induction room as [|room IH]; intros w.
  { split; [by exists None|]. intros H. exfalso. apply H. left. pose proof (zlen_nonneg w). lia. }
  destruct w as [|lo [|hi w]]; cbn [unicode_to_ascii].
  1,2: split; [|done]; intros [H|(i & Hi & Hl & _)]; unfold zlen in *; cbn [length] in *; lia.
  destruct (IH w) as [IH1 IH2]. rewrite nul_at_cons.
  assert (Hl : zlen (lo :: hi :: w) = zlen w + 2) by (unfold zlen; cbn [length]; lia). rewrite Hl.
  destruct (Z.eqb_spec lo 0) as [E1|E1], (Z.eqb_spec hi 0) as [E2|E2]; cbn [andb].
  { split; [by eexists|]. intros H. exfalso. apply H. tauto. }
  all: split; [intros H; destruct IH1 as [r ->]; [|bind_step; by eexists]; destruct H as [H|[[? ?]|H]]; [left; lia|done|by right]
    |intros H; rewrite IH2; [done|]; intros [H'|H']; apply H; [left; lia|tauto]].
Qed.

Lemma get_var_total v : var_ok v -> exists b, get_var v = Ret b /\
  (forall w, b = Some w -> v_probe v = EFI_BUFFER_TOO_SMALL /\
             w = v_data v ++ zeros (v_size v - zlen (v_data v))).
Proof.
  intros Hv. unfold var_ok in Hv. unfold get_var.
  destruct (Z.eqb_spec (v_probe v) EFI_BUFFER_TOO_SMALL); cbn [negb]; [|by eexists].
  destruct (v_alloc v); cbn [negb]; [|by eexists].
  destruct (EFI_ERROR (v_status v)); [by eexists|].
  destruct (Z.ltb_spec (v_size v) (zlen (v_data v))); [lia|].
  eexists; split; [reflexivity|]. by intros w [= <-].
Qed.

Lemma env_str_total v dst size : var_ok v -> str_var_ok v -> zlen dst < size ->
  exists r, env_str v dst size = Ret r /\ zlen r < size.
Proof.
  intros Hv Hs Hd. unfold env_str. destruct (get_var_total v Hv) as (b & E & Hb). rewrite E. bind_step.
  destruct b as [w|]; [|by exists dst]. destruct (proj1 (unicode_read 256 w) (Hs w E)) as [r ->].
  bind_step. eexists; split; [reflexivity|]. by apply cpy_fits.
Qed.

Lemma env_int_total v dst : var_ok v -> exists r, env_int v dst = Ret r.
Proof.
  intros Hv. unfold env_int. destruct (get_var_total v Hv) as (b & -> & _). bind_step.
  destruct b; eauto.
Qed.

Lemma env_bool_total v dst : var_ok v -> exists r, env_bool v dst = Ret r.
Proof.
  intros Hv. unfold env_bool. destruct (get_var_total v Hv) as (b & -> & _). bind_step.
  destruct b; eauto.
Qed.

(** The variables that are read as strings. *)
Definition string_vars : list string :=
  ["BLOODHORN_DEFAULT"; "BLOODHORN_LANGUAGE"; "BLOODHORN_LINUX_KERNEL"; "BLOODHORN_LINUX_INITRD";
   "BLOODHORN_LINUX_CMDLINE"]%string.

(** [GetVariable] as it is documented, and string variables that are terminated. *)
Definition vars_ok (vars : string -> efi_var) : Prop :=
  (forall n, var_ok (vars n)) /\ Forall (fun n => str_var_ok (vars n)) string_vars.

Lemma env_total vars c : vars_ok vars -> config_wf c ->
  exists c', ApplyUefiEnvOverrides vars c = Ret c' /\ config_wf c'.
Proof.
  intros [Hv Hs] Hc. repeat (apply Forall_cons in Hs as [? Hs]). unfold ApplyUefiEnvOverrides.
  repeat lazymatch goal with
  | |- exists _, mbind _ (env_str ?v ?d ?n) = _ /\ _ =>
      destruct (env_str_total v d n) as (? & -> & ?); [apply Hv|assumption|wf_setters|]; bind_step
  | |- exists _, mbind _ (env_int ?v ?d) = _ /\ _ =>
      destruct (env_int_total v d) as (? & ->); [apply Hv|]; bind_step
  | |- exists _, mbind _ (env_bool ?v ?d) = _ /\ _ =>
      destruct (env_bool_total v d) as (? & ->); [apply Hv|]; bind_step
  end.
  eexists; split; [reflexivity|]. wf_setters.
Qed.

(** A string variable that is not terminated is read past the end of its buffer. *)
Lemma unicode_ends room : forall w, unicode_to_ascii room w = UB \/ exists r, unicode_to_ascii room w = Ret r.
Proof.
  induction room as [|room IH]; intros w; [by right; eexists|].
  destruct w as [|lo [|hi w]]; [by left..|]. cbn [unicode_to_ascii]. destruct (_ && _); [by right; eexists|].
  destruct (IH w) as [->|[r ->]]; [by left|]. right. bind_step. by eexists.
Qed.

Lemma env_str_ends v dst size : var_ok v -> env_str v dst size = UB \/ exists r, env_str v dst size = Ret r.
Proof.
  intros Hv. unfold env_str. destruct (get_var_total v Hv) as (b & -> & _). bind_step.
  destruct b as [w|]; [|by right; exists dst].
  destruct (unicode_ends 256 w) as [->|[r ->]]; [by left|]. right. bind_step. by eexists.
Qed.

Lemma env_str_overrun v dst size : ~ str_var_ok v -> env_str v dst size = UB.
Proof.
  intros H. unfold env_str. destruct (get_var v) as [[w|]| |] eqn:E; try reflexivity.
  - bind_step. rewrite (proj2 (unicode_read 256 w)); [reflexivity|]. intros Hw. apply H. intros w' E'.
    rewrite E in E'. by injection E' as <-.
  - exfalso. apply H. intros w E'. congruence.
  - exfalso. apply H. intros w E'. congruence.
Qed.

Lemma env_overrun vars c name : (forall n, var_ok (vars n)) -> In name string_vars ->
  ~ str_var_ok (vars name) -> ApplyUefiEnvOverrides vars c = UB.
Proof.
  intros Hv Hin Hbad. unfold ApplyUefiEnvOverrides.
  cbn [string_vars In] in Hin. destruct_or! Hin; try done; subst name;
  repeat lazymatch goal with
  | |- mbind _ (env_str ?v ?d ?n) = UB =>
      first [rewrite (env_str_overrun v d n Hbad); reflexivity
            | destruct (env_str_ends v d n (Hv _)) as [->|[? ->]]; [reflexivity|]; rewrite run_bind_ret; cbv beta zeta]
  | |- mbind _ (env_int ?v ?d) = UB =>
      destruct (env_int_total v d) as (? & ->); [apply Hv|]; rewrite run_bind_ret; cbv beta zeta
  end.
Qed.

(** *** Files *)

(** An opened file whose first [GetInfo] reports an error (it is called without
    a buffer) and whose [Read] returns no more than the file's size. *)
Definition file_ok (r : Z + efi_file) : Prop :=
  match r with
  | inl _ => True
  | inr f => EFI_ERROR (f_info_probe f) = true /\ zlen (f_data f) <= f_size f
  end.
Definition json_ok (r : Z + efi_file) : Prop :=
  match r with inl _ => True | inr f => short_runs (c_string (f_data f)) = true end.

Definition root_ok (root : Z + efi_dir) : Prop :=
  match root with
  | inl _ => True
  | inr dir => file_ok (dir "bloodhorn.ini"%string) /\ file_ok (dir "bloodhorn.json"%string) /\
               json_ok (dir "bloodhorn.json"%string)
  end.

Lemma read_file_total root path : file_ok (root path) ->
  exists r, ReadWholeFileAscii root path = Ret r /\
    (forall st buf, r = (st, Some buf) -> exists f, root path = inr f /\ buf = f_data f).
Proof.
  unfold ReadWholeFileAscii. destruct (root path) as [st|f]; cbn [file_ok].
  { intros _. eexists; split; [reflexivity|]. by intros ? ? [=]. }
  intros [Hp Hs]. rewrite Hp.
  destruct (Z.ltb_spec (f_size f) (zlen (f_data f))); [lia|].
  repeat (match goal with |- context [if ?b then _ else _] => destruct b end;
    try (eexists; split; [reflexivity|]; by intros ? ? [=])).
  eexists; split; [reflexivity|]. intros ? ? [= <- <-]. by exists f.
Qed.

(** A file is applied when [apply] is total on what it holds. *)
Lemma apply_file_total r apply c :
  config_wf c ->
  (forall st buf, r = (st, Some buf) -> exists c', apply (c_string buf) c = Ret c' /\ config_wf c') ->
  exists c', apply_file r apply c = Ret c' /\ config_wf c'.
Proof.
  intros Hc Ha. unfold apply_file. destruct r as [st [buf|]]; [|by exists c].
  destruct (negb (EFI_ERROR st) && (0 <? zlen buf)); [by apply (Ha st buf)|by exists c].
Qed.

(** The configuration before the UEFI variables and the clamp. *)
Lemma load_files_total dir alloc : root_ok (inr dir) -> exists c,
  (r ← ReadWholeFileAscii dir "bloodhorn.ini"%string;
   c ← apply_file r (ApplyIniToConfig alloc) default_config;
   r ← ReadWholeFileAscii dir "bloodhorn.json"%string;
   apply_file r ApplyJsonToConfig c) = Ret c /\ config_wf c.
Proof.
  intros (Hi & Hj & Hjs).
  destruct (read_file_total dir "bloodhorn.ini" Hi) as (r & -> & _). bind_step.
  destruct (apply_file_total r (ApplyIniToConfig alloc) default_config) as (c & -> & Hc).
  { by vm_compute. }
  { intros st buf _. apply ini_loop_total; [done|by vm_compute]. }
  bind_step. destruct (read_file_total dir "bloodhorn.json" Hj) as (r' & -> & Hr'). bind_step.
  apply apply_file_total; [done|]. intros st buf Hb. destruct (Hr' st buf Hb) as (f & Ef & ->).
  apply json_total; [|done]. by rewrite Ef in Hjs.
Qed.

Lemma load_config_inr dir alloc vars c c' :
  (r ← ReadWholeFileAscii dir "bloodhorn.ini"%string;
   c ← apply_file r (ApplyIniToConfig alloc) default_config;
   r ← ReadWholeFileAscii dir "bloodhorn.json"%string;
   apply_file r ApplyJsonToConfig c) = Ret c ->
  ApplyUefiEnvOverrides vars c = Ret c' ->
  LoadBootConfig (inr dir) alloc vars = Ret (EFI_SUCCESS, clamp_timeout c').
Proof.
  intros H1 H2. revert H1. unfold LoadBootConfig. cbv zeta.
  destruct (ReadWholeFileAscii dir "bloodhorn.ini") as [r| |]; [|done..]. rewrite !run_bind_ret.
  destruct (apply_file r (ApplyIniToConfig alloc) default_config) as [c1| |]; [|done..].
  rewrite !run_bind_ret.
  destruct (ReadWholeFileAscii dir "bloodhorn.json") as [r2| |]; [|done..].
  rewrite !run_bind_ret. intros ->. by rewrite run_bind_ret, H2.
Qed.

Lemma load_config_env dir alloc vars c :
  (r ← ReadWholeFileAscii dir "bloodhorn.ini"%string;
   c ← apply_file r (ApplyIniToConfig alloc) default_config;
   r ← ReadWholeFileAscii dir "bloodhorn.json"%string;
   apply_file r ApplyJsonToConfig c) = Ret c ->
  ApplyUefiEnvOverrides vars c = UB -> LoadBootConfig (inr dir) alloc vars = UB.
Proof.
  intros H1 H2. revert H1. unfold LoadBootConfig. cbv zeta.
  destruct (ReadWholeFileAscii dir "bloodhorn.ini") as [r| |]; [|done..]. rewrite !run_bind_ret.
  destruct (apply_file r (ApplyIniToConfig alloc) default_config) as [c1| |]; [|done..].
  rewrite !run_bind_ret.
  destruct (ReadWholeFileAscii dir "bloodhorn.json") as [r2| |]; [|done..].
  rewrite !run_bind_ret. intros ->. by rewrite run_bind_ret, H2.
Qed.

Lemma clamp_timeout_wf c : config_wf c ->
  config_wf (clamp_timeout c) /\ 0 <= menu_timeout (clamp_timeout c) <= 300.
Proof.
  intros Hc. unfold clamp_timeout. destruct (Z.ltb_spec (menu_timeout c) 0).
  - cbn. split; [wf_setters|lia].
  - destruct (Z.ltb_spec 300 (menu_timeout c)); cbn; split; [wf_setters|lia|done|lia].
Qed.

Lemma load_config_ret root alloc vars :
  root_ok root -> vars_ok vars -> exists c, LoadBootConfig root alloc vars = Ret (EFI_SUCCESS, c).
Proof.
  intros Hr Hv. destruct root as [st|dir]; [by eexists|].
  destruct (load_files_total dir alloc Hr) as (c & H1 & Hc).
  destruct (env_total vars c Hv Hc) as (c' & H2 & _). eexists. by eapply load_config_inr.
Qed.

(** C13. Loading the configuration: for every file system that answers as specified,
    every allocation failure, every bloodhorn.ini whatsoever, every bloodhorn.json
    without more than 18 digits in a row, and variables that are not larger than
    [GetVariable] announces: when each of the five string variables has a NUL
    character in its buffer (or 256 characters or more), or cannot be read,
    [LoadBootConfig] ends, returns [EFI_SUCCESS], leaves every string
    NUL-terminated within its array, and a menu timeout of 0 to 300 seconds; and
    when one of them has not, which nothing checks, and the volume opens, its
    conversion reads past the buffer. *)
Theorem load_config_total root alloc vars :
  root_ok root -> (forall n, var_ok (vars n)) ->
  ((forall n, In n string_vars -> str_var_ok (vars n)) ->
   exists c, LoadBootConfig root alloc vars = Ret (EFI_SUCCESS, c) /\
     config_wf c /\ 0 <= menu_timeout c <= 300) /\
  (forall n dir, In n string_vars -> ~ str_var_ok (vars n) -> root = inr dir ->
   LoadBootConfig root alloc vars = UB).
Proof.
  intros Hr Hv. destruct root as [st|dir].
  { split; [|by intros ? ? _ _ [=]]. intros _. eexists; split; [reflexivity|]. by vm_compute. }
  destruct (load_files_total dir alloc Hr) as (c & H1 & Hc). split.
  - intros Hs. destruct (env_total vars c) as (c' & H2 & Hc'); [|done|].
    { split; [done|]. apply List.Forall_forall. exact Hs. }
    exists (clamp_timeout c'). split; [by eapply load_config_inr|]. by apply clamp_timeout_wf.
  - intros n dir' Hin Hbad _. apply (load_config_env dir alloc vars c H1). by eapply env_overrun.
Qed.

(** A firmware with one file and one variable, used by the witnesses. *)
Definition sample_file (data : bytes) : efi_file :=
  mk_file EFI_BUFFER_TOO_SMALL true EFI_SUCCESS (zlen data) true EFI_SUCCESS data.
Definition sample_dir : efi_dir := fun path =>
  if String.eqb path "bloodhorn.json" then
    inr (sample_file (quoted "menu_timeout" ++ lit ": 900"))
  else inl EFI_NOT_FOUND.
Definition text_var s : efi_var :=
  let data := utf16 (List.map (fun c => (c, 0)) s) ++ [0; 0] in
  mk_var EFI_BUFFER_TOO_SMALL (zlen data) true EFI_SUCCESS data.
Definition no_var : efi_var := mk_var EFI_NOT_FOUND 0 true EFI_NOT_FOUND [].
Definition sample_vars : string -> efi_var := fun n =>
  if String.eqb n "BLOODHORN_LINUX_KERNEL" then text_var (lit "vmlinuz") else no_var.

Lemma sample_vars_ok : vars_ok sample_vars.
Proof.
  split.
  - intros n. unfold sample_vars, var_ok. by destruct (String.eqb n "BLOODHORN_LINUX_KERNEL").
  - repeat (apply Forall_cons; split); try apply Forall_nil_2; intros w E; vm_compute in E; try done.
    injection E as <-. right. exists 7. split_and!; by (lia || vm_compute).
Defined.

(** The same machine, whose variable is two bytes that are not a NUL character. *)
Definition broken_vars : string -> efi_var := fun n =>
  if String.eqb n "BLOODHORN_LINUX_KERNEL" then mk_var EFI_BUFFER_TOO_SMALL 2 true EFI_SUCCESS [118; 0] else no_var.

Lemma load_config_total_witness :
  (exists c, LoadBootConfig (inr sample_dir) (fun _ => true) sample_vars = Ret (EFI_SUCCESS, c) /\
    config_wf c /\ 0 <= menu_timeout c <= 300) /\
  LoadBootConfig (inr sample_dir) (fun _ => true) broken_vars = UB.
Proof.
  split.
  - apply (load_config_total (inr sample_dir) (fun _ => true) sample_vars); [by vm_compute|apply sample_vars_ok|].
    apply List.Forall_forall. apply sample_vars_ok.
  - apply (load_config_total (inr sample_dir) (fun _ => true) broken_vars) with "BLOODHORN_LINUX_KERNEL"%string sample_dir.
    + by vm_compute.
    + intros n. unfold broken_vars. by destruct (String.eqb n "BLOODHORN_LINUX_KERNEL").
    + right; right; left. reflexivity.
    + intros H. destruct (H [118; 0] eq_refl) as [H'|(i & Hi & Hl & H1 & _)]; [by vm_compute in H'|].
      change (zlen [118; 0]) with 2 in Hl. assert (i = 0) as -> by lia. by vm_compute in H1.
    + reflexivity.
Defined.

(** The variable exists and holds the ASCII text [s]. *)
Definition holds_text (v : efi_var) s : Prop :=
  v_probe v = EFI_BUFFER_TOO_SMALL /\ v_alloc v = true /\ EFI_ERROR (v_status v) = false /\
  v_data v = utf16 (List.map (fun c => (c, 0)) s) ++ [0; 0] /\ zlen (v_data v) <= v_size v /\
  Forall (fun c => c <> 0) s /\ zlen s < 256.

Lemma unicode_text s z : forall room, Forall (fun c => c <> 0) s -> (length s < room)%nat ->
  unicode_to_ascii room (utf16 (List.map (fun c => (c, 0)) s) ++ 0 :: 0 :: z) = Ret (Some s).
Proof.
  induction s as [|x s IH]; intros room Hf Hr; destruct room as [|room]; cbn [length] in Hr;
    [lia|done|lia|]. apply Forall_cons in Hf as [Hx Hf].
  change (utf16 (List.map (fun c => (c, 0)) (x :: s))) with
    (x :: 0 :: utf16 (List.map (fun c => (c, 0)) s)). cbn [app unicode_to_ascii].
  destruct (Z.eqb_spec x 0); [done|]. cbn [andb]. rewrite IH by (done || lia). done.
Qed.

Lemma c_string_id s : Forall (fun c => c <> 0) s -> c_string s = s.
Proof.
  induction 1 as [|x s Hx Hs IH]; [done|]. cbn [c_string].
  destruct (Z.eqb_spec x 0); [done|]. by rewrite IH.
Qed.

Lemma env_str_text v s dst size : holds_text v s -> zlen s < size -> env_str v dst size = Ret s.
Proof.
  intros (Hp & Ha & Hst & Hd & Hsz & Hf & Hl) Hs. unfold env_str, get_var.
  rewrite Hp, Ha, Hst, Z.eqb_refl. cbn [negb].
  destruct (Z.ltb_spec (v_size v) (zlen (v_data v))); [lia|]. bind_step.
  generalize (v_size v - zlen (v_data v)). intros n. rewrite Hd, <- app_assoc. cbn [app].
  rewrite unicode_text; [|done|unfold zlen in Hl; lia]. bind_step. cbn [default from_option].
  unfold id. rewrite c_string_id by done. by rewrite cpy_value.
Qed.

(** The string variables, the fields they set and the fields' sizes. *)
Definition env_strings : list (string * (BOOT_CONFIG -> bytes) * Z) :=
  [("BLOODHORN_DEFAULT"%string, default_entry, default_entry_size);
   ("BLOODHORN_LANGUAGE"%string, language, language_size);
   ("BLOODHORN_LINUX_KERNEL"%string, kernel, kernel_size);
   ("BLOODHORN_LINUX_INITRD"%string, initrd, initrd_size);
   ("BLOODHORN_LINUX_CMDLINE"%string, cmdline, cmdline_size)].

Lemma clamp_timeout_fields c name field size :
  In (name, field, size) env_strings -> field (clamp_timeout c) = field c.
Proof.
  intros Hin. unfold clamp_timeout. cbn [In env_strings] in Hin.
  destruct (menu_timeout c <? 0); [|destruct (300 <? menu_timeout c)];
    destruct_or! Hin; try done; by injection Hin as <- <- <-.
Qed.

Lemma env_sets_field vars c c' name field size s :
  In (name, field, size) env_strings -> holds_text (vars name) s -> zlen s < size ->
  ApplyUefiEnvOverrides vars c = Ret c' -> field c' = s.
Proof.
  intros Hin Ht Hs. unfold ApplyUefiEnvOverrides. cbn [In env_strings] in Hin.
  destruct_or! Hin; try done; injection Hin as <- <- <-;
  repeat lazymatch goal with
  | |- mbind _ ?call = _ -> _ =>
      first [rewrite (env_str_text _ s) by assumption | destruct call as [?| |]; [|done..]];
      rewrite run_bind_ret
  end; intros [= <-]; reflexivity.
Qed.

(** UEFI variables have the last word: whatever the defaults, the INI and
    the JSON file say, a string variable that exists and fits its field decides
    the final value of the field, for the default entry, the language, the
    kernel, the initrd and the command line. *)
Theorem env_override dir alloc vars name field size s :
  root_ok (inr dir) -> vars_ok vars -> In (name, field, size) env_strings ->
  holds_text (vars name) s -> zlen s < size ->
  exists c, LoadBootConfig (inr dir) alloc vars = Ret (EFI_SUCCESS, c) /\ field c = s.
Proof.
  intros Hr Hv Hin Ht Hs. destruct (load_files_total dir alloc Hr) as (c & H1 & Hc).
  destruct (env_total vars c Hv Hc) as (c' & H2 & _).
  exists (clamp_timeout c'). split; [by eapply load_config_inr|].
  rewrite (clamp_timeout_fields c' name field size Hin). by eapply env_sets_field.
Qed.

Lemma env_override_witness :
  exists c, LoadBootConfig (inr sample_dir) (fun _ => true) sample_vars = Ret (EFI_SUCCESS, c) /\
    kernel c = lit "vmlinuz".
Proof.
  apply (env_override sample_dir (fun _ => true) sample_vars "BLOODHORN_LINUX_KERNEL" kernel
           kernel_size (lit "vmlinuz")).
  - by vm_compute.
  - apply sample_vars_ok.
  - right; right; left. reflexivity.
  - repeat split; try (by vm_compute). repeat constructor; by vm_compute.
  - by vm_compute.
Defined.

(** A timeout of [2 ^ 31] seconds or more in the INI file becomes a negative
    [int] and is clamped to 0, the value that shows the menu at once, not to 300. *)
Example huge_timeout_is_zero :
  menu_timeout (clamp_timeout (ini_key (lit "boot") (lit "menu_timeout") (lit "2147483648")
    default_config)) = 0.
Proof. reflexivity. Qed.
