(* ===== verification/Menu.v ===== *)
(** * The boot menu (src/boot/menu.c)

    Entries and hotkeys, and the loop of [ShowBootMenu] as a step function on
    the menu's global state: one iteration consumes what the mouse, the event
    wait and the keyboard report.  Drawing has no effect on this state; it is in
    [MenuUi.v], with the mouse and the localisation file.  [towlower] is the C library's,
    whose behaviour outside ASCII depends on the locale: a parameter. *)

From S2P Require Import Prelude.

Definition MAX_BOOT_ENTRIES : Z := 128.
Definition MAX_ENTRY_LENGTH : Z := 64.
Definition VISIBLE_MENU_ENTRIES : Z := 10.
Definition EFI_ABORTED : Z := 2 ^ 63 + 21.

(** Unicode characters and scan codes of [EFI_INPUT_KEY]. *)
Definition CHAR_CARRIAGE_RETURN : Z := 13.
Definition SCAN_UP : Z := 1.
Definition SCAN_DOWN : Z := 2.
Definition SCAN_ESC : Z := 23.

(** A boot function is named by a number; [None] is NULL. *)
Record BOOT_MENU_ENTRY := mk_entry { entry_name : bytes; BootFunction : option Z }.

(** The globals: the first [BootEntryCount] elements of [BootEntries], the
    selection, the scroll offset and the 128 hotkeys. *)
Record menu := mk_menu {
  BootEntries : list BOOT_MENU_ENTRY;
  SelectedEntry : Z;
  MenuScrollOffset : Z;
  BootEntryHotkeys : bytes }.

Definition initial_menu : menu := mk_menu [] 0 0 (zeros MAX_BOOT_ENTRIES).

Definition BootEntryCount (m : menu) : Z := zlen (BootEntries m).

(** [StrnCpyS] with 63 characters into 64: a longer name is cut. *)
Definition AddBootEntry (m : menu) (Name : bytes) (f : option Z) : Z * menu :=
  if MAX_BOOT_ENTRIES <=? BootEntryCount m then (EFI_OUT_OF_RESOURCES, m)
  else (EFI_SUCCESS,
        mk_menu (BootEntries m ++ [mk_entry (take (Z.to_nat (MAX_ENTRY_LENGTH - 1)) Name) f])
          (SelectedEntry m) (MenuScrollOffset m) (BootEntryHotkeys m)).

(** What one iteration of the loop sees. *)
Record input := mk_input {
  in_hres : Z;             (* horizontal resolution *)
  in_mouse_x : Z; in_mouse_y : Z; in_left_button : bool;
  in_wait : Z;             (* WaitForEvent *)
  in_read : Z;             (* ReadKeyStroke *)
  in_char : Z; in_scan : Z }.

(** How the menu ends: a boot function is called, or a status is returned. *)
Inductive outcome := Boot (f : Z) | Return (status : Z).

Section Menu.
Context (towlower : Z -> Z).

(** The first character of a name whose lower case is printable ASCII and not
    taken. *)
Fixpoint pick_hotkey (used : list Z) (name : bytes) : option Z :=
  match name with
  | [] => None
  | x :: name' =>
      let c := towlower x in
      if (32 <=? c) && (c <? 128) && negb (bool_decide (c ∈ used)) then Some c
      else pick_hotkey used name'
  end.

Fixpoint assign_loop (used : list Z) (es : list BOOT_MENU_ENTRY) (i : Z) (keys : bytes) : bytes :=
  match es with
  | [] => keys
  | e :: es' =>
      match pick_hotkey used (entry_name e) with
      | Some c => assign_loop (c :: used) es' (i + 1) (zset keys i c)
      | None => assign_loop used es' (i + 1) keys
      end
  end.

Definition AssignHotkeys (m : menu) : menu :=
  mk_menu (BootEntries m) (SelectedEntry m) (MenuScrollOffset m)
          (assign_loop [] (BootEntries m) 0 (BootEntryHotkeys m)).

Definition select (m : menu) (i : Z) : menu :=
  mk_menu (BootEntries m) i (MenuScrollOffset m) (BootEntryHotkeys m).
Definition select_scroll (m : menu) (i off : Z) : menu :=
  mk_menu (BootEntries m) i off (BootEntryHotkeys m).

(** Enter or a click: [BootEntries[SelectedEntry]] must be an entry. *)
Definition boot_selected (m : menu) : run outcome :=
  match BootEntries m !! Z.to_nat (SelectedEntry m) with
  | Some e => if SelectedEntry m <? 0 then UB
              else mret (match BootFunction e with Some f => Boot f | None => Return EFI_SUCCESS end)
  | None => UB
  end.

(** The pointer is over the [k]-th visible entry. *)
Definition mouse_over (inp : input) (k : Z) : bool :=
  let MenuX := in_hres inp ÷ 4 in
  let MenuWidth := in_hres inp ÷ 2 in
  let TextX := MenuX + 20 in
  let entryY := 100 + 20 + k * 50 in
  (TextX <=? in_mouse_x inp) && (in_mouse_x inp <? TextX + MenuWidth - 40)
  && (entryY <=? in_mouse_y inp) && (in_mouse_y inp <? entryY + 40).

(** The mouse loop over the visible entries [i] (the [k]-th visible one). *)
Fixpoint mouse_loop (inp : input) (m : menu) (k : Z) (n : nat) : run (menu * option outcome) :=
  match n with
  | O => mret (m, None)
  | S n' =>
      let i := MenuScrollOffset m + k in
      if i <? BootEntryCount m then
        if mouse_over inp k then
          let m := select m i in
          if in_left_button inp then r ← boot_selected m; mret (m, Some r)
          else mouse_loop inp m (k + 1) n'
        else mouse_loop inp m (k + 1) n'
      else mret (m, None)
  end.

(** The first entry with that hotkey. *)
Fixpoint find_hotkey (keys : bytes) (count : nat) (c i : Z) : option Z :=
  match count, keys with
  | S count', k :: keys' => if k =? c then Some i else find_hotkey keys' count' c (i + 1)
  | _, _ => None
  end.

Definition hotkey (m : menu) (ch : Z) : menu :=
  if ch =? 0 then m
  else match find_hotkey (BootEntryHotkeys m) (length (BootEntries m)) (towlower ch) 0 with
       | Some i => select m i
       | None => m
       end.

Definition key_up (m : menu) : menu :=
  let count := BootEntryCount m in
  if 0 <? SelectedEntry m then
    let s := SelectedEntry m - 1 in
    select_scroll m s (if s <? MenuScrollOffset m then MenuScrollOffset m - 1 else MenuScrollOffset m)
  else select_scroll m (count - 1)
         (if VISIBLE_MENU_ENTRIES <? count then count - VISIBLE_MENU_ENTRIES else 0).

Definition key_down (m : menu) : menu :=
  if SelectedEntry m <? BootEntryCount m - 1 then
    let s := SelectedEntry m + 1 in
    select_scroll m s (if MenuScrollOffset m + VISIBLE_MENU_ENTRIES <=? s
                       then MenuScrollOffset m + 1 else MenuScrollOffset m)
  else select_scroll m 0 0.

(** One iteration. *)
Definition menu_iter (m : menu) (inp : input) : run (menu * option outcome) :=
  r ← mouse_loop inp m 0 (Z.to_nat VISIBLE_MENU_ENTRIES);
  let '(m, out) := r in
  match out with
  | Some o => mret (m, Some o)
  | None =>
      if EFI_ERROR (in_wait inp) then mret (m, None)
      else if EFI_ERROR (in_read inp) then mret (m, None)
      else
        let m := hotkey m (in_char inp) in
        if in_char inp =? CHAR_CARRIAGE_RETURN then o ← boot_selected m; mret (m, Some o)
        else if in_char inp =? 0 then
          if in_scan inp =? SCAN_UP then mret (key_up m, None)
          else if in_scan inp =? SCAN_DOWN then mret (key_down m, None)
          else if in_scan inp =? SCAN_ESC then mret (m, Some (Return EFI_ABORTED))
          else mret (m, None)
        else mret (m, None)
  end.

(** The loop, on a finite sequence of inputs: the state and the outcome so far. *)
Fixpoint menu_loop (m : menu) (inputs : list input) : run (menu * option outcome) :=
  match inputs with
  | [] => mret (m, None)
  | inp :: inputs' =>
      r ← menu_iter m inp;
      match snd r with Some o => mret r | None => menu_loop (fst r) inputs' end
  end.

Definition exit_name : bytes :=
  [69; 120; 105; 116; 32; 116; 111; 32; 85; 69; 70; 73; 32; 70; 105; 114; 109; 119; 97; 114; 101].

Definition ShowBootMenu (m : menu) (inputs : list input) : run (menu * option outcome) :=
  let m := AssignHotkeys m in
  let m := if BootEntryCount m =? 0 then snd (AddBootEntry m exit_name None) else m in
  menu_loop m inputs.

End Menu.

(** ** Invariant *)

(** At least one entry, the selection is an entry, the scroll offset leaves a
    full page or shows everything. *)
Definition menu_inv (m : menu) : Prop :=
  1 <= BootEntryCount m <= MAX_BOOT_ENTRIES /\ 0 <= SelectedEntry m < BootEntryCount m /\
  0 <= MenuScrollOffset m <= Z.max 0 (BootEntryCount m - VISIBLE_MENU_ENTRIES).

(** The selected entry is on the page shown. *)
Definition selected_visible (m : menu) : Prop :=
  MenuScrollOffset m <= SelectedEntry m < MenuScrollOffset m + VISIBLE_MENU_ENTRIES.

Ltac menu_arith :=
  unfold menu_inv, selected_visible, BootEntryCount, VISIBLE_MENU_ENTRIES, MAX_BOOT_ENTRIES in *;
  cbn [BootEntries SelectedEntry MenuScrollOffset fst snd] in *.

Lemma select_inv m i : menu_inv m -> 0 <= i < BootEntryCount m -> menu_inv (select m i).
Proof. unfold select. menu_arith. lia. Qed.

Lemma key_up_inv m : menu_inv m -> menu_inv (key_up m).
Proof.
  unfold key_up, select_scroll. menu_arith. intros H.
  repeat (case_match; cbn [BootEntries SelectedEntry MenuScrollOffset] in *); bool_hyps; lia.
Qed.

Lemma key_down_inv m : menu_inv m -> menu_inv (key_down m).
Proof.
  unfold key_down, select_scroll. menu_arith. intros H.
  repeat (case_match; cbn [BootEntries SelectedEntry MenuScrollOffset] in *); bool_hyps; lia.
Qed.

Lemma key_up_visible m : menu_inv m -> selected_visible m -> selected_visible (key_up m).
Proof.
  unfold key_up, select_scroll. menu_arith. intros H Hv.
  repeat (case_match; cbn [BootEntries SelectedEntry MenuScrollOffset] in *); bool_hyps; lia.
Qed.

Lemma key_down_visible m : menu_inv m -> selected_visible m -> selected_visible (key_down m).
Proof.
  unfold key_down, select_scroll. menu_arith. intros H Hv.
  repeat (case_match; cbn [BootEntries SelectedEntry MenuScrollOffset] in *); bool_hyps; lia.
Qed.

(** The entry Enter or a click starts. *)
Definition outcome_of (m : menu) (o : outcome) : Prop :=
  exists e, BootEntries m !! Z.to_nat (SelectedEntry m) = Some e /\
    o = match BootFunction e with Some f => Boot f | None => Return EFI_SUCCESS end.

Lemma boot_selected_ok m : menu_inv m -> exists o, boot_selected m = Ret o /\ outcome_of m o.
Proof.
  intros (_ & Hs & _). unfold boot_selected, outcome_of, BootEntryCount, zlen in *.
  destruct (lookup_lt_is_Some_2 (BootEntries m) (Z.to_nat (SelectedEntry m))) as [e ->]; [lia|].
  destruct (Z.ltb_spec (SelectedEntry m) 0); [lia|]. eexists; split; [reflexivity|]. eauto.
Qed.

(** What an iteration may do to the state: the invariant stays, the entries and
    hotkeys stay, and an outcome is that of the selected entry or the exit. *)
Definition iter_ok (m : menu) (r : menu * option outcome) : Prop :=
  menu_inv (fst r) /\ BootEntries (fst r) = BootEntries m /\
  BootEntryHotkeys (fst r) = BootEntryHotkeys m /\
  match snd r with None => True | Some o => outcome_of (fst r) o \/ o = Return EFI_ABORTED end.

Section MenuLemmas.
Context (towlower : Z -> Z).

Lemma mouse_loop_ok inp n : forall m k, menu_inv m -> 0 <= k ->
  exists r, mouse_loop inp m k n = Ret r /\ iter_ok m r /\
    (k + Z.of_nat n <= VISIBLE_MENU_ENTRIES -> selected_visible m -> selected_visible (fst r)) /\
    MenuScrollOffset (fst r) = MenuScrollOffset m.
Proof.
  induction n as [|n IH]; intros m k Hm Hk; [by eexists; split; [reflexivity|]|].
  cbn [mouse_loop]. destruct (Z.ltb_spec (MenuScrollOffset m + k) (BootEntryCount m)) as [Hi|Hi];
    [|by eexists; split; [reflexivity|]].
  assert (Hs : menu_inv (select m (MenuScrollOffset m + k))).
  { apply select_inv; [done|]. destruct Hm as (_ & _ & Ho). lia. }
  destruct (mouse_over inp k).
  - destruct (in_left_button inp).
    + destruct (boot_selected_ok _ Hs) as (o & -> & Ho). bind_step.
      eexists; split; [reflexivity|]. split; [|by split; [unfold select; menu_arith; lia|]].
      split; [done|]. split; [done|]. split; [done|]. by left.
    + destruct (IH _ (k + 1) Hs) as (r & -> & Hr & Hv & Ho); [lia|].
      eexists; split; [reflexivity|]. split; [done|]. split; [|done].
      intros Hn _. apply Hv; [lia|]. unfold select. menu_arith. lia.
  - destruct (IH m (k + 1) Hm) as (r & -> & Hr & Hv & Ho); [lia|].
    eexists; split; [reflexivity|]. split; [done|]. split; [|done]. intros Hn. apply Hv. lia.
Qed.

Lemma find_hotkey_range keys : forall count c i j,
  find_hotkey keys count c i = Some j -> i <= j < i + Z.of_nat count.
Proof.
  induction keys as [|k keys IH]; intros [|count] c i j; cbn [find_hotkey]; try done.
  destruct (k =? c); [intros [= <-]; lia|]. intros H%IH. lia.
Qed.

Lemma hotkey_inv m ch : menu_inv m -> menu_inv (hotkey towlower m ch).
Proof.
  intros Hm. unfold hotkey. destruct (ch =? 0); [done|].
  destruct (find_hotkey _ _ _ _) as [i|] eqn:E; [|done]. apply find_hotkey_range in E.
  apply select_inv; [done|]. unfold BootEntryCount, zlen. lia.
Qed.

Lemma hotkey_keeps m ch :
  BootEntries (hotkey towlower m ch) = BootEntries m /\
  BootEntryHotkeys (hotkey towlower m ch) = BootEntryHotkeys m.
Proof. unfold hotkey, select. by repeat case_match. Qed.

Lemma select_scroll_keeps m :
  BootEntries (key_up m) = BootEntries m /\ BootEntryHotkeys (key_up m) = BootEntryHotkeys m /\
  BootEntries (key_down m) = BootEntries m /\ BootEntryHotkeys (key_down m) = BootEntryHotkeys m.
Proof. unfold key_up, key_down, select_scroll. by repeat case_match. Qed.

Lemma menu_iter_ok m inp : menu_inv m -> exists r, menu_iter towlower m inp = Ret r /\ iter_ok m r.
Proof.
  intros Hm. unfold menu_iter.
  destruct (mouse_loop_ok inp (Z.to_nat VISIBLE_MENU_ENTRIES) m 0 Hm) as ([m1 out] & -> & Hr & _); [lia|].
  bind_step. destruct out as [o|]; [by eexists; split; [reflexivity|]|].
  destruct Hr as (H1 & H2 & H3 & _). cbn [fst snd] in *.
  destruct (EFI_ERROR (in_wait inp)); [by eexists; split; [reflexivity|]|].
  destruct (EFI_ERROR (in_read inp)); [by eexists; split; [reflexivity|]|].
  pose proof (hotkey_inv m1 (in_char inp) H1) as H4.
  destruct (hotkey_keeps m1 (in_char inp)) as [K1 K2]. rewrite H2 in K1. rewrite H3 in K2.
  set (m2 := hotkey towlower m1 (in_char inp)) in *. clearbody m2.
  destruct (select_scroll_keeps m2) as (S1 & S2 & S3 & S4).
  destruct (in_char inp =? CHAR_CARRIAGE_RETURN).
  { destruct (boot_selected_ok m2 H4) as (o & -> & Ho). bind_step.
    eexists; split; [reflexivity|]. unfold iter_ok; cbn [fst snd]. by split_and!; [..|left]. }
  repeat (case_match; [|try (by eexists; split; [reflexivity|])]);
    eexists; (split; [reflexivity|]); unfold iter_ok; cbn [fst snd];
    split_and!; try done; try congruence; auto using key_up_inv, key_down_inv.
Qed.

Lemma menu_loop_ok inputs : forall m, menu_inv m ->
  exists r, menu_loop towlower m inputs = Ret r /\ iter_ok m r.
Proof.
  induction inputs as [|inp inputs IH]; intros m Hm; [by eexists; split; [reflexivity|]|].
  cbn [menu_loop]. destruct (menu_iter_ok m inp Hm) as (r & -> & Hr). bind_step.
  destruct (snd r) as [o|] eqn:E; [by eexists; split; [reflexivity|]|].
  destruct Hr as (H1 & H2 & H3 & _). destruct (IH (fst r) H1) as (r' & -> & R1 & R2 & R3 & R4).
  eexists; split; [reflexivity|]. unfold iter_ok. rewrite R2, R3. by rewrite <- H2, <- H3.
Qed.

(** Arrow keys and the mouse keep the selection on the page. *)
Lemma menu_iter_visible m inp r :
  menu_inv m -> selected_visible m -> in_char inp = 0 -> menu_iter towlower m inp = Ret r ->
  selected_visible (fst r).
Proof.
  intros Hm Hv Hc. unfold menu_iter, hotkey. rewrite Hc.
  destruct (mouse_loop_ok inp (Z.to_nat VISIBLE_MENU_ENTRIES) m 0 Hm) as ([m1 out] & -> & Hr & Hv1 & _);
    [lia|]. destruct Hr as (H1 & _). cbn [fst snd] in *. specialize (Hv1 ltac:(done) Hv).
  bind_step. destruct out as [o|]; [by intros [= <-]|].
  change (0 =? CHAR_CARRIAGE_RETURN) with false. change (0 =? 0) with true. cbv iota.
  repeat case_match; intros [= <-]; cbn [fst]; auto using key_up_visible, key_down_visible.
Qed.

Lemma menu_loop_visible inputs : forall m r,
  menu_inv m -> selected_visible m -> Forall (fun inp => in_char inp = 0) inputs ->
  menu_loop towlower m inputs = Ret r -> selected_visible (fst r).
Proof.
  induction inputs as [|inp inputs IH]; intros m r Hm Hv Hf; [by intros [= <-]|].
  apply Forall_cons in Hf as [Hc Hf]. cbn [menu_loop].
  destruct (menu_iter_ok m inp Hm) as (r1 & E & H1 & _). rewrite E. bind_step.
  pose proof (menu_iter_visible m inp r1 Hm Hv Hc E) as Hv1.
  destruct (snd r1); [by intros [= <-]|]. by apply IH.
Qed.
End MenuLemmas.

(** The menus the program can set up: entries added one by one. *)
Inductive built : menu -> Prop :=
| built_init : built initial_menu
| built_add m name f : built m -> built (snd (AddBootEntry m name f)).

Lemma built_inv m : built m ->
  BootEntryCount m <= MAX_BOOT_ENTRIES /\ SelectedEntry m = 0 /\ MenuScrollOffset m = 0 /\
  BootEntryHotkeys m = zeros MAX_BOOT_ENTRIES.
Proof.
  induction 1 as [|m name f _ IH]; [by vm_compute|]. unfold AddBootEntry.
  destruct (Z.leb_spec MAX_BOOT_ENTRIES (BootEntryCount m)); [done|].
  cbn [snd SelectedEntry MenuScrollOffset BootEntryHotkeys].
  unfold BootEntryCount in *. cbn [BootEntries]. rewrite zlen_app. change (zlen [_]) with 1.
  destruct IH as (_ & I2 & I3 & I4). split_and!; [lia|done..].
Qed.

(** The menu [ShowBootMenu] starts its loop with. *)
Definition start_menu (towlower : Z -> Z) (m : menu) : menu :=
  let m := AssignHotkeys towlower m in
  if BootEntryCount m =? 0 then snd (AddBootEntry m exit_name None) else m.

Lemma start_menu_inv towlower m : built m ->
  menu_inv (start_menu towlower m) /\ selected_visible (start_menu towlower m).
Proof.
  intros Hb. destruct (built_inv m Hb) as (Hc & Hs & Ho & _). unfold start_menu. cbv zeta.
  change (BootEntryCount (AssignHotkeys towlower m)) with (BootEntryCount m).
  pose proof (zlen_nonneg (BootEntries m)).
  destruct (Z.eqb_spec (BootEntryCount m) 0) as [E|E].
  - unfold AddBootEntry. change (BootEntryCount (AssignHotkeys towlower m)) with (BootEntryCount m).
    rewrite E. change (MAX_BOOT_ENTRIES <=? 0) with false. cbv iota. unfold AssignHotkeys.
    menu_arith. rewrite zlen_app, E, Hs, Ho. change (zlen [_]) with 1. lia.
  - unfold AssignHotkeys. menu_arith. lia.
Qed.

(** The loop of a menu the program set up. *)
Lemma show_menu_ok towlower m inputs : built m ->
  exists r, ShowBootMenu towlower m inputs = Ret r /\ iter_ok (start_menu towlower m) r.
Proof.
  intros Hb. destruct (start_menu_inv towlower m Hb) as [Hi _]. unfold ShowBootMenu.
  fold (start_menu towlower m). by apply menu_loop_ok.
Qed.

(** ** Properties *)

(** The menu is safe: with any entries and after any sequence of mouse and
    keyboard input, [ShowBootMenu] never indexes outside the entries: the
    selection is an entry and the scroll offset a valid page; what it starts is
    the boot function of the selected entry (or it returns the exit status);
    and as long as no character key is pressed the selected entry is on the
    page shown. *)
Theorem menu_safe towlower m inputs :
  built m ->
  exists r, ShowBootMenu towlower m inputs = Ret r /\ menu_inv (fst r) /\
    (forall o, snd r = Some o -> outcome_of (fst r) o \/ o = Return EFI_ABORTED) /\
    (Forall (fun inp => in_char inp = 0) inputs -> selected_visible (fst r)).
Proof.
  intros Hb. destruct (start_menu_inv towlower m Hb) as [Hi Hv]. unfold ShowBootMenu.
  fold (start_menu towlower m).
  destruct (menu_loop_ok towlower inputs _ Hi) as (r & E & H1 & _ & _ & H4).
  exists r. split_and!; [done|done| |].
  - intros o Ho. by rewrite Ho in H4.
  - intros Hf. by apply (menu_loop_visible towlower inputs (start_menu towlower m) r).
Qed.

Definition arrow (scan : Z) : input := mk_input 800 0 0 false EFI_SUCCESS EFI_SUCCESS 0 scan.
Definition enter : input := mk_input 800 0 0 false EFI_SUCCESS EFI_SUCCESS CHAR_CARRIAGE_RETURN 0.
Definition two_entries : menu :=
  snd (AddBootEntry (snd (AddBootEntry initial_menu [65; 66] (Some 1))) [65; 67] (Some 2)).

Lemma menu_safe_witness :
  exists r, ShowBootMenu id two_entries [arrow SCAN_DOWN; enter] = Ret r /\ menu_inv (fst r) /\
    (forall o, snd r = Some o -> outcome_of (fst r) o \/ o = Return EFI_ABORTED) /\
    (Forall (fun inp => in_char inp = 0) [arrow SCAN_DOWN; enter] -> selected_visible (fst r)).
Proof. apply menu_safe. apply built_add, built_add, built_init. Defined.

(** Down and Enter start the second entry; typing its hotkey selects it too. *)
Example down_enter :
  snd <$> (match ShowBootMenu id two_entries [arrow SCAN_DOWN; enter] with Ret r => Some r | _ => None end)
  = Some (Some (Boot 2)).
Proof. reflexivity. Qed.

(** ** Hotkeys *)

Section Hotkeys.
Context (towlower : Z -> Z).

Lemma pick_hotkey_fresh used name c :
  pick_hotkey towlower used name = Some c -> 32 <= c /\ c ∉ used.
Proof.
  induction name as [|x name IH]; cbn [pick_hotkey]; [done|].
  destruct (_ && _) eqn:E; [|done]. intros [= <-].
  apply andb_prop in E as [E Hu]. apply andb_prop in E as [E _]. apply Z.leb_le in E.
  split; [done|]. by case_bool_decide.
Qed.

(** The keys from [i] on are none, or new and pairwise different. *)
Definition fresh_keys (used : list Z) (i n : Z) (r : bytes) : Prop :=
  (forall j, i <= j < i + n -> zget r j = 0 \/ 32 <= zget r j /\ zget r j ∉ used) /\
  (forall j k, i <= j < k -> k < i + n -> zget r j = zget r k -> zget r j = 0).

Lemma assign_loop_fresh es : forall used i keys,
  0 <= i -> i + zlen es <= zlen keys -> (forall j, i <= j -> zget keys j = 0) ->
  let r := assign_loop towlower used es i keys in
  zlen r = zlen keys /\ (forall j, 0 <= j < i -> zget r j = zget keys j) /\
  fresh_keys used i (zlen es) r.
Proof.
  induction es as [|e es IH]; intros used i keys Hi Hl Hz; cbn [assign_loop]; cbv zeta.
  { split_and!; [done|done|]. unfold fresh_keys. change (zlen (@nil BOOT_MENU_ENTRY)) with 0.
    by split; intros; lia. }
  assert (Hn : zlen (e :: es) = zlen es + 1) by (unfold zlen; cbn [length]; lia).
  rewrite Hn in *. pose proof (zlen_nonneg es).
  destruct (pick_hotkey towlower used (entry_name e)) as [c|] eqn:Ec.
  - apply pick_hotkey_fresh in Ec as [Hc Hu].
    destruct (IH (c :: used) (i + 1) (zset keys i c)) as (L & K & F1 & F2);
      [lia|rewrite zlen_zset; lia|intros j Hj; rewrite zget_zset by lia;
        destruct (Z.eqb_spec i j); [lia|apply Hz; lia]|]. rewrite zlen_zset in L.
    set (r := assign_loop _ _ _ _ _) in *. clearbody r.
    assert (Hri : zget r i = c) by (rewrite K, zget_zset, Z.eqb_refl by lia; by destruct (Z.ltb_spec i (zlen keys)); [|lia]).
    split_and!; [done|intros j Hj; rewrite K, zget_zset by lia; by destruct (Z.eqb_spec i j); [lia|]|].
    split.
    + intros j Hj. destruct (Z.eq_dec j i) as [->|Hne]; [right; rewrite Hri; by split|].
      destruct (F1 j) as [F|[F G]]; [lia|by left|right]. split; [done|]. set_solver.
    + intros j k Hj Hk E. destruct (Z.eq_dec j i) as [->|Hne]; [|apply (F2 j k); [lia..|done]].
      destruct (F1 k) as [F|[F G]]; [lia|congruence|]. rewrite <- E, Hri in G. set_solver.
  - destruct (IH used (i + 1) keys) as (L & K & F1 & F2); [lia..|intros j Hj; apply Hz; lia|].
    set (r := assign_loop _ _ _ _ _) in *. clearbody r.
    assert (Hri : zget r i = 0) by (rewrite K by lia; apply Hz; lia).
    split_and!; [done|intros j Hj; apply K; lia|]. split.
    + intros j Hj. destruct (Z.eq_dec j i) as [->|Hne]; [by left|apply F1; lia].
    + intros j k Hj Hk E. destruct (Z.eq_dec j i) as [->|Hne]; [done|apply (F2 j k); [lia..|done]].
Qed.

Lemma find_hotkey_first keys : forall count c i j,
  0 <= j < Z.of_nat count -> Z.of_nat count <= zlen keys -> zget keys j = c ->
  (forall k, 0 <= k < j -> zget keys k <> c) -> find_hotkey keys count c i = Some (i + j).
Proof.
  induction keys as [|x keys IH]; intros count c i j Hj Hl Hc Hf;
    [unfold zlen in Hl; cbn in Hl; lia|]. destruct count as [|count]; [lia|]. cbn [find_hotkey].
  assert (Hs : forall k, 0 <= k -> zget (x :: keys) (k + 1) = zget keys k).
  { intros k Hk. unfold zget. replace (Z.to_nat (k + 1)) with (S (Z.to_nat k)) by lia. done. }
  destruct (Z.eq_dec j 0) as [->|Hne].
  { change (zget (x :: keys) 0) with x in Hc. subst. rewrite Z.eqb_refl. f_equal. lia. }
  destruct (Z.eqb_spec x c) as [->|_]; [destruct (Hf 0); [lia|done]|].
  rewrite (IH count c (i + 1) (j - 1)); [f_equal; lia|lia| | |].
  - unfold zlen in *. cbn [length] in Hl. lia.
  - rewrite <- Hs by lia. by replace (j - 1 + 1) with j by lia.
  - intros k Hk. rewrite <- Hs by lia. apply Hf. lia.
Qed.
End Hotkeys.

(** A hotkey selects its entry: after [AssignHotkeys] the hotkeys given to
    the entries are pairwise different, and typing a character whose lower case
    is the hotkey of entry [i] selects entry [i]. *)
Theorem hotkey_selects towlower m i ch :
  built m -> 0 <= i < BootEntryCount m -> ch <> 0 ->
  let m' := AssignHotkeys towlower m in
  zget (BootEntryHotkeys m') i <> 0 -> towlower ch = zget (BootEntryHotkeys m') i ->
  (forall j, 0 <= j < BootEntryCount m -> j <> i ->
             zget (BootEntryHotkeys m') j <> zget (BootEntryHotkeys m') i) /\
  hotkey towlower m' ch = select m' i.
Proof.
  intros Hb Hi Hch m' Hk Ht. destruct (built_inv m Hb) as (Hc & _ & _ & Hz).
  assert (Hlen : zlen (zeros MAX_BOOT_ENTRIES) = MAX_BOOT_ENTRIES) by reflexivity.
  destruct (assign_loop_fresh towlower (BootEntries m) [] 0 (BootEntryHotkeys m)) as (L & _ & _ & F);
    [lia|rewrite Hz, Hlen; exact Hc|intros j _; rewrite Hz; apply zget_zeros|].
  cbv zeta in F. subst m'. cbn [AssignHotkeys BootEntryHotkeys] in *.
  set (r := assign_loop _ _ _ _ _) in *. fold (BootEntryCount m) in F.
  assert (Hd : forall j, 0 <= j < BootEntryCount m -> j <> i -> zget r j <> zget r i).
  { intros j Hj Hne E. destruct (Z.lt_total j i) as [Hlt|[->|Hgt]]; [|done|].
    - apply Hk. rewrite <- E. by apply (F j i); [lia..|].
    - apply Hk. by apply (F i j); [lia..|]. }
  split; [done|]. unfold hotkey. rewrite (proj2 (Z.eqb_neq _ _) Hch).
  cbn [AssignHotkeys BootEntryHotkeys BootEntries]. fold r.
  rewrite (find_hotkey_first r (length (BootEntries m)) (towlower ch) 0 i); [done| | |done|].
  - done.
  - change (BootEntryCount m <= zlen r). rewrite L, Hz, Hlen. exact Hc.
  - intros k Hk'. rewrite Ht. apply Hd; lia.
Qed.

(** ASCII lower case. *)
Definition ascii_lower (c : Z) : Z := if (65 <=? c) && (c <=? 90) then c + 32 else c.

Lemma hotkey_selects_witness :
  (forall j, 0 <= j < 2 -> j <> 1 ->
     zget (BootEntryHotkeys (AssignHotkeys ascii_lower two_entries)) j <> 99) /\
  hotkey ascii_lower (AssignHotkeys ascii_lower two_entries) 67 =
  select (AssignHotkeys ascii_lower two_entries) 1.
Proof.
  apply (hotkey_selects ascii_lower two_entries 1 67);
    [apply built_add, built_add, built_init|by vm_compute..].
Defined.
