(* ===== verification/EdkString.v ===== *)
(** * EDK2's string functions (src/Edk2BHModules/MdePkg/Library/BaseLib, SafeString.c and String.c)

    The functions on NUL-terminated strings that the boot loader calls, on the
    byte memory of [PhysMem.v]: a [CHAR8] is one byte, a [CHAR16] two, a pointer is
    an address and NULL is 0.  A failed ASSERT does nothing in a release build; the
    limits [RSIZE_MAX] and [ASCII_RSIZE_MAX] are the values of MdePkg.dec.  The loops
    of String.c have no bound of their own: they take fuel, and the theorems show
    that more fuel than the length of the string is enough. *)

From S2P Require Import Prelude.
From S2P Require Import PhysMem.
From S2P Require Import BootConfig.
From S2P Require Import Menu.
From S2P Require Import EdkMem.
Import ListNotations.
#[local] Open Scope list_scope.

Definition RETURN_SUCCESS : Z := 0.
Definition RETURN_INVALID_PARAMETER : Z := 2 ^ 63 + 2.
Definition RETURN_UNSUPPORTED : Z := 2 ^ 63 + 3.
Definition RETURN_BUFFER_TOO_SMALL : Z := 2 ^ 63 + 5.
Definition RETURN_ACCESS_DENIED : Z := 2 ^ 63 + 15.
Definition RSIZE_MAX : Z := 1000000.
Definition ASCII_RSIZE_MAX : Z := 1000000.
Definition MAX_UINTN : Z := 2 ^ 64 - 1.

Definition InternalSafeStringIsOverlap (Base1 Size1 Base2 Size2 : Z) : bool :=
  ((Base2 <=? Base1) && (Base1 <? u64 (Base2 + Size2))) || ((Base1 <=? Base2) && (Base2 <? u64 (Base1 + Size1))).

(** [*p] and [*p = c] for characters of [w] bytes. *)
Definition getc (w : Z) (m : phys) (p : Z) : Z := fetch_le m p w.
Definition putc (w : Z) (m : phys) (p c : Z) : phys := poke_le m p (Z.to_nat w) c.

(** ** The safe functions, for both widths *)

Section Safe.
Context (w : Z).

(** [Length] characters seen, [room] more before [MaxSize - 1]. *)
Fixpoint strn_len_loop (m : phys) (String : Z) (room : nat) (Length : Z) : Z :=
  if getc w m (String + w * Length) =? 0 then Length
  else match room with
  | O => Length + 1
  | S room => strn_len_loop m String room (Length + 1)
  end.

Definition strn_len (m : phys) (String MaxSize : Z) : Z :=
  if (String =? 0) || (MaxSize =? 0) then 0 else strn_len_loop m String (Z.to_nat (MaxSize - 1)) 0.

(** [while ( *Source != 0) *(Destination++) = *(Source++); *Destination = 0;] *)
Fixpoint str_copy_loop (fuel : nat) (m : phys) (Destination Source : Z) : run phys :=
  if getc w m Source =? 0 then mret (putc w m Destination 0)
  else match fuel with
  | O => OutOfFuel
  | S fuel => str_copy_loop fuel (putc w m Destination (getc w m Source)) (Destination + w) (Source + w)
  end.

(** [while (SourceLen > 0 && *Source != 0) ...; *Destination = 0;] *)
Fixpoint strn_copy_loop (SourceLen : nat) (m : phys) (Destination Source : Z) : phys :=
  match SourceLen with
  | O => putc w m Destination 0
  | S n => if getc w m Source =? 0 then putc w m Destination 0
           else strn_copy_loop n (putc w m Destination (getc w m Source)) (Destination + w) (Source + w)
  end.

Definition str_cpy_s (rsize_max : Z) (m : phys) (Destination DestMax Source : Z) : run (Z * phys) :=
  if Destination =? 0 then mret (RETURN_INVALID_PARAMETER, m)
  else if Source =? 0 then mret (RETURN_INVALID_PARAMETER, m)
  else if negb (rsize_max =? 0) && (rsize_max <? DestMax) then mret (RETURN_INVALID_PARAMETER, m)
  else if DestMax =? 0 then mret (RETURN_INVALID_PARAMETER, m)
  else
    let SourceLen := strn_len m Source DestMax in
    if DestMax <=? SourceLen then mret (RETURN_BUFFER_TOO_SMALL, m)
    else if InternalSafeStringIsOverlap Destination (u64 (DestMax * w)) Source (u64 ((SourceLen + 1) * w))
    then mret (RETURN_ACCESS_DENIED, m)
    else m ← str_copy_loop (Z.to_nat SourceLen) m Destination Source; mret (RETURN_SUCCESS, m).

Definition strn_cpy_s (rsize_max : Z) (m : phys) (Destination DestMax Source Length : Z) : Z * phys :=
  if Destination =? 0 then (RETURN_INVALID_PARAMETER, m)
  else if Source =? 0 then (RETURN_INVALID_PARAMETER, m)
  else if negb (rsize_max =? 0) && ((rsize_max <? DestMax) || (rsize_max <? Length)) then (RETURN_INVALID_PARAMETER, m)
  else if DestMax =? 0 then (RETURN_INVALID_PARAMETER, m)
  else
    let SourceLen := strn_len m Source (Z.min DestMax Length) in
    if (DestMax <=? Length) && (DestMax <=? SourceLen) then (RETURN_BUFFER_TOO_SMALL, m)
    else
      let SourceLen := if Length <? SourceLen then Length else SourceLen in
      if InternalSafeStringIsOverlap Destination (u64 (DestMax * w)) Source (u64 ((SourceLen + 1) * w))
      then (RETURN_ACCESS_DENIED, m)
      else (RETURN_SUCCESS, strn_copy_loop (Z.to_nat SourceLen) m Destination Source).
End Safe.

Definition StrnLenS := strn_len 2.
Definition StrCpyS := str_cpy_s 2 RSIZE_MAX.
Definition StrnCpyS := strn_cpy_s 2 RSIZE_MAX.
Definition AsciiStrnLenS := strn_len 1.
Definition AsciiStrCpyS := str_cpy_s 1 ASCII_RSIZE_MAX.
Definition AsciiStrnCpyS := strn_cpy_s 1 ASCII_RSIZE_MAX.

(** ** Strings in memory *)

(** At [p] the memory has the characters of [s] and then a NUL. *)
Definition str_at (w : Z) (m : phys) (p : Z) (s : bytes) : Prop :=
  (forall i, 0 <= i < zlen s -> getc w m (p + w * i) = zget s i /\ zget s i <> 0) /\ getc w m (p + w * zlen s) = 0.

Definition byte_mem (m : phys) : Prop := forall a, 0 <= m a < 256.

Lemma is_bytes_fetch m p n : byte_mem m -> is_bytes (fetch m p n).
Proof. intros Hm. unfold fetch, is_bytes. apply Forall_fmap, Forall_true. intros x. apply Hm. Qed.

Lemma length_fetch m p n : length (fetch m p n) = Z.to_nat n.
Proof. unfold fetch. by rewrite length_fmap, length_seqZ. Qed.

Lemma getc_ext w m m' p q : (forall i, 0 <= i < w -> m (p + i) = m' (q + i)) -> getc w m p = getc w m' q.
Proof.
  intros H. unfold getc, fetch_le, fetch. f_equal. apply list_eq. intros i. rewrite !list_lookup_fmap.
  destruct (decide (Z.of_nat i < w)) as [Hi|Hi].
  - rewrite !lookup_seqZ_lt by lia. cbn. f_equal. apply H. lia.
  - rewrite !lookup_seqZ_ge by lia. done.
Qed.

(** Storing a character that was read copies its bytes. *)
Lemma putc_getc w m d s : 0 <= w -> byte_mem m -> forall a, putc w m d (getc w m s) a = copy_word w m d s a.
Proof.
  intros Hw Hm a. unfold putc, getc, poke_le, fetch_le. rewrite <- (length_fetch m s w), le_bytes_val by by apply is_bytes_fetch.
  unfold poke, copy_word. unfold zlen. rewrite length_fetch, Z2Nat.id by done. case_match; [|done]. bool_hyps.
  apply (zget_fetch m s w). lia.
Qed.

Lemma byte_mem_moved m m' d s n : byte_mem m -> (forall a, m' a = moved m d s n a) -> byte_mem m'.
Proof. intros H E a. rewrite E. unfold moved. case_match; apply H. Qed.

Lemma strn_len_loop_ok w m p : forall room Length, let r := strn_len_loop w m p room Length in
  Length <= r <= Length + Z.of_nat room + 1 /\ (forall i, Length <= i < r -> getc w m (p + w * i) <> 0) /\
  (r <= Length + Z.of_nat room -> getc w m (p + w * r) = 0).
Proof.
  induction room as [|room IH]; intros Length; cbn [strn_len_loop]; cbv zeta;
    destruct (Z.eqb_spec (getc w m (p + w * Length)) 0) as [E|E]; try (split; [lia|split; [intros i Hi; lia|done]]).
  - split; [lia|]. split; [|lia]. intros i Hi. by replace i with Length by lia.
  - destruct (IH (Length + 1)) as (H1 & H2 & H3). split; [lia|]. split; [|intros H; apply H3; lia].
    intros i Hi. destruct (Z.eq_dec i Length) as [->|]; [done|apply H2; lia].
Qed.

(** The length found: all characters before it are not NUL, and below the limit a
    NUL follows. *)
Lemma strn_len_ok w m p max : p <> 0 -> 0 <= max -> let r := strn_len w m p max in
  0 <= r <= max /\ (forall i, 0 <= i < r -> getc w m (p + w * i) <> 0) /\ (r < max -> getc w m (p + w * r) = 0).
Proof.
  intros Hp Hm. unfold strn_len. rewrite (proj2 (Z.eqb_neq _ _) Hp). cbn [orb].
  destruct (Z.eqb_spec max 0) as [->|Hne]; [split; [lia|split; [intros i Hi; lia|lia]]|].
  destruct (strn_len_loop_ok w m p (Z.to_nat (max - 1)) 0) as (H1 & H2 & H3).
  split; [lia|]. split; [done|]. intros H. apply H3. lia.
Qed.

(** The loops copy the characters and the NUL, when nothing overlaps. *)
Section Copy.
Context (w : Z) (m0 : phys) (d s L : Z) (Hw : 0 < w) (Hm0 : byte_mem m0) (HL : 0 <= L).
Context (Ha : apart d (w * (L + 1)) s (w * (L + 1))).

Lemma moved_src k m : 0 <= k <= L -> (forall a, m a = moved m0 d s (w * k) a) -> getc w m (s + w * k) = getc w m0 (s + w * k).
Proof.
  intros Hk Hm. apply getc_ext. intros i Hi. rewrite Hm. unfold moved, apart in *.
  destruct (Z.leb_spec d (s + w * k + i)), (Z.ltb_spec (s + w * k + i) (d + w * k)); cbn [andb]; try done. nia.
Qed.

Lemma moved_step k m : 0 <= k <= L -> (forall a, m a = moved m0 d s (w * k) a) ->
  forall a, putc w m (d + w * k) (getc w m (s + w * k)) a = moved m0 d s (w * (k + 1)) a.
Proof.
  intros Hk Hm a. rewrite putc_getc by (first [lia|by apply (byte_mem_moved m0 m d s (w * k))]).
  unfold copy_word. rewrite !Hm. unfold moved, apart in *. assert (w * (k + 1) <= w * (L + 1)) by nia.
  replace (w * (k + 1)) with (w * k + w) in * by lia. assert (0 <= w * k) by nia. on_addr.
Qed.

Context (Hnz : forall i, 0 <= i < L -> getc w m0 (s + w * i) <> 0).

Lemma str_copy_loop_ok : getc w m0 (s + w * L) = 0 -> forall fuel k m, k + Z.of_nat fuel = L -> 0 <= k ->
  (forall a, m a = moved m0 d s (w * k) a) ->
  exists m', str_copy_loop w fuel m (d + w * k) (s + w * k) = Ret m' /\ forall a, m' a = moved m0 d s (w * (L + 1)) a.
Proof.
  intros Hz. induction fuel as [|fuel IH]; intros k m Hk Hk0 Hm; cbn [str_copy_loop];
    rewrite (moved_src k m) by (lia || done).
  - assert (k = L) by lia. subst k. rewrite Hz. cbn [Z.eqb]. eexists. split; [reflexivity|]. intros a.
    rewrite <- Hz, <- (moved_src L m) by (lia || done). apply moved_step; [lia|done].
  - rewrite (proj2 (Z.eqb_neq _ _)) by (apply Hnz; lia). rewrite <- (moved_src k m) by (lia || done).
    replace (d + w * k + w) with (d + w * (k + 1)) by lia. replace (s + w * k + w) with (s + w * (k + 1)) by lia.
    apply IH; [lia|lia|]. apply moved_step; [lia|done].
Qed.
End Copy.

Lemma le_bytes_zero n : le_bytes n 0 = replicate n 0.
Proof. induction n as [|n IH]; [done|]. cbn [le_bytes replicate]. by rewrite Zmod_0_l, Zdiv_0_l, IH. Qed.

Lemma putc_zero w m p a : 0 <= w -> putc w m p 0 a = if (p <=? a) && (a <? p + w) then 0 else m a.
Proof. intros Hw. apply poke_repeat; [apply le_bytes_zero|lia]. Qed.

(** The characters and a NUL behind them. *)
Definition copied (w : Z) (m : phys) (d s n : Z) : phys :=
  fun a => if (d + w * n <=? a) && (a <? d + w * n + w) then 0 else moved m d s (w * n) a.

Lemma strn_copy_loop_ok w m0 d s L : 0 < w -> byte_mem m0 -> apart d (w * (L + 1)) s (w * (L + 1)) -> 
  (forall i, 0 <= i < L -> getc w m0 (s + w * i) <> 0) ->
  forall n k m, k + Z.of_nat n = L -> 0 <= k -> (forall a, m a = moved m0 d s (w * k) a) ->
  forall a, strn_copy_loop w n m (d + w * k) (s + w * k) a = copied w m0 d s L a.
Proof.
  intros Hw Hm0 Ha Hnz. induction n as [|n IH]; intros k m Hk Hk0 Hm a; cbn [strn_copy_loop].
  - assert (k = L) by lia. subst k. rewrite putc_zero by lia. unfold copied. case_match; [done|apply Hm].
  - rewrite (moved_src w m0 d s L Hw ltac:(lia) Ha k m) by (lia || done).
    rewrite (proj2 (Z.eqb_neq _ _)) by (apply Hnz; lia). rewrite <- (moved_src w m0 d s L Hw ltac:(lia) Ha k m) by (lia || done).
    replace (d + w * k + w) with (d + w * (k + 1)) by lia. replace (s + w * k + w) with (s + w * (k + 1)) by lia.
    apply IH; [lia|lia|]. apply (moved_step w m0 d s L); (lia || done).
Qed.

Lemma overlap_apart a n b k : 0 <= a -> 0 <= b -> 0 <= n -> 0 <= k -> a + n < 2 ^ 64 -> b + k < 2 ^ 64 ->
  InternalSafeStringIsOverlap a n b k = false -> 0 < n -> 0 < k -> apart a n b k.
Proof.
  intros. unfold InternalSafeStringIsOverlap in *. rewrite !wrap_small in * by (unfold in_u; lia).
  unfold apart. bool_hyps. destruct (Z.leb_spec b a), (Z.leb_spec a b); cbn [andb] in *; bool_hyps; lia.
Qed.

Lemma apart_shrink a n b k n' k' : apart a n b k -> n' <= n -> k' <= k -> apart a n' b k'.
Proof. unfold apart. lia. Qed.

Lemma overlap_false a n b k : 0 <= a -> 0 <= b -> 0 < n -> 0 < k -> a + n < 2 ^ 64 -> b + k < 2 ^ 64 ->
  apart a n b k -> InternalSafeStringIsOverlap a n b k = false.
Proof.
  intros. unfold InternalSafeStringIsOverlap, apart in *. rewrite !wrap_small by (unfold in_u; lia).
  destruct (Z.leb_spec b a), (Z.leb_spec a b), (Z.ltb_spec a (b + k)), (Z.ltb_spec b (a + n)); cbn; try done; lia.
Qed.

Lemma str_at_ext w m m' p q s : (forall i, 0 <= i < w * (zlen s + 1) -> m (p + i) = m' (q + i)) -> 0 < w ->
  str_at w m p s -> str_at w m' q s.
Proof.
  intros H Hw (H1 & H2). pose proof (zlen_nonneg s). split.
  - intros i Hi. destruct (H1 i Hi) as (E & Hn). split; [|done]. rewrite <- E. symmetry. apply getc_ext. intros j Hj.
    rewrite <- !Z.add_assoc. apply H. nia.
  - rewrite <- H2. symmetry. apply getc_ext. intros j Hj. rewrite <- !Z.add_assoc. apply H. nia.
Qed.

(** Pointers for which no 64-bit address computation wraps. *)
Definition ptr_ok (w p n : Z) : Prop := 0 <= p /\ p + w * n < 2 ^ 64.

(** The string a length search found. *)
Lemma strn_len_str w m p max : 0 < w -> p <> 0 -> 0 <= max -> strn_len w m p max < max ->
  exists s, str_at w m p s /\ zlen s = strn_len w m p max.
Proof.
  intros Hw Hp Hm Hl. destruct (strn_len_ok w m p max Hp Hm) as (H1 & H2 & H3). set (r := strn_len w m p max) in *.
  exists ((fun i => getc w m (p + w * i)) <$> seqZ 0 r).
  assert (El : zlen ((fun i => getc w m (p + w * i)) <$> seqZ 0 r) = r) by (unfold zlen; rewrite length_fmap, length_seqZ; lia).
  split; [|done]. split; [|rewrite El; by apply H3]. rewrite El. intros i Hi.
  assert (Eg : zget ((fun i => getc w m (p + w * i)) <$> seqZ 0 r) i = getc w m (p + w * i)).
  { unfold zget. rewrite nth_lookup, list_lookup_fmap, lookup_seqZ_lt by lia. cbn. f_equal. f_equal. lia. }
  rewrite Eg. split; [done|by apply H2].
Qed.

Lemma strn_len_at w m p max s : 0 < w -> p <> 0 -> 0 <= max -> str_at w m p s -> strn_len w m p max = Z.min (zlen s) max.
Proof.
  intros Hw Hp Hm (S1 & S2). destruct (strn_len_ok w m p max Hp Hm) as (H1 & H2 & H3). pose proof (zlen_nonneg s).
  set (r := strn_len w m p max) in *. destruct (Z.lt_total r (Z.min (zlen s) max)) as [Hlt|[|Hgt]]; [|done|].
  - destruct (S1 r ltac:(lia)) as (E & Hn). rewrite <- E in Hn. by destruct Hn; apply H3; lia.
  - destruct (H2 (zlen s)); [lia|done].
Qed.

(** The checks of a copy. *)
Definition copy_allowed (w rsize_max Destination DestMax Source n : Z) : Prop :=
  Destination <> 0 /\ Source <> 0 /\ 0 < DestMax <= rsize_max /\ n < DestMax /\ apart Destination (DestMax * w) Source ((n + 1) * w).

(** [StrCpyS] and [AsciiStrCpyS] on any memory: success exactly when the source is
    a string that fits and does not overlap the destination, and then its
    characters and the NUL are copied and nothing else changes; on an error nothing
    changes at all. *)
Lemma str_cpy_s_ok w rsize_max m d max s : 0 < w -> 0 < rsize_max -> byte_mem m -> 0 <= max ->
  ptr_ok w d max -> ptr_ok w s max ->
  exists st m', str_cpy_s w rsize_max m d max s = Ret (st, m') /\
    (st = RETURN_SUCCESS -> exists str, str_at w m s str /\ copy_allowed w rsize_max d max s (zlen str) /\
       forall a, m' a = moved m d s (w * (zlen str + 1)) a) /\
    (st <> RETURN_SUCCESS -> m' = m /\ forall str, str_at w m s str -> ~ copy_allowed w rsize_max d max s (zlen str)).
Proof.
  intros Hw Hr Hm Hmax (D1 & D2) (S1 & S2). unfold str_cpy_s, copy_allowed.
  destruct (Z.eqb_spec d 0) as [->|Hd]; [eexists _, m; split; [reflexivity|]; split; [done|]; intros _; split; [done|]; naive_solver|].
  destruct (Z.eqb_spec s 0) as [->|Hs]; [eexists _, m; split; [reflexivity|]; split; [done|]; intros _; split; [done|]; naive_solver|].
  rewrite (proj2 (Z.eqb_neq rsize_max 0)) by lia. cbn [negb andb].
  destruct (Z.ltb_spec rsize_max max) as [Hl|Hl]; [eexists _, m; split; [reflexivity|]; split; [done|]; intros _; split; [done|]; naive_solver lia|].
  destruct (Z.eqb_spec max 0) as [->|Hx]; [eexists _, m; split; [reflexivity|]; split; [done|]; intros _; split; [done|]; naive_solver lia|].
  destruct (strn_len_ok w m s max Hs Hmax) as (L1 & L2 & L3). pose proof (fun str => strn_len_at w m s max str Hw Hs Hmax) as La.
  pose proof (strn_len_str w m s max Hw Hs Hmax) as Lx.
  set (L := strn_len w m s max) in *. cbv zeta. clearbody L.
  destruct (Z.leb_spec max L) as [Hb|Hb].
  { eexists _, m. split; [reflexivity|]. split; [done|]. intros _. split; [done|]. intros str Hstr%La. lia. }
  destruct (Lx Hb) as (str & Hstr & Estr).
  rewrite !wrap_small by (unfold in_u; nia).
  destruct (InternalSafeStringIsOverlap d (max * w) s ((L + 1) * w)) eqn:Ho.
  { eexists _, m. split; [reflexivity|]. split; [done|]. intros _. split; [done|]. intros str' Hstr' (_ & _ & _ & _ & Hap).
    apply La in Hstr'. assert (zlen str' = L) by lia. rewrite overlap_false in Ho; [done|nia..|congruence]. }
  apply overlap_apart in Ho; [|nia..].
  assert (Ha : apart d (w * (L + 1)) s (w * (L + 1))) by (apply (apart_shrink _ _ _ _ _ _ Ho); nia).
  destruct (str_copy_loop_ok w m d s L Hw Hm ltac:(lia) Ha L2 (L3 Hb) (Z.to_nat L) 0 m) as (m' & E & Hm'); [lia|lia| |].
  { intros a. unfold moved. rewrite Z.mul_0_r. on_addr. }
  rewrite Z.mul_0_r, !Z.add_0_r in E. rewrite E. bind_step. eexists _, m'. split; [reflexivity|]. split; [|done].
  intros _. exists str. rewrite Estr. split_and!; try done; lia.
Qed.

(** A copied string, cut to [n] characters, is at the destination. *)
Lemma str_at_copied w m m' d s str n : 0 < w -> 0 <= n <= zlen str -> str_at w m s str ->
  (forall a, m' a = copied w m d s n a) -> str_at w m' d (take (Z.to_nat n) str).
Proof.
  intros Hw Hn (H1 & _) Hm'. assert (El : zlen (take (Z.to_nat n) str) = n) by (unfold zlen in *; rewrite length_take; lia).
  split; rewrite El.
  - intros i Hi. rewrite zget_take by lia. destruct (H1 i ltac:(lia)) as (E & Hz). split; [|done]. rewrite <- E.
    apply getc_ext. intros j Hj. rewrite Hm'. unfold copied, moved. assert (w * (i + 1) <= w * n) by nia. assert (0 <= w * i) by nia. on_addr.
  - assert (getc w m' (d + w * n) = getc w (fun _ => 0) 0) as ->.
    { apply getc_ext. intros j Hj. rewrite Hm'. unfold copied. on_addr. }
    unfold getc, fetch_le, fetch. clear. induction (seqZ 0 w) as [|x l IH]; [done|]. cbn. by rewrite IH.
Qed.

(** [StrnCpyS] and [AsciiStrnCpyS] of a string. *)
Lemma strn_cpy_s_ok w rsize_max m d max s n str : 0 < w -> byte_mem m -> str_at w m s str ->
  d <> 0 -> s <> 0 -> 0 < max <= rsize_max -> 0 <= n <= rsize_max -> ptr_ok w d max -> ptr_ok w s (zlen str + 1) ->
  (n < max \/ zlen str < max) -> apart d (max * w) s ((zlen str + 1) * w) ->
  exists m', strn_cpy_s w rsize_max m d max s n = (RETURN_SUCCESS, m') /\
    str_at w m' d (take (Z.to_nat n) str) /\ forall a, m' a = copied w m d s (Z.min n (zlen str)) a.
Proof.
  intros Hw Hm Hstr Hd Hs Hmax Hn (D1 & D2) (S1 & S2) Hfit Hap. unfold strn_cpy_s. pose proof (zlen_nonneg str).
  rewrite (proj2 (Z.eqb_neq d 0)), (proj2 (Z.eqb_neq s 0)) by done. rewrite (proj2 (Z.eqb_neq rsize_max 0)) by lia.
  rewrite (proj2 (Z.ltb_ge rsize_max max)), (proj2 (Z.ltb_ge rsize_max n)), (proj2 (Z.eqb_neq max 0)) by lia. cbn [negb andb orb].
  rewrite (strn_len_at w m s _ str) by (lia || done). cbv zeta.
  assert (((max <=? n) && (max <=? Z.min (zlen str) (Z.min max n))) = false) as ->.
  { destruct (Z.leb_spec max n); [|done]. cbn [andb]. apply Z.leb_gt. lia. }
  assert ((if n <? Z.min (zlen str) (Z.min max n) then n else Z.min (zlen str) (Z.min max n)) = Z.min n (zlen str)) as ->.
  { destruct (Z.ltb_spec n (Z.min (zlen str) (Z.min max n))); lia. }
  assert (Et : take (Z.to_nat n) str = take (Z.to_nat (Z.min n (zlen str))) str).
  { destruct (Z.le_gt_cases n (zlen str)); [by rewrite Z.min_l by lia|]. unfold zlen in *. rewrite !take_ge by lia. done. }
  rewrite Et. clear Et. set (L := Z.min n (zlen str)). assert (HL : 0 <= L /\ L <= zlen str /\ L < max) by lia. clearbody L.
  rewrite !wrap_small by (unfold in_u; nia).
  rewrite overlap_false; [|lia|lia|nia|nia|nia|nia|apply (apart_shrink _ _ _ _ _ _ Hap); nia].
  eexists. split; [reflexivity|].
  assert (Hc : forall a, strn_copy_loop w (Z.to_nat L) m d s a = copied w m d s L a).
  { intros a. pose proof (strn_copy_loop_ok w m d s L Hw Hm ltac:(apply (apart_shrink _ _ _ _ _ _ Hap); nia)
      ltac:(intros i Hi; destruct (proj1 Hstr i ltac:(lia)) as (-> & ?); done) (Z.to_nat L) 0 m ltac:(lia) ltac:(lia)
      ltac:(intros b; unfold moved; rewrite Z.mul_0_r; on_addr) a) as E.
    by rewrite Z.mul_0_r, !Z.add_0_r in E. }
  split; [|exact Hc]. apply (str_at_copied w m _ d s str L); [done|lia|done|exact Hc].
Qed.

(** Memory has one string at an address. *)
Lemma str_at_unique w m p s s' : str_at w m p s -> str_at w m p s' -> s = s'.
Proof.
  intros (H1 & H2) (H1' & H2'). pose proof (zlen_nonneg s). pose proof (zlen_nonneg s').
  assert (El : zlen s = zlen s').
  { destruct (Z.lt_total (zlen s) (zlen s')) as [Hl|[|Hl]]; [|done|].
    - destruct (H1' (zlen s) ltac:(lia)) as (E & Hn). congruence.
    - destruct (H1 (zlen s') ltac:(lia)) as (E & Hn). congruence. }
  apply zlen_ext; [done|]. intros i Hi. destruct (H1 i Hi) as (<- & _). destruct (H1' i ltac:(lia)) as (<- & _). done.
Qed.

(** ** Refinement of the strings used by the boot loader *)

(** EDK2's [AsciiStrCpyS] does what the configuration code's model of it says:
    with the old string at the destination, a source string that does not overlap it
    and a size of at most [ASCII_RSIZE_MAX], the destination holds the source, or its
    old string when the source does not fit, and no byte outside the [DestMax] bytes
    of the destination is changed. *)
Theorem ascii_strcpy_refines m d max s old str :
  byte_mem m -> str_at 1 m d old -> zlen old < max -> str_at 1 m s str ->
  d <> 0 -> s <> 0 -> 0 < max <= ASCII_RSIZE_MAX -> ptr_ok 1 d max -> ptr_ok 1 s (zlen str + 1) -> ptr_ok 1 s max ->
  apart d max s (zlen str + 1) ->
  exists st m', AsciiStrCpyS m d max s = Ret (st, m') /\
    str_at 1 m' d (BootConfig.AsciiStrCpyS old max str) /\
    (st = RETURN_SUCCESS <-> zlen str < max) /\
    forall a, a < d \/ d + max <= a -> m' a = m a.
Proof.
  intros Hm Hold Hlen Hstr Hd Hs Hmax Pd Ps Ps' Hap. unfold AsciiStrCpyS, BootConfig.AsciiStrCpyS.
  pose proof (zlen_nonneg str). pose proof (zlen_nonneg old).
  destruct (str_cpy_s_ok 1 ASCII_RSIZE_MAX m d max s) as (st & m' & E & Hok & Her); try done; [lia|].
  exists st, m'. split; [exact E|]. destruct (decide (st = RETURN_SUCCESS)) as [Es|Es].
  - destruct (Hok Es) as (str' & Hstr' & (_ & _ & _ & Hfit & Hap') & Hmv).
    assert (str' = str) as -> by (apply (str_at_unique 1 m s); done).
    rewrite (proj2 (Z.ltb_lt _ _)) by done. split_and!; [|done|].
    + apply (str_at_ext 1 m m' s d str); [|lia|done]. intros i Hi. rewrite Hmv. unfold moved. rewrite Z.mul_1_l in *. on_addr.
    + intros a Ha. rewrite Hmv. unfold moved. rewrite Z.mul_1_l. on_addr.
  - destruct (Her Es) as (-> & Hno).
    destruct (Z.ltb_spec (zlen str) max) as [Hlt|Hge].
    + destruct (Hno str Hstr). unfold copy_allowed. rewrite !Z.mul_1_r. done.
    + split_and!; [done|split; [done|lia]|done].
Qed.

Lemma byte_mem_poke m a l : byte_mem m -> is_bytes l -> byte_mem (poke m a l).
Proof.
  intros Hm Hl x. unfold poke. case_match; [|apply Hm]. bool_hyps. unfold zget.
  destruct (lookup_lt_is_Some_2 l (Z.to_nat (x - a))) as (c & E); [unfold zlen in *; lia|].
  rewrite nth_lookup, E. cbn. by apply (proj1 (Forall_lookup _ _) Hl _ _ E).
Qed.

(** "a" at 16, "bc" at 64. *)
Definition demo_strings : phys := poke (poke (fun _ => 0) 16 [97; 0]) 64 [98; 99; 0].

Lemma demo_strings_ok : byte_mem demo_strings /\ str_at 1 demo_strings 16 [97] /\ str_at 1 demo_strings 64 [98; 99].
Proof.
  split.
  - apply byte_mem_poke; [apply byte_mem_poke; [intros a; lia|]|]; repeat constructor; lia.
  - split; (split; [|reflexivity]); intros i Hi; unfold zlen in Hi; cbn in Hi.
    + assert (i = 0) as -> by lia. by split.
    + assert (i = 0 \/ i = 1) as [-> | ->] by lia; by split.
Qed.

Lemma ascii_strcpy_refines_witness : exists st m',
  AsciiStrCpyS demo_strings 16 8 64 = Ret (st, m') /\ str_at 1 m' 16 [98; 99] /\ (st = RETURN_SUCCESS <-> 2 < 8) /\
  (forall a, a < 16 \/ 24 <= a -> m' a = demo_strings a).
Proof.
  destruct demo_strings_ok as (Hb & H1 & H2).
  apply (ascii_strcpy_refines demo_strings 16 8 64 [97] [98; 99]); try done; unfold ptr_ok, apart, ASCII_RSIZE_MAX, zlen; cbn [length]; lia.
Defined.

(** ** The functions of String.c *)

Section Plain.
Context (w : Z).

(** [for (Length = 0; *String != 0; String++, Length++)] *)
Fixpoint str_len_loop (fuel : nat) (m : phys) (String Length : Z) : run Z :=
  if getc w m String =? 0 then mret Length
  else match fuel with O => OutOfFuel | S fuel => str_len_loop fuel m (String + w) (Length + 1) end.

(** The places where [while ( *a != 0 && *a == *b)] stops. *)
Fixpoint cmp_loop (fuel : nat) (m : phys) (a b : Z) : run (Z * Z) :=
  if negb (getc w m a =? 0) && (getc w m a =? getc w m b) then
    match fuel with O => OutOfFuel | S fuel => cmp_loop fuel m (a + w) (b + w) end
  else mret (a, b).

(** The inner loop of [AsciiStrStr]. *)
Fixpoint match_loop (fuel : nat) (m : phys) (str tmp : Z) : run (Z * Z) :=
  if (getc w m str =? getc w m tmp) && negb (getc w m str =? 0) then
    match fuel with O => OutOfFuel | S fuel => match_loop fuel m (str + w) (tmp + w) end
  else mret (str, tmp).

Fixpoint strstr_loop (fuel : nat) (m : phys) (String SearchString : Z) : run Z :=
  if getc w m String =? 0 then mret 0
  else
    r ← match_loop fuel m String SearchString;
    if getc w m (snd r) =? 0 then mret String
    else if getc w m (fst r) =? 0 then mret 0
    else match fuel with O => OutOfFuel | S fuel => strstr_loop fuel m (String + w) SearchString end.

(** [while (p( *String)) String++;] *)
Fixpoint skip_loop (p : Z -> bool) (fuel : nat) (m : phys) (String : Z) : run Z :=
  if p (getc w m String) then match fuel with O => OutOfFuel | S fuel => skip_loop p fuel m (String + w) end
  else mret String.

(** The digits: [Data], where the scan stopped, and whether the number overflowed. *)
Fixpoint digits_loop (fuel : nat) (m : phys) (String Data : Z) : run (Z * Z * bool) :=
  let c := getc w m String in
  if (48 <=? c) && (c <=? 57) then
    if (MAX_UINTN - (c - 48)) / 10 <? Data then mret (MAX_UINTN, String, true)
    else match fuel with O => OutOfFuel | S fuel => digits_loop fuel m (String + w) (Data * 10 + (c - 48)) end
  else mret (Data, String, false).
End Plain.

Definition StrLen (fuel : nat) (m : phys) (String : Z) : run Z := str_len_loop 2 fuel m String 0.
Definition AsciiStrLen (fuel : nat) (m : phys) (String : Z) : run Z := str_len_loop 1 fuel m String 0.
Definition StrSize (fuel : nat) (m : phys) (String : Z) : run Z := n ← StrLen fuel m String; mret (u64 ((n + 1) * 2)).
Definition AsciiStrSize (fuel : nat) (m : phys) (String : Z) : run Z := n ← AsciiStrLen fuel m String; mret (u64 ((n + 1) * 1)).

Definition StrCmp (fuel : nat) (m : phys) (a b : Z) : run Z :=
  r ← cmp_loop 2 fuel m a b; mret (getc 2 m (fst r) - getc 2 m (snd r)).

(** A [CHAR8] is a signed [char]. *)
Definition char_val (c : Z) : Z := if c <? 128 then c else c - 256.
Definition AsciiStrCmp (fuel : nat) (m : phys) (a b : Z) : run Z :=
  r ← cmp_loop 1 fuel m a b; mret (char_val (getc 1 m (fst r)) - char_val (getc 1 m (snd r))).

(** [Length - 1] more steps at most. *)
Fixpoint strn_cmp_loop (n : nat) (m : phys) (a b : Z) : Z * Z :=
  match n with
  | O => (a, b)
  | S n => if negb (getc 1 m a =? 0) && negb (getc 1 m b =? 0) && (getc 1 m a =? getc 1 m b)
           then strn_cmp_loop n m (a + 1) (b + 1) else (a, b)
  end.
Definition AsciiStrnCmp (m : phys) (a b Length : Z) : Z :=
  if Length =? 0 then 0
  else let r := strn_cmp_loop (Z.to_nat (Length - 1)) m a b in char_val (getc 1 m (fst r)) - char_val (getc 1 m (snd r)).

Definition AsciiStrStr (fuel : nat) (m : phys) (String SearchString : Z) : run Z :=
  if getc 1 m SearchString =? 0 then mret String else strstr_loop 1 fuel m String SearchString.

(** The status, [*Data] and [*EndPointer]. *)
Definition AsciiStrDecimalToUintnS (fuel : nat) (m : phys) (String : Z) (Data : bool) : run (Z * option (Z * Z)) :=
  if String =? 0 then mret (RETURN_INVALID_PARAMETER, None)
  else if negb Data then mret (RETURN_INVALID_PARAMETER, None)
  else if negb (ASCII_RSIZE_MAX =? 0) && (ASCII_RSIZE_MAX <? AsciiStrnLenS m String (ASCII_RSIZE_MAX + 1))
  then mret (RETURN_INVALID_PARAMETER, None)
  else
    p ← skip_loop 1 (fun c => (c =? 32) || (c =? 9)) fuel m String;
    p ← skip_loop 1 (fun c => c =? 48) fuel m p;
    r ← digits_loop 1 fuel m p 0;
    let '(data, stop, overflow) := (r : Z * Z * bool) in
    mret (if overflow then RETURN_UNSUPPORTED else RETURN_SUCCESS, Some (data, stop)).

(** The wrapper leaves 0 for an invalid parameter. *)
Definition AsciiStrDecimalToUintn (fuel : nat) (m : phys) (String : Z) : run Z :=
  r ← AsciiStrDecimalToUintnS fuel m String true;
  mret (match snd r with Some (data, _) => data | None => 0 end).

(** ** What they compute *)

Lemma str_at_nil w m p : str_at w m p [] <-> getc w m p = 0.
Proof.
  unfold str_at. change (zlen (@nil Z)) with 0. rewrite Z.mul_0_r, Z.add_0_r. split; [by intros (_ & ?)|].
  intros H. split; [intros i Hi; lia|done].
Qed.

Lemma str_at_cons w m p c s : str_at w m p (c :: s) <-> getc w m p = c /\ c <> 0 /\ str_at w m (p + w) s.
Proof.
  assert (El : zlen (c :: s) = zlen s + 1) by (unfold zlen; cbn [length]; lia). pose proof (zlen_nonneg s).
  assert (Hz : forall i, 0 <= i -> zget (c :: s) (i + 1) = zget s i).
  { intros i Hi. unfold zget. by replace (Z.to_nat (i + 1)) with (S (Z.to_nat i)) by lia. }
  unfold str_at. rewrite El. split.
  - intros (H1 & H2). destruct (H1 0 ltac:(lia)) as (E & Hn). rewrite Z.mul_0_r, Z.add_0_r in E. change (zget (c :: s) 0) with c in *.
    split; [done|]. split; [done|]. split.
    + intros i Hi. destruct (H1 (i + 1) ltac:(lia)) as (E' & Hn'). rewrite Hz in * by lia. split; [|done]. rewrite <- E'. f_equal. lia.
    + rewrite <- H2. f_equal. lia.
  - intros (E & Hn & H1 & H2). split.
    + intros i Hi. destruct (Z.eq_dec i 0) as [->|Hne]; [rewrite Z.mul_0_r, Z.add_0_r; by split|].
      destruct (H1 (i - 1) ltac:(lia)) as (E' & Hn'). rewrite <- Hz in * by lia. replace (i - 1 + 1) with i in * by lia.
      split; [|done]. rewrite <- E'. f_equal. lia.
    + rewrite <- H2. f_equal. lia.
Qed.

Lemma str_at_head w m p s : str_at w m p s -> getc w m p = match s with [] => 0 | c :: _ => c end.
Proof. destruct s; [by intros ?%str_at_nil|by intros (? & _)%str_at_cons]. Qed.

(** [StrLen] and [AsciiStrLen] give the length. *)
Lemma str_len_ok w m s : forall p n fuel, str_at w m p s -> (length s <= fuel)%nat -> str_len_loop w fuel m p n = Ret (n + zlen s).
Proof.
  induction s as [|c s IH]; intros p n fuel Hs Hf.
  - apply str_at_nil in Hs. destruct fuel; cbn [str_len_loop]; rewrite Hs; by rewrite Z.add_0_r.
  - apply str_at_cons in Hs as (E & Hc & Hs). destruct fuel as [|fuel]; [cbn in Hf; lia|]. cbn [str_len_loop].
    rewrite E, (proj2 (Z.eqb_neq c 0)) by done. rewrite (IH _ _ fuel Hs) by (cbn in Hf; lia).
    f_equal. unfold zlen. cbn [length]. lia.
Qed.

(** The comparison stops where the strings differ, or at the end of both. *)
Lemma cmp_loop_ok w m a' : forall b' a b fuel, str_at w m a a' -> str_at w m b b' -> (length a' <= fuel)%nat ->
  exists pa pb, cmp_loop w fuel m a b = Ret (pa, pb) /\ (getc w m pa = getc w m pb <-> a' = b').
Proof.
  induction a' as [|x a' IH]; intros b' a b fuel Ha Hb Hf.
  - apply str_at_nil in Ha. exists a, b. pose proof (str_at_head w m b b' Hb) as Eb.
    split; [destruct fuel; cbn [cmp_loop]; by rewrite Ha|]. rewrite Ha, Eb.
    destruct b' as [|y b']; [done|]. apply str_at_cons in Hb as (_ & Hy & _). split; [congruence|done].
  - apply str_at_cons in Ha as (Ea & Hx & Ha). destruct fuel as [|fuel]; [cbn in Hf; lia|]. cbn [cmp_loop].
    rewrite Ea, (proj2 (Z.eqb_neq x 0)) by done. cbn [negb andb].
    destruct b' as [|y b'].
    + apply str_at_nil in Hb. rewrite Hb, (proj2 (Z.eqb_neq x 0)) by done. exists a, b. split; [done|]. rewrite Ea, Hb. split; [done|done].
    + apply str_at_cons in Hb as (Eb & Hy & Hb). rewrite Eb. destruct (Z.eqb_spec x y) as [->|Hne].
      * destruct (IH b' (a + w) (b + w) fuel Ha Hb ltac:(cbn in Hf; lia)) as (pa & pb & E & Hiff). exists pa, pb. split; [done|].
        rewrite Hiff. split; [by intros ->|by intros [= ->]].
      * exists a, b. split; [done|]. rewrite Ea, Eb. split; [done|by intros [= ? ?]].
Qed.

Lemma char_val_inj x y : 0 <= x < 256 -> 0 <= y < 256 -> char_val x = char_val y -> x = y.
Proof. unfold char_val. intros Hx Hy. destruct (Z.ltb_spec x 128), (Z.ltb_spec y 128); lia. Qed.

Lemma getc_range w m p : 0 <= w -> byte_mem m -> 0 <= getc w m p < 256 ^ w.
Proof.
  intros Hw Hm. unfold getc, fetch_le. pose proof (le_val_range (fetch m p w) (is_bytes_fetch m p w Hm)) as H.
  by rewrite zlen_fetch in H.
Qed.

(** [AsciiStrCmp] is 0 exactly on equal strings. *)
Theorem ascii_strcmp_equal m a b a' b' fuel : byte_mem m -> str_at 1 m a a' -> str_at 1 m b b' -> (length a' <= fuel)%nat ->
  exists r, AsciiStrCmp fuel m a b = Ret r /\ (r = 0 <-> a' = b').
Proof.
  intros Hm Ha Hb Hf. destruct (cmp_loop_ok 1 m a' b' a b fuel Ha Hb Hf) as (pa & pb & E & Hiff).
  unfold AsciiStrCmp. rewrite E. bind_step. eexists. split; [reflexivity|]. cbn [fst snd]. rewrite <- Hiff. split; [|intros ->; lia].
  intros H. apply char_val_inj; [apply (getc_range 1); [lia|done]..|lia].
Qed.

Lemma prefix_of_length pat : forall s, prefix_of pat s = true -> (length pat <= length s)%nat.
Proof.
  induction pat as [|x pat IH]; intros [|c s] H; cbn in *; try done; [lia|]. bool_hyps. apply IH in H0. lia.
Qed.

Lemma strstr_short s : forall pat, (length s < length pat)%nat -> BootConfig.AsciiStrStr s pat = None.
Proof.
  induction s as [|c s IH]; intros pat H; cbn [BootConfig.AsciiStrStr].
  - destruct (prefix_of pat []) eqn:E; [apply prefix_of_length in E; cbn in *; lia|done].
  - destruct (prefix_of pat (c :: s)) eqn:E; [apply prefix_of_length in E; lia|]. apply IH. cbn in H. lia.
Qed.

(** The inner loop reaches the end of the pattern exactly on a match, and otherwise
    the end of the string only when what is left is shorter than the pattern. *)
Lemma match_loop_ok w m s : forall pat p q fuel, str_at w m p s -> str_at w m q pat -> (length s <= fuel)%nat ->
  exists p' q', match_loop w fuel m p q = Ret (p', q') /\ (getc w m q' = 0 <-> prefix_of pat s = true) /\
    (getc w m q' <> 0 -> getc w m p' = 0 -> (length s < length pat)%nat).
Proof.
  induction s as [|c s IH]; intros pat p q fuel Hs Hp Hf.
  - apply str_at_nil in Hs. exists p, q. rewrite Hs.
    assert (Em : match_loop w fuel m p q = Ret (p, q)) by (destruct fuel; cbn [match_loop]; by rewrite Hs, andb_false_r).
    split; [done|]. pose proof (str_at_head w m q pat Hp) as Eq. rewrite Eq.
    destruct pat as [|x pat]; [split; [done|done]|]. apply str_at_cons in Hp as (_ & Hx & _). cbn. split; [done|lia].
  - apply str_at_cons in Hs as (Es & Hc & Hs). destruct fuel as [|fuel]; [cbn in Hf; lia|]. cbn [match_loop].
    rewrite Es, (proj2 (Z.eqb_neq c 0)) by done. cbn [negb]. rewrite andb_true_r.
    destruct pat as [|x pat].
    + apply str_at_nil in Hp. rewrite Hp, (proj2 (Z.eqb_neq c 0)) by done. exists p, q. split; [done|]. by rewrite Hp.
    + apply str_at_cons in Hp as (Ep & Hx & Hp). rewrite Ep. destruct (Z.eqb_spec c x) as [->|Hne].
      * destruct (IH pat (p + w) (q + w) fuel Hs Hp ltac:(cbn in Hf; lia)) as (p' & q' & E & H1 & H2).
        exists p', q'. split; [done|]. cbn [prefix_of length]. rewrite Z.eqb_refl. cbn [andb]. split; [done|]. intros A B. specialize (H2 A B). lia.
      * exists p, q. split; [done|]. cbn [prefix_of]. rewrite (proj2 (Z.eqb_neq c x)) by done. cbn [andb]. rewrite Ep, Es. done.
Qed.

Lemma strstr_loop_ok m q pat : pat <> [] -> str_at 1 m q pat -> forall s p fuel, 0 < p -> str_at 1 m p s -> (length s <= fuel)%nat ->
  exists r, strstr_loop 1 fuel m p q = Ret r /\
    match BootConfig.AsciiStrStr s pat with
    | Some suf => r = p + (zlen s - zlen suf) /\ str_at 1 m r suf
    | None => r = 0
    end.
Proof.
  intros Hne Hq. induction s as [|c s IH]; intros p fuel Hp Hs Hf.
  - exists 0. rewrite strstr_short by (destruct pat; [done|cbn; lia]). split; [|done].
    apply str_at_nil in Hs. destruct fuel; cbn [strstr_loop]; by rewrite Hs.
  - pose proof Hs as Hs0. apply str_at_cons in Hs as (Es & Hc & Hs). destruct fuel as [|fuel]; [cbn in Hf; lia|].
    destruct (match_loop_ok 1 m (c :: s) pat p q (S fuel) Hs0 Hq Hf) as (p' & q' & Em & H1 & H2).
    cbn [strstr_loop]. rewrite Es, (proj2 (Z.eqb_neq c 0)) by done. rewrite Em. bind_step. cbn [fst snd].
    cbn [BootConfig.AsciiStrStr]. destruct (Z.eqb_spec (getc 1 m q') 0) as [E0|E0].
    + rewrite (proj1 H1 E0). exists p. split; [done|]. split; [lia|done].
    + destruct (prefix_of pat (c :: s)) eqn:Epre; [by destruct E0; apply H1|].
      destruct (Z.eqb_spec (getc 1 m p') 0) as [E1|E1].
      * exists 0. split; [done|]. rewrite strstr_short; [done|]. specialize (H2 E0 E1). cbn in H2. lia.
      * destruct (IH (p + 1) fuel ltac:(lia) Hs ltac:(cbn in Hf; lia)) as (r & E & Hr). exists r. split; [done|].
        destruct (BootConfig.AsciiStrStr s pat) as [suf|]; [|done]. destruct Hr as (-> & Hr). split; [|done].
        unfold zlen. cbn [length]. lia.
Qed.

(** EDK2's [AsciiStrStr] finds the first match, or NULL. *)
Lemma ascii_strstr_ok m p q s pat fuel : 0 < p -> str_at 1 m p s -> str_at 1 m q pat -> (length s <= fuel)%nat ->
  exists r, AsciiStrStr fuel m p q = Ret r /\
    match BootConfig.AsciiStrStr s pat with
    | Some suf => r = p + (zlen s - zlen suf) /\ str_at 1 m r suf
    | None => r = 0
    end.
Proof.
  intros Hp Hs Hq Hf. unfold AsciiStrStr. rewrite (str_at_head 1 m q pat Hq). destruct pat as [|x pat].
  - exists p. cbn [Z.eqb]. split; [done|]. assert (BootConfig.AsciiStrStr s [] = Some s) as -> by by destruct s. split; [lia|done].
  - pose proof Hq as Hq'. apply str_at_cons in Hq' as (_ & Hx & _). rewrite (proj2 (Z.eqb_neq x 0)) by done. by apply strstr_loop_ok.
Qed.

(** ** Numbers *)

Lemma skip_loop_ok m p s : p 0 = false -> forall a fuel, str_at 1 m a s -> (length s <= fuel)%nat ->
  exists a', skip_loop 1 p fuel m a = Ret a' /\ str_at 1 m a' (drop_while p s).
Proof.
  intros H0. induction s as [|c s IH]; intros a fuel Hs Hf.
  - pose proof Hs as E%str_at_nil. exists a. split; [|done]. destruct fuel; cbn [skip_loop]; by rewrite E, H0.
  - pose proof Hs as Hs0. apply str_at_cons in Hs as (E & Hc & Hs). destruct fuel as [|fuel]; [cbn in Hf; lia|].
    cbn [skip_loop drop_while]. rewrite E. destruct (p c); [|by exists a]. apply IH; [done|cbn in Hf; lia].
Qed.

Lemma drop_while_le p s : (length (drop_while p s) <= length s)%nat.
Proof. induction s as [|c s IH]; cbn [drop_while]; [done|]. destruct (p c); cbn [length]; lia. Qed.

Lemma digits_loop_ok m s : forall a data fuel, str_at 1 m a s -> (length s <= fuel)%nat ->
  exists stop ov, digits_loop 1 fuel m a data = Ret (decimal_loop data s, stop, ov).
Proof.
  induction s as [|c s IH]; intros a data fuel Hs Hf.
  - apply str_at_nil in Hs. exists a, false. destruct fuel; cbn [digits_loop decimal_loop]; by rewrite Hs.
  - apply str_at_cons in Hs as (E & Hc & Hs). destruct fuel as [|fuel]; [cbn in Hf; lia|]. cbn [digits_loop decimal_loop].
    rewrite E. unfold is_digit. destruct ((48 <=? c) && (c <=? 57)); [|by exists a, false].
    change (MAX_UINTN) with (2 ^ 64 - 1). destruct (_ <? data); [by exists a, true|]. apply IH; [done|cbn in Hf; lia].
Qed.

(** C22. The string functions of EDK2 the configuration is parsed with compute what
    their models in the configuration code compute, for every string in memory of
    at most [ASCII_RSIZE_MAX] characters: [AsciiStrLen] the length, [AsciiStrStr] the
    first match (or NULL), and [AsciiStrDecimalToUintn] the number, saturating at
    [MAX_UINTN]; fuel of the length of the string is enough. *)
Theorem edk_strings_refine m p q s pat fuel : 0 < p -> str_at 1 m p s -> str_at 1 m q pat ->
  zlen s <= ASCII_RSIZE_MAX -> (length s <= fuel)%nat ->
  AsciiStrLen fuel m p = Ret (zlen s) /\
  (exists r, AsciiStrStr fuel m p q = Ret r /\
     match BootConfig.AsciiStrStr s pat with
     | Some suf => r = p + (zlen s - zlen suf) /\ str_at 1 m r suf
     | None => r = 0
     end) /\
  AsciiStrDecimalToUintn fuel m p = Ret (BootConfig.AsciiStrDecimalToUintn s).
Proof.
  intros Hp Hs Hq Hl Hf. split; [apply (str_len_ok 1 m s p 0); done|]. split; [by apply ascii_strstr_ok|].
  unfold AsciiStrDecimalToUintn, AsciiStrDecimalToUintnS, AsciiStrnLenS.
  rewrite (proj2 (Z.eqb_neq p 0)) by lia. rewrite (strn_len_at 1 m p _ s) by (unfold ASCII_RSIZE_MAX in *; lia || done). cbn [negb].
  rewrite (proj2 (Z.ltb_ge ASCII_RSIZE_MAX _)), andb_false_r by lia.
  set (blanks := fun c => (c =? 32) || (c =? 9)).
  destruct (skip_loop_ok m blanks s eq_refl p fuel Hs Hf) as (a1 & -> & H1). bind_step.
  pose proof (drop_while_le blanks s).
  destruct (skip_loop_ok m (fun c => c =? 48) (drop_while blanks s) eq_refl a1 fuel H1 ltac:(lia)) as (a2 & -> & H2). bind_step.
  pose proof (drop_while_le (fun c => c =? 48) (drop_while blanks s)).
  destruct (digits_loop_ok m _ a2 0 fuel H2 ltac:(lia)) as (stop & ov & ->). bind_step. bind_step. reflexivity.
Qed.

Lemma edk_strings_refine_witness :
  AsciiStrLen 2 demo_strings 64 = Ret 2 /\
  (exists r, AsciiStrStr 2 demo_strings 64 16 = Ret r /\ r = 0) /\ AsciiStrDecimalToUintn 2 demo_strings 64 = Ret 0.
Proof.
  destruct demo_strings_ok as (_ & H1 & H2). 
  apply (edk_strings_refine demo_strings 64 16 [98; 99] [97] 2); [lia|exact H2|exact H1|unfold zlen, ASCII_RSIZE_MAX; cbn [length]; lia|cbn; lia].
Defined.

(** ** From [CHAR16] to [CHAR8] *)

(** [while ( *Source != 0) *(Destination++) = (CHAR8)*(Source++); *Destination = 0;] *)
Fixpoint narrow_loop (fuel : nat) (m : phys) (Destination Source : Z) : run phys :=
  if getc 2 m Source =? 0 then mret (putc 1 m Destination 0)
  else match fuel with
  | O => OutOfFuel
  | S fuel => narrow_loop fuel (putc 1 m Destination (u8 (getc 2 m Source))) (Destination + 1) (Source + 2)
  end.

Definition UnicodeStrToAsciiStrS (m : phys) (Source Destination DestMax : Z) : run (Z * phys) :=
  if Destination =? 0 then mret (RETURN_INVALID_PARAMETER, m)
  else if Source =? 0 then mret (RETURN_INVALID_PARAMETER, m)
  else if negb (ASCII_RSIZE_MAX =? 0) && (ASCII_RSIZE_MAX <? DestMax) then mret (RETURN_INVALID_PARAMETER, m)
  else if negb (RSIZE_MAX =? 0) && (RSIZE_MAX <? DestMax) then mret (RETURN_INVALID_PARAMETER, m)
  else if DestMax =? 0 then mret (RETURN_INVALID_PARAMETER, m)
  else
    let SourceLen := StrnLenS m Source DestMax in
    if DestMax <=? SourceLen then mret (RETURN_BUFFER_TOO_SMALL, m)
    else if InternalSafeStringIsOverlap Destination DestMax Source (u64 ((SourceLen + 1) * 2))
    then mret (RETURN_ACCESS_DENIED, m)
    else m ← narrow_loop (Z.to_nat SourceLen) m Destination Source; mret (RETURN_SUCCESS, m).

(** The low bytes of [k] characters. *)
Definition narrowed (m : phys) (d s k : Z) : phys :=
  fun a => if (d <=? a) && (a <? d + k) then m (s + 2 * (a - d)) else m a.

Lemma fetch_two m p : fetch m p 2 = [m p; m (p + 1)].
Proof. unfold fetch. rewrite !seqZ_cons, seqZ_nil by lia. done. Qed.

Lemma getc_two m p : getc 2 m p = m p + 256 * m (p + 1).
Proof. unfold getc, fetch_le. rewrite fetch_two. cbn [le_val]. lia. Qed.

Lemma putc_one m p c a : putc 1 m p c a = if (p <=? a) && (a <? p + 1) then c mod 256 else m a.
Proof.
  unfold putc, poke_le, poke. change (le_bytes (Z.to_nat 1) c) with [c mod 256]. change (zlen [c mod 256]) with 1.
  case_match; [|done]. bool_hyps. by replace (a - p) with 0 by lia.
Qed.

Lemma narrow_loop_ok m0 d s L : byte_mem m0 -> 0 <= L -> apart d (L + 1) s (2 * (L + 1)) ->
  (forall i, 0 <= i < L -> getc 2 m0 (s + 2 * i) <> 0) -> getc 2 m0 (s + 2 * L) = 0 ->
  forall fuel k m, k + Z.of_nat fuel = L -> 0 <= k -> (forall a, m a = narrowed m0 d s k a) ->
  exists m', narrow_loop fuel m (d + k) (s + 2 * k) = Ret m' /\
    forall a, m' a = if a =? d + L then 0 else narrowed m0 d s L a.
Proof.
  intros Hb HL Ha Hnz Hz.
  assert (Hsrc : forall k m, 0 <= k <= L -> (forall a, m a = narrowed m0 d s k a) -> getc 2 m (s + 2 * k) = getc 2 m0 (s + 2 * k)).
  { intros k m Hk Hm. apply getc_ext. intros i Hi. rewrite Hm. unfold narrowed, apart in *. on_addr. }
  induction fuel as [|fuel IH]; intros k m Hk Hk0 Hm; cbn [narrow_loop]; rewrite (Hsrc k m) by (lia || done).
  - assert (k = L) by lia. subst k. rewrite Hz. cbn [Z.eqb]. eexists. split; [reflexivity|]. intros a. rewrite putc_one, Hm.
    destruct (Z.eqb_spec a (d + L)) as [->|]; on_addr.
  - rewrite (proj2 (Z.eqb_neq _ _)) by (apply Hnz; lia).
    replace (d + k + 1) with (d + (k + 1)) by lia. replace (s + 2 * k + 2) with (s + 2 * (k + 1)) by lia.
    apply IH; [lia|lia|]. intros a. rewrite putc_one. rewrite getc_two, Hm.
    assert (wrap 8 (m0 (s + 2 * k) + 256 * m0 (s + 2 * k + 1)) mod 256 = m0 (s + 2 * k)) as ->.
    { unfold wrap. change (2 ^ 8) with 256. rewrite Zmod_mod. replace (256 * m0 (s + 2 * k + 1)) with (m0 (s + 2 * k + 1) * 256) by lia.
      rewrite Z_mod_plus_full. apply Z.mod_small, Hb. }
    unfold narrowed. on_addr.
Qed.

Lemma unicode_to_ascii_at m u : forall p room, byte_mem m -> str_at 2 m p u ->
  unicode_to_ascii room (fetch m p (2 * (zlen u + 1))) =
  Ret (if decide (zlen u < Z.of_nat room) then Some ((fun i => m (p + 2 * i)) <$> seqZ 0 (zlen u)) else None).
Proof.
  intros p room Hb. revert p room. induction u as [|c u IH]; intros p room Hs.
  - apply str_at_nil in Hs. rewrite getc_two in Hs. pose proof (Hb p). pose proof (Hb (p + 1)).
    change (2 * (zlen [] + 1)) with 2. rewrite fetch_two.
    destruct room as [|room]; [by rewrite decide_False by (unfold zlen; cbn; lia)|]. cbn [unicode_to_ascii].
    rewrite !(proj2 (Z.eqb_eq _ _)) by lia. cbn [andb]. by rewrite decide_True by (unfold zlen; cbn [length]; lia).
  - apply str_at_cons in Hs as (E & Hc & Hs). assert (El : zlen (c :: u) = zlen u + 1) by (unfold zlen; cbn [length]; lia).
    pose proof (zlen_nonneg u). rewrite El. replace (2 * (zlen u + 1 + 1)) with (2 + 2 * (zlen u + 1)) by lia. rewrite fetch_app by lia.
    rewrite fetch_two. cbn [app].
    destruct room as [|room]; [by rewrite decide_False by lia|]. cbn [unicode_to_ascii].
    assert (((m p =? 0) && (m (p + 1) =? 0)) = false) as ->.
    { rewrite getc_two in E. destruct (Z.eqb_spec (m p) 0), (Z.eqb_spec (m (p + 1)) 0); cbn [andb]; try done. lia. }
    rewrite (IH (p + 2) room Hs). bind_step.
    destruct (decide (zlen u < Z.of_nat room)); [rewrite decide_True by lia|by rewrite decide_False by lia].
    rewrite (seqZ_cons 0 (zlen u + 1)) by lia. cbn [fmap list_fmap]. rewrite Z.mul_0_r, Z.add_0_r. do 3 f_equal.
    replace (Z.pred (zlen u + 1)) with (zlen u) by lia. change (Z.succ 0) with (1 + 0).
    rewrite <- fmap_add_seqZ, <- list_fmap_compose. apply list_fmap_ext. intros i x _. cbn. f_equal. lia.
Qed.

(** EDK2's [UnicodeStrToAsciiStrS], with which the configuration reads UEFI
    variables, does what its model says: a string that fits is stored as the low
    bytes of its characters with a NUL, one that does not is refused and nothing is
    changed; outside the destination nothing is written. *)
Theorem unicode_to_ascii_refines m s d max u : byte_mem m -> str_at 2 m s u -> d <> 0 -> s <> 0 ->
  0 < max <= ASCII_RSIZE_MAX -> ptr_ok 1 d max -> ptr_ok 2 s (zlen u + 1) -> apart d max s (2 * (zlen u + 1)) ->
  exists st m', UnicodeStrToAsciiStrS m s d max = Ret (st, m') /\
    match unicode_to_ascii (Z.to_nat max) (fetch m s (2 * (zlen u + 1))) with
    | Ret (Some a) => st = RETURN_SUCCESS /\ holds m' d (a ++ [0]) /\ forall x, x < d \/ d + max <= x -> m' x = m x
    | Ret None => st = RETURN_BUFFER_TOO_SMALL /\ m' = m
    | _ => False
    end.
Proof.
  intros Hb Hu Hd Hs Hmax (D1 & D2) (S1 & S2) Hap. pose proof (zlen_nonneg u). rewrite unicode_to_ascii_at by done.
  unfold UnicodeStrToAsciiStrS, StrnLenS. change RSIZE_MAX with ASCII_RSIZE_MAX.
  rewrite (proj2 (Z.eqb_neq d 0)), (proj2 (Z.eqb_neq s 0)), (proj2 (Z.ltb_ge ASCII_RSIZE_MAX max)), (proj2 (Z.eqb_neq max 0)), !andb_false_r by lia.
  rewrite (strn_len_at 2 m s max u) by (lia || done). cbv zeta. rewrite Z2Nat.id by lia.
  destruct (decide (zlen u < max)) as [Hlt|Hge]; cycle 1.
  { rewrite (proj2 (Z.leb_le _ _)) by lia. by eexists _, m. }
  rewrite (proj2 (Z.leb_gt _ _)) by lia. rewrite Z.min_l by lia. rewrite wrap_small by (unfold in_u; lia).
  rewrite overlap_false; [|lia|lia|lia|lia|lia|lia|by replace ((zlen u + 1) * 2) with (2 * (zlen u + 1)) by lia].
  destruct (narrow_loop_ok m d s (zlen u) Hb ltac:(lia) ltac:(apply (apart_shrink _ _ _ _ _ _ Hap); lia)
    ltac:(intros i Hi; destruct (proj1 Hu i Hi) as (-> & ?); done) (proj2 Hu) (length u) 0 m) as (m' & E & Hm'); [done|lia| |].
  { intros a. unfold narrowed. on_addr. }
  rewrite Z.mul_0_r, !Z.add_0_r in E. unfold zlen at 1. rewrite Nat2Z.id, E. bind_step. eexists _, m'. split; [reflexivity|].
  split; [done|]. split.
  - apply holds_app. assert (El : zlen ((fun i => m (s + 2 * i)) <$> seqZ 0 (zlen u)) = zlen u)
      by (unfold zlen at 1; rewrite length_fmap, length_seqZ; lia). rewrite El. split.
    + apply holds_iff. rewrite El. intros i Hi. rewrite Hm'. unfold zget. rewrite nth_lookup, list_lookup_fmap, lookup_seqZ_lt by lia.
      rewrite (proj2 (Z.eqb_neq _ _)) by lia. cbn. unfold narrowed. on_addr.
    + apply holds_iff. change (zlen [0]) with 1. intros i Hi. rewrite Hm'. rewrite (proj2 (Z.eqb_eq _ _)) by lia. by assert (i = 0) as -> by lia.
  - intros x Hx. rewrite Hm'. rewrite (proj2 (Z.eqb_neq _ _)) by lia. unfold narrowed. on_addr.
Qed.

(** "A" as [CHAR16] at 32. *)
Definition demo_wide : phys := poke (fun _ => 0) 32 [65; 0; 0; 0].

Lemma demo_wide_ok : byte_mem demo_wide /\ str_at 2 demo_wide 32 [65].
Proof.
  split; [apply byte_mem_poke; [intros a; lia|repeat constructor; lia]|].
  split; [|reflexivity]. intros i Hi. unfold zlen in Hi; cbn in Hi. assert (i = 0) as -> by lia. by split.
Qed.

Lemma unicode_to_ascii_refines_witness : exists st m',
  UnicodeStrToAsciiStrS demo_wide 32 64 4 = Ret (st, m') /\
  match unicode_to_ascii 4 (fetch demo_wide 32 4) with
  | Ret (Some a) => st = RETURN_SUCCESS /\ holds m' 64 (a ++ [0]) /\ forall x, x < 64 \/ 68 <= x -> m' x = demo_wide x
  | Ret None => st = RETURN_BUFFER_TOO_SMALL /\ m' = demo_wide
  | _ => False
  end.
Proof.
  destruct demo_wide_ok as (Hb & Hu).
  apply (unicode_to_ascii_refines demo_wide 32 64 4 [65]); try done; unfold ptr_ok, apart, ASCII_RSIZE_MAX, zlen; cbn [length]; lia.
Defined.

(** The name of a new menu entry is what [StrnCpyS] stores: the first 63
    characters, with a NUL, in the 64 of the entry. *)
Theorem boot_entry_name_stored m d s name mn f : byte_mem m -> str_at 2 m s name -> d <> 0 -> s <> 0 ->
  ptr_ok 2 d MAX_ENTRY_LENGTH -> ptr_ok 2 s (zlen name + 1) -> apart d (MAX_ENTRY_LENGTH * 2) s ((zlen name + 1) * 2) ->
  BootEntryCount mn < MAX_BOOT_ENTRIES ->
  exists m' e, StrnCpyS m d MAX_ENTRY_LENGTH s (MAX_ENTRY_LENGTH - 1) = (RETURN_SUCCESS, m') /\
    last (BootEntries (snd (AddBootEntry mn name f))) = Some e /\ str_at 2 m' d (entry_name e) /\
    forall a, a < d \/ d + MAX_ENTRY_LENGTH * 2 <= a -> m' a = m a.
Proof.
  intros Hm Hn Hd Hs Pd Ps Ha Hc. unfold AddBootEntry. rewrite (proj2 (Z.leb_gt _ _)) by lia. cbn [snd BootEntries]. rewrite last_snoc.
  unfold StrnCpyS, MAX_ENTRY_LENGTH in *. pose proof (zlen_nonneg name).
  destruct (strn_cpy_s_ok 2 RSIZE_MAX m d 64 s (64 - 1) name) as (m' & E & Hat & Hcp); try done; try (unfold RSIZE_MAX; lia).
  eexists m', _. split; [exact E|]. split; [reflexivity|]. split; [exact Hat|]. intros a Ho. rewrite Hcp. unfold copied, moved. on_addr.
Qed.
