(* ===== verification/EdkPrint.v ===== *)
(** * EDK2's formatted output (src/Edk2BHModules/MdePkg/Library/BasePrintLib)

    [BasePrintLibSPrintMarker], the worker of [UnicodeSPrint], [AsciiSPrint] and
    [Print], character by character: the parsing of a format directive, the
    conversion of each argument, padding, commas and prefixes.  A format string is
    the list of its characters; the variable arguments are a list of typed values,
    and an argument of another type than the directive reads is undefined.  The
    callers modelled pass a buffer, never COUNT_ONLY_NO_PRINT, and a VA_LIST, never
    a BASE_LIST. *)

From Stdlib Require Import String.
From S2P Require Import Prelude.
From S2P Require Import BootConfig.
From S2P Require Import EdkString.
Import ListNotations.
#[local] Open Scope list_scope.

(** ** Flags *)

Definition LEFT_JUSTIFY : Z := 0x1.
Definition PREFIX_SIGN : Z := 0x2.
Definition PREFIX_BLANK : Z := 0x4.
Definition COMMA_TYPE : Z := 0x8.
Definition LONG_TYPE : Z := 0x10.
Definition PREFIX_ZERO : Z := 0x20.
Definition OUTPUT_UNICODE : Z := 0x40.
Definition RADIX_HEX : Z := 0x80.
Definition FORMAT_UNICODE : Z := 0x100.
Definition PAD_TO_WIDTH : Z := 0x200.
Definition ARGUMENT_UNICODE : Z := 0x400.
Definition PRECISION : Z := 0x800.
Definition ARGUMENT_REVERSED : Z := 0x1000.
Definition COUNT_ONLY_NO_PRINT : Z := 0x2000.
Definition UNSIGNED_TYPE : Z := 0x4000.
Definition MAXIMUM_VALUE_CHARACTERS : Z := 38.

Definition has (Flags bits : Z) : bool := negb (Z.land Flags bits =? 0).
Definition clear (Flags bits : Z) : Z := Z.land Flags (Z.lnot bits).

(** ** Arguments *)

(** A time, and a GUID: three numbers and eight bytes. *)
Record TIME := mk_time { Year : Z; Month : Z; Day : Z; Hour : Z; Minute : Z }.
Record GUID := mk_guid { Data1 : Z; Data2 : Z; Data3 : Z; Data4 : bytes }.

(** A value in a 64-bit argument slot, a [CHAR16] or a [CHAR8] string ([None] is
    NULL), a GUID, a time. *)
Inductive va_arg :=
| VaInt (v : Z)
| VaStr16 (s : option bytes)
| VaStr8 (s : option bytes)
| VaGuid (g : option GUID)
| VaTime (t : option TIME).

Definition s64 (x : Z) : Z := (x + 2 ^ 63) mod 2 ^ 64 - 2 ^ 63.

Definition next_int (args : list va_arg) : run (Z * list va_arg) :=
  match args with VaInt v :: args => mret (v, args) | _ => UB end.

(** ** The output buffer *)

(** [BasePrintLibFillBuffer]: up to [Length] times, while there is room before
    [EndBuffer]; [cap] characters fit, each of [size] bytes. *)
Fixpoint fill_loop (n : nat) (cap size : Z) (out : bytes) (c : Z) : bytes :=
  match n with
  | O => out
  | S n => if zlen out <? cap then fill_loop n cap size (out ++ [wrap (8 * size) c]) c else out
  end.
Definition BasePrintLibFillBuffer (cap size : Z) (out : bytes) (Length c : Z) : bytes :=
  fill_loop (Z.to_nat Length) cap size out c.

(** [Width - Precision] as the [INTN] argument. *)
Definition diff (a b : Z) : Z := s64 (u64 (a - b)).

Definition mHexStr (d : Z) : Z := if d <? 10 then 48 + d else 65 + (d - 10).

(** [BasePrintLibValueToString], read back: the digits, the first one first.  A
    64-bit value has at most 64 digits. *)
Fixpoint value_digits (fuel : nat) (Value Radix : Z) (acc : bytes) : bytes :=
  match fuel with
  | O => acc
  | S fuel =>
      let acc := mHexStr (Value mod Radix) :: acc in
      let Value := Value / Radix in
      if Value =? 0 then acc else value_digits fuel Value Radix acc
  end.
Definition BasePrintLibValueToString (Value Radix : Z) : bytes := value_digits 64 (u64 Value) Radix [].

(** ** A directive *)

(** The flags, the width, the precision and the arguments while a directive is
    parsed. *)
Record spec := mk_spec { Flags : Z; Width : Z; Precision : Z; rest_args : list va_arg }.

Definition set_flags (s : spec) (f : Z) : spec := mk_spec f (Width s) (Precision s) (rest_args s).

(** [Count = Count * 10 + FormatCharacter - '0'], and where the digits end. *)
Fixpoint format_number (f : bytes) (Count : Z) : Z * bytes :=
  match f with
  | c :: f' => if (48 <=? c) && (c <=? 57) then format_number f' (u64 (Count * 10 + c - 48)) else (Count, f)
  | [] => (Count, [])
  end.

(** The loop over flags and width; [f] starts with the next character.  The
    conversion character (0 at the end of the format) and the format behind it. *)
Fixpoint parse_spec (fuel : nat) (f : bytes) (s : spec) : run (Z * bytes * spec) :=
  match fuel with
  | O => OutOfFuel
  | S fuel =>
      match f with
      | [] => mret (0, [], mk_spec (Flags s) (Width s) 0 (rest_args s))
      | c :: f' =>
          if c =? 46 then parse_spec fuel f' (set_flags s (Z.lor (Flags s) PRECISION))
          else if c =? 45 then parse_spec fuel f' (set_flags s (Z.lor (Flags s) LEFT_JUSTIFY))
          else if c =? 43 then parse_spec fuel f' (set_flags s (Z.lor (Flags s) PREFIX_SIGN))
          else if c =? 32 then parse_spec fuel f' (set_flags s (Z.lor (Flags s) PREFIX_BLANK))
          else if c =? 44 then parse_spec fuel f' (set_flags s (Z.lor (Flags s) COMMA_TYPE))
          else if (c =? 76) || (c =? 108) then parse_spec fuel f' (set_flags s (Z.lor (Flags s) LONG_TYPE))
          else if c =? 42 then
            r ← next_int (rest_args s);
            if has (Flags s) PRECISION
            then parse_spec fuel f' (mk_spec (Flags s) (Width s) (fst r) (snd r))
            else parse_spec fuel f' (mk_spec (Z.lor (Flags s) PAD_TO_WIDTH) (fst r) (Precision s) (snd r))
          else if (48 <=? c) && (c <=? 57) then
            let fl := if (c =? 48) && negb (has (Flags s) PRECISION) then Z.lor (Flags s) PREFIX_ZERO else Flags s in
            let '(Count, f'') := format_number f 0 in
            if has fl PRECISION then parse_spec fuel f'' (mk_spec fl (Width s) Count (rest_args s))
            else parse_spec fuel f'' (mk_spec (Z.lor fl PAD_TO_WIDTH) Count (Precision s) (rest_args s))
          else mret (c, f', s)
      end
  end.

(** What the conversion leaves for the output: the characters, [Count] (for a
    number), [Prefix], [Comma], [ZeroPad], [Digits]. *)
Record conv := mk_conv {
  c_string : bytes; c_count : Z; c_prefix : Z; c_comma : bool; c_zero_pad : bool; c_digits : Z }.

Definition plain (s : bytes) : conv := mk_conv s 0 0 false false 0.

(** 'p', 'X', 'x', 'u' and 'd' (the cases fall through in this order). *)
Definition number_flags (c Flags : Z) : Z :=
  let f := if c =? 112 then Z.lor (clear Flags (Z.lor (Z.lor PREFIX_BLANK PREFIX_SIGN) (Z.lor PREFIX_ZERO LONG_TYPE))) LONG_TYPE else Flags in
  let f := if (c =? 112) || (c =? 88) then Z.lor f PREFIX_ZERO else f in
  let f := if (c =? 112) || (c =? 88) || (c =? 120) then Z.lor f RADIX_HEX else f in
  if negb (c =? 100) && negb (has f RADIX_HEX) then Z.lor (clear f PREFIX_SIGN) UNSIGNED_TYPE else f.

Definition convert_number (c : Z) (s : spec) : run (conv * spec) :=
  let fl := number_flags c (Flags s) in
  r ← next_int (rest_args s);
  let '(v, args) := (r : Z * list va_arg) in
  let Value := if has fl LONG_TYPE then s64 v else s32 (u32 v) in
  let Prefix := if has fl PREFIX_SIGN then 43 else if has fl PREFIX_BLANK then 32 else 0 in
  let Comma := has fl COMMA_TYPE && negb (has fl RADIX_HEX) in
  let Radix := if has fl RADIX_HEX then 16 else 10 in
  let negative := negb (has fl RADIX_HEX) && (Value <? 0) && negb (has fl UNSIGNED_TYPE) in
  if negative && (Value =? - 2 ^ 63) then UB
  else
    let fl := if Comma then clear fl PREFIX_ZERO else fl in
    let prec := if Comma then 1 else Precision s in
    let fl := if negative then Z.lor fl PREFIX_SIGN else fl in
    let Prefix := if negative then 45 else Prefix in
    let Value :=
      if negative then - Value
      else if negb (has fl RADIX_HEX) then
        (if has fl UNSIGNED_TYPE && negb (has fl LONG_TYPE) then u32 Value else Value)
      else if negb (has fl LONG_TYPE) && (Value <? 0) then u32 Value else Value in
    let digits := if (Value =? 0) && (prec =? 0) then [] else BasePrintLibValueToString Value Radix in
    let Count := zlen digits in
    let Digits := if Count mod 3 =? 0 then 0 else 3 - Count mod 3 in
    let Count := if Comma && negb (Count =? 0) then Count + (Count - 1) / 3 else Count in
    let '(Count, prec) := if Prefix =? 0 then (Count, prec) else (Count + 1, u64 (prec + 1)) in
    let fl := Z.lor fl ARGUMENT_REVERSED in
    let prec := if has fl PREFIX_ZERO && negb (has fl LEFT_JUSTIFY) && has fl PAD_TO_WIDTH && negb (has fl PRECISION)
                then Width s else prec in
    mret (mk_conv digits Count Prefix Comma true Digits, mk_spec fl (Width s) prec args).

(** ** Status texts *)

Definition mWarningString : list string :=
  ["Success"; "Warning Unknown Glyph"; "Warning Delete Failure"; "Warning Write Failure";
   "Warning Buffer Too Small"; "Warning Stale Data"; "Warning File System"; "Warning Reset Required"]%string.
Definition mErrorString : list string :=
  ["Load Error"; "Invalid Parameter"; "Unsupported"; "Bad Buffer Size"; "Buffer Too Small"; "Not Ready";
   "Device Error"; "Write Protected"; "Out of Resources"; "Volume Corrupt"; "Volume Full"; "No Media";
   "Media changed"; "Not Found"; "Access Denied"; "No Response"; "No mapping"; "Time out";
   "Not started"; "Already started"; "Aborted"; "ICMP Error"; "TFTP Error"; "Protocol Error";
   "Incompatible Version"; "Security Violation"; "CRC Error"; "End of Media"; "Reserved (29)";
   "Reserved (30)"; "End of File"; "Invalid Language"; "Compromised Data"; "IP Address Conflict";
   "HTTP Error"]%string.

Definition WARNING_STATUS_NUMBER : Z := 7.
Definition ERROR_STATUS_NUMBER : Z := 35.

(** The text of a status; [None] for a number that has none. *)
Definition status_text (Status : Z) : option bytes :=
  if EFI_ERROR Status then
    let Index := clear Status (2 ^ 63) in
    if (0 <? Index) && (Index <=? ERROR_STATUS_NUMBER) then lit <$> mErrorString !! Z.to_nat (Index - 1) else None
  else if Status <=? WARNING_STATUS_NUMBER then lit <$> mWarningString !! Z.to_nat Status else None.

(** ** Output of a converted argument *)

(** The copy loop: digits are counted for the commas. *)
Fixpoint copy_chars (cap size mask : Z) (s : bytes) (Index Count Digits : Z) (Comma : bool) (out : bytes) : bytes :=
  match s with
  | [] => out
  | c :: s =>
      if Index <? Count then
        let out := BasePrintLibFillBuffer cap size out 1 (Z.land c mask) in
        let Index := Index + 1 in
        if Comma then
          if Digits + 1 =? 3 then
            let Index := Index + 1 in
            let out := if Index <? Count then BasePrintLibFillBuffer cap size out 1 44 else out in
            copy_chars cap size mask s Index Count 0 Comma out
          else copy_chars cap size mask s Index Count (Digits + 1) Comma out
        else copy_chars cap size mask s Index Count Digits Comma out
      else out
  end.

Definition emit (cap size : Z) (s : spec) (c : conv) (out : bytes) : bytes :=
  let fill := BasePrintLibFillBuffer cap size in
  let mask := if has (Flags s) ARGUMENT_UNICODE then 0xffff else 0xff in
  let Count :=
    if has (Flags s) ARGUMENT_REVERSED then c_count c
    else if has (Flags s) PRECISION then Z.min (zlen (c_string c)) (Precision s) else zlen (c_string c) in
  let prec := if Precision s <? Count then Count else Precision s in
  let pads := Z.land (Flags s) (Z.lor PAD_TO_WIDTH LEFT_JUSTIFY) in
  let out := if pads =? PAD_TO_WIDTH then fill out (diff (Width s) prec) 32 else out in
  let out :=
    if c_zero_pad c then
      let out := if c_prefix c =? 0 then out else fill out 1 (c_prefix c) in
      fill out (diff prec Count) 48
    else
      let out := fill out (diff prec Count) 32 in
      if c_prefix c =? 0 then out else fill out 1 (c_prefix c) in
  let Index := if c_prefix c =? 0 then 0 else 1 in
  let out := copy_chars cap size mask (c_string c) Index Count (c_digits c) (c_comma c) out in
  if pads =? Z.lor PAD_TO_WIDTH LEFT_JUSTIFY then fill out (diff (Width s) prec) 32 else out.

(** ** The worker *)

Definition unicode_arg (s : spec) : spec := set_flags s (Z.lor (Flags s) ARGUMENT_UNICODE).
Definition string_precision (s : spec) : spec :=
  if has (Flags s) PRECISION then s else mk_spec (Flags s) (Width s) 0 (rest_args s).

(** A character that is printed as it is; 0 prints nothing. *)
Definition one_char (c : Z) : bytes := if c =? 0 then [] else [c].

(** [\r] and [\n]: the string, and the format behind them. *)
Definition line_end (c : Z) (f : bytes) : bytes * bytes :=
  match f with
  | d :: f' =>
      if c =? 13 then (if d =? 10 then ([13; 10], f') else ([13], f))
      else (if d =? 13 then ([13; 10], f') else ([13; 10], f))
  | [] => (if c =? 13 then [13] else [13; 10], [])
  end.

Definition guid_format : bytes := lit "%08x-%04x-%04x-%02x%02x-%02x%02x%02x%02x%02x%02x".
Definition time_format : bytes := lit "%02d/%02d/%04d  %02d:%02d".

(** Conversion [c] of a directive; [sub] prints into [ValueBuffer]. *)
Definition convert (sub : bytes -> list va_arg -> run bytes) (c : Z) (f : bytes) (s : spec) : run (conv * spec * bytes) :=
  if (c =? 112) || (c =? 88) || (c =? 120) || (c =? 117) || (c =? 100) then
    r ← convert_number c s; mret (r, f)
  else if (c =? 115) || (c =? 83) || (c =? 97) then
    match rest_args s with
    | VaStr16 o :: args =>
        if c =? 97 then UB
        else
          let s := mk_spec (Flags s) (Width s) (Precision s) args in
          match o with
          | None => mret (plain (lit "<null string>"), string_precision s, f)
          | Some str => mret (plain str, string_precision (unicode_arg s), f)
          end
    | VaStr8 o :: args =>
        let s := mk_spec (Flags s) (Width s) (Precision s) args in
        match o with
        | None => mret (plain (lit "<null string>"), string_precision s, f)
        | Some str => if c =? 97 then mret (plain str, string_precision s, f) else UB
        end
    | _ => UB
    end
  else if c =? 99 then
    r ← next_int (rest_args s);
    mret (plain (one_char (Z.land (fst r) 0xffff)), unicode_arg (mk_spec (Flags s) (Width s) (Precision s) (snd r)), f)
  else if c =? 103 then
    match rest_args s with
    | VaGuid o :: args =>
        str ← match o with
              | None => mret (lit "<null guid>")
              | Some g => sub guid_format (VaInt (Data1 g) :: VaInt (Data2 g) :: VaInt (Data3 g) :: (VaInt <$> Data4 g))
              end;
        mret (plain str, mk_spec (Flags s) (Width s) (Precision s) args, f)
    | _ => UB
    end
  else if c =? 116 then
    match rest_args s with
    | VaTime o :: args =>
        str ← match o with
              | None => mret (lit "<null time>")
              | Some t => sub time_format [VaInt (Month t); VaInt (Day t); VaInt (Year t); VaInt (Hour t); VaInt (Minute t)]
              end;
        mret (plain str, mk_spec (Flags s) (Width s) (Precision s) args, f)
    | _ => UB
    end
  else if c =? 114 then
    r ← next_int (rest_args s);
    str ← match status_text (fst r) with
          | Some t => mret t
          | None => sub (lit "%08X") [VaInt (fst r)]
          end;
    mret (plain str, mk_spec (Flags s) (Width s) (Precision s) (snd r), f)
  else if (c =? 13) || (c =? 10) then
    let '(str, f) := line_end c f in mret (plain str, s, f)
  else mret (plain (one_char c), unicode_arg s, f).

(** One step of the main loop on the character [c], with [f] behind it. *)
Definition format_char (sub : bytes -> list va_arg -> run bytes) (flags : Z) (c : Z) (f : bytes) (args : list va_arg)
  : run (conv * spec * bytes) :=
  let s := mk_spec flags 0 1 args in
  if c =? 37 then
    r ← parse_spec (S (length f)) f s;
    let '(c, f, s) := (r : Z * bytes * spec) in
    convert sub c f s
  else if (c =? 13) || (c =? 10) then
    let '(str, f) := line_end c f in mret (plain str, s, f)
  else mret (plain (one_char c), unicode_arg s, f).

(** The main loop: it stops at the end of the format or when the buffer is full. *)
Fixpoint print_loop (sub : bytes -> list va_arg -> run bytes) (fuel : nat) (flags cap size : Z)
    (f : bytes) (args : list va_arg) (out : bytes) : run bytes :=
  match f with
  | [] => mret out
  | c :: f =>
      if cap <=? zlen out then mret out
      else match fuel with
      | O => OutOfFuel
      | S fuel =>
          r ← format_char sub flags c f args;
          let '(cv, s, f) := (r : conv * spec * bytes) in
          print_loop sub fuel flags cap size f (rest_args s) (emit cap size s cv out)
      end
  end.

(** The text in the buffer (a NUL follows it), [None] when nothing is written;
    its length is the value returned.  [depth] bounds the calls to itself. *)
Fixpoint BasePrintLibSPrintMarker (depth : nat) (BufferSize flags : Z) (Format : bytes) (args : list va_arg) : run (option bytes) :=
  let rsize := if has flags OUTPUT_UNICODE then RSIZE_MAX else ASCII_RSIZE_MAX in
  let fsize := if has flags FORMAT_UNICODE then RSIZE_MAX else ASCII_RSIZE_MAX in
  if rsize <? BufferSize then mret None
  else if fsize <? zlen Format then mret None
  else if BufferSize =? 0 then mret None
  else
    let sub f args :=
      match depth with
      | O => OutOfFuel
      | S depth =>
          r ← BasePrintLibSPrintMarker depth MAXIMUM_VALUE_CHARACTERS 0 f args;
          mret (default [] r)
      end in
    out ← print_loop sub (length Format) flags (BufferSize - 1) (if has flags OUTPUT_UNICODE then 2 else 1) Format args [];
    mret (Some out).

(** [BufferSize] in bytes. *)
Definition UnicodeVSPrint (BufferSize : Z) (Format : bytes) (Marker : list va_arg) : run (option bytes) :=
  BasePrintLibSPrintMarker 1 (Z.shiftr BufferSize 1) (Z.lor FORMAT_UNICODE OUTPUT_UNICODE) Format Marker.
Definition UnicodeSPrint := UnicodeVSPrint.
Definition AsciiVSPrint (BufferSize : Z) (Format : bytes) (Marker : list va_arg) : run (option bytes) :=
  BasePrintLibSPrintMarker 1 BufferSize 0 Format Marker.
Definition AsciiSPrint := AsciiVSPrint.

(** [Print] of UefiLib: what [OutputString] is given, if anything. *)
Definition PcdUefiLibMaxPrintBufferSize : Z := 320.
Definition InternalPrint (alloc : bool) (Format : bytes) (Marker : list va_arg) : run (option bytes) :=
  if negb alloc then mret None
  else
    r ← UnicodeVSPrint ((PcdUefiLibMaxPrintBufferSize + 1) * 2) Format Marker;
    mret (match r with Some (c :: s) => Some (c :: s) | _ => None end).

(** ** Bounds and termination *)

Lemma fill_loop_len n cap size c : forall out, zlen out <= cap -> zlen (fill_loop n cap size out c) <= cap.
Proof.
  induction n as [|n IH]; intros out H; cbn [fill_loop]; [done|]. destruct (Z.ltb_spec (zlen out) cap); [|done].
  apply IH. rewrite zlen_app. change (zlen [_]) with 1. lia.
Qed.

Lemma fill_len cap size out n c : zlen out <= cap -> zlen (BasePrintLibFillBuffer cap size out n c) <= cap.
Proof. apply fill_loop_len. Qed.

Lemma copy_chars_len cap size mask s : forall Index Count Digits Comma out, zlen out <= cap ->
  zlen (copy_chars cap size mask s Index Count Digits Comma out) <= cap.
Proof.
  induction s as [|c s IH]; intros Index Count Digits Comma out H; cbn [copy_chars]; [done|].
  repeat case_match; auto using fill_len.
Qed.

Lemma emit_len cap size s c out : zlen out <= cap -> zlen (emit cap size s c out) <= cap.
Proof. intros H. unfold emit. repeat case_match; auto 10 using fill_len, copy_chars_len. Qed.

(** [f'] is what is left of [f]: shorter or as long, and made of its characters. *)
Definition left_of (f f' : bytes) : Prop := (length f' <= length f)%nat /\ forall P : Z -> Prop, Forall P f -> Forall P f'.

Lemma left_of_refl f : left_of f f.
Proof. by split. Qed.
Lemma left_of_tail c f f' : left_of f f' -> left_of (c :: f) f'.
Proof. intros (H1 & H2). split; [cbn; lia|]. intros P Hf. apply Forall_cons in Hf as (_ & ?). by apply H2. Qed.

Lemma format_number_left f : forall n, left_of f (snd (format_number f n)).
Proof.
  induction f as [|c f IH]; intros n; cbn [format_number]; [apply left_of_refl|]. case_match; [|apply left_of_refl].
  apply left_of_tail, IH.
Qed.

Lemma format_number_shorter c f n : (48 <=? c) && (c <=? 57) = true -> left_of f (snd (format_number (c :: f) n)).
Proof. intros H. cbn [format_number]. rewrite H. apply format_number_left. Qed.

(** A conversion comes from the format, and leaves the rest of it. *)
Definition step_ok {A} (f : bytes) (fmt : A -> bytes) (r : run A) : Prop :=
  match r with Ret x => left_of f (fmt x) | UB => True | OutOfFuel => False end.

Lemma parse_spec_ok fuel : forall f s, (length f < fuel)%nat ->
  step_ok f (fun r => snd (fst r)) (parse_spec fuel f s) /\
  (forall c f' s' P, parse_spec fuel f s = Ret (c, f', s') -> Forall P f -> c = 0 \/ P c).
Proof.
  induction fuel as [|fuel IH]; intros f s Hf; [lia|]. cbn [parse_spec]. destruct f as [|c f].
  { split; [apply left_of_refl|]. intros c f' s' P [= <- _ _] _. by left. }
  assert (Hrec : forall f' s', left_of f f' ->
    step_ok (c :: f) (fun r => snd (fst r)) (parse_spec fuel f' s') /\
    (forall d f'' s'' P, parse_spec fuel f' s' = Ret (d, f'', s'') -> Forall P (c :: f) -> d = 0 \/ P d)).
  { intros f' s' (L1 & L2). destruct (IH f' s') as (H1 & H2); [cbn in Hf; lia|]. split.
    - unfold step_ok in *. destruct (parse_spec fuel f' s') as [x| |]; [|done|done].
      apply left_of_tail. destruct H1 as (H1 & H3). split; [lia|]. intros P HP. by apply H3, L2.
    - intros d f'' s'' P E HP. apply (H2 d f'' s'' P E). apply Forall_cons in HP as (_ & HP). by apply L2. }
  repeat (case_match; [apply Hrec, left_of_refl|]).
  case_match.
  { unfold next_int. destruct (rest_args s) as [|[v|?|?|?|?] args]; try (split; [done|intros ? ? ? ? [=]]).
    bind_step. case_match; apply Hrec, left_of_refl. }
  case_match.
  { pose proof (format_number_shorter c f 0 ltac:(done)) as Hn. destruct (format_number (c :: f) 0) as (Count & f'') eqn:E.
    cbn [snd] in Hn. repeat case_match; by apply Hrec. }
  split; [apply left_of_tail, left_of_refl|]. intros d f' s' P [= <- _ _] HP. right. by apply Forall_cons in HP as (? & _).
Qed.

Lemma line_end_left c f : left_of f (snd (line_end c f)).
Proof.
  unfold line_end. destruct f as [|d f]; [apply left_of_refl|]. repeat case_match; cbn [snd]; try apply left_of_refl; apply left_of_tail, left_of_refl.
Qed.

Lemma convert_number_fuel c s : convert_number c s <> OutOfFuel.
Proof.
  unfold convert_number. cbv zeta. destruct (rest_args s) as [|[v|?|?|?|?] args]; cbn [next_int]; try done. bind_step.
  match goal with |- (if ?b then UB else _) <> _ => destruct b; [done|] end.
  match goal with |- match ?p with (_, _) => _ end <> _ => destruct p end. done.
Qed.

(** The conversions that print into [ValueBuffer]. *)
Definition sub_conv (c : Z) : Prop := c = 103 \/ c = 116 \/ c = 114.

(** Formats without them, which [sub] can print. *)
Definition no_sub (f : bytes) : Prop := Forall (fun c => ~ sub_conv c) f.
Definition sub_ok (sub : bytes -> list va_arg -> run bytes) : Prop := forall g a, no_sub g -> sub g a <> OutOfFuel.

Lemma no_sub_formats : no_sub guid_format /\ no_sub time_format /\ no_sub (lit "%08X").
Proof. unfold no_sub, sub_conv. split_and!; apply (bool_decide_eq_true_1 _); vm_compute; reflexivity. Qed.

Lemma convert_ok sub c f s : (sub_conv c -> sub_ok sub) -> step_ok f snd (convert sub c f s).
Proof.
  intros Hsub. unfold convert. case_match.
  { pose proof (convert_number_fuel c s) as H'. destruct (convert_number c s); [|done|done]. apply left_of_refl. }
  case_match; [repeat case_match; try done; apply left_of_refl|].
  case_match; [destruct (rest_args s) as [|[v|?|?|?|?] args]; try done; apply left_of_refl|].
  assert (Hs : forall g a (P : Prop), sub_conv c -> no_sub g -> sub g a = OutOfFuel -> P) by (intros g a P Hc Hg E; by destruct (Hsub Hc g a Hg)).
  destruct no_sub_formats as (F1 & F2 & F3).
  case_match eqn:Eg.
  { destruct (rest_args s) as [|[?|?|?|[g|]|?] args]; try (done || apply left_of_refl).
    match goal with |- context [sub ?a ?b] => destruct (sub a b) eqn:E; [apply left_of_refl|done|] end.
    apply (Hs _ _ _ ltac:(left; by apply Z.eqb_eq) F1 E). }
  case_match eqn:Et.
  { destruct (rest_args s) as [|[?|?|?|?|[t|]] args]; try (done || apply left_of_refl).
    match goal with |- context [sub ?a ?b] => destruct (sub a b) eqn:E; [apply left_of_refl|done|] end.
    apply (Hs _ _ _ ltac:(right; left; by apply Z.eqb_eq) F2 E). }
  case_match eqn:Er.
  { destruct (rest_args s) as [|[v|?|?|?|?] args]; try done. cbn [next_int]. bind_step. cbn [fst snd].
    destruct (status_text v); [apply left_of_refl|].
    match goal with |- context [sub ?a ?b] => destruct (sub a b) eqn:E; [apply left_of_refl|done|] end.
    apply (Hs _ _ _ ltac:(right; right; by apply Z.eqb_eq) F3 E). }
  case_match; [|apply left_of_refl].
  pose proof (line_end_left c f) as Hl. destruct (line_end c f). exact Hl.
Qed.

Lemma format_char_ok sub flags c f args :
  sub_ok sub \/ no_sub f ->
  step_ok f snd (format_char sub flags c f args).
Proof.
  intros Hsub. unfold format_char. cbv zeta. case_match.
  - destruct (parse_spec_ok (S (length f)) f (mk_spec flags 0 1 args)) as (H1 & H2); [lia|].
    destruct (parse_spec (S (length f)) f _) as [[[d f'] s']| |]; [|done|done]. bind_step. cbn in H1.
    assert (Hc : step_ok f' snd (convert sub d f' s')).
    { apply convert_ok. intros Hd. destruct Hsub as [Hs|Hs]; [done|]. destruct (H2 d f' s' _ eq_refl Hs) as [->|Hn]; [|done].
      by destruct Hd as [|[|]]. }
    unfold step_ok in *. destruct (convert sub d f' s') as [x| |]; [|done|done]. destruct Hc as (C1 & C2), H1 as (L1 & L2).
    split; [lia|]. intros P HP. by apply C2, L2.
  - case_match; [|apply left_of_refl]. pose proof (line_end_left c f) as Hl. destruct (line_end c f). exact Hl.
Qed.

(** The loop needs one unit of fuel per character, and never passes the buffer. *)
Lemma print_loop_ok sub flags cap size fuel : forall f args out,
  sub_ok sub \/ no_sub f -> (length f <= fuel)%nat -> zlen out <= cap ->
  match print_loop sub fuel flags cap size f args out with
  | Ret out' => zlen out' <= cap
  | UB => True
  | OutOfFuel => False
  end.
Proof.
  induction fuel as [|fuel IH]; intros f args out Hsub Hf Ho; (destruct f as [|c f]; cbn [print_loop]; [exact Ho|]); (destruct (cap <=? zlen out); [exact Ho|]).
  { cbn in Hf. lia. }
  assert (Hsub' : sub_ok sub \/ no_sub f).
  { destruct Hsub as [|Hs]; [by left|right]. by apply Forall_cons in Hs as (_ & ?). }
  pose proof (format_char_ok sub flags c f args Hsub') as Hc. unfold step_ok in Hc.
  destruct (format_char sub flags c f args) as [[[cv s] f']| |]; [|done|done]. bind_step. cbn [snd] in Hc. destruct Hc as (C1 & C2).
  apply IH; [|cbn in Hf; lia|by apply emit_len]. destruct Hsub' as [|Hs]; [by left|right]. by apply C2.
Qed.

Lemma marker_ok depth BufferSize flags f args : 0 <= BufferSize -> (0 < depth)%nat \/ no_sub f ->
  match BasePrintLibSPrintMarker depth BufferSize flags f args with
  | Ret (Some out) => zlen out < BufferSize
  | Ret None | UB => True
  | OutOfFuel => False
  end.
Proof.
  revert BufferSize flags f args. induction depth as [|depth IH]; intros BufferSize flags f args HB Hd;
    cbn [BasePrintLibSPrintMarker]; cbv zeta; (destruct (_ <? BufferSize); [exact I|]); (destruct (_ <? zlen f); [exact I|]);
    (destruct (Z.eqb_spec BufferSize 0) as [_|EB]; [exact I|]).
  - destruct Hd as [|Hd]; [lia|].
    pose proof (print_loop_ok (fun _ _ => OutOfFuel) flags (BufferSize - 1) (if has flags OUTPUT_UNICODE then 2 else 1) (length f) f args []
      (or_intror Hd) (le_n _) ltac:(change (zlen []) with 0; lia)) as H'.
    destruct (print_loop _ _ _ _ _ _ _ _) as [out| |]; [|done|done]. bind_step. change (zlen out < BufferSize). lia.
  - match goal with |- context [print_loop ?sub _ _ _ _ _ _ _] => set (sb := sub) end.
    assert (Hs : sub_ok sb).
    { intros g a Hg. subst sb. cbv beta. specialize (IH MAXIMUM_VALUE_CHARACTERS 0 g a ltac:(unfold MAXIMUM_VALUE_CHARACTERS; lia) (or_intror Hg)).
      by destruct (BasePrintLibSPrintMarker depth _ _ g a). }
    pose proof (print_loop_ok sb flags (BufferSize - 1) (if has flags OUTPUT_UNICODE then 2 else 1) (length f) f args []
      (or_introl Hs) (le_n _) ltac:(change (zlen []) with 0; lia)) as H'.
    destruct (print_loop _ _ _ _ _ _ _ _) as [out| |]; [|done|done]. bind_step. change (zlen out < BufferSize). lia.
Qed.

(** C23. Formatted output terminates and stays in its buffer: for every format
    string (directives of any form, width, precision, even one cut off in the
    middle), every argument list and every buffer size, [UnicodeVSPrint] and
    [AsciiVSPrint] never run out of fuel, and what they store is shorter than the
    buffer, which leaves room for the NUL.  The other ends are a refused buffer
    ([None]: empty, or above the size limit) and the undefined behaviour of an
    argument list that does not match the format. *)
Theorem vsprint_bounded BufferSize f args : 0 <= BufferSize ->
  match UnicodeVSPrint BufferSize f args with
  | Ret (Some out) => 2 * (zlen out + 1) <= BufferSize
  | Ret None | UB => True
  | OutOfFuel => False
  end /\
  match AsciiVSPrint BufferSize f args with
  | Ret (Some out) => zlen out + 1 <= BufferSize
  | Ret None | UB => True
  | OutOfFuel => False
  end.
Proof.
  intros HB. unfold UnicodeVSPrint, AsciiVSPrint.
  assert (Hs : 0 <= Z.shiftr BufferSize 1 /\ 2 * Z.shiftr BufferSize 1 <= BufferSize).
  { rewrite Z.shiftr_div_pow2 by lia. change (2 ^ 1) with 2. pose proof (Z.div_pos BufferSize 2). pose proof (Z.mul_div_le BufferSize 2). lia. }
  pose proof (marker_ok 1 (Z.shiftr BufferSize 1) (Z.lor FORMAT_UNICODE OUTPUT_UNICODE) f args (proj1 Hs) (or_introl Nat.lt_0_1)) as H1.
  pose proof (marker_ok 1 BufferSize 0 f args HB (or_introl Nat.lt_0_1)) as H2.
  split.
  - destruct (BasePrintLibSPrintMarker _ _ _ f args) as [[out|]| |] eqn:E; try done. lia.
  - destruct (BasePrintLibSPrintMarker 1 BufferSize 0 f args) as [[out|]| |]; try done. lia.
Qed.

(** A decimal number of eleven characters into a buffer of eight: both printers
    stop at the end of the buffer. *)
Lemma vsprint_bounded_witness :
  UnicodeVSPrint 8 (lit "%d") [VaInt (2 ^ 64 - 2147483648)] = Ret (Some (lit "-21")) /\
  AsciiVSPrint 8 (lit "%d") [VaInt (2 ^ 64 - 2147483648)] = Ret (Some (lit "-214748")) /\
  match UnicodeVSPrint 8 (lit "%d") [VaInt (2 ^ 64 - 2147483648)] with
  | Ret (Some out) => 2 * (zlen out + 1) <= 8
  | Ret None | UB => True
  | OutOfFuel => False
  end /\
  match AsciiVSPrint 8 (lit "%d") [VaInt (2 ^ 64 - 2147483648)] with
  | Ret (Some out) => zlen out + 1 <= 8
  | Ret None | UB => True
  | OutOfFuel => False
  end.
Proof.
  split; [vm_compute; reflexivity|]. split; [vm_compute; reflexivity|].
  apply (vsprint_bounded 8 (lit "%d") [VaInt (2 ^ 64 - 2147483648)]). lia.
Defined.

(** ** What is printed *)

(** Text put behind [out], as far as the buffer goes. *)
Definition put (cap : Z) (out t : bytes) : bytes := take (Z.to_nat cap) (out ++ t).

Lemma put_nil cap out : zlen out <= cap -> put cap out [] = out.
Proof. unfold put, zlen. intros H. rewrite app_nil_r, take_ge by lia. done. Qed.

Lemma put_len cap out t : 0 <= cap -> zlen (put cap out t) <= cap.
Proof. unfold put, zlen. intros H. rewrite length_take. lia. Qed.

Lemma put_app cap out a b : 0 <= cap -> put cap (put cap out a) b = put cap out (a ++ b).
Proof.
  intros H. unfold put. rewrite app_assoc. destruct (Nat.le_gt_cases (length (out ++ a)) (Z.to_nat cap)) as [Hl|Hl].
  - by rewrite (take_ge (out ++ a)) by lia.
  - rewrite (take_app_le (take _ (out ++ a))) by (rewrite length_take; lia). rewrite take_idemp.
    rewrite (take_app_le (out ++ a)) by lia. done.
Qed.

Lemma fill_loop_put n cap size c : 0 <= cap -> forall out, zlen out <= cap ->
  fill_loop n cap size out c = put cap out (replicate n (wrap (8 * size) c)).
Proof.
  intros Hc. induction n as [|n IH]; intros out Ho; cbn [fill_loop replicate]; [by rewrite put_nil|].
  destruct (Z.ltb_spec (zlen out) cap) as [Hl|Hl].
  - rewrite IH by (rewrite zlen_app; change (zlen [_]) with 1; lia). unfold put. by rewrite <- app_assoc.
  - unfold put, zlen in *. rewrite take_app_le by lia. rewrite take_ge by lia. done.
Qed.

Lemma fill_one cap size out c : 0 <= cap -> zlen out <= cap ->
  BasePrintLibFillBuffer cap size out 1 c = put cap out [wrap (8 * size) c].
Proof. intros. unfold BasePrintLibFillBuffer. by rewrite fill_loop_put. Qed.

Lemma fill_none cap size out n c : n <= 0 -> BasePrintLibFillBuffer cap size out n c = out.
Proof. intros. unfold BasePrintLibFillBuffer. by rewrite Z2Nat.nonpos by lia. Qed.

(** Characters that the mask and the output width keep. *)
Definition keeps (mask size : Z) (c : Z) : Prop := wrap (8 * size) (Z.land c mask) = c.

Lemma copy_chars_put cap size mask s : 0 <= cap -> Forall (keeps mask size) s -> forall Index Count Digits out,
  Index + zlen s <= Count -> zlen out <= cap ->
  copy_chars cap size mask s Index Count Digits false out = put cap out s.
Proof.
  intros Hc. induction 1 as [|c s Hk _ IH]; intros Index Count Digits out HI Ho; cbn [copy_chars]; [by rewrite put_nil|].
  assert (zlen (c :: s) = zlen s + 1) as El by (unfold zlen; cbn [length]; lia). pose proof (zlen_nonneg s).
  rewrite (proj2 (Z.ltb_lt _ _)) by lia. rewrite fill_one by done. rewrite Hk.
  rewrite IH by (first [lia|by apply put_len]). by rewrite put_app.
Qed.

Lemma diff_same a : 0 <= a < 2 ^ 63 -> diff a a = 0.
Proof. intros H. unfold diff. by rewrite Z.sub_diag. Qed.

(** A string without width or precision. *)
Lemma emit_plain cap size s str out : 0 <= cap -> zlen out <= cap -> zlen str < 2 ^ 63 ->
  has (Flags s) ARGUMENT_REVERSED = false -> has (Flags s) PRECISION = false ->
  Z.land (Flags s) (Z.lor PAD_TO_WIDTH LEFT_JUSTIFY) = 0 -> Precision s <= zlen str ->
  Forall (keeps (if has (Flags s) ARGUMENT_UNICODE then 0xffff else 0xff) size) str ->
  emit cap size s (plain str) out = put cap out str.
Proof.
  intros Hc Ho Hl H1 H2 H3 H4 Hk. unfold emit. cbv zeta. rewrite H1, H2, H3. cbn [c_zero_pad c_prefix plain c_string c_comma c_digits].
  assert (((if Precision s <? zlen str then zlen str else Precision s)) = zlen str) as -> by (destruct (Z.ltb_spec (Precision s) (zlen str)); lia).
  pose proof (zlen_nonneg str). rewrite diff_same by lia. change (0 =? PAD_TO_WIDTH) with false. change (0 =? Z.lor PAD_TO_WIDTH LEFT_JUSTIFY) with false. change (0 =? 0) with true. cbv iota.
  rewrite fill_none by lia. apply copy_chars_put; [done|done|lia|done].
Qed.

(** ** Numbers *)

Lemma value_digits_decimal fuel : forall v acc, 0 <= v < 10 ^ Z.of_nat fuel ->
  value_digits fuel v 10 acc = decimal_digits fuel v acc.
Proof.
  induction fuel as [|fuel IH]; intros v acc Hv; [done|]. cbn [value_digits decimal_digits].
  pose proof (Z.mod_pos_bound v 10 ltac:(lia)) as Hm. pose proof (Z.div_mod v 10 ltac:(lia)) as Hd.
  assert (mHexStr (v mod 10) = 48 + v mod 10) as -> by (unfold mHexStr; by rewrite (proj2 (Z.ltb_lt _ _)) by lia).
  destruct (Z.ltb_spec v 10) as [Hl|Hl].
  - rewrite (Z.div_small v 10), (Z.mod_small v 10) by lia. done.
  - rewrite (proj2 (Z.eqb_neq _ _)) by lia. apply IH. rewrite Nat2Z.inj_succ, Z.pow_succ_r in Hv by lia. lia.
Qed.

Lemma decimal_digits_fuel n m : forall v acc, 0 <= v < 10 ^ Z.of_nat n -> (n <= m)%nat ->
  decimal_digits m v acc = decimal_digits n v acc \/ n = O.
Proof.
  revert m. induction n as [|n IH]; intros m v acc Hv Hm; [by right|]. left. destruct m as [|m]; [lia|]. cbn [decimal_digits].
  destruct (Z.ltb_spec v 10) as [Hl|Hl]; [done|]. pose proof (Z.div_mod v 10 ltac:(lia)). pose proof (Z.mod_pos_bound v 10 ltac:(lia)).
  rewrite Nat2Z.inj_succ, Z.pow_succ_r in Hv by lia.
  destruct (IH m (v / 10) ((48 + v mod 10) :: acc)) as [-> | ->]; [lia|lia|done|]. cbn in Hv. lia.
Qed.

(** The digits are the decimal representation of the value. *)
Lemma value_to_string_decimal v : 0 <= v < 2 ^ 64 -> BasePrintLibValueToString v 10 = decimal v.
Proof.
  intros Hv. unfold BasePrintLibValueToString, decimal. rewrite wrap_small by (unfold in_u; lia).
  assert (2 ^ 64 < 10 ^ 20) by reflexivity. assert (10 ^ 20 < 10 ^ 64) by reflexivity.
  rewrite value_digits_decimal by (change (Z.of_nat 64) with 64; lia).
  destruct (decimal_digits_fuel 20 64 v []) as [E|E]; [change (Z.of_nat 20) with 20; lia|lia|exact E|discriminate E].
Qed.

Lemma value_digits_keeps fuel radix : 0 < radix <= 16 -> forall v acc, 0 <= v -> Forall (fun c => 48 <= c < 128) acc ->
  Forall (fun c => 48 <= c < 128) (value_digits fuel v radix acc).
Proof.
  intros Hr. induction fuel as [|fuel IH]; intros v acc Hv Ha; [done|]. cbn [value_digits].
  pose proof (Z.mod_pos_bound v radix ltac:(lia)) as Hm.
  assert (48 <= mHexStr (v mod radix) < 128) by (unfold mHexStr; destruct (Z.ltb_spec (v mod radix) 10); lia).
  case_match; [by constructor|]. apply IH; [apply Z.div_pos; lia|by constructor].
Qed.

Lemma value_digits_len fuel radix : forall v acc, (0 < fuel)%nat -> 
  zlen acc < zlen (value_digits fuel v radix acc) <= zlen acc + Z.of_nat fuel.
Proof.
  induction fuel as [|fuel IH]; intros v acc Hf; [lia|]. cbn [value_digits].
  assert (El : forall c, zlen (c :: acc) = zlen acc + 1) by (intros c; unfold zlen; cbn [length]; lia).
  case_match; [rewrite El; lia|]. destruct fuel as [|fuel]; [cbn [value_digits]; rewrite El; lia|].
  specialize (IH (v / radix) (mHexStr (v mod radix) :: acc) ltac:(lia)). rewrite El in IH. lia.
Qed.

Lemma ascii_keeps mask size s : mask = 0xffff \/ mask = 0xff -> size = 1 \/ size = 2 -> Forall (fun c => 0 <= c < 256) s ->
  Forall (keeps mask size) s.
Proof.
  intros Hm Hs Hf. apply (Forall_impl _ _ _ Hf). intros c Hc. unfold keeps.
  assert (Z.land c mask = c) as ->.
  { destruct Hm as [-> | ->].
    - change 0xffff with (Z.ones 16). rewrite Z.land_ones by lia. apply Z.mod_small. lia.
    - change 0xff with (Z.ones 8). rewrite Z.land_ones by lia. apply Z.mod_small. lia. }
  apply wrap_small. unfold in_u. destruct Hs as [-> | ->]; lia.
Qed.

(** A number with its sign. *)
Lemma emit_number cap s ds prefix out : 0 <= cap -> zlen out <= cap -> zlen ds < 2 ^ 62 -> 0 < zlen ds -> Forall (fun c => 48 <= c < 128) ds ->
  0 <= prefix < 128 ->
  has (Flags s) ARGUMENT_REVERSED = true -> Z.land (Flags s) (Z.lor PAD_TO_WIDTH LEFT_JUSTIFY) = 0 ->
  Precision s = (if prefix =? 0 then 1 else 2) ->
  emit cap 2 s (mk_conv ds (if prefix =? 0 then zlen ds else zlen ds + 1) prefix false true (if zlen ds mod 3 =? 0 then 0 else 3 - zlen ds mod 3)) out =
  put cap out ((if prefix =? 0 then [] else [prefix]) ++ ds).
Proof.
  intros Hc Ho Hl Hl0 Hd Hp H1 H3 H4. unfold emit. cbv zeta. rewrite H1, H3, H4. cbn [c_zero_pad c_prefix c_string c_comma c_digits c_count].
  change (0 =? PAD_TO_WIDTH) with false. change (0 =? Z.lor PAD_TO_WIDTH LEFT_JUSTIFY) with false. cbv iota.
  assert (Hk : forall mask, mask = 0xffff \/ mask = 0xff -> Forall (keeps mask 2) ds).
  { intros mask Hm. apply ascii_keeps; [done|by right|]. apply (Forall_impl _ _ _ Hd). lia. }
  assert (Hm : (if has (Flags s) ARGUMENT_UNICODE then 0xffff else 0xff) = 0xffff \/ (if has (Flags s) ARGUMENT_UNICODE then 0xffff else 0xff) = 0xff) by (destruct (has (Flags s) ARGUMENT_UNICODE); [by left|by right]).
  destruct (Z.eqb_spec prefix 0) as [->|Hne].
  - replace (if 1 <? zlen ds then zlen ds else 1) with (zlen ds) by (destruct (Z.ltb_spec 1 (zlen ds)); lia).
    rewrite diff_same by lia. rewrite fill_none by lia. cbn [app]. apply copy_chars_put; [done|by apply Hk|lia|done].
  - replace (if 2 <? zlen ds + 1 then zlen ds + 1 else 2) with (zlen ds + 1) by (destruct (Z.ltb_spec 2 (zlen ds + 1)); lia).
    rewrite diff_same, (fill_none _ _ _ 0) by lia. rewrite fill_one by done. rewrite wrap_small by (unfold in_u; lia).
    rewrite copy_chars_put; [by rewrite put_app|done|by apply Hk|lia|by apply put_len].
Qed.

(** ** Format strings made of pieces *)

(** A character that is no directive, a newline, CR LF, and the directives the boot
    loader uses: [%s], [%a], [%c], [%d], [%u], [%llx] and [%r]. *)
Inductive piece :=
| PChar (c : Z) | PNewline | PCrLf
| PWide (s : bytes) | PAscii (s : bytes) | POne (c : Z)
| PInt (v : Z) | PUnsigned (v : Z) | PHex64 (v : Z) | PStatus (v : Z) (t : bytes).

Definition piece_format (p : piece) : bytes :=
  match p with
  | PChar c => [c] | PNewline => [10] | PCrLf => [13; 10]
  | PWide _ => [37; 115] | PAscii _ => [37; 97] | POne _ => [37; 99]
  | PInt _ => [37; 100] | PUnsigned _ => [37; 117] | PHex64 _ => [37; 108; 108; 120] | PStatus _ _ => [37; 114]
  end.

Definition piece_args (p : piece) : list va_arg :=
  match p with
  | PChar _ | PNewline | PCrLf => []
  | PWide s => [VaStr16 (Some s)] | PAscii s => [VaStr8 (Some s)] | POne c => [VaInt c]
  | PInt v => [VaInt (u64 v)] | PUnsigned v | PHex64 v => [VaInt v] | PStatus v _ => [VaInt v]
  end.

Definition piece_text (p : piece) : bytes :=
  match p with
  | PChar c => [c] | PNewline | PCrLf => [13; 10]
  | PWide s | PAscii s => s | POne c => [c]
  | PInt v => if v <? 0 then 45 :: decimal (- v) else decimal v
  | PUnsigned v => decimal v
  | PHex64 v => BasePrintLibValueToString v 16
  | PStatus _ t => t
  end.

(** Characters and strings without NUL, values of the types the directives read. *)
Definition char16 (c : Z) : Prop := 0 < c < 2 ^ 16.
Definition piece_ok (p : piece) : Prop :=
  match p with
  | PChar c => char16 c /\ c <> 37 /\ c <> 13 /\ c <> 10
  | PNewline | PCrLf => True
  | PWide s => Forall char16 s /\ zlen s < 2 ^ 62
  | PAscii s => Forall (fun c => 0 < c < 256) s /\ zlen s < 2 ^ 62
  | POne c => char16 c
  | PInt v => - 2 ^ 31 <= v < 2 ^ 31
  | PUnsigned v => 0 <= v < 2 ^ 32
  | PHex64 v => 0 <= v < 2 ^ 64
  | PStatus v t => 0 <= v < 2 ^ 64 /\ status_text v = Some t
  end.

Lemma char16_keeps s : Forall char16 s -> Forall (keeps 0xffff 2) s.
Proof.
  intros Hs. apply (Forall_impl _ _ _ Hs). intros c Hc. unfold keeps, char16 in *. change 0xffff with (Z.ones 16).
  rewrite Z.land_ones, Z.mod_small by lia. apply wrap_small. unfold in_u. lia.
Qed.

Lemma status_text_ascii v t : status_text v = Some t -> 0 <= v < 2 ^ 64 -> Forall (fun c => 0 <= c < 256) t /\ 0 < zlen t < 2 ^ 62.
Proof.
  intros H Hv.
  assert (Hall : forall l i t, Forall (fun s => Forall (fun c => 0 <= c < 256) (lit s) /\ 0 < zlen (lit s) < 2 ^ 62) l ->
    lit <$> (l : list string) !! i = Some t -> Forall (fun c => 0 <= c < 256) t /\ 0 < zlen t < 2 ^ 62).
  { intros l i t' Hl. destruct (l !! i) as [x|] eqn:E; [|done]. intros [= <-]. by apply (proj1 (Forall_lookup _ _) Hl i). }
  assert (Forall (fun s => Forall (fun c => 0 <= c < 256) (lit s) /\ 0 < zlen (lit s) < 2 ^ 62) mErrorString /\
    Forall (fun s => Forall (fun c => 0 <= c < 256) (lit s) /\ 0 < zlen (lit s) < 2 ^ 62) mWarningString) as (He & Hw).
  { split; apply (bool_decide_eq_true_1 _); vm_compute; reflexivity. }
  unfold status_text in H. repeat case_match; try done; [by apply (Hall _ _ _ He) in H|by apply (Hall _ _ _ Hw) in H].
Qed.

Definition UNICODE_FLAGS : Z := Z.lor FORMAT_UNICODE OUTPUT_UNICODE.

(** One piece: its directive is parsed, and its text is put into the buffer. *)
Definition prints (sub : bytes -> list va_arg -> run bytes) (p : piece) (f : bytes) (args : list va_arg) : Prop :=
  exists c tl cv s, piece_format p = c :: tl /\
    format_char sub UNICODE_FLAGS c (tl ++ f) (piece_args p ++ args) = Ret (cv, s, f) /\ rest_args s = args /\
    forall cap out, 0 <= cap -> zlen out <= cap -> emit cap 2 s cv out = put cap out (piece_text p).

Lemma prints_char sub c f args : char16 c -> c <> 37 -> c <> 13 -> c <> 10 -> prints sub (PChar c) f args.
Proof.
  intros Hc H1 H2 H3. eexists c, [], _, _. split; [reflexivity|]. split.
  - unfold format_char. rewrite !(proj2 (Z.eqb_neq _ _)) by done. reflexivity.
  - split; [reflexivity|]. intros cap out Hcap Ho. unfold one_char. rewrite (proj2 (Z.eqb_neq c 0)) by (unfold char16 in Hc; lia).
    apply emit_plain; try done. apply char16_keeps. by constructor.
Qed.

(** The text of a line end. *)
Lemma emit_line_end cap args out : 0 <= cap -> zlen out <= cap ->
  emit cap 2 (mk_spec UNICODE_FLAGS 0 1 args) (plain [13; 10]) out = put cap out [13; 10].
Proof. intros Hcap Ho. apply emit_plain; try done. apply ascii_keeps; [by right|by right|]. repeat constructor; lia. Qed.

Lemma prints_newline sub f args : match f with 13 :: _ => False | _ => True end -> prints sub PNewline f args.
Proof.
  intros Hf. eexists 10, [], (plain [13; 10]), (mk_spec UNICODE_FLAGS 0 1 args). split; [reflexivity|]. split.
  - unfold format_char. change (10 =? 37) with false. change ((10 =? 13) || (10 =? 10)) with true. cbn [app]. unfold line_end.
    destruct f as [|d f]; [done|]. change (10 =? 13) with false. cbv iota. destruct (Z.eqb_spec d 13) as [->|]; done.
  - split; [reflexivity|]. intros cap out. apply emit_line_end.
Qed.

Lemma prints_crlf sub f args : prints sub PCrLf f args.
Proof.
  eexists 13, [10], (plain [13; 10]), (mk_spec UNICODE_FLAGS 0 1 args). split; [reflexivity|]. split; [reflexivity|].
  split; [reflexivity|]. intros cap out. apply emit_line_end.
Qed.

Lemma prints_wide sub str f args : Forall char16 str -> zlen str < 2 ^ 62 -> prints sub (PWide str) f args.
Proof.
  intros Hs Hl. eexists 37, [115], _, _. split; [reflexivity|]. split; [reflexivity|]. split; [reflexivity|].
  intros cap out Hcap Ho. cbn [piece_text]. apply emit_plain; [done|done|lia|reflexivity|reflexivity|reflexivity|apply zlen_nonneg|by apply char16_keeps].
Qed.

Lemma prints_ascii sub str f args : Forall (fun c => 0 < c < 256) str -> zlen str < 2 ^ 62 -> prints sub (PAscii str) f args.
Proof.
  intros Hs Hl. eexists 37, [97], _, _. split; [reflexivity|]. split; [reflexivity|]. split; [reflexivity|].
  intros cap out Hcap Ho. cbn [piece_text]. apply emit_plain; [done|done|lia|reflexivity|reflexivity|reflexivity|apply zlen_nonneg|]. apply ascii_keeps; [by right|by right|].
  apply (Forall_impl _ _ _ Hs). lia.
Qed.

Lemma prints_one sub c f args : char16 c -> prints sub (POne c) f args.
Proof.
  intros Hc. assert (El : Z.land c 0xffff = c) by (change 0xffff with (Z.ones 16); rewrite Z.land_ones by lia; apply Z.mod_small; unfold char16 in Hc; lia).
  exists 37, [99], (plain (one_char (Z.land c 0xffff))), (unicode_arg (mk_spec UNICODE_FLAGS 0 1 args)).
  split; [reflexivity|]. split; [reflexivity|]. split; [reflexivity|]. intros cap out Hcap Ho.
  rewrite El. unfold one_char. rewrite (proj2 (Z.eqb_neq c 0)) by (unfold char16 in Hc; lia).
  apply emit_plain; [done|done|done|reflexivity..|done|]. apply char16_keeps. by constructor.
Qed.

Lemma prints_status sub v t f args : 0 <= v < 2 ^ 64 -> status_text v = Some t -> prints sub (PStatus v t) f args.
Proof.
  intros Hv Ht. destruct (status_text_ascii v t Ht Hv) as (Ha & Hl).
  exists 37, [114], (plain t), (mk_spec UNICODE_FLAGS 0 1 args). split; [reflexivity|]. split.
  - unfold format_char. change (37 =? 37) with true. cbv iota. cbn [app length parse_spec]. cbn [Z.eqb Pos.eqb orb andb Z.leb Z.compare Pos.compare Pos.compare_cont].
    bind_step. unfold convert. cbn [Z.eqb Pos.eqb orb]. cbn [piece_args app rest_args next_int]. bind_step. cbn [fst snd]. rewrite Ht. bind_step. reflexivity.
  - split; [reflexivity|]. intros cap out Hcap Ho. cbn [piece_text]. apply emit_plain; [done|done|lia|reflexivity..|cbn [Precision]; lia|].
    apply ascii_keeps; [by right|by right|done].
Qed.

Lemma s32_of_u64 v : - 2 ^ 31 <= v < 2 ^ 31 -> s32 (u32 (u64 v)) = v.
Proof.
  intros Hv. unfold s32, wrap. rewrite (Z.mod_mod_divide v (2 ^ 64) (2 ^ 32)) by (exists (2 ^ 32); reflexivity).
  rewrite <- (Zplus_mod_idemp_l (v mod 2 ^ 32)), Zmod_mod, Zplus_mod_idemp_l. rewrite Z.mod_small by lia. lia.
Qed.

Definition digit_groups (n : Z) : Z := if n mod 3 =? 0 then 0 else 3 - n mod 3.

(** The flags of a directive without any, as numbers are converted. *)
Lemma plain_flags (fl : Z) : fl = UNICODE_FLAGS \/ fl = Z.lor UNICODE_FLAGS UNSIGNED_TYPE \/ fl = Z.lor UNICODE_FLAGS PREFIX_SIGN \/
    fl = Z.lor UNICODE_FLAGS (Z.lor LONG_TYPE RADIX_HEX) ->
  has fl COMMA_TYPE = false /\ has fl PREFIX_BLANK = false /\
  has (Z.lor fl ARGUMENT_REVERSED) PREFIX_ZERO = false /\ has (Z.lor fl ARGUMENT_REVERSED) ARGUMENT_REVERSED = true /\
  Z.land (Z.lor fl ARGUMENT_REVERSED) (Z.lor PAD_TO_WIDTH LEFT_JUSTIFY) = 0.
Proof. intros [-> | [-> | [-> | ->]]]; by vm_compute. Qed.

Lemma convert_int v args : - 2 ^ 31 <= v < 2 ^ 31 ->
  let prefix := if v <? 0 then 45 else 0 in
  let ds := BasePrintLibValueToString (Z.abs v) 10 in
  exists fl, convert_number 100 (mk_spec UNICODE_FLAGS 0 1 (VaInt (u64 v) :: args)) =
    Ret (mk_conv ds (if prefix =? 0 then zlen ds else zlen ds + 1) prefix false true (digit_groups (zlen ds)),
         mk_spec fl 0 (if prefix =? 0 then 1 else 2) args) /\
    has fl ARGUMENT_REVERSED = true /\ Z.land fl (Z.lor PAD_TO_WIDTH LEFT_JUSTIFY) = 0.
Proof.
  intros Hv. cbv zeta. unfold convert_number. cbn [Flags rest_args next_int Width Precision]. bind_step. cbv zeta.
  change (number_flags 100 UNICODE_FLAGS) with UNICODE_FLAGS.
  destruct (plain_flags UNICODE_FLAGS) as (F1 & F2 & F3 & F4 & F5); [by left|].
  destruct (plain_flags (Z.lor UNICODE_FLAGS PREFIX_SIGN)) as (G1 & G2 & G3 & G4 & G5); [auto|].
  change (has UNICODE_FLAGS LONG_TYPE) with false. change (has UNICODE_FLAGS RADIX_HEX) with false.
  change (has UNICODE_FLAGS PREFIX_SIGN) with false. change (has UNICODE_FLAGS UNSIGNED_TYPE) with false.
  rewrite F1, F2. cbn [negb andb]. rewrite s32_of_u64 by done. rewrite andb_true_r.
  destruct (Z.ltb_spec v 0) as [Hn|Hn]; cbn [andb negb].
  - rewrite (proj2 (Z.eqb_neq v (- 2 ^ 63))) by lia.
    change (1 =? 0) with false. rewrite andb_false_r, (Z.abs_neq v) by lia. rewrite G3. cbn [andb].
    eexists. split; [reflexivity|]. by split.
  - change (has UNICODE_FLAGS RADIX_HEX) with false. change (has UNICODE_FLAGS UNSIGNED_TYPE) with false. cbn [andb negb].
    change (1 =? 0) with false. rewrite andb_false_r, (Z.abs_eq v) by lia. rewrite F3. cbn [andb].
    eexists. split; [reflexivity|]. by split.
Qed.

Lemma u32_s32 v : 0 <= v < 2 ^ 32 -> u32 (s32 (u32 v)) = v.
Proof.
  intros Hv. unfold s32, wrap. rewrite (Z.mod_small v) by lia. rewrite Zminus_mod_idemp_l.
  replace (v + 2 ^ 31 - 2 ^ 31) with v by lia. apply Z.mod_small. lia.
Qed.

Lemma convert_unsigned v args : 0 <= v < 2 ^ 32 ->
  let ds := BasePrintLibValueToString v 10 in
  exists fl, convert_number 117 (mk_spec UNICODE_FLAGS 0 1 (VaInt v :: args)) =
    Ret (mk_conv ds (zlen ds) 0 false true (digit_groups (zlen ds)), mk_spec fl 0 1 args) /\
    has fl ARGUMENT_REVERSED = true /\ Z.land fl (Z.lor PAD_TO_WIDTH LEFT_JUSTIFY) = 0.
Proof.
  intros Hv. cbv zeta. unfold convert_number. cbn [Flags rest_args next_int Width Precision]. bind_step. cbv zeta.
  change (number_flags 117 UNICODE_FLAGS) with (Z.lor UNICODE_FLAGS UNSIGNED_TYPE). set (fl := Z.lor UNICODE_FLAGS UNSIGNED_TYPE).
  destruct (plain_flags fl) as (F1 & F2 & F3 & F4 & F5); [auto|].
  change (has fl LONG_TYPE) with false. change (has fl RADIX_HEX) with false.
  change (has fl PREFIX_SIGN) with false. change (has fl UNSIGNED_TYPE) with true. rewrite F1, F2. cbn [negb andb].
  rewrite andb_false_r. cbn [andb]. change (has fl RADIX_HEX) with false. change (has fl UNSIGNED_TYPE) with true.
  change (has fl LONG_TYPE) with false. cbn [negb andb]. rewrite u32_s32 by done.
  change (1 =? 0) with false. rewrite andb_false_r, F3. cbn [andb]. change (0 =? 0) with true. cbv iota.
  eexists. split; [reflexivity|]. by split.
Qed.

Lemma convert_hex64 v args : 0 <= v < 2 ^ 64 ->
  let ds := BasePrintLibValueToString v 16 in
  exists fl, convert_number 120 (mk_spec (Z.lor UNICODE_FLAGS LONG_TYPE) 0 1 (VaInt v :: args)) =
    Ret (mk_conv ds (zlen ds) 0 false true (digit_groups (zlen ds)), mk_spec fl 0 1 args) /\
    has fl ARGUMENT_REVERSED = true /\ Z.land fl (Z.lor PAD_TO_WIDTH LEFT_JUSTIFY) = 0.
Proof.
  intros Hv. cbv zeta. unfold convert_number. cbn [Flags rest_args next_int Width Precision]. bind_step. cbv zeta.
  change (number_flags 120 (Z.lor UNICODE_FLAGS LONG_TYPE)) with (Z.lor UNICODE_FLAGS (Z.lor LONG_TYPE RADIX_HEX)).
  set (fl := Z.lor UNICODE_FLAGS (Z.lor LONG_TYPE RADIX_HEX)).
  destruct (plain_flags fl) as (F1 & F2 & F3 & F4 & F5); [auto|].
  change (has fl LONG_TYPE) with true. change (has fl RADIX_HEX) with true. change (has fl PREFIX_SIGN) with false. rewrite F1, F2.
  cbn [negb andb]. change (has fl RADIX_HEX) with true. change (has fl LONG_TYPE) with true. cbn [negb andb].
  change (1 =? 0) with false. rewrite andb_false_r, F3. cbn [andb]. change (0 =? 0) with true. cbv iota.
  assert (Ed : BasePrintLibValueToString (s64 v) 16 = BasePrintLibValueToString v 16).
  { unfold BasePrintLibValueToString, s64, wrap. rewrite Zminus_mod_idemp_l. by replace (v + 2 ^ 63 - 2 ^ 63) with v by lia. }
  rewrite Ed. eexists. split; [reflexivity|]. by split.
Qed.

(** The digits of a number as they are emitted. *)
Lemma emit_digits cap fl args ds prefix out v radix : ds = BasePrintLibValueToString v radix -> 0 < radix <= 16 -> 0 <= cap -> zlen out <= cap ->
  0 <= prefix < 128 -> has fl ARGUMENT_REVERSED = true -> Z.land fl (Z.lor PAD_TO_WIDTH LEFT_JUSTIFY) = 0 ->
  emit cap 2 (mk_spec fl 0 (if prefix =? 0 then 1 else 2) args)
    (mk_conv ds (if prefix =? 0 then zlen ds else zlen ds + 1) prefix false true (digit_groups (zlen ds))) out =
  put cap out ((if prefix =? 0 then [] else [prefix]) ++ ds).
Proof.
  intros -> Hr Hc Ho Hp H1 H2. pose proof (value_digits_len 64 radix (u64 v) [] ltac:(lia)) as Hl.
  change (zlen []) with 0 in Hl. fold (BasePrintLibValueToString v radix) in Hl. change (Z.of_nat 64) with 64 in Hl.
  apply emit_number; [done|done|lia|lia| |done|done|done|done].
  apply value_digits_keeps; [done|apply Z.mod_pos_bound; lia|constructor].
Qed.

Lemma prints_int sub v f args : - 2 ^ 31 <= v < 2 ^ 31 -> prints sub (PInt v) f args.
Proof.
  intros Hv. destruct (convert_int v args Hv) as (fl & E & H1 & H2).
  eexists 37, [100], _, _. split; [reflexivity|]. split.
  - unfold format_char. change (37 =? 37) with true. cbv iota. cbn [app length parse_spec].
    cbn [Z.eqb Pos.eqb orb andb Z.leb Z.compare Pos.compare Pos.compare_cont]. bind_step. unfold convert.
    cbn [Z.eqb Pos.eqb orb]. cbn [piece_args app]. rewrite E. bind_step. reflexivity.
  - split; [reflexivity|]. intros cap out Hcap Ho. rewrite (emit_digits _ _ _ _ _ _ (Z.abs v) 10); [|done|lia|done|done|destruct (v <? 0); lia|done|done].
    cbn [piece_text]. rewrite value_to_string_decimal by lia. destruct (Z.ltb_spec v 0); [by rewrite Z.abs_neq by lia|by rewrite Z.abs_eq by lia].
Qed.

Lemma prints_unsigned sub v f args : 0 <= v < 2 ^ 32 -> prints sub (PUnsigned v) f args.
Proof.
  intros Hv. destruct (convert_unsigned v args Hv) as (fl & E & H1 & H2).
  eexists 37, [117], _, _. split; [reflexivity|]. split.
  - unfold format_char. change (37 =? 37) with true. cbv iota. cbn [app length parse_spec].
    cbn [Z.eqb Pos.eqb orb andb Z.leb Z.compare Pos.compare Pos.compare_cont]. bind_step. unfold convert.
    cbn [Z.eqb Pos.eqb orb]. cbn [piece_args app]. rewrite E. bind_step. reflexivity.
  - split; [reflexivity|]. intros cap out Hcap Ho. pose proof (emit_digits cap fl args _ 0 out v 10 eq_refl ltac:(lia) Hcap Ho ltac:(lia) H1 H2) as Em.
    change (0 =? 0) with true in Em. cbn [app] in Em. rewrite Em. cbn [piece_text]. by rewrite value_to_string_decimal by lia.
Qed.

Lemma parse_long n f s : parse_spec (S n) (108 :: f) s = parse_spec n f (set_flags s (Z.lor (Flags s) LONG_TYPE)).
Proof. reflexivity. Qed.
Lemma parse_x n f s : parse_spec (S n) (120 :: f) s = Ret (120, f, s).
Proof. reflexivity. Qed.

Lemma prints_hex64 sub v f args : 0 <= v < 2 ^ 64 -> prints sub (PHex64 v) f args.
Proof.
  intros Hv. destruct (convert_hex64 v args Hv) as (fl & E & H1 & H2).
  eexists 37, [108; 108; 120], _, _. split; [reflexivity|]. split.
  - unfold format_char. change (37 =? 37) with true. cbv iota. cbn [app length piece_args].
    rewrite !parse_long, parse_x. bind_step. unfold convert.
    cbn [Z.eqb Pos.eqb orb]. unfold set_flags. cbn [Flags Width Precision rest_args].
    change (Z.lor (Z.lor UNICODE_FLAGS LONG_TYPE) LONG_TYPE) with (Z.lor UNICODE_FLAGS LONG_TYPE). rewrite E. bind_step. reflexivity.
  - split; [reflexivity|]. intros cap out Hcap Ho. pose proof (emit_digits cap fl args _ 0 out v 16 eq_refl ltac:(lia) Hcap Ho ltac:(lia) H1 H2) as Em.
    change (0 =? 0) with true in Em. cbn [app] in Em. exact Em.
Qed.

Lemma prints_piece sub p f args : piece_ok p -> match p, f with PNewline, 13 :: _ => False | _, _ => True end -> prints sub p f args.
Proof.
  intros Hp Hf. destruct p; cbn [piece_ok] in Hp.
  - destruct Hp as (? & ? & ? & ?). by apply prints_char.
  - by apply prints_newline.
  - apply prints_crlf.
  - destruct Hp. by apply prints_wide.
  - destruct Hp. by apply prints_ascii.
  - by apply prints_one.
  - by apply prints_int.
  - by apply prints_unsigned.
  - by apply prints_hex64.
  - destruct Hp. by apply prints_status.
Qed.

(** Only CR LF starts with a carriage return. *)
Lemma pieces_head ps : Forall piece_ok ps ->
  (exists ps', ps = PCrLf :: ps') \/ match concat (piece_format <$> ps) with 13 :: _ => False | _ => True end.
Proof.
  destruct ps as [|p ps]; [by right|]. intros Hp. apply Forall_cons in Hp as (Hp & _). destruct p as [c| | | | | | | | |]; try by right.
  - right. destruct Hp as (_ & _ & Hc & _). cbn. destruct c as [|c|c]; try done. by repeat (destruct c as [c|c|]; try done).
  - left. by exists ps.
Qed.

(** After a newline, CR LF is read as the end of that newline and another newline,
    which prints the same. *)
Lemma print_newline_crlf sub fuel cap ps args out : 0 <= cap -> zlen out <= cap -> (0 < fuel)%nat ->
  print_loop sub fuel UNICODE_FLAGS cap 2 (concat (piece_format <$> PNewline :: PCrLf :: ps)) args out =
  print_loop sub (pred fuel) UNICODE_FLAGS cap 2 (concat (piece_format <$> PNewline :: ps)) args
    (if cap <=? zlen out then out else put cap out [13; 10]).
Proof.
  intros Hc Ho Hf. destruct fuel as [|fuel]; [lia|]. cbn [fmap list_fmap piece_format concat app pred]. cbn [print_loop].
  destruct (Z.leb_spec cap (zlen out)) as [Hfull|Hroom].
  { by destruct fuel; cbn [print_loop]; rewrite (proj2 (Z.leb_le cap (zlen out)) Hfull). }
  change (format_char sub UNICODE_FLAGS 10 (13 :: 10 :: ?f) args) with (Ret (plain [13; 10], mk_spec UNICODE_FLAGS 0 1 args, 10 :: f)).
  bind_step. cbn [rest_args]. by rewrite emit_line_end.
Qed.

Lemma print_pieces sub cap : 0 <= cap -> forall n ps fuel out, (length ps <= n)%nat -> Forall piece_ok ps ->
  (length (concat (piece_format <$> ps)) <= fuel)%nat -> zlen out <= cap ->
  print_loop sub fuel UNICODE_FLAGS cap 2 (concat (piece_format <$> ps)) (concat (piece_args <$> ps)) out =
  Ret (put cap out (concat (piece_text <$> ps))).
Proof.
  intros Hc. assert (Hfull : forall out t, cap <= zlen out -> zlen out <= cap -> put cap out t = out).
  { intros out t H1 H2. unfold put, zlen in *. rewrite take_app_le, take_ge by lia. done. }
  induction n as [|n IH]; intros ps fuel out Hn Hp Hf Ho; (destruct ps as [|p ps]; [|]).
  1, 3: cbn [fmap list_fmap concat]; rewrite put_nil by done; by destruct fuel.
  1: cbn in Hn; lia.
  apply Forall_cons in Hp as (Hp & Hps). cbn [length] in Hn.
  assert (Hcase : (p = PNewline /\ exists ps', ps = PCrLf :: ps') \/ match p, concat (piece_format <$> ps) with PNewline, 13 :: _ => False | _, _ => True end).
  { destruct (pieces_head ps Hps) as [He|Hh]; [|right; by destruct p]. destruct p; try (by right). by left. }
  destruct Hcase as [(-> & ps' & ->)|Hcase].
  - rewrite print_newline_crlf by (cbn in Hf; done || lia).
    change (concat (piece_args <$> PNewline :: PCrLf :: ps')) with (concat (piece_args <$> PNewline :: ps')).
    apply Forall_cons in Hps as (_ & Hps). rewrite IH; [|cbn in *; lia|by constructor|cbn in *; lia|destruct (_ <=? _); [done|by apply put_len]].
    destruct (Z.leb_spec cap (zlen out)); [by rewrite !Hfull|]. by rewrite put_app.
  - cbn [fmap list_fmap concat] in *.
    destruct (prints_piece sub p (concat (piece_format <$> ps)) (concat (piece_args <$> ps)) Hp Hcase) as (c & tl & cv & s & Ef & Ec & Er & Em).
    rewrite Ef in *. cbn [app length] in *. destruct fuel as [|fuel]; [lia|]. cbn [print_loop].
    destruct (Z.leb_spec cap (zlen out)) as [Hfl|Hroom]; [by rewrite Hfull|].
    rewrite Ec. bind_step. rewrite Er, Em by done. rewrite IH; [by rewrite put_app|lia|done| |by apply put_len].
    rewrite length_app in Hf. lia.
Qed.

(** The buffer after the loop. *)
Lemma unicode_vsprint_pieces ps BufferSize :
  Forall piece_ok ps -> 2 <= BufferSize <= 2 * RSIZE_MAX -> zlen (concat (piece_format <$> ps)) <= RSIZE_MAX ->
  UnicodeVSPrint BufferSize (concat (piece_format <$> ps)) (concat (piece_args <$> ps)) =
  Ret (Some (take (Z.to_nat (BufferSize / 2 - 1)) (concat (piece_text <$> ps)))).
Proof.
  intros Hp HB Hf. unfold UnicodeVSPrint. fold UNICODE_FLAGS. rewrite Z.shiftr_div_pow2 by lia. change (2 ^ 1) with 2.
  assert (H2 : 1 <= BufferSize / 2 <= RSIZE_MAX).
  { split; [apply Z.div_le_lower_bound; lia|apply Z.div_le_upper_bound; lia]. }
  cbn [BasePrintLibSPrintMarker]. cbv zeta. change (has UNICODE_FLAGS OUTPUT_UNICODE) with true. change (has UNICODE_FLAGS FORMAT_UNICODE) with true. cbv iota.
  rewrite (proj2 (Z.ltb_ge RSIZE_MAX _)), (proj2 (Z.ltb_ge RSIZE_MAX _)), (proj2 (Z.eqb_neq _ 0)) by lia.
  rewrite (print_pieces _ (BufferSize / 2 - 1) ltac:(lia) (length ps)); [|done|done|lia|change (zlen []) with 0; lia]. bind_step. reflexivity.
Qed.

(** ** Matching arguments *)

(** The arguments are the ones a format with the directives [%d], [%u], [%x] (with
    any number of [l], except for [%d]), [%r], [%a] and [%s] asks for; [dir] and
    [long] tell where in a directive the format starts. *)
Fixpoint args_match (dir long : bool) (f : bytes) (args : list va_arg) : bool :=
  match f with
  | [] => negb dir
  | c :: f =>
      if dir then
        if c =? 108 then args_match true true f args
        else match args with
        | VaInt _ :: args => ((c =? 100) && negb long || (c =? 117) || (c =? 120) || (c =? 114)) && args_match false false f args
        | VaStr8 _ :: args => (c =? 97) && args_match false false f args
        | VaStr16 _ :: args => (c =? 115) && args_match false false f args
        | _ => false
        end
      else args_match (c =? 37) false f args
  end.

(** A step of the loop on such a format gives a value, and leaves such a format. *)
Definition fits (f : bytes) (r : run (conv * spec * bytes)) : Prop :=
  exists cv s f', r = Ret (cv, s, f') /\ (length f' <= length f)%nat /\ args_match false false f' (rest_args s) = true.

Definition dir_flags (long : bool) : Z := if long then Z.lor UNICODE_FLAGS LONG_TYPE else UNICODE_FLAGS.

Lemma line_end_matches c f args : args_match false false f args = true -> args_match false false (snd (line_end c f)) args = true.
Proof.
  unfold line_end. destruct f as [|d f]; [done|]. intros H.
  destruct (c =? 13); [destruct (Z.eqb_spec d 10) as [->|]|destruct (Z.eqb_spec d 13) as [->|]]; cbn [snd]; try done; exact H.
Qed.

Lemma convert_number_matches c long v args : (c = 100 /\ long = false) \/ c = 117 \/ c = 120 ->
  exists cv s, convert_number c (mk_spec (dir_flags long) 0 1 (VaInt v :: args)) = Ret (cv, s) /\ rest_args s = args.
Proof.
  intros Hc. unfold convert_number. cbn [rest_args next_int Flags]. bind_step. cbv zeta.
  match goal with |- context [if ?b then UB else _] => assert (E : b = false) end.
  { destruct Hc as [(-> & ->)|[-> | ->]]; [|destruct long; apply andb_false_iff; left; rewrite andb_false_r; reflexivity|destruct long; reflexivity].
    change (has (number_flags 100 (dir_flags false)) LONG_TYPE) with false. cbv iota.
    apply andb_false_iff. right. apply Z.eqb_neq. unfold s32, wrap. pose proof (Z.mod_pos_bound (v mod 2 ^ 32 + 2 ^ 31) (2 ^ 32)). lia. }
  rewrite E. match goal with |- context [match ?p with (_, _) => _ end] => destruct p end. eexists _, _. split; reflexivity.
Qed.

Section Matching.
Context (sub : bytes -> list va_arg -> run bytes) (Hsub : forall v, exists t, sub (lit "%08X") [VaInt v] = Ret t).

Lemma convert_matches c long f args : args_match true long (c :: f) args = true -> c <> 108 ->
  fits f (convert sub c f (mk_spec (dir_flags long) 0 1 args)).
Proof.
  cbn [args_match]. intros H Hl. rewrite (proj2 (Z.eqb_neq c 108)) in H by done.
  destruct args as [|[v|o|o|o|o] args]; try done; apply andb_true_iff in H as (Hc & H); unfold fits, convert.
  - destruct (Z.eqb_spec c 114) as [->|Hr].
    + cbn [Z.eqb Pos.eqb orb rest_args next_int]. bind_step. cbn [fst snd].
      destruct (status_text v); [|destruct (Hsub v) as (t & ->)]; bind_step; eexists _, _, _; (split; [reflexivity|]); by split.
    + rewrite orb_false_r in Hc.
      assert (Hd : (c = 100 /\ long = false) \/ c = 117 \/ c = 120).
      { repeat (apply orb_true_iff in Hc as [Hc|Hc]); [left|right; left|right; right]; try lia.
        apply andb_true_iff in Hc as (H1 & H2). destruct long; [done|]. split; [lia|done]. }
      replace (_ || _ || _ || _ || _) with true by (symmetry; destruct Hd as [(-> & _)|[-> | ->]]; done).
      destruct (convert_number_matches c long v args Hd) as (cv & s & -> & Hs). bind_step.
      eexists _, _, _. split; [reflexivity|]. split; [done|]. by rewrite Hs.
  - apply Z.eqb_eq in Hc as ->. cbn [Z.eqb Pos.eqb orb rest_args].
    destruct o, long; eexists _, _, _; (split; [reflexivity|]); split; done.
  - apply Z.eqb_eq in Hc as ->. cbn [Z.eqb Pos.eqb orb rest_args].
    destruct o, long; eexists _, _, _; (split; [reflexivity|]); split; done.
Qed.

Lemma parse_matches f : forall long args fuel, args_match true long f args = true -> (length f < fuel)%nat ->
  fits f ('(c, f, s) ← parse_spec fuel f (mk_spec (dir_flags long) 0 1 args); convert sub c f s).
Proof.
  induction f as [|c f IH]; intros long args fuel H Hf; [done|]. destruct fuel as [|fuel]; [cbn in Hf; lia|].
  destruct (Z.eqb_spec c 108) as [->|Hc].
  - rewrite parse_long. cbn [args_match Z.eqb Pos.eqb] in H. unfold set_flags. cbn [Flags Width Precision rest_args].
    replace (Z.lor (dir_flags long) LONG_TYPE) with (dir_flags true) by (by destruct long).
    destruct (IH true args fuel H ltac:(cbn in Hf; lia)) as (cv & s & f' & E & L & M). exists cv, s, f'.
    split; [exact E|]. split; [cbn; lia|done].
  - assert (E : parse_spec (S fuel) (c :: f) (mk_spec (dir_flags long) 0 1 args) = Ret (c, f, mk_spec (dir_flags long) 0 1 args)).
    { pose proof H as H'. cbn [args_match] in H'. rewrite (proj2 (Z.eqb_neq c 108)) in H' by done.
      assert (Hd : c = 100 \/ c = 117 \/ c = 120 \/ c = 114 \/ c = 97 \/ c = 115).
      { destruct args as [|[v|o|o|o|o] args]; try done; apply andb_true_iff in H' as (H' & _); [|lia|lia].
        repeat (apply orb_true_iff in H' as [H'|H']); [apply andb_true_iff in H' as (H' & _)|..]; lia. }
      by destruct Hd as [-> | [-> | [-> | [-> | [-> | ->]]]]]. }
    rewrite E. bind_step. destruct (convert_matches c long f args H Hc) as (cv & s & f' & E' & L & M). exists cv, s, f'.
    split; [exact E'|]. split; [cbn; lia|done].
Qed.

Lemma format_char_matches c f args : args_match false false (c :: f) args = true ->
  fits f (format_char sub UNICODE_FLAGS c f args).
Proof.
  cbn [args_match]. intros H. unfold format_char. cbv zeta. destruct (c =? 37).
  - apply (parse_matches f false args (S (length f)) H). lia.
  - destruct (_ || _).
    + pose proof (line_end_matches c f args H) as H'. pose proof (line_end_left c f) as (Hl & _).
      destruct (line_end c f) as [str f']. eexists _, _, _. split; [reflexivity|]. by split.
    + eexists _, _, _. split; [reflexivity|]. by split.
Qed.

Lemma print_loop_matches cap size fuel : forall f args out, args_match false false f args = true -> (length f <= fuel)%nat ->
  exists out', print_loop sub fuel UNICODE_FLAGS cap size f args out = Ret out'.
Proof.
  induction fuel as [|fuel IH]; intros f args out H Hf; (destruct f as [|c f]; cbn [print_loop]; [by eexists|]); (destruct (cap <=? zlen out); [by eexists|]).
  { cbn in Hf. lia. }
  destruct (format_char_matches c f args H) as (cv & s & f' & -> & L & M). bind_step. apply IH; [done|cbn in Hf; lia].
Qed.
End Matching.

(** The sub-printer of [%r]. *)
Lemma status_number_prints v : exists t, BasePrintLibSPrintMarker 0 MAXIMUM_VALUE_CHARACTERS 0 (lit "%08X") [VaInt v] = Ret (Some t).
Proof.
  cbn [BasePrintLibSPrintMarker]. cbv zeta. change (has 0 OUTPUT_UNICODE) with false. change (has 0 FORMAT_UNICODE) with false. cbv iota.
  change (ASCII_RSIZE_MAX <? MAXIMUM_VALUE_CHARACTERS) with false. change (ASCII_RSIZE_MAX <? zlen (lit "%08X")) with false.
  change (MAXIMUM_VALUE_CHARACTERS =? 0) with false. cbv iota. change (length (lit "%08X")) with 4%nat. change (lit "%08X") with [37; 48; 56; 88].
  cbn [print_loop]. change (MAXIMUM_VALUE_CHARACTERS - 1 <=? zlen []) with false. cbv iota.
  unfold format_char. change (37 =? 37) with true. cbv iota zeta.
  change (parse_spec (S (length [48; 56; 88])) [48; 56; 88] (mk_spec 0 0 1 [VaInt v])) with (Ret (88, @nil Z, mk_spec (Z.lor (Z.lor 0 PREFIX_ZERO) PAD_TO_WIDTH) 8 1 [VaInt v])).
  bind_step. unfold convert. cbn [Z.eqb Pos.eqb orb]. unfold convert_number. cbn [rest_args next_int Flags]. bind_step. cbv zeta.
  match goal with |- context [if ?b then UB else _] => change b with false end. cbv iota.
  match goal with |- context [match ?p with (_, _) => _ end] => destruct p end. bind_step. cbn [print_loop]. eexists. reflexivity.
Qed.

(** A format whose arguments match is printed. *)
Lemma unicode_vsprint_matches BufferSize f args : args_match false false f args = true ->
  exists r, UnicodeVSPrint BufferSize f args = Ret r.
Proof.
  intros H. unfold UnicodeVSPrint. fold UNICODE_FLAGS. cbn [BasePrintLibSPrintMarker]. cbv zeta.
  repeat (match goal with |- context [if ?b then mret None else _] => destruct b; [by eexists|] end).
  match goal with |- context [print_loop ?sub _ _ _ _ _ _ _] => set (sb := sub) end.
  destruct (print_loop_matches sb) with (cap := Z.shiftr BufferSize 1 - 1) (size := if has UNICODE_FLAGS OUTPUT_UNICODE then 2 else 1)
    (fuel := length f) (f := f) (args := args) (out := @nil Z) as (out & E); [|done|done|].
  - intros v. subst sb. cbv beta. destruct (status_number_prints v) as (t & E). exists t.
    change ((r ← BasePrintLibSPrintMarker 0 MAXIMUM_VALUE_CHARACTERS 0 (lit "%08X") [VaInt v]; mret (default [] r)) = Ret t).
    rewrite E. reflexivity.
  - rewrite E. bind_step. by eexists.
Qed.

Lemma internal_print_matches alloc f args : args_match false false f args = true -> exists r, InternalPrint alloc f args = Ret r.
Proof.
  intros H. unfold InternalPrint. destruct (negb alloc); [by eexists|].
  destruct (unicode_vsprint_matches ((PcdUefiLibMaxPrintBufferSize + 1) * 2) f args H) as (r & ->). bind_step. by eexists.
Qed.

(** ** What the printers store *)

(** C17. What [UnicodeSPrint] prints: for a format made of characters, newlines, CR LF and
    the directives [%s], [%a], [%c], [%d], [%u], [%llx] and [%r], with matching
    arguments, the buffer holds the text of the pieces one after the other (strings
    as they are, numbers in decimal with their sign or in hexadecimal, the name of a
    status, a newline as CR LF), cut where the buffer ends. *)
Theorem unicode_sprint_text ps BufferSize :
  Forall piece_ok ps -> 2 <= BufferSize <= 2 * RSIZE_MAX -> zlen (concat (piece_format <$> ps)) <= RSIZE_MAX ->
  UnicodeSPrint BufferSize (concat (piece_format <$> ps)) (concat (piece_args <$> ps)) =
  Ret (Some (take (Z.to_nat (BufferSize / 2 - 1)) (concat (piece_text <$> ps)))).
Proof. apply unicode_vsprint_pieces. Qed.

Lemma unicode_sprint_text_witness :
  UnicodeSPrint 16 (lit "%a: %d") [VaStr8 (Some (lit "n")); VaInt (2 ^ 64 - 42)] = Ret (Some (lit "n: -42")).
Proof.
  apply (unicode_sprint_text [PAscii (lit "n"); PChar 58; PChar 32; PInt (- 42)] 16).
  - repeat constructor; unfold char16; lia.
  - unfold RSIZE_MAX. lia.
  - by vm_compute.
Defined.
