(* ===== verification/BootFlow.v ===== *)
(** * The boot flow (src/main.c)

    [UefiMain] from the configuration ([BootConfig.v]) to the jump: the autoboot
    countdown, the menu ([Menu.v]) with the entries of [UefiMain], loading and
    verifying kernel.efi, the boot parameters, leaving boot services and entering
    the kernel.  What the firmware, coreboot, the user and the loaders answer is
    the record [firmware]; the actions that matter (the kernel that is loaded,
    the menu and the boot function it starts, leaving boot services, entering
    the kernel, the reset) are the events of a trace.  Console output and
    the stores to memory are those of [MainProgram.v], which refines this flow. *)

From Stdlib Require Import String.
From S2P Require Import Prelude.
From S2P Require Import BootConfig.
From S2P Require Import Menu.
Import ListNotations.
#[local] Open Scope list_scope.


(** ** Boot parameters *)

Definition COREBOOT_BOOT_SIGNATURE : Z := 0x12345678.
Definition COREBOOT_BOOT_FLAG_KERNEL : Z := 1.
Definition COREBOOT_BOOT_FLAG_FRAMEBUFFER : Z := 2.
Definition COREBOOT_BOOT_FLAG_INITRD : Z := 4.

Record COREBOOT_BOOT_PARAMS := mk_params {
  bp_signature : Z; bp_version : Z; bp_kernel_base : Z; bp_kernel_size : Z; bp_boot_flags : Z;
  bp_framebuffer_addr : Z; bp_framebuffer_width : Z; bp_framebuffer_height : Z;
  bp_framebuffer_bpp : Z; bp_framebuffer_pitch : Z;
  bp_memory_size : Z; bp_initrd_addr : Z; bp_initrd_size : Z; bp_cmdline : bytes }.

(** [SetMem] to zero and the "basic boot parameters". *)
Definition basic_params (base size : Z) : COREBOOT_BOOT_PARAMS :=
  mk_params COREBOOT_BOOT_SIGNATURE 1 base size COREBOOT_BOOT_FLAG_KERNEL
            0 0 0 0 0 0 0 0 (zeros 256).

(** A framebuffer: coreboot's table entry. *)
Record COREBOOT_FB := mk_fb {
  physical_address : Z; x_resolution : Z; y_resolution : Z; bits_per_pixel : Z; bytes_per_line : Z }.

Definition set_framebuffer (p : COREBOOT_BOOT_PARAMS) (fb : COREBOOT_FB) : COREBOOT_BOOT_PARAMS :=
  mk_params (bp_signature p) (bp_version p) (bp_kernel_base p) (bp_kernel_size p)
    (bp_boot_flags p ||| COREBOOT_BOOT_FLAG_FRAMEBUFFER)
    (physical_address fb) (x_resolution fb) (y_resolution fb) (bits_per_pixel fb) (bytes_per_line fb)
    (bp_memory_size p) (bp_initrd_addr p) (bp_initrd_size p) (bp_cmdline p).

Definition set_memory (p : COREBOOT_BOOT_PARAMS) (n : Z) : COREBOOT_BOOT_PARAMS :=
  mk_params (bp_signature p) (bp_version p) (bp_kernel_base p) (bp_kernel_size p) (bp_boot_flags p)
    (bp_framebuffer_addr p) (bp_framebuffer_width p) (bp_framebuffer_height p)
    (bp_framebuffer_bpp p) (bp_framebuffer_pitch p) n (bp_initrd_addr p) (bp_initrd_size p)
    (bp_cmdline p).

Definition set_params_initrd (p : COREBOOT_BOOT_PARAMS) (a : Z) : COREBOOT_BOOT_PARAMS :=
  mk_params (bp_signature p) (bp_version p) (bp_kernel_base p) (bp_kernel_size p)
    (bp_boot_flags p ||| COREBOOT_BOOT_FLAG_INITRD)
    (bp_framebuffer_addr p) (bp_framebuffer_width p) (bp_framebuffer_height p)
    (bp_framebuffer_bpp p) (bp_framebuffer_pitch p) (bp_memory_size p) a (bp_initrd_size p)
    (bp_cmdline p).

Definition has_flag (flags f : Z) : bool := negb (flags &&& f =? 0).

Definition ValidateBootParameters (boot_params : option COREBOOT_BOOT_PARAMS) : bool :=
  match boot_params with
  | None => false
  | Some p =>
      if negb (bp_signature p =? COREBOOT_BOOT_SIGNATURE) then false
      else if negb (bp_version p =? 1) then false
      else if (bp_kernel_base p =? 0) || (bp_kernel_size p =? 0) then false
      else if negb (has_flag (bp_boot_flags p) COREBOOT_BOOT_FLAG_KERNEL) then false
      else if has_flag (bp_boot_flags p) COREBOOT_BOOT_FLAG_FRAMEBUFFER &&
              ((bp_framebuffer_addr p =? 0) || (bp_framebuffer_width p =? 0)
               || (bp_framebuffer_height p =? 0)) then false
      else if has_flag (bp_boot_flags p) COREBOOT_BOOT_FLAG_INITRD && (bp_initrd_addr p =? 0)
           then false
      else true
  end.

(** The structure at an address, which may be NULL. *)
Definition at_address (a : Z) (p : COREBOOT_BOOT_PARAMS) : option COREBOOT_BOOT_PARAMS :=
  if a =? 0 then None else Some p.

(** ** Firmware *)

(** A coreboot memory entry and a UEFI memory descriptor. *)
Record COREBOOT_MEM_ENTRY := mk_mem { mem_type : Z; mem_addr : Z; mem_size : Z }.
Definition CB_MEM_RAM : Z := 1.

Record EFI_MEMORY_DESCRIPTOR := mk_desc { d_Type : Z; d_PhysicalStart : Z; d_NumberOfPages : Z }.
Definition EfiLoaderCode : Z := 1.
Definition EfiLoaderData : Z := 2.
Definition EfiBootServicesCode : Z := 3.
Definition EfiBootServicesData : Z := 4.
Definition EfiConventionalMemory : Z := 7.

(** One [GetMemoryMap] exchange: the call without a buffer, the allocation, the
    second call; the descriptors ([MapSize / DescSize] of them), the size of a
    descriptor and the map key it leaves. *)
Record memory_map := mk_map {
  mm_probe : Z; mm_alloc : bool; mm_status : Z;
  mm_descs : list EFI_MEMORY_DESCRIPTOR; mm_desc_size : Z; mm_key : Z }.

(** The graphics output protocol's current mode. *)
Record gop_mode := mk_gop {
  FrameBufferBase : Z; HorizontalResolution : Z; VerticalResolution : Z;
  PixelFormat : Z; PixelsPerScanLine : Z }.
Definition PixelBlueGreenRedReserved8BitPerColor : Z := 1.

Record firmware := mk_fw {
  fw_loaded_image : Z;                        (* HandleProtocol(ImageHandle) *)
  fw_coreboot : bool;                         (* CorebootPlatformInit *)
  fw_root : Z + efi_dir;                      (* get_root_dir *)
  fw_line_alloc : nat -> bool;
  fw_vars : string -> efi_var;
  fw_key : nat -> bool;                       (* the n-th ReadKeyStroke has a key *)
  fw_linux_load_kernel : bytes -> option bytes -> bytes -> Z;
  fw_towlower : Z -> Z;
  fw_inputs : list input;                     (* what the menu's loop sees *)
  fw_boot : Z -> Z;                           (* status of a boot function *)
  fw_sha512 : bytes -> bytes;
  fw_buffer : Z;                              (* address of the kernel buffer *)
  fw_cb_mem_map : option (list COREBOOT_MEM_ENTRY);
  fw_cb_framebuffer : option COREBOOT_FB;
  fw_cb_total_memory : Z;
  fw_map_execute : memory_map;                (* GetMemoryMap in ExecuteKernelWithUefi *)
  fw_map_exit : memory_map;                   (* GetMemoryMap before ExitBootServices *)
  fw_exit : Z -> Z;                           (* ExitBootServices, by map key *)
  fw_gop : option gop_mode;
  fw_lingers : bool }.                        (* boot services still answer once they were left *)

Inductive event :=
| EvLinux (kernel : bytes) (initrd : option bytes) (cmdline : bytes)
| EvMenu
| EvBoot (f : Z)
| EvExitBootServices (key : Z)
| EvEnterKernel (address params_address : Z) (params : COREBOOT_BOOT_PARAMS)
| EvReset (coreboot : bool).

Section Flow.
Context (fw : firmware).

(** ** Loading kernel.efi *)

(** [g_known_hashes[0].expected_hash]: initialised to zero, never assigned. *)
Definition g_known_hash : bytes := zeros 64.

Definition verify_kernel_hash (expected data : bytes) : bool :=
  if negb (zget expected 0 =? 0)
  then bool_decide (fw_sha512 fw (take (Z.to_nat (u32 (zlen data))) data) = expected)
  else true.

(** The file once it is open. *)
Definition load_kernel_file (expected : bytes) (f : efi_file) : run (Z * option bytes) :=
  if f_info_probe f =? EFI_BUFFER_TOO_SMALL then
    if negb (f_info_alloc f) then mret (EFI_OUT_OF_RESOURCES, None)
    else if EFI_ERROR (f_info_status f) then mret (f_info_status f, None)
    else if negb (f_buf_alloc f) then mret (EFI_OUT_OF_RESOURCES, None)
    else if EFI_ERROR (f_read_status f) then mret (f_read_status f, None)
    else if f_size f <? zlen (f_data f) then UB
    else if verify_kernel_hash expected (f_data f) then mret (EFI_SUCCESS, Some (f_data f))
    else mret (EFI_SECURITY_VIOLATION, None)
  else if EFI_ERROR (f_info_probe f) then mret (f_info_probe f, None)
  else UB.

Definition LoadAndVerifyKernel (expected : bytes) (path : string) : run (Z * option bytes) :=
  match fw_root fw with
  | inl status => mret (status, None)
  | inr root =>
      match root path with
      | inl status => mret (status, None)
      | inr f => load_kernel_file expected f
      end
  end.

(** ** Entering the kernel *)

(** The two calls; the final status. *)
Definition GetMemoryMap_status (m : memory_map) : Z :=
  if mm_probe m =? EFI_BUFFER_TOO_SMALL then
    if mm_alloc m then mm_status m else EFI_OUT_OF_RESOURCES
  else mm_probe m.

(** [for (i = 0; i < MapSize / DescSize; i++)]: a zero [DescSize] is a division
    by zero. *)
Definition descriptors (m : memory_map) : run (list EFI_MEMORY_DESCRIPTOR) :=
  if mm_desc_size m =? 0 then UB else mret (mm_descs m).

Definition usable_memory (d : EFI_MEMORY_DESCRIPTOR) : bool :=
  (d_Type d =? EfiConventionalMemory) || (d_Type d =? EfiLoaderCode) || (d_Type d =? EfiLoaderData)
  || (d_Type d =? EfiBootServicesCode) || (d_Type d =? EfiBootServicesData).

Definition total_memory (ds : list EFI_MEMORY_DESCRIPTOR) : Z :=
  fold_left (fun n d => if usable_memory d then u64 (n + u64 (d_NumberOfPages d * 4096)) else n) ds 0.

(** The framebuffer fields taken from the graphics protocol. *)
Definition gop_framebuffer (g : gop_mode) : COREBOOT_FB :=
  let bpp := if PixelFormat g =? PixelBlueGreenRedReserved8BitPerColor then 32 else 24 in
  mk_fb (FrameBufferBase g) (HorizontalResolution g) (VerticalResolution g) bpp
        (u32 (PixelsPerScanLine g * (bpp / 8))).

Definition add_framebuffer (p : COREBOOT_BOOT_PARAMS) (fb : option COREBOOT_FB)
  : COREBOOT_BOOT_PARAMS := match fb with Some fb => set_framebuffer p fb | None => p end.

(** Every path after [ExitBootServices] calls [Print], and some of them
    [LocateProtocol] and [FreePool]: boot services that are no longer there, so that
    these calls return only on firmware whose services linger. *)
Definition ExitBootServicesAndExecuteKernel (KernelBuffer KernelSize BootParamsAddr : Z)
  : run (Z * list event) :=
  let m := fw_map_exit fw in
  let status := GetMemoryMap_status m in
  if EFI_ERROR status then mret (status, [])
  else
    let status := fw_exit fw (mm_key m) in
    if EFI_ERROR status then mret (status, [])
    else
      let left := EvExitBootServices (mm_key m) in
      if negb (fw_lingers fw) then UB else
      let p := basic_params KernelBuffer KernelSize in
      let p := if fw_coreboot fw then add_framebuffer p (fw_cb_framebuffer fw)
               else add_framebuffer p (gop_framebuffer <$> fw_gop fw) in
      total ← (if fw_coreboot fw then mret (fw_cb_total_memory fw)
               else ds ← descriptors m; mret (total_memory ds));
      let p := set_memory p total in
      if negb (ValidateBootParameters (at_address BootParamsAddr p)) then mret (EFI_INVALID_PARAMETER, [left])
      else mret (EFI_LOAD_ERROR, [left; EvEnterKernel KernelBuffer BootParamsAddr p]).

(** The largest RAM region: its base and size. *)
Definition largest_ram (map : list COREBOOT_MEM_ENTRY) : Z * Z :=
  fold_left (fun best e => if (mem_type e =? CB_MEM_RAM) && (snd best <? mem_size e)
                           then (mem_addr e, mem_size e) else best) map (0, 0).

Definition ExecuteKernelWithCoreboot (KernelBuffer KernelSize : Z) (InitrdBuffer : option Z)
  : run (Z * list event) :=
  match fw_cb_mem_map fw with
  | None | Some [] => mret (EFI_DEVICE_ERROR, [])
  | Some map =>
      let kernel_base := fst (largest_ram map) in
      if kernel_base =? 0 then mret (EFI_DEVICE_ERROR, [])
      else
        let p := basic_params kernel_base KernelSize in
        let p := add_framebuffer p (fw_cb_framebuffer fw) in
        let p := set_memory p (fw_cb_total_memory fw) in
        let p := match InitrdBuffer with Some a => set_params_initrd p a | None => p end in
        let boot_params_addr := u64 (kernel_base + 0x1000) in
        if negb (ValidateBootParameters (at_address boot_params_addr p)) then mret (EFI_INVALID_PARAMETER, [])
        else ExitBootServicesAndExecuteKernel KernelBuffer KernelSize boot_params_addr
  end.

(** The first conventional region above 1 MB that the kernel fits in. *)
Definition find_kernel_base (ds : list EFI_MEMORY_DESCRIPTOR) (KernelSize : Z) : Z :=
  match List.find (fun d => (d_Type d =? EfiConventionalMemory) && (0x100000 <=? d_PhysicalStart d)
                    && (KernelSize <=? u64 (d_NumberOfPages d * 4096))) ds with
  | Some d => d_PhysicalStart d
  | None => 0x100000
  end.

Definition ExecuteKernelWithUefi (KernelBuffer KernelSize : Z) : run (Z * list event) :=
  let m := fw_map_execute fw in
  let status := GetMemoryMap_status m in
  if EFI_ERROR status then mret (status, [])
  else
    ds ← descriptors m;
    ExitBootServicesAndExecuteKernel KernelBuffer KernelSize
      (u64 (find_kernel_base ds KernelSize + 0x1000)).

Definition ExecuteKernel (KernelBuffer KernelSize : Z) (InitrdBuffer : option Z)
  : run (Z * list event) :=
  if fw_coreboot fw then ExecuteKernelWithCoreboot KernelBuffer KernelSize InitrdBuffer
  else ExecuteKernelWithUefi KernelBuffer KernelSize.

(** ** The main entry point *)

(** Ten polls of the keyboard within one second, from the [n]-th on: whether one
    of them finds a key. *)
Definition poll_second (n : nat) : bool :=
  existsb (fun i => fw_key fw (n + i)%nat) (List.seq 0 10).

(** [while (secs > 0)]: whether the menu is to be shown. *)
Fixpoint countdown (secs : nat) (n : nat) : bool :=
  match secs with
  | O => true
  | S secs' =>
      if poll_second n then true
      else match secs' with O => false | S _ => countdown secs' (n + 10)%nat end
  end.

Definition showMenu (c : BOOT_CONFIG) : bool :=
  if 0 <? menu_timeout c then countdown (Z.to_nat (menu_timeout c)) 0 else true.

(** The arguments of [linux_load_kernel] in the autoboot branch. *)
Definition autoboot_args (c : BOOT_CONFIG) : bytes * option bytes * bytes :=
  (kernel c, (if decide (initrd c = []) then None else Some (initrd c)), cmdline c).

(** The entries [UefiMain] adds, with a number for each boot function. *)
Definition main_entries : list (string * Z) :=
  [("BloodChain Boot Protocol", 0); ("Linux Kernel", 1); ("Multiboot2 Kernel", 2); ("Limine Kernel", 3);
   ("Chainload Bootloader", 4); ("PXE Network Boot", 5); ("IA-32 (32-bit x86)", 6);
   ("x86-64 (64-bit x86)", 7); ("ARM64 (aarch64)", 8); ("RISC-V 64", 9); ("LoongArch 64", 10);
   ("Recovery Shell", 11); ("UEFI Shell", 12); ("Exit to UEFI Firmware", 13)]%string.

Definition main_menu : menu :=
  fold_left (fun m e => snd (AddBootEntry m (lit (fst e)) (Some (snd e)))) main_entries initial_menu.

(** The menu, and its status; while no input ends it, it waits. *)
Definition run_menu : run (Z * list event) :=
  r ← ShowBootMenu (fw_towlower fw) main_menu (fw_inputs fw);
  match snd r with
  | Some (Boot f) => mret (fw_boot fw f, [EvMenu; EvBoot f])
  | Some (Return status) => mret (status, [EvMenu])
  | None => OutOfFuel
  end.

(** The menu and what follows it: a status of [EFI_SUCCESS] loads kernel.efi. *)
Definition after_autoboot (showMenu : bool) : run (Z * list event) :=
  m ← (if showMenu then run_menu else mret (EFI_NOT_READY, []));
  let '(status, menu) := m in
  r ← (if status =? EFI_SUCCESS then
         k ← LoadAndVerifyKernel g_known_hash "kernel.efi"%string;
         match k with
         | (st, Some data) =>
             if EFI_ERROR st then mret (st, []) else ExecuteKernel (fw_buffer fw) (zlen data) None
         | (st, None) => mret (st, [])
         end
       else mret (status, []));
  if (status =? EFI_SUCCESS) && negb (EFI_ERROR (fst r)) then mret (EFI_SUCCESS, menu ++ snd r)
  else mret (EFI_DEVICE_ERROR, menu ++ snd r ++ [EvReset (fw_coreboot fw)]).

Definition UefiMain : run (Z * list event) :=
  if EFI_ERROR (fw_loaded_image fw) then mret (fw_loaded_image fw, [])
  else
    cfg ← LoadBootConfig (fw_root fw) (fw_line_alloc fw) (fw_vars fw);
    let c := snd cfg in
    if showMenu c then after_autoboot true
    else if bool_decide (default_entry c = lit "linux") && negb (bool_decide (kernel c = [])) then
      let '(k, i, a) := autoboot_args c in
      if EFI_ERROR (fw_linux_load_kernel fw k i a) then
        r ← after_autoboot true; mret (fst r, EvLinux k i a :: snd r)
      else mret (EFI_SUCCESS, [EvLinux k i a])
    else after_autoboot true.

End Flow.

(** ** Lemmas *)

Section FlowLemmas.
Context (fw : firmware).

(** No key in the [10 * secs] polls from the [n]-th on. *)
Definition quiet (secs n : nat) : Prop := forall i, (i < 10 * secs)%nat -> fw_key fw (n + i) = false.

Lemma poll_second_quiet n : poll_second fw n = false <-> quiet 1 n.
Proof.
  unfold poll_second, quiet. rewrite <- not_true_iff_false, existsb_exists. split.
  - intros H i Hi. apply not_true_iff_false. intros Hk. apply H. exists i. split; [|done].
    apply in_seq. lia.
  - intros H (i & Hi & Hk). apply in_seq in Hi. rewrite H in Hk by lia. done.
Qed.

Lemma quiet_succ secs n : quiet (S secs) n <-> quiet 1 n /\ quiet secs (n + 10).
Proof.
  unfold quiet. split; [intros H; split; intros i Hi|intros [H1 H2] i Hi].
  - apply H. lia.
  - rewrite <- Nat.add_assoc. apply H. lia.
  - destruct (decide (i < 10)%nat); [apply H1; lia|].
    replace (n + i)%nat with (n + 10 + (i - 10))%nat by lia. apply H2. lia.
Qed.

Lemma countdown_quiet secs : forall n, countdown fw (S secs) n = false <-> quiet (S secs) n.
Proof.
  induction secs as [|secs IH]; intros n.
  - cbn [countdown]. rewrite <- poll_second_quiet. by destruct (poll_second fw n).
  - rewrite quiet_succ, <- IH, <- poll_second_quiet.
    change (countdown fw (S (S secs)) n) with
      (if poll_second fw n then true else countdown fw (S secs) (n + 10)).
    destruct (poll_second fw n); [|tauto]. split; [done|by intros [? _]].
Qed.

Lemma showMenu_quiet c :
  showMenu fw c = false <-> 0 < menu_timeout c /\ quiet (Z.to_nat (menu_timeout c)) 0.
Proof.
  unfold showMenu. destruct (Z.ltb_spec 0 (menu_timeout c)) as [Ht|Ht]; [|split; [done|lia]].
  destruct (Z.to_nat (menu_timeout c)) as [|secs] eqn:E; [lia|]. rewrite countdown_quiet. tauto.
Qed.

(** Boot parameters a kernel may be entered with. *)
Definition good_params (p : COREBOOT_BOOT_PARAMS) (base size : Z) : Prop :=
  bp_signature p = COREBOOT_BOOT_SIGNATURE /\ bp_version p = 1 /\
  bp_kernel_base p = base /\ base <> 0 /\ bp_kernel_size p = size /\ size <> 0 /\
  has_flag (bp_boot_flags p) COREBOOT_BOOT_FLAG_KERNEL = true /\
  (has_flag (bp_boot_flags p) COREBOOT_BOOT_FLAG_FRAMEBUFFER = true ->
   bp_framebuffer_addr p <> 0 /\ bp_framebuffer_width p <> 0 /\ bp_framebuffer_height p <> 0) /\
  has_flag (bp_boot_flags p) COREBOOT_BOOT_FLAG_INITRD = false /\ bp_initrd_addr p = 0.

Lemma validate_params p :
  ValidateBootParameters (Some p) = true ->
  bp_signature p = COREBOOT_BOOT_SIGNATURE /\ bp_version p = 1 /\
  bp_kernel_base p <> 0 /\ bp_kernel_size p <> 0 /\
  has_flag (bp_boot_flags p) COREBOOT_BOOT_FLAG_KERNEL = true /\
  (has_flag (bp_boot_flags p) COREBOOT_BOOT_FLAG_FRAMEBUFFER = true ->
   bp_framebuffer_addr p <> 0 /\ bp_framebuffer_width p <> 0 /\ bp_framebuffer_height p <> 0).
Proof.
  cbn [ValidateBootParameters]. repeat (case_match; [done|]). intros _. bool_hyps.
  repeat match goal with
  | H : negb _ = false |- _ => apply negb_false_iff in H
  | H : _ && _ = false |- _ => apply andb_false_iff in H
  end.
  split_and!; try lia; try done. intros Hf. lazymatch goal with
  | H : has_flag _ COREBOOT_BOOT_FLAG_FRAMEBUFFER = false \/ _ |- _ => destruct H as [H|H] end;
    [congruence|]. bool_hyps. lia.
Qed.

(** What an execution attempt does: nothing, or boot services are left with the
    key of the last memory map and then possibly the kernel is entered. *)
Definition executed (base size : Z) (es : list event) : Prop :=
  let key := mm_key (fw_map_exit fw) in
  es = [] \/
  EFI_ERROR (GetMemoryMap_status (fw_map_exit fw)) = false /\ EFI_ERROR (fw_exit fw key) = false /\
  (es = [EvExitBootServices key] \/
   exists pa p, es = [EvExitBootServices key; EvEnterKernel base pa p] /\ good_params p base size).

(** An attempt that comes back always comes back with an error. *)
Definition attempt (base size : Z) (r : Z * list event) : Prop :=
  EFI_ERROR (fst r) = true /\ executed base size (snd r).

(** The memory maps have descriptors of a positive size. *)
Definition maps_ok : Prop :=
  mm_desc_size (fw_map_execute fw) <> 0 /\ mm_desc_size (fw_map_exit fw) <> 0.

Lemma add_framebuffer_fields p fb :
  bp_kernel_base (add_framebuffer p fb) = bp_kernel_base p /\
  bp_kernel_size (add_framebuffer p fb) = bp_kernel_size p /\
  bp_initrd_addr (add_framebuffer p fb) = bp_initrd_addr p /\
  Z.testbit (bp_boot_flags (add_framebuffer p fb)) 2 = Z.testbit (bp_boot_flags p) 2.
Proof.
  destruct fb; [|done]. unfold add_framebuffer, set_framebuffer.
  cbn [bp_kernel_base bp_kernel_size bp_initrd_addr bp_boot_flags]. split_and!; try done.
  rewrite Z.lor_spec.
  change (Z.testbit COREBOOT_BOOT_FLAG_FRAMEBUFFER 2) with false. by rewrite orb_false_r.
Qed.

Lemma no_initrd_flag flags : Z.testbit flags 2 = false -> has_flag flags COREBOOT_BOOT_FLAG_INITRD = false.
Proof.
  intros H. unfold has_flag. replace (flags &&& COREBOOT_BOOT_FLAG_INITRD) with 0; [done|].
  symmetry. apply Z.bits_inj'. intros i Hi. rewrite Z.land_spec, Z.bits_0.
  change COREBOOT_BOOT_FLAG_INITRD with (2 ^ 2). destruct (Z.eq_dec i 2) as [->|Hne].
  - by rewrite H.
  - rewrite Z.pow2_bits_false by lia. apply andb_false_r.
Qed.

Lemma exit_and_execute base size pa :
  maps_ok -> fw_lingers fw = true -> exists r, ExitBootServicesAndExecuteKernel fw base size pa = Ret r /\ attempt base size r.
Proof.
  intros [_ Hd] Hl. unfold ExitBootServicesAndExecuteKernel. cbv zeta. rewrite Hl. cbn [negb].
  destruct (EFI_ERROR (GetMemoryMap_status (fw_map_exit fw))) eqn:E1.
  { eexists; split; [reflexivity|]. split; [done|by left]. }
  destruct (EFI_ERROR (fw_exit fw (mm_key (fw_map_exit fw)))) eqn:E2.
  { eexists; split; [reflexivity|]. split; [done|by left]. }
  set (p0 := if fw_coreboot fw then _ else _).
  assert (exists fb, p0 = add_framebuffer (basic_params base size) fb) as [fb ->].
  { subst p0. destruct (fw_coreboot fw); eauto. }
  set (total := if fw_coreboot fw then _ else _).
  assert (exists n, total = Ret n) as [n ->].
  { subst total. destruct (fw_coreboot fw); [rewrite run_mret; eauto|]. unfold descriptors.
    destruct (Z.eqb_spec (mm_desc_size (fw_map_exit fw)) 0); [done|]. bind_step. eauto. }
  bind_step.
  destruct (ValidateBootParameters _) eqn:Ev; cbn [negb];
    (eexists; split; [reflexivity|]); (split; [done|]); right; (split_and!; [done..|]);
    [right|by left].
  unfold at_address in Ev. destruct (pa =? 0); [done|].
  eexists _, _. split; [reflexivity|].
  destruct (add_framebuffer_fields (basic_params base size) fb) as (F1 & F2 & F3 & F4).
  apply validate_params in Ev as (V1 & V2 & V3 & V4 & V5 & V6).
  cbn [set_memory bp_kernel_base bp_kernel_size] in V3, V4. rewrite F1 in V3. rewrite F2 in V4.
  unfold good_params. split_and!; try done.
  apply no_initrd_flag. exact F4.
Qed.

Lemma execute_kernel base size initrd :
  maps_ok -> fw_lingers fw = true -> exists r, ExecuteKernel fw base size initrd = Ret r /\ attempt base size r.
Proof.
  intros Hm Hl. unfold ExecuteKernel. destruct (fw_coreboot fw).
  - unfold ExecuteKernelWithCoreboot.
    destruct (fw_cb_mem_map fw) as [[|e l]|]; [by eexists; repeat (split; [reflexivity|]); left| |
      by eexists; repeat (split; [reflexivity|]); left].
    destruct (fst (largest_ram (e :: l)) =? 0); [by eexists; repeat (split; [reflexivity|]); left|].
    cbv zeta. destruct (ValidateBootParameters _); cbn [negb];
      [by apply exit_and_execute|by eexists; repeat (split; [reflexivity|]); left].
  - unfold ExecuteKernelWithUefi. cbv zeta.
    destruct (EFI_ERROR _) eqn:E; [eexists; split; [reflexivity|]; split; [done|by left]|].
    destruct Hm as [H1 H2]. unfold descriptors. rewrite (proj2 (Z.eqb_neq _ _) H1). bind_step.
    by apply exit_and_execute.
Qed.

(** A failed open has an error status; kernel.efi, when it can be opened,
    respects the file protocol. *)
Definition kernel_file_ok : Prop :=
  match fw_root fw with
  | inl st => EFI_ERROR st = true
  | inr dir =>
      file_ok (dir "kernel.efi"%string) /\
      (forall st, dir "kernel.efi"%string = inl st -> EFI_ERROR st = true)
  end.

(** The contents of kernel.efi. *)
Definition kernel_image (data : bytes) : Prop :=
  exists dir f, fw_root fw = inr dir /\ dir "kernel.efi"%string = inr f /\ f_data f = data.

Lemma load_kernel expected : kernel_file_ok ->
  exists r, LoadAndVerifyKernel fw expected "kernel.efi" = Ret r /\
    match snd r with Some data => fst r = EFI_SUCCESS /\ kernel_image data
    | None => EFI_ERROR (fst r) = true end.
Proof.
  unfold kernel_file_ok, LoadAndVerifyKernel, load_kernel_file, kernel_image.
  destruct (fw_root fw) as [st|dir]; [by eexists|]. intros [Hf Ho]. revert Hf Ho.
  destruct (dir "kernel.efi"%string) as [st|f] eqn:Ef.
  { intros _ Ho. eexists; split; [reflexivity|]. by apply Ho. }
  intros [Hp Hs] _. destruct (Z.ltb_spec (f_size f) (zlen (f_data f))); [lia|].
  repeat (match goal with |- context [if ?b then _ else _] => destruct b eqn:? end;
    try done; try (by eexists)).
  eexists; split; [reflexivity|]. cbn [fst snd]. split; [done|]. by exists dir, f.
Qed.

(** The input ends the menu. *)
Definition menu_ends : Prop :=
  exists m o, ShowBootMenu (fw_towlower fw) main_menu (fw_inputs fw) = Ret (m, Some o).

(** The menu's events: it is shown, and possibly starts the boot function of one
    of the entries [UefiMain] added. *)
Definition menu_events (ms : list event) : Prop :=
  ms = [EvMenu] \/ exists f, In f (List.map snd main_entries) /\ ms = [EvMenu; EvBoot f].

Lemma main_menu_built : built main_menu.
Proof. unfold main_menu, main_entries. cbn [fold_left fst snd]. repeat apply built_add. apply built_init. Qed.

Lemma main_menu_functions e f :
  e ∈ BootEntries main_menu -> BootFunction e = Some f -> In f (List.map snd main_entries).
Proof.
  intros He Hf. assert (H : In f (omap BootFunction (BootEntries main_menu))).
  { apply list_elem_of_In, list_elem_of_omap. by exists e. }
  exact H.
Qed.

Lemma start_main_menu : BootEntries (start_menu (fw_towlower fw) main_menu) = BootEntries main_menu.
Proof. reflexivity. Qed.

(** The menu boots entries of [UefiMain] only. *)
Lemma menu_boots_entry m f : ShowBootMenu (fw_towlower fw) main_menu (fw_inputs fw) = Ret (m, Some (Boot f)) ->
  In f (List.map snd main_entries).
Proof.
  intros E. destruct (show_menu_ok (fw_towlower fw) main_menu (fw_inputs fw) main_menu_built) as (r & E' & Hr).
  rewrite E in E'. injection E' as <-. destruct Hr as (_ & Hes & _ & Ho). cbn [fst snd] in *.
  destruct Ho as [(e & Hl & Hf)|]; [|done]. destruct (BootFunction e) as [f'|] eqn:Ef; [|done].
  injection Hf as ->. rewrite Hes, start_main_menu in Hl.
  apply (main_menu_functions e); [|done]. by eapply list_elem_of_lookup_2.
Qed.

Lemma run_menu_ok : menu_ends -> exists st ms, run_menu fw = Ret (st, ms) /\ menu_events ms.
Proof.
  intros (m & o & E). unfold run_menu. rewrite E. bind_step. cbn [fst snd].
  destruct o as [f|st]; (eexists _, _; split; [reflexivity|]); [right|by left].
  exists f. split; [|done]. by apply (menu_boots_entry m).
Qed.

(** The menu path: the menu, possibly an execution of kernel.efi, the reset. *)
Lemma after_menu :
  kernel_file_ok -> maps_ok -> fw_lingers fw = true -> menu_ends ->
  exists ms es, after_autoboot fw true =
      Ret (EFI_DEVICE_ERROR, ms ++ es ++ [EvReset (fw_coreboot fw)]) /\ menu_events ms /\
    (es = [] \/ exists data, kernel_image data /\ executed (fw_buffer fw) (zlen data) es).
Proof.
  intros Hk Hm Hl He. unfold after_autoboot. destruct (run_menu_ok He) as (status & ms & -> & Hms). bind_step.
  exists ms. destruct (Z.eqb_spec status EFI_SUCCESS) as [E|E].
  2:{ bind_step. cbn [andb]. exists []. split_and!; [reflexivity|done|by left]. }
  destruct (load_kernel g_known_hash Hk) as ([st [data|]] & -> & Hr); cbn [fst snd] in Hr; bind_step.
  - destruct Hr as [-> Hi]. destruct (execute_kernel (fw_buffer fw) (zlen data) None Hm Hl) as (r & Hx & Her & Ha).
    change (EFI_ERROR EFI_SUCCESS) with false. cbv iota. rewrite Hx. bind_step. rewrite Her.
    exists (snd r). split_and!; [reflexivity|done|]. right. by exists data.
  - cbn [fst snd]. rewrite Hr. exists []. split_and!; [reflexivity|done|by left].
Qed.

(** Every kernel entry of a trace is justified. *)
Definition entries_safe (tr : list event) : Prop :=
  forall a pa p, In (EvEnterKernel a pa p) tr ->
    a = fw_buffer fw /\ (exists data, kernel_image data /\ good_params p a (zlen data)) /\
    let key := mm_key (fw_map_exit fw) in
    EFI_ERROR (fw_exit fw key) = false /\
    exists before after, tr = before ++ EvExitBootServices key :: EvEnterKernel a pa p :: after.

Lemma menu_trace_safe pre es :
  (forall a pa p, ~ In (EvEnterKernel a pa p) pre) ->
  (es = [] \/ exists data, kernel_image data /\ executed (fw_buffer fw) (zlen data) es) ->
  entries_safe (pre ++ es ++ [EvReset (fw_coreboot fw)]).
Proof.
  intros Hpre Hes a pa p Hin. apply in_app_or in Hin as [Hin|Hin]; [by apply Hpre in Hin|].
  apply in_app_or in Hin as [Hin|[Hin|[]]]; [|done].
  destruct Hes as [->|(data & Hi & [->|(_ & He & [->|(pa' & p' & -> & Hg)])])];
    [done|done|by destruct Hin as [Hin|[]]|].
  destruct Hin as [Hin|[Hin|[]]]; [done|]. injection Hin as <- <- <-.
  split_and!; [done|by exists data|]. split; [done|]. by exists pre, [EvReset (fw_coreboot fw)].
Qed.

(** Every boot function that was started belongs to an entry of [UefiMain]. *)
Definition boots_known (tr : list event) : Prop :=
  forall f, In (EvBoot f) tr -> In f (List.map snd main_entries).

Lemma menu_trace_boots pre ms es :
  (forall f, ~ In (EvBoot f) pre) -> menu_events ms ->
  (es = [] \/ exists data, kernel_image data /\ executed (fw_buffer fw) (zlen data) es) ->
  boots_known (pre ++ ms ++ es ++ [EvReset (fw_coreboot fw)]).
Proof.
  intros Hpre Hms Hes f Hin. apply in_app_or in Hin as [Hin|Hin]; [by apply Hpre in Hin|].
  apply in_app_or in Hin as [Hin|Hin].
  { destruct Hms as [->|(f' & Hf & ->)]; [by destruct Hin as [|[]]|].
    destruct Hin as [|[[= <-]|[]]]; done. }
  apply in_app_or in Hin as [Hin|[Hin|[]]]; [|done]. exfalso.
  destruct Hes as [->|(data & _ & [->|(_ & _ & [->|(pa & p & -> & _)])])]; [done|done| |];
    repeat destruct Hin as [Hin|Hin]; done.
Qed.

(** No loader runs once boot services were left. *)
Definition is_loader (e : event) : Prop :=
  match e with EvLinux _ _ _ | EvMenu | EvBoot _ => True | _ => False end.
Definition loaders_first (tr : list event) : Prop :=
  forall before key after e, tr = before ++ EvExitBootServices key :: after -> In e after -> ~ is_loader e.

Lemma exit_after_pre pre l before key after :
  (forall k, ~ In (EvExitBootServices k) pre) -> pre ++ l = before ++ EvExitBootServices key :: after ->
  exists before', l = before' ++ EvExitBootServices key :: after.
Proof.
  revert before. induction pre as [|e pre IH]; intros before Hpre E; [by exists before|].
  destruct before as [|e' before]; injection E as -> E.
  - exfalso. apply (Hpre key). by left.
  - apply (IH before); [|exact E]. intros k Hk. apply (Hpre k). by right.
Qed.

Lemma menu_trace_loaders pre es :
  (forall k, ~ In (EvExitBootServices k) pre) ->
  (es = [] \/ exists data, kernel_image data /\ executed (fw_buffer fw) (zlen data) es) ->
  loaders_first (pre ++ es ++ [EvReset (fw_coreboot fw)]).
Proof.
  intros Hpre Hes before key after e E Hin. apply exit_after_pre in E as (b & E); [|done].
  assert (Ha : forall x, In x after -> ~ is_loader x); [|by apply Ha].
  clear e Hin. intros x Hx.
  destruct Hes as [->|(data & _ & [->|(_ & _ & [->|(pa & p & -> & _)])])]; cbn [app] in E;
    repeat (destruct b as [|? b]; cbn [app] in E; try discriminate E; injection E as ? E; subst; try discriminate);
    repeat (destruct Hx as [<-|Hx]; [by intros []|]); try done; try (by destruct b).
Qed.

Lemma menu_events_no_exit ms k : menu_events ms -> ~ In (EvExitBootServices k) ms.
Proof. intros [->|(f & _ & ->)] Hin; repeat destruct Hin as [Hin|Hin]; done. Qed.

Lemma menu_events_no_entry ms a pa p : menu_events ms -> ~ In (EvEnterKernel a pa p) ms.
Proof. intros [->|(f & _ & ->)] Hin; repeat destruct Hin as [Hin|Hin]; done. Qed.
End FlowLemmas.

(** ** Properties *)


(** A machine with a kernel.efi of three bytes and no configuration file, on
    whose menu Down, Down and Enter are typed and whose boot functions succeed. *)
Definition sample_root : efi_dir := fun path =>
  if String.eqb path "kernel.efi" then inr (sample_file [77; 90; 144]) else inl EFI_NOT_FOUND.
Definition sample_map : memory_map :=
  mk_map EFI_BUFFER_TOO_SMALL true EFI_SUCCESS
    [mk_desc EfiConventionalMemory 0x100000 512; mk_desc EfiLoaderData 0x400000 2] 48 7.
Definition sample_fw (key : bool) : firmware :=
  mk_fw EFI_SUCCESS false (inr sample_root) (fun _ => true) sample_vars (fun _ => key)
    (fun _ _ _ => EFI_NOT_FOUND) ascii_lower [arrow SCAN_DOWN; arrow SCAN_DOWN; enter]
    (fun _ => EFI_SUCCESS) (fun _ => []) 0x500000 None None 0
    sample_map sample_map (fun _ => EFI_SUCCESS) (Some (mk_gop 0xE0000000 1024 768 1 1024)) true.


(** The sample machine does enter its kernel, so the property is about something. *)
Example sample_enters_kernel :
  match UefiMain (sample_fw true) with
  | Ret (st, [EvMenu; EvBoot 2; EvExitBootServices 7; EvEnterKernel a _ p; EvReset false]) =>
      st = EFI_DEVICE_ERROR /\ a = 0x500000 /\ bp_kernel_size p = 3 /\
      bp_memory_size p = 514 * 4096 /\ bp_framebuffer_pitch p = 4096
  | _ => False
  end.
Proof. vm_compute. by split_and!. Qed.



(** Kernel verification: with a configured hash (first byte not 0)
    [LoadAndVerifyKernel] accepts a readable kernel.efi exactly when the SHA-512
    of its first [size mod 2^32] bytes is that hash, and rejects it with
    [EFI_SECURITY_VIOLATION] otherwise; but the hash the program is built with
    is all zero and never assigned, so that in fact every readable kernel.efi is
    accepted. *)
Theorem kernel_hash_gate fw dir f expected :
  fw_root fw = inr dir -> dir "kernel.efi"%string = inr f ->
  f_info_probe f = EFI_BUFFER_TOO_SMALL -> f_info_alloc f = true ->
  EFI_ERROR (f_info_status f) = false -> f_buf_alloc f = true ->
  EFI_ERROR (f_read_status f) = false -> zlen (f_data f) <= f_size f ->
  zget expected 0 <> 0 ->
  let digest := fw_sha512 fw (take (Z.to_nat (u32 (zlen (f_data f)))) (f_data f)) in
  LoadAndVerifyKernel fw expected "kernel.efi" =
    Ret (if decide (digest = expected) then (EFI_SUCCESS, Some (f_data f))
         else (EFI_SECURITY_VIOLATION, None)) /\
  LoadAndVerifyKernel fw g_known_hash "kernel.efi" = Ret (EFI_SUCCESS, Some (f_data f)).
Proof.
  intros Hr Hf Hp Hia His Hba Hrs Hz He digest. unfold LoadAndVerifyKernel, load_kernel_file, verify_kernel_hash.
  rewrite Hr, Hf, Hp, Hia, His, Hba, Hrs, Z.eqb_refl. cbn [negb].
  destruct (Z.ltb_spec (f_size f) (zlen (f_data f))); [lia|].
  destruct (Z.eqb_spec (zget expected 0) 0); [done|]. cbn [negb].
  change (zget g_known_hash 0 =? 0) with true. cbn [negb]. fold digest.
  by destruct (decide (digest = expected)); [rewrite bool_decide_true|rewrite bool_decide_false].
Qed.

Lemma kernel_hash_gate_witness :
  LoadAndVerifyKernel (sample_fw true) [1] "kernel.efi" = Ret (EFI_SECURITY_VIOLATION, None) /\
  LoadAndVerifyKernel (sample_fw true) g_known_hash "kernel.efi" = Ret (EFI_SUCCESS, Some [77; 90; 144]).
Proof.
  apply (kernel_hash_gate (sample_fw true) sample_root (sample_file [77; 90; 144]) [1]);
    first [reflexivity | by vm_compute].
Defined.

