(* ===== verification/BootParams.v ===== *)
(** * The boot parameters in memory (src/main.c)

    [COREBOOT_BOOT_PARAMS] as the 336 bytes the kernel is given: the writes of
    [ExecuteKernelWithCoreboot] and [ExitBootServicesAndExecuteKernel] in their
    order, on the memory of [PhysMem.v] with EDK2's [SetMem] ([EdkMem.v]), and the
    reads of [ValidateBootParameters].  [params_at] relates the bytes to the record
    the boot flow ([BootFlow.v]) computes with. *)

From S2P Require Import Prelude.
From S2P Require Import PhysMem.
From S2P Require Import EdkMem.
From S2P Require Import BootConfig.
From S2P Require Import BootFlow.
Import ListNotations.
#[local] Open Scope list_scope.

(** ** The structure *)

(** Offsets of the fields, with the padding before [framebuffer_addr]. *)
Definition o_signature : Z := 0.
Definition o_params_version : Z := 4.
Definition o_kernel_base : Z := 8.
Definition o_kernel_size : Z := 16.
Definition o_boot_flags : Z := 24.
Definition o_framebuffer_addr : Z := 32.
Definition o_framebuffer_width : Z := 40.
Definition o_framebuffer_height : Z := 44.
Definition o_framebuffer_bpp : Z := 48.
Definition o_framebuffer_pitch : Z := 52.
Definition o_memory_size : Z := 56.
Definition o_initrd_addr : Z := 64.
Definition o_initrd_size : Z := 72.
Definition o_cmdline : Z := 80.
Definition sizeof_params : Z := 336.

(** ** Writing *)

(** [SetMem(boot_params, sizeof(COREBOOT_BOOT_PARAMS), 0)] and the basic parameters. *)
Definition put_basic (m : phys) (boot_params kernel_base kernel_size : Z) : run phys :=
  m ← SetMem m boot_params sizeof_params 0;
  let m := poke_le m (boot_params + o_signature) 4 COREBOOT_BOOT_SIGNATURE in
  let m := poke_le m (boot_params + o_params_version) 4 1 in
  let m := poke_le m (boot_params + o_kernel_base) 8 kernel_base in
  let m := poke_le m (boot_params + o_kernel_size) 8 kernel_size in
  mret (poke_le m (boot_params + o_boot_flags) 4 COREBOOT_BOOT_FLAG_KERNEL).

(** [boot_params->boot_flags |= flag] *)
Definition or_flag (m : phys) (boot_params flag : Z) : phys :=
  poke_le m (boot_params + o_boot_flags) 4 (fetch_le m (boot_params + o_boot_flags) 4 ||| flag).

Definition put_framebuffer (m : phys) (boot_params : Z) (fb : COREBOOT_FB) : phys :=
  let m := poke_le m (boot_params + o_framebuffer_addr) 8 (physical_address fb) in
  let m := poke_le m (boot_params + o_framebuffer_width) 4 (x_resolution fb) in
  let m := poke_le m (boot_params + o_framebuffer_height) 4 (y_resolution fb) in
  let m := poke_le m (boot_params + o_framebuffer_bpp) 4 (bits_per_pixel fb) in
  let m := poke_le m (boot_params + o_framebuffer_pitch) 4 (bytes_per_line fb) in
  or_flag m boot_params COREBOOT_BOOT_FLAG_FRAMEBUFFER.

(** The pitch is computed from the field that was just stored. *)
Definition put_gop (m : phys) (boot_params : Z) (g : gop_mode) : phys :=
  let m := poke_le m (boot_params + o_framebuffer_addr) 8 (FrameBufferBase g) in
  let m := poke_le m (boot_params + o_framebuffer_width) 4 (HorizontalResolution g) in
  let m := poke_le m (boot_params + o_framebuffer_height) 4 (VerticalResolution g) in
  let m := poke_le m (boot_params + o_framebuffer_bpp) 4
             (if PixelFormat g =? PixelBlueGreenRedReserved8BitPerColor then 32 else 24) in
  let m := poke_le m (boot_params + o_framebuffer_pitch) 4
             (u32 (PixelsPerScanLine g * (fetch_le m (boot_params + o_framebuffer_bpp) 4 / 8))) in
  or_flag m boot_params COREBOOT_BOOT_FLAG_FRAMEBUFFER.

Definition put_memory (m : phys) (boot_params total_memory : Z) : phys :=
  poke_le m (boot_params + o_memory_size) 8 total_memory.

Definition put_initrd (m : phys) (boot_params InitrdBuffer : Z) : phys :=
  or_flag (poke_le m (boot_params + o_initrd_addr) 8 InitrdBuffer) boot_params COREBOOT_BOOT_FLAG_INITRD.

(** ** Reading *)

Definition read_params (m : phys) (boot_params : Z) : COREBOOT_BOOT_PARAMS :=
  let u32_at o := fetch_le m (boot_params + o) 4 in
  let u64_at o := fetch_le m (boot_params + o) 8 in
  mk_params (u32_at o_signature) (u32_at o_params_version) (u64_at o_kernel_base) (u64_at o_kernel_size)
    (u32_at o_boot_flags) (u64_at o_framebuffer_addr) (u32_at o_framebuffer_width) (u32_at o_framebuffer_height)
    (u32_at o_framebuffer_bpp) (u32_at o_framebuffer_pitch) (u64_at o_memory_size) (u64_at o_initrd_addr)
    (u64_at o_initrd_size) (fetch m (boot_params + o_cmdline) 256).

(** ** The bytes of a record *)

Definition params_chunks (p : COREBOOT_BOOT_PARAMS) : list bytes :=
  [le_bytes 4 (bp_signature p); le_bytes 4 (bp_version p); le_bytes 8 (bp_kernel_base p); le_bytes 8 (bp_kernel_size p);
   le_bytes 4 (bp_boot_flags p); zeros 4; le_bytes 8 (bp_framebuffer_addr p); le_bytes 4 (bp_framebuffer_width p);
   le_bytes 4 (bp_framebuffer_height p); le_bytes 4 (bp_framebuffer_bpp p); le_bytes 4 (bp_framebuffer_pitch p);
   le_bytes 8 (bp_memory_size p); le_bytes 8 (bp_initrd_addr p); le_bytes 8 (bp_initrd_size p); bp_cmdline p].
Definition params_bytes (p : COREBOOT_BOOT_PARAMS) : bytes := concat (params_chunks p).

(** The structure at [a] holds the record [p]. *)
Definition params_at (m : phys) (a : Z) (p : COREBOOT_BOOT_PARAMS) : Prop :=
  holds m a (params_bytes p) /\ zlen (bp_cmdline p) = 256.

(** Nothing outside the structure is changed. *)
Definition only_params (m m' : phys) (a : Z) : Prop := forall x, x < a \/ a + sizeof_params <= x -> m' x = m x.

(** Every field fits its type. *)
Definition params_typed (p : COREBOOT_BOOT_PARAMS) : Prop :=
  in_u 32 (bp_signature p) /\ in_u 32 (bp_version p) /\ in_u 64 (bp_kernel_base p) /\ in_u 64 (bp_kernel_size p) /\
  in_u 32 (bp_boot_flags p) /\ in_u 64 (bp_framebuffer_addr p) /\ in_u 32 (bp_framebuffer_width p) /\
  in_u 32 (bp_framebuffer_height p) /\ in_u 32 (bp_framebuffer_bpp p) /\ in_u 32 (bp_framebuffer_pitch p) /\
  in_u 64 (bp_memory_size p) /\ in_u 64 (bp_initrd_addr p) /\ in_u 64 (bp_initrd_size p).

(** ** Lemmas *)

Lemma holds_ext m m' a l : (forall x, m' x = m x) -> holds m a l -> holds m' a l.
Proof. rewrite !holds_iff. intros E H i Hi. rewrite E. by apply H. Qed.

Lemma only_params_poke m a o l : 0 <= o -> o + zlen l <= sizeof_params -> only_params m (poke m (a + o) l) a.
Proof. intros Ho Hl x Hx. apply poke_other. lia. Qed.
Lemma only_params_trans m m' m'' a : only_params m m' a -> only_params m' m'' a -> only_params m m'' a.
Proof. intros H H' x Hx. by rewrite H', H. Qed.
Lemma only_params_refl m a : only_params m m a.
Proof. done. Qed.

(** One store into, and one load from, the [k]-th of a list of fields. *)
Lemma store_part m a cs k c n v o : holds m a (concat cs) -> cs !! k = Some c -> zlen c = Z.of_nat n ->
  o = zlen (concat (take k cs)) -> holds (poke_le m (a + o) n v) a (concat (<[k := le_bytes n v]> cs)).
Proof. intros H Hc Hn ->. apply (holds_chunk m a cs k c); [done|done|done|]. by rewrite zlen_le_bytes. Qed.

Lemma load_part m a cs k c o n : holds m a (concat cs) -> cs !! k = Some c -> o = zlen (concat (take k cs)) ->
  zlen c = n -> fetch m (a + o) n = c.
Proof.
  intros H Hc -> <-. rewrite (concat_chunk cs k c Hc) in H. apply holds_app in H as (_ & H). by apply holds_app in H as (H & _).
Qed.

Lemma load_field m a cs k v o w : holds m a (concat cs) -> cs !! k = Some (le_bytes (Z.to_nat w) v) -> o = zlen (concat (take k cs)) ->
  0 <= w -> 0 <= v < 2 ^ (8 * w) -> fetch_le m (a + o) w = v.
Proof.
  intros H Hc Ho Hw Hv. unfold fetch_le. rewrite (load_part m a cs k (le_bytes (Z.to_nat w) v) o) by (done || by rewrite zlen_le_bytes, Z2Nat.id).
  rewrite le_val_bytes, Z2Nat.id by done. change 256 with (2 ^ 8). rewrite <- Z.pow_mul_r by lia. by apply Z.mod_small.
Qed.

(** A store of [v] into field [k]; the fields after it are computed. *)
Ltac store H k n v o :=
  let H' := fresh in
  pose proof (store_part _ _ _ k _ n v o H eq_refl eq_refl eq_refl) as H'; clear H; rename H' into H.

Ltac only_fields :=
  repeat (eapply only_params_trans; [|apply only_params_poke; [done|by rewrite zlen_le_bytes]]); try apply only_params_refl.

(** [put_basic] makes the record [basic_params]. *)
Lemma put_basic_ok m a base size : exists m', put_basic m a base size = Ret m' /\
  params_at m' a (basic_params base size) /\ only_params m m' a.
Proof.
  unfold put_basic. destruct (set_mem_fills m a sizeof_params 0) as (m1 & -> & E1); [unfold sizeof_params; lia|lia|].
  bind_step. eexists. split; [reflexivity|].
  assert (H : holds m1 a (concat (params_chunks (mk_params 0 0 0 0 0 0 0 0 0 0 0 0 0 (zeros 256))))).
  { apply (holds_ext (fill m a 0 336)); [exact E1|]. exact (holds_fill m a 336 ltac:(lia)). }
  split.
  - split; [|done]. store H 0%nat 4%nat COREBOOT_BOOT_SIGNATURE 0. store H 1%nat 4%nat 1 4. store H 2%nat 8%nat base 8.
    store H 3%nat 8%nat size 16. store H 4%nat 4%nat COREBOOT_BOOT_FLAG_KERNEL 24. exact H.
  - unfold poke_le. only_fields. intros x Hx. rewrite E1. by apply fill_other.
Qed.

Lemma or_flag_ok m a p flag : params_at m a p -> in_u 32 (bp_boot_flags p) ->
  holds (or_flag m a flag) a (concat (<[4%nat := le_bytes 4 (bp_boot_flags p ||| flag)]> (params_chunks p))).
Proof.
  intros (H & Hc) Hf. unfold or_flag. rewrite (load_field m a _ 4 (bp_boot_flags p) o_boot_flags 4 H eq_refl eq_refl ltac:(lia) Hf).
  store H 4%nat 4%nat (bp_boot_flags p ||| flag) 24. exact H.
Qed.

Lemma put_framebuffer_ok m a p fb : params_at m a p -> in_u 32 (bp_boot_flags p) ->
  params_at (put_framebuffer m a fb) a (set_framebuffer p fb) /\ only_params m (put_framebuffer m a fb) a.
Proof.
  intros (H & Hc) Hf. split.
  - split; [|exact Hc]. unfold put_framebuffer. unfold params_bytes in H.
    store H 6%nat 8%nat (physical_address fb) 32. store H 7%nat 4%nat (x_resolution fb) 40. store H 8%nat 4%nat (y_resolution fb) 44.
    store H 9%nat 4%nat (bits_per_pixel fb) 48. store H 10%nat 4%nat (bytes_per_line fb) 52.
    apply (or_flag_ok _ _ (mk_params (bp_signature p) (bp_version p) (bp_kernel_base p) (bp_kernel_size p) (bp_boot_flags p)
      (physical_address fb) (x_resolution fb) (y_resolution fb) (bits_per_pixel fb) (bytes_per_line fb)
      (bp_memory_size p) (bp_initrd_addr p) (bp_initrd_size p) (bp_cmdline p))); [|exact Hf]. split; [exact H|exact Hc].
  - unfold put_framebuffer, or_flag, poke_le. only_fields.
Qed.

(** The graphics protocol's mode is stored like a coreboot framebuffer. *)
Lemma put_gop_framebuffer m a p g : params_at m a p -> put_gop m a g = put_framebuffer m a (gop_framebuffer g).
Proof.
  intros (H & _). unfold put_gop, put_framebuffer, gop_framebuffer. cbn [physical_address x_resolution y_resolution bits_per_pixel bytes_per_line].
  set (bpp := if PixelFormat g =? _ then 32 else 24). unfold params_bytes in H.
  store H 6%nat 8%nat (FrameBufferBase g) o_framebuffer_addr. store H 7%nat 4%nat (HorizontalResolution g) o_framebuffer_width.
  store H 8%nat 4%nat (VerticalResolution g) o_framebuffer_height. store H 9%nat 4%nat bpp o_framebuffer_bpp.
  rewrite (load_field _ a _ 9 bpp o_framebuffer_bpp 4 H eq_refl eq_refl ltac:(lia)); [done|]. subst bpp. case_match; lia.
Qed.

Lemma put_memory_ok m a p n : params_at m a p -> params_at (put_memory m a n) a (set_memory p n) /\ only_params m (put_memory m a n) a.
Proof.
  intros (H & Hc). split; [|unfold put_memory, poke_le; only_fields]. split; [|exact Hc].
  unfold params_bytes in H. store H 11%nat 8%nat n 56. exact H.
Qed.

Lemma put_initrd_ok m a p i : params_at m a p -> in_u 32 (bp_boot_flags p) ->
  params_at (put_initrd m a i) a (set_params_initrd p i) /\ only_params m (put_initrd m a i) a.
Proof.
  intros (H & Hc) Hf. split; [|unfold put_initrd, or_flag, poke_le; only_fields]. split; [|exact Hc].
  unfold params_bytes in H. store H 12%nat 8%nat i 64.
  apply (or_flag_ok _ _ (mk_params (bp_signature p) (bp_version p) (bp_kernel_base p) (bp_kernel_size p) (bp_boot_flags p)
    (bp_framebuffer_addr p) (bp_framebuffer_width p) (bp_framebuffer_height p) (bp_framebuffer_bpp p) (bp_framebuffer_pitch p)
    (bp_memory_size p) i (bp_initrd_size p) (bp_cmdline p))); [|exact Hf]. split; [exact H|exact Hc].
Qed.

(** Reading the structure gives the record back. *)
Lemma read_params_at m a p : params_at m a p -> params_typed p -> read_params m a = p.
Proof.
  intros (H & Hc) (T1 & T2 & T3 & T4 & T5 & T6 & T7 & T8 & T9 & T10 & T11 & T12 & T13). unfold read_params, params_bytes in *. cbv zeta.
  rewrite (load_field m a _ 0 _ o_signature 4 H eq_refl eq_refl ltac:(lia) T1), (load_field m a _ 1 _ o_params_version 4 H eq_refl eq_refl ltac:(lia) T2),
    (load_field m a _ 2 _ o_kernel_base 8 H eq_refl eq_refl ltac:(lia) T3), (load_field m a _ 3 _ o_kernel_size 8 H eq_refl eq_refl ltac:(lia) T4),
    (load_field m a _ 4 _ o_boot_flags 4 H eq_refl eq_refl ltac:(lia) T5), (load_field m a _ 6 _ o_framebuffer_addr 8 H eq_refl eq_refl ltac:(lia) T6),
    (load_field m a _ 7 _ o_framebuffer_width 4 H eq_refl eq_refl ltac:(lia) T7), (load_field m a _ 8 _ o_framebuffer_height 4 H eq_refl eq_refl ltac:(lia) T8),
    (load_field m a _ 9 _ o_framebuffer_bpp 4 H eq_refl eq_refl ltac:(lia) T9), (load_field m a _ 10 _ o_framebuffer_pitch 4 H eq_refl eq_refl ltac:(lia) T10),
    (load_field m a _ 11 _ o_memory_size 8 H eq_refl eq_refl ltac:(lia) T11), (load_field m a _ 12 _ o_initrd_addr 8 H eq_refl eq_refl ltac:(lia) T12),
    (load_field m a _ 13 _ o_initrd_size 8 H eq_refl eq_refl ltac:(lia) T13), (load_part m a _ 14 _ o_cmdline 256 H eq_refl eq_refl Hc).
  by destruct p.
Qed.
