(* ===== verification/BloodChain.v ===== *)
(** * The BloodChain Boot Protocol (src/boot/Arch32/BloodChain/bloodchain.c)

    The boot information a BloodChain kernel receives: a packed header, the
    array of modules after it, and the modules' strings.  The memory handed to
    the protocol is a byte region that starts at the address [base] of the
    header; pointers are the absolute addresses the structure stores, and an
    access outside the region is undefined. *)

From S2P Require Import Prelude.
From S2P Require Import Libb.

Definition BCBP_MAGIC : Z := 0x424C4348.
Definition BCBP_VERSION : Z := 0x00010000.
Definition BCBP_MODTYPE_KERNEL : Z := 1.
Definition BCBP_MODTYPE_INITRD : Z := 2.
Definition BCBP_MODTYPE_DRIVER : Z := 8.

(** Offsets of the header's fields, and its size. *)
Definition off_magic : Z := 0.
Definition off_version : Z := 4.
Definition off_entry_point : Z := 8.
Definition off_boot_device : Z := 24.
Definition off_acpi_rsdp : Z := 32.
Definition off_smbios : Z := 40.
Definition off_framebuffer : Z := 48.
Definition off_module_count : Z := 56.
Definition off_modules : Z := 64.
Definition off_secure_boot : Z := 72.
Definition off_tpm_available : Z := 73.
Definition off_uefi_64bit : Z := 74.
Definition BCBP_HEADER_SIZE : Z := 144.

(** Offsets of a module's fields, and its size. *)
Definition mod_start : Z := 0.
Definition mod_size : Z := 8.
Definition mod_cmdline : Z := 16.
Definition mod_name : Z := 24.
Definition mod_type : Z := 32.
Definition BCBP_MODULE_SIZE : Z := 40.

Section Bcbp.
Context (base : Z).

(** Loads, stores and strings at an address. *)
Definition load (mem : bytes) (addr n : Z) : run Z := rd_le mem (addr - base) n.

Definition store_bytes (mem : bytes) (addr : Z) (l : bytes) : run bytes :=
  if (base <=? addr) && (addr + zlen l <=? base + zlen mem)
  then Ret (splice mem (addr - base) l) else UB.

Definition store (mem : bytes) (addr n v : Z) : run bytes :=
  store_bytes mem addr (le_bytes (Z.to_nat n) v).

Definition strlen_at (mem : bytes) (addr : Z) : run Z :=
  if addr <? base then UB else strlen (drop (Z.to_nat (addr - base)) mem).

(** [strcpy(addr, s)]. *)
Definition strcpy_at (mem : bytes) (addr : Z) (s : bytes) : run bytes := store_bytes mem addr (s ++ [0]).

(** [strcmp(l, s) == 0]. *)
Fixpoint strcmp_eq (l s : bytes) : run bool :=
  match l, s with
  | [], _ => UB
  | x :: l', [] => Ret (x =? 0)
  | x :: l', y :: s' => if x =? y then strcmp_eq l' s' else Ret false
  end.

(** [strnlen(l, n)]. *)
Fixpoint strnlen (l : bytes) (n : nat) : run Z :=
  match n, l with
  | O, _ => Ret 0
  | S _, [] => UB
  | S n', x :: l' => if x =? 0 then Ret 0 else k ← strnlen l' n'; mret (k + 1)
  end.

Definition string_at (mem : bytes) (addr : Z) : bytes := drop (Z.to_nat (addr - base)) mem.

(** ** Setting up *)

(** [hdr] is the region, [None] a null pointer. *)
Definition bcbp_init (hdr : option bytes) (entry_point boot_device : Z) : run (option bytes) :=
  match hdr with
  | None => mret None
  | Some mem =>
      mem ← store_bytes mem base (zeros BCBP_HEADER_SIZE);
      mem ← store mem (base + off_magic) 4 BCBP_MAGIC;
      mem ← store mem (base + off_version) 4 BCBP_VERSION;
      mem ← store mem (base + off_entry_point) 8 entry_point;
      mem ← store mem (base + off_boot_device) 8 boot_device;
      mem ← store mem (base + off_modules) 8 (base + BCBP_HEADER_SIZE);
      mem ← store mem (base + off_module_count) 8 0;
      mem ← store mem (base + off_secure_boot) 1 0;
      mem ← store mem (base + off_tpm_available) 1 0;
      mem ← store mem (base + off_uefi_64bit) 1 0;
      mret (Some mem)
  end.

(** The end of a string, when it lies beyond [str_ptr]. *)
Definition past_string (mem : bytes) (p str_ptr : Z) : run Z :=
  if p =? 0 then mret str_ptr
  else len ← strlen_at mem p;
       mret (if str_ptr <? p + (len + 1) then p + (len + 1) else str_ptr).

(** "Find the end of the current string data". *)
Fixpoint string_end (mem : bytes) (mods : Z) (n : nat) (i str_ptr : Z) : run Z :=
  match n with
  | O => Ret str_ptr
  | S n' =>
      name ← load mem (mods + i * BCBP_MODULE_SIZE + mod_name) 8;
      str_ptr ← past_string mem name str_ptr;
      cmd ← load mem (mods + i * BCBP_MODULE_SIZE + mod_cmdline) 8;
      str_ptr ← past_string mem cmd str_ptr;
      string_end mem mods n' (i + 1) str_ptr
  end.

Definition add_module (mem : bytes) (start size : Z) (name : bytes) (type : Z) (cmdline : option bytes)
  : run bytes :=
  mods ← load mem (base + off_modules) 8;
  count ← load mem (base + off_module_count) 8;
  str_ptr ← string_end mem mods (Z.to_nat count) 0 (mods + (count + 1) * BCBP_MODULE_SIZE);
  let md := mods + count * BCBP_MODULE_SIZE in
  mem ← store mem (base + off_module_count) 8 (u64 (count + 1));
  mem ← store mem (md + mod_start) 8 start;
  mem ← store mem (md + mod_size) 8 size;
  mem ← store mem (md + mod_type) 1 type;
  mem ← store mem (md + mod_name) 8 str_ptr;
  mem ← strcpy_at mem str_ptr name;
  let str_ptr := str_ptr + (zlen name + 1) in
  match cmdline with
  | Some c =>
      if decide (c = []) then store mem (md + mod_cmdline) 8 0
      else mem ← store mem (md + mod_cmdline) 8 str_ptr; strcpy_at mem str_ptr c
  | None => store mem (md + mod_cmdline) 8 0
  end.

Definition bcbp_add_module (hdr : option bytes) (start size : Z) (name : option bytes) (type : Z)
  (cmdline : option bytes) : run (option bytes) :=
  match hdr with
  | None => mret None
  | Some mem =>
      magic ← load mem (base + off_magic) 4;
      match name with
      | Some name =>
          if negb (magic =? BCBP_MAGIC) || (size =? 0) then mret (Some mem)
          else mem ← add_module mem start size name type cmdline; mret (Some mem)
      | None => mret (Some mem)
      end
  end.

(** ** Looking up *)

Fixpoint find_loop (mem : bytes) (mods : Z) (name : bytes) (n : nat) (i : Z) : run (option Z) :=
  match n with
  | O => Ret None
  | S n' =>
      p ← load mem (mods + i * BCBP_MODULE_SIZE + mod_name) 8;
      found ← (if p =? 0 then mret false else if p <? base then UB else strcmp_eq (string_at mem p) name);
      if found : bool then mret (Some (mods + i * BCBP_MODULE_SIZE))
      else find_loop mem mods name n' (i + 1)
  end.

Definition bcbp_find_module (hdr : option bytes) (name : option bytes) : run (option Z) :=
  match hdr, name with
  | Some mem, Some name =>
      magic ← load mem (base + off_magic) 4;
      if negb (magic =? BCBP_MAGIC) then mret None
      else
        mods ← load mem (base + off_modules) 8;
        count ← load mem (base + off_module_count) 8;
        find_loop mem mods name (Z.to_nat count) 0
  | _, _ => mret None
  end.

(** ** Validation *)

Definition add_strlen (mem : bytes) (p total : Z) : run Z :=
  if p =? 0 then mret total else len ← strlen_at mem p; mret (u64 (total + (len + 1))).

Fixpoint required_loop (mem : bytes) (mods : Z) (n : nat) (i total : Z) : run Z :=
  match n with
  | O => Ret total
  | S n' =>
      name ← load mem (mods + i * BCBP_MODULE_SIZE + mod_name) 8;
      total ← add_strlen mem name total;
      cmd ← load mem (mods + i * BCBP_MODULE_SIZE + mod_cmdline) 8;
      total ← add_strlen mem cmd total;
      required_loop mem mods n' (i + 1) total
  end.

Definition calculate_required_memory (mem : bytes) : run Z :=
  magic ← load mem (base + off_magic) 4;
  if negb (magic =? BCBP_MAGIC) then mret 0
  else
    mods ← load mem (base + off_modules) 8;
    count ← load mem (base + off_module_count) 8;
    required_loop mem mods (Z.to_nat count) 0
      (u64 (BCBP_HEADER_SIZE + count * BCBP_MODULE_SIZE)).

(** A string pointer of a module: in the structure, and shorter than [max]. *)
Definition check_string (mem : bytes) (p max bad_ptr too_long : Z) : run Z :=
  if p =? 0 then mret 0
  else if p <? base then mret bad_ptr
  else
    total ← calculate_required_memory mem;
    if base + total <=? p then mret bad_ptr
    else len ← strnlen (string_at mem p) (Z.to_nat max);
         mret (if len =? max then too_long else 0).

Fixpoint validate_loop (mem : bytes) (mods : Z) (n : nat) (i : Z) : run Z :=
  match n with
  | O => Ret 0
  | S n' =>
      type ← load mem (mods + i * BCBP_MODULE_SIZE + mod_type) 1;
      if (type <? BCBP_MODTYPE_KERNEL) || (BCBP_MODTYPE_DRIVER <? type) then mret (-6)
      else
        name ← load mem (mods + i * BCBP_MODULE_SIZE + mod_name) 8;
        r ← check_string mem name 256 (-7) (-8);
        if negb (r =? 0) then mret r
        else
          cmd ← load mem (mods + i * BCBP_MODULE_SIZE + mod_cmdline) 8;
          r ← check_string mem cmd 4096 (-9) (-10);
          if negb (r =? 0) then mret r
          else validate_loop mem mods n' (i + 1)
  end.

Definition bcbp_validate (hdr : option bytes) : run Z :=
  match hdr with
  | None => mret (-1)
  | Some mem =>
      magic ← load mem (base + off_magic) 4;
      if negb (magic =? BCBP_MAGIC) then mret (-2)
      else
        version ← load mem (base + off_version) 4;
        if BCBP_VERSION >>> 16 <? version >>> 16 then mret (-3)
        else
          count ← load mem (base + off_module_count) 8;
          if 1024 <? count then mret (-4)
          else if 0 <? count then
            mods ← load mem (base + off_modules) 8;
            if mods <=? base then mret (-5)
            else
              total ← calculate_required_memory mem;
              if base + total <=? mods then mret (-5)
              else validate_loop mem mods (Z.to_nat count) 0
          else mret 0
  end.

(** ** The setters *)

Definition set_field (hdr : option bytes) (off v : Z) : run (option bytes) :=
  match hdr with
  | None => mret None
  | Some mem =>
      magic ← load mem (base + off_magic) 4;
      if magic =? BCBP_MAGIC then mem ← store mem (base + off) 8 v; mret (Some mem)
      else mret (Some mem)
  end.

Definition bcbp_set_acpi_rsdp (hdr : option bytes) (rsdp : Z) := set_field hdr off_acpi_rsdp rsdp.
Definition bcbp_set_smbios (hdr : option bytes) (smbios : Z) := set_field hdr off_smbios smbios.
Definition bcbp_set_framebuffer (hdr : option bytes) (fb : Z) := set_field hdr off_framebuffer fb.

(** [bcbp_get_module] of the header file. *)
Definition bcbp_get_module (mem : bytes) (idx : Z) : run (option Z) :=
  count ← load mem (base + off_module_count) 8;
  if count <=? idx then mret None
  else mods ← load mem (base + off_modules) 8; mret (Some (mods + idx * BCBP_MODULE_SIZE)).

End Bcbp.

(** ** Memory as a list of fields *)

Implicit Types cs : list bytes.

Section Chunks.
Context (base : Z).

(** [addr] is the address of the [k]-th field. *)
Definition at_chunk cs (k : nat) (addr : Z) : Prop := addr = base + zlen (concat (take k cs)).

Lemma load_chunk cs k n v addr w :
  cs !! k = Some (le_bytes n v) -> at_chunk cs k addr -> w = Z.of_nat n -> 0 <= v < 256 ^ w ->
  load base (concat cs) addr w = Ret v.
Proof.
  intros Hc -> -> Hv. unfold load, rd_le. set (a := concat (take k cs)).
  replace (base + zlen a - base) with (zlen a) by lia. pose proof (zlen_nonneg a).
  rewrite (concat_chunk cs k _ Hc). fold a. rewrite !zlen_app, zlen_le_bytes.
  pose proof (zlen_nonneg (concat (drop (S k) cs))).
  replace ((0 <=? zlen a) && _) with true by (symmetry; zbool). f_equal.
  unfold sub. replace (Z.to_nat (zlen a)) with (length a) by (unfold zlen; lia).
  rewrite drop_app_length, Nat2Z.id. rewrite <- (length_le_bytes n v) at 1.
  rewrite take_app_length, le_val_bytes. by apply Z.mod_small.
Qed.

Lemma store_chunk cs k c addr l :
  cs !! k = Some c -> at_chunk cs k addr -> zlen l = zlen c ->
  store_bytes base (concat cs) addr l = Ret (concat (<[k:=l]> cs)).
Proof.
  intros Hc -> Hl. unfold store_bytes. set (a := concat (take k cs)).
  rewrite (concat_chunk cs k _ Hc). fold a. rewrite !zlen_app. pose proof (zlen_nonneg a).
  pose proof (zlen_nonneg (concat (drop (S k) cs))).
  replace ((base <=? base + zlen a) && _) with true by (symmetry; zbool).
  replace (base + zlen a - base) with (zlen a) by lia.
  assert (Hk : (k < length cs)%nat) by (apply lookup_lt_is_Some; eauto).
  rewrite (concat_chunk (<[k:=l]> cs) k l) by (by apply list_lookup_insert_eq).
  rewrite take_insert_ge, drop_insert_lt by lia. fold a. f_equal. unfold splice.
  assert (E1 : Z.to_nat (zlen a) = length a) by (unfold zlen; lia). rewrite E1, take_app_length.
  f_equal. f_equal. rewrite drop_app_ge, drop_app_ge; unfold zlen in *; try lia.
  replace (_ - _ - _)%nat with 0%nat by lia. done.
Qed.

Lemma string_at_chunk cs k addr :
  at_chunk cs k addr -> string_at base (concat cs) addr = concat (drop k cs).
Proof.
  intros ->. unfold string_at. rewrite <- (take_drop k cs) at 2. rewrite concat_app.
  replace (Z.to_nat _) with (length (concat (take k cs))) by (unfold zlen; lia).
  apply drop_app_length.
Qed.
End Chunks.

(** *** Strings in memory *)

Definition no_nul (s : bytes) : Prop := Forall (fun c => c <> 0) s.

Lemma strlen_string s tl : no_nul s -> strlen (s ++ 0 :: tl) = Ret (zlen s).
Proof.
  induction 1 as [|x s Hx _ IH]; [done|]. cbn [app strlen]. rewrite (proj2 (Z.eqb_neq _ _) Hx), IH.
  bind_step. f_equal. unfold zlen. cbn [length]. lia.
Qed.

Lemma strnlen_string s tl n : no_nul s -> (length s < n)%nat -> strnlen (s ++ 0 :: tl) n = Ret (zlen s).
Proof.
  intros Hs. revert n. induction Hs as [|x s Hx _ IH]; intros [|n] Hn; cbn [length] in Hn; [lia|done|lia|].
  cbn [app strnlen]. rewrite (proj2 (Z.eqb_neq _ _) Hx), IH by lia.
  bind_step. f_equal. unfold zlen. cbn [length]. lia.
Qed.

Lemma strcmp_string s s' tl : no_nul s -> no_nul s' ->
  strcmp_eq (s ++ 0 :: tl) s' = Ret (bool_decide (s = s')).
Proof.
  intros Hs. revert s'. induction Hs as [|x s Hx _ IH]; intros [|y s'] Hs'; cbn [app strcmp_eq]; [done| | |].
  - apply Forall_cons in Hs' as [Hy _]. by destruct (Z.eqb_spec 0 y).
  - by rewrite (proj2 (Z.eqb_neq _ _) Hx).
  - apply Forall_cons in Hs' as [_ Hs']. destruct (Z.eqb_spec x y) as [->|Hne].
    + rewrite IH by done. f_equal. by apply bool_decide_ext; split; [intros ->|intros [= ->]].
    + rewrite bool_decide_false; [done|]. congruence.
Qed.

Lemma split_len (l : bytes) n : 0 <= n <= zlen l -> exists a b, l = a ++ b /\ zlen a = n.
Proof.
  intros Hn. exists (take (Z.to_nat n) l), (drop (Z.to_nat n) l). rewrite take_drop.
  split; [done|]. unfold zlen in *. rewrite length_take. lia.
Qed.

(** ** The layout of the structure *)

(** What the setters store: the tables, the frame buffer and the three flags. *)
Record platform_info := mk_platform {
  p_acpi : Z; p_smbios : Z; p_fb : Z; p_secure : Z; p_tpm : Z; p_uefi64 : Z }.
Definition no_platform : platform_info := mk_platform 0 0 0 0 0 0.

Definition header_chunks (pf : platform_info) (base entry_point boot_device count : Z) : list bytes :=
  [le_bytes 4 BCBP_MAGIC; le_bytes 4 BCBP_VERSION; le_bytes 8 entry_point; zeros 8;
   le_bytes 8 boot_device; le_bytes 8 (p_acpi pf); le_bytes 8 (p_smbios pf); le_bytes 8 (p_fb pf); le_bytes 8 count;
   le_bytes 8 (base + BCBP_HEADER_SIZE); le_bytes 1 (p_secure pf); le_bytes 1 (p_tpm pf); le_bytes 1 (p_uefi64 pf);
   zeros 69].

Definition module_chunks (start size cmdline name type : Z) (reserved : bytes) : list bytes :=
  [le_bytes 8 start; le_bytes 8 size; le_bytes 8 cmdline; le_bytes 8 name; le_bytes 1 type; reserved].

(** Solves a goal about the address or the length of a field. *)
Ltac chunk_len :=
  unfold at_chunk, off_magic, off_version, off_entry_point, off_boot_device, off_acpi_rsdp, off_smbios,
    off_framebuffer, off_module_count, off_modules, off_secure_boot, off_tpm_available, off_uefi_64bit,
    BCBP_HEADER_SIZE, mod_start, mod_size, mod_cmdline, mod_name, mod_type, BCBP_MODULE_SIZE in *;
  cbn [take concat app header_chunks module_chunks];
  rewrite ?zlen_app, ?zlen_le_bytes, ?(zlen_zeros 8), ?(zlen_zeros 69), ?(zlen_zeros 4), ?(zlen_zeros 1) by lia;
  change (zlen (@nil Z)) with 0; change (zlen [0]) with 1; lia.

(** The call that runs next. *)
Ltac next_call t := lazymatch t with mbind _ ?c => next_call c | _ => t end.
Ltac with_next_call tac := lazymatch goal with |- ?l = _ => let c := next_call l in tac c end.

(** Runs the next store, into the [k]-th field. *)
Ltac do_store k :=
  with_next_call ltac:(fun c => let c' := eval unfold store, strcpy_at in c in change c with c');
  with_next_call ltac:(fun c => lazymatch c with store_bytes ?b (concat ?cs) ?a ?l =>
    erewrite (store_chunk b cs k _ a l); [|reflexivity|chunk_len|chunk_len] end);
  cbn [insert list_insert header_chunks module_chunks app]; bind_step.

(** Runs the next load, of the [k]-th field of [n] bytes; leaves its range. *)
Ltac do_load k n :=
  with_next_call ltac:(fun c => lazymatch c with load ?b (concat ?cs) ?a ?w =>
    erewrite (load_chunk b cs k n _ a w); [bind_step|reflexivity|chunk_len|reflexivity|] end).

Lemma bcbp_init_layout base mem entry_point boot_device :
  BCBP_HEADER_SIZE <= zlen mem ->
  bcbp_init base (Some mem) entry_point boot_device =
  Ret (Some (concat (header_chunks no_platform base entry_point boot_device 0 ++
                     [drop (Z.to_nat BCBP_HEADER_SIZE) mem]))).
Proof.
  intros Hl. unfold bcbp_init.
  destruct (split_len mem BCBP_HEADER_SIZE) as (a & rest & -> & Ha); [by unfold BCBP_HEADER_SIZE in *; lia|].
  assert (Hd : drop (Z.to_nat BCBP_HEADER_SIZE) (a ++ rest) = rest).
  { rewrite <- Ha. unfold zlen. rewrite Nat2Z.id. apply drop_app_length. }
  rewrite Hd. replace (a ++ rest) with (concat [a; rest]) by (cbn; by rewrite app_nil_r).
  erewrite (store_chunk _ _ 0); [|reflexivity|chunk_len|by rewrite Ha].
  bind_step. cbn [insert list_insert].
  change (concat [zeros BCBP_HEADER_SIZE; rest]) with
    (concat [zeros 4; zeros 4; zeros 8; zeros 8; zeros 8; zeros 8; zeros 8; zeros 8; zeros 8; zeros 8;
             zeros 1; zeros 1; zeros 1; zeros 69; rest]).
  do_store 0%nat. do_store 1%nat. do_store 2%nat. do_store 4%nat. do_store 9%nat. do_store 8%nat.
  do_store 10%nat. do_store 11%nat. do_store 12%nat. done.
Qed.

(** A byte string cut into fields of given lengths and what is left. *)
Lemma split_lens ns : forall l : bytes, Forall (fun n => 0 <= n) ns -> foldr Z.add 0 ns <= zlen l ->
  exists xs r, l = concat (xs ++ [r]) /\ List.map zlen xs = ns.
Proof.
  induction ns as [|n ns IH]; intros l Hf Hl.
  { exists [], l. cbn. by rewrite app_nil_r. }
  apply Forall_cons in Hf as [Hn Hf]. cbn [foldr] in Hl.
  assert (0 <= foldr Z.add 0 ns) by (clear -Hf; induction Hf; cbn; lia).
  destruct (split_len l n) as (a & b & -> & Ha); [lia|]. rewrite zlen_app in Hl.
  destruct (IH b Hf) as (xs & r & -> & Hx); [lia|]. exists (a :: xs), r. cbn [List.map app concat].
  by rewrite Ha, Hx.
Qed.

Lemma concat_last cs (ds : list bytes) : concat (cs ++ [concat ds]) = concat (cs ++ ds).
Proof. rewrite !concat_app. cbn [concat]. by rewrite app_nil_r. Qed.

(** The structure with one module. *)
Definition one_module (pf : platform_info) (base entry_point boot_device start size type : Z) (name cmd reserved rest : bytes)
  : list bytes :=
  header_chunks pf base entry_point boot_device 1 ++
  module_chunks start size (base + 185 + zlen name) (base + 184) type reserved ++
  [name ++ [0]; cmd ++ [0]; rest].

Section Add.
Context (pf : platform_info) (base entry_point boot_device : Z).
Hypothesis base_pos : 0 < base.

Lemma add_first mem start size type name cmd :
  cmd <> [] -> 186 + zlen name + zlen cmd <= zlen mem -> base + zlen mem < 2 ^ 64 ->
  exists reserved rest,
    add_module base (concat (header_chunks pf base entry_point boot_device 0 ++
                             [drop (Z.to_nat BCBP_HEADER_SIZE) mem])) start size name type (Some cmd) =
    Ret (concat (one_module pf base entry_point boot_device start size type name cmd reserved rest)) /\
    zlen reserved = 7 /\ zlen rest = zlen mem - 186 - zlen name - zlen cmd.
Proof.
  intros Hne Hl Hb. pose proof (zlen_nonneg name). pose proof (zlen_nonneg cmd).
  assert (Hd : zlen (drop (Z.to_nat BCBP_HEADER_SIZE) mem) = zlen mem - 144)
    by (unfold zlen, BCBP_HEADER_SIZE in *; rewrite length_drop; lia).
  set (r0 := drop (Z.to_nat BCBP_HEADER_SIZE) mem) in *. clearbody r0.
  destruct (split_lens [8; 8; 8; 8; 1; 7; zlen name + 1; zlen cmd + 1] r0) as (xs & rest & -> & Hx).
  { repeat constructor; lia. }
  { cbn [foldr]. lia. }
  destruct xs as [|x0 [|x1 [|x2 [|x3 [|x4 [|x5 [|x6 [|x7 [|]]]]]]]]]; try discriminate Hx.
  cbn [List.map] in Hx. injection Hx as X0 X1 X2 X3 X4 X5 X6 X7.
  rewrite concat_last. cbn [app concat] in Hd. rewrite !zlen_app in Hd. change (zlen []) with 0 in Hd.
  exists x5, rest. split; [|split; [exact X5|lia]]. unfold add_module. cbn [app header_chunks].
  do_load 9%nat 8%nat. 2:{ unfold BCBP_HEADER_SIZE. change (256 ^ 8) with (2 ^ 64). lia. }
  do_load 8%nat 8%nat. 2: done.
  change (Z.to_nat 0) with 0%nat. cbn [string_end]. bind_step.
  do_store 8%nat. do_store 14%nat. do_store 15%nat. do_store 18%nat. do_store 17%nat. do_store 20%nat.
  rewrite decide_False by done.
  do_store 16%nat. do_store 21%nat.
  unfold one_module. cbn [header_chunks module_chunks app].
  change (u64 (0 + 1)) with 1. change (Z.to_nat 8) with 8%nat. change (Z.to_nat 1) with 1%nat.
  replace (base + BCBP_HEADER_SIZE + (0 + 1) * BCBP_MODULE_SIZE + (zlen name + 1))
    with (base + 185 + zlen name) by (unfold BCBP_HEADER_SIZE, BCBP_MODULE_SIZE; lia).
  replace (base + BCBP_HEADER_SIZE + (0 + 1) * BCBP_MODULE_SIZE) with (base + 184)
    by (unfold BCBP_HEADER_SIZE, BCBP_MODULE_SIZE; lia).
  reflexivity.
Qed.

(** The strings of the layout, by their addresses. *)
Lemma one_module_strings start size type name cmd reserved rest :
  zlen reserved = 7 ->
  let cs := one_module pf base entry_point boot_device start size type name cmd reserved rest in
  string_at base (concat cs) (base + 184) = name ++ 0 :: cmd ++ 0 :: rest /\
  string_at base (concat cs) (base + 185 + zlen name) = cmd ++ 0 :: rest.
Proof.
  intros Hr cs. subst cs. unfold one_module.
  split; [rewrite (string_at_chunk base _ 20)|rewrite (string_at_chunk base _ 21)];
    cbn [header_chunks module_chunks app]; try chunk_len;
    cbn [drop concat]; rewrite app_nil_r, <- ?app_assoc; reflexivity.
Qed.
(** *** Running the readers on one module *)

Section OneModule.
Context (start size type : Z) (name cmd reserved rest : bytes).
Let cs := one_module pf base entry_point boot_device start size type name cmd reserved rest.
Hypothesis (Hres : zlen reserved = 7) (Hn : no_nul name) (Hc : no_nul cmd).
Hypothesis (Hroom : base + (186 + zlen name + zlen cmd) < 2 ^ 64).
Hypothesis (Htype : 1 <= type <= 8).

(** Loads the [k]-th field of the layout. *)
Ltac layout_load k n :=
  unfold cs, one_module; cbn [app header_chunks module_chunks];
  pose proof (zlen_nonneg name); pose proof (zlen_nonneg cmd);
  do_load k n; [reflexivity|change (256 ^ 8) with (2 ^ 64); unfold BCBP_HEADER_SIZE, BCBP_MAGIC, BCBP_VERSION in *; lia].

Lemma one_magic : load base (concat cs) (base + off_magic) 4 = Ret BCBP_MAGIC.
Proof. layout_load 0%nat 4%nat. Qed.
Lemma one_version : load base (concat cs) (base + off_version) 4 = Ret BCBP_VERSION.
Proof. layout_load 1%nat 4%nat. Qed.
Lemma one_count : load base (concat cs) (base + off_module_count) 8 = Ret 1.
Proof. layout_load 8%nat 8%nat. Qed.
Lemma one_modules : load base (concat cs) (base + off_modules) 8 = Ret (base + BCBP_HEADER_SIZE).
Proof. layout_load 9%nat 8%nat. Qed.
Lemma one_name :
  load base (concat cs) (base + BCBP_HEADER_SIZE + 0 * BCBP_MODULE_SIZE + mod_name) 8 = Ret (base + 184).
Proof. layout_load 17%nat 8%nat. Qed.
Lemma one_cmdline :
  load base (concat cs) (base + BCBP_HEADER_SIZE + 0 * BCBP_MODULE_SIZE + mod_cmdline) 8 =
  Ret (base + 185 + zlen name).
Proof. layout_load 16%nat 8%nat. Qed.
Lemma one_type :
  load base (concat cs) (base + BCBP_HEADER_SIZE + 0 * BCBP_MODULE_SIZE + mod_type) 1 = Ret type.
Proof. layout_load 18%nat 1%nat. Qed.

Lemma one_strlens :
  strlen_at base (concat cs) (base + 184) = Ret (zlen name) /\
  strlen_at base (concat cs) (base + 185 + zlen name) = Ret (zlen cmd).
Proof.
  destruct (one_module_strings start size type name cmd reserved rest Hres) as [S1 S2].
  fold cs in S1, S2. unfold strlen_at, string_at in *. pose proof (zlen_nonneg name).
  rewrite S1, S2, !strlen_string by done.
  by rewrite (proj2 (Z.ltb_ge (base + 184) base)), (proj2 (Z.ltb_ge (base + 185 + zlen name) base)) by lia.
Qed.

Lemma one_required : calculate_required_memory base (concat cs) = Ret (186 + zlen name + zlen cmd).
Proof.
  pose proof (zlen_nonneg name). pose proof (zlen_nonneg cmd). destruct one_strlens as [L1 L2].
  unfold calculate_required_memory.
  rewrite one_magic; bind_step. rewrite Z.eqb_refl. cbn [negb].
  rewrite one_modules; bind_step. rewrite one_count; bind_step.
  change (Z.to_nat 1) with 1%nat. cbn [required_loop]. unfold add_strlen.
  rewrite one_name; bind_step. rewrite (proj2 (Z.eqb_neq (base + 184) 0)) by lia. rewrite L1; bind_step.
  rewrite one_cmdline; bind_step. rewrite (proj2 (Z.eqb_neq (base + 185 + zlen name) 0)) by lia.
  rewrite L2; bind_step. f_equal. unfold BCBP_HEADER_SIZE, BCBP_MODULE_SIZE.
  change (u64 (144 + 1 * 40)) with 184.
  rewrite (wrap_small 64 (184 + (zlen name + 1))), wrap_small by (unfold in_u; lia). lia.
Qed.

Lemma one_find : bcbp_find_module base (Some (concat cs)) (Some name) = Ret (Some (base + BCBP_HEADER_SIZE)).
Proof.
  destruct (one_module_strings start size type name cmd reserved rest Hres) as [S1 _]. fold cs in S1.
  unfold bcbp_find_module. rewrite one_magic; bind_step. rewrite Z.eqb_refl. cbn [negb].
  rewrite one_modules; bind_step. rewrite one_count; bind_step. change (Z.to_nat 1) with 1%nat.
  cbn [find_loop]. rewrite one_name; bind_step. rewrite (proj2 (Z.eqb_neq (base + 184) 0)) by lia.
  rewrite (proj2 (Z.ltb_ge (base + 184) base)), S1, strcmp_string by (done || lia). bind_step.
  rewrite bool_decide_true by done. bind_step. do 2 f_equal. lia.
Qed.

Lemma one_validate : zlen name < 256 -> zlen cmd < 4096 -> bcbp_validate base (Some (concat cs)) = Ret 0.
Proof.
  intros Hnl Hcl. pose proof (zlen_nonneg name). pose proof (zlen_nonneg cmd).
  destruct (one_module_strings start size type name cmd reserved rest Hres) as [S1 S2]. fold cs in S1, S2.
  unfold bcbp_validate. rewrite one_magic; bind_step. rewrite Z.eqb_refl. cbn [negb].
  rewrite one_version; bind_step. change (_ <? BCBP_VERSION >>> 16) with false. cbv iota.
  rewrite one_count; bind_step. change (1024 <? 1) with false. change (0 <? 1) with true. cbv iota.
  rewrite one_modules; bind_step. rewrite one_required; bind_step.
  rewrite (proj2 (Z.leb_gt (base + BCBP_HEADER_SIZE) base)) by (unfold BCBP_HEADER_SIZE; lia).
  rewrite (proj2 (Z.leb_gt (base + _) _)) by (unfold BCBP_HEADER_SIZE; lia).
  change (Z.to_nat 1) with 1%nat. cbn [validate_loop]. rewrite one_type; bind_step.
  replace ((type <? BCBP_MODTYPE_KERNEL) || (BCBP_MODTYPE_DRIVER <? type)) with false
    by (unfold BCBP_MODTYPE_KERNEL, BCBP_MODTYPE_DRIVER; symmetry; zbool).
  rewrite one_name; bind_step. unfold check_string. rewrite one_required.
  rewrite S1. bind_step.
  rewrite (proj2 (Z.eqb_neq (base + 184) 0)), (proj2 (Z.ltb_ge (base + 184) base)),
    (proj2 (Z.leb_gt (base + (186 + zlen name + zlen cmd)) (base + 184))) by lia.
  rewrite strnlen_string by (done || (unfold zlen in *; lia)). bind_step.
  rewrite (proj2 (Z.eqb_neq (zlen name) 256)) by lia. change (0 =? 0) with true. cbn [negb].
  rewrite one_cmdline; bind_step. rewrite S2.
  rewrite (proj2 (Z.eqb_neq (base + 185 + zlen name) 0)), (proj2 (Z.ltb_ge (base + 185 + zlen name) base)),
    (proj2 (Z.leb_gt (base + (186 + zlen name + zlen cmd)) (base + 185 + zlen name))) by lia.
  rewrite strnlen_string by (done || (unfold zlen in *; lia)). bind_step.
  by rewrite (proj2 (Z.eqb_neq (zlen cmd) 4096)) by lia.
Qed.
End OneModule.
End Add.

Lemma add_module_guard pf base entry_point boot_device count tl start size name type cmdline :
  size <> 0 ->
  bcbp_add_module base (Some (concat (header_chunks pf base entry_point boot_device count ++ tl)))
    start size (Some name) type cmdline =
  (m ← add_module base (concat (header_chunks pf base entry_point boot_device count ++ tl))
         start size name type cmdline; mret (Some m)).
Proof.
  intros Hs. unfold bcbp_add_module.
  assert (Hm : load base (concat (header_chunks pf base entry_point boot_device count ++ tl))
                 (base + off_magic) 4 = Ret BCBP_MAGIC).
  { cbn [app header_chunks]. do_load 0%nat 4%nat; [reflexivity|unfold BCBP_MAGIC; lia]. }
  rewrite Hm; bind_step. by rewrite (proj2 (Z.eqb_neq size 0)), Z.eqb_refl by done.
Qed.

(** A module that is added is found: [bcbp_init] followed by one
    [bcbp_add_module] with a name and a command line ends without touching
    memory outside the region (which must have room for the structure), the
    structure passes [bcbp_validate], [bcbp_find_module] finds the module by its
    name right after the header, and its fields and strings are the ones given. *)
Theorem bcbp_add_find base mem entry_point boot_device start size type name cmd :
  0 < base -> base + zlen mem < 2 ^ 64 -> 186 + zlen name + zlen cmd <= zlen mem ->
  no_nul name -> zlen name < 256 -> no_nul cmd -> cmd <> [] -> zlen cmd < 4096 ->
  0 <= start < 2 ^ 64 -> 0 < size < 2 ^ 64 -> 1 <= type <= 8 ->
  let md := base + BCBP_HEADER_SIZE in
  exists m,
    (h ← bcbp_init base (Some mem) entry_point boot_device;
     bcbp_add_module base h start size (Some name) type (Some cmd)) = Ret (Some m) /\
    bcbp_validate base (Some m) = Ret 0 /\
    bcbp_find_module base (Some m) (Some name) = Ret (Some md) /\
    load base m (md + mod_start) 8 = Ret start /\ load base m (md + mod_size) 8 = Ret size /\
    load base m (md + mod_type) 1 = Ret type /\
    (exists tl, string_at base m (base + 184) = name ++ 0 :: cmd ++ 0 :: tl).
Proof.
  intros Hb Hw Hl Hn Hnl Hc Hcn Hcl Hst Hsz Ht md.
  pose proof (zlen_nonneg name). pose proof (zlen_nonneg cmd).
  rewrite bcbp_init_layout by (unfold BCBP_HEADER_SIZE; lia). bind_step.
  rewrite add_module_guard by lia.
  destruct (add_first no_platform base entry_point boot_device Hb mem start size type name cmd Hcn Hl Hw)
    as (res & rest & -> & Hres & Hrest). bind_step.
  eexists; split; [reflexivity|].
  split; [by apply one_validate; try done; lia|]. split; [by apply one_find; try done; lia|].
  destruct (one_module_strings no_platform base entry_point boot_device start size type name cmd res rest Hres) as [S1 _].
  split_and!; [..|by eexists]; subst md; unfold one_module; cbn [app header_chunks module_chunks].
  - do_load 14%nat 8%nat; [reflexivity|change (256 ^ 8) with (2 ^ 64); lia].
  - do_load 15%nat 8%nat; [reflexivity|change (256 ^ 8) with (2 ^ 64); lia].
  - do_load 18%nat 1%nat; [reflexivity|lia].
Qed.

Lemma bcbp_add_find_witness :
  let md := 4096 + BCBP_HEADER_SIZE in
  exists m,
    (h ← bcbp_init 4096 (Some (zeros 256)) 0x100000 0;
     bcbp_add_module 4096 h 0x100000 500 (Some [107; 101]) 1 (Some [114; 111])) = Ret (Some m) /\
    bcbp_validate 4096 (Some m) = Ret 0 /\
    bcbp_find_module 4096 (Some m) (Some [107; 101]) = Ret (Some md) /\
    load 4096 m (md + mod_start) 8 = Ret 0x100000 /\ load 4096 m (md + mod_size) 8 = Ret 500 /\
    load 4096 m (md + mod_type) 1 = Ret 1 /\
    (exists tl, string_at 4096 m (4096 + 184) = [107; 101] ++ 0 :: [114; 111] ++ 0 :: tl).
Proof.
  apply (bcbp_add_find 4096 (zeros 256) 0x100000 0 0x100000 500 1 [107; 101] [114; 111]);
    first [lia | by repeat constructor | by vm_compute].
Defined.

(** ** A second module *)

(** The structure after a second module without a command line: its descriptor
    lies where the first module's strings were. *)
Definition two_modules (pf : platform_info) (base entry_point boot_device start size type cmdp : Z) (reserved : bytes)
  (start2 size2 type2 p : Z) (name2 gap rest : bytes) : list bytes :=
  header_chunks pf base entry_point boot_device 2 ++
  module_chunks start size cmdp (base + 184) type reserved ++
  [le_bytes 8 start2; le_bytes 8 size2; le_bytes 8 0; le_bytes 8 p; le_bytes 1 type2; gap;
   name2 ++ [0]; rest].

Section Second.
Context (pf : platform_info) (base entry_point boot_device start size type : Z) (name cmd reserved rest : bytes).
Let cs := one_module pf base entry_point boot_device start size type name cmd reserved rest.
Hypothesis (base_pos : 0 < base) (Hres : zlen reserved = 7) (Hn : no_nul name) (Hc : no_nul cmd).

(** Where the second module's name goes. *)
Definition second_string : Z := Z.max (base + 224) (base + 186 + zlen name + zlen cmd).

Lemma one_string_end :
  base + (186 + zlen name + zlen cmd) < 2 ^ 64 ->
  string_end base (concat cs) (base + BCBP_HEADER_SIZE) 1 0 (base + 224) = Ret second_string.
Proof.
  intros Hroom. pose proof (zlen_nonneg name). pose proof (zlen_nonneg cmd).
  destruct (one_strlens pf base entry_point boot_device start size type name cmd reserved rest Hres Hn Hc)
    as [L1 L2]. fold cs in L1, L2.
  cbn [string_end]. unfold past_string.
  unfold cs. rewrite one_name by assumption; bind_step. fold cs.
  rewrite (proj2 (Z.eqb_neq (base + 184) 0)), L1 by lia; bind_step.
  unfold cs. rewrite one_cmdline by assumption; bind_step. fold cs.
  rewrite (proj2 (Z.eqb_neq (base + 185 + zlen name) 0)), L2 by lia; bind_step.
  f_equal. unfold second_string.
  destruct (Z.ltb_spec (base + 224) (base + 184 + (zlen name + 1)));
    match goal with |- (if ?x <? ?y then _ else _) = _ => destruct (Z.ltb_spec x y) end; lia.
Qed.

Lemma add_second start2 size2 type2 name2 :
  let total := zlen (name ++ [0]) + (zlen (cmd ++ [0]) + zlen rest) in
  second_string + zlen name2 + 1 <= base + 184 + total -> base + 184 + total < 2 ^ 64 ->
  exists gap rest2,
    add_module base (concat cs) start2 size2 name2 type2 None =
    Ret (concat (two_modules pf base entry_point boot_device start size type (base + 185 + zlen name) reserved
                   start2 size2 type2 second_string name2 gap rest2)) /\
    zlen gap = second_string - base - 217.
Proof.
  intros total Hl Hw. subst total. pose proof (zlen_nonneg name). pose proof (zlen_nonneg cmd).
  pose proof (zlen_nonneg rest). pose proof (zlen_nonneg name2).
  rewrite !zlen_app in Hl, Hw. change (zlen [0]) with 1 in Hl, Hw.
  assert (Hs : base + 224 <= second_string) by (unfold second_string; lia).
  unfold add_module. unfold cs.
  rewrite one_modules by (assumption || lia); bind_step. rewrite one_count by assumption; bind_step.
  change (Z.to_nat 1) with 1%nat.
  replace (base + BCBP_HEADER_SIZE + (1 + 1) * BCBP_MODULE_SIZE) with (base + 224)
    by (unfold BCBP_HEADER_SIZE, BCBP_MODULE_SIZE; lia).
  fold cs. rewrite one_string_end by lia. bind_step.
  assert (E : concat cs = concat ((header_chunks pf base entry_point boot_device 1 ++
    module_chunks start size (base + 185 + zlen name) (base + 184) type reserved) ++
    [(name ++ [0]) ++ (cmd ++ [0]) ++ rest])).
  { unfold cs, one_module. rewrite (app_assoc (header_chunks _ _ _ _ _)), !concat_app. cbn [concat].
    by rewrite !app_nil_r. }
  rewrite E. clear E.
  destruct (split_lens [8; 8; 8; 8; 1; second_string - base - 217; zlen name2 + 1]
    ((name ++ [0]) ++ (cmd ++ [0]) ++ rest)) as (xs & rest2 & -> & Hx).
  { repeat constructor; lia. }
  { cbn [foldr]. rewrite !zlen_app. change (zlen [0]) with 1. lia. }
  destruct xs as [|x0 [|x1 [|x2 [|x3 [|x4 [|x5 [|x6 [|]]]]]]]]; try discriminate Hx.
  cbn [List.map] in Hx. injection Hx as X0 X1 X2 X3 X4 X5 X6.
  rewrite concat_last. exists x5, rest2. split; [|exact X5].
  cbn [app header_chunks module_chunks].
  do_store 8%nat. do_store 20%nat. do_store 21%nat. do_store 24%nat. do_store 23%nat.
  do_store 26%nat. do_store 22%nat. reflexivity.
Qed.
End Second.

Section TwoModules.
Context (pf : platform_info) (base entry_point boot_device start size type cmdp : Z) (reserved : bytes).
Context (start2 size2 type2 p : Z) (name2 gap rest : bytes).
Let cs := two_modules pf base entry_point boot_device start size type cmdp reserved
            start2 size2 type2 p name2 gap rest.
Hypothesis (base_pos : 0 < base) (Hbase : base + 224 <= p < 2 ^ 64) (Hres : zlen reserved = 7).
Hypothesis (Hgap : zlen gap = p - base - 217).

Lemma two_strings :
  (exists tl, string_at base (concat cs) (base + 184) = le_bytes 8 start2 ++ tl) /\
  string_at base (concat cs) p = name2 ++ 0 :: rest.
Proof.
  unfold cs, two_modules. split.
  - eexists. rewrite (string_at_chunk base _ 20);
      [|cbn [header_chunks module_chunks app]; chunk_len]. reflexivity.
  - rewrite (string_at_chunk base _ 26); [|cbn [header_chunks module_chunks app]; chunk_len].
    cbn [header_chunks module_chunks app drop concat]. by rewrite app_nil_r, <- app_assoc.
Qed.

Ltac layout_load k n :=
  unfold cs, two_modules; cbn [app header_chunks module_chunks];
  do_load k n; [reflexivity|change (256 ^ 8) with (2 ^ 64);
    unfold BCBP_HEADER_SIZE, BCBP_MAGIC in *; lia].

Lemma two_find_loop name :
  no_nul name -> no_nul name2 -> name <> [] -> start2 mod 256 = 0 ->
  bcbp_find_module base (Some (concat cs)) (Some name) =
  Ret (if decide (name2 = name) then Some (base + 184) else None).
Proof.
  intros Hn Hn2 Hne Hs. destruct two_strings as [[tl S1] S2].
  assert (M : load base (concat cs) (base + off_magic) 4 = Ret BCBP_MAGIC) by layout_load 0%nat 4%nat.
  assert (N : load base (concat cs) (base + off_modules) 8 = Ret (base + BCBP_HEADER_SIZE))
    by layout_load 9%nat 8%nat.
  assert (C : load base (concat cs) (base + off_module_count) 8 = Ret 2) by layout_load 8%nat 8%nat.
  assert (P1 : load base (concat cs) (base + BCBP_HEADER_SIZE + 0 * BCBP_MODULE_SIZE + mod_name) 8 =
    Ret (base + 184)) by layout_load 17%nat 8%nat.
  assert (P2 : load base (concat cs) (base + BCBP_HEADER_SIZE + (0 + 1) * BCBP_MODULE_SIZE + mod_name) 8 =
    Ret p) by layout_load 23%nat 8%nat.
  unfold bcbp_find_module. rewrite M; bind_step. rewrite Z.eqb_refl. cbn [negb].
  rewrite N; bind_step. rewrite C; bind_step. change (Z.to_nat 2) with 2%nat. cbn [find_loop].
  rewrite P1; bind_step.
  rewrite (proj2 (Z.eqb_neq (base + 184) 0)), (proj2 (Z.ltb_ge (base + 184) base)), S1 by lia.
  destruct name as [|x name]; [done|]. apply Forall_cons in Hn as [Hx Hn].
  cbn [le_bytes app strcmp_eq]. rewrite Hs. destruct (Z.eqb_spec 0 x) as [<-|_]; [done|]. bind_step.
  rewrite P2; bind_step. rewrite (proj2 (Z.eqb_neq p 0)), (proj2 (Z.ltb_ge p base)), S2 by lia.
  rewrite strcmp_string by (done || by constructor). bind_step.
  destruct (decide (name2 = x :: name)) as [E|E].
  - rewrite bool_decide_true by done. do 2 f_equal.
    unfold BCBP_HEADER_SIZE, BCBP_MODULE_SIZE. lia.
  - by rewrite bool_decide_false by done.
Qed.
End TwoModules.

(** Adding a second module destroys the first one's name: the strings of
    the first module are stored right after its descriptor, where the second
    descriptor goes.  After two additions the name pointer of the first module
    points at the bytes of the second module's start address; when that address
    is a multiple of 256, as a page-aligned load address is, the first module's
    name has become empty and [bcbp_find_module] does not find it any more. *)
Theorem bcbp_second_module_clobbers base mem entry_point boot_device
    start size type name cmd start2 size2 type2 name2 :
  0 < base -> base + zlen mem < 2 ^ 64 ->
  226 + zlen name + zlen cmd + zlen name2 <= zlen mem ->
  no_nul name -> name <> [] -> no_nul cmd -> cmd <> [] -> no_nul name2 -> name2 <> name ->
  0 < size -> 0 < size2 -> start2 mod 256 = 0 ->
  exists m,
    (h ← bcbp_init base (Some mem) entry_point boot_device;
     h ← bcbp_add_module base h start size (Some name) type (Some cmd);
     bcbp_add_module base h start2 size2 (Some name2) type2 None) = Ret (Some m) /\
    (exists tl, string_at base m (base + 184) = le_bytes 8 start2 ++ tl) /\
    strlen_at base m (base + 184) = Ret 0 /\
    bcbp_find_module base (Some m) (Some name) = Ret None.
Proof.
  intros Hb Hw Hl Hn Hne Hc Hcne Hn2 Hdiff Hsz Hsz2 Hs.
  pose proof (zlen_nonneg name). pose proof (zlen_nonneg cmd). pose proof (zlen_nonneg name2).
  rewrite bcbp_init_layout by (unfold BCBP_HEADER_SIZE; lia). bind_step.
  rewrite add_module_guard by lia.
  destruct (add_first no_platform base entry_point boot_device Hb mem start size type name cmd Hcne ltac:(lia) Hw)
    as (res & rest & -> & Hres & Hrest). bind_step.
  assert (Hsec : base + 224 <= second_string base name cmd <= base + 224 + zlen name + zlen cmd)
    by (unfold second_string; lia).
  unfold one_module at 1. rewrite add_module_guard by lia.
  fold (one_module no_platform base entry_point boot_device start size type name cmd res rest).
  destruct (add_second no_platform base entry_point boot_device start size type name cmd res rest Hb Hres Hn Hc
              start2 size2 type2 name2) as (gap & rest2 & -> & Hgap).
  { rewrite !zlen_app. change (zlen [0]) with 1. lia. }
  { rewrite !zlen_app. change (zlen [0]) with 1. lia. }
  bind_step. eexists; split; [reflexivity|].
  destruct (two_strings no_platform base entry_point boot_device start size type (base + 185 + zlen name) res
    start2 size2 type2 (second_string base name cmd) name2 gap rest2) as [[tl S1] _]; [lia|done..|].
  split_and!; [by exists tl| |].
  - unfold strlen_at. unfold string_at in S1. rewrite S1, (proj2 (Z.ltb_ge (base + 184) base)) by lia.
    cbn [le_bytes app strlen]. by rewrite Hs.
  - rewrite two_find_loop by (done || lia). by rewrite decide_False.
Qed.

Lemma bcbp_second_module_clobbers_witness :
  exists m,
    (h ← bcbp_init 4096 (Some (zeros 300)) 0x100000 0;
     h ← bcbp_add_module 4096 h 0x100000 500 (Some [107; 101]) 1 (Some [114; 111]);
     bcbp_add_module 4096 h 0x200000 700 (Some [105; 110]) 2 None) = Ret (Some m) /\
    (exists tl, string_at 4096 m (4096 + 184) = le_bytes 8 0x200000 ++ tl) /\
    strlen_at 4096 m (4096 + 184) = Ret 0 /\
    bcbp_find_module 4096 (Some m) (Some [107; 101]) = Ret None.
Proof.
  apply (bcbp_second_module_clobbers 4096 (zeros 300) 0x100000 0 0x100000 500 1 [107; 101] [114; 111]
    0x200000 700 2 [105; 110]);
    first [lia | by repeat constructor | by vm_compute].
Defined.
