(* ===== verification/Coreboot.v ===== *)
(** * The coreboot platform layer (src/coreboot/coreboot_platform.c)

    The search for the coreboot table in low memory, the walk over its entries,
    and the queries on what was found (memory map, framebuffer, build strings).
    Physical memory is a function from addresses to bytes; the module's static
    variables are the record [platform], its pointers addresses or [None] for
    NULL.  [coreboot_firmware] plugs the queries into the boot flow of
    [BootFlow.v], whose coreboot answers are otherwise parameters. *)

From S2P Require Import Prelude.
From S2P Require Import PhysMem.
From S2P Require Import BootConfig.
From S2P Require Import Menu.
From S2P Require Import BootFlow.
Import ListNotations.
#[local] Open Scope list_scope.

Definition COREBOOT_TABLE_MAGIC : Z := 0x43425442.
Definition CB_TAG_MEMORY : Z := 0x01.
Definition CB_TAG_VERSION : Z := 0x04.
Definition CB_TAG_EXTRA_VERSION : Z := 0x05.
Definition CB_TAG_BUILD : Z := 0x06.
Definition CB_TAG_COMPILE_TIME : Z := 0x07.
Definition CB_TAG_COMPILER : Z := 0x08.
Definition CB_TAG_ASSEMBLER : Z := 0x0a.
Definition CB_TAG_FRAMEBUFFER : Z := 0x12.
Definition CB_TAG_BOARD_ID : Z := 0x40.

(** ** State *)

Record COREBOOT_SYSINFO := mk_sysinfo {
  version : option Z; extra_version : option Z; build : option Z; compile_time : option Z;
  compiler : option Z; assembler : option Z; board_id : Z }.

Record platform := mk_platform {
  cb_header : option Z; cb_framebuffer : option Z; cb_memory_map : option Z;
  cb_memory_map_entries : Z; cb_sysinfo : COREBOOT_SYSINFO }.

(** The static variables before the first call. *)
Definition cb_start : platform :=
  mk_platform None None None 0 (mk_sysinfo None None None None None None 0).

Definition set_header (st : platform) (h : option Z) : platform :=
  mk_platform h (cb_framebuffer st) (cb_memory_map st) (cb_memory_map_entries st) (cb_sysinfo st).

Definition set_info (st : platform) (i : COREBOOT_SYSINFO) : platform :=
  mk_platform (cb_header st) (cb_framebuffer st) (cb_memory_map st) (cb_memory_map_entries st) i.

Section Platform.
Context (mem : phys).
#[local] Abbreviation fetch := (fetch mem).
#[local] Abbreviation fetch_le := (fetch_le mem).

(** ** Finding the table *)

(** [for (i = 0; i < n; i++) checksum += ptr[off + i]], in 32 bits, and
    [(UINT8)(0x100 - (checksum & 0xFF))].  The index is a 32-bit sum. *)
Definition cb_checksum (ptr off n : Z) : Z :=
  let sum := for_loop 0 n (fun i s => u32 (s + mem (ptr + u32 (off + i)))) 0 in
  u8 (0x100 - (sum &&& 0xFF)).

Definition hdr_magic (h : Z) : Z := fetch_le h 4.
Definition hdr_header_bytes (h : Z) : Z := fetch_le (h + 4) 4.
Definition hdr_header_checksum (h : Z) : Z := fetch_le (h + 8) 4.
Definition hdr_table_bytes (h : Z) : Z := fetch_le (h + 12) 4.
Definition hdr_table_checksum (h : Z) : Z := fetch_le (h + 16) 4.
Definition hdr_entries (h : Z) : Z := h + 20.

(** The checks on one candidate: [true] is the [break]. *)
Definition table_valid (h : Z) : bool :=
  if hdr_magic h =? COREBOOT_TABLE_MAGIC then
    if negb (cb_checksum h 0 (hdr_header_bytes h) =? hdr_header_checksum h) then false
    else if negb (cb_checksum h (hdr_header_bytes h) (hdr_table_bytes h) =? hdr_table_checksum h)
    then false
    else true
  else false.

(** [for (addr = 0x500; addr < 0x1000; addr += 16)]: the value the loop leaves
    in [cb_header]. *)
Fixpoint find_table (fuel : nat) (addr : Z) (header : option Z) : option Z :=
  match fuel with
  | O => header
  | S fuel =>
      if addr <? 0x1000 then
        if table_valid addr then Some addr else find_table fuel (u32 (addr + 16)) (Some addr)
      else header
  end.

Definition scan_fuel : nat := 177.

(** ** Walking the entries *)

Definition entry_tag (e : Z) : Z := fetch_le e 4.
Definition entry_size (e : Z) : Z := fetch_le (e + 4) 4.

Definition sizeof_entry : Z := 8.
Definition sizeof_mem_entry : Z := 24.

Definition parse_entry (st : platform) (entry : Z) : platform :=
  let tag := entry_tag entry in
  let p := Some (entry + sizeof_entry) in
  let i := cb_sysinfo st in
  if tag =? CB_TAG_MEMORY then
    mk_platform (cb_header st) (cb_framebuffer st) p (entry_size entry / sizeof_mem_entry) i
  else if tag =? CB_TAG_FRAMEBUFFER then
    mk_platform (cb_header st) p (cb_memory_map st) (cb_memory_map_entries st) i
  else if tag =? CB_TAG_VERSION then
    set_info st (mk_sysinfo p (extra_version i) (build i) (compile_time i) (compiler i) (assembler i) (board_id i))
  else if tag =? CB_TAG_EXTRA_VERSION then
    set_info st (mk_sysinfo (version i) p (build i) (compile_time i) (compiler i) (assembler i) (board_id i))
  else if tag =? CB_TAG_BUILD then
    set_info st (mk_sysinfo (version i) (extra_version i) p (compile_time i) (compiler i) (assembler i) (board_id i))
  else if tag =? CB_TAG_COMPILE_TIME then
    set_info st (mk_sysinfo (version i) (extra_version i) (build i) p (compiler i) (assembler i) (board_id i))
  else if tag =? CB_TAG_COMPILER then
    set_info st (mk_sysinfo (version i) (extra_version i) (build i) (compile_time i) p (assembler i) (board_id i))
  else if tag =? CB_TAG_ASSEMBLER then
    set_info st (mk_sysinfo (version i) (extra_version i) (build i) (compile_time i) (compiler i) p (board_id i))
  else if tag =? CB_TAG_BOARD_ID then
    set_info st (mk_sysinfo (version i) (extra_version i) (build i) (compile_time i) (compiler i) (assembler i)
                            (fetch_le (entry + sizeof_entry) 2))
  else st.

(** The loop over at most [n] entries. *)
Fixpoint parse_loop (n : nat) (st : platform) (entry : Z) : platform :=
  match n with
  | O => st
  | S n => if entry_tag entry =? 0 then st
           else parse_loop n (parse_entry st entry) (entry + entry_size entry)
  end.

Definition max_entries : nat := 128.

Definition CorebootParseTable (st : platform) : bool * platform :=
  match cb_header st with
  | None => (false, st)
  | Some h => (true, parse_loop max_entries st (hdr_entries h))
  end.

Definition CorebootPlatformInit (st : platform) : bool * platform :=
  let st := set_header st (find_table scan_fuel 0x500 (cb_header st)) in
  match cb_header st with
  | None => (false, st)
  | Some _ => CorebootParseTable st
  end.

(** ** Queries *)

Definition CorebootIsPresent (st : platform) : bool :=
  match cb_header st with Some h => hdr_magic h =? COREBOOT_TABLE_MAGIC | None => false end.

Definition CorebootGetSysinfo (st : platform) : COREBOOT_SYSINFO := cb_sysinfo st.
Definition CorebootGetBuildInfo (st : platform) : option Z := build (cb_sysinfo st).
Definition CorebootGetCompileTime (st : platform) : option Z := compile_time (cb_sysinfo st).

(** [cb_memory_map[i]] and the framebuffer entry, as the code reads them. *)
Definition mem_entry (p i : Z) : COREBOOT_MEM_ENTRY :=
  let e := p + sizeof_mem_entry * i in
  mk_mem (fetch_le (e + 16) 4) (fetch_le e 8) (fetch_le (e + 8) 8).

Definition fb_entry (p : Z) : COREBOOT_FB :=
  mk_fb (fetch_le p 8) (fetch_le (p + 8) 4) (fetch_le (p + 12) 4) (fetch_le (p + 20) 1)
        (fetch_le (p + 16) 4).

Definition mem_entries (p n : Z) : list COREBOOT_MEM_ENTRY := mem_entry p <$> seqZ 0 n.

(** The pointer and [*Count] together: the entries they designate. *)
Definition CorebootGetMemoryMap (st : platform) : option (list COREBOOT_MEM_ENTRY) :=
  match cb_memory_map st with
  | Some p => Some (mem_entries p (cb_memory_map_entries st))
  | None => None
  end.

Definition CorebootGetFramebuffer (st : platform) : option COREBOOT_FB :=
  fb_entry <$> cb_framebuffer st.

Definition CorebootGetTotalMemory (st : platform) : Z :=
  match cb_memory_map st with
  | None => 0
  | Some p =>
      for_loop 0 (cb_memory_map_entries st)
        (fun i total => let e := mem_entry p i in
           if mem_type e =? CB_MEM_RAM then u64 (total + mem_size e) else total) 0
  end.

(** [Addr] and [Size] tell whether the pointers are not NULL. *)
Definition CorebootFindLargestMemoryRegion (st : platform) (Addr Size : bool) : option (Z * Z) :=
  match cb_memory_map st with
  | Some p =>
      if negb Addr || negb Size then None else
      let '(largest_addr, largest_size) :=
        for_loop 0 (cb_memory_map_entries st)
          (fun i best => let e := mem_entry p i in
             if (mem_type e =? CB_MEM_RAM) && (snd best <? mem_size e)
             then (mem_addr e, mem_size e) else best) (0, 0) in
      if largest_size =? 0 then None else Some (largest_addr, largest_size)
  | None => None
  end.

Definition CorebootInitGraphics (st : platform) : bool :=
  match cb_framebuffer st with None => false | Some _ => true end.

Definition CorebootGetFramebufferAddress (st : platform) : Z :=
  match cb_framebuffer st with Some p => physical_address (fb_entry p) | None => 0 end.

(** [*Width], [*Height] and [*Bpp], each written when its pointer is not NULL;
    [None] is the FALSE result. *)
Definition CorebootGetFramebufferInfo (st : platform) (Width Height Bpp : bool)
  : option (option Z * option Z * option Z) :=
  match cb_framebuffer st with
  | None => None
  | Some p =>
      let fb := fb_entry p in
      Some (if Width then Some (x_resolution fb) else None,
            if Height then Some (y_resolution fb) else None,
            if Bpp then Some (bits_per_pixel fb) else None)
  end.

(** What [CorebootInitPci], [..Storage], [..Usb], [..Network], [..Tpm] and
    [CorebootValidateFirmware] return, and the two table addresses. *)
Definition CorebootInitPci : bool := true.
Definition CorebootInitStorage : bool := true.
Definition CorebootInitUsb : bool := true.
Definition CorebootInitNetwork : bool := true.
Definition CorebootInitTpm : bool := true.
Definition CorebootValidateFirmware : bool := true.
Definition CorebootGetAcpiRsdp : option Z := None.
Definition CorebootGetSmbiosEntryPoint : option Z := None.

(** The boot flow's firmware with the coreboot answers this module gives. *)
Definition coreboot_firmware (fw : firmware) : firmware :=
  let r := CorebootPlatformInit cb_start in
  mk_fw (fw_loaded_image fw) (fst r) (fw_root fw) (fw_line_alloc fw) (fw_vars fw) (fw_key fw)
        (fw_linux_load_kernel fw) (fw_towlower fw) (fw_inputs fw) (fw_boot fw) (fw_sha512 fw)
        (fw_buffer fw) (CorebootGetMemoryMap (snd r)) (CorebootGetFramebuffer (snd r))
        (CorebootGetTotalMemory (snd r)) (fw_map_execute fw) (fw_map_exit fw) (fw_exit fw) (fw_gop fw)
        (fw_lingers fw).

(** ** Tables in memory *)

#[local] Abbreviation holds := (holds mem).
#[local] Abbreviation fetch_holds := (fetch_holds mem).

(** A table entry: its tag and what follows its head. *)
Definition render_entry (e : Z * bytes) : bytes :=
  le_bytes 4 (fst e) ++ le_bytes 4 (8 + zlen (snd e)) ++ snd e.

Definition render_entries (es : list (Z * bytes)) : bytes := concat (render_entry <$> es).

Definition entry_ok (e : Z * bytes) : Prop := 0 < fst e < 2 ^ 32 /\ 8 + zlen (snd e) < 2 ^ 32.

(** Where the payload of the last entry with a tag is. *)
Fixpoint last_at (tag a : Z) (es : list (Z * bytes)) : option (Z * bytes) :=
  match es with
  | [] => None
  | e :: es =>
      match last_at tag (a + (8 + zlen (snd e))) es with
      | Some r => Some r
      | None => if fst e =? tag then Some (a + 8, snd e) else None
      end
  end.

Definition ptr_at (tag a : Z) (es : list (Z * bytes)) (old : option Z) : option Z :=
  match last_at tag a es with Some (p, _) => Some p | None => old end.

(** The state after the entries [es] at [a]. *)
Definition after (st : platform) (a : Z) (es : list (Z * bytes)) : platform :=
  let i := cb_sysinfo st in
  mk_platform (cb_header st)
    (ptr_at CB_TAG_FRAMEBUFFER a es (cb_framebuffer st))
    (ptr_at CB_TAG_MEMORY a es (cb_memory_map st))
    (match last_at CB_TAG_MEMORY a es with
     | Some (_, l) => (8 + zlen l) / sizeof_mem_entry | None => cb_memory_map_entries st end)
    (mk_sysinfo (ptr_at CB_TAG_VERSION a es (version i))
       (ptr_at CB_TAG_EXTRA_VERSION a es (extra_version i))
       (ptr_at CB_TAG_BUILD a es (build i))
       (ptr_at CB_TAG_COMPILE_TIME a es (compile_time i))
       (ptr_at CB_TAG_COMPILER a es (compiler i))
       (ptr_at CB_TAG_ASSEMBLER a es (assembler i))
       (match last_at CB_TAG_BOARD_ID a es with
        | Some (p, _) => fetch_le p 2 | None => board_id i end)).

Lemma render_entry_fields a e : entry_ok e -> holds a (render_entry e) ->
  entry_tag a = fst e /\ entry_size a = 8 + zlen (snd e).
Proof.
  intros [Ht Hs] H. unfold render_entry in H. rewrite !holds_app in H. destruct H as (H1 & H2 & _).
  unfold zlen at 1 in H2. rewrite length_le_bytes in H2. pose proof (zlen_nonneg (snd e)).
  split; [apply (fetch_holds a 4)|apply (fetch_holds (a + 4) 4)]; try done; cbn; lia.
Qed.

Lemma zlen_render_entry e : zlen (render_entry e) = 8 + zlen (snd e).
Proof. unfold render_entry. rewrite !zlen_app. unfold zlen. rewrite !length_le_bytes. lia. Qed.

Lemma after_nil st a : after st a [] = st.
Proof. by destruct st as [? ? ? ? []]. Qed.

(** One entry and then the others. *)
Lemma after_cons st a e es : entry_tag a = fst e -> entry_size a = 8 + zlen (snd e) ->
  after (parse_entry st a) (a + (8 + zlen (snd e))) es = after st a (e :: es).
Proof.
  intros Ht Hs. unfold after, ptr_at. cbn [last_at]. unfold parse_entry. rewrite Ht, Hs.
  set (a' := a + (8 + zlen (snd e))).
  repeat match goal with
  | |- context [if fst e =? ?t then _ else _] =>
      destruct (Z.eqb_spec (fst e) t) as [E|?]; [rewrite ?E; clear E|]
  end; repeat match goal with |- context [?t =? ?t'] =>
      let b := eval cbv in (t =? t') in change (t =? t') with b; cbv iota end;
  cbn [set_info cb_header cb_framebuffer cb_memory_map cb_memory_map_entries cb_sysinfo version
       extra_version build compile_time compiler assembler board_id];
  repeat f_equal; match goal with |- context [last_at ?t a' es] => destruct (last_at t a' es) as [[? ?]|] end;
  reflexivity.
Qed.

Lemma parse_loop_end n st e : entry_tag e = 0 -> parse_loop n st e = st.
Proof. intros H. destruct n; cbn [parse_loop]; by rewrite ?H. Qed.

Lemma parse_loop_entries es : forall n st a,
  Forall entry_ok es -> holds a (render_entries es) -> (length es < n)%nat ->
  entry_tag (a + zlen (render_entries es)) = 0 ->
  parse_loop n st a = after st a es.
Proof.
  induction es as [|e es IH]; intros [|n] st a Hok H Hn Hend; cbn [length] in Hn; try lia.
  - unfold render_entries in Hend. cbn in Hend. rewrite Z.add_0_r in Hend.
    cbn [parse_loop]. rewrite Hend, after_nil. done.
  - apply Forall_cons in Hok as [He Hok].
    unfold render_entries in H, Hend. cbn [fmap list_fmap concat] in H, Hend.
    apply holds_app in H as [H1 H2]. rewrite zlen_app, zlen_render_entry, Z.add_assoc in Hend.
    rewrite zlen_render_entry in H2.
    destruct (render_entry_fields a e He H1) as [Ht Hs]. cbn [parse_loop]. rewrite Ht.
    destruct He as [He _]. destruct (Z.eqb_spec (fst e) 0); [lia|]. rewrite Hs.
    rewrite IH by (try done; lia). by apply after_cons.
Qed.

(** ** Checksums *)

Definition sum_bytes (l : bytes) : Z := foldr Z.add 0 l.

Lemma sum_bytes_app l l' : sum_bytes (l ++ l') = sum_bytes l + sum_bytes l'.
Proof. induction l as [|b l IH]; cbn [app]; [done|]. unfold sum_bytes in *. cbn. lia. Qed.

Lemma checksum_fold ptr off n : forall k s, 0 <= off + k -> off + k + Z.of_nat n <= 2 ^ 32 ->
  eqm 256 (fold_left (fun s i => u32 (s + mem (ptr + u32 (off + i)))) (seqZ k (Z.of_nat n)) s)
          (s + sum_bytes (fetch (ptr + off + k) (Z.of_nat n))).
Proof.
  unfold eqm. induction n as [|n IH]; intros k s Hk Hn.
  { change (sum_bytes (fetch _ _)) with 0. cbn [fold_left seqZ]. by rewrite Z.add_0_r. }
  unfold fetch. rewrite Nat2Z.inj_succ in *. rewrite (seqZ_cons k), Z.pred_succ by lia.
  cbn [fold_left]. rewrite IH by lia.
  replace (ptr + off + Z.succ k) with (Z.succ (ptr + off + k)) by lia.
  rewrite (wrap_small 32 (off + k)) by (split; lia).
  unfold fetch, wrap.
  rewrite Zplus_mod, Z.mod_mod_divide by (exists (2 ^ 24); reflexivity). rewrite <- Zplus_mod.
  rewrite (Z.add_assoc ptr). rewrite (seqZ_cons (ptr + off + k)), Z.pred_succ by lia.
  cbn [fmap list_fmap]. change (sum_bytes (?b :: ?l)) with (b + sum_bytes l). f_equal. lia.
Qed.

(** The checksum is the complement, modulo 256, of the sum of the bytes. *)
Lemma cb_checksum_sum ptr off n : 0 <= off -> 0 <= n -> off + n <= 2 ^ 32 ->
  cb_checksum ptr off n = - sum_bytes (fetch (ptr + off) n) mod 256.
Proof.
  intros Ho Hn Hm. unfold cb_checksum, for_loop.
  pose proof (checksum_fold ptr off (Z.to_nat n) 0 0) as H. unfold eqm in H.
  rewrite !Z2Nat.id, !Z.add_0_r, Z.add_0_l in H by lia.
  change 0xFF with (Z.ones 8). rewrite Z.land_ones by lia. change (2 ^ 8) with 256.
  rewrite H by lia. unfold wrap. change (2 ^ 8) with 256.
  rewrite Zminus_mod, Zmod_mod, <- Zminus_mod. change 0x100 with (1 * 256).
  replace (1 * 256 - _) with (- sum_bytes (fetch (ptr + off) n) + 1 * 256) by lia. by rewrite Z_mod_plus_full.
Qed.

(** ** A table image *)

Definition render_header (c : Z) (body : bytes) : bytes :=
  le_bytes 4 COREBOOT_TABLE_MAGIC ++ le_bytes 4 20 ++ le_bytes 4 c ++
  le_bytes 4 (zlen body) ++ le_bytes 4 (- sum_bytes body mod 256).

Definition render_body (es : list (Z * bytes)) : bytes := render_entries es ++ zeros 8.

(** The value the header's checksum field needs: the sum the code compares it
    with includes the field itself. *)
Definition header_checksum (body : bytes) : Z :=
  - (sum_bytes (render_header 0 body) / 2) mod 128.

Definition render_table (es : list (Z * bytes)) : bytes :=
  let body := render_body es in render_header (header_checksum body) body ++ body.

Lemma sum_le_bytes_small c : 0 <= c < 256 -> sum_bytes (le_bytes 4 c) = c.
Proof.
  intros Hc. cbn [le_bytes]. rewrite Z.mod_small, Z.div_small by lia.
  change (sum_bytes _) with (c + (0 + (0 + (0 + 0)))). lia.
Qed.

Lemma sum_header c body : 0 <= c < 256 ->
  sum_bytes (render_header c body) = sum_bytes (render_header 0 body) + c.
Proof.
  intros Hc. unfold render_header. rewrite !sum_bytes_app, (sum_le_bytes_small c) by done.
  rewrite (sum_le_bytes_small 0) by lia. lia.
Qed.

Lemma zlen_header c body : zlen (render_header c body) = 20.
Proof. unfold render_header, zlen. by rewrite !length_app, !length_le_bytes. Qed.

(** The header's fields, wherever it lies. *)
Lemma header_fields a c body : 0 <= c < 256 -> zlen body < 2 ^ 32 -> holds a (render_header c body) ->
  hdr_magic a = COREBOOT_TABLE_MAGIC /\ hdr_header_bytes a = 20 /\ hdr_header_checksum a = c /\
  hdr_table_bytes a = zlen body /\ hdr_table_checksum a = (- sum_bytes body) mod 256.
Proof.
  intros Hc Hb H. unfold render_header in H. rewrite !holds_app in H.
  assert (L : forall v, zlen (le_bytes 4 v) = 4) by (intros v; unfold zlen; by rewrite length_le_bytes).
  rewrite !L in H. rewrite <- !Z.add_assoc in H. cbn [Z.add Pos.add Pos.succ Pos.add_carry] in H.
  destruct H as (H1 & H2 & H3 & H4 & H5). pose proof (zlen_nonneg body).
  pose proof (Z.mod_pos_bound (- sum_bytes body) 256 ltac:(lia)).
  unfold COREBOOT_TABLE_MAGIC in *.
  split_and!; eapply (fetch_holds _ 4); eauto; change (256 ^ Z.of_nat 4) with (2 ^ 32); lia.
Qed.

Lemma table_valid_iff a c body : 0 <= c < 256 -> zlen body + 20 < 2 ^ 32 ->
  holds a (render_header c body ++ body) ->
  (table_valid a = true <-> (- (sum_bytes (render_header 0 body) + c)) mod 256 = c).
Proof.
  intros Hc Hb H. apply holds_app in H as [H1 H2]. rewrite zlen_header in H2.
  destruct (header_fields a c body Hc ltac:(lia) H1) as (E1 & E2 & E3 & E4 & E5).
  unfold table_valid. rewrite E1, E2, E3, E4, E5, Z.eqb_refl. pose proof (zlen_nonneg body).
  rewrite !cb_checksum_sum by lia. rewrite H2, Z.eqb_refl, Z.add_0_r.
  unfold holds in H1. rewrite zlen_header in H1. rewrite H1, sum_header by done. cbn [negb].
  destruct (Z.eqb_spec (- (sum_bytes (render_header 0 body) + c) mod 256) c); cbn; naive_solver.
Qed.

Lemma table_valid_render a es : zlen (render_body es) + 20 < 2 ^ 32 -> holds a (render_table es) ->
  Z.even (sum_bytes (render_header 0 (render_body es))) = true -> table_valid a = true.
Proof.
  intros Hb H He. unfold render_table in H. set (body := render_body es) in *. cbv zeta in H.
  pose proof (Z.mod_pos_bound (- (sum_bytes (render_header 0 body) / 2)) 128 ltac:(lia)) as Hc.
  apply (table_valid_iff a (header_checksum body) body); [unfold header_checksum; lia|lia|done|].
  apply Z.even_spec in He as [k He]. unfold header_checksum in *. rewrite He in *.
  rewrite Z.mul_comm, Z.div_mul in * by lia. clear -Hc. dlia.
Qed.

(** ** The search *)

Lemma scan_finds k : forall fuel addr h, 0 <= addr -> (k < fuel)%nat ->
  addr + 16 * Z.of_nat k < 0x1000 -> table_valid (addr + 16 * Z.of_nat k) = true ->
  (forall j, (j < k)%nat -> table_valid (addr + 16 * Z.of_nat j) = false) ->
  find_table fuel addr h = Some (addr + 16 * Z.of_nat k).
Proof.
  induction k as [|k IH]; intros [|fuel] addr h Ha Hf Hlt Hv Hn; try lia; cbn [find_table];
    destruct (Z.ltb_spec addr 0x1000); try lia.
  - rewrite Z.add_0_r in Hv. by rewrite Hv, Z.add_0_r.
  - pose proof (Hn 0%nat ltac:(lia)) as H0. rewrite Z.add_0_r in H0. rewrite H0.
    rewrite wrap_small by (split; lia).
    replace (addr + 16 * Z.of_nat (S k)) with ((addr + 16) + 16 * Z.of_nat k) in * by lia.
    rewrite IH; try done; try lia. intros j Hj. specialize (Hn (S j) ltac:(lia)).
    by replace (addr + 16 * Z.of_nat (S j)) with ((addr + 16) + 16 * Z.of_nat j) in Hn by lia.
Qed.

(** Whatever memory holds, the loop leaves a candidate's address behind. *)
Lemma scan_some n : forall fuel addr h, addr = 0x1000 - 16 * Z.of_nat n -> 0 <= addr ->
  (n <= fuel)%nat -> (n = 0%nat -> is_Some h) ->
  exists a, find_table fuel addr h = Some a /\
    ((exists j, (j < n)%nat /\ a = addr + 16 * Z.of_nat j /\ table_valid a = true) \/
     (forall j, (j < n)%nat -> table_valid (addr + 16 * Z.of_nat j) = false) /\
     ((0 < n)%nat -> a = 0xFF0)).
Proof.
  induction n as [|n IH]; intros fuel addr h -> Ha Hf Hh.
  - destruct (Hh eq_refl) as [x ->]. exists x. split; [|right; split; lia].
    destruct fuel; [done|]. cbn [find_table]. by rewrite Z.mul_0_r, Z.sub_0_r.
  - destruct fuel as [|fuel]; [lia|]. cbn [find_table].
    set (addr := 0x1000 - 16 * Z.of_nat (S n)) in *.
    destruct (Z.ltb_spec addr 0x1000); [|lia].
    destruct (table_valid addr) eqn:E.
    { exists addr. split; [done|]. left. exists 0%nat. split_and!; [lia|lia|done]. }
    rewrite wrap_small by (split; lia).
    destruct (IH fuel (addr + 16) (Some addr)) as (a & Hs & Hor); [lia|lia|lia|eauto|].
    exists a. split; [done|]. destruct Hor as [(j & ? & -> & ?)|[Hall H0]].
    { left. exists (S j). split_and!; [lia|lia|done]. }
    right. split.
    + intros [|j] Hj; [by rewrite Z.add_0_r|]. specialize (Hall j ltac:(lia)).
      by replace (addr + 16 * Z.of_nat (S j)) with ((addr + 16) + 16 * Z.of_nat j) by lia.
    + intros _. destruct n as [|n]; [|apply H0; lia].
      destruct fuel; cbn [find_table] in Hs; [injection Hs as <-; lia|].
      destruct (Z.ltb_spec (addr + 16) 0x1000); [lia|]. injection Hs as <-. lia.
Qed.

Lemma init_scan st : exists a, CorebootPlatformInit st =
    (true, parse_loop max_entries (set_header st (Some a)) (hdr_entries a)) /\
  ((exists j, (j < 176)%nat /\ a = 0x500 + 16 * Z.of_nat j /\ table_valid a = true) \/
   (forall j, (j < 176)%nat -> table_valid (0x500 + 16 * Z.of_nat j) = false) /\ a = 0xFF0).
Proof.
  destruct (scan_some 176 scan_fuel 0x500 (cb_header st)) as (a & Hs & Hor); [lia|lia|unfold scan_fuel; lia|lia|].
  exists a. unfold CorebootPlatformInit. rewrite Hs. split; [done|].
  destruct Hor as [|[? H]]; [by left|]. right. split; [done|]. apply H. lia.
Qed.

(** ** Entries in the image *)

Definition last_payload (tag : Z) (es : list (Z * bytes)) : option bytes :=
  last (snd <$> filter (fun e => fst e = tag) es).

Lemma last_at_payload tag es : forall a, last_payload tag es = snd <$> last_at tag a es.
Proof.
  induction es as [|e es IH]; intros a; [done|]. unfold last_payload in *. rewrite filter_cons.
  cbn [last_at]. specialize (IH (a + (8 + zlen (snd e)))).
  destruct (decide (fst e = tag)) as [E|E].
  - rewrite fmap_cons, last_cons, IH.
    destruct (last_at tag _ es) as [[? ?]|]; [done|]. apply Z.eqb_eq in E. by rewrite E.
  - rewrite IH. destruct (last_at tag _ es) as [[? ?]|]; [done|].
    destruct (Z.eqb_spec (fst e) tag); [by congruence|done].
Qed.

Lemma last_at_holds tag es : forall a p l, holds a (render_entries es) ->
  last_at tag a es = Some (p, l) -> holds p l.
Proof.
  induction es as [|e es IH]; intros a p l H E; [done|]. cbn [last_at] in E.
  unfold render_entries in H. cbn [fmap list_fmap concat] in H. apply holds_app in H as [H1 H2].
  rewrite zlen_render_entry in H2.
  destruct (last_at tag _ es) as [[? ?]|] eqn:El; [by eapply IH; eauto; congruence|].
  destruct (fst e =? tag); [|done]. injection E as <- <-.
  unfold render_entry in H1. rewrite !holds_app in H1. destruct H1 as (_ & _ & H1).
  unfold zlen in H1. rewrite !length_le_bytes in H1. by rewrite <- Z.add_assoc in H1.
Qed.

(** Memory-map and framebuffer payloads. *)
Definition render_mem (e : COREBOOT_MEM_ENTRY) : bytes :=
  le_bytes 8 (mem_addr e) ++ le_bytes 8 (mem_size e) ++ le_bytes 4 (mem_type e) ++ zeros 4.

Definition render_map (m : list COREBOOT_MEM_ENTRY) : bytes := concat (render_mem <$> m).

Definition mem_entry_ok (e : COREBOOT_MEM_ENTRY) : Prop :=
  in_u 32 (mem_type e) /\ in_u 64 (mem_addr e) /\ in_u 64 (mem_size e).

Definition render_fb (fb : COREBOOT_FB) : bytes :=
  le_bytes 8 (physical_address fb) ++ le_bytes 4 (x_resolution fb) ++ le_bytes 4 (y_resolution fb) ++
  le_bytes 4 (bytes_per_line fb) ++ le_bytes 1 (bits_per_pixel fb).

Definition fb_ok (fb : COREBOOT_FB) : Prop :=
  in_u 64 (physical_address fb) /\ in_u 32 (x_resolution fb) /\ in_u 32 (y_resolution fb) /\
  in_u 32 (bytes_per_line fb) /\ in_u 8 (bits_per_pixel fb).

Lemma zlen_render_mem e : zlen (render_mem e) = 24.
Proof. unfold render_mem, zlen. by rewrite !length_app, !length_le_bytes. Qed.

(** Bring the parts of a rendered record to their offsets. *)
Ltac holds_parts H :=
  rewrite ?holds_app in H; unfold zlen in H; rewrite ?length_le_bytes in H;
  rewrite <- ?Z.add_assoc in H; cbn [Z.of_nat Pos.of_succ_nat Pos.succ Z.add Pos.add Pos.add_carry] in H.

Lemma mem_entry_holds p e : mem_entry_ok e -> holds p (render_mem e) -> mem_entry p 0 = e.
Proof.
  intros (Ht & Ha & Hs) H. unfold render_mem in H. holds_parts H. destruct H as (H1 & H2 & H3 & _).
  unfold mem_entry. rewrite Z.mul_0_r, Z.add_0_r. destruct e as [t a s]; cbn [mem_type mem_addr mem_size] in *.
  f_equal; [eapply (fetch_holds _ 4)|eapply (fetch_holds _ 8)|eapply (fetch_holds _ 8)]; eauto.
Qed.

Lemma mem_entries_holds m : forall p, Forall mem_entry_ok m -> holds p (render_map m) ->
  mem_entries p (zlen m) = m.
Proof.
  induction m as [|e m IH]; intros p Hok H; [done|]. apply Forall_cons in Hok as [He Hok].
  unfold render_map in H. cbn [fmap list_fmap concat] in H. apply holds_app in H as [H1 H2].
  rewrite zlen_render_mem in H2. specialize (IH _ Hok H2).
  unfold mem_entries in *. change (zlen (e :: m)) with (zlen ([e] ++ m)). rewrite zlen_app.
  change (zlen [e]) with 1. pose proof (zlen_nonneg m). rewrite seqZ_cons by lia. cbn [fmap list_fmap].
  rewrite (mem_entry_holds p e) by done. f_equal. rewrite <- IH at 2.
  replace (Z.pred (1 + zlen m)) with (zlen m) by lia. change (Z.succ 0) with (1 + 0).
  rewrite <- (fmap_add_seqZ 1 0 (zlen m)), <- list_fmap_compose.
  apply list_fmap_ext. intros i x _. unfold mem_entry, sizeof_mem_entry. cbn [compose].
  replace (p + 24 * (1 + x)) with (p + 24 + 24 * x) by lia. reflexivity.
Qed.

Lemma zlen_render_map m : zlen (render_map m) = 24 * zlen m.
Proof.
  induction m as [|e m IH]; [done|]. unfold render_map in *. cbn [fmap list_fmap concat].
  rewrite zlen_app, zlen_render_mem, IH. unfold zlen. cbn [length]. lia.
Qed.

Lemma fb_entry_holds p fb rest : fb_ok fb -> holds p (render_fb fb ++ rest) -> fb_entry p = fb.
Proof.
  intros (H1 & H2 & H3 & H4 & H5) H. apply holds_app in H as [H _]. unfold render_fb in H. holds_parts H.
  destruct H as (E1 & E2 & E3 & E4 & E5). destruct fb as [pa x y bpp bpl]; unfold fb_entry; cbn in *.
  f_equal; [eapply (fetch_holds _ 8)|eapply (fetch_holds _ 4)|eapply (fetch_holds _ 4)
           |eapply (fetch_holds _ 1)|eapply (fetch_holds _ 4)]; eauto.
Qed.

(** ** Properties *)

(** The hypotheses on a table image that lies at [a]. *)
Record table_at (a : Z) (es : list (Z * bytes)) : Prop := {
  ta_entries : Forall entry_ok es;
  ta_count : (length es < max_entries)%nat;
  ta_size : zlen (render_body es) + 20 < 2 ^ 32;
  ta_even : Z.even (sum_bytes (render_header 0 (render_body es))) = true;
  ta_place : exists k, a = 0x500 + 16 * Z.of_nat k /\ a < 0x1000 /\
    forall j, (j < k)%nat -> table_valid (0x500 + 16 * Z.of_nat j) = false;
  ta_holds : holds a (render_table es) }.

Lemma init_table a es : table_at a es ->
  CorebootPlatformInit cb_start = (true, after (set_header cb_start (Some a)) (a + 20) es) /\
  table_valid a = true /\ holds (a + 20) (render_entries es).
Proof.
  intros [Hok Hn Hs He (k & -> & Hlt & Hk) H].
  pose proof (table_valid_render _ es Hs H He) as Hv.
  unfold CorebootPlatformInit. rewrite (scan_finds k) by (try done; unfold scan_fuel; lia).
  cbn [set_header cb_header]. unfold CorebootParseTable. cbn [set_header cb_header].
  unfold render_table in H. apply holds_app in H as [_ H]. rewrite zlen_header in H.
  unfold render_body in H. apply holds_app in H as [H Hz].
  split; [|done]. f_equal. apply parse_loop_entries; [done|done|done|].
  change (zeros 8) with (le_bytes 4 0 ++ zeros 4) in Hz. apply holds_app in Hz as [Hz _].
  by apply (fetch_holds _ 4).
Qed.

(** C7.  A coreboot table that lies on a 16-byte boundary of the searched range, with
    the checksums the code expects, is found and read back: the memory map and
    the framebuffer the queries return are those that were written (an entry's
    length counts its 8-byte head, and the division by 24 drops it), a missing
    entry leaves its pointer NULL, and the build string is where its entry put it. *)
Theorem coreboot_table_roundtrip a es : table_at a es ->
  let r := CorebootPlatformInit cb_start in
  fst r = true /\ CorebootIsPresent (snd r) = true /\
  (forall m, Forall mem_entry_ok m -> last_payload CB_TAG_MEMORY es = Some (render_map m) ->
     CorebootGetMemoryMap (snd r) = Some m) /\
  (last_payload CB_TAG_MEMORY es = None -> CorebootGetMemoryMap (snd r) = None) /\
  (forall fb rest, fb_ok fb -> last_payload CB_TAG_FRAMEBUFFER es = Some (render_fb fb ++ rest) ->
     CorebootGetFramebuffer (snd r) = Some fb) /\
  (last_payload CB_TAG_FRAMEBUFFER es = None -> CorebootGetFramebuffer (snd r) = None) /\
  (forall s, last_payload CB_TAG_BUILD es = Some s ->
     exists p, CorebootGetBuildInfo (snd r) = Some p /\ holds p s).
Proof.
  intros Ht. destruct (init_table a es Ht) as (E & Hv & H). cbv zeta. rewrite E. cbn [fst snd].
  unfold CorebootGetMemoryMap, CorebootGetFramebuffer, CorebootGetBuildInfo, after, ptr_at.
  cbn [set_header cb_header cb_framebuffer cb_memory_map cb_memory_map_entries cb_sysinfo cb_start build].
  rewrite !(last_at_payload _ es (a + 20)). split_and!; [done| | | | | |].
  - unfold CorebootIsPresent. cbn [cb_header]. unfold table_valid in Hv.
    by destruct (hdr_magic a =? COREBOOT_TABLE_MAGIC).
  - intros m Hm El. destruct (last_at CB_TAG_MEMORY _ es) as [[p l]|] eqn:Ea; [|done].
    injection El as ->. rewrite zlen_render_map. pose proof (zlen_nonneg m).
    replace ((8 + 24 * zlen m) / sizeof_mem_entry) with (zlen m) by (unfold sizeof_mem_entry; dlia).
    rewrite mem_entries_holds; [done|done|]. by apply (last_at_holds _ _ _ _ _ H Ea).
  - intros El. by destruct (last_at CB_TAG_MEMORY _ es) as [[p l]|].
  - intros fb rest Hfb El. destruct (last_at CB_TAG_FRAMEBUFFER _ es) as [[p l]|] eqn:Ea; [|done].
    injection El as ->. cbn [fmap option_fmap option_map].
    rewrite (fb_entry_holds p fb rest); [done|done|]. by apply (last_at_holds _ _ _ _ _ H Ea).
  - intros El. by destruct (last_at CB_TAG_FRAMEBUFFER _ es) as [[p l]|].
  - intros s El. destruct (last_at CB_TAG_BUILD _ es) as [[p l]|] eqn:Ea; [|done].
    injection El as ->. exists p. split; [done|]. by apply (last_at_holds _ _ _ _ _ H Ea).
Qed.

(** The header's checksum field is part of the bytes it is compared with, so a
    header whose other bytes have an odd sum is rejected whatever value the
    field has. *)
Theorem odd_header_rejected a c body : 0 <= c < 2 ^ 32 -> zlen body + 20 < 2 ^ 32 ->
  holds a (render_header c body ++ body) ->
  Z.even (sum_bytes (render_header 0 body)) = false -> table_valid a = false.
Proof.
  intros Hc Hb H Ho. destruct (table_valid a) eqn:E; [|done]. exfalso.
  destruct (Z.lt_ge_cases c 256) as [Hlt|Hge].
  - apply (table_valid_iff a c body) in E; [|lia|done|done]. revert E Ho.
    generalize (sum_bytes (render_header 0 body)) as s. intros s E Ho.
    rewrite Zeven_mod in Ho. destruct (Z.eqb_spec (s mod 2) 0); [done|]. dlia.
  - apply holds_app in H as [H _]. unfold render_header in H. holds_parts H. destruct H as (_ & _ & H & _).
    apply (fetch_holds _ 4) in H; [|done]. change (fetch_le (a + 8) 4 = c) in H.
    unfold table_valid in E. destruct (hdr_magic a =? _); [|done].
    unfold hdr_header_checksum in E. rewrite H in E. unfold cb_checksum at 1 in E. cbv zeta in E.
    match type of E with context [negb (u8 ?x =? c)] =>
      pose proof (wrap_in_u 8 x ltac:(lia)) as Hw; destruct (Z.eqb_spec (u8 x) c) end; [|done].
    unfold in_u in Hw. lia.
Qed.

(** [CorebootPlatformInit] never reports failure: with no valid table in the
    range it leaves the last candidate, 0xFF0, in [cb_header] and parses the
    bytes that happen to be there, and a zero tag there leaves no memory map. *)
Theorem coreboot_init_always_true st :
  (forall j, (j < 176)%nat -> table_valid (0x500 + 16 * Z.of_nat j) = false) ->
  let r := CorebootPlatformInit st in
  fst r = true /\
  snd r = parse_loop max_entries (set_header st (Some 0xFF0)) 0x1004 /\
  (entry_tag 0x1004 = 0 -> snd r = set_header st (Some 0xFF0)).
Proof.
  intros Hn. destruct (init_scan st) as (a & E & Hor). cbv zeta. rewrite E.
  assert (a = 0xFF0) as ->.
  { destruct Hor as [(j & Hj & -> & Hv)|[_ ->]]; [|done]. by rewrite (Hn j Hj) in Hv. }
  cbn [fst snd]. change (hdr_entries 0xFF0) with 0x1004. split_and!; [done|done|].
  by apply parse_loop_end.
Qed.

(** *** Where the pointers come from *)

(** The entries the walk from header [h] can reach. *)
Inductive visited (h : Z) : Z -> Prop :=
| visited_first : visited h (hdr_entries h)
| visited_next e : visited h e -> entry_tag e <> 0 -> visited h (e + entry_size e).

Definition from_entry (h tag : Z) (p : option Z) : Prop :=
  match p with
  | None => True
  | Some p => exists e, visited h e /\ entry_tag e = tag /\ p = e + sizeof_entry
  end.

Record platform_inv (h : Z) (st : platform) : Prop := {
  pi_fb : from_entry h CB_TAG_FRAMEBUFFER (cb_framebuffer st);
  pi_map : from_entry h CB_TAG_MEMORY (cb_memory_map st);
  pi_count : match cb_memory_map st with
             | None => cb_memory_map_entries st = 0
             | Some p => cb_memory_map_entries st = entry_size (p - sizeof_entry) / sizeof_mem_entry
             end;
  pi_version : from_entry h CB_TAG_VERSION (version (cb_sysinfo st));
  pi_extra : from_entry h CB_TAG_EXTRA_VERSION (extra_version (cb_sysinfo st));
  pi_build : from_entry h CB_TAG_BUILD (build (cb_sysinfo st));
  pi_time : from_entry h CB_TAG_COMPILE_TIME (compile_time (cb_sysinfo st));
  pi_compiler : from_entry h CB_TAG_COMPILER (compiler (cb_sysinfo st));
  pi_assembler : from_entry h CB_TAG_ASSEMBLER (assembler (cb_sysinfo st)) }.

Lemma parse_entry_inv h st e : visited h e -> platform_inv h st -> platform_inv h (parse_entry st e).
Proof.
  intros He [H1 H2 H3 H4 H5 H6 H7 H8 H9]. unfold parse_entry.
  repeat match goal with |- context [if entry_tag e =? ?t then _ else _] =>
    destruct (Z.eqb_spec (entry_tag e) t) end; split; cbn; try done; try (by exists e).
  by rewrite Z.add_simpl_r.
Qed.

Lemma parse_loop_inv h n : forall st e, visited h e -> platform_inv h st ->
  platform_inv h (parse_loop n st e).
Proof.
  induction n as [|n IH]; intros st e He Hi; [done|]. cbn [parse_loop].
  destruct (Z.eqb_spec (entry_tag e) 0); [done|].
  apply IH; [by apply visited_next|by apply parse_entry_inv].
Qed.

(** C31.  Whatever memory holds, every pointer [CorebootPlatformInit] leaves behind is the
    payload of an entry with the matching tag that the walk from the header in
    [cb_header] reaches through nonzero tags, and the number of memory-map
    entries is the length of that entry divided by 24 (0 without one). *)
Theorem coreboot_init_provenance : exists h,
  cb_header (snd (CorebootPlatformInit cb_start)) = Some h /\ 0x500 <= h <= 0xFF0 /\
  platform_inv h (snd (CorebootPlatformInit cb_start)).
Proof.
  destruct (init_scan cb_start) as (a & -> & Hor). cbn [snd]. exists a.
  assert (Hh : forall n st e, cb_header (parse_loop n st e) = cb_header st).
  { induction n as [|n IH]; intros st e; [done|]. cbn [parse_loop].
    destruct (entry_tag e =? 0); [done|]. rewrite IH. unfold parse_entry.
    by repeat destruct (entry_tag e =? _). }
  split; [by rewrite Hh|]. split; [destruct Hor as [(j & ? & -> & _)|[_ ->]]; lia|].
  apply parse_loop_inv; [constructor|]. by split.
Qed.

(** *** The memory map's queries *)

(** The loops of the queries over the entries they read. *)
Lemma fold_left_fmap {A B S} (g : A -> B) (f : S -> B -> S) l : forall z,
  fold_left f (g <$> l) z = fold_left (fun s i => f s (g i)) l z.
Proof. induction l as [|i l IH]; intros z; [done|]. cbn. by rewrite IH. Qed.

Lemma total_memory_entries st p : cb_memory_map st = Some p ->
  CorebootGetTotalMemory st =
  fold_left (fun total e => if mem_type e =? CB_MEM_RAM then u64 (total + mem_size e) else total)
    (mem_entries p (cb_memory_map_entries st)) 0.
Proof.
  intros E. unfold CorebootGetTotalMemory, for_loop, mem_entries. by rewrite E, fold_left_fmap.
Qed.

Lemma largest_entries st p : cb_memory_map st = Some p ->
  CorebootFindLargestMemoryRegion st true true =
  let r := largest_ram (mem_entries p (cb_memory_map_entries st)) in
  if snd r =? 0 then None else Some r.
Proof.
  intros E. unfold CorebootFindLargestMemoryRegion, for_loop, mem_entries, largest_ram.
  rewrite E, fold_left_fmap. cbn [negb orb]. cbv zeta. by destruct (fold_left _ _ _).
Qed.

(** The fold keeps the first of the largest RAM regions. *)
Lemma largest_ram_spec m : Forall mem_entry_ok m ->
  let r := largest_ram m in
  (forall e, In e m -> mem_type e = CB_MEM_RAM -> mem_size e <= snd r) /\
  (snd r = 0 /\ fst r = 0 \/ 0 < snd r /\
   exists l1 e l2, m = l1 ++ e :: l2 /\ r = (mem_addr e, mem_size e) /\ mem_type e = CB_MEM_RAM /\
     forall e', In e' l1 -> mem_type e' = CB_MEM_RAM -> mem_size e' < mem_size e).
Proof.
  intros Hok. cbv zeta. unfold largest_ram. rewrite <- (rev_involutive m) in *. revert Hok.
  induction (rev m) as [|e l IH]; intros Hok.
  { split; [done|by left]. }
  cbn [rev] in *. apply Forall_app in Hok as [Hok He]. apply Forall_inv in He as (_ & _ & He).
  unfold in_u in He. specialize (IH Hok). rewrite fold_left_app. cbn [fold_left].
  set (r := fold_left _ (rev l) (0, 0)) in *. destruct IH as [Hmax Hr].
  destruct (Z.eqb_spec (mem_type e) CB_MEM_RAM) as [Et|Et]; cbn [andb].
  1: destruct (Z.ltb_spec (snd r) (mem_size e)) as [Hlt|Hge]; cbn [fst snd].
  - split.
    + intros e' Hin Ht. apply in_app_or in Hin as [Hin|[<-|[]]]; [|lia]. specialize (Hmax e' Hin Ht). lia.
    + right. split; [destruct Hr as [[? _]|[? _]]; lia|]. exists (rev l), e, [].
      split_and!; [done|done|done|]. intros e' Hin Ht. specialize (Hmax e' Hin Ht). lia.
  - split; [intros e' Hin Ht; apply in_app_or in Hin as [Hin|[<-|[]]]; [by apply Hmax|lia]|].
    destruct Hr as [Hr|(Hp & l1 & e1 & l2 & -> & ? & ? & ?)]; [by left|]. right. split; [done|].
    exists l1, e1, (l2 ++ [e]). rewrite <- app_assoc. by split_and!.
  - split; [intros e' Hin Ht; apply in_app_or in Hin as [Hin|[<-|[]]]; [by apply Hmax|done]|].
    destruct Hr as [Hr|(Hp & l1 & e1 & l2 & -> & ? & ? & ?)]; [by left|]. right. split; [done|].
    exists l1, e1, (l2 ++ [e]). rewrite <- app_assoc. by split_and!.
Qed.

(** The sizes of the RAM regions. *)
Definition ram_sizes (m : list COREBOOT_MEM_ENTRY) : Z :=
  sum_bytes (mem_size <$> filter (fun e => mem_type e = CB_MEM_RAM) m).

Lemma total_fold m : forall z,
  fold_left (fun total e => if mem_type e =? CB_MEM_RAM then u64 (total + mem_size e) else total) m (u64 z)
  = u64 (z + ram_sizes m).
Proof.
  induction m as [|e m IH]; intros z; cbn [fold_left].
  { unfold ram_sizes. by rewrite filter_nil, Z.add_0_r. }
  unfold ram_sizes in *. rewrite filter_cons.
  destruct (Z.eqb_spec (mem_type e) CB_MEM_RAM) as [E|E].
  - rewrite decide_True by done. cbn [fmap list_fmap].
    change (sum_bytes (?b :: ?l)) with (b + sum_bytes l).
    replace (u64 (u64 z + mem_size e)) with (u64 (z + mem_size e)).
    { rewrite IH. f_equal. lia. }
    unfold wrap. by rewrite Zplus_mod_idemp_l.
  - rewrite decide_False by done. apply IH.
Qed.

(** The memory queries, on any map of 64-bit regions: the region returned is the
    first of the largest RAM regions, and there is none exactly when no RAM
    region has a size; the total is the sum of the RAM regions modulo 2^64;
    a NULL output pointer is refused. *)
Theorem coreboot_memory_queries st m : Forall mem_entry_ok m -> CorebootGetMemoryMap st = Some m ->
  CorebootGetTotalMemory st = u64 (ram_sizes m) /\
  match CorebootFindLargestMemoryRegion st true true with
  | Some (a, s) =>
      exists l1 e l2, m = l1 ++ e :: l2 /\ mem_type e = CB_MEM_RAM /\ a = mem_addr e /\ s = mem_size e /\
        0 < s /\ (forall e', In e' m -> mem_type e' = CB_MEM_RAM -> mem_size e' <= s) /\
        (forall e', In e' l1 -> mem_type e' = CB_MEM_RAM -> mem_size e' < s)
  | None => forall e, In e m -> mem_type e = CB_MEM_RAM -> mem_size e = 0
  end /\
  (CorebootFindLargestMemoryRegion st true false = None /\ CorebootFindLargestMemoryRegion st false true = None).
Proof.
  unfold CorebootGetMemoryMap. destruct (cb_memory_map st) as [p|] eqn:E; [|done].
  intros Hok [= <-]. rewrite (total_memory_entries st p E), (largest_entries st p E).
  split_and!; [apply (total_fold _ 0)| |by unfold CorebootFindLargestMemoryRegion; rewrite E..].
  destruct (largest_ram_spec _ Hok) as [Hmax Hr]. cbv zeta in *.
  set (r := largest_ram _) in *. destruct (Z.eqb_spec (snd r) 0) as [E0|E0].
  - intros e Hin Ht. specialize (Hmax e Hin Ht). rewrite List.Forall_forall in Hok.
    destruct (Hok e Hin) as (_ & _ & H). unfold in_u in H. lia.
  - destruct Hr as [[? _]|(Hp & l1 & e & l2 & Hm & Hr & Ht & Hl)]; [done|].
    rewrite Hr in *. exists l1, e, l2. by split_and!.
Qed.
End Platform.

(** ** The boot flow over this layer *)

(** No valid table in the searched range. *)
Definition no_table (mem : Z -> Z) : Prop :=
  forall j, (j < 176)%nat -> table_valid mem (0x500 + 16 * Z.of_nat j) = false.

(** The memory map that is left: the bytes behind the last address that was tried
    are parsed as entries. *)
Definition left_map (mem : Z -> Z) : option (list COREBOOT_MEM_ENTRY) :=
  CorebootGetMemoryMap mem (parse_loop mem max_entries (set_header cb_start (Some 0xFF0)) 0x1004).

Lemma no_table_firmware mem fw : no_table mem ->
  fw_coreboot (coreboot_firmware mem fw) = true /\ fw_cb_mem_map (coreboot_firmware mem fw) = left_map mem.
Proof.
  intros Hn. destruct (init_scan mem cb_start) as (a & E & Hor).
  unfold coreboot_firmware. rewrite E. cbn [fst snd fw_coreboot fw_cb_mem_map].
  destruct Hor as [(j & Hj & -> & Hv)|[_ ->]]; [by rewrite (Hn j Hj) in Hv|].
  change (hdr_entries 0xFF0) with 0x1004. unfold left_map. by split.
Qed.

(** A zero word there ends the table before it has a memory map. *)
Lemma left_map_zero mem : entry_tag mem 0x1004 = 0 -> left_map mem = None.
Proof. intros H. unfold left_map. by rewrite parse_loop_end. Qed.

Lemma no_table_after_menu mem fw : no_table mem -> left_map mem = None -> kernel_file_ok fw -> menu_ends fw ->
  exists ms, after_autoboot (coreboot_firmware mem fw) true =
    Ret (EFI_DEVICE_ERROR, ms ++ [EvReset true]) /\ menu_events ms.
Proof.
  intros Hn Hz Hk He. destruct (no_table_firmware mem fw Hn) as [Hc Hm]. rewrite Hz in Hm.
  set (fw' := coreboot_firmware mem fw) in *. unfold after_autoboot.
  destruct (run_menu_ok fw' He) as (status & ms & -> & Hms). bind_step. rewrite Hc.
  exists ms. split; [|done]. destruct (Z.eqb_spec status EFI_SUCCESS) as [E|E]; [|done].
  destruct (load_kernel fw' g_known_hash Hk) as ([st [data|]] & -> & Hr); cbn [fst snd] in Hr; bind_step.
  - destruct Hr as [-> _]. change (EFI_ERROR EFI_SUCCESS) with false. cbv iota.
    unfold ExecuteKernel, ExecuteKernelWithCoreboot. by rewrite Hc, Hm.
  - cbn [fst snd]. by rewrite Hr.
Qed.


(** ** Samples *)

Definition sample_regions : list COREBOOT_MEM_ENTRY :=
  [mk_mem 1 0 0x9F000; mk_mem 2 0x9F000 0x61000; mk_mem 1 0x100000 0x7FF00000].
Definition sample_fb : COREBOOT_FB := mk_fb 0xE0000000 1024 768 32 4096.
Definition sample_entries : list (Z * bytes) :=
  [(CB_TAG_MEMORY, render_map sample_regions); (CB_TAG_BUILD, [49; 0]); (0x99, [1; 2; 3]);
   (CB_TAG_FRAMEBUFFER, render_fb sample_fb ++ zeros 11)].
Definition sample_mem (x : Z) : Z :=
  if 0x520 <=? x then zget (render_table sample_entries) (x - 0x520) else 0.

Lemma sample_table_at : table_at sample_mem 0x520 sample_entries.
Proof.
  split; [repeat constructor; by vm_compute|vm_compute; lia|by vm_compute|by vm_compute| |by vm_compute].
  exists 2%nat. split_and!; [done|done|]. intros [|[|j]] Hj; [by vm_compute|by vm_compute|lia].
Qed.

(** The sample table's regions and framebuffer come back. *)
Lemma coreboot_table_roundtrip_witness :
  CorebootGetMemoryMap sample_mem (snd (CorebootPlatformInit sample_mem cb_start)) = Some sample_regions /\
  CorebootGetFramebuffer sample_mem (snd (CorebootPlatformInit sample_mem cb_start)) = Some sample_fb.
Proof.
  destruct (coreboot_table_roundtrip sample_mem 0x520 sample_entries sample_table_at)
    as (_ & _ & Hm & _ & Hf & _). split.
  - apply Hm; [repeat constructor; by vm_compute|by vm_compute].
  - apply (Hf sample_fb (zeros 11)); [repeat constructor; by vm_compute|by vm_compute].
Defined.

(** An empty table's header has an even sum, one entry with an odd payload makes
    it odd. *)
Definition odd_body : bytes := render_body [(CB_TAG_BUILD, [0])].
Definition odd_mem (x : Z) : Z :=
  if 0x500 <=? x then zget (render_header 7 odd_body ++ odd_body) (x - 0x500) else 0.

Lemma odd_header_rejected_witness : table_valid odd_mem 0x500 = false.
Proof. apply (odd_header_rejected odd_mem 0x500 7 odd_body); by vm_compute. Defined.

Definition zero_mem (x : Z) : Z := 0.

Lemma zero_no_table : no_table zero_mem.
Proof. by intros j _. Qed.

Lemma coreboot_init_always_true_witness : fst (CorebootPlatformInit zero_mem cb_start) = true.
Proof. apply (coreboot_init_always_true zero_mem cb_start). exact zero_no_table. Defined.

Lemma coreboot_memory_queries_witness :
  CorebootGetTotalMemory sample_mem (snd (CorebootPlatformInit sample_mem cb_start)) = 0x9F000 + 0x7FF00000 /\
  CorebootFindLargestMemoryRegion sample_mem (snd (CorebootPlatformInit sample_mem cb_start)) true false = None.
Proof.
  assert (E : CorebootGetMemoryMap sample_mem (snd (CorebootPlatformInit sample_mem cb_start)) = Some sample_regions)
    by (vm_compute; reflexivity).
  destruct (coreboot_memory_queries sample_mem (snd (CorebootPlatformInit sample_mem cb_start)) sample_regions)
    as (Ht & _ & Hn & _); [repeat constructor; by vm_compute|exact E|].
  split; [rewrite Ht; vm_compute; reflexivity|exact Hn].
Defined.

