(* ===== verification/CorebootPayload.v ===== *)
(** * BloodHorn as a coreboot payload (src/coreboot/coreboot_payload.c, coreboot_main.c)

    [Payload] is coreboot_payload.c: the payload header that is created and
    validated, loading and entering a kernel, the payload's own boot menu and
    entry point.  [CbMain] is coreboot_main.c: the entry point that runs the
    common boot menu, the unverified loading of kernel.efi, the boot wrappers and
    the callbacks given to the development library.  The coreboot queries are
    those of [Coreboot.v], run on physical memory. *)

From Stdlib Require Import String.
From S2P Require Import Prelude.
From S2P Require Import Libb.
From S2P Require Import BootConfig.
From S2P Require Import Menu.
From S2P Require Import PhysMem.
From S2P Require Import EdkMem.
From S2P Require Import BootFlow.
From S2P Require Import BootParams.
From S2P Require Import Coreboot.
Import ListNotations.
#[local] Open Scope list_scope.

Definition EFI_UNSUPPORTED : Z := 2 ^ 63 + 3.

(** What [GetInfo], the allocations and [Read] make of an open file, as all the
    loaders here do it: the status, and the contents on success. *)
Definition read_open_file (f : efi_file) : run (Z * option bytes) :=
  if f_info_probe f =? EFI_BUFFER_TOO_SMALL then
    if negb (f_info_alloc f) then mret (EFI_OUT_OF_RESOURCES, None)
    else if EFI_ERROR (f_info_status f) then mret (f_info_status f, None)
    else if negb (f_buf_alloc f) then mret (EFI_OUT_OF_RESOURCES, None)
    else if EFI_ERROR (f_read_status f) then mret (f_read_status f, None)
    else if f_size f <? zlen (f_data f) then UB
    else mret (EFI_SUCCESS, Some (f_data f))
  else if EFI_ERROR (f_info_probe f) then mret (f_info_probe f, None)
  else UB.

Lemma read_open_file_ok f : file_ok (inr f) ->
  exists r, read_open_file f = Ret r /\
    match snd r with Some data => fst r = EFI_SUCCESS /\ data = f_data f
    | None => EFI_ERROR (fst r) = true end.
Proof.
  intros [Hp Hs]. unfold read_open_file.
  destruct (Z.ltb_spec (f_size f) (zlen (f_data f))); [lia|].
  repeat (match goal with |- context [if ?b then _ else _] => destruct b eqn:? end;
    try done; try (by eexists)).
Qed.

(** A file whose calls all succeed. *)
Definition readable (f : efi_file) : Prop :=
  f_info_probe f = EFI_BUFFER_TOO_SMALL /\ f_info_alloc f = true /\ EFI_ERROR (f_info_status f) = false /\
  f_buf_alloc f = true /\ EFI_ERROR (f_read_status f) = false /\ zlen (f_data f) <= f_size f.

Lemma read_readable f : readable f -> read_open_file f = Ret (EFI_SUCCESS, Some (f_data f)).
Proof.
  intros (H1 & H2 & H3 & H4 & H5 & H6). unfold read_open_file. rewrite H1, H2, H3, H4, H5. cbn.
  by destruct (Z.ltb_spec (f_size f) (zlen (f_data f))); [lia|].
Qed.

Module Payload.

(** ** The payload header *)

Definition COREBOOT_PAYLOAD_SIGNATURE : bytes := lit "$COREBOOT".
Definition PAYLOAD_HEADER_VERSION : Z := 2.

(** Offsets in the packed structure, and its size. *)
Definition h_header_version : Z := 8.
Definition h_payload_version : Z := 12.
Definition h_payload_size : Z := 14.
Definition h_cmd_line_size : Z := 16.
Definition h_checksum : Z := 20.
Definition h_entry_point : Z := 24.
Definition h_payload_load_addr : Z := 28.
Definition h_payload_compressed_size : Z := 32.
Definition h_payload_uncompressed_size : Z := 36.
Definition sizeof_header : Z := 56.

(** [header->field = v] for an [n]-byte field: the value is cut to its width. *)
Definition put (buf : bytes) (off : Z) (n : nat) (v : Z) : run bytes :=
  memcpy buf off (le_bytes n v) 0 (Z.of_nat n).

(** [for (i = 0; i < sizeof(header) - 4; i++) checksum += ptr[i]] *)
Definition header_sum (hdr : bytes) : Z :=
  for_loop 0 (sizeof_header - 4) (fun i s => u32 (s + zget hdr i)) 0.

(** The buffer [CreateBloodhornPayload] fills: header, command line, binary. *)
Definition payload_image (input : bytes) (cmdline : option bytes) : run bytes :=
  let input_size := zlen input in
  let cmdline_size := match cmdline with Some c => zlen c + 1 | None => 1 end in
  let buf := zeros (sizeof_header + cmdline_size + input_size) in
  buf ← memcpy buf 0 COREBOOT_PAYLOAD_SIGNATURE 0 8;
  buf ← put buf h_header_version 4 PAYLOAD_HEADER_VERSION;
  buf ← put buf h_payload_version 2 1;
  buf ← put buf h_payload_size 2 ((input_size + 511) / 512);
  buf ← put buf h_cmd_line_size 4 cmdline_size;
  buf ← put buf h_entry_point 4 (sizeof_header + cmdline_size);
  buf ← put buf h_payload_load_addr 4 0x100000;
  buf ← put buf h_payload_compressed_size 4 0;
  buf ← put buf h_payload_uncompressed_size 4 input_size;
  buf ← put buf h_checksum 4 (header_sum buf);
  buf ← (match cmdline with
         | Some c => buf ← memcpy buf sizeof_header c 0 (cmdline_size - 1);
                     wr buf (sizeof_header + cmdline_size - 1) 0
         | None => wr buf sizeof_header 0
         end);
  memcpy buf (sizeof_header + cmdline_size) input 0 input_size.

(** [wide[i] = path[i]] for at most 255 characters and then
    [wide[AsciiStrLen(path)] = 0], in an array of 256. *)
Definition widen (path : string) : run string :=
  if zlen (lit path) <? 256 then mret path else UB.

(** The output file: the statuses of [Open] and [Write]. *)
Record out_file := mk_out { out_open : Z; out_write : Z; out_alloc : bool }.

(** The bytes handed to [Write], when it comes to that. *)
Definition CreateBloodhornPayload (root : Z + efi_dir) (out : out_file)
    (output_file input_binary : string) (cmdline : option bytes) : run (option bytes) :=
  _ ← widen output_file;
  name ← widen input_binary;
  match root with
  | inl _ => mret None
  | inr dir =>
      match dir name with
      | inl _ => mret None
      | inr f =>
          r ← read_open_file f;
          match snd r with
          | None => mret None
          | Some input =>
              if negb (out_alloc out) then mret None else
              image ← payload_image input cmdline;
              if EFI_ERROR (out_open out) then mret None else mret (Some image)
          end
      end
  end.

Definition ValidatePayloadHeader (hdr : bytes) : run bool :=
  if zlen hdr <? sizeof_header then UB else
  let version := le_val (sub hdr h_header_version 4) in
  if negb (version =? PAYLOAD_HEADER_VERSION) then mret false
  else if negb (bool_decide (sub hdr 0 8 = sub COREBOOT_PAYLOAD_SIGNATURE 0 8)) then mret false
  else mret (header_sum hdr =? le_val (sub hdr h_checksum 4)).

(** ** Loading and entering a kernel *)

(** The buffer and [*kernel_size]; [None] is FALSE. *)
Definition BloodhornLoadKernel (root : Z + efi_dir) (kernel_path : string) : run (option (bytes * Z)) :=
  name ← widen kernel_path;
  match root with
  | inl _ => mret None
  | inr dir =>
      match dir name with
      | inl _ => mret None
      | inr f =>
          r ← read_open_file f;
          match snd r with
          | Some data => mret (Some (data, u32 (zlen data)))
          | None => mret None
          end
      end
  end.

(** The validation of this file: its parameters have no initrd. *)
Definition ValidateBootParameters (boot_params : option COREBOOT_BOOT_PARAMS) : bool :=
  match boot_params with
  | None => false
  | Some p =>
      if negb (bp_signature p =? COREBOOT_BOOT_SIGNATURE) then false
      else if negb (bp_version p =? 1) then false
      else if (bp_kernel_base p =? 0) || (bp_kernel_size p =? 0) then false
      else if bp_boot_flags p &&& COREBOOT_BOOT_FLAG_KERNEL =? 0 then false
      else if negb (bp_boot_flags p &&& COREBOOT_BOOT_FLAG_FRAMEBUFFER =? 0) then
        negb ((bp_framebuffer_addr p =? 0) || (bp_framebuffer_width p =? 0) || (bp_framebuffer_height p =? 0))
      else true
  end.

(** The structure of this file is the first 64 bytes of that of main.c. *)
Definition sizeof_payload_params : Z := 64.

(** [SetMem(boot_params, sizeof(COREBOOT_BOOT_PARAMS), 0)] and the basic parameters. *)
Definition put_payload_basic (m : phys) (boot_params kernel_base kernel_size : Z) : run phys :=
  m ← SetMem m boot_params sizeof_payload_params 0;
  let m := poke_le m (boot_params + o_signature) 4 COREBOOT_BOOT_SIGNATURE in
  let m := poke_le m (boot_params + o_params_version) 4 1 in
  let m := poke_le m (boot_params + o_kernel_base) 8 kernel_base in
  let m := poke_le m (boot_params + o_kernel_size) 8 kernel_size in
  mret (poke_le m (boot_params + o_boot_flags) 4 COREBOOT_BOOT_FLAG_KERNEL).

(** The framebuffer fields, each read through [framebuffer] when it is stored. *)
Definition put_payload_framebuffer (m : phys) (boot_params framebuffer : Z) : phys :=
  let m := poke_le m (boot_params + o_framebuffer_addr) 8 (physical_address (fb_entry m framebuffer)) in
  let m := poke_le m (boot_params + o_framebuffer_width) 4 (x_resolution (fb_entry m framebuffer)) in
  let m := poke_le m (boot_params + o_framebuffer_height) 4 (y_resolution (fb_entry m framebuffer)) in
  let m := poke_le m (boot_params + o_framebuffer_bpp) 4 (bits_per_pixel (fb_entry m framebuffer)) in
  let m := poke_le m (boot_params + o_framebuffer_pitch) 4 (bytes_per_line (fb_entry m framebuffer)) in
  or_flag m boot_params COREBOOT_BOOT_FLAG_FRAMEBUFFER.

(** The fields of the structure at an address, as a record without initrd and
    command line. *)
Definition payload_params (m : phys) (boot_params : Z) : COREBOOT_BOOT_PARAMS :=
  let p := read_params m boot_params in
  mk_params (bp_signature p) (bp_version p) (bp_kernel_base p) (bp_kernel_size p) (bp_boot_flags p)
    (bp_framebuffer_addr p) (bp_framebuffer_width p) (bp_framebuffer_height p) (bp_framebuffer_bpp p)
    (bp_framebuffer_pitch p) (bp_memory_size p) 0 0 (zeros 256).

Section Run.
(** The file system, the address of the buffer a kernel is read into, and whether
    a kernel that is entered comes back ("this should not return"). *)
Context (root : Z + efi_dir) (kernel_buffer : Z) (kernel_returns : bool).

(** The result ([None]: control does not come back; a kernel that does is a
    failure), the events, and memory at that moment. *)
Definition BloodhornExecuteKernel (m : phys) (st : platform) (kernel_size : Z)
  : run (option bool * list event * phys) :=
  match CorebootGetMemoryMap m st with
  | None | Some [] => mret (Some false, [], m)
  | Some map =>
      let kernel_base := fst (largest_ram map) in
      if kernel_base =? 0 then mret (Some false, [], m) else
      let boot_params_addr := u64 (kernel_base + 0x1000) in
      if 2 ^ 64 <? boot_params_addr + sizeof_payload_params then UB else
      m ← put_payload_basic m boot_params_addr kernel_base kernel_size;
      let m := match cb_framebuffer st with
               | Some framebuffer => put_payload_framebuffer m boot_params_addr framebuffer
               | None => m
               end in
      let m := put_memory m boot_params_addr (CorebootGetTotalMemory m st) in
      let p := payload_params m boot_params_addr in
      if negb (ValidateBootParameters (at_address boot_params_addr p)) then mret (Some false, [], m)
      else mret (if kernel_returns then Some false else None,
                 [EvEnterKernel kernel_buffer boot_params_addr p], m)
  end.

(** The status ([None]: control does not come back); the file is in its buffer when
    it is executed. *)
Definition boot_kernel (m : phys) (st : platform) (path : string) : run (option Z * list event * phys) :=
  k ← BloodhornLoadKernel root path;
  match k with
  | Some (data, size) =>
      r ← BloodhornExecuteKernel (poke m kernel_buffer data) st size;
      let '(ok, es, m) := r in
      mret ((fun ok : bool => if ok then EFI_SUCCESS else EFI_LOAD_ERROR) <$> ok, es, m)
  | None => mret (Some EFI_NOT_FOUND, [], m)
  end.

Definition BloodhornBootLinux (m : phys) (st : platform) := boot_kernel m st "kernel.efi".
Definition BloodhornBootMultiboot2 (m : phys) (st : platform) := boot_kernel m st "kernel-mb2.efi".
Definition BloodhornBootLimine (m : phys) (st : platform) := boot_kernel m st "kernel-limine.efi".
Definition BloodhornBootBloodchain (m : phys) (st : platform) := boot_kernel m st "kernel-bc.efi".
Definition BloodhornBootChainload (m : phys) (st : platform) : run (option Z * list event * phys) :=
  mret (Some EFI_UNSUPPORTED, [], m).
Definition BloodhornBootPxe (m : phys) (st : platform) : run (option Z * list event * phys) :=
  mret (Some EFI_UNSUPPORTED, [], m).
Definition BloodhornBootRecovery (m : phys) (st : platform) : run (option Z * list event * phys) :=
  mret (Some EFI_UNSUPPORTED, [], m).
Definition BloodhornReboot (m : phys) (st : platform) : run (option Z * list event * phys) :=
  mret (Some EFI_SUCCESS, [EvReset true], m).

Definition BootFunctions : list (phys -> platform -> run (option Z * list event * phys)) :=
  [BloodhornBootLinux; BloodhornBootMultiboot2; BloodhornBootLimine; BloodhornBootChainload;
   BloodhornBootPxe; BloodhornBootBloodchain; BloodhornBootRecovery; BloodhornReboot].

(** The countdown polls no key: [DefaultEntry], which is 0, is what boots.  The
    first component tells whether the function returns. *)
Definition BloodhornBootMenu (m : phys) (st : platform) : run (bool * list event * phys) :=
  match BootFunctions !! 0%nat with
  | Some f =>
      r ← f m st;
      match r with
      | (None, es, m) => mret (false, es, m)
      | (Some status, es, m) => mret (true, if EFI_ERROR status then es ++ [EvReset true] else es, m)
      end
  | None => UB
  end.

(** The statuses of the initialisation calls only select messages. *)
Definition BloodhornMain (m : phys) (st : platform) : run (list event * phys) :=
  r ← BloodhornBootMenu m st;
  match r with
  | (true, es, m) => mret (es ++ [EvReset true], m)
  | (false, es, m) => mret (es, m)
  end.

Definition BloodhornPayloadEntry (m : phys) : run (list event * phys) :=
  match CorebootPlatformInit m cb_start with
  | (false, _) => mret ([], m)
  | (true, st) => BloodhornMain m st
  end.

End Run.

(** ** The image as a list of fields *)

Definition cmdline_bytes (cmdline : option bytes) : bytes := from_option id [] cmdline.

Definition image_chunks (input : bytes) (cmdline : option bytes) (checksum : Z) : list bytes :=
  let cs := zlen (cmdline_bytes cmdline) + 1 in
  [lit "$COREBOO"; le_bytes 4 PAYLOAD_HEADER_VERSION; le_bytes 2 1;
   le_bytes 2 ((zlen input + 511) / 512); le_bytes 4 cs; le_bytes 4 checksum;
   le_bytes 4 (sizeof_header + cs); le_bytes 4 0x100000; le_bytes 4 0; le_bytes 4 (zlen input);
   zeros 16; cmdline_bytes cmdline; [0]; input].

Lemma zeros_chunks n m : 0 <= n -> 0 <= m ->
  zeros (sizeof_header + (n + 1) + m) =
  concat [zeros 8; zeros 4; zeros 2; zeros 2; zeros 4; zeros 4; zeros 4; zeros 4; zeros 4; zeros 4;
          zeros 16; zeros n; zeros 1; zeros m].
Proof.
  intros Hn Hm. unfold sizeof_header. rewrite !zeros_add by lia. cbn [concat]. rewrite app_nil_r.
  change (zeros 56) with (concat [zeros 8; zeros 4; zeros 2; zeros 2; zeros 4; zeros 4; zeros 4; zeros 4;
    zeros 4; zeros 4; zeros 16]). cbn [concat]. by rewrite app_nil_r, <- !app_assoc.
Qed.

Ltac field_len :=
  unfold h_header_version, h_payload_version, h_payload_size, h_cmd_line_size, h_checksum, h_entry_point,
    h_payload_load_addr, h_payload_compressed_size, h_payload_uncompressed_size, sizeof_header;
  cbn [take concat app]; rewrite ?zlen_app, ?zlen_le_bytes; change (zlen (lit _)) with 8;
  rewrite ?zlen_zeros by (pose proof @zlen_nonneg; lia);
  change (zlen (@nil Z)) with 0; change (zlen [0]) with 1; try lia.

Lemma put_chunk (cs : list bytes) k c off n v : cs !! k = Some c ->
  off = zlen (concat (take k cs)) -> Z.of_nat n = zlen c ->
  put (concat cs) off n v = Ret (concat (<[k:=le_bytes n v]> cs)).
Proof. intros Hc Ho Hn. unfold put. apply (memcpy_chunk cs k c); rewrite ?zlen_le_bytes; done. Qed.

(** Runs the next store, into the [k]-th field. *)
Ltac do_put k := erewrite (put_chunk _ k); [|reflexivity|field_len|field_len]; bind_step; cbn [insert list_insert].
Ltac do_copy k := erewrite (memcpy_chunk _ k); [|reflexivity|field_len|field_len|field_len]; bind_step; cbn [insert list_insert].

(** *** The header's sum *)

Lemma sum_fold (l : bytes) n : (n <= length l)%nat ->
  fold_left (fun s i => u32 (s + zget l i)) (seqZ 0 (Z.of_nat n)) 0 = u32 (sum_bytes (take n l)).
Proof.
  induction n as [|n IH]; intros Hn; [done|].
  rewrite Nat2Z.inj_succ, <- Z.add_1_r, seqZ_app, fold_left_app, IH by lia.
  rewrite Z.add_0_l.
  destruct (lookup_lt_is_Some_2 l n ltac:(lia)) as [x Hx]. rewrite (take_S_r l n x Hx), sum_bytes_app.
  change (sum_bytes [x]) with (x + 0). rewrite Z.add_0_r. rewrite (seqZ_cons _ 1) by lia.
  change (seqZ _ (Z.pred 1)) with (@nil Z). cbn [fold_left]. unfold zget. rewrite Nat2Z.id, (nth_lookup_Some _ _ _ _ Hx).
  unfold wrap. by rewrite Zplus_mod_idemp_l.
Qed.

(** The first 40 bytes and twelve zeros. *)
Lemma header_sum_fields (hdr tl : bytes) : zlen hdr = 40 ->
  header_sum (hdr ++ zeros 16 ++ tl) = u32 (sum_bytes hdr).
Proof.
  intros Hl. unfold header_sum, for_loop. change (sizeof_header - 4) with (Z.of_nat 52).
  rewrite sum_fold by (rewrite !length_app; change (length (zeros 16)) with 16%nat; unfold zlen in Hl; lia).
  rewrite take_app. replace (take 52 hdr) with hdr by (symmetry; apply take_ge; unfold zlen in Hl; lia).
  rewrite take_app_le by (change (length (zeros 16)) with 16%nat; unfold zlen in Hl; lia).
  replace (52 - length hdr)%nat with 12%nat by (unfold zlen in Hl; lia).
  rewrite sum_bytes_app. change (sum_bytes (take 12 (zeros 16))) with 0. by rewrite Z.add_0_r.
Qed.

(** The header fields before the reserved words. *)
Definition header_fields (input : bytes) (cmdline : option bytes) (checksum : Z) : bytes :=
  concat (take 10 (image_chunks input cmdline checksum)).

Definition fields_sum (input : bytes) (cmdline : option bytes) : Z :=
  sum_bytes (header_fields input cmdline 0).

Lemma image_split input cmdline c : concat (image_chunks input cmdline c) =
  header_fields input cmdline c ++ zeros 16 ++ cmdline_bytes cmdline ++ [0] ++ input.
Proof.
  unfold header_fields, image_chunks. cbn [take concat]. by rewrite !app_nil_r, <- !app_assoc.
Qed.

Lemma zlen_header_fields input cmdline c : zlen (header_fields input cmdline c) = 40.
Proof. unfold header_fields, image_chunks. field_len. Qed.

Lemma wr_chunk (cs : list bytes) k c off v : cs !! k = Some [c] ->
  off = zlen (concat (take k cs)) -> wr (concat cs) off v = Ret (concat (<[k:=[v]]> cs)).
Proof.
  intros Hc ->. unfold wr. pose proof (zlen_nonneg (concat (take k cs))).
  pose proof (zlen_nonneg (concat (drop (S k) cs))).
  rewrite (concat_insert cs k _ _ Hc), (concat_chunk cs k _ Hc), !zlen_app. change (zlen [c]) with 1.
  replace ((_ <=? _) && _) with true by (symmetry; zbool). f_equal. unfold zset, zlen.
  rewrite Nat2Z.id, insert_app_r_alt, Nat.sub_diag by lia. reflexivity.
Qed.

(** The image [CreateBloodhornPayload] builds, field by field; no write leaves the buffer. *)
Lemma payload_image_layout input cmdline :
  payload_image input cmdline =
  Ret (concat (image_chunks input cmdline (u32 (fields_sum input cmdline)))).
Proof.
  pose proof (zlen_nonneg input). pose proof (zlen_nonneg (cmdline_bytes cmdline)).
  unfold payload_image. cbv zeta.
  replace (match cmdline with Some c => zlen c + 1 | None => 1 end) with (zlen (cmdline_bytes cmdline) + 1)
    by (by destruct cmdline).
  rewrite zeros_chunks by done.
  change (memcpy ?b 0 COREBOOT_PAYLOAD_SIGNATURE 0 8) with (memcpy b 0 (lit "$COREBOO") 0 8).
  do_copy 0%nat. do_put 1%nat. do_put 2%nat. do_put 3%nat. do_put 4%nat. do_put 6%nat. do_put 7%nat.
  do_put 8%nat. do_put 9%nat.
  match goal with |- context [header_sum ?b] => replace (header_sum b) with (u32 (fields_sum input cmdline)) end.
  2:{ unfold fields_sum. rewrite <- (header_sum_fields _ (zeros (zlen (cmdline_bytes cmdline)) ++
        zeros 1 ++ zeros (zlen input))) by apply zlen_header_fields.
      apply (f_equal header_sum). unfold header_fields, image_chunks. cbn [take concat].
      change (le_bytes 4 0) with (zeros 4). by rewrite !app_nil_r, <- !app_assoc. }
  do_put 5%nat. destruct cmdline as [c|]; cbn [cmdline_bytes from_option id] in *.
  - do_copy 11%nat. unfold image_chunks. cbn [cmdline_bytes from_option id].
    change (zeros 1) with [0].
    erewrite (wr_chunk _ 12); [|reflexivity|field_len]. bind_step. cbn [insert list_insert].
    erewrite (memcpy_chunk _ 13); [|reflexivity|field_len|field_len|field_len]. reflexivity.
  - change (zeros 1) with [0]. change (zeros (zlen [])) with (@nil Z). change (zlen []) with 0.
    erewrite (wr_chunk _ 12); [|reflexivity|field_len]. bind_step. cbn [insert list_insert].
    erewrite (memcpy_chunk _ 13); [|reflexivity|field_len|field_len|field_len]. reflexivity.
Qed.

(** The names fit their arrays, the input can be read, the output buffer
    allocated and the output file opened. *)
Definition creates (root : Z + efi_dir) (out : out_file) (output_file input_binary : string) (f : efi_file) : Prop :=
  zlen (lit output_file) < 256 /\ zlen (lit input_binary) < 256 /\
  (exists dir, root = inr dir /\ dir input_binary = inr f) /\ readable f /\
  out_alloc out = true /\ EFI_ERROR (out_open out) = false.

Lemma widen_ok s : zlen (lit s) < 256 -> widen s = Ret s.
Proof. intros H. unfold widen. apply Z.ltb_lt in H. by rewrite H. Qed.

Lemma create_image root out o i f cmdline : creates root out o i f ->
  CreateBloodhornPayload root out o i cmdline =
  Ret (Some (concat (image_chunks (f_data f) cmdline (u32 (fields_sum (f_data f) cmdline))))).
Proof.
  intros (Ho & Hi & (dir & -> & Hf) & Hr & Ha & He). unfold CreateBloodhornPayload.
  rewrite !widen_ok by done. bind_step. rewrite Hf, read_readable by done. bind_step. cbn [snd].
  rewrite Ha. cbn [negb]. rewrite payload_image_layout. bind_step. by rewrite He.
Qed.

(** Reads the [k]-th field of the image, which is at [off]. *)
Ltac image_field k off :=
  lazymatch goal with |- context [sub (concat ?cs) off ?n] =>
    erewrite (sub_chunk cs k _ off n); [|reflexivity|unfold image_chunks; field_len..] end.

(**  The payload file: for an input that can be read, the file written is the
    header, the command line with its NUL, and the input; the header's entry
    point and size fields locate the input exactly (as long as they fit their 32
    bits), its command-line size is right, and its 16-bit block count is the
    number of 512-byte blocks modulo 2^16. *)
Theorem payload_file_roundtrip root out o i f cmdline :
  creates root out o i f ->
  sizeof_header + zlen (cmdline_bytes cmdline) + 1 < 2 ^ 32 -> zlen (f_data f) < 2 ^ 32 ->
  exists img, CreateBloodhornPayload root out o i cmdline = Ret (Some img) /\
    let field off n := le_val (sub img off n) in
    sub img 0 8 = lit "$COREBOO" /\ field h_header_version 4 = PAYLOAD_HEADER_VERSION /\
    sub img (field h_entry_point 4) (field h_payload_uncompressed_size 4) = f_data f /\
    zlen img = field h_entry_point 4 + field h_payload_uncompressed_size 4 /\
    sub img sizeof_header (field h_cmd_line_size 4) = cmdline_bytes cmdline ++ [0] /\
    field h_payload_load_addr 4 = 0x100000 /\ field h_payload_compressed_size 4 = 0 /\
    field h_payload_size 2 = u16 ((zlen (f_data f) + 511) / 512).
Proof.
  intros Hc Hn Hl. eexists. split; [by apply create_image|]. cbv zeta.
  pose proof (zlen_nonneg (f_data f)). pose proof (zlen_nonneg (cmdline_bytes cmdline)).
  image_field 0%nat 0. image_field 1%nat h_header_version. image_field 3%nat h_payload_size.
  image_field 4%nat h_cmd_line_size. image_field 6%nat h_entry_point. image_field 7%nat h_payload_load_addr.
  image_field 8%nat h_payload_compressed_size. image_field 9%nat h_payload_uncompressed_size.
  rewrite !le_val_bytes.
  unfold sizeof_header, PAYLOAD_HEADER_VERSION in *. change (256 ^ Z.of_nat 4) with (2 ^ 32).
  rewrite !(Z.mod_small _ (2 ^ 32)) by lia. split_and!; try done.
  - eapply (sub_chunk _ 13); [reflexivity|unfold image_chunks; field_len..].
  - rewrite image_split, !zlen_app, zlen_header_fields, zlen_zeros by lia. change (zlen [0]) with 1. lia.
  - transitivity (sub (concat [header_fields (f_data f) cmdline (u32 (fields_sum (f_data f) cmdline)) ++ zeros 16;
      cmdline_bytes cmdline ++ [0]; f_data f]) 56 (zlen (cmdline_bytes cmdline) + 1)).
    { rewrite image_split. cbn [concat]. by rewrite app_nil_r, <- !app_assoc. }
    apply (sub_chunk _ 1); [done| |by rewrite zlen_app].
    cbn [take concat]. rewrite app_nil_r, zlen_app, zlen_header_fields. by rewrite zlen_zeros by lia.
Qed.

(** *** The checksum *)

Lemma sum_bytes_nonneg l : is_bytes l -> 0 <= sum_bytes l <= 255 * zlen l.
Proof.
  induction 1 as [|b l Hb _ IH]; [done|]. change (sum_bytes (b :: l)) with (b + sum_bytes l).
  change (zlen (b :: l)) with (zlen ([b] ++ l)). rewrite zlen_app. change (zlen [b]) with 1.
  unfold is_byte, in_u in Hb. lia.
Qed.

Lemma sum_zero_val l : is_bytes l -> sum_bytes l = 0 -> le_val l = 0.
Proof.
  induction 1 as [|b l Hb Hl IH]; [done|]. change (sum_bytes (b :: l)) with (b + sum_bytes l).
  pose proof (sum_bytes_nonneg l Hl). unfold is_byte, in_u in Hb. cbn [le_val].
  intros H'. rewrite IH by lia. lia.
Qed.

Lemma fields_checksum input cmdline c :
  sum_bytes (header_fields input cmdline c) = fields_sum input cmdline + sum_bytes (le_bytes 4 c).
Proof.
  unfold fields_sum, header_fields, image_chunks. cbn [take concat]. rewrite !sum_bytes_app.
  change (sum_bytes (le_bytes 4 0)) with 0. lia.
Qed.

Lemma fields_sum_range input cmdline : 0 < fields_sum input cmdline < 2 ^ 20.
Proof.
  assert (H : is_bytes (header_fields input cmdline 0)).
  { unfold header_fields, image_chunks, is_bytes. cbn [take concat].
    repeat apply Forall_app_2; try apply is_bytes_le_bytes; [|by apply Forall_nil].
    unfold is_byte. apply (bool_decide_eq_true _). reflexivity. }
  apply sum_bytes_nonneg in H as H'. rewrite zlen_header_fields in H'. split; [|unfold fields_sum; lia].
  unfold fields_sum, header_fields, image_chunks. cbn [take concat]. rewrite !sum_bytes_app.
  change (sum_bytes (lit "$COREBOO")) with 557.
  pose proof (fun n v => sum_bytes_nonneg _ (is_bytes_le_bytes n v)) as Hn.
  repeat match goal with |- context [sum_bytes (le_bytes ?n ?v)] =>
    generalize (Hn n v); generalize (sum_bytes (le_bytes n v)); intros ? ? end.
  change (sum_bytes []) with 0. lia.
Qed.

(** No payload that [CreateBloodhornPayload] writes passes [ValidatePayloadHeader]:
    the checksum is computed while its own field is 0, but validated over bytes
    that include it. *)
Theorem created_payload_rejected root out o i f cmdline : creates root out o i f ->
  exists img, CreateBloodhornPayload root out o i cmdline = Ret (Some img) /\
    ValidatePayloadHeader img = Ret false.
Proof.
  intros Hc. eexists. split; [by apply create_image|].
  pose proof (zlen_nonneg (f_data f)). pose proof (zlen_nonneg (cmdline_bytes cmdline)).
  pose proof (fields_sum_range (f_data f) cmdline) as Hs. set (s := fields_sum (f_data f) cmdline) in *.
  rewrite (wrap_small 32) by (split; lia). unfold ValidatePayloadHeader.
  image_field 0%nat 0. image_field 1%nat h_header_version. image_field 5%nat h_checksum.
  rewrite !le_val_bytes.
  rewrite image_split, header_sum_fields by apply zlen_header_fields.
  rewrite !zlen_app, zlen_header_fields, (zlen_zeros 16) by lia. change (zlen [0]) with 1.
  match goal with |- context [if ?b then UB else _] => destruct b eqn:E end;
    [apply Z.ltb_lt in E; unfold sizeof_header in E; lia|].
  change (PAYLOAD_HEADER_VERSION mod _ =? PAYLOAD_HEADER_VERSION) with true. cbn [negb].
  rewrite bool_decide_true by done. cbn [negb]. rewrite run_mret. f_equal.
  rewrite fields_checksum. fold s. rewrite Z.mod_small by (change (256 ^ Z.of_nat 4) with (2 ^ 32); lia).
  pose proof (sum_bytes_nonneg _ (is_bytes_le_bytes 4 s)) as Hb. rewrite zlen_le_bytes in Hb.
  rewrite wrap_small by (split; lia). apply Z.eqb_neq. intros Heq.
  assert (Hz : le_val (le_bytes 4 s) = 0) by (apply sum_zero_val; [apply is_bytes_le_bytes|lia]).
  rewrite le_val_bytes, Z.mod_small in Hz by (change (256 ^ Z.of_nat 4) with (2 ^ 32); lia). lia.
Qed.

(** *** Entering a kernel *)

(** Without the initrd flag, the two validations agree. *)
Lemma validate_agrees p : has_flag (bp_boot_flags p) COREBOOT_BOOT_FLAG_INITRD = false ->
  ValidateBootParameters (Some p) = BootFlow.ValidateBootParameters (Some p).
Proof.
  intros H. unfold ValidateBootParameters, BootFlow.ValidateBootParameters. rewrite H. cbn [andb].
  unfold has_flag. rewrite !negb_involutive.
  by repeat match goal with |- context [_ =? ?x] => destruct (_ =? x); cbn [negb orb andb] end.
Qed.

(** *** The parameters in memory *)

(** The 64 bytes at [a] are the fields of [p]. *)
Definition payload_at (m : phys) (a : Z) (p : COREBOOT_BOOT_PARAMS) : Prop :=
  holds m a (concat (take 12 (params_chunks p))).

Definition changes_only (m m' : phys) (a n : Z) : Prop := forall x, x < a \/ a + n <= x -> m' x = m x.

(** The records of the coreboot table that are read while the parameters are
    written, and a region apart from them. *)
Definition table_records (st : platform) : list (Z * Z) :=
  (match cb_framebuffer st with Some p => [(p, 24)] | None => [] end) ++
  (match cb_memory_map st with Some p => [(p, sizeof_mem_entry * cb_memory_map_entries st)] | None => [] end).
Definition clear_of_table (st : platform) (a n : Z) : Prop :=
  Forall (fun r => apart a n r.1 r.2) (table_records st).

Lemma changes_only_trans m m' m'' a n : changes_only m m' a n -> changes_only m' m'' a n -> changes_only m m'' a n.
Proof. intros H H' x Hx. by rewrite H', H. Qed.

Lemma changes_only_poke m a o n l : 0 <= o -> o + zlen l <= n -> changes_only m (poke m (a + o) l) a n.
Proof. intros Ho Hl x Hx. apply poke_other. lia. Qed.

Lemma fetch_le_agree m m' a n b k : changes_only m m' a n -> apart a n b k -> forall c w, 0 <= w -> b <= c -> c + w <= b + k ->
  fetch_le m' c w = fetch_le m c w.
Proof.
  intros Hc Ha c w Hw Hb Hk. unfold fetch_le, fetch. f_equal. apply list_fmap_ext. intros i x Hx.
  apply Hc. apply lookup_seqZ in Hx. unfold apart in Ha. lia.
Qed.

Lemma fb_entry_agree m m' a n fb : changes_only m m' a n -> apart a n fb 24 -> fb_entry m' fb = fb_entry m fb.
Proof. intros Hc Ha. unfold fb_entry. by rewrite !(fetch_le_agree m m' a n fb 24 Hc Ha) by lia. Qed.

Lemma mem_entry_agree m m' a n p k i : changes_only m m' a n -> apart a n p (sizeof_mem_entry * k) -> 0 <= i < k ->
  mem_entry m' p i = mem_entry m p i.
Proof.
  intros Hc Ha Hi. unfold mem_entry. by rewrite !(fetch_le_agree m m' a n p _ Hc Ha) by (unfold sizeof_mem_entry; lia).
Qed.

Lemma total_agree m m' a n st : changes_only m m' a n -> clear_of_table st a n ->
  CorebootGetTotalMemory m' st = CorebootGetTotalMemory m st.
Proof.
  intros Hc Ht. unfold CorebootGetTotalMemory. unfold clear_of_table, table_records in Ht. apply Forall_app in Ht as (_ & Ht).
  destruct (cb_memory_map st) as [p|]; [|done]. apply Forall_cons in Ht as (Ha & _). cbn [fst snd] in Ha.
  unfold for_loop. apply fold_left_ext_in. intros i total Hi%elem_of_seqZ. by rewrite (mem_entry_agree m m' a n p (cb_memory_map_entries st)).
Qed.

Lemma map_agree m m' a n st : changes_only m m' a n -> clear_of_table st a n ->
  CorebootGetMemoryMap m' st = CorebootGetMemoryMap m st.
Proof.
  intros Hc Ht. unfold CorebootGetMemoryMap. unfold clear_of_table, table_records in Ht. apply Forall_app in Ht as (_ & Ht).
  destruct (cb_memory_map st) as [p|]; [|done]. apply Forall_cons in Ht as (Ha & _). cbn [fst snd] in Ha.
  f_equal. unfold mem_entries. apply list_fmap_ext. intros i x Hx. apply (mem_entry_agree m m' a n p (cb_memory_map_entries st)); [done|done|].
  apply lookup_seqZ in Hx. lia.
Qed.

Lemma framebuffer_agree m m' a n st : changes_only m m' a n -> clear_of_table st a n ->
  CorebootGetFramebuffer m' st = CorebootGetFramebuffer m st.
Proof.
  intros Hc Ht. unfold CorebootGetFramebuffer. unfold clear_of_table, table_records in Ht. apply Forall_app in Ht as (Ht & _).
  destruct (cb_framebuffer st) as [p|]; [|done]. apply Forall_cons in Ht as (Ha & _). cbn [fst snd] in Ha.
  cbn. f_equal. by apply (fb_entry_agree m m' a n).
Qed.

Ltac only_payload := unfold poke_le;
  repeat (eapply changes_only_trans; [|apply changes_only_poke; [done|by rewrite zlen_le_bytes]]); try done.

Lemma put_payload_basic_ok m a base size : exists m', put_payload_basic m a base size = Ret m' /\
  payload_at m' a (basic_params base size) /\ changes_only m m' a 64.
Proof.
  unfold put_payload_basic. destruct (set_mem_fills m a sizeof_payload_params 0) as (m1 & -> & E1); [unfold sizeof_payload_params; lia|lia|].
  bind_step. eexists. split; [reflexivity|].
  assert (H : holds m1 a (concat (take 12 (params_chunks (mk_params 0 0 0 0 0 0 0 0 0 0 0 0 0 (zeros 256)))))).
  { apply (holds_ext (fill m a 0 64)); [exact E1|]. exact (holds_fill m a 64 ltac:(lia)). }
  split.
  - cbn [params_chunks take] in H. store H 0%nat 4%nat COREBOOT_BOOT_SIGNATURE 0. store H 1%nat 4%nat 1 4. store H 2%nat 8%nat base 8.
    store H 3%nat 8%nat size 16. store H 4%nat 4%nat COREBOOT_BOOT_FLAG_KERNEL 24. exact H.
  - only_payload. intros x Hx. rewrite E1. by apply fill_other.
Qed.

Lemma put_payload_framebuffer_ok m a p fb : payload_at m a p -> in_u 32 (bp_boot_flags p) -> apart a 64 fb 24 ->
  payload_at (put_payload_framebuffer m a fb) a (set_framebuffer p (fb_entry m fb)) /\
  changes_only m (put_payload_framebuffer m a fb) a 64.
Proof.
  intros H Hf Ha. split; [|unfold put_payload_framebuffer, or_flag; only_payload].
  unfold put_payload_framebuffer. cbv zeta.
  assert (Hp : forall m' o n v, 0 <= o -> o + Z.of_nat n <= 64 -> fb_entry (poke_le m' (a + o) n v) fb = fb_entry m' fb).
  { intros m' o n v Ho Hn. apply (fb_entry_agree m' _ a 64); [|done]. apply changes_only_poke; [done|]. by rewrite zlen_le_bytes. }
  rewrite !Hp by done. unfold payload_at in H. cbn [params_chunks take] in H.
  store H 6%nat 8%nat (physical_address (fb_entry m fb)) o_framebuffer_addr. store H 7%nat 4%nat (x_resolution (fb_entry m fb)) o_framebuffer_width.
  store H 8%nat 4%nat (y_resolution (fb_entry m fb)) o_framebuffer_height. store H 9%nat 4%nat (bits_per_pixel (fb_entry m fb)) o_framebuffer_bpp.
  store H 10%nat 4%nat (bytes_per_line (fb_entry m fb)) o_framebuffer_pitch. unfold or_flag.
  rewrite (load_field _ a _ 4 (bp_boot_flags p) o_boot_flags 4 H eq_refl eq_refl ltac:(lia) Hf).
  store H 4%nat 4%nat (bp_boot_flags p ||| COREBOOT_BOOT_FLAG_FRAMEBUFFER) o_boot_flags. exact H.
Qed.

Lemma put_payload_memory_ok m a p n : payload_at m a p ->
  payload_at (put_memory m a n) a (set_memory p n) /\ changes_only m (put_memory m a n) a 64.
Proof.
  intros H. split; [|unfold put_memory; only_payload]. unfold payload_at in H. cbn [params_chunks take] in H.
  store H 11%nat 8%nat n o_memory_size. exact H.
Qed.

Lemma payload_params_at m a p : payload_at m a p -> params_typed p -> bp_initrd_addr p = 0 -> bp_initrd_size p = 0 ->
  bp_cmdline p = zeros 256 -> payload_params m a = p.
Proof.
  intros H (T1 & T2 & T3 & T4 & T5 & T6 & T7 & T8 & T9 & T10 & T11 & _) Hi Hs Hc. unfold payload_params, read_params, payload_at in *.
  cbn [bp_signature bp_version bp_kernel_base bp_kernel_size bp_boot_flags bp_framebuffer_addr bp_framebuffer_width
    bp_framebuffer_height bp_framebuffer_bpp bp_framebuffer_pitch bp_memory_size]. cbn [params_chunks take] in H.
  rewrite (load_field m a _ 0 _ o_signature 4 H eq_refl eq_refl ltac:(lia) T1), (load_field m a _ 1 _ o_params_version 4 H eq_refl eq_refl ltac:(lia) T2),
    (load_field m a _ 2 _ o_kernel_base 8 H eq_refl eq_refl ltac:(lia) T3), (load_field m a _ 3 _ o_kernel_size 8 H eq_refl eq_refl ltac:(lia) T4),
    (load_field m a _ 4 _ o_boot_flags 4 H eq_refl eq_refl ltac:(lia) T5), (load_field m a _ 6 _ o_framebuffer_addr 8 H eq_refl eq_refl ltac:(lia) T6),
    (load_field m a _ 7 _ o_framebuffer_width 4 H eq_refl eq_refl ltac:(lia) T7), (load_field m a _ 8 _ o_framebuffer_height 4 H eq_refl eq_refl ltac:(lia) T8),
    (load_field m a _ 9 _ o_framebuffer_bpp 4 H eq_refl eq_refl ltac:(lia) T9), (load_field m a _ 10 _ o_framebuffer_pitch 4 H eq_refl eq_refl ltac:(lia) T10),
    (load_field m a _ 11 _ o_memory_size 8 H eq_refl eq_refl ltac:(lia) T11), <- Hi, <- Hc. rewrite Hi at 2. rewrite <- Hs. by destruct p.
Qed.

(** *** Entering the kernel *)

Definition kernel_params (m : phys) (st : platform) (base size : Z) : COREBOOT_BOOT_PARAMS :=
  set_memory (add_framebuffer (basic_params base size) (CorebootGetFramebuffer m st)) (CorebootGetTotalMemory m st).

Lemma kernel_params_typed m st base size : (forall x, is_byte (m x)) -> in_u 64 base -> in_u 64 size ->
  params_typed (kernel_params m st base size).
Proof.
  intros Hm Hb Hs. unfold kernel_params.
  assert (Ht : in_u 64 (CorebootGetTotalMemory m st)).
  { unfold CorebootGetTotalMemory. destruct (cb_memory_map st); [|by split]. unfold for_loop.
    apply (fold_left_inv (in_u 64)); [|by split]. intros t i Ht. cbv zeta. case_match; [apply wrap_in_u; lia|done]. }
  assert (Hf : forall c w k, 0 <= w -> w <= k -> 0 <= fetch_le m c w < 2 ^ (8 * k)).
  { intros c w k Hw Hk. pose proof (fetch_le_range m c w Hm Hw) as H. change 256 with (2 ^ 8) in H. rewrite <- Z.pow_mul_r in H by lia.
    pose proof (Z.pow_le_mono_r 2 (8 * w) (8 * k) ltac:(lia) ltac:(lia)). lia. }
  unfold CorebootGetFramebuffer. destruct (cb_framebuffer st) as [fb|]; cbn;
    repeat split; try done; try (apply Hb || apply Hs || apply Ht); try (apply (Hf _ _ 8); lia); apply (Hf _ _ 4); lia.
Qed.

Lemma execute_ok buf returns m st map size : (forall x, is_byte (m x)) -> CorebootGetMemoryMap m st = Some map ->
  let base := fst (largest_ram map) in
  0 < base -> base + 0x1000 + 64 <= 2 ^ 64 -> in_u 64 size -> clear_of_table st (base + 0x1000) 64 ->
  let p := kernel_params m st base size in
  exists m', BloodhornExecuteKernel buf returns m st size =
      Ret (if ValidateBootParameters (Some p)
           then (if returns then Some false else None, [EvEnterKernel buf (base + 0x1000) p], m')
           else (Some false, [], m')) /\
    payload_at m' (base + 0x1000) p /\ changes_only m m' (base + 0x1000) 64.
Proof.
  intros Hm Hmap base Hb Ha Hs Ht p. unfold BloodhornExecuteKernel. rewrite Hmap.
  destruct map as [|e map]; [cbn in Hb; lia|]. fold base. set (a := base + 0x1000) in *.
  rewrite (proj2 (Z.eqb_neq base 0)) by lia. rewrite (wrap_small 64 a) by (unfold in_u; lia).
  rewrite (proj2 (Z.ltb_ge _ _)) by (unfold sizeof_payload_params; lia).
  destruct (put_payload_basic_ok m a base size) as (m1 & -> & P1 & O1). bind_step.
  set (m2 := match cb_framebuffer st with Some fb => put_payload_framebuffer m1 a fb | None => m1 end).
  assert (H2 : payload_at m2 a (add_framebuffer (basic_params base size) (CorebootGetFramebuffer m st)) /\ changes_only m m2 a 64).
  { rewrite <- (framebuffer_agree m m1 a 64 st O1 Ht). unfold m2, CorebootGetFramebuffer.
    unfold clear_of_table, table_records in Ht. apply Forall_app in Ht as (Hf & _).
    destruct (cb_framebuffer st) as [fb|]; [|done]. apply Forall_cons in Hf as (Hf & _).
    destruct (put_payload_framebuffer_ok m1 a (basic_params base size) fb P1 ltac:(by split) Hf) as (P2 & O2).
    split; [exact P2|]. by eapply changes_only_trans. }
  destruct H2 as (P2 & O2). rewrite (total_agree m m2 a 64 st O2 Ht).
  destruct (put_payload_memory_ok m2 a _ (CorebootGetTotalMemory m st) P2) as (P3 & O3).
  set (m3 := put_memory m2 a _) in *. fold (kernel_params m st base size) in P3. fold p in P3.
  rewrite (payload_params_at m3 a p P3); [|apply kernel_params_typed; [done|unfold in_u; lia|done]|..];
    try (unfold p, kernel_params; by destruct (CorebootGetFramebuffer m st)).
  unfold at_address. rewrite (proj2 (Z.eqb_neq a 0)) by lia.
  exists m3. split; [by destruct (ValidateBootParameters (Some p))|]. split; [done|]. by eapply changes_only_trans.
Qed.

Lemma main_ok mem st dir f map buf returns :
  let base := fst (largest_ram map) in
  let n := zlen (f_data f) in
  (forall x, is_byte (mem x)) -> dir "kernel.efi"%string = inr f -> readable f ->
  is_bytes (f_data f) -> 0 < n < 2 ^ 32 ->
  CorebootGetMemoryMap mem st = Some map -> 0 < base -> base + 0x1000 + 64 <= 2 ^ 64 ->
  clear_of_table st buf n -> clear_of_table st (base + 0x1000) 64 -> apart (base + 0x1000) 64 buf n ->
  let p := kernel_params mem st base n in
  exists m, BloodhornMain (inr dir) buf returns mem st =
      Ret (if ValidateBootParameters (Some p)
           then EvEnterKernel buf (base + 0x1000) p :: (if returns then [EvReset true; EvReset true] else [])
           else [EvReset true; EvReset true], m) /\
    holds m buf (f_data f) /\ payload_at m (base + 0x1000) p.
Proof.
  intros base n Hm Hf Hr Hd Hn Hmap Hb Ha Hcb Hca Hab p.
  unfold BloodhornMain, BloodhornBootMenu. cbn [BootFunctions lookup list_lookup].
  unfold BloodhornBootLinux, boot_kernel, BloodhornLoadKernel. rewrite widen_ok by reflexivity. bind_step. rewrite Hf.
  rewrite (read_readable f Hr). bind_step. cbn [snd]. bind_step. rewrite (wrap_small 32) by (unfold in_u; lia). fold n.
  set (m1 := poke mem buf (f_data f)). assert (O1 : changes_only mem m1 buf n) by (intros x Hx; by apply poke_other).
  assert (Ep : kernel_params m1 st base n = p).
  { unfold p, kernel_params. by rewrite (framebuffer_agree mem m1 buf n st O1 Hcb), (total_agree mem m1 buf n st O1 Hcb). }
  destruct (execute_ok buf returns m1 st map n) as (m2 & E & P2 & O2); [|by rewrite (map_agree mem m1 buf n)|done|done|unfold in_u; lia|done|].
  - intros x. unfold m1, poke. case_match; [|done]. by apply is_bytes_get.
  - fold base in E, P2, O2. rewrite Ep in E, P2. rewrite E. exists m2. split; [|split; [|exact P2]].
    + destruct (ValidateBootParameters (Some p)); [destruct returns|]; reflexivity.
    + apply holds_iff. intros i Hi. rewrite O2 by (unfold apart in Hab; fold n in Hi; lia).
      by apply holds_iff; [apply holds_poke|].
Qed.

Lemma init_reports_true mem : exists st, CorebootPlatformInit mem cb_start = (true, st).
Proof. destruct (init_scan mem cb_start) as (h & E & _). rewrite E. by eexists. Qed.

(** C39. The payload run as a whole, when the volume opens and kernel.efi is a
    non-empty readable file: [BloodhornPayloadEntry], whose countdown reads no key,
    enters kernel.efi when the parameters validate, with the file in its buffer and
    the parameters 4 KiB behind the base of the largest RAM region: that base, the
    file's size, and framebuffer and total memory of the coreboot table.  If the
    kernel does not return nothing follows; if it returns, or was not entered, two
    reboot requests follow.  Kernel buffer, parameters and the table's framebuffer
    and memory records must not overlap, and the region must not be at the end of
    the address space. *)
Theorem payload_entry_functional mem dir f map buf returns :
  let st := snd (CorebootPlatformInit mem cb_start) in
  let base := fst (largest_ram map) in
  let n := zlen (f_data f) in
  (forall x, is_byte (mem x)) -> dir "kernel.efi"%string = inr f -> readable f ->
  is_bytes (f_data f) -> 0 < n < 2 ^ 32 ->
  CorebootGetMemoryMap mem st = Some map -> 0 < base -> base + 0x1000 + 64 <= 2 ^ 64 ->
  clear_of_table st buf n -> clear_of_table st (base + 0x1000) 64 -> apart (base + 0x1000) 64 buf n ->
  let p := kernel_params mem st base n in
  exists m, BloodhornPayloadEntry (inr dir) buf returns mem =
      Ret (if ValidateBootParameters (Some p)
           then EvEnterKernel buf (base + 0x1000) p :: (if returns then [EvReset true; EvReset true] else [])
           else [EvReset true; EvReset true], m) /\
    holds m buf (f_data f) /\ payload_at m (base + 0x1000) p.
Proof.
  intros st base n. unfold BloodhornPayloadEntry. subst st. destruct (init_reports_true mem) as (st & ->). cbn [snd].
  apply (main_ok mem st dir f map buf returns).
Qed.

Lemma payload_entry_functional_witness :
  exists m, BloodhornPayloadEntry (inr sample_root) 0x500000 false sample_mem =
      Ret ([EvEnterKernel 0x500000 0x101000 (kernel_params sample_mem (snd (CorebootPlatformInit sample_mem cb_start)) 0x100000 3)], m) /\
    holds m 0x500000 [77; 90; 144] /\
    payload_at m 0x101000 (kernel_params sample_mem (snd (CorebootPlatformInit sample_mem cb_start)) 0x100000 3).
Proof.
  assert (Hb : forall l, is_bytes l -> forall x, is_byte (if 0x520 <=? x then zget l (x - 0x520) else 0)).
  { intros l Hl x. case_match; [by apply is_bytes_get|by split]. }
  assert (Hs : is_bytes (render_table sample_entries)).
  { apply List.Forall_forall. intros b Hin. assert (E : forallb (fun b => (0 <=? b) && (b <? 256)) (render_table sample_entries) = true) by (vm_compute; reflexivity).
    rewrite forallb_forall in E. specialize (E b Hin). bool_hyps. unfold is_byte, in_u. lia. }
  assert (Ht : table_records (snd (CorebootPlatformInit sample_mem cb_start)) = [(1441, 24); (1340, 72)]) by (vm_compute; reflexivity).
  apply (payload_entry_functional sample_mem sample_root (sample_file [77; 90; 144]) sample_regions 0x500000 false).
  - exact (Hb _ Hs).
  - reflexivity.
  - clear. by repeat split; vm_compute.
  - clear. repeat (apply Forall_cons_2; [by split|]). apply Forall_nil_2.
  - clear. by vm_compute.
  - vm_compute. reflexivity.
  - reflexivity.
  - clear. by vm_compute.
  - unfold clear_of_table. rewrite Ht. clear. repeat (apply Forall_cons_2; [right; by vm_compute|]). apply Forall_nil_2.
  - unfold clear_of_table. rewrite Ht. clear. repeat (apply Forall_cons_2; [right; by vm_compute|]). apply Forall_nil_2.
  - clear. left. by vm_compute.
Defined.

Definition sample_out : out_file := mk_out EFI_SUCCESS EFI_SUCCESS true.

Lemma sample_creates : creates (inr sample_root) sample_out "out.bin" "kernel.efi" (sample_file [77; 90; 144]).
Proof.
  split_and!; [done|done| |by repeat split; vm_compute|done|done]. exists sample_root. by split.
Qed.

Lemma payload_file_roundtrip_witness :
  exists img, CreateBloodhornPayload (inr sample_root) sample_out "out.bin" "kernel.efi" (Some (lit "quiet")) =
      Ret (Some img) /\ sub img (le_val (sub img h_entry_point 4)) (le_val (sub img h_payload_uncompressed_size 4)) =
      [77; 90; 144].
Proof.
  destruct (payload_file_roundtrip _ _ _ _ _ (Some (lit "quiet")) sample_creates) as (img & E & _ & _ & H & _);
    [by vm_compute|by vm_compute|]. by exists img.
Defined.

Lemma created_payload_rejected_witness :
  exists img, CreateBloodhornPayload (inr sample_root) sample_out "out.bin" "kernel.efi" None = Ret (Some img) /\
    ValidatePayloadHeader img = Ret false.
Proof. apply (created_payload_rejected _ _ _ _ _ None sample_creates). Defined.
End Payload.

Module CbMain.

(** What the firmware, the configuration, the user and the loaders answer.
    [config_get_string], [ExitToCorebootWrapper] and the boot protocols' loaders
    are other code. *)
Record env := mk_env {
  cm_system_table : bool;                     (* gST, and with it gBS and gRT *)
  cm_locate : Z; cm_handle_count : Z; cm_handle_protocol : Z;
  cm_open_volume : Z + efi_dir;
  cm_towlower : Z -> Z;
  cm_inputs : list input;
  config_get_string : string -> string -> option bytes;
  linux_load_kernel : bytes -> option bytes -> option bytes -> Z;
  multiboot2_load_kernel : bytes -> option bytes -> Z;
  limine_load_kernel : bytes -> option bytes -> Z;
  chainload_file : bytes -> Z;
  BootFromNetwork : bytes -> option bytes -> option bytes -> Z;
  bloodchain_load_kernel : bytes -> option bytes -> option bytes -> Z;
  shell_start : Z;
  ExitToCorebootWrapper : Z;
  cm_load_image : option Z -> bytes -> Z;     (* LoadImage, by the parent's handle *)
  cm_image_protocol : Z; cm_start_image : bytes -> Z;
  cm_sha512 : bytes -> bytes }.

Inductive cb_event :=
| CbMenu
| CbBoot (f : Z)
| CbHashed (digest : bytes)
| CbLoad (image : bytes)
| CbOptions (options : bytes)
| CbStart (image : bytes)
| CbUnload
| CbWaitKey
| CbReboot.

Section Main.
Context (e : env).

(** ** The boot wrappers *)

Definition BootLinuxKernelWrapper : Z :=
  match config_get_string e "linux" "kernel" with
  | None => EFI_NOT_FOUND
  | Some k => linux_load_kernel e k (config_get_string e "linux" "initrd") (config_get_string e "linux" "cmdline")
  end.

Definition BootMultiboot2KernelWrapper : Z :=
  match config_get_string e "multiboot2" "kernel" with
  | None => EFI_NOT_FOUND
  | Some k => multiboot2_load_kernel e k (config_get_string e "multiboot2" "cmdline")
  end.

Definition BootLimineKernelWrapper : Z :=
  match config_get_string e "limine" "kernel" with
  | None => EFI_NOT_FOUND
  | Some k => limine_load_kernel e k (config_get_string e "limine" "cmdline")
  end.

Definition BootChainloadWrapper : Z :=
  match config_get_string e "chainload" "file" with
  | None => EFI_NOT_FOUND
  | Some f => chainload_file e f
  end.

Definition BootPxeNetworkWrapper : Z :=
  match config_get_string e "pxe" "kernel" with
  | None => EFI_NOT_FOUND
  | Some k => BootFromNetwork e k (config_get_string e "pxe" "initrd") (config_get_string e "pxe" "cmdline")
  end.

Definition BootBloodchainWrapper : Z :=
  match config_get_string e "bloodchain" "kernel" with
  | None => EFI_NOT_FOUND
  | Some k => bloodchain_load_kernel e k (config_get_string e "bloodchain" "initrd")
                (config_get_string e "bloodchain" "cmdline")
  end.

Definition BootRecoveryShellWrapper : Z := shell_start e.

(** The entries of the menu, in order, each with its boot function's number. *)
Definition cb_entries : list (string * Z) :=
  [("Linux Kernel (Coreboot)", 0); ("Multiboot2 Kernel (Coreboot)", 1); ("Limine Kernel (Coreboot)", 2);
   ("Chainload Bootloader (Coreboot)", 3); ("PXE Network Boot (Coreboot)", 4);
   ("BloodChain Protocol (Coreboot)", 5); ("Recovery Shell (Coreboot)", 6);
   ("Exit to Coreboot Firmware", 7)]%string.

Definition cb_wrappers : list Z :=
  [BootLinuxKernelWrapper; BootMultiboot2KernelWrapper; BootLimineKernelWrapper; BootChainloadWrapper;
   BootPxeNetworkWrapper; BootBloodchainWrapper; BootRecoveryShellWrapper; ExitToCorebootWrapper e].

Definition cb_menu : menu :=
  fold_left (fun m x => snd (AddBootEntry m (lit (fst x)) (Some (snd x)))) cb_entries initial_menu.

(** ** Loading and starting kernel.efi *)

(** [gBS] is dereferenced without a test. *)
Definition GetRootDirectory : run (Z + efi_dir) :=
  if negb (cm_system_table e) then UB
  else if EFI_ERROR (cm_locate e) || (cm_handle_count e =? 0) then mret (inl EFI_NOT_FOUND)
  else if EFI_ERROR (cm_handle_protocol e) then mret (inl (cm_handle_protocol e))
  else mret (cm_open_volume e).

(** The SHA-512 of the first [(uint32_t)Size] bytes is computed and dropped. *)
Definition LoadAndVerifyKernelCoreboot (path : string) : run (Z * option bytes * list cb_event) :=
  root ← GetRootDirectory;
  match root with
  | inl status => mret (status, None, [])
  | inr dir =>
      match dir path with
      | inl status => mret (status, None, [])
      | inr f =>
          r ← read_open_file f;
          match snd r with
          | None => mret (fst r, None, [])
          | Some data =>
              mret (EFI_SUCCESS, Some data, [CbHashed (cm_sha512 e (take (Z.to_nat (u32 (zlen data))) data))])
          end
      end
  end.

(** The static variable is initialised to NULL and never assigned. *)
Definition gImageHandle : option Z := None.

(** Here [Options] is NULL or the characters of the option string. *)
Definition ExecuteKernelImage (image : option bytes) (Options : option bytes) : run (Z * list cb_event) :=
  match image with
  | None => mret (EFI_INVALID_PARAMETER, [])
  | Some data =>
      if zlen data =? 0 then mret (EFI_INVALID_PARAMETER, [])
      else if negb (cm_system_table e) then UB
      else if EFI_ERROR (cm_load_image e gImageHandle data) then
        mret (cm_load_image e gImageHandle data, [CbLoad data])
      else
        let opts := match Options with
                    | Some o => if EFI_ERROR (cm_image_protocol e) then [] else [CbOptions o]
                    | None => [] end in
        let status := cm_start_image e data in
        if EFI_ERROR status then mret (status, CbLoad data :: opts ++ [CbStart data; CbUnload])
        else mret (EFI_SUCCESS, CbLoad data :: opts ++ [CbStart data])
  end.

(** ** The main function *)

(** The status the menu's boot function returns. *)
Definition boot_status (f : Z) : run Z :=
  match cb_wrappers !! Z.to_nat f with Some s => mret s | None => UB end.

Definition run_cb_menu : run (Z * list cb_event) :=
  r ← ShowBootMenu (cm_towlower e) cb_menu (cm_inputs e);
  match snd r with
  | Some (Boot f) => s ← boot_status f; mret (s, [CbMenu; CbBoot f])
  | Some (Return status) => mret (status, [CbMenu])
  | None => OutOfFuel
  end.

Definition BloodhornMainCoreboot : run (Z * list cb_event) :=
  m ← run_cb_menu;
  let '(status, menu) := m in
  r ← (if status =? EFI_SUCCESS then
         k ← LoadAndVerifyKernelCoreboot "kernel.efi";
         let '(st, data, hashed) := k in
         if EFI_ERROR st then mret (st, hashed)
         else x ← ExecuteKernelImage data None; mret (fst x, hashed ++ snd x)
       else mret (status, []));
  if (status =? EFI_SUCCESS) && negb (EFI_ERROR (fst r)) then mret (EFI_SUCCESS, menu ++ snd r)
  else mret (EFI_DEVICE_ERROR,
             menu ++ snd r ++ (if cm_system_table e then [CbWaitKey] else []) ++ [CbReboot]).

(** The entry point: what [CorebootPlatformInit] finds only selects messages,
    and it never fails. *)
Definition CorebootMain (mem : Z -> Z) : run (list cb_event) :=
  if fst (CorebootPlatformInit mem cb_start) then r ← BloodhornMainCoreboot; mret (snd r)
  else mret [].

(** ** The development library's callbacks *)

(** The strings given to [OutputString]; [console] is [gST && gST->ConOut]. *)
Definition bh_putc (console : bool) (c : Z) : list bytes := if console then [[c]] else [].

Definition bh_puts (console : bool) (str : option bytes) : list bytes :=
  match str with
  | Some s => if console then [take 511 s; [10]] else []
  | None => []
  end.

(** The status, and the map with its size and descriptor size on success: [None]
    in place of the map is the NULL pointer left when the first call succeeds. *)
Definition bh_get_memory_map (gBS : bool) (m : memory_map)
  : bh_status_t * option (option (list EFI_MEMORY_DESCRIPTOR) * Z) :=
  if negb gBS then (BH_ERROR, None)
  else if mm_probe m =? EFI_BUFFER_TOO_SMALL then
    if negb (mm_alloc m) then (BH_OUT_OF_MEMORY, None)
    else if EFI_ERROR (mm_status m) then (BH_ERROR, None)
    else (BH_SUCCESS, Some (Some (mm_descs m), mm_desc_size m))
  else if EFI_ERROR (mm_probe m) then (BH_ERROR, None)
  else (BH_SUCCESS, Some (None, mm_desc_size m)).

(** The framebuffer's address, width, height and depth. *)
Definition bh_get_graphics_info (mem : Z -> Z) (st : platform) (info : bool)
  : bh_status_t * option (Z * Z * Z * Z) :=
  if negb info then (BH_INVALID_ARGUMENT, None)
  else match CorebootGetFramebuffer mem st with
       | Some fb => (BH_SUCCESS, Some (physical_address fb, x_resolution fb, y_resolution fb, bits_per_pixel fb))
       | None => (BH_NOT_FOUND, None)
       end.

(** The first table with the ACPI GUID; [gST] is dereferenced without a test. *)
Definition bh_get_rsdp (gST : option (list (bytes * Z))) (AcpiTableGuid : bytes) : run (option Z) :=
  match gST with
  | None => UB
  | Some tables => mret (snd <$> List.find (fun t => bool_decide (fst t = AcpiTableGuid)) tables)
  end.

Definition bh_get_boot_device (gBS : bool) (status DeviceHandle : Z) : option Z :=
  if negb gBS || bool_decide (gImageHandle = None) then None
  else if EFI_ERROR status then None else Some DeviceHandle.

End Main.

(** ** Properties *)

(** [e] with another hash function. *)
Definition with_sha512 (e : env) (sha : bytes -> bytes) : env :=
  mk_env (cm_system_table e) (cm_locate e) (cm_handle_count e) (cm_handle_protocol e) (cm_open_volume e)
    (cm_towlower e) (cm_inputs e) (config_get_string e) (linux_load_kernel e) (multiboot2_load_kernel e)
    (limine_load_kernel e) (chainload_file e) (BootFromNetwork e) (bloodchain_load_kernel e) (shell_start e)
    (ExitToCorebootWrapper e) (cm_load_image e) (cm_image_protocol e) (cm_start_image e) sha.

(** A trace without the digests. *)
Definition visible (tr : list cb_event) : list cb_event :=
  List.filter (fun ev => match ev with CbHashed _ => false | _ => true end) tr.

Lemma visible_app l l' : visible (l ++ l') = visible l ++ visible l'.
Proof. apply List.filter_app. Qed.

Lemma load_same e sha path :
  LoadAndVerifyKernelCoreboot (with_sha512 e sha) path =
  (k ← LoadAndVerifyKernelCoreboot e path;
   let '(st, data, _) := k in
   mret (st, data, match data with
                   | Some d => [CbHashed (sha (take (Z.to_nat (u32 (zlen d))) d))] | None => [] end)).
Proof.
  unfold LoadAndVerifyKernelCoreboot. change (GetRootDirectory (with_sha512 e sha)) with (GetRootDirectory e).
  destruct (GetRootDirectory e) as [[st|dir]| |]; bind_step; try done.
  destruct (dir path) as [st|f]; [done|].
  destruct (read_open_file f) as [[st [data|]]| |]; bind_step; done.
Qed.

Lemma hashed_visible e path st data h :
  LoadAndVerifyKernelCoreboot e path = Ret (st, data, h) -> visible h = [].
Proof.
  unfold LoadAndVerifyKernelCoreboot. destruct (GetRootDirectory e) as [[s|dir]| |]; bind_step; try done;
    [by intros [= _ _ <-]|].
  destruct (dir path) as [s|f]; [by intros [= _ _ <-]|].
  destruct (read_open_file f) as [[s [d|]]| |]; bind_step; try done; by intros [= _ _ <-].
Qed.

(** The kernel's hash decides nothing in the coreboot entry point: with any other
    hash function [BloodhornMainCoreboot] returns the same status and performs
    the same loads, starts, waits and reboots. *)
Theorem coreboot_hash_ignored e sha :
  (r ← BloodhornMainCoreboot (with_sha512 e sha); mret (fst r, visible (snd r))) =
  (r ← BloodhornMainCoreboot e; mret (fst r, visible (snd r))).
Proof.
  unfold BloodhornMainCoreboot. change (run_cb_menu (with_sha512 e sha)) with (run_cb_menu e).
  destruct (run_cb_menu e) as [[status menu]| |]; bind_step; try done.
  destruct (status =? EFI_SUCCESS); [|done]. rewrite load_same.
  destruct (LoadAndVerifyKernelCoreboot e "kernel.efi") as [[[st data] h]| |] eqn:E; bind_step; try done.
  apply hashed_visible in E. destruct (EFI_ERROR st).
  - bind_step. cbn [fst snd]. cbn [andb]. change (cm_system_table (with_sha512 e sha)) with (cm_system_table e).
    destruct (negb _); bind_step; cbn [fst snd]; rewrite !visible_app, E; by destruct data.
  - change (ExecuteKernelImage (with_sha512 e sha)) with (ExecuteKernelImage e).
    change (cm_system_table (with_sha512 e sha)) with (cm_system_table e).
    destruct (ExecuteKernelImage e data None) as [[s es]| |]; bind_step; try done. cbn [fst snd andb].
    destruct (negb (EFI_ERROR s)); bind_step; cbn [fst snd]; rewrite !visible_app, E; by destruct data.
Qed.

(** kernel.efi, when it can be opened, respects the file protocol. *)
Definition volume_ok (e : env) : Prop :=
  match cm_open_volume e with
  | inl st => EFI_ERROR st = true
  | inr dir => file_ok (dir "kernel.efi"%string) /\
               (forall st, dir "kernel.efi"%string = inl st -> EFI_ERROR st = true)
  end.

Definition cb_menu_ends (e : env) : Prop :=
  exists m o, ShowBootMenu (cm_towlower e) cb_menu (cm_inputs e) = Ret (m, Some o).

Lemma cb_menu_built : built cb_menu.
Proof. unfold cb_menu, cb_entries. cbn [fold_left fst snd]. repeat apply built_add. apply built_init. Qed.

Lemma cb_menu_functions x f : x ∈ BootEntries cb_menu -> BootFunction x = Some f ->
  exists s, cb_entries !! Z.to_nat f = Some (s, f).
Proof.
  intros Hx Hf. assert (H : In f (omap BootFunction (BootEntries cb_menu))).
  { apply list_elem_of_In, list_elem_of_omap. by exists x. }
  change (In f [0; 1; 2; 3; 4; 5; 6; 7]) in H.
  cbn [In] in H. destruct_or! H; try done; subst f; eexists; reflexivity.
Qed.

(** The menu calls the wrapper of one of its entries, or returns. *)
Lemma run_cb_menu_ok e : cb_menu_ends e -> exists st ms, run_cb_menu e = Ret (st, ms) /\
  (ms = [CbMenu] \/ exists s f, cb_entries !! Z.to_nat f = Some (s, f) /\
     cb_wrappers e !! Z.to_nat f = Some st /\ ms = [CbMenu; CbBoot f]).
Proof.
  intros (m & o & E). unfold run_cb_menu.
  destruct (show_menu_ok (cm_towlower e) cb_menu (cm_inputs e) cb_menu_built) as (r & E' & Hr).
  rewrite E in E' |- *. injection E' as <-. bind_step. destruct Hr as (_ & Hes & _ & Ho). cbn [fst snd] in *.
  destruct o as [f|st]; [|eexists _, _; split; [reflexivity|by left]].
  destruct Ho as [(x & Hl & Hf)|]; [|done]. destruct (BootFunction x) as [f'|] eqn:Ef; [|done].
  injection Hf as ->. rewrite Hes in Hl. change (BootEntries (start_menu _ _)) with (BootEntries cb_menu) in Hl.
  destruct (cb_menu_functions x f') as [s Hs]; [by eapply list_elem_of_lookup_2|done|].
  destruct (lookup_lt_is_Some_2 (cb_wrappers e) (Z.to_nat f')) as [w Hw].
  { apply lookup_lt_Some in Hs. exact Hs. }
  unfold boot_status. rewrite Hw. bind_step. eexists _, _. split; [reflexivity|]. right. by exists s, f'.
Qed.

(** The image a start refers to. *)
Definition starts_kernel (e : env) (data : bytes) : Prop :=
  data <> [] /\ EFI_ERROR (cm_load_image e gImageHandle data) = false /\
  exists dir f, cm_open_volume e = inr dir /\ dir "kernel.efi"%string = inr f /\ data = f_data f.

(** What loading and starting kernel.efi adds to the trace. *)
Definition kernel_step (e : env) (st : Z) (es : list cb_event) : Prop :=
  (forall data, In (CbStart data) es -> starts_kernel e data) /\
  (EFI_ERROR st = false -> exists data, In (CbStart data) es /\ EFI_ERROR (cm_start_image e data) = false).

Lemma kernel_step_fails e st es : EFI_ERROR st = true -> (forall data, ~ In (CbStart data) es) -> kernel_step e st es.
Proof. intros H1 H2. split; [intros d H; by apply H2 in H|by rewrite H1]. Qed.

Lemma load_and_start e : volume_ok e -> cm_system_table e = true ->
  exists st es, (k ← LoadAndVerifyKernelCoreboot e "kernel.efi";
    let '(st, data, hashed) := k in
    if EFI_ERROR st then mret (st, hashed)
    else x ← ExecuteKernelImage e data None; mret (fst x, hashed ++ snd x)) = Ret (st, es) /\
    kernel_step e st es.
Proof.
  intros Hv Hs. unfold LoadAndVerifyKernelCoreboot, GetRootDirectory. rewrite Hs. cbn [negb].
  assert (Hfail : forall st, EFI_ERROR st = true -> kernel_step e st []) by (intros; apply kernel_step_fails; [done|by intros ? []]).
  destruct (EFI_ERROR (cm_locate e) || _).
  { bind_step. eexists _, _. split; [reflexivity|]. by apply Hfail. }
  destruct (EFI_ERROR (cm_handle_protocol e)) eqn:Ep.
  { bind_step. rewrite Ep. eexists _, _. split; [reflexivity|]. by apply Hfail. }
  bind_step. unfold volume_ok in Hv.
  destruct (cm_open_volume e) as [st|dir] eqn:Ev.
  { bind_step. rewrite Hv. eexists _, _. split; [reflexivity|]. by apply Hfail. }
  destruct Hv as [Hf Ho]. destruct (dir "kernel.efi"%string) as [st|f] eqn:Ef.
  { bind_step. rewrite (Ho st eq_refl). eexists _, _. split; [reflexivity|]. by apply Hfail, Ho. }
  destruct (read_open_file_ok f Hf) as ([st [data|]] & -> & Hr); bind_step; cbn [fst snd] in *.
  2:{ bind_step. rewrite Hr. eexists _, _. split; [reflexivity|]. by apply Hfail. }
  destruct Hr as [-> ->]. bind_step. change (EFI_ERROR EFI_SUCCESS) with false. cbv iota.
  unfold ExecuteKernelImage. destruct (Z.eqb_spec (zlen (f_data f)) 0) as [|Hz].
  { bind_step. eexists _, _. split; [reflexivity|]. apply kernel_step_fails; [done|]. intros d [|[]]; done. }
  rewrite Hs. cbn [negb]. destruct (EFI_ERROR (cm_load_image e gImageHandle (f_data f))) eqn:El.
  { bind_step. eexists _, _. split; [reflexivity|]. apply kernel_step_fails; [done|]. intros d [|[|[]]]; done. }
  assert (Hk : starts_kernel e (f_data f)).
  { split; [by intros E; rewrite E in Hz|]. split; [done|]. by exists dir, f. }
  destruct (EFI_ERROR (cm_start_image e (f_data f))) eqn:Est; bind_step; eexists _, _; (split; [reflexivity|]);
    cbn [fst snd app]; (split; [intros d Hin; cbn in Hin; destruct_or! Hin; try done; by injection Hin as <-|]).
  - by rewrite Est.
  - intros _. exists (f_data f). split; [cbn; auto|done].
Qed.

(**  The coreboot entry point: with a system table and a menu that ends, the main
    function returns; the only image it ever starts is the nonempty contents of
    kernel.efi, accepted by [LoadImage]; it reports success exactly after a start
    that succeeded, and otherwise waits for a key and reboots.  Since the image
    handle it passes as parent is NULL, on firmware whose [LoadImage] refuses a
    NULL parent, as the UEFI specification has it, no kernel is ever started. *)
Theorem coreboot_main_functional e :
  volume_ok e -> cm_system_table e = true -> cb_menu_ends e ->
  exists st tr, BloodhornMainCoreboot e = Ret (st, tr) /\
    (forall data, In (CbStart data) tr -> starts_kernel e data) /\
    (st = EFI_SUCCESS /\ (exists data, In (CbStart data) tr /\ EFI_ERROR (cm_start_image e data) = false) \/
     st = EFI_DEVICE_ERROR /\ exists tr', tr = tr' ++ [CbWaitKey; CbReboot]) /\
    ((forall data, EFI_ERROR (cm_load_image e None data) = true) ->
     st = EFI_DEVICE_ERROR /\ forall data, ~ In (CbStart data) tr).
Proof.
  intros Hv Hs Hm. unfold BloodhornMainCoreboot.
  destruct (run_cb_menu_ok e Hm) as (status & ms & -> & Hms). bind_step.
  assert (Hno : forall data, ~ In (CbStart data) ms).
  { intros d Hin. destruct Hms as [->|(? & ? & _ & _ & ->)]; cbn in Hin; destruct_or! Hin; done. }
  assert (Hend : forall es d, In (CbStart d) (ms ++ es ++ [CbWaitKey; CbReboot]) -> In (CbStart d) es).
  { intros es d Hin. apply in_app_or in Hin as [Hin|Hin]; [by apply Hno in Hin|].
    apply in_app_or in Hin as [Hin|Hin]; [done|]. cbn in Hin; destruct_or! Hin; done. }
  rewrite Hs. destruct (status =? EFI_SUCCESS).
  2:{ bind_step. cbn [andb snd app]. eexists _, _. split; [reflexivity|].
      assert (Hn : forall d, ~ In (CbStart d) (ms ++ [CbWaitKey; CbReboot])) by (intros d H; by apply (Hend []) in H).
      split_and!; [intros d H; by apply Hn in H|right; by eauto|by split]. }
  destruct (load_and_start e Hv Hs) as (st & es & -> & Hk & Hst). bind_step. cbn [andb fst snd].
  destruct (EFI_ERROR st) eqn:Ee; cbn [negb].
  - eexists _, _. split; [reflexivity|]. rewrite (app_assoc ms). split_and!.
    + intros d Hin. apply Hk. apply Hend. by rewrite app_assoc.
    + right. split; [done|]. by exists (ms ++ es).
    + intros Hl. split; [done|]. intros d Hin. rewrite <- app_assoc in Hin. apply Hend, Hk in Hin.
      destruct Hin as (_ & H & _). by rewrite Hl in H.
  - destruct (Hst eq_refl) as (data & Hin & Hs'). eexists _, _. split; [reflexivity|].
    assert (Hkd := Hk _ Hin). split_and!.
    + intros d Hd. apply in_app_or in Hd as [Hd|Hd]; [by apply Hno in Hd|by apply Hk].
    + left. split; [done|]. exists data. split; [apply in_or_app; by right|done].
    + intros Hl. destruct Hkd as (_ & H & _). by rewrite Hl in H.
Qed.

(** A machine on which Enter boots the first entry, whose loader succeeds. *)
Definition sample_env : env :=
  mk_env true EFI_SUCCESS 1 EFI_SUCCESS (inr sample_root) ascii_lower [enter]
    (fun s k => if String.eqb k "kernel" then Some (lit "vmlinuz") else None)
    (fun _ _ _ => EFI_SUCCESS) (fun _ _ => EFI_SUCCESS) (fun _ _ => EFI_SUCCESS) (fun _ => EFI_SUCCESS)
    (fun _ _ _ => EFI_SUCCESS) (fun _ _ _ => EFI_SUCCESS) EFI_SUCCESS EFI_SUCCESS
    (fun parent _ => match parent with None => EFI_INVALID_PARAMETER | Some _ => EFI_SUCCESS end)
    EFI_SUCCESS (fun _ => EFI_SUCCESS) (fun _ => []).

Lemma coreboot_main_functional_witness :
  exists st tr, BloodhornMainCoreboot sample_env = Ret (st, tr) /\ st = EFI_DEVICE_ERROR.
Proof.
  destruct (coreboot_main_functional sample_env) as (st & tr & E & _ & _ & H);
    [by vm_compute|done|eexists _, _; vm_compute; reflexivity|].
  exists st, tr. split; [exact E|]. apply H. done.
Defined.
End CbMain.
