(* ===== verification/UefiHelpers.v ===== *)
(** * Helpers on the UEFI services (src/uefi/uefi.c, src/boot/secure.c, localization.c, src/main.c)

    Finding the boot device's root directory, reading a file of it, starting an
    image, and the small functions of main.c around them.  The boot services are
    parameters: what they answer is a status that is an error, or a value.  A log
    records what is opened, allocated, closed and freed. *)

From Stdlib Require Import String.
From S2P Require Import Prelude.
From S2P Require Import BootConfig.
From S2P Require Import PhysMem.
From S2P Require Import Coreboot.
From S2P Require Import CorebootPayload.
Import ListNotations.
#[local] Open Scope list_scope.

(** ** The root directory *)

Inductive guid := gEfiLoadedImageProtocolGuid | gEfiDevicePathProtocolGuid | gEfiSimpleFileSystemProtocolGuid.

(** [HandleProtocol] on a handle: an error, or the interface (the loaded image is
    given by its [DeviceHandle]); [OpenVolume] of a file system. *)
Record services := mk_services {
  HandleProtocol : Z -> guid -> Z + Z;
  OpenVolume : Z -> Z + efi_dir }.

Definition GetRootFileSystem (bs : services) (gImageHandle : Z) : Z + efi_dir :=
  match HandleProtocol bs gImageHandle gEfiLoadedImageProtocolGuid with
  | inl status => inl status
  | inr DeviceHandle =>
      match HandleProtocol bs DeviceHandle gEfiDevicePathProtocolGuid with
      | inl status => inl status
      | inr _ =>
          match HandleProtocol bs DeviceHandle gEfiSimpleFileSystemProtocolGuid with
          | inl status => inl status
          | inr FileSystem => OpenVolume bs FileSystem
          end
      end
  end.

(** [get_root] of localization.c (and font.c). *)
Definition get_root (bs : services) (gImageHandle : Z) : Z + efi_dir :=
  match HandleProtocol bs gImageHandle gEfiLoadedImageProtocolGuid with
  | inl status => inl status
  | inr DeviceHandle =>
      match HandleProtocol bs DeviceHandle gEfiSimpleFileSystemProtocolGuid with
      | inl status => inl status
      | inr Fs => OpenVolume bs Fs
      end
  end.

(** [get_root_dir] of main.c also prints which step failed. *)
Definition get_root_dir (bs : services) (gImageHandle : Z) : (Z + efi_dir) * list string :=
  match HandleProtocol bs gImageHandle gEfiLoadedImageProtocolGuid with
  | inl status => (inl status, ["Failed to get loaded image protocol: %r\n"%string])
  | inr DeviceHandle =>
      match HandleProtocol bs DeviceHandle gEfiSimpleFileSystemProtocolGuid with
      | inl status => (inl status, ["Failed to get file system protocol: %r\n"%string])
      | inr Fs =>
          match OpenVolume bs Fs with
          | inl status => (inl status, ["Failed to open root volume: %r\n"%string])
          | inr root => (inr root, [])
          end
      end
  end.

(** ** Reading a file *)

Inductive resource := RRoot | RFile | RInfo | RBuffer.
Inductive res_event := Acquire (r : resource) | Release (r : resource).

#[global] Instance resource_eq_dec : EqDecision resource.
Proof. solve_decision. Defined.

(** What a log leaves open or allocated. *)
Definition held (log : list res_event) : list resource :=
  fold_left (fun l e => match e with
    | Acquire r => l ++ [r]
    | Release r => List.filter (fun x => negb (bool_decide (x = r))) l
    end) log [].

(** [GetInfo] with a NULL buffer: the size passed in decides. *)
Record info_probe := mk_probe { info_size : Z; null_status : Z }.
Definition probe (p : info_probe) (InfoSize : Z) : Z :=
  if InfoSize <? info_size p then EFI_BUFFER_TOO_SMALL else null_status p.

(** [ReadFile] of uefi.c.  [InfoSize] is what the uninitialised variable holds. *)
Definition ReadFile (bs : services) (gImageHandle InfoSize : Z) (p : info_probe) (FileName : string)
  : run (Z * option bytes * list res_event) :=
  match GetRootFileSystem bs gImageHandle with
  | inl status => mret (status, None, [])
  | inr root =>
      match root FileName with
      | inl status => mret (status, None, [Acquire RRoot])
      | inr f =>
          let log := [Acquire RRoot; Acquire RFile] in
          if negb (probe p InfoSize =? EFI_BUFFER_TOO_SMALL) then mret (probe p InfoSize, None, log ++ [Release RFile])
          else if negb (f_info_alloc f) then mret (EFI_OUT_OF_RESOURCES, None, log ++ [Release RFile])
          else
            let log := log ++ [Acquire RInfo] in
            if EFI_ERROR (f_info_status f) then mret (f_info_status f, None, log ++ [Release RInfo; Release RFile])
            else if negb (f_buf_alloc f) then mret (EFI_OUT_OF_RESOURCES, None, log ++ [Release RInfo; Release RFile])
            else
              let log := log ++ [Acquire RBuffer] in
              let log := log ++ [Release RInfo; Release RFile] in
              if EFI_ERROR (f_read_status f) then mret (f_read_status f, None, log ++ [Release RBuffer])
              else if f_size f <? zlen (f_data f) then UB
              else mret (EFI_SUCCESS, Some (f_data f), log)
      end
  end.

(** [read_text_file] of localization.c; the size starts at 0, and with a first
    [GetInfo] that succeeds the information is read through NULL. *)
Definition read_text_file (bs : services) (gImageHandle : Z) (path : string)
  : run (Z * option bytes * list res_event) :=
  match get_root bs gImageHandle with
  | inl status => mret (status, None, [])
  | inr root =>
      match root path with
      | inl status => mret (status, None, [Acquire RRoot])
      | inr f =>
          let log := [Acquire RRoot; Acquire RFile] in
          if f_info_probe f =? EFI_BUFFER_TOO_SMALL then
            if negb (f_info_alloc f) then mret (EFI_OUT_OF_RESOURCES, None, log ++ [Release RFile])
            else
              let log := log ++ [Acquire RInfo] in
              if EFI_ERROR (f_info_status f) then mret (f_info_status f, None, log ++ [Release RInfo; Release RFile])
              else if negb (f_buf_alloc f) then mret (EFI_OUT_OF_RESOURCES, None, log ++ [Release RInfo; Release RFile])
              else
                let log := log ++ [Acquire RBuffer; Release RFile; Release RInfo] in
                if EFI_ERROR (f_read_status f) then mret (f_read_status f, None, log ++ [Release RBuffer])
                else if f_size f <? zlen (f_data f) then UB
                else mret (EFI_SUCCESS, Some (f_data f), log)
          else if EFI_ERROR (f_info_probe f) then mret (f_info_probe f, None, log ++ [Release RFile])
          else UB
      end
  end.

(** ** Starting an image (secure.c) *)

Module Secure.

(** What [LoadImage], [HandleProtocol] on the new handle (whether [LoadedImage] is
    not NULL then) and [StartImage] answer. *)
Record image_services := mk_image {
  LoadImage : bytes -> Z + Z; has_loaded_image : bool; StartImage : Z }.

Inductive image_event :=
| EvLoadOptions (options : bytes) (size : Z)
| EvStart (handle : Z)
| EvUnload (handle : Z).

Definition ExecuteKernel (s : image_services) (ImageBuffer : bytes) (CmdLine : option bytes) : Z * list image_event :=
  match LoadImage s ImageBuffer with
  | inl status => (status, [])
  | inr ImageHandle =>
      let options :=
        match CmdLine with
        | Some c => if has_loaded_image s then [EvLoadOptions c (u64 ((zlen c + 1) * 2))] else []
        | None => []
        end in
      (StartImage s,
       options ++ [EvStart ImageHandle] ++ (if EFI_ERROR (StartImage s) then [EvUnload ImageHandle] else []))
  end.
End Secure.

(** ** main.c *)

(** What [InitializeBloodHorn] prints, and [gCorebootAvailable] with the platform
    state after it. *)
Definition InitializeBloodHorn (mem : phys) (st : platform) : Z * bool * platform * list string :=
  let '(gCorebootAvailable, st) := CorebootPlatformInit mem st in
  (EFI_SUCCESS, gCorebootAvailable, st,
   if gCorebootAvailable then
     ["BloodHorn Bootloader (Coreboot + UEFI Hybrid Mode)\n"%string;
      "Coreboot firmware detected - using hybrid initialization\n"%string] ++
     (if CorebootInitGraphics st then ["Graphics initialized using Coreboot framebuffer\n"%string] else []) ++
     (if CorebootInitStorage then ["Storage initialized by Coreboot\n"%string] else []) ++
     (if CorebootInitNetwork then ["Network initialized by Coreboot\n"%string] else []) ++
     (if CorebootInitTpm then ["TPM initialized by Coreboot\n"%string] else []) ++
     ["Using UEFI services for boot menu and file operations\n"%string]
   else
     ["BloodHorn Bootloader (UEFI Mode)\n"%string;
      "Coreboot firmware not detected - using UEFI initialization\n"%string]).

(** The status, [gRunningAsCorebootPayload] and [gCorebootAvailable] when set, and
    what [CorebootMain] did. *)
Definition HandleCorebootPayloadEntry (e : CbMain.env) (mem : phys) (st : platform)
  : run (Z * option (bool * bool) * list CbMain.cb_event) :=
  if fst (CorebootPlatformInit mem st) then
    events ← CbMain.CorebootMain e mem;
    mret (EFI_SUCCESS, Some (true, true), events)
  else mret (EFI_NOT_FOUND, None, []).

(** [CHAR16 C[2] = {c, 0}] for a signed [char]: one string for [OutputString]. *)
Definition bh_uefi_putc (c : Z) : list bytes := [if wrap 16 (if c <? 128 then c else c - 256) =? 0 then []
                                                 else [wrap 16 (if c <? 128 then c else c - 256)]].
Definition bh_uefi_puts (s : bytes) : list bytes := flat_map bh_uefi_putc s.

Inductive reset := EfiResetCold | EfiResetWarm | EfiResetShutdown.
Definition bh_uefi_reboot : reset := EfiResetWarm.
Definition bh_uefi_shutdown : reset := EfiResetShutdown.

(** ** Lemmas and properties *)

(** The three ways to the root directory agree; only [GetRootFileSystem] also
    asks for a device path. *)
Theorem root_lookups_agree bs h :
  fst (get_root_dir bs h) = get_root bs h /\
  (forall dev path, HandleProtocol bs h gEfiLoadedImageProtocolGuid = inr dev ->
     HandleProtocol bs dev gEfiDevicePathProtocolGuid = inr path -> GetRootFileSystem bs h = get_root bs h) /\
  (forall dir, GetRootFileSystem bs h = inr dir -> get_root bs h = inr dir).
Proof.
  unfold get_root_dir, get_root, GetRootFileSystem. split; [by repeat case_match|]. split.
  - intros dev path -> ->. done.
  - intros dir. by repeat case_match.
Qed.

(** [read_text_file] is [ReadWholeFileAscii] on the root directory. *)
Theorem read_text_file_whole bs h path :
  (r ← read_text_file bs h path; mret (fst r)) =
  match get_root bs h with inl status => mret (status, None) | inr root => ReadWholeFileAscii root path end.
Proof.
  unfold read_text_file, ReadWholeFileAscii. destruct (get_root bs h) as [|root]; [done|].
  destruct (root path) as [|f]; [done|]. by repeat case_match.
Qed.

(** What a file reader still holds when it returns: the root directory when it
    was opened, and the buffer it gives to its caller. *)
Definition reader_holds (opened : bool) (out : option bytes) (log : list res_event) : Prop :=
  held log = (if opened then [RRoot] else []) ++ match out with Some _ => [RBuffer] | None => [] end.

(** The ways out of a reader. *)
Ltac reader_out := do 3 eexists; split; [reflexivity|]; split; [vm_compute; reflexivity|].
Ltac reader_paths :=
  cbv zeta; repeat match goal with |- context [if ?b then _ else _] => destruct b eqn:? end; reader_out.

(** Firmware that answers as the UEFI specification says: a read gives at most
    the size of the file, and [GetInfo] with a size of 0 does not succeed. *)
Definition file_honest (bs : services) (h : Z) (path : string) : Prop := forall root f,
  get_root bs h = inr root -> root path = inr f ->
  zlen (f_data f) <= f_size f /\ (f_info_probe f = EFI_BUFFER_TOO_SMALL \/ EFI_ERROR (f_info_probe f) = true).

(** C20. Both file readers end, give the whole file, and release what they hold on
    every path: on firmware that answers as specified, each way out of [ReadFile]
    and [read_text_file], errors included, closes the file and frees the
    information block (and the buffer, when there is no result); the only thing
    left besides the result is the root directory, which neither of them closes. *)
Theorem file_readers_release bs h garbage p path r : file_honest bs h path ->
  r = ReadFile bs h garbage p path \/ r = read_text_file bs h path ->
  exists st out log, r = Ret (st, out, log) /\
  reader_holds (negb (bool_decide (log = []))) out log /\
  match out with
  | Some data => st = EFI_SUCCESS /\ exists root f, get_root bs h = inr root /\ root path = inr f /\ data = f_data f
  | None => EFI_ERROR st = true \/ log = [] \/ log = [Acquire RRoot] \/ st = null_status p
  end.
Proof.
  intros Hh [->| ->].
  - unfold ReadFile. destruct (GetRootFileSystem bs h) as [e|root] eqn:Er; [reader_out; by right; left|].
    assert (Eg : get_root bs h = inr root) by by apply root_lookups_agree.
    destruct (root path) as [e|f] eqn:Ef; [reader_out; by right; right; left|].
    destruct (Hh root f Eg Ef) as (Hlen & _). apply Z.ltb_ge in Hlen. rewrite Hlen.
    unfold probe. destruct (garbage <? info_size p); [rewrite Z.eqb_refl; cbn [negb]|]; reader_paths; solve [by left|by right; right; right|eauto 10].
  - unfold read_text_file. destruct (get_root bs h) as [e|root] eqn:Er; [reader_out; by right; left|].
    destruct (root path) as [e|f] eqn:Ef; [reader_out; by right; right; left|].
    destruct (Hh root f Er Ef) as (Hlen & Hp). apply Z.ltb_ge in Hlen. rewrite Hlen.
    destruct Hp as [->|Hp]; [rewrite Z.eqb_refl|rewrite Hp]; reader_paths; solve [by left|eauto 10].
Qed.

Definition demo_file (data : bytes) : efi_file := mk_file EFI_BUFFER_TOO_SMALL true EFI_SUCCESS (zlen data) true EFI_SUCCESS data.
Definition demo_dir : efi_dir := fun name => if String.eqb name "k" then inr (demo_file [1; 2; 3]) else inl EFI_NOT_FOUND.
Definition demo_services : services := mk_services (fun _ _ => inr 1) (fun _ => inr demo_dir).

Lemma file_readers_release_witness :
  exists st out log, ReadFile demo_services 7 0 (mk_probe 80 EFI_INVALID_PARAMETER) "k" = Ret (st, out, log) /\
  out = Some [1; 2; 3] /\ reader_holds (negb (bool_decide (log = []))) out log.
Proof.
  destruct (file_readers_release demo_services 7 0 (mk_probe 80 EFI_INVALID_PARAMETER) "k"
    (ReadFile demo_services 7 0 (mk_probe 80 EFI_INVALID_PARAMETER) "k")) as (st & out & log & E & Hh & _).
  - intros root f [= <-] [= <-]. split; [vm_compute; discriminate|by left].
  - by left.
  - exists st, out, log. split; [exact E|]. split; [|exact Hh]. revert E. vm_compute. by intros [= _ <- _].
Defined.

(** [InfoSize] is never initialised: when the memory happens to hold at least the
    size of the information block, [ReadFile] returns what [GetInfo] says of its
    NULL buffer (which may be success) and gives no data, for any file. *)
Theorem read_file_uninitialised bs h garbage p path root f :
  GetRootFileSystem bs h = inr root -> root path = inr f -> info_size p <= garbage ->
  null_status p <> EFI_BUFFER_TOO_SMALL ->
  ReadFile bs h garbage p path = Ret (null_status p, None, [Acquire RRoot; Acquire RFile; Release RFile]).
Proof.
  intros Er Ef Hg Hn. unfold ReadFile, probe. rewrite Er, Ef, (proj2 (Z.ltb_ge _ _)) by lia.
  rewrite (proj2 (Z.eqb_neq _ _)) by done. reflexivity.
Qed.

(** An image that does not start is unloaded, and only an image that was loaded
    is started, with its own options. *)
Theorem secure_execute s image cmd : let '(status, evs) := Secure.ExecuteKernel s image cmd in
  (forall e, Secure.LoadImage s image = inl e -> (status, evs) = (e, [])) /\
  (forall h, Secure.LoadImage s image = inr h ->
     status = Secure.StartImage s /\ In (Secure.EvStart h) evs /\
     (In (Secure.EvUnload h) evs <-> EFI_ERROR status = true) /\
     (forall c n, In (Secure.EvLoadOptions c n) evs -> cmd = Some c /\ n = u64 ((zlen c + 1) * 2))).
Proof.
  unfold Secure.ExecuteKernel. destruct (Secure.LoadImage s image) as [e|h]; [split; [by intros ? [= ->]|done]|].
  split; [done|]. intros ? [= <-]. split; [done|].
  destruct cmd as [c|], (Secure.has_loaded_image s), (EFI_ERROR (Secure.StartImage s)); cbn; naive_solver.
Qed.

(** A character above 127 is sign-extended: it is not the character that is
    printed; ASCII text is printed as it is. *)
Theorem uefi_puts_ascii s : Forall (fun c => 0 < c < 128) s -> bh_uefi_puts s = map (fun c => [c]) s.
Proof.
  unfold bh_uefi_puts. induction 1 as [|c s Hc _ IH]; [done|]. cbn [flat_map map]. rewrite IH. unfold bh_uefi_putc.
  rewrite (proj2 (Z.ltb_lt c 128)) by lia. rewrite wrap_small by (unfold in_u; lia).
  by rewrite (proj2 (Z.eqb_neq c 0)) by lia.
Qed.

Example uefi_putc_latin : bh_uefi_putc 233 = [[65513]].
Proof. reflexivity. Qed.
