(* ===== verification/Multiboot1.v ===== *)
(** * The Multiboot 1 loader (src/boot/Arch32/multiboot1.c)

    Finding the load addresses in the kernel file, placing the kernel (this part
    is shared with Multiboot 2), building the information structure at its fixed
    address, entering the kernel; checking a kernel, loading modules.  [load_file] is other code: a parameter that gives the file's
    bytes, whose number is its 32-bit size.  Memory is that of [PhysMem.v]. *)

From S2P Require Import Prelude.
From S2P Require Import PhysMem.
Import ListNotations.
#[local] Open Scope list_scope.

(** The result of a loader: what it returns, and the kernel entry if there was
    one (a kernel that returns is followed by [return 0]). *)
Abbreviation loaded := (Z * option jump)%type.

(** [cmdline && strlen(cmdline) > 0] *)
Definition given (s : option bytes) : option bytes :=
  match s with Some [] => None | _ => s end.

(** The addresses the two header parsers collect. *)
Record mb_addrs := mk_addrs { load_addr : Z; load_end_addr : Z; bss_end_addr : Z; entry_addr : Z }.

Definition no_addrs : mb_addrs := mk_addrs 0 0 0 0.

(** The default addresses, the copy of the kernel and the clearing of its bss, in
    both loaders: memory and the entry address. *)
Definition mb_place (mem : phys) (data : bytes) (a : mb_addrs) : phys * Z :=
  let kernel_size := zlen data in
  let load := if load_addr a =? 0 then 0x100000 else load_addr a in
  let entry := if entry_addr a =? 0 then load else entry_addr a in
  let load_size := u32 (load_end_addr a - load) in
  let load_size := if kernel_size <? load_size then kernel_size else load_size in
  let mem := poke mem load (sub data 0 load_size) in
  let mem := if load_end_addr a <? bss_end_addr a
             then fill mem (load_end_addr a) 0 (bss_end_addr a - load_end_addr a) else mem in
  (mem, entry).

(** Addresses the placement can honour: no address below 1 MB, and a bss that
    starts at the load end. *)
Definition addrs_ok (a : mb_addrs) : Prop :=
  in_u 32 (load_addr a) /\ in_u 32 (load_end_addr a) /\
  (load_addr a = 0 \/ 0x100000 <= load_addr a) /\
  (load_end_addr a < bss_end_addr a -> 0x100000 <= load_addr a <= load_end_addr a).

Definition load_of (a : mb_addrs) : Z := if load_addr a =? 0 then 0x100000 else load_addr a.
Definition size_of (data : bytes) (a : mb_addrs) : Z := Z.min (zlen data) (u32 (load_end_addr a - load_of a)).

(** The kernel's bytes and its cleared bss, in memory [m]. *)
Definition kernel_at (m : phys) (data : bytes) (a : mb_addrs) : Prop :=
  holds m (load_of a) (sub data 0 (size_of data a)) /\
  (load_end_addr a < bss_end_addr a -> holds m (load_end_addr a) (zeros (bss_end_addr a - load_end_addr a))).

Lemma mb_place_spec mem data a : addrs_ok a ->
  kernel_at (fst (mb_place mem data a)) data a /\
  snd (mb_place mem data a) = (if entry_addr a =? 0 then load_of a else entry_addr a).
Proof.
  intros (Hlu & Hend & Hload & Hbss). unfold mb_place, kernel_at. fold (load_of a). cbv zeta. cbn [fst snd].
  split; [|done].
  replace (if zlen data <? u32 (load_end_addr a - load_of a) then zlen data else u32 (load_end_addr a - load_of a))
    with (size_of data a)
    by (unfold size_of; destruct (Z.ltb_spec (zlen data) (u32 (load_end_addr a - load_of a))); lia).
  pose proof (wrap_in_u 32 (load_end_addr a - load_of a) ltac:(lia)) as Hw. unfold in_u in *.
  pose proof (zlen_nonneg data).
  destruct (Z.ltb_spec (load_end_addr a) (bss_end_addr a)) as [Hb|Hb]; [|split; [apply holds_poke|lia]].
  specialize (Hbss Hb). split; [|intros _; apply holds_fill; lia].
  apply holds_fill_apart; [|apply holds_poke]. unfold apart, size_of, load_of in *.
  destruct (Z.eqb_spec (load_addr a) 0); [lia|]. rewrite wrap_small in * by (split; lia).
  rewrite zlen_sub by lia. lia.
Qed.

(** Writes below 1 MB leave it in place. *)
Lemma kernel_at_above mem m data a : addrs_ok a -> kernel_at mem data a ->
  (forall b l, 0x100000 <= b -> holds mem b l -> holds m b l) -> kernel_at m data a.
Proof.
  intros (Hlu & Hend & Hload & Hbss) [H1 H2] Hm. split.
  - apply Hm; [|done]. unfold load_of. destruct (Z.eqb_spec (load_addr a) 0); lia.
  - intros Hb. apply Hm; [specialize (Hbss Hb); lia|by apply H2].
Qed.

Module Mb1.

Definition MULTIBOOT_HEADER_MAGIC : Z := 0x1BADB002.
Definition MULTIBOOT_BOOTLOADER_MAGIC : Z := 0x2BADB002.
Definition MULTIBOOT_HEADER_TAG_LOAD : Z := 1.
Definition MULTIBOOT_HEADER_TAG_ENTRY : Z := 3.
Definition MULTIBOOT_INFO_MEMORY : Z := 1.
Definition MULTIBOOT_INFO_BOOTDEV : Z := 2.
Definition MULTIBOOT_INFO_CMDLINE : Z := 4.

(** Offsets in [struct multiboot_info] and its size; a memory-map entry is padded
    to 32 bytes. *)
Definition i_flags : Z := 0.
Definition i_mem_lower : Z := 4.
Definition i_mem_upper : Z := 8.
Definition i_boot_device : Z := 12.
Definition i_cmdline : Z := 16.
Definition i_mmap_length : Z := 44.
Definition i_mmap_addr : Z := 48.
Definition sizeof_info : Z := 88.
Definition sizeof_mmap_entry : Z := 32.

Section Load.
Context (load_file : bytes -> option bytes).

(** [for (i = 1; i < 8; i++)], [n] iterations from [i]. *)
Fixpoint parse_header (n : nat) (data : bytes) (i : Z) (a : mb_addrs) : run mb_addrs :=
  match n with
  | O => mret a
  | S n =>
      h ← word data i;
      a ← (if h =? MULTIBOOT_HEADER_TAG_LOAD then
             l ← word data (i + 1); e ← word data (i + 2); b ← word data (i + 3);
             mret (mk_addrs l e b (entry_addr a))
           else if h =? MULTIBOOT_HEADER_TAG_ENTRY then
             e ← word data (i + 1);
             mret (mk_addrs (load_addr a) (load_end_addr a) (bss_end_addr a) e)
           else mret a);
      parse_header n data (i + 1) a
  end.

(** [mmap[k] = {28, addr, len, 1}] for the array at 0x90100. *)
Definition put_mmap (mem : phys) (k addr len : Z) : phys :=
  let e := 0x90100 + sizeof_mmap_entry * k in
  let mem := poke_le mem e 4 (sizeof_mmap_entry - 4) in
  let mem := poke_le mem (e + 8) 8 addr in
  let mem := poke_le mem (e + 16) 8 len in
  poke_le mem (e + 24) 4 1.

(** The information structure at 0x90000. *)
Definition put_info (mem : phys) (cmdline : option bytes) : phys :=
  let mb_info := 0x90000 in
  let mem := fill mem mb_info 0 sizeof_info in
  let mem := poke_le mem (mb_info + i_flags) 4
               (MULTIBOOT_INFO_MEMORY ||| MULTIBOOT_INFO_CMDLINE ||| MULTIBOOT_INFO_BOOTDEV) in
  let mem := poke_le mem (mb_info + i_mem_lower) 4 640 in
  let mem := poke_le mem (mb_info + i_mem_upper) 4 0x7FE00 in
  let mem := match given cmdline with
             | Some c => poke_le (poke mem 0x90020 (c ++ [0])) (mb_info + i_cmdline) 4 0x90020
             | None => mem end in
  let mem := poke_le mem (mb_info + i_boot_device) 4 0x8000 in
  let mem := put_mmap mem 0 0 0x100000 in
  let mem := put_mmap mem 1 0x100000 0x7FF00000 in
  let mem := poke_le mem (mb_info + i_mmap_length) 4 (2 * sizeof_mmap_entry) in
  poke_le mem (mb_info + i_mmap_addr) 4 0x90100.

Definition multiboot1_load_kernel (mem : phys) (kernel_path : bytes) (cmdline : option bytes) : run loaded :=
  match load_file kernel_path with
  | None => mret (-1, None)
  | Some data =>
      h ← word data 0;
      if negb (h =? MULTIBOOT_HEADER_MAGIC) then mret (-1, None) else
      a ← parse_header 7 data 1 no_addrs;
      let '(mem, entry) := mb_place mem data a in
      let mem := put_info mem cmdline in
      mret (0, Some (mk_jump entry [MULTIBOOT_BOOTLOADER_MAGIC; 0x90000] mem))
  end.

(** [for (i = 0; i < 8; i++) checksum += header[i]] *)
Fixpoint sum_words (n : nat) (data : bytes) (i s : Z) : run Z :=
  match n with
  | O => mret s
  | S n => w ← word data i; sum_words n data (i + 1) (u32 (s + w))
  end.

Definition multiboot1_verify_kernel (kernel_path : bytes) : run Z :=
  match load_file kernel_path with
  | None => mret (-1)
  | Some data =>
      h ← word data 0;
      if negb (h =? MULTIBOOT_HEADER_MAGIC) then mret (-1) else
      s ← sum_words 8 data 0 0;
      mret (if s =? 0 then 0 else -1)
  end.

(** The static [module_count] is the state. *)
Definition multiboot1_load_module (mem : phys) (module_count : Z) (module_path : bytes) (cmdline : option bytes)
  : Z * phys * Z :=
  match load_file module_path with
  | None => (-1, mem, module_count)
  | Some data =>
      let module_addr := 0x200000 in
      let mem := poke mem module_addr data in
      let m := 0x90200 + 16 * module_count in
      let mem := poke_le mem m 4 module_addr in
      let mem := poke_le mem (m + 4) 4 (u32 (module_addr + zlen data)) in
      let mem := poke_le mem (m + 8) 4 (0x90300 + module_count * 64) in
      let mem := match given cmdline with
                 | Some c => poke mem (fetch_le mem (m + 8) 4) (c ++ [0])
                 | None => mem end in
      (0, mem, module_count + 1)
  end.

Definition boot_multiboot1_kernel (mem : phys) (data : bytes) (cmdline : option bytes) : loaded :=
  let info := 0x1000 in
  let mem := fill mem info 0 sizeof_info in
  let mem := poke_le mem (info + i_flags) 4 (MULTIBOOT_INFO_MEMORY ||| MULTIBOOT_INFO_CMDLINE) in
  let mem := poke_le mem (info + i_mem_lower) 4 640 in
  let mem := poke_le mem (info + i_mem_upper) 4 0x7FE00 in
  let mem := match given cmdline with
             | Some c => poke_le (poke mem 0x2000 (c ++ [0])) (info + i_cmdline) 4 0x2000
             | None => mem end in
  let mem := poke mem 0x100000 data in
  (0, Some (mk_jump 0x100000 [MULTIBOOT_BOOTLOADER_MAGIC; info] mem)).

End Load.

(** ** Lemmas *)

Lemma word_ok data i : 0 <= i -> 4 * i + 4 <= zlen data -> word data i = Ret (le_val (sub data (4 * i) 4)).
Proof. intros. unfold word, rd_le. by replace (_ && _) with true by (symmetry; zbool). Qed.

(** A file of eleven words is parsed without leaving it. *)
Lemma parse_header_total n : forall data i a, 0 <= i -> 4 * (i + Z.of_nat n + 3) <= zlen data ->
  exists a', parse_header n data i a = Ret a'.
Proof.
  induction n as [|n IH]; intros data i a Hi Hl; [by eexists|]. cbn [parse_header].
  rewrite (word_ok data i) by lia. bind_step.
  destruct (_ =? MULTIBOOT_HEADER_TAG_LOAD).
  { rewrite (word_ok data (i + 1)), (word_ok data (i + 2)), (word_ok data (i + 3)) by lia. bind_step. apply IH; lia. }
  destruct (_ =? MULTIBOOT_HEADER_TAG_ENTRY); [rewrite (word_ok data (i + 1)) by lia|]; bind_step; apply IH; lia.
Qed.

(** The command line as the kernel reads it: the memory-map fields of the
    structure lie inside it. *)
Definition cmdline_read (c : bytes) : bytes := if zlen c <? 12 then c else take 12 c ++ [64].

Definition info_bytes : bytes :=
  le_bytes 4 7 ++ le_bytes 4 640 ++ le_bytes 4 0x7FE00 ++ le_bytes 4 0x8000.

Lemma put_info_fields mem cmdline :
  let m := put_info mem cmdline in
  holds m 0x90000 info_bytes /\
  holds m (0x90000 + i_cmdline) (le_bytes 4 (if given cmdline then 0x90020 else 0)) /\
  holds m (0x90000 + i_mmap_length) (le_bytes 4 64) /\
  holds m (0x90000 + i_mmap_addr) (le_bytes 4 0x90100) /\
  (forall k addr len, (k, addr, len) = (0, 0, 0x100000) \/ (k, addr, len) = (1, 0x100000, 0x7FF00000) ->
     let e := 0x90100 + 32 * k in
     holds m e (le_bytes 4 28) /\ holds m (e + 8) (le_bytes 8 addr) /\ holds m (e + 16) (le_bytes 8 len) /\
     holds m (e + 24) (le_bytes 4 1)).
Proof.
  unfold put_info, put_mmap, info_bytes, i_flags, i_mem_lower, i_mem_upper, i_boot_device, i_cmdline, i_mmap_length,
    i_mmap_addr, sizeof_info, sizeof_mmap_entry. cbv zeta. rewrite !holds_app, !zlen_le_bytes.
  split_and!; try (destruct (given cmdline); mem_find; fail).
  - destruct (given cmdline); mem_find. change (le_bytes 4 0) with (zeros 4). apply holds_fill_sub; lia.
  - intros k addr len [[= -> -> ->]|[= -> -> ->]]; split_and!; destruct (given cmdline); mem_find.
Qed.

Ltac unfold_info :=
  unfold put_info, put_mmap, i_flags, i_mem_lower, i_mem_upper, i_boot_device, i_cmdline, i_mmap_length,
    i_mmap_addr, sizeof_info, sizeof_mmap_entry; cbv zeta.

Lemma holds_prefix mem a l l' : holds mem a (l ++ l') -> holds mem a l.
Proof. rewrite holds_app. tauto. Qed.

Lemma put_info_cmdline mem cmdline c : given cmdline = Some c -> Forall (fun x => x <> 0) c ->
  c_string_at (put_info mem cmdline) 0x90020 (cmdline_read c).
Proof.
  intros Hg Hc. unfold cmdline_read. destruct (Z.ltb_spec (zlen c) 12) as [Hl|Hl].
  { split; [|done]. unfold_info. rewrite Hg. mem_find. }
  assert (Ht : zlen (take 12 c) = 12) by (unfold zlen in *; rewrite length_take; lia).
  split; [|apply Forall_app; split; [by apply Forall_take|by repeat constructor]].
  rewrite <- app_assoc. apply holds_app. rewrite Ht. split.
  - unfold_info. rewrite Hg. mem_find. apply (holds_prefix _ _ _ (drop 12 c ++ [0])).
    rewrite app_assoc, take_drop. apply holds_poke.
  - unfold_info. apply (holds_prefix _ _ ([64] ++ [0]) [0; 0]).
    change (([64] ++ [0]) ++ [0; 0]) with (le_bytes 4 64). mem_find.
Qed.

(** Memory above 1 MB is left alone by a command line that ends below it. *)
Lemma put_info_above mem cmdline b l : 0x100000 <= b -> (forall c, given cmdline = Some c -> zlen c < 0x6FFE0) ->
  holds mem b l -> holds (put_info mem cmdline) b l.
Proof.
  intros Hb Hc H. unfold_info. destruct (given cmdline) as [c|]; [specialize (Hc c eq_refl)|]; mem_find; exact H.
Qed.

(**  A Multiboot 1 kernel is entered as its header says: with the addresses [a]
    that its first words give, the file (cut at the load end address) is at the
    load address, the bss behind the load end is zero, execution starts at the
    entry address with the boot magic and the information structure at 0x90000,
    whose memory sizes, boot device and memory map pointer are right.  The
    command line is found at the address the structure gives, but the structure's
    own memory-map fields overwrite it from its thirteenth byte on. *)
Theorem multiboot1_load_functional load_file mem path cmdline data a :
  load_file path = Some data -> le_val (sub data 0 4) = MULTIBOOT_HEADER_MAGIC -> 4 <= zlen data ->
  parse_header 7 data 1 no_addrs = Ret a -> addrs_ok a ->
  (forall c, given cmdline = Some c -> zlen c < 0x6FFE0 /\ Forall (fun x => x <> 0) c) ->
  exists j, multiboot1_load_kernel load_file mem path cmdline = Ret (0, Some j) /\
    let m := j_memory j in
    j_entry j = (if entry_addr a =? 0 then load_of a else entry_addr a) /\
    j_args j = [MULTIBOOT_BOOTLOADER_MAGIC; 0x90000] /\
    kernel_at m data a /\ holds m 0x90000 info_bytes /\
    (fetch_le m (0x90000 + i_mmap_addr) 4 = 0x90100 /\ fetch_le m (0x90000 + i_mmap_length) 4 = 64) /\
    (forall c, given cmdline = Some c ->
       c_string_at m (fetch_le m (0x90000 + i_cmdline) 4) (cmdline_read c)).
Proof.
  intros Hf Hm Hl Hp Ha Hc. unfold multiboot1_load_kernel. rewrite Hf, word_ok by lia. bind_step.
  change (4 * 0) with 0. rewrite Hm, Z.eqb_refl. cbn [negb]. rewrite Hp. bind_step.
  destruct (mb_place_spec mem data a Ha) as [Hk He].
  destruct (mb_place mem data a) as [placed entry]. cbn [fst snd] in *.
  eexists. split; [reflexivity|]. cbv zeta. cbn [j_entry j_args j_memory].
  destruct (put_info_fields placed cmdline) as (H1 & H2 & H3 & H4 & _).
  split_and!; [done|done| |done|exact (fetch_holds _ _ 4 _ H4 ltac:(done))|exact (fetch_holds _ _ 4 _ H3 ltac:(done))|].
  - apply (kernel_at_above placed); [done|done|]. intros b l Hb H. apply put_info_above; [done| |done].
    intros c E. by apply Hc.
  - intros c E. rewrite E in H2. pose proof (fetch_holds _ _ 4 _ H2 ltac:(done)) as E2.
    change (Z.of_nat 4) with 4 in E2. rewrite E2. apply put_info_cmdline; [done|by apply Hc].
Qed.

(** Every Multiboot 1 module is loaded to the same address: after two modules both
    descriptors name 0x200000, with their own sizes, but memory there holds the
    second module, whatever the first one was. *)
Theorem multiboot1_modules_collide load_file mem p1 p2 d1 d2 :
  load_file p1 = Some d1 -> load_file p2 = Some d2 -> zlen d1 < 2 ^ 31 -> zlen d2 < 2 ^ 31 ->
  let '(r1, mem1, n1) := multiboot1_load_module load_file mem 0 p1 None in
  let '(r2, mem2, n2) := multiboot1_load_module load_file mem1 n1 p2 None in
  r1 = 0 /\ r2 = 0 /\ n2 = 2 /\
  holds mem1 0x200000 d1 /\ holds mem2 0x200000 d2 /\
  (fetch_le mem2 0x90200 4 = 0x200000 /\ fetch_le mem2 0x90204 4 = 0x200000 + zlen d1) /\
  (fetch_le mem2 0x90210 4 = 0x200000 /\ fetch_le mem2 0x90214 4 = 0x200000 + zlen d2) /\
  (zlen d1 <= zlen d2 -> fetch mem2 (fetch_le mem2 0x90200 4) (zlen d1) = take (length d1) d2).
Proof.
  intros E1 E2 H1 H2. unfold multiboot1_load_module. rewrite E1, E2. cbn [given]. cbv zeta.
  pose proof (zlen_nonneg d1). pose proof (zlen_nonneg d2).
  rewrite !(wrap_small 32) by (split; lia).
  match goal with |- context [poke_le (poke_le (poke_le (poke ?m _ d2) _ _ _) _ _ _) _ _ _] => set (mem1 := m) end.
  set (mem2 := poke_le _ (0x90200 + 16 * (0 + 1) + 8) _ _).
  assert (Ha : holds mem1 0x200000 d1) by (subst mem1; mem_find).
  assert (Hb : holds mem2 0x200000 d2) by (subst mem2; mem_find).
  assert (F : forall a v, 0 <= v < 2 ^ 32 -> holds mem2 a (le_bytes 4 v) -> fetch_le mem2 a 4 = v)
    by (intros a v Hv H'; exact (fetch_holds mem2 a 4 v H' Hv)).
  assert (E0 : fetch_le mem2 0x90200 4 = 0x200000) by (apply F; [lia|]; subst mem2 mem1; mem_find).
  split_and!; try reflexivity; try assumption.
  - apply F; [lia|]. subst mem2 mem1. mem_find.
  - apply F; [lia|]. subst mem2 mem1. mem_find.
  - intros Hl. rewrite E0. assert (Hs : d2 = take (length d1) d2 ++ drop (length d1) d2) by (by rewrite take_drop).
    rewrite Hs in Hb. apply holds_prefix in Hb. unfold holds in Hb.
    replace (zlen (take (length d1) d2)) with (zlen d1) in Hb; [done|].
    unfold zlen in *. rewrite length_take. lia.
Qed.

(** A kernel with a load tag in its header words. *)
Definition sample_kernel : bytes :=
  concat (le_bytes 4 <$> [MULTIBOOT_HEADER_MAGIC; 1; 0x200000; 0x200020; 0x200040; 0; 0; 0; 7; 8; 9; 10]).
Definition sample_load (path : bytes) : option bytes :=
  match path with [1] => Some sample_kernel | [2] => Some [5; 6; 7] | [3] => Some [8; 9; 10; 11] | _ => None end.
Definition zero_phys : phys := fun _ => 0.
Definition sample_cmdline : bytes := [113; 117; 105; 101; 116; 32; 114; 111; 111; 116; 61; 47; 100; 101; 118].

Lemma multiboot1_load_functional_witness :
  exists j, multiboot1_load_kernel sample_load zero_phys [1] (Some sample_cmdline) = Ret (0, Some j) /\
    j_entry j = 0x200000 /\ c_string_at (j_memory j) 0x90020 (take 12 sample_cmdline ++ [64]).
Proof.
  destruct (multiboot1_load_functional sample_load zero_phys [1] (Some sample_cmdline) sample_kernel
              (mk_addrs 0x200000 0x200020 0x200040 0)) as (j & E & H1 & _ & _ & _ & _ & H2);
    [reflexivity|reflexivity|by vm_compute|reflexivity| | |].
  { split_and!; [by vm_compute|by vm_compute|by right|by intros _; vm_compute]. }
  { intros c [= <-]. split; [by vm_compute|]. by repeat constructor. }
  exists j. split; [exact E|]. split; [exact H1|]. specialize (H2 _ eq_refl).
  injection E as <-. exact H2.
Defined.

Lemma multiboot1_modules_collide_witness :
  let '(_, mem1, n1) := multiboot1_load_module sample_load zero_phys 0 [2] None in
  let '(_, mem2, _) := multiboot1_load_module sample_load mem1 n1 [3] None in
  holds mem1 0x200000 [5; 6; 7] /\ holds mem2 0x200000 [8; 9; 10; 11].
Proof.
  pose proof (multiboot1_modules_collide sample_load zero_phys [2] [3] [5; 6; 7] [8; 9; 10; 11]
    eq_refl eq_refl ltac:(by vm_compute) ltac:(by vm_compute)) as H.
  destruct (multiboot1_load_module sample_load zero_phys 0 [2] None) as [[r1 mem1] n1].
  destruct (multiboot1_load_module sample_load mem1 n1 [3] None) as [[r2 mem2] n2].
  destruct H as (_ & _ & _ & H1 & H2 & _). by split.
Defined.
End Mb1.
