(* ===== verification/Multiboot2.v ===== *)
(** * The Multiboot 2 loader (src/boot/Arch32/multiboot2.c)

    The walk over the kernel's header tags, the information structure as a list
    of tags at its fixed address, and a reader of such structures that follows
    the specification, against which the structure is checked. *)

From S2P Require Import Prelude.
From S2P Require Import PhysMem.
From S2P Require Import Multiboot1.
Import ListNotations.
#[local] Open Scope list_scope.

Module Mb2.

Definition MULTIBOOT2_HEADER_MAGIC : Z := 0xE85250D6.
Definition MULTIBOOT2_BOOTLOADER_MAGIC : Z := 0x36D76289.
Definition MULTIBOOT2_ARCHITECTURE_I386 : Z := 0.
Definition MULTIBOOT2_HEADER_TAG_END : Z := 0.
Definition MULTIBOOT2_HEADER_TAG_ADDRESS : Z := 2.
Definition MULTIBOOT2_HEADER_TAG_ENTRY_ADDRESS : Z := 3.
Definition MULTIBOOT2_TAG_TYPE_END : Z := 0.
Definition MULTIBOOT2_TAG_TYPE_CMDLINE : Z := 1.
Definition MULTIBOOT2_TAG_TYPE_BASIC_MEMINFO : Z := 4.
Definition MULTIBOOT2_TAG_TYPE_BOOTDEV : Z := 5.
Definition MULTIBOOT2_TAG_TYPE_MMAP : Z := 6.
Definition MULTIBOOT2_MMAP_TYPE_AVAILABLE : Z := 1.

(** [offset += size; if (size % 8 != 0) offset += 8 - (size % 8)] *)
Definition next_tag (offset size : Z) : Z :=
  let offset := u32 (offset + size) in
  if negb (size mod 8 =? 0) then u32 (offset + (8 - size mod 8)) else offset.

(** [while (offset < kernel_size)]; a tag's size is the word after its type. *)
Fixpoint parse_tags (fuel : nat) (data : bytes) (offset : Z) (a : mb_addrs) : run mb_addrs :=
  match fuel with
  | O => OutOfFuel
  | S fuel =>
      if offset <? zlen data then
        type ← rd_le data offset 4;
        if type =? MULTIBOOT2_HEADER_TAG_END then mret a else
        a ← (if type =? MULTIBOOT2_HEADER_TAG_ADDRESS then
               l ← rd_le data (offset + 12) 4;
               e ← rd_le data (offset + 16) 4;
               b ← rd_le data (offset + 20) 4;
               mret (mk_addrs l e b (entry_addr a))
             else if type =? MULTIBOOT2_HEADER_TAG_ENTRY_ADDRESS then
               e ← rd_le data (offset + 8) 4;
               mret (mk_addrs (load_addr a) (load_end_addr a) (bss_end_addr a) e)
             else mret a);
        size ← rd_le data (offset + 4) 4;
        parse_tags fuel data (next_tag offset size) a
      else mret a
  end.

(** The type and size of the tag at [t]. *)
Definition put_tag (mem : phys) (t type size : Z) : phys :=
  poke_le (poke_le mem t 4 type) (t + 4) 4 size.

Definition put_cmdline_tag (mem : phys) (t : Z) (c : bytes) : phys :=
  poke (put_tag mem t MULTIBOOT2_TAG_TYPE_CMDLINE (8 + zlen c + 1)) (t + 8) (c ++ [0]).

Definition put_meminfo_tag (mem : phys) (t : Z) : phys :=
  poke_le (poke_le (put_tag mem t MULTIBOOT2_TAG_TYPE_BASIC_MEMINFO 16) (t + 8) 4 640) (t + 12) 4 0x7FE00.

Definition put_bootdev_tag (mem : phys) (t : Z) : phys :=
  poke_le (poke_le (poke_le (put_tag mem t MULTIBOOT2_TAG_TYPE_BOOTDEV 20) (t + 8) 4 0x80)
    (t + 12) 4 0) (t + 16) 4 0.

Definition put_mmap_entry (mem : phys) (e addr len : Z) : phys :=
  poke_le (poke_le (poke_le (poke_le mem e 8 addr) (e + 8) 8 len) (e + 16) 4 MULTIBOOT2_MMAP_TYPE_AVAILABLE)
    (e + 20) 4 0.

Definition put_mmap_tag (mem : phys) (t : Z) : phys :=
  let mem := poke_le (poke_le (put_tag mem t MULTIBOOT2_TAG_TYPE_MMAP (16 + 2 * 24)) (t + 8) 4 24) (t + 12) 4 0 in
  put_mmap_entry (put_mmap_entry mem (t + 16) 0 0x100000) (t + 40) 0x100000 0x7FF00000.

(** The information structure at 0x90000. *)
Definition put_info (mem : phys) (cmdline : option bytes) : phys :=
  let mb_info := 0x90000 in
  let mem := fill mem mb_info 0 8 in
  let o := 8 in
  let '(mem, o) := match given cmdline with
                   | Some c => (put_cmdline_tag mem (mb_info + o) c, next_tag o (8 + zlen c + 1))
                   | None => (mem, o) end in
  let mem := put_meminfo_tag mem (mb_info + o) in
  let o := next_tag o 16 in
  let mem := put_bootdev_tag mem (mb_info + o) in
  let o := next_tag o 20 in
  let mem := put_mmap_tag mem (mb_info + o) in
  let o := next_tag o (16 + 2 * 24) in
  let mem := put_tag mem (mb_info + o) MULTIBOOT2_TAG_TYPE_END 8 in
  let o := u32 (o + 8) in
  poke_le (poke_le mem mb_info 4 o) (mb_info + 4) 4 0.

Section Load.
Context (load_file : bytes -> option bytes).

Definition multiboot2_load_kernel (fuel : nat) (mem : phys) (kernel_path : bytes) (cmdline : option bytes)
  : run loaded :=
  match load_file kernel_path with
  | None => mret (-1, None)
  | Some data =>
      h ← word data 0;
      if negb (h =? MULTIBOOT2_HEADER_MAGIC) then mret (-1, None) else
      a ← parse_tags fuel data 8 no_addrs;
      let '(mem, entry) := mb_place mem data a in
      mret (0, Some (mk_jump entry [MULTIBOOT2_BOOTLOADER_MAGIC; 0x90000] (put_info mem cmdline)))
  end.

Definition multiboot2_verify_kernel (kernel_path : bytes) : run Z :=
  match load_file kernel_path with
  | None => mret (-1)
  | Some data =>
      h ← word data 0;
      if negb (h =? MULTIBOOT2_HEADER_MAGIC) then mret (-1) else
      arch ← word data 1;
      if negb (arch =? MULTIBOOT2_ARCHITECTURE_I386) then mret (-1) else
      len ← word data 2;
      if (len <? 8) || (zlen data <? len) then mret (-1) else
      s ← Mb1.sum_words (Z.to_nat (len / 4)) data 0 0;
      mret (if s =? 0 then 0 else -1)
  end.

(** The tags here are not padded: the next one follows the command line's NUL. *)
Definition boot_multiboot2_kernel (mem : phys) (data : bytes) (cmdline : option bytes) : loaded :=
  let info := 0x1000 in
  let tag_ptr := info + 8 in
  let mem := poke_le (poke_le mem info 4 8) (info + 4) 4 0 in
  let mem := poke_le (poke_le (put_tag mem tag_ptr 4 16) (tag_ptr + 8) 4 640) (tag_ptr + 12) 4 0x7FE00 in
  let tag_ptr := tag_ptr + 16 in
  let mem := poke_le mem info 4 24 in
  let '(mem, tag_ptr, total) :=
    match given cmdline with
    | Some c =>
        let mem := poke_le mem tag_ptr 4 1 in
        let mem := poke mem (tag_ptr + 8) (c ++ [0]) in
        let size := 8 + zlen c + 1 in
        let mem := poke_le mem (tag_ptr + 4) 4 size in
        (poke_le mem info 4 (u32 (24 + size)), tag_ptr + size, u32 (24 + size))
    | None => (mem, tag_ptr, 24)
    end in
  let mem := put_tag mem tag_ptr 0 8 in
  let mem := poke_le mem info 4 (u32 (total + 8)) in
  let mem := poke mem 0x100000 data in
  (0, Some (mk_jump 0x100000 [0x36d76289; info] mem)).

End Load.

(** ** Reading an information structure *)

(** What a kernel that follows the specification reads from [a]: each tag's type
    and payload, the next tag at the next multiple of 8, up to the end tag. *)
Fixpoint read_tags (n : nat) (mem : phys) (a : Z) : option (list (Z * bytes)) :=
  match n with
  | O => None
  | S n =>
      let type := fetch_le mem a 4 in
      let size := fetch_le mem (a + 4) 4 in
      if type =? 0 then if size =? 8 then Some [] else None
      else match read_tags n mem (a + 8 * ((size + 7) / 8)) with
           | Some ts => Some ((type, fetch mem (a + 8) (size - 8)) :: ts)
           | None => None
           end
  end.

Lemma read_tag_step n mem a t l ts :
  holds mem a (le_bytes 4 t ++ le_bytes 4 (8 + zlen l) ++ l) -> 0 < t < 2 ^ 32 -> 8 + zlen l < 2 ^ 32 ->
  read_tags n mem (a + 8 * ((8 + zlen l + 7) / 8)) = Some ts ->
  read_tags (S n) mem a = Some ((t, l) :: ts).
Proof.
  intros H Ht Hl Hn. rewrite !holds_app, !zlen_le_bytes in H. destruct H as (H1 & H2 & H3).
  pose proof (zlen_nonneg l).
  apply fetch_holds in H1; [|change (256 ^ Z.of_nat 4) with (2 ^ 32); lia].
  apply fetch_holds in H2; [|change (256 ^ Z.of_nat 4) with (2 ^ 32); lia].
  change (Z.of_nat 4) with 4 in *. cbn [read_tags]. rewrite H1, H2, Hn.
  destruct (Z.eqb_spec t 0); [lia|]. do 3 f_equal.
  replace (8 + zlen l - 8) with (zlen l) by lia. rewrite <- Z.add_assoc in H3. exact H3.
Qed.

Lemma read_tag_end n mem a : holds mem a (le_bytes 4 0 ++ le_bytes 4 8) -> read_tags (S n) mem a = Some [].
Proof.
  intros H. rewrite holds_app, zlen_le_bytes in H. destruct H as (H1 & H2).
  apply fetch_holds in H1; [|done]. apply fetch_holds in H2; [|done].
  change (Z.of_nat 4) with 4 in *. cbn [read_tags]. by rewrite H1, H2.
Qed.

Lemma next_tag_round o size : 0 <= o -> 0 <= size -> o + size + 8 < 2 ^ 32 ->
  next_tag o size = o + 8 * ((size + 7) / 8).
Proof.
  intros Ho Hs Hb. unfold next_tag. rewrite (wrap_small 32 (o + size)) by (split; lia). cbv zeta.
  destruct (Z.eqb_spec (size mod 8) 0) as [E|E]; cbn [negb]; [|rewrite wrap_small by (split; dlia)]; dlia.
Qed.

(** ** The structure that is built *)

Definition meminfo_payload : bytes := le_bytes 4 640 ++ le_bytes 4 0x7FE00.
Definition bootdev_payload : bytes := le_bytes 4 0x80 ++ le_bytes 4 0 ++ le_bytes 4 0.
Definition mmap_entry_bytes (addr len : Z) : bytes :=
  le_bytes 8 addr ++ le_bytes 8 len ++ le_bytes 4 1 ++ le_bytes 4 0.
Definition mmap_payload : bytes :=
  le_bytes 4 24 ++ le_bytes 4 0 ++ mmap_entry_bytes 0 0x100000 ++ mmap_entry_bytes 0x100000 0x7FF00000.

Definition cmdline_tags (cmdline : option bytes) : list (Z * bytes) :=
  match given cmdline with Some c => [(1, c ++ [0])] | None => [] end.

Definition tag_bytes (t : Z) (l : bytes) : bytes := le_bytes 4 t ++ le_bytes 4 (8 + zlen l) ++ l.

Ltac unfold_tags :=
  unfold put_meminfo_tag, put_bootdev_tag, put_mmap_tag, put_mmap_entry, put_cmdline_tag, put_tag, poke_le,
    MULTIBOOT2_TAG_TYPE_CMDLINE, MULTIBOOT2_TAG_TYPE_BASIC_MEMINFO, MULTIBOOT2_TAG_TYPE_BOOTDEV,
    MULTIBOOT2_TAG_TYPE_MMAP, MULTIBOOT2_TAG_TYPE_END, MULTIBOOT2_MMAP_TYPE_AVAILABLE.

(** The fixed tags, from offset [o]. *)
Definition put_fixed (mem : phys) (o : Z) : phys :=
  let mem := put_meminfo_tag mem (0x90000 + o) in
  let mem := put_bootdev_tag mem (0x90000 + (o + 16)) in
  let mem := put_mmap_tag mem (0x90000 + (o + 40)) in
  let mem := put_tag mem (0x90000 + (o + 104)) MULTIBOOT2_TAG_TYPE_END 8 in
  poke_le (poke_le mem 0x90000 4 (o + 112)) 0x90004 4 0.

(** Brings the parts of a tag to their addresses. *)
Ltac tag_parts :=
  unfold tag_bytes, meminfo_payload, bootdev_payload, mmap_payload, mmap_entry_bytes;
  rewrite !holds_app, ?zlen_app, ?zlen_le_bytes; rewrite <- ?Z.add_assoc;
  change (Z.of_nat 4) with 4; change (Z.of_nat 8) with 8.

Lemma put_fixed_tags mem o : 8 <= o ->
  let m := put_fixed mem o in
  holds m 0x90000 (le_bytes 4 (o + 112)) /\
  holds m (0x90000 + o) (tag_bytes 4 meminfo_payload) /\
  holds m (0x90000 + (o + 16)) (tag_bytes 5 bootdev_payload) /\
  holds m (0x90000 + (o + 40)) (tag_bytes 6 mmap_payload) /\
  holds m (0x90000 + (o + 104)) (le_bytes 4 0 ++ le_bytes 4 8).
Proof.
  intros Ho. unfold put_fixed. unfold_tags. cbv zeta. split_and!.
  - mem_find.
  - tag_parts. split_and!; mem_find.
  - tag_parts. split_and!; mem_find.
  - tag_parts. split_and!; mem_find.
  - tag_parts. split_and!; mem_find.
Qed.

(** What it leaves of memory elsewhere. *)
Lemma put_fixed_other mem o b l : 8 <= o -> holds mem b l ->
  (0x90008 <= b /\ b + zlen l <= 0x90000 + o \/ 0x90000 + o + 112 <= b) -> holds (put_fixed mem o) b l.
Proof.
  intros Ho H Hb. unfold put_fixed. unfold_tags. cbv zeta. mem_find; exact H.
Qed.

(** The offset of the fixed tags, behind the command line's tag. *)
Definition fixed_offset (cmdline : option bytes) : Z :=
  match given cmdline with Some c => 8 + 8 * ((8 + zlen c + 1 + 7) / 8) | None => 8 end.

Lemma put_info_fixed mem cmdline : (forall c, given cmdline = Some c -> zlen c < 0x6F000) ->
  put_info mem cmdline =
  put_fixed (match given cmdline with
             | Some c => put_cmdline_tag (fill mem 0x90000 0 8) 0x90008 c
             | None => fill mem 0x90000 0 8 end) (fixed_offset cmdline).
Proof.
  intros Hc. unfold put_info, fixed_offset. destruct (given cmdline) as [c|]; [|reflexivity].
  specialize (Hc c eq_refl). pose proof (zlen_nonneg c).
  rewrite (next_tag_round 8) by lia. set (o := 8 + 8 * _). assert (Ho : 8 <= o < 0x6F100) by (subst o; dlia).
  unfold put_fixed. rewrite !(next_tag_round _ _) by (change (8 * ((16 + 7) / 8)) with 16; dlia).
  change (8 * ((16 + 7) / 8)) with 16. change (8 * ((20 + 7) / 8)) with 24.
  change (8 * ((16 + 2 * 24 + 7) / 8)) with 64. rewrite wrap_small by (split; lia).
  rewrite <- !Z.add_assoc. reflexivity.
Qed.

(** The Multiboot 2 information structure is well formed: whatever the command line
    (below 450 KB), a kernel that walks the tags as the specification says reads
    back exactly the command line, the memory sizes, the boot device and the
    two-entry memory map, finds the end tag, and the total size is where the last
    tag ends; memory from 1 MB on is left alone. *)
Lemma put_info_roundtrip mem cmdline :
  (forall c, given cmdline = Some c -> zlen c < 0x6F000) ->
  let m := put_info mem cmdline in
  read_tags 5 m 0x90008 =
    Some (cmdline_tags cmdline ++ [(4, meminfo_payload); (5, bootdev_payload); (6, mmap_payload)]) /\
  fetch_le m 0x90000 4 = fixed_offset cmdline + 112 /\
  (forall b l, 0x100000 <= b -> holds mem b l -> holds m b l).
Proof.
  intros Hc. cbv zeta. rewrite put_info_fixed by done. set (o := fixed_offset cmdline).
  assert (Ho : 8 <= o < 0x6F100).
  { subst o. unfold fixed_offset. destruct (given cmdline) as [c|]; [|lia].
    specialize (Hc c eq_refl). pose proof (zlen_nonneg c). dlia. }
  set (mem0 := match given cmdline with Some _ => _ | None => _ end).
  destruct (put_fixed_tags mem0 o ltac:(lia)) as (H1 & H2 & H3 & H4 & H5).
  set (m := put_fixed mem0 o) in *.
  assert (Hfix : forall n, read_tags (S (S (S (S n)))) m (0x90000 + o) =
    Some [(4, meminfo_payload); (5, bootdev_payload); (6, mmap_payload)]).
  { intros n. eapply (read_tag_step _ m _ 4 meminfo_payload); [exact H2|done|done|].
    change (8 * _) with 16. rewrite <- Z.add_assoc.
    eapply (read_tag_step _ m _ 5 bootdev_payload); [exact H3|done|done|].
    change (8 * _) with 24. replace (0x90000 + (o + 16) + 24) with (0x90000 + (o + 40)) by lia.
    eapply (read_tag_step _ m _ 6 mmap_payload); [exact H4|done|done|].
    change (8 * _) with 64. replace (0x90000 + (o + 40) + 64) with (0x90000 + (o + 104)) by lia.
    by apply read_tag_end. }
  split_and!.
  - subst o. unfold fixed_offset, cmdline_tags in *. destruct (given cmdline) as [c|] eqn:Eg; [|apply (Hfix 1%nat)].
    specialize (Hc c eq_refl). pose proof (zlen_nonneg c).
    eapply (read_tag_step _ m _ 1 (c ++ [0])); [|done|rewrite zlen_app; change (zlen [0]) with 1; lia|].
    + apply put_fixed_other; [lia| |].
      * subst mem0. unfold_tags. rewrite zlen_app. change (zlen [0]) with 1. rewrite Z.add_assoc.
        rewrite !holds_app, !zlen_le_bytes. rewrite <- holds_app. split_and!; mem_find.
      * left. rewrite !zlen_app, !zlen_le_bytes. change (zlen [0]) with 1. split; [lia|]. dlia.
    + rewrite zlen_app. change (zlen [0]) with 1. rewrite !Z.add_assoc in *. exact (Hfix 0%nat).
  - apply (fetch_holds m _ 4); [exact H1|]. change (256 ^ Z.of_nat 4) with (2 ^ 32). lia.
  - intros b l Hb H. apply put_fixed_other; [lia| |right; lia].
    subst mem0. destruct (given cmdline) as [c|]; [|mem_find; exact H].
    specialize (Hc c eq_refl). unfold_tags. mem_find; exact H.
Qed.

(** ** The kernel's header tags *)

(** A header tag: the two the loader uses, and any other. *)
Inductive htag :=
| HAddress (header load load_end bss_end : Z)
| HEntry (entry : Z)
| HOther (type : Z) (payload : bytes).

Definition htag_head (t : htag) : Z * bytes :=
  match t with
  | HAddress h l e b => (2, le_bytes 4 h ++ le_bytes 4 l ++ le_bytes 4 e ++ le_bytes 4 b)
  | HEntry e => (3, le_bytes 4 e)
  | HOther t p => (t, p)
  end.

Definition render_htag (t : htag) : bytes :=
  let '(type, p) := htag_head t in
  le_bytes 4 type ++ le_bytes 4 (8 + zlen p) ++ p ++ zeros (8 * ((8 + zlen p + 7) / 8) - (8 + zlen p)).

Definition htag_ok (t : htag) : Prop :=
  match t with
  | HAddress h l e b => in_u 32 h /\ in_u 32 l /\ in_u 32 e /\ in_u 32 b
  | HEntry e => in_u 32 e
  | HOther t p => 0 < t < 2 ^ 32 /\ t <> 2 /\ t <> 3
  end.

Definition apply_htag (a : mb_addrs) (t : htag) : mb_addrs :=
  match t with
  | HAddress _ l e b => mk_addrs l e b (entry_addr a)
  | HEntry e => mk_addrs (load_addr a) (load_end_addr a) (bss_end_addr a) e
  | HOther _ _ => a
  end.

(** A word of the file whose bytes are known. *)
Lemma rd_le_mid (pre l post : bytes) v off : l = le_bytes 4 v -> 0 <= v < 2 ^ 32 -> off = zlen pre ->
  rd_le (pre ++ l ++ post) off 4 = Ret v.
Proof.
  intros -> Hv ->. unfold rd_le. pose proof (zlen_nonneg pre). pose proof (zlen_nonneg post).
  rewrite !zlen_app, zlen_le_bytes. replace (_ && _) with true by (symmetry; zbool). f_equal.
  transitivity (le_val (sub (concat [pre; le_bytes 4 v; post]) (zlen pre) 4)); [cbn; by rewrite ?app_nil_r|].
  rewrite (sub_chunk [pre; le_bytes 4 v; post] 1 (le_bytes 4 v)); [|done|cbn; by rewrite app_nil_r|by rewrite zlen_le_bytes].
  rewrite le_val_bytes. by apply Z.mod_small.
Qed.

(** One rendered tag: its head, and what the loader takes from it. *)
Lemma parse_htag fuel pre t post a : htag_ok t -> 8 + zlen (snd (htag_head t)) < 2 ^ 31 ->
  zlen (pre ++ render_htag t ++ post) < 2 ^ 31 ->
  parse_tags (S fuel) (pre ++ render_htag t ++ post) (zlen pre) a =
  parse_tags fuel (pre ++ render_htag t ++ post) (zlen pre + zlen (render_htag t)) (apply_htag a t).
Proof.
  intros Hok Hp Hl. set (data := pre ++ render_htag t ++ post) in *. cbn [parse_tags].
  pose proof (zlen_nonneg pre) as Hpre. pose proof (zlen_nonneg post).
  pose proof (zlen_nonneg (snd (htag_head t))) as Hn.
  assert (Hr : zlen (render_htag t) = 8 * ((8 + zlen (snd (htag_head t)) + 7) / 8)).
  { unfold render_htag. destruct (htag_head t) as [ty p]. cbn [snd] in *.
    rewrite !zlen_app, !zlen_le_bytes, zlen_zeros by dlia. lia. }
  assert (Hd : zlen data = zlen pre + zlen (render_htag t) + zlen post) by (subst data; rewrite !zlen_app; lia).
  destruct (Z.ltb_spec (zlen pre) (zlen data)); [|dlia].
  assert (Ht : 0 < fst (htag_head t) < 2 ^ 32) by (destruct t; cbn in *; lia).
  assert (W0 : rd_le data (zlen pre) 4 = Ret (fst (htag_head t))).
  { subst data. unfold render_htag. destruct (htag_head t) as [ty p]. rewrite <- !app_assoc.
    apply rd_le_mid; [done|cbn in *; lia|done]. }
  assert (W1 : rd_le data (zlen pre + 4) 4 = Ret (8 + zlen (snd (htag_head t)))).
  { subst data. unfold render_htag. destruct (htag_head t) as [ty p]. rewrite <- !app_assoc, (app_assoc pre).
    apply rd_le_mid; [done|cbn in *; lia|by rewrite zlen_app, zlen_le_bytes]. }
  assert (Wk : forall k u v w, snd (htag_head t) = u ++ le_bytes 4 v ++ w -> in_u 32 v -> k = 8 + zlen u ->
    rd_le data (zlen pre + k) 4 = Ret v).
  { intros k u v w E Hv ->. subst data. unfold render_htag. destruct (htag_head t) as [ty p]. cbn [snd] in E.
    rewrite E. rewrite <- !app_assoc, (app_assoc pre), (app_assoc (pre ++ _)), (app_assoc ((pre ++ _) ++ _)).
    apply rd_le_mid; [done|done|]. rewrite !zlen_app, !zlen_le_bytes. lia. }
  rewrite W0. bind_step. destruct (Z.eqb_spec (fst (htag_head t)) MULTIBOOT2_HEADER_TAG_END) as [E|_];
    [unfold MULTIBOOT2_HEADER_TAG_END in E; lia|].
  rewrite W1, Hr. rewrite <- (next_tag_round (zlen pre)) by dlia.
  destruct t as [h l e b|e|ty p]; cbn [htag_head fst snd apply_htag] in *.
  - destruct Hok as (Hh & Hlo & He & Hb). change (2 =? MULTIBOOT2_HEADER_TAG_ADDRESS) with true. cbv iota.
    rewrite (Wk 12 (le_bytes 4 h) l _ eq_refl Hlo), (Wk 16 (le_bytes 4 h ++ le_bytes 4 l) e (le_bytes 4 b)),
      (Wk 20 (le_bytes 4 h ++ le_bytes 4 l ++ le_bytes 4 e) b []);
      try done; rewrite ?zlen_app, ?zlen_le_bytes; rewrite <- ?app_assoc, ?app_nil_r; done.
  - change (3 =? MULTIBOOT2_HEADER_TAG_ADDRESS) with false. change (3 =? MULTIBOOT2_HEADER_TAG_ENTRY_ADDRESS) with true. cbv iota.
    rewrite (Wk 8 [] e []); [done|by rewrite app_nil_r|done|done].
  - destruct Hok as (_ & H2 & H3). unfold MULTIBOOT2_HEADER_TAG_ADDRESS, MULTIBOOT2_HEADER_TAG_ENTRY_ADDRESS.
    rewrite (proj2 (Z.eqb_neq _ _) H2), (proj2 (Z.eqb_neq _ _) H3). by bind_step.
Qed.

Lemma parse_htags ts : forall fuel pre post a,
  Forall htag_ok ts -> (length ts < fuel)%nat ->
  zlen (pre ++ concat (render_htag <$> ts) ++ le_bytes 4 0 ++ post) < 2 ^ 31 ->
  parse_tags fuel (pre ++ concat (render_htag <$> ts) ++ le_bytes 4 0 ++ post) (zlen pre) a =
  Ret (fold_left apply_htag ts a).
Proof.
  induction ts as [|t ts IH]; intros [|fuel] pre post a Hok Hf Hl; cbn [length] in Hf; try lia.
  - cbn [fmap list_fmap concat app fold_left parse_tags] in *. rewrite !zlen_app, zlen_le_bytes in *.
    pose proof (zlen_nonneg pre). pose proof (zlen_nonneg post).
    destruct (Z.ltb_spec (zlen pre) (zlen pre + (Z.of_nat 4 + zlen post))); [|lia].
    rewrite (rd_le_mid pre (le_bytes 4 0) post 0 (zlen pre) eq_refl ltac:(lia) eq_refl). by bind_step.
  - apply Forall_cons in Hok as [Ht Hok]. cbn [fmap list_fmap concat fold_left] in *. rewrite <- !app_assoc in *.
    assert (Hs : 8 + zlen (snd (htag_head t)) <= zlen (render_htag t)).
    { unfold render_htag. destruct (htag_head t) as [ty p]. cbn [snd]. rewrite !zlen_app, !zlen_le_bytes.
      pose proof (zlen_nonneg (zeros (8 * ((8 + zlen p + 7) / 8) - (8 + zlen p)))). lia. }
    rewrite parse_htag; [|done| |done].
    2:{ revert Hl. rewrite !zlen_app.
        repeat match goal with |- context [zlen ?l] => lazymatch goal with
          | H : 0 <= zlen l |- _ => fail | _ => pose proof (zlen_nonneg l) end end. lia. }
    rewrite <- zlen_app. rewrite (app_assoc pre (render_htag t)) in *. apply IH; [done|lia|exact Hl].
Qed.

(** A kernel file with the header tags [ts]: the loader expects them right behind
    the first two words. *)
Definition kernel_file (arch : Z) (ts : list htag) (rest : bytes) : bytes :=
  (le_bytes 4 MULTIBOOT2_HEADER_MAGIC ++ le_bytes 4 arch) ++ concat (render_htag <$> ts) ++ le_bytes 4 0 ++ rest.

Lemma kernel_file_magic arch ts rest : word (kernel_file arch ts rest) 0 = Ret MULTIBOOT2_HEADER_MAGIC.
Proof.
  unfold word, kernel_file. rewrite <- !app_assoc. by apply (rd_le_mid [] (le_bytes 4 MULTIBOOT2_HEADER_MAGIC)).
Qed.

(** C9.  A Multiboot 2 kernel whose header tags start at its third word is placed and
    entered as its last address and entry tags say (one unit of fuel per tag and
    one more suffice), and the information structure it is given, read as the
    specification says, has exactly the command line, the memory sizes, the boot
    device and the memory map, with the right total size. *)
Theorem multiboot2_load_functional load_file mem path cmdline arch ts rest fuel :
  let data := kernel_file arch ts rest in
  let a := fold_left apply_htag ts no_addrs in
  load_file path = Some data -> Forall htag_ok ts -> zlen data < 2 ^ 31 -> (length ts < fuel)%nat ->
  addrs_ok a -> (forall c, given cmdline = Some c -> zlen c < 0x6F000) ->
  exists j, multiboot2_load_kernel load_file fuel mem path cmdline = Ret (0, Some j) /\
    j_entry j = (if entry_addr a =? 0 then load_of a else entry_addr a) /\
    j_args j = [MULTIBOOT2_BOOTLOADER_MAGIC; 0x90000] /\
    kernel_at (j_memory j) data a /\
    read_tags 5 (j_memory j) 0x90008 =
      Some (cmdline_tags cmdline ++ [(4, meminfo_payload); (5, bootdev_payload); (6, mmap_payload)]) /\
    fetch_le (j_memory j) 0x90000 4 = fixed_offset cmdline + 112.
Proof.
  intros data a Hf Hts Hl Hn Ha Hc. unfold multiboot2_load_kernel. rewrite Hf. unfold data.
  rewrite kernel_file_magic. bind_step. rewrite Z.eqb_refl. cbn [negb].
  replace (parse_tags fuel (kernel_file arch ts rest) 8 no_addrs) with (Ret a)
    by (symmetry; exact (parse_htags ts fuel (le_bytes 4 MULTIBOOT2_HEADER_MAGIC ++ le_bytes 4 arch) rest
                           no_addrs Hts Hn Hl)).
  bind_step. fold data.
  destruct (mb_place_spec mem data a Ha) as [Hk He].
  destruct (mb_place mem data a) as [placed entry]. cbn [fst snd] in *.
  destruct (put_info_roundtrip placed cmdline Hc) as (H1 & H2 & H3).
  eexists. split; [reflexivity|]. cbn [j_entry j_args j_memory].
  split_and!; [done|done| |done|done]. by apply (kernel_at_above placed).
Qed.

(** A header tag of size 0 makes the loader loop forever: the walk stays on it
    whatever the number of iterations. *)
Theorem multiboot2_zero_tag_diverges load_file mem path cmdline data type :
  load_file path = Some data -> word data 0 = Ret MULTIBOOT2_HEADER_MAGIC ->
  word data 2 = Ret type -> word data 3 = Ret 0 -> ~ In type [0; 2; 3] ->
  forall fuel, multiboot2_load_kernel load_file fuel mem path cmdline = OutOfFuel.
Proof.
  intros Hf Hm Ht Hs Hn fuel. unfold multiboot2_load_kernel. rewrite Hf, Hm. bind_step.
  rewrite Z.eqb_refl. cbn [negb]. replace (parse_tags fuel data 8 no_addrs) with (@OutOfFuel mb_addrs); [done|].
  symmetry. assert (Hl : 8 < zlen data).
  { unfold word, rd_le in Ht. destruct (Z.leb_spec (4 * 2 + 4) (zlen data)); [lia|].
    by rewrite andb_false_r in Ht. }
  generalize no_addrs. induction fuel as [|fuel IH]; intros a; [done|]. cbn [parse_tags].
  apply Z.ltb_lt in Hl. rewrite Hl. unfold word in Ht, Hs. change (4 * 2) with 8 in Ht. change (4 * 3) with 12 in Hs.
  rewrite Ht. bind_step. cbn [In] in Hn. unfold MULTIBOOT2_HEADER_TAG_END, MULTIBOOT2_HEADER_TAG_ADDRESS,
    MULTIBOOT2_HEADER_TAG_ENTRY_ADDRESS.
  destruct (Z.eqb_spec type 0); [by subst; tauto|]. destruct (Z.eqb_spec type 2); [by subst; tauto|].
  destruct (Z.eqb_spec type 3); [by subst; tauto|]. bind_step. change (8 + 4) with 12. rewrite Hs. bind_step. apply IH.
Qed.

(** A kernel with the header the specification prescribes (magic, architecture
    i386, header length, checksum, then the tags) has its tags ignored: the walk
    starts on the header length and takes the checksum for a tag's size, so the
    whole file is loaded to 1 MB and entered there, whatever its tags say. *)
Theorem multiboot2_standard_header_ignored load_file mem path cmdline len tail fuel :
  let data := le_bytes 4 MULTIBOOT2_HEADER_MAGIC ++ le_bytes 4 0 ++ le_bytes 4 len ++
              le_bytes 4 (u32 (- (MULTIBOOT2_HEADER_MAGIC + len))) ++ tail in
  load_file path = Some data -> 16 <= len <= zlen data -> zlen data < 2 ^ 27 -> (1 < fuel)%nat ->
  (forall c, given cmdline = Some c -> zlen c < 0x6F000) ->
  exists j, multiboot2_load_kernel load_file fuel mem path cmdline = Ret (0, Some j) /\
    j_entry j = 0x100000 /\ holds (j_memory j) 0x100000 data.
Proof.
  intros data Hf Hlen Hl Hfuel Hc. unfold multiboot2_load_kernel. rewrite Hf.
  pose proof (zlen_nonneg tail).
  assert (Hck : u32 (- (MULTIBOOT2_HEADER_MAGIC + len)) = 0x17ADAF2A - len).
  { unfold wrap, MULTIBOOT2_HEADER_MAGIC. symmetry. apply (Z.mod_unique_pos _ _ (-1)); lia. }
  assert (W0 : word data 0 = Ret MULTIBOOT2_HEADER_MAGIC) by (by apply (rd_le_mid [] (le_bytes 4 MULTIBOOT2_HEADER_MAGIC))).
  assert (W2 : rd_le data 8 4 = Ret len).
  { subst data. rewrite (app_assoc (le_bytes 4 MULTIBOOT2_HEADER_MAGIC)). by apply rd_le_mid; [|lia|]. }
  assert (W3 : rd_le data (8 + 4) 4 = Ret (0x17ADAF2A - len)).
  { subst data. rewrite Hck, (app_assoc (le_bytes 4 MULTIBOOT2_HEADER_MAGIC)), (app_assoc (_ ++ _)).
    by apply rd_le_mid; [|lia|]. }
  rewrite W0. bind_step. rewrite Z.eqb_refl. cbn [negb]. destruct fuel as [|[|fuel]]; [lia|lia|].
  cbn [parse_tags]. destruct (Z.ltb_spec 8 (zlen data)); [|lia]. rewrite W2. bind_step.
  unfold MULTIBOOT2_HEADER_TAG_END, MULTIBOOT2_HEADER_TAG_ADDRESS, MULTIBOOT2_HEADER_TAG_ENTRY_ADDRESS.
  destruct (Z.eqb_spec len 0); [lia|]. destruct (Z.eqb_spec len 2); [lia|]. destruct (Z.eqb_spec len 3); [lia|].
  bind_step. rewrite W3. bind_step. rewrite next_tag_round by lia.
  destruct (Z.ltb_spec (8 + 8 * ((0x17ADAF2A - len + 7) / 8)) (zlen data)); [dlia|]. bind_step.
  assert (Ha : addrs_ok no_addrs) by (by repeat split; auto).
  destruct (mb_place_spec mem data no_addrs Ha) as [Hk He].
  destruct (mb_place mem data no_addrs) as [placed entry]. cbn [fst snd] in *.
  destruct (put_info_roundtrip placed cmdline Hc) as (_ & _ & H3).
  eexists. split; [reflexivity|]. cbn [j_entry j_memory]. split; [done|].
  apply (kernel_at_above placed (put_info placed cmdline) data _ Ha Hk) in H3 as [H3 _].
  change (load_of no_addrs) with 0x100000 in H3.
  replace (sub data 0 (size_of data no_addrs)) with data in H3; [done|].
  unfold size_of. change (u32 _) with 0xFFF00000. rewrite Z.min_l by lia. unfold sub, zlen.
  by rewrite drop_0, Nat2Z.id, firstn_all.
Qed.

(** ** Samples *)

Definition sample_tags : list htag :=
  [HOther 6 []; HAddress 0x200000 0x200000 0x200040 0x200080; HEntry 0x200010].
Definition zero_tag_kernel : bytes := concat (le_bytes 4 <$> [MULTIBOOT2_HEADER_MAGIC; 0; 16; 0; 0; 0]).
Definition standard_kernel : bytes :=
  le_bytes 4 MULTIBOOT2_HEADER_MAGIC ++ le_bytes 4 0 ++ le_bytes 4 32 ++
  le_bytes 4 (u32 (- (MULTIBOOT2_HEADER_MAGIC + 32))) ++ concat (render_htag <$> sample_tags).
Definition sample_load (path : bytes) : option bytes :=
  match path with
  | [1] => Some (kernel_file 0 sample_tags [1; 2; 3])
  | [2] => Some zero_tag_kernel
  | [3] => Some standard_kernel
  | _ => None
  end.

Lemma multiboot2_load_functional_witness :
  exists j, multiboot2_load_kernel sample_load 4 Mb1.zero_phys [1] (Some [113; 117]) = Ret (0, Some j) /\
    j_entry j = 0x200010 /\ fetch_le (j_memory j) 0x90000 4 = 136.
Proof.
  destruct (multiboot2_load_functional sample_load Mb1.zero_phys [1] (Some [113; 117]) 0 sample_tags [1; 2; 3] 4)
    as (j & E & H1 & _ & _ & _ & H2);
    [reflexivity|repeat constructor; by vm_compute|by vm_compute|cbn; lia| |by intros c [= <-]; vm_compute|].
  { split_and!; [by vm_compute|by vm_compute|by right|by intros _; vm_compute]. }
  exists j. split; [exact E|]. split; [exact H1|exact H2].
Defined.

Lemma multiboot2_zero_tag_diverges_witness :
  multiboot2_load_kernel sample_load 1000 Mb1.zero_phys [2] None = OutOfFuel.
Proof.
  apply (multiboot2_zero_tag_diverges sample_load Mb1.zero_phys [2] None zero_tag_kernel 16);
    try reflexivity. cbn. lia.
Defined.

Lemma multiboot2_standard_header_ignored_witness :
  exists j, multiboot2_load_kernel sample_load 2 Mb1.zero_phys [3] None = Ret (0, Some j) /\
    j_entry j = 0x100000 /\ holds (j_memory j) 0x100000 standard_kernel.
Proof.
  apply (multiboot2_standard_header_ignored sample_load Mb1.zero_phys [3] None 32
           (concat (render_htag <$> sample_tags)) 2); [reflexivity|by vm_compute|by vm_compute|lia|done].
Defined.
End Mb2.
