(* ===== verification/LinuxBoot.v ===== *)
(** * The Linux loaders (src/boot/Arch32/linux.c, and the Linux paths of ia32.c and x86_64.c)

    Placing a kernel at 1 MB with its initrd behind it, the boot parameters at
    0x90000, and the entry.  The header structure is the source's own, with the
    offsets its natural alignment gives (the magic is at 20, not at the boot
    protocol's 0x202).  [load_file] is a parameter; memory is that of
    [PhysMem.v]. *)

From S2P Require Import Prelude.
From S2P Require Import PhysMem.
From S2P Require Import Multiboot1.
Import ListNotations.
#[local] Open Scope list_scope.

Definition HDRS : Z := 0x53726448.

(** Offsets in [struct linux_kernel_header] and [struct linux_boot_params]. *)
Definition o_setup_sects : Z := 0.
Definition o_header : Z := 20.
Definition o_version : Z := 24.
Definition o_ramdisk_image : Z := 44.
Definition o_ramdisk_size : Z := 48.
Definition o_cmd_line_ptr : Z := 60.
Definition o_mem_upper : Z := 128.
Definition o_ext_mem_k : Z := 132.
Definition sizeof_boot_params : Z := 136.

(** [(header->setup_sects + 1) * 512], with the default for 0. *)
Definition setup_size (sects : Z) : Z :=
  let s := u32 ((sects + 1) * 512) in
  if s =? 0 then 4 * 512 else s.

(** The parameters at 0x90000 and the entry, once kernel and initrd are placed:
    [initrd] is the address and size when an initrd was loaded. *)
Definition put_params (mem : phys) (setup : bytes) (initrd : option (Z * Z)) (cmdline : option bytes) : phys :=
  let params := 0x90000 in
  let mem := fill mem params 0 sizeof_boot_params in
  let mem := poke mem params setup in
  let mem := match given cmdline with
             | Some c => poke_le (poke mem (0x90000 + 0x20) (c ++ [0])) (params + o_cmd_line_ptr) 4 0x90020
             | None => mem end in
  let mem := match initrd with
             | Some (a, n) =>
                 if 0 <? a then poke_le (poke_le mem (params + o_ramdisk_image) 4 a) (params + o_ramdisk_size) 4 n
                 else mem
             | None => mem end in
  poke_le (poke_le mem (params + o_mem_upper) 4 0x7FE00) (params + o_ext_mem_k) 4 0x7FE00.

(** Everything from the setup size on; sizes and addresses have [w] bits. *)
Definition boot_linux (w : Z) (mem : phys) (data : bytes) (initrd : option bytes) (cmdline : option bytes)
  : run loaded :=
  sects ← rd_le data o_setup_sects 1;
  let size := setup_size sects in
  kernel ← file_part data size (wrap w (zlen data - size));
  let mem := poke mem 0x100000 kernel in
  let '(mem, placed) :=
    match initrd with
    | Some d => let a := wrap w (0x100000 + zlen data - size) in (poke mem a d, Some (a, zlen d))
    | None => (mem, None)
    end in
  setup ← file_part data 0 size;
  mret (0, Some (mk_jump 0x100000 [0x90000] (put_params mem setup placed cmdline))).

Section Load.
Context (load_file : bytes -> option bytes).

(** The initrd's bytes: a path that is given and can be read. *)
Definition load_initrd (initrd_path : option bytes) : option bytes :=
  match given initrd_path with Some p => load_file p | None => None end.

Definition linux_load_kernel (mem : phys) (kernel_path : bytes) (initrd_path cmdline : option bytes) : run loaded :=
  match load_file kernel_path with
  | None => mret (-1, None)
  | Some data =>
      h ← rd_le data o_header 4;
      if negb (h =? HDRS) then mret (-1, None)
      else boot_linux 32 mem data (load_initrd initrd_path) cmdline
  end.

Definition linux_verify_kernel (kernel_path : bytes) : run Z :=
  match load_file kernel_path with
  | None => mret (-1)
  | Some data =>
      h ← rd_le data o_header 4;
      if negb (h =? HDRS) then mret (-1) else
      v ← rd_le data o_version 2;
      mret (if v <? 0x0200 then -1 else 0)
  end.

(** Data in memory instead of paths. *)
Definition boot_linux_kernel (mem : phys) (data : bytes) (initrd : option bytes) (cmdline : option bytes)
  : run loaded :=
  h ← rd_le data o_header 4;
  if negb (h =? HDRS) then mret (-1, None)
  else boot_linux 32 mem data (given initrd) cmdline.

End Load.

(** ** Lemmas *)

Lemma setup_size_range sects : 0 <= sects < 256 -> setup_size sects = (sects + 1) * 512.
Proof.
  intros Hs. unfold setup_size. rewrite wrap_small by (split; lia).
  destruct (Z.eqb_spec ((sects + 1) * 512) 0); lia.
Qed.

(** The command line as the kernel reads it: the pointer to it is stored inside
    it, at its byte 28. *)
Definition cmdline_read (c : bytes) : bytes := if zlen c <? 28 then c else take 28 c ++ [32].

(** The bytes from 0x90020 on: without an initrd that string and its NUL; with one
    its address and size are stored over the characters 12 to 19, so that only a
    command line of fewer than 12 characters is whole. *)
Definition cmdline_stored (c : bytes) (initrd : option (Z * Z)) : bytes :=
  match initrd with
  | None => cmdline_read c ++ [0]
  | Some (a, n) => if zlen c <? 12 then c ++ [0] else take 12 c ++ le_bytes 4 a ++ le_bytes 4 n
  end.

Ltac unfold_params :=
  unfold put_params, o_ramdisk_image, o_ramdisk_size, o_cmd_line_ptr, o_mem_upper, o_ext_mem_k, sizeof_boot_params;
  cbv zeta.

Lemma put_params_above mem setup initrd cmdline b l : 0x100000 <= b -> zlen setup <= 0x20000 ->
  (forall c, given cmdline = Some c -> zlen c < 0x60000) -> holds mem b l ->
  holds (put_params mem setup initrd cmdline) b l.
Proof.
  intros Hb Hs Hc H. pose proof (zlen_nonneg setup). unfold_params.
  destruct (given cmdline) as [c|]; [specialize (Hc c eq_refl)|];
    (destruct initrd as [[a n]|]; [destruct (0 <? a)|]); mem_find; exact H.
Qed.

Lemma put_params_cmdline mem setup cmdline c : given cmdline = Some c -> Forall (fun x => x <> 0) c ->
  c_string_at (put_params mem setup None cmdline) 0x90020 (cmdline_read c).
Proof.
  intros Hg Hc. unfold cmdline_read. destruct (Z.ltb_spec (zlen c) 28) as [Hl|Hl].
  { split; [|done]. unfold_params. rewrite Hg. mem_find. }
  assert (Ht : zlen (take 28 c) = 28) by (unfold zlen in *; rewrite length_take; lia).
  split; [|apply Forall_app; split; [by apply Forall_take|by repeat constructor]].
  rewrite <- app_assoc. apply holds_app. rewrite Ht. split.
  - unfold_params. rewrite Hg. mem_find. apply (Mb1.holds_prefix _ _ _ (drop 28 c ++ [0])).
    rewrite app_assoc, take_drop. apply holds_poke.
  - unfold_params. rewrite Hg. apply (Mb1.holds_prefix _ _ ([32] ++ [0]) [9; 0]).
    change (([32] ++ [0]) ++ [9; 0]) with (le_bytes 4 0x90020). mem_find.
Qed.

Lemma put_params_cmdline_initrd mem setup cmdline c a n : given cmdline = Some c -> 0 < a ->
  holds (put_params mem setup (Some (a, n)) cmdline) 0x90020 (cmdline_stored c (Some (a, n))).
Proof.
  intros Hg Ha%Z.ltb_lt. unfold cmdline_stored. destruct (Z.ltb_spec (zlen c) 12) as [Hl|Hl].
  { unfold_params. rewrite Hg, Ha. mem_find. }
  assert (Ht : zlen (take 12 c) = 12) by (unfold zlen in *; rewrite length_take; lia).
  apply holds_app. rewrite Ht. split; [|apply holds_app; split].
  - unfold_params. rewrite Hg, Ha. mem_find. apply (Mb1.holds_prefix _ _ _ (drop 12 c ++ [0])).
    rewrite app_assoc, take_drop. apply holds_poke.
  - unfold_params. rewrite Hg, Ha. change (0x90020 + 12) with (0x90000 + 44). mem_find.
  - unfold_params. rewrite Hg, Ha. change (0x90020 + 12 + zlen (le_bytes 4 a)) with (0x90000 + 48). mem_find.
Qed.

Lemma put_params_fields mem setup initrd cmdline :
  let m := put_params mem setup initrd cmdline in
  holds m (0x90000 + o_mem_upper) (le_bytes 4 0x7FE00) /\ holds m (0x90000 + o_ext_mem_k) (le_bytes 4 0x7FE00) /\
  (given cmdline <> None -> holds m (0x90000 + o_cmd_line_ptr) (le_bytes 4 0x90020)) /\
  (forall a n, initrd = Some (a, n) -> 0 < a ->
     holds m (0x90000 + o_ramdisk_image) (le_bytes 4 a) /\ holds m (0x90000 + o_ramdisk_size) (le_bytes 4 n)).
Proof.
  unfold_params. split_and!.
  - mem_find.
  - mem_find.
  - intros Hg. destruct (given cmdline); [|done]. destruct initrd as [[a n]|]; [destruct (0 <? a)|]; mem_find.
  - intros a n -> Ha. apply Z.ltb_lt in Ha. rewrite Ha. split; mem_find.
Qed.

(** Facts about the file's first byte. *)
Lemma rd_byte data : is_bytes data -> 0 < zlen data ->
  rd_le data 0 1 = Ret (zget data 0) /\ 0 <= zget data 0 < 256.
Proof.
  intros Hb Hl. destruct data as [|x data]; [by vm_compute in Hl|]. apply Forall_cons in Hb as [Hx _].
  unfold rd_le. replace (_ && _) with true by (symmetry; zbool). split; [|exact Hx].
  change (Ret (x + 256 * 0) = Ret x). f_equal. lia.
Qed.

(** What [boot_linux] leaves, for a file that has its setup sectors. *)
Lemma boot_linux_places w mem data initrd cmdline :
  32 <= w -> is_bytes data -> 0 < zlen data < 2 ^ 31 ->
  let size := (zget data 0 + 1) * 512 in
  size <= zlen data ->
  (forall d, initrd = Some d -> zlen d < 2 ^ 30) ->
  (forall c, given cmdline = Some c -> zlen c < 0x60000 /\ Forall (fun x => x <> 0) c) ->
  exists m, boot_linux w mem data initrd cmdline = Ret (0, Some (mk_jump 0x100000 [0x90000] m)) /\
    holds m 0x100000 (sub data size (zlen data - size)) /\
    (fetch_le m (0x90000 + o_mem_upper) 4 = 0x7FE00 /\ fetch_le m (0x90000 + o_ext_mem_k) 4 = 0x7FE00) /\
    (forall d, initrd = Some d ->
       let a := 0x100000 + zlen data - size in
       holds m a d /\ fetch_le m (0x90000 + o_ramdisk_image) 4 = a /\
       fetch_le m (0x90000 + o_ramdisk_size) 4 = zlen d) /\
    (forall c, given cmdline = Some c ->
       fetch_le m (0x90000 + o_cmd_line_ptr) 4 = 0x90020 /\
       holds m 0x90020 (cmdline_stored c ((fun d => (0x100000 + zlen data - size, zlen d)) <$> initrd))).
Proof.
  intros Hw Hb Hl size Hs Hi Hc. unfold boot_linux, o_setup_sects.
  destruct (rd_byte data Hb ltac:(lia)) as [-> Hr]. bind_step. rewrite setup_size_range by done. fold size.
  assert (H32 : 2 ^ 32 <= 2 ^ w) by (apply Z.pow_le_mono_r; lia).
  rewrite !(wrap_small w) by (split; lia). rewrite !file_part_ok by lia. bind_step.
  set (a := 0x100000 + zlen data - size).
  assert (Hz : zlen (sub data 0 size) <= 0x20000) by (rewrite zlen_sub by lia; lia).
  set (kernel := sub data size (zlen data - size)).
  assert (Hk : zlen kernel = zlen data - size) by (subst kernel; rewrite zlen_sub by lia; lia).
  assert (Hcl : forall c, given cmdline = Some c -> zlen c < 0x60000) by (intros c E; by apply Hc).
  set (st := match initrd with Some _ => _ | None => _ end).
  assert (Hst : st = (match initrd with Some d => poke (poke mem 0x100000 kernel) a d | None => poke mem 0x100000 kernel end,
                      match initrd with Some d => Some (a, zlen d) | None => None end)) by (by destruct initrd).
  rewrite Hst. clear Hst st. bind_step. eexists. split; [reflexivity|].
  set (placed := match initrd with Some _ => _ | None => _ end).
  set (at_ := match initrd with Some _ => Some _ | None => _ end).
  destruct (put_params_fields placed (sub data 0 size) at_ cmdline) as (H1 & H2 & H3 & H4).
  split_and!.
  - apply put_params_above; [lia|done|done|]. subst placed. destruct initrd; [|apply holds_poke].
    apply holds_poke_apart; [|apply holds_poke]. unfold apart. rewrite Hk. lia.
  - by apply fetch_word.
  - by apply fetch_word.
  - intros d ->. specialize (Hi d eq_refl). pose proof (zlen_nonneg d).
    destruct (H4 a (zlen d) eq_refl ltac:(lia)) as [H5 H6]. split_and!.
    + apply put_params_above; [lia|done|done|]. apply holds_poke.
    + apply fetch_word; [done|lia].
    + apply fetch_word; [done|lia].
  - intros c E. split; [apply fetch_word; [apply H3; by rewrite E|done]|].
    subst placed at_. destruct initrd as [d|]; cbn [fmap option_fmap option_map].
    + apply put_params_cmdline_initrd; [done|lia].
    + by apply put_params_cmdline; [|apply Hc].
Qed.

(** ** Properties *)

(** C14. What the Linux loader does with a file that has its magic "HdrS" at byte 20
    (where the loader's own structure has it; an image of the Linux boot protocol
    has it at byte 0x202 and is refused) and its setup sectors: the code behind the
    setup sectors is at 1 MB and entered with the parameters' address 0x90000; the
    initrd follows the kernel, and the parameters give its address and size, and
    the memory sizes.  The command line is stored from 0x90020 on, inside the
    parameters: without an initrd its first 28 characters survive, since the
    pointer to it is stored over the next four; with an initrd its address and
    size are stored over the characters 12 to 19, and only a command line of fewer
    than 12 characters is whole. *)
Theorem linux_load_functional load_file mem path initrd_path cmdline data :
  load_file path = Some data -> is_bytes data -> zlen data < 2 ^ 31 ->
  rd_le data o_header 4 = Ret HDRS ->
  let size := (zget data 0 + 1) * 512 in
  size <= zlen data ->
  (forall d, load_initrd load_file initrd_path = Some d -> zlen d < 2 ^ 30) ->
  (forall c, given cmdline = Some c -> zlen c < 0x60000 /\ Forall (fun x => x <> 0) c) ->
  exists m, linux_load_kernel load_file mem path initrd_path cmdline =
      Ret (0, Some (mk_jump 0x100000 [0x90000] m)) /\
    holds m 0x100000 (sub data size (zlen data - size)) /\
    (fetch_le m (0x90000 + o_mem_upper) 4 = 0x7FE00 /\ fetch_le m (0x90000 + o_ext_mem_k) 4 = 0x7FE00) /\
    (forall d, load_initrd load_file initrd_path = Some d ->
       let a := 0x100000 + zlen data - size in
       holds m a d /\ fetch_le m (0x90000 + o_ramdisk_image) 4 = a /\
       fetch_le m (0x90000 + o_ramdisk_size) 4 = zlen d) /\
    (forall c, given cmdline = Some c ->
       fetch_le m (0x90000 + o_cmd_line_ptr) 4 = 0x90020 /\
       holds m 0x90020 (cmdline_stored c
         ((fun d => (0x100000 + zlen data - size, zlen d)) <$> load_initrd load_file initrd_path))).
Proof.
  intros Hf Hb Hl Hm size Hs Hi Hc. unfold linux_load_kernel. rewrite Hf, Hm. bind_step.
  rewrite Z.eqb_refl. cbn [negb].
  assert (0 < zlen data).
  { unfold rd_le in Hm. pose proof (zlen_nonneg data). destruct (Z.leb_spec (o_header + 4) (zlen data));
      [unfold o_header in *; lia|by rewrite andb_false_r in Hm]. }
  by apply boot_linux_places.
Qed.

(** A kernel of one setup sector and four bytes of code, and a long command line. *)
Definition sample_linux : bytes := 0 :: zeros 19 ++ le_bytes 4 HDRS ++ zeros 488 ++ [235; 254; 144; 144].
Definition sample_load (p : bytes) : option bytes :=
  match p with [1] => Some sample_linux | [2] => Some [7; 8; 9] | _ => None end.
Definition long_cmdline : bytes := replicate 40 97.

(** Without an initrd 28 of the 40 characters are read; with one, 12, and then the
    initrd's address 0x100004. *)
Lemma linux_load_functional_witness :
  (exists m, linux_load_kernel sample_load Mb1.zero_phys [1] None (Some long_cmdline) =
      Ret (0, Some (mk_jump 0x100000 [0x90000] m)) /\
    holds m 0x100000 [235; 254; 144; 144] /\ holds m 0x90020 (replicate 28 97 ++ [32; 0])) /\
  (exists m, linux_load_kernel sample_load Mb1.zero_phys [1] (Some [2]) (Some long_cmdline) =
      Ret (0, Some (mk_jump 0x100000 [0x90000] m)) /\
    holds m 0x100004 [7; 8; 9] /\ holds m 0x90020 (replicate 12 97 ++ [4; 0; 16; 0] ++ [3; 0; 0; 0])).
Proof.
  assert (Hb : is_bytes sample_linux) by (unfold is_bytes, is_byte; apply (bool_decide_eq_true _); vm_compute; reflexivity).
  assert (Hc : forall c, given (Some long_cmdline) = Some c -> zlen c < 0x60000 /\ Forall (fun x => x <> 0) c).
  { intros c [= <-]. split; [by vm_compute|]. by repeat constructor. }
  split.
  - destruct (linux_load_functional sample_load Mb1.zero_phys [1] None (Some long_cmdline) sample_linux)
      as (m & E & H1 & _ & _ & H2); [reflexivity|done|by vm_compute|by vm_compute|by vm_compute|done|done|].
    exists m. split; [exact E|]. split; [exact H1|]. by apply (H2 long_cmdline).
  - destruct (linux_load_functional sample_load Mb1.zero_phys [1] (Some [2]) (Some long_cmdline) sample_linux)
      as (m & E & _ & _ & H1 & H2); [reflexivity|done|by vm_compute|by vm_compute|by vm_compute| |done|].
    { intros d [= <-]. by vm_compute. }
    exists m. split; [exact E|]. split; [by apply (H1 [7; 8; 9])|]. by apply (H2 long_cmdline).
Defined.

(** An image without the magic at byte 20, such as every image of the Linux boot
    protocol, which has it at 0x202, is refused. *)
Theorem linux_refuses load_file mem path initrd_path cmdline data h :
  load_file path = Some data -> rd_le data o_header 4 = Ret h -> h <> HDRS ->
  linux_load_kernel load_file mem path initrd_path cmdline = Ret (-1, None).
Proof.
  intros Hf Hh Hne. unfold linux_load_kernel. rewrite Hf, Hh. bind_step.
  by rewrite (proj2 (Z.eqb_neq _ _) Hne).
Qed.
