(* ===== verification/ArchBoot.v ===== *)
(** * The architecture loaders (src/boot/Arch32/ia32.c, x86_64.c, aarch64.c, riscv64.c, loongarch64.c)

    The x86 loaders dispatch on a file's first word to the Linux and Multiboot
    paths; the three 64-bit loaders share one scheme (initrd and command line
    placed, the kernel copied, a parameter block of 64-bit fields, the entry)
    with the constants of each architecture, the record [arch64]. *)

From S2P Require Import Prelude.
From S2P Require Import PhysMem.
From S2P Require Import Multiboot1.
From S2P Require Import Multiboot2.
From S2P Require Import LinuxBoot.
Import ListNotations.
#[local] Open Scope list_scope.

(** ** x86 *)

Definition MB1_MAGIC : Z := 0x1BADB002.
Definition MB2_MAGIC : Z := 0xE85250D6.

(** The parameter block of the Multiboot 1 path: [n]-byte fields, [size] bytes. *)
Definition boot_multiboot1 (n : nat) (size : Z) (mem : phys) (data : bytes) (cmdline : option bytes) : loaded :=
  let info := 0x1000 in
  let field (k : Z) := info + Z.of_nat n * k in
  let mem := fill mem info 0 size in
  let mem := poke_le mem (field 1) n 640 in
  let mem := poke_le mem (field 2) n 0x7FE00 in
  let mem := poke_le mem (field 0) n (1 ||| 4) in
  let mem := match given cmdline with
             | Some c => poke_le (poke mem 0x2000 (c ++ [0])) (field 4) n 0x2000
             | None => mem end in
  let mem := poke mem 0x100000 data in
  (0, Some (mk_jump 0x100000 [0x2BADB002; info] mem)).

Definition ia32_boot_multiboot1 := boot_multiboot1 4 88.
Definition x86_64_boot_multiboot1 := boot_multiboot1 8 168.

(** As [boot_multiboot2_kernel] of multiboot2.c. *)
Definition ia32_boot_multiboot2 := Mb2.boot_multiboot2_kernel.
Definition x86_64_boot_multiboot2 := Mb2.boot_multiboot2_kernel.

Section Load.
Context (load_file : bytes -> option bytes).

Definition ia32_boot_linux (mem : phys) (data : bytes) (initrd_path cmdline : option bytes) : run loaded :=
  boot_linux 32 mem data (load_initrd load_file initrd_path) cmdline.
Definition x86_64_boot_linux (mem : phys) (data : bytes) (initrd_path cmdline : option bytes) : run loaded :=
  boot_linux 64 mem data (load_initrd load_file initrd_path) cmdline.

Definition x86_64_load_kernel (mem : phys) (kernel_path : bytes) (initrd_path cmdline : option bytes) : run loaded :=
  match load_file kernel_path with
  | None => mret (-1, None)
  | Some data =>
      h ← word data 0;
      if h =? HDRS then x86_64_boot_linux mem data initrd_path cmdline
      else if h =? MB1_MAGIC then mret (x86_64_boot_multiboot1 mem data cmdline)
      else if h =? MB2_MAGIC then mret (x86_64_boot_multiboot2 mem data cmdline)
      else mret (-1, None)
  end.

Definition ia32_load_kernel (mem : phys) (kernel_path : bytes) (initrd_path cmdline : option bytes) : run loaded :=
  match load_file kernel_path with
  | None => mret (-1, None)
  | Some data =>
      h ← word data 0;
      if h =? HDRS then ia32_boot_linux mem data initrd_path cmdline
      else if h =? MB1_MAGIC then mret (ia32_boot_multiboot1 mem data cmdline)
      else if h =? MB2_MAGIC then mret (ia32_boot_multiboot2 mem data cmdline)
      else mret (-1, None)
  end.

Definition x86_verify_kernel (kernel_path : bytes) : run Z :=
  match load_file kernel_path with
  | None => mret (-1)
  | Some data =>
      h ← word data 0;
      mret (if (h =? HDRS) || (h =? MB1_MAGIC) || (h =? MB2_MAGIC) then 0 else -1)
  end.
Definition x86_64_verify_kernel := x86_verify_kernel.
Definition ia32_verify_kernel := x86_verify_kernel.

(** ** The 64-bit architectures *)

(** Where the kernel goes, the device tree's address by the kernel's size, the
    initrd's distance from it, the parameter block and the memory it announces,
    the block's last fields by the device tree's address; where the header has
    its magic. *)
Record arch64 := mk_arch {
  kernel_load_addr : Z; dtb_of : Z -> Z; initrd_distance : Z; params_addr : Z;
  mem_start : Z; mem_size : Z; last_fields : Z -> list Z; magic_offset : Z; magic : Z }.

(** [(struct aarch64_boot_params* )0x40000000 - 0x1000]: the subtraction counts
    structures of 72 bytes. *)
Definition aarch64 : arch64 :=
  mk_arch 0x40000000 (fun n => u64 (0x40000000 + n)) 0x10000 (0x40000000 - 0x1000 * 72)
    0x40000000 0x80000000 (fun _ => []) 56 0x644d5241.
Definition riscv64 : arch64 :=
  mk_arch 0x80200000 (fun _ => 0x82000000) 0x100000 0x80000000
    0x80000000 0x80000000 (fun dtb => [0; dtb]) 64 0x56435352.
Definition loongarch64 : arch64 :=
  mk_arch 0x9000000000200000 (fun _ => 0x9000000000300000) 0x100000 0x9000000000100000
    0x9000000000000000 0x800000000 (fun _ => [0; 0]) 64 0x4c4f4f4e.

(** The parameter block: cleared, then every field assigned. *)
Definition put_fields (mem : phys) (a : Z) (fs : list Z) : phys :=
  poke (fill mem a 0 (8 * zlen fs)) a (concat (le_bytes 8 <$> fs)).

Definition boot_arch64 (arch : arch64) (mem : phys) (data : bytes) (initrd_path cmdline : option bytes)
  : run loaded :=
  let dtb := dtb_of arch (zlen data) in
  let '(mem, initrd_addr, initrd_size) :=
    match load_initrd load_file initrd_path with
    | Some d => let a := u64 (dtb + initrd_distance arch) in (poke mem a d, a, zlen d)
    | None => (mem, 0, 0)
    end in
  let '(mem, cmdline_addr, cmdline_size) :=
    match given cmdline with
    | Some c => let a := u64 (initrd_addr + initrd_size + 0x1000) in (poke mem a (c ++ [0]), a, zlen c + 1)
    | None => (mem, 0, 0)
    end in
  let mem := poke mem (kernel_load_addr arch) data in
  let mem := put_fields mem (params_addr arch)
    ([dtb; initrd_addr; initrd_size; cmdline_addr; cmdline_size; kernel_load_addr arch; zlen data;
      mem_start arch; mem_size arch] ++ last_fields arch dtb) in
  text_offset ← rd_le data 8 8;
  mret (0, Some (mk_jump (u64 (kernel_load_addr arch + text_offset)) [0; dtb; params_addr arch] mem)).

Definition aarch64_boot_linux := boot_arch64 aarch64.
Definition riscv64_boot_linux := boot_arch64 riscv64.
Definition loongarch64_boot_linux := boot_arch64 loongarch64.

(** The header's magic is checked. *)
Definition load_arch64 (arch : arch64) (mem : phys) (kernel_path : bytes) (initrd_path cmdline : option bytes)
  : run loaded :=
  match load_file kernel_path with
  | None => mret (-1, None)
  | Some data =>
      m ← rd_le data (magic_offset arch) 4;
      if m =? magic arch then boot_arch64 arch mem data initrd_path cmdline else mret (-1, None)
  end.
Definition aarch64_load_kernel := load_arch64 aarch64.
Definition riscv64_load_kernel := load_arch64 riscv64.
Definition loongarch64_load_kernel := load_arch64 loongarch64.

Definition verify_arch64 (arch : arch64) (kernel_path : bytes) : run Z :=
  match load_file kernel_path with
  | None => mret (-1)
  | Some data => m ← rd_le data (magic_offset arch) 4; mret (if m =? magic arch then 0 else -1)
  end.
Definition aarch64_verify_kernel := verify_arch64 aarch64.
Definition riscv64_verify_kernel := verify_arch64 riscv64.
Definition loongarch64_verify_kernel := verify_arch64 loongarch64.

End Load.

(** Without an initrd, the command line behind the device tree, and the kernel
    entered at its first byte. *)
Definition boot_direct64 (arch : arch64) (mem : phys) (data : bytes) (cmdline : option bytes) : loaded :=
  let dtb := dtb_of arch (zlen data) in
  let '(mem, cmdline_addr, cmdline_size) :=
    match given cmdline with
    | Some c => let a := u64 (dtb + initrd_distance arch) in (poke mem a (c ++ [0]), a, zlen c + 1)
    | None => (mem, 0, 0)
    end in
  let mem := poke mem (kernel_load_addr arch) data in
  let mem := put_fields mem (params_addr arch)
    ([dtb; 0; 0; cmdline_addr; cmdline_size; kernel_load_addr arch; zlen data; mem_start arch; mem_size arch]
     ++ last_fields arch dtb) in
  (0, Some (mk_jump (kernel_load_addr arch) [0; dtb; params_addr arch] mem)).
Definition aarch64_boot_uefi := boot_direct64 aarch64.
Definition riscv64_boot_opensbi := boot_direct64 riscv64.
Definition loongarch64_boot_uefi := boot_direct64 loongarch64.

(** ** Lemmas *)

Lemma zlen_fields fs : zlen (concat (le_bytes 8 <$> fs)) = 8 * zlen fs.
Proof.
  induction fs as [|f fs IH]; [done|]. cbn [fmap list_fmap concat]. rewrite zlen_app, zlen_le_bytes, IH.
  unfold zlen. cbn [length]. lia.
Qed.

Lemma put_fields_apart mem a fs b l : apart a (8 * zlen fs) b (zlen l) -> holds mem b l ->
  holds (put_fields mem a fs) b l.
Proof.
  intros Ha H. unfold put_fields. apply holds_poke_apart; [by rewrite zlen_fields|]. by apply holds_fill_apart.
Qed.

(** An initrd that is far enough from the end of the kernel. *)
Definition fits (arch : arch64) (n : Z) : Prop :=
  kernel_load_addr arch + n <= dtb_of arch n + initrd_distance arch.

Lemma fits_aarch64 n : 0 <= n < 2 ^ 32 -> fits aarch64 n.
Proof. intros Hn. unfold fits. cbn. rewrite wrap_small by (split; lia). lia. Qed.

Lemma fits_riscv64 n : fits riscv64 n <-> n <= 0x1F00000.
Proof. unfold fits. cbn. lia. Qed.

Lemma fits_loongarch64 n : fits loongarch64 n <-> n <= 0x200000.
Proof. unfold fits. cbn. lia. Qed.

(** What the boot leaves in memory. *)
Definition placed64 (arch : arch64) (data : bytes) (initrd cmdline : option bytes) (m : phys) : Prop :=
  let dtb := dtb_of arch (zlen data) in
  let ia := match initrd with Some _ => dtb + initrd_distance arch | None => 0 end in
  let isize := zlen (from_option id [] initrd) in
  let ca := match cmdline with Some _ => ia + isize + 0x1000 | None => 0 end in
  let csize := match cmdline with Some c => zlen c + 1 | None => 0 end in
  holds m (kernel_load_addr arch) data /\
  (forall d, initrd = Some d -> holds m ia d) /\
  (forall c, cmdline = Some c -> holds m ca (c ++ [0])) /\
  holds m (params_addr arch) (concat (le_bytes 8 <$>
    [dtb; ia; isize; ca; csize; kernel_load_addr arch; zlen data; mem_start arch; mem_size arch])).

Ltac arch_apart := unfold apart; rewrite ?zlen_app, ?zlen_fields; change (zlen [0]) with 1; cbn; unfold zlen in *; lia.

(** The three architectures' constants. *)
Lemma arch_cases arch : In arch [aarch64; riscv64; loongarch64] ->
  arch = aarch64 \/ arch = riscv64 \/ arch = loongarch64.
Proof. cbn. intuition. Qed.

Lemma arch_facts arch n : In arch [aarch64; riscv64; loongarch64] -> 0 <= n < 2 ^ 28 ->
  let dtb := dtb_of arch n in
  0x3FF00000 <= params_addr arch /\ params_addr arch + 88 <= kernel_load_addr arch /\
  kernel_load_addr arch < dtb + initrd_distance arch < 2 ^ 64 - 2 ^ 32 /\
  zlen (last_fields arch dtb) <= 2.
Proof.
  intros Ha Hn. apply arch_cases in Ha as [->|[->| ->]]; cbn; rewrite ?wrap_small by (split; lia);
    unfold zlen; cbn [length]; lia.
Qed.

(** ** Properties *)

(**  The aarch64, riscv64 and loongarch64 loaders: a kernel with its magic is copied
    to the architecture's load address and entered at its text offset with the
    device tree's and the parameter block's addresses; initrd and command line
    are in memory at the addresses the block gives, with their sizes, as long as
    the kernel ends before the initrd (always on aarch64, below 31 MB on riscv64,
    below 2 MB on loongarch64). *)
Theorem arch64_load_functional load_file arch mem path initrd_path cmdline data text :
  In arch [aarch64; riscv64; loongarch64] ->
  load_file path = Some data -> zlen data < 2 ^ 28 -> fits arch (zlen data) ->
  rd_le data (magic_offset arch) 4 = Ret (magic arch) -> rd_le data 8 8 = Ret text ->
  (forall d, load_initrd load_file initrd_path = Some d -> zlen d < 2 ^ 28) ->
  (forall c, given cmdline = Some c -> zlen c < 2 ^ 28) ->
  exists m, load_arch64 load_file arch mem path initrd_path cmdline =
      Ret (0, Some (mk_jump (u64 (kernel_load_addr arch + text))
                            [0; dtb_of arch (zlen data); params_addr arch] m)) /\
    placed64 arch data (load_initrd load_file initrd_path) (given cmdline) m.
Proof.
  intros Ha Hf Hl Hfit Hm Ht Hi Hc. unfold load_arch64. rewrite Hf, Hm. bind_step. rewrite Z.eqb_refl.
  unfold boot_arch64. cbv zeta. rewrite Ht. pose proof (zlen_nonneg data) as Hn.
  pose proof (arch_facts arch (zlen data) Ha ltac:(lia)) as F. cbv zeta in F.
  destruct F as (F1 & F2 & F3 & F4). unfold fits in Hfit.
  set (dtb := dtb_of arch (zlen data)) in *. set (fs := last_fields arch dtb) in *.
  unfold placed64. fold dtb. cbv zeta. pose proof (zlen_nonneg fs) as Hfs.
  set (initrd := load_initrd load_file initrd_path) in *. clearbody initrd.
  assert (Hz : forall (x1 x2 x3 x4 x5 x6 x7 x8 x9 : Z), zlen ([x1; x2; x3; x4; x5; x6; x7; x8; x9] ++ fs) <= 11)
     by (intros; rewrite zlen_app; unfold zlen at 1; cbn [length]; lia).
  assert (Hp : forall mem a xs, zlen xs = 9 -> holds (put_fields mem a (xs ++ fs)) a (concat (le_bytes 8 <$> xs))).
  { intros m a xs _. unfold put_fields. apply (Mb1.holds_prefix _ _ _ (concat (le_bytes 8 <$> fs))).
    rewrite <- concat_app, <- fmap_app. apply holds_poke. }
  destruct initrd as [d|]; [specialize (Hi d eq_refl); pose proof (zlen_nonneg d)|];
    (destruct (given cmdline) as [c|]; [specialize (Hc c eq_refl); pose proof (zlen_nonneg c)|]);
    cbn [from_option id]; rewrite ?(wrap_small 64 (dtb + initrd_distance arch)) by (split; lia);
    rewrite ?(wrap_small 64 (_ + _ + 0x1000)) by (split; lia); bind_step;
    (eexists; split; [reflexivity|]); change (zlen []) with 0; cbn [from_option id];
    (split_and!; [| | |by apply Hp]);
    try (intros ? [= <-]); try done;
    (apply put_fields_apart; [match goal with |- apart _ (8 * zlen ?l) _ _ =>
       generalize (zlen l) (Hz _ _ _ _ _ _ _ _ _ : zlen l <= 11); intros ? ? end; unfold apart; rewrite ?zlen_app; change (zlen [0]) with 1; lia|]);
    mem_find.
Qed.

(** On loongarch64 a kernel of more than 2 MB overwrites its own initrd: the kernel
    is copied last, over the initrd's address, so what the parameter block
    announces as initrd starts with the kernel's bytes from 2 MB on. *)
Theorem loongarch64_initrd_overwritten load_file mem path initrd_path data text d :
  load_file path = Some data -> 0x200000 < zlen data < 2 ^ 28 ->
  rd_le data 64 4 = Ret 0x4c4f4f4e -> rd_le data 8 8 = Ret text ->
  load_initrd load_file initrd_path = Some d -> zlen d < 2 ^ 28 ->
  exists j, loongarch64_load_kernel load_file mem path initrd_path None = Ret (0, Some j) /\
    fetch_le (j_memory j) (0x9000000000100000 + 8) 8 = 0x9000000000400000 /\
    fetch_le (j_memory j) (0x9000000000100000 + 16) 8 = zlen d /\
    forall i, 0 <= i < zlen data - 0x200000 ->
      j_memory j (0x9000000000400000 + i) = zget data (0x200000 + i).
Proof.
  intros Hf Hl Hm Ht Hi Hd. unfold loongarch64_load_kernel, load_arch64. rewrite Hf.
  change (magic_offset loongarch64) with 64. rewrite Hm. bind_step.
  change (0x4c4f4f4e =? magic loongarch64) with true. cbv iota. unfold boot_arch64. rewrite Hi, Ht. cbv zeta.
  cbn [given]. bind_step. eexists. split; [reflexivity|]. cbn [j_memory]. pose proof (zlen_nonneg d).
  match goal with |- context [put_fields ?mm ?a ?fs] => set (m := mm); set (f := fs) end.
  assert (Hp : holds (put_fields m 0x9000000000100000 f) 0x9000000000100000 (concat (le_bytes 8 <$> f)))
    by apply holds_poke.
  unfold f in Hp at 2. cbn [app fmap list_fmap concat] in Hp. rewrite !holds_app, !zlen_le_bytes in Hp.
  destruct Hp as (_ & H1 & H2 & _). split_and!.
  - exact (fetch_holds _ _ 8 _ H1 ltac:(done)).
  - apply (fetch_holds _ _ 8 _ H2). change (256 ^ Z.of_nat 8) with (2 ^ 64). lia.
  - intros i Hi'. unfold put_fields. rewrite poke_other by (rewrite zlen_fields; subst f; cbn; unfold zlen; cbn; lia).
    rewrite fill_other by (subst f; cbn; unfold zlen; cbn; lia). subst m. cbn [kernel_load_addr loongarch64].
    unfold poke at 1. replace (_ && _) with true by (symmetry; zbool). f_equal. lia.
Qed.

(** Every kernel that [ia32_load_kernel] or [x86_64_load_kernel] takes for Linux has
    the magic in its first word, whose low byte is then read as the number of
    setup sectors: the setup size is always 73 * 512 bytes, a smaller file is read
    out of bounds, and of a larger one the code behind that offset is entered. *)
Theorem x86_linux_setup_fixed load_file mem path initrd_path data :
  load_file path = Some data -> is_bytes data -> word data 0 = Ret HDRS -> zlen data < 2 ^ 31 ->
  (forall d, load_initrd load_file initrd_path = Some d -> zlen d < 2 ^ 30) ->
  (zlen data < 37376 ->
     x86_64_load_kernel load_file mem path initrd_path None = UB /\
     ia32_load_kernel load_file mem path initrd_path None = UB) /\
  (37376 <= zlen data -> exists m,
     x86_64_load_kernel load_file mem path initrd_path None = Ret (0, Some (mk_jump 0x100000 [0x90000] m)) /\
     holds m 0x100000 (sub data 37376 (zlen data - 37376))).
Proof.
  intros Hf Hb Hw Hl Hi. unfold x86_64_load_kernel, ia32_load_kernel. rewrite Hf, Hw. bind_step.
  rewrite Z.eqb_refl. unfold x86_64_boot_linux, ia32_boot_linux.
  unfold word, rd_le in Hw. change (4 * 0) with 0 in Hw.
  destruct (Z.leb_spec (0 + 4) (zlen data)) as [H4|H4]; [|by rewrite andb_false_r in Hw].
  cbn [Z.leb Z.compare andb] in Hw. injection Hw as Hw.
  assert (H0 : zget data 0 = 72).
  { destruct data as [|x data]; [by vm_compute in H4|].
    apply Forall_cons in Hb as [Hx _]. unfold is_byte, in_u in Hx.
    change (sub (x :: data) 0 4) with (x :: take 3 data) in Hw. cbn [le_val] in Hw.
    change (zget (x :: data) 0) with x. unfold HDRS in Hw. lia. }
  split.
  - intros Hs. unfold boot_linux, o_setup_sects. destruct (rd_byte data Hb ltac:(lia)) as [-> _]. bind_step.
    rewrite H0. change (setup_size 72) with 37376. unfold file_part.
    assert (Hneg : forall w, 32 <= w -> zlen data < 37376 + wrap w (zlen data - 37376)).
    { intros w Hw'. assert (H32 : 2 ^ 32 <= 2 ^ w) by (apply Z.pow_le_mono_r; lia).
      unfold wrap. rewrite <- (Z_mod_plus_full _ 1), Z.mul_1_l, Z.mod_small by lia. lia. }
    pose proof (Hneg 64 ltac:(lia)). pose proof (Hneg 32 ltac:(lia)).
    rewrite (proj2 (Z.leb_gt (37376 + wrap 64 (zlen data - 37376)) (zlen data))) by lia.
    rewrite (proj2 (Z.leb_gt (37376 + wrap 32 (zlen data - 37376)) (zlen data))) by lia. by rewrite !andb_false_r.
  - intros Hs. destruct (boot_linux_places 64 mem data (load_initrd load_file initrd_path) None)
      as (m & E & Hk & _); [lia|done|lia|by rewrite H0|done|done|].
    rewrite H0 in Hk. by exists m.
Qed.

(** ** Samples *)

(** A small kernel for aarch64: text offset 16 and the magic at 56. *)
Definition sample_image : bytes := zeros 8 ++ le_bytes 8 16 ++ zeros 40 ++ le_bytes 4 0x644d5241 ++ [1; 2; 3].
Definition sample_load (p : bytes) : option bytes :=
  match p with [1] => Some sample_image | [2] => Some [7; 8; 9] | _ => None end.

Lemma arch64_load_functional_witness :
  exists m, load_arch64 sample_load aarch64 Mb1.zero_phys [1] (Some [2]) (Some [113]) =
      Ret (0, Some (mk_jump (u64 (0x40000000 + 16)) [0; 0x40000000 + 63; 0x3FFB8000] m)) /\
    placed64 aarch64 sample_image (Some [7; 8; 9]) (Some [113]) m.
Proof.
  apply (arch64_load_functional sample_load aarch64 Mb1.zero_phys [1] (Some [2]) (Some [113]) sample_image 16);
    [by left|reflexivity|by vm_compute|apply fits_aarch64; by vm_compute|by vm_compute|by vm_compute|..];
    by intros ? [= <-].
Defined.

(** A header of a loongarch64 kernel followed by zeros: 2 MB and one byte. *)
Definition big_image : bytes := zeros 64 ++ le_bytes 4 0x4c4f4f4e ++ zeros (0x200001 - 68).
Definition big_load (p : bytes) : option bytes :=
  match p with [1] => Some big_image | [2] => Some [7; 8; 9] | _ => None end.

Lemma big_image_facts : zlen big_image = 0x200001 /\ rd_le big_image 64 4 = Ret 0x4c4f4f4e /\
  rd_le big_image 8 8 = Ret 0.
Proof.
  assert (Hz : zlen big_image = 0x200001)
    by (unfold big_image; rewrite !zlen_app, zlen_le_bytes, !zlen_zeros by lia; lia).
  assert (H1 : sub big_image 64 4 = le_bytes 4 0x4c4f4f4e).
  { transitivity (sub (concat [zeros 64; le_bytes 4 0x4c4f4f4e; zeros (0x200001 - 68)]) 64 4);
      [unfold big_image; cbn [concat]; by rewrite app_nil_r|].
    apply (sub_chunk _ 1); [reflexivity| |by rewrite zlen_le_bytes].
    cbn [take concat]. by rewrite app_nil_r, zlen_zeros by lia. }
  assert (H2 : sub big_image 8 8 = zeros 8).
  { transitivity (sub (concat [zeros 8; zeros 8; zeros 48; le_bytes 4 0x4c4f4f4e; zeros (0x200001 - 68)]) 8 8);
      [unfold big_image; cbn [concat]; rewrite app_nil_r; change (zeros 64) with (zeros 8 ++ zeros 8 ++ zeros 48);
       by rewrite <- !app_assoc|].
    apply (sub_chunk _ 1); [reflexivity| |by rewrite zlen_zeros by lia].
    cbn [take concat]. by rewrite app_nil_r, zlen_zeros by lia. }
  unfold rd_le. rewrite Hz, H1, H2. split_and!; reflexivity.
Qed.

Lemma loongarch64_initrd_overwritten_witness :
  exists j, loongarch64_load_kernel big_load Mb1.zero_phys [1] (Some [2]) None = Ret (0, Some j) /\
    fetch_le (j_memory j) (0x9000000000100000 + 16) 8 = 3.
Proof.
  destruct big_image_facts as (H1 & H2 & H3).
  destruct (loongarch64_initrd_overwritten big_load Mb1.zero_phys [1] (Some [2]) big_image 0 [7; 8; 9])
    as (j & E & _ & Hs & _); [reflexivity|rewrite H1; lia|exact H2|exact H3|reflexivity|by vm_compute|].
  exists j. split; [exact E|exact Hs].
Defined.

Lemma x86_linux_setup_fixed_witness :
  x86_64_load_kernel (fun _ => Some (le_bytes 4 HDRS)) Mb1.zero_phys [1] None None = UB.
Proof.
  apply (x86_linux_setup_fixed (fun _ => Some (le_bytes 4 HDRS)) Mb1.zero_phys [1] None (le_bytes 4 HDRS));
    [reflexivity|apply is_bytes_le_bytes|reflexivity|by vm_compute|done|by vm_compute].
Defined.
