(* ===== verification/Chainload.v ===== *)
(** * Chainloading (src/boot/Arch32/chainload.c)

    Boot sectors from the master boot record, a GUID partition table, a file and
    an ISO image, copied to 0x7C00 and entered.  [read_sector] and [load_file] are
    other code: parameters.  The structures have the layout natural alignment
    gives them: [struct mbr] is not packed, so its partition table is at 448 and
    its signature at 512, behind the sector. *)

From S2P Require Import Prelude.
From S2P Require Import PhysMem.
From S2P Require Import Multiboot1.
From S2P Require Import BootConfig.
Import ListNotations.
#[local] Open Scope list_scope.

(** Offsets: [struct mbr], a partition, the GPT header and a GPT entry. *)
Definition mbr_partitions : Z := 448.
Definition mbr_signature : Z := 512.
Definition part_status : Z := 0.
Definition part_type : Z := 4.
Definition part_lba_start : Z := 8.
Definition gpt_entry_lba : Z := 72.
Definition gpt_num_entries : Z := 80.
Definition gpt_entry_size : Z := 84.
Definition gpt_starting_lba : Z := 32.
Definition gpt_ending_lba : Z := 40.
Definition GPT_SIGNATURE : Z := 0x5452415020494645.

Definition boot_jump (mem : phys) (l : bytes) : Z * option jump :=
  (0, Some (mk_jump 0x7C00 [] (poke mem 0x7C00 l))).

(** The bytes 0x55 and 0xAA at the end of a boot sector. *)
Definition boot_signature (l : bytes) : bool := (zget l 510 =? 0x55) && (zget l 511 =? 0xAA).

Section Chain.
Context (read_sector : Z -> option bytes) (load_file : bytes -> option bytes).

(** A boot sector read, checked, copied and entered. *)
Definition boot_from_sector (mem : phys) (lba : Z) : Z * option jump :=
  match read_sector lba with
  | None => (-1, None)
  | Some s => if negb (boot_signature s) then (-1, None) else boot_jump mem s
  end.

Definition chainload_mbr (mem : phys) (partition : Z) : run loaded :=
  match read_sector 0 with
  | None => mret (-1, None)
  | Some mbr =>
      sig ← rd_le mbr mbr_signature 2;
      if negb (sig =? 0xAA55) then mret (-1, None)
      else if (partition <? 0) || (4 <=? partition) then mret (-1, None)
      else
        let part := mbr_partitions + 16 * partition in
        status ← rd_le mbr (part + part_status) 1;
        if negb (status =? 0x80) && negb (status =? 0) then mret (-1, None) else
        type ← rd_le mbr (part + part_type) 1;
        if type =? 0 then mret (-1, None) else
        lba ← rd_le mbr (part + part_lba_start) 4;
        mret (boot_from_sector mem lba)
  end.

Definition chainload_file (mem : phys) (path : bytes) : run loaded :=
  match load_file path with
  | None => mret (-1, None)
  | Some data =>
      if zlen data <? 512 then mret (-1, None)
      else if negb (boot_signature data) then mret (-1, None)
      else
        let mem := poke mem 0x7C00 (sub data 0 512) in
        let mem := if 512 <? zlen data then poke mem 0x1000 (sub data 512 (zlen data - 512)) else mem in
        mret (0, Some (mk_jump 0x7C00 [] mem))
  end.

(** [partition] is an int, compared as unsigned once it is not negative; the
    entry's position is a 32-bit product, its sector a 32-bit sum. *)
Definition chainload_gpt (mem : phys) (partition : Z) : run loaded :=
  match read_sector 1 with
  | None => mret (-1, None)
  | Some hdr =>
      sig ← rd_le hdr 0 8;
      if negb (sig =? GPT_SIGNATURE) then mret (-1, None) else
      num ← rd_le hdr gpt_num_entries 4;
      if (partition <? 0) || (num <=? u32 partition) then mret (-1, None) else
      lba ← rd_le hdr gpt_entry_lba 8;
      size ← rd_le hdr gpt_entry_size 4;
      let pos := u32 (partition * size) in
      let entry_lba := u32 (lba + pos / 512) in
      let entry_offset := pos mod 512 in
      match read_sector entry_lba with
      | None => mret (-1, None)
      | Some s =>
          start ← rd_le s (entry_offset + gpt_starting_lba) 8;
          if start =? 0 then mret (-1, None) else
          last ← rd_le s (entry_offset + gpt_ending_lba) 8;
          if last =? 0 then mret (-1, None)
          else mret (boot_from_sector mem (u32 start))
      end
  end.

Definition chainload_iso (mem : phys) (path : bytes) : run loaded :=
  match load_file path with
  | None => mret (-1, None)
  | Some data =>
      if zlen data <? 32768 then mret (-1, None) else
      s ← file_part data (16 * 2048) 2048;
      if negb (bool_decide (sub s 1 5 = lit "CD001")) then mret (-1, None)
      else mret (boot_jump mem s)
  end.

(** The comparisons with known loaders' names do not change the result. *)
Definition chainload_verify_bootloader (path : bytes) : Z :=
  match load_file path with
  | None => -1
  | Some data =>
      if zlen data <? 512 then -1
      else if negb (boot_signature data) then -1
      else 0
  end.

Definition boot_chainload_kernel (mem : phys) (data : bytes) : loaded := boot_jump mem data.

End Chain.

(** ** Properties *)

(** What a successful sector boot means. *)
Definition boots_sector (read_sector : Z -> option bytes) (mem : phys) (lba : Z) (r : Z * option jump) : Prop :=
  match snd r with
  | Some j => fst r = 0 /\ j_entry j = 0x7C00 /\
      exists s, read_sector lba = Some s /\ boot_signature s = true /\ holds (j_memory j) 0x7C00 s
  | None => fst r = -1 /\ forall s, read_sector lba = Some s -> boot_signature s = false
  end.

Lemma boot_from_sector_spec read_sector mem lba : boots_sector read_sector mem lba (boot_from_sector read_sector mem lba).
Proof.
  unfold boots_sector, boot_from_sector. destruct (read_sector lba) as [s|] eqn:E; [|done].
  destruct (boot_signature s) eqn:Es; cbn [negb].
  - unfold boot_jump. cbn [fst snd j_entry j_memory]. split_and!; [done|done|].
    exists s. split_and!; [done|done|apply holds_poke].
  - split; [done|]. by intros s' [= <-].
Qed.

(** Booting a partition of the master boot record never works: once sector 0 has
    been read, the signature is taken from the two bytes behind the 512-byte
    buffer, whatever the sector holds and whatever the partition number is. *)
Theorem chainload_mbr_out_of_bounds read_sector mem partition :
  (forall lba s, read_sector lba = Some s -> zlen s = 512) ->
  chainload_mbr read_sector mem partition =
  match read_sector 0 with None => Ret (-1, None) | Some _ => UB end.
Proof.
  intros Hs. unfold chainload_mbr. destruct (read_sector 0) as [s|] eqn:E; [|done].
  unfold rd_le. rewrite (Hs 0 s E). reflexivity.
Qed.

(** Booting a file: a file of at least 512 bytes with the boot signature is entered
    at 0x7C00, its rest is at 0x1000, and its first sector is at 0x7C00 as long as
    the file has at most 28160 bytes; the rest of a longer one is copied over the
    sector that is about to be run. *)
Theorem chainload_file_functional load_file mem path data :
  load_file path = Some data -> 512 <= zlen data -> boot_signature data = true ->
  exists j, chainload_file load_file mem path = Ret (0, Some j) /\ j_entry j = 0x7C00 /\
    (512 < zlen data -> holds (j_memory j) 0x1000 (sub data 512 (zlen data - 512))) /\
    (zlen data <= 28160 -> holds (j_memory j) 0x7C00 (sub data 0 512)) /\
    (forall i, 0 <= i -> 28160 + i < zlen data -> j_memory j (0x7C00 + i) = zget data (28160 + i)).
Proof.
  intros Hf Hl Hs. unfold chainload_file. rewrite Hf. destruct (Z.ltb_spec (zlen data) 512); [lia|].
  rewrite Hs. cbn [negb]. eexists. split; [reflexivity|]. cbn [j_entry j_memory]. split; [done|].
  destruct (Z.ltb_spec 512 (zlen data)) as [Hb|Hb].
  - split_and!.
    + intros _. apply holds_poke.
    + intros Hsm. apply holds_poke_apart; [|apply holds_poke]. unfold apart. rewrite !zlen_sub by lia. lia.
    + intros i Hi Hii. unfold poke at 1. rewrite zlen_sub by lia.
      replace (_ && _) with true by (symmetry; zbool). rewrite zget_sub by lia. f_equal. lia.
  - split_and!; [lia|intros _; apply holds_poke|lia].
Qed.

(**  Booting a GPT partition: with 512-byte sectors, a valid header and an entry that
    lies within its sector (entries of at most 512 bytes whose size divides 512),
    the first sector of the partition, its number taken modulo 2^32, is booted
    exactly when it has the boot signature; a partition number that the header
    does not have, or an entry without first or last block, is refused. *)
Theorem chainload_gpt_functional read_sector mem partition hdr num lba size :
  (forall l s, read_sector l = Some s -> zlen s = 512) -> read_sector 1 = Some hdr ->
  rd_le hdr 0 8 = Ret GPT_SIGNATURE -> rd_le hdr gpt_num_entries 4 = Ret num ->
  rd_le hdr gpt_entry_lba 8 = Ret lba -> rd_le hdr gpt_entry_size 4 = Ret size ->
  48 <= size -> (size | 512) -> 0 <= partition < 2 ^ 20 ->
  exists r, chainload_gpt read_sector mem partition = Ret r /\
    (num <= partition -> r = (-1, None)) /\
    (partition < num -> forall s, read_sector (u32 (lba + partition * size / 512)) = Some s ->
       let off := (partition * size) mod 512 in
       let start := le_val (sub s (off + gpt_starting_lba) 8) in
       let last := le_val (sub s (off + gpt_ending_lba) 8) in
       if (start =? 0) || (last =? 0) then r = (-1, None)
       else boots_sector read_sector mem (u32 start) r).
Proof.
  intros Hsec Hr Hsig Hnum Hlba Hsize Hs48 [k Hk] Hp. unfold chainload_gpt. rewrite Hr, Hsig. bind_step.
  change (GPT_SIGNATURE =? GPT_SIGNATURE) with true. cbn [negb]. rewrite Hnum. bind_step.
  rewrite (wrap_small 32 partition) by (split; lia).
  destruct (Z.ltb_spec partition 0); [lia|]. cbn [orb].
  destruct (Z.leb_spec num partition) as [Hn|Hn].
  { eexists. split; [reflexivity|]. split; [done|intros ?; lia]. }
  rewrite Hlba, Hsize. bind_step. assert (Hk0 : 0 < k) by nia.
  assert (Hs512 : size <= 512) by nia.
  assert (Hps : 0 <= partition * size <= 2 ^ 20 * 512)
    by (split; [apply Z.mul_nonneg_nonneg; lia|apply Z.mul_le_mono_nonneg; lia]).
  rewrite (wrap_small 32 (partition * size)) by (split; lia).
  set (off := (partition * size) mod 512). assert (Hoff : 0 <= off /\ off + size <= 512).
  { assert (E : off = partition mod k * size) by (subst off; rewrite Hk; apply Z.mul_mod_distr_r; lia).
    pose proof (Z.mod_pos_bound partition k Hk0). rewrite E, Hk. nia. }
  destruct (read_sector (u32 (lba + partition * size / 512))) as [s|] eqn:Es.
  2:{ eexists. split; [reflexivity|]. split; [intros ?; lia|done]. }
  pose proof (Hsec _ _ Es) as Hls. unfold rd_le, gpt_starting_lba, gpt_ending_lba. rewrite Hls.
  replace ((0 <=? off + 32) && _) with true by (symmetry; zbool).
  replace ((0 <=? off + 40) && _) with true by (symmetry; zbool). bind_step.
  set (start := le_val (sub s (off + 32) 8)). set (last := le_val (sub s (off + 40) 8)).
  destruct (start =? 0) eqn:E1.
  { eexists. split; [reflexivity|]. split; [intros ?; lia|]. intros _ s' [= <-]. cbv zeta. fold start. by rewrite E1. }
  bind_step. destruct (last =? 0) eqn:E2.
  { eexists. split; [reflexivity|]. split; [intros ?; lia|]. intros _ s' [= <-]. cbv zeta. fold start last. by rewrite E1, E2. }
  eexists. split; [reflexivity|]. split; [intros ?; lia|]. intros _ s' [= <-]. cbv zeta. fold start last. rewrite E1, E2.
  apply boot_from_sector_spec.
Qed.

(** Booting an ISO image: the size check is one sector short, so an image of 32768 to
    34815 bytes is read out of bounds; from 34816 bytes on, the volume descriptor
    in sector 16 is entered at 0x7C00 exactly when it carries the identifier. *)
Theorem chainload_iso_functional load_file mem path data :
  load_file path = Some data ->
  chainload_iso load_file mem path =
  if zlen data <? 32768 then Ret (-1, None)
  else if zlen data <? 34816 then UB
  else if decide (sub data 32769 5 = lit "CD001") then Ret (boot_jump mem (sub data 32768 2048))
  else Ret (-1, None).
Proof.
  intros Hf. unfold chainload_iso. rewrite Hf. destruct (Z.ltb_spec (zlen data) 32768) as [|H1]; [done|].
  unfold file_part. change (16 * 2048) with 32768. cbn [Z.leb Z.compare andb].
  destruct (Z.ltb_spec (zlen data) 34816) as [H2|H2].
  { by rewrite (proj2 (Z.leb_gt (32768 + 2048) (zlen data))) by lia. }
  rewrite (proj2 (Z.leb_le (32768 + 2048) (zlen data))) by lia. bind_step.
  assert (E : sub (sub data 32768 2048) 1 5 = sub data 32769 5).
  { apply zlen_ext; [by rewrite !zlen_sub by (rewrite ?zlen_sub by lia; lia)|].
    rewrite zlen_sub by (rewrite ?zlen_sub by lia; lia). intros i Hi.
    rewrite !zget_sub by lia. f_equal. lia. }
  rewrite E. by destruct (decide (sub data 32769 5 = lit "CD001"));
    [rewrite bool_decide_true|rewrite bool_decide_false].
Qed.

(** ** Samples *)

(** A boot sector, and a disk whose partition 1 of its GPT is at block 40. *)
Definition sample_sector : bytes := [235; 254] ++ zeros 508 ++ [0x55; 0xAA].
Definition sample_gpt : bytes :=
  le_bytes 8 GPT_SIGNATURE ++ zeros 64 ++ le_bytes 8 2 ++ le_bytes 4 4 ++ le_bytes 4 128 ++ zeros 424.
Definition sample_entries : bytes := zeros 160 ++ le_bytes 8 40 ++ le_bytes 8 50 ++ zeros 336.
Definition sample_disk (lba : Z) : option bytes :=
  if lba =? 0 then Some sample_sector else if lba =? 1 then Some sample_gpt
  else if lba =? 2 then Some sample_entries else if lba =? 40 then Some sample_sector else None.

Lemma sample_disk_sectors lba s : sample_disk lba = Some s -> zlen s = 512.
Proof.
  unfold sample_disk. repeat destruct (lba =? _); try (intros [= <-]; vm_compute; reflexivity).
Qed.

Lemma chainload_mbr_out_of_bounds_witness : chainload_mbr sample_disk Mb1.zero_phys 0 = UB.
Proof. apply (chainload_mbr_out_of_bounds sample_disk Mb1.zero_phys 0 sample_disk_sectors). Defined.

Lemma chainload_file_functional_witness :
  exists j, chainload_file (fun _ => Some sample_sector) Mb1.zero_phys [1] = Ret (0, Some j) /\ j_entry j = 0x7C00.
Proof.
  destruct (chainload_file_functional (fun _ => Some sample_sector) Mb1.zero_phys [1] sample_sector)
    as (j & E & He & _); [reflexivity|by vm_compute|by vm_compute|]. by exists j.
Defined.

Lemma chainload_gpt_functional_witness :
  exists r, chainload_gpt sample_disk Mb1.zero_phys 1 = Ret r /\
    boots_sector sample_disk Mb1.zero_phys 40 r.
Proof.
  destruct (chainload_gpt_functional sample_disk Mb1.zero_phys 1 sample_gpt 4 2 128 sample_disk_sectors)
    as (r & E & _ & H); [reflexivity|by vm_compute|by vm_compute|by vm_compute|by vm_compute|lia|by exists 4|lia|].
  exists r. split; [exact E|]. exact (H ltac:(lia) sample_entries eq_refl).
Defined.

Lemma chainload_iso_functional_witness :
  chainload_iso (fun _ => Some [1]) Mb1.zero_phys [1] = Ret (-1, None).
Proof. rewrite (chainload_iso_functional _ _ _ [1]); reflexivity. Defined.
