(* ===== verification/Limine.v ===== *)
(** * The Limine loader (src/boot/Arch32/limine.c)

    Checking a 64-bit ELF file, loading its segments, and entering it, in the two
    variants of the source.  The response structures that [limine_load_kernel]
    builds in allocated memory are linked to no request, so no code but the
    allocator ever sees them, and the one for the framebuffer does not agree with
    its type in limine.h; they are left out.  [load_file] is a parameter. *)

From S2P Require Import Prelude.
From S2P Require Import PhysMem.
From S2P Require Import Multiboot1.
Import ListNotations.
#[local] Open Scope list_scope.

Definition ELF_MAGIC : bytes := [0x7f; 0x45; 0x4c; 0x46].
Definition EI_CLASS : Z := 4.
Definition ELFCLASS64 : Z := 2.
Definition EM_X86_64 : Z := 62.
Definition PT_LOAD : Z := 1.
Definition HIGHER_HALF : Z := 0xffffffff80000000.

(** Offsets in [struct elf64_header] and [struct elf64_phdr]. *)
Definition e_type : Z := 16.
Definition e_machine : Z := 18.
Definition e_entry : Z := 24.
Definition e_phoff : Z := 32.
Definition e_phnum : Z := 56.
Definition sizeof_phdr : Z := 56.

Record elf64_phdr := mk_phdr { p_type : Z; p_offset : Z; p_vaddr : Z; p_filesz : Z; p_memsz : Z }.

Definition phdr_at (data : bytes) (a : Z) : run elf64_phdr :=
  t ← rd_le data a 4; o ← rd_le data (a + 8) 8; v ← rd_le data (a + 16) 8;
  f ← rd_le data (a + 32) 8; m ← rd_le data (a + 40) 8;
  mret (mk_phdr t o v f m).

(** One [PT_LOAD] segment, at the address [place] gives its virtual address. *)
Definition load_segment (place : Z -> Z) (data : bytes) (mem : phys) (p : elf64_phdr) : run phys :=
  if negb (p_type p =? PT_LOAD) then mret mem
  else
    let vaddr := place (p_vaddr p) in
    part ← file_part data (p_offset p) (p_filesz p);
    let mem := poke mem vaddr part in
    mret (if p_filesz p <? p_memsz p
          then fill mem (u64 (vaddr + p_filesz p)) 0 (p_memsz p - p_filesz p) else mem).

(** [for (i = 0; i < e_phnum; i++)], [n] headers from [a]. *)
Fixpoint load_segments (place : Z -> Z) (data : bytes) (n : nat) (a : Z) (mem : phys) : run phys :=
  match n with
  | O => mret mem
  | S n => p ← phdr_at data a; mem ← load_segment place data mem p;
           load_segments place data n (a + sizeof_phdr) mem
  end.

(** Higher-half addresses are moved to [load_addr]. *)
Definition rebase (load_addr vaddr : Z) : Z :=
  if HIGHER_HALF <=? vaddr then u64 (u64 (vaddr - HIGHER_HALF) + load_addr) else vaddr.

Section Load.
Context (load_file : bytes -> option bytes).

Definition limine_load_kernel (mem : phys) (kernel_path : bytes) : run loaded :=
  match load_file kernel_path with
  | None => mret (-1, None)
  | Some data =>
      magic ← file_part data 0 4;
      if negb (bool_decide (magic = ELF_MAGIC)) then mret (-1, None) else
      class ← rd_le data EI_CLASS 1;
      if negb (class =? ELFCLASS64) then mret (-1, None) else
      entry ← rd_le data e_entry 8;
      let load_addr := if HIGHER_HALF <=? entry then entry else 0x200000 in
      phoff ← rd_le data e_phoff 8;
      phnum ← rd_le data e_phnum 2;
      mem ← load_segments (rebase load_addr) data (Z.to_nat phnum) phoff mem;
      mret (0, Some (mk_jump entry [] mem))
  end.

Definition limine_verify_kernel (kernel_path : bytes) : run Z :=
  match load_file kernel_path with
  | None => mret (-1)
  | Some data =>
      magic ← file_part data 0 4;
      if negb (bool_decide (magic = ELF_MAGIC)) then mret (-1) else
      m ← rd_le data e_machine 2;
      mret (if m =? EM_X86_64 then 0 else -1)
  end.

End Load.

(** The kernel-file response at 0x1000 and the file structure at 0x1100. *)
Definition put_response (mem : phys) (size : Z) (cmdline : option bytes) : phys :=
  let mem := poke_le (poke_le mem 0x1000 8 0) 0x1008 8 0x1100 in
  let mem := poke_le (poke_le mem 0x1100 8 0) 0x1108 8 0x100000 in
  let mem := poke_le (poke_le (poke_le mem 0x1110 8 size) 0x1118 8 0x1200) 0x1120 8 0x1300 in
  match given cmdline with Some c => poke mem 0x1300 (c ++ [0]) | None => mem end.

Definition boot_limine_kernel (mem : phys) (data : bytes) (cmdline : option bytes) : run loaded :=
  magic ← file_part data 0 4;
  if negb (bool_decide (magic = ELF_MAGIC)) then mret (-1, None) else
  type ← rd_le data e_type 2;
  if negb (type =? 2) then mret (-1, None) else
  entry ← rd_le data e_entry 8;
  phoff ← rd_le data e_phoff 8;
  phnum ← rd_le data e_phnum 2;
  mem ← load_segments id data (Z.to_nat phnum) phoff mem;
  mret (0, Some (mk_jump entry [] (put_response mem (zlen data) cmdline))).

(** ** Loading segments *)

(** The program headers of a file. *)
Fixpoint phdrs (data : bytes) (n : nat) (a : Z) : run (list elf64_phdr) :=
  match n with
  | O => mret []
  | S n => p ← phdr_at data a; ps ← phdrs data n (a + sizeof_phdr); mret (p :: ps)
  end.

Section Segments.
Context (place : Z -> Z) (data : bytes).

Definition extent (p : elf64_phdr) : Z := Z.max (p_filesz p) (p_memsz p).

(** A segment within its file and the address space. *)
Definition segment_ok (p : elf64_phdr) : Prop :=
  p_type p = PT_LOAD ->
  0 <= p_offset p /\ 0 <= p_filesz p /\ p_offset p + p_filesz p <= zlen data /\
  0 <= place (p_vaddr p) /\ place (p_vaddr p) + extent p < 2 ^ 64.

(** Two loaded segments that do not overlap. *)
Definition segments_apart (p q : elf64_phdr) : Prop :=
  p_type p = PT_LOAD -> p_type q = PT_LOAD ->
  apart (place (p_vaddr p)) (extent p) (place (p_vaddr q)) (extent q).

Definition segment_loaded (m : phys) (p : elf64_phdr) : Prop :=
  p_type p = PT_LOAD ->
  holds m (place (p_vaddr p)) (sub data (p_offset p) (p_filesz p)) /\
  (p_filesz p < p_memsz p ->
   holds m (place (p_vaddr p) + p_filesz p) (zeros (p_memsz p - p_filesz p))).

(** Memory the segment's region does not meet is left alone. *)
Lemma load_segment_spec mem p : segment_ok p ->
  exists m, load_segment place data mem p = Ret m /\ segment_loaded m p /\
    (forall b l, (p_type p = PT_LOAD -> apart (place (p_vaddr p)) (extent p) b (zlen l)) ->
       holds mem b l -> holds m b l).
Proof.
  intros Hok. unfold load_segment, segment_loaded. destruct (Z.eqb_spec (p_type p) PT_LOAD) as [E|E]; cbn [negb].
  2:{ exists mem. split; [done|]. split; [done|]. by intros b l _ H. }
  destruct (Hok E) as (Ho & Hf & Hl & Hv & Hx). unfold extent in *. rewrite file_part_ok by lia. bind_step.
  assert (Hz : zlen (sub data (p_offset p) (p_filesz p)) = p_filesz p) by (rewrite zlen_sub; lia).
  destruct (Z.ltb_spec (p_filesz p) (p_memsz p)) as [Hm|Hm].
  - rewrite wrap_small by (split; lia). eexists. split; [reflexivity|]. split; [intros _; split|].
    + apply holds_fill_apart; [|apply holds_poke]. unfold apart. rewrite Hz. lia.
    + intros _. apply holds_fill. lia.
    + intros b l Ha H. specialize (Ha E). unfold apart in Ha.
      apply holds_fill_apart; [unfold apart; lia|]. apply holds_poke_apart; [unfold apart; rewrite Hz; lia|done].
  - eexists. split; [reflexivity|]. split; [intros _; split; [apply holds_poke|lia]|].
    intros b l Ha H. specialize (Ha E). unfold apart in Ha.
    apply holds_poke_apart; [unfold apart; rewrite Hz; lia|done].
Qed.

(** A loaded segment survives writes its region does not meet. *)
Lemma segment_loaded_keeps mem m p : segment_ok p -> segment_loaded mem p ->
  (forall b l, p_type p = PT_LOAD ->
     place (p_vaddr p) <= b /\ b + zlen l <= place (p_vaddr p) + extent p -> holds mem b l -> holds m b l) ->
  segment_loaded m p.
Proof.
  intros Hok Hl Hm E. destruct (Hok E) as (Ho & Hf & Hb & Hv & Hx). destruct (Hl E) as [H1 H2]. unfold extent in *.
  split.
  - apply Hm; [done| |done]. rewrite zlen_sub by lia. lia.
  - intros Hs. apply Hm; [done| |by apply H2]. rewrite zlen_zeros by lia. lia.
Qed.

Lemma load_segments_spec n : forall a mem ps, phdrs data n a = Ret ps ->
  Forall segment_ok ps -> ForallOrdPairs segments_apart ps ->
  exists m, load_segments place data n a mem = Ret m /\ Forall (segment_loaded m) ps /\
    (forall b l, Forall (fun p => p_type p = PT_LOAD -> apart (place (p_vaddr p)) (extent p) b (zlen l)) ps ->
       holds mem b l -> holds m b l).
Proof.
  induction n as [|n IH]; intros a mem ps Hp Hok Hap; cbn [phdrs load_segments] in *.
  { injection Hp as <-. exists mem. split_and!; [done|by constructor|by intros]. }
  destruct (phdr_at data a) as [p| |]; [|done|done]. revert Hp. bind_step. intros Hp.
  destruct (phdrs data n (a + sizeof_phdr)) as [ps'| |] eqn:Eps; [|done|done]. revert Hp. bind_step. intros [= <-].
  apply Forall_cons in Hok as [Hpok Hok]. inversion_clear Hap as [|? ? Hp1 Hp2].
  destruct (load_segment_spec mem p Hpok) as (m1 & -> & Hl1 & Hk1). bind_step.
  destruct (IH (a + sizeof_phdr) m1 ps' Eps Hok Hp2) as (m & -> & Hls & Hk). exists m. split; [done|].
  split; [constructor; [|done]|].
  - apply (segment_loaded_keeps m1); [done|done|]. intros b l E Hb H. apply Hk; [|done].
    eapply Forall_impl; [exact Hp1|]. intros q Hq Eq. specialize (Hq E Eq). unfold apart in *. lia.
  - intros b l Hall H. apply Forall_cons in Hall as [Ha Hall]. apply Hk; [done|]. by apply Hk1.
Qed.
End Segments.

(** ** Properties *)

Lemma put_response_above mem size cmdline b l : 0x100000 <= b ->
  (forall c, given cmdline = Some c -> zlen c < 0xFE000) -> holds mem b l -> holds (put_response mem size cmdline) b l.
Proof.
  intros Hb Hc H. unfold put_response. cbv zeta.
  destruct (given cmdline) as [c|]; [specialize (Hc c eq_refl)|]; mem_find; exact H.
Qed.

(** C15.  [boot_limine_kernel] loads an executable ELF file: with program headers whose
    loadable segments lie in the file, above 1 MB and apart from each other, every
    segment's bytes are at its virtual address with the rest of its memory zero,
    the kernel-file response names the file's size and the command line, and the
    entry point is entered. *)
Theorem boot_limine_functional mem data cmdline entry phoff phnum ps :
  file_part data 0 4 = Ret ELF_MAGIC -> rd_le data e_type 2 = Ret 2 -> rd_le data e_entry 8 = Ret entry ->
  rd_le data e_phoff 8 = Ret phoff -> rd_le data e_phnum 2 = Ret phnum ->
  phdrs data (Z.to_nat phnum) phoff = Ret ps ->
  Forall (segment_ok id data) ps -> ForallOrdPairs (segments_apart id) ps ->
  Forall (fun p => p_type p = PT_LOAD -> 0x100000 <= p_vaddr p) ps ->
  (forall c, given cmdline = Some c -> zlen c < 0xFE000) -> zlen data < 2 ^ 64 ->
  exists m, boot_limine_kernel mem data cmdline = Ret (0, Some (mk_jump entry [] m)) /\
    Forall (segment_loaded id data m) ps /\
    fetch_le m (fetch_le m 0x1008 8 + 16) 8 = zlen data /\
    (forall c, given cmdline = Some c -> holds m (fetch_le m (fetch_le m 0x1008 8 + 32) 8) (c ++ [0])).
Proof.
  intros Hm Ht He Ho Hn Hp Hok Hap Hlow Hc Hd. unfold boot_limine_kernel. rewrite Hm. bind_step.
  rewrite bool_decide_true by done. cbn [negb]. rewrite Ht. bind_step. cbn [negb Z.eqb Pos.eqb].
  rewrite He, Ho, Hn. bind_step.
  destruct (load_segments_spec id data (Z.to_nat phnum) phoff mem ps Hp Hok Hap) as (m1 & -> & Hl & _). bind_step.
  eexists. split; [reflexivity|]. split.
  - rewrite !Forall_forall in *. intros p Hin.
    apply (segment_loaded_keeps id data m1); [by apply Hok|by apply Hl|]. intros b l E Hb H.
    apply put_response_above; [specialize (Hlow p Hin E); unfold id in *; lia|done|done].
  - assert (E1 : fetch_le (put_response m1 (zlen data) cmdline) 0x1008 8 = 0x1100).
    { apply (fetch_holds _ _ 8); [|done]. unfold put_response. cbv zeta.
      destruct (given cmdline) as [c|]; [specialize (Hc c eq_refl)|]; mem_find. }
    rewrite E1. split.
    + apply (fetch_holds _ _ 8); [|split; [apply zlen_nonneg|exact Hd]]. unfold put_response. cbv zeta.
      destruct (given cmdline) as [c|]; [specialize (Hc c eq_refl)|]; mem_find.
    + intros c E. replace (fetch_le _ (0x1100 + 32) 8) with 0x1300.
      * unfold put_response. cbv zeta. rewrite E. apply holds_poke.
      * symmetry. apply (fetch_holds _ _ 8); [|done]. unfold put_response. cbv zeta. rewrite E. mem_find.
Qed.

(** [limine_load_kernel] loads the segments of a 64-bit ELF file at their addresses,
    higher-half ones moved to the load address.  For a higher-half entry point
    that load address is the entry point itself, so the code of the entry point
    is not there but as far above it as the entry point is above the half's
    start: it is reached only by a kernel that starts with its entry. *)
Theorem limine_load_functional load_file mem path data entry phoff phnum ps :
  let load_addr := if HIGHER_HALF <=? entry then entry else 0x200000 in
  load_file path = Some data ->
  file_part data 0 4 = Ret ELF_MAGIC -> rd_le data EI_CLASS 1 = Ret ELFCLASS64 -> rd_le data e_entry 8 = Ret entry ->
  rd_le data e_phoff 8 = Ret phoff -> rd_le data e_phnum 2 = Ret phnum ->
  phdrs data (Z.to_nat phnum) phoff = Ret ps ->
  Forall (segment_ok (rebase load_addr) data) ps -> ForallOrdPairs (segments_apart (rebase load_addr)) ps ->
  exists m, limine_load_kernel load_file mem path = Ret (0, Some (mk_jump entry [] m)) /\
    Forall (segment_loaded (rebase load_addr) data m) ps /\
    (forall p, In p ps -> p_type p = PT_LOAD -> HIGHER_HALF <= p_vaddr p <= entry ->
       entry < p_vaddr p + p_filesz p -> p_vaddr p < 2 ^ 64 -> p_vaddr p - HIGHER_HALF + entry < 2 ^ 64 ->
       m (entry + (entry - HIGHER_HALF)) = zget data (p_offset p + (entry - p_vaddr p))).
Proof.
  intros load_addr Hf Hm Ht He Ho Hn Hp Hok Hap. unfold limine_load_kernel. rewrite Hf, Hm. bind_step.
  rewrite bool_decide_true by done. cbn [negb]. rewrite Ht. bind_step.
  change (ELFCLASS64 =? ELFCLASS64) with true. cbn [negb]. rewrite He. bind_step. rewrite Ho, Hn. bind_step.
  fold load_addr.
  destruct (load_segments_spec (rebase load_addr) data (Z.to_nat phnum) phoff mem ps Hp Hok Hap) as (m1 & -> & Hl & _).
  bind_step. exists m1. split; [done|]. split; [done|]. intros p Hin E Hv Hlt Hv64 Hfit.
  rewrite !List.Forall_forall in *. destruct (Hl p Hin E) as [H _]. destruct (Hok p Hin E) as (H1 & H2 & H3 & _ & _).
  assert (Hb : rebase load_addr (p_vaddr p) = p_vaddr p - HIGHER_HALF + entry).
  { unfold rebase, load_addr. rewrite !(proj2 (Z.leb_le _ _)) by lia.
    unfold HIGHER_HALF in *. by rewrite !wrap_small by (rewrite ?wrap_small by (split; lia); split; lia). }
  rewrite Hb in H. rewrite holds_iff in H. specialize (H (entry - p_vaddr p)).
  rewrite zlen_sub, zget_sub in H by lia. rewrite <- H by lia. f_equal. lia.
Qed.

(** ** Samples *)

(** An ELF file with one segment of three bytes in five bytes of memory. *)
Definition sample_elf (vaddr entry : Z) : bytes :=
  ELF_MAGIC ++ [2] ++ zeros 11 ++ le_bytes 2 2 ++ le_bytes 2 62 ++ zeros 4 ++ le_bytes 8 entry ++ le_bytes 8 64 ++
  zeros 16 ++ le_bytes 2 1 ++ zeros 6 ++
  le_bytes 4 1 ++ zeros 4 ++ le_bytes 8 120 ++ le_bytes 8 vaddr ++ zeros 8 ++ le_bytes 8 3 ++ le_bytes 8 5 ++ zeros 8 ++
  [11; 12; 13].

Lemma boot_limine_functional_witness :
  exists m, boot_limine_kernel Mb1.zero_phys (sample_elf 0x200000 0x200001) (Some [113]) =
      Ret (0, Some (mk_jump 0x200001 [] m)) /\
    Forall (segment_loaded id (sample_elf 0x200000 0x200001) m) [mk_phdr 1 120 0x200000 3 5].
Proof.
  destruct (boot_limine_functional Mb1.zero_phys (sample_elf 0x200000 0x200001) (Some [113]) 0x200001 64 1
    [mk_phdr 1 120 0x200000 3 5]) as (m & E & H & _);
    [vm_compute; reflexivity|vm_compute; reflexivity|vm_compute; reflexivity|vm_compute; reflexivity
    |vm_compute; reflexivity|vm_compute; reflexivity| | | |by intros c [= <-]|by vm_compute|].
  - constructor; [|constructor]. intros _. vm_compute. repeat split; discriminate.
  - constructor; constructor.
  - constructor; [|constructor]. intros _. vm_compute. discriminate.
  - exists m. split; [exact E|exact H].
Defined.

Lemma limine_load_functional_witness :
  exists m, limine_load_kernel (fun _ => Some (sample_elf HIGHER_HALF (HIGHER_HALF + 1))) Mb1.zero_phys [1] =
      Ret (0, Some (mk_jump (HIGHER_HALF + 1) [] m)) /\ m (HIGHER_HALF + 2) = 12.
Proof.
  destruct (limine_load_functional (fun _ => Some (sample_elf HIGHER_HALF (HIGHER_HALF + 1))) Mb1.zero_phys [1]
    (sample_elf HIGHER_HALF (HIGHER_HALF + 1)) (HIGHER_HALF + 1) 64 1 [mk_phdr 1 120 HIGHER_HALF 3 5])
    as (m & E & _ & H);
    [reflexivity|vm_compute; reflexivity|vm_compute; reflexivity|vm_compute; reflexivity|vm_compute; reflexivity
    |vm_compute; reflexivity|vm_compute; reflexivity| | |].
  - constructor; [|constructor]. intros _. vm_compute. repeat split; discriminate.
  - constructor; constructor.
  - exists m. split; [exact E|]. apply (H (mk_phdr 1 120 HIGHER_HALF 3 5)); [by left|by vm_compute..].
Defined.
