(* ===== verification/CString.v ===== *)
(** * C library functions on strings and numbers

    The functions of <string.h>, <stdio.h> and <stdlib.h> that the network code,
    the shells, the registries and the stand-alone parsers call, on byte lists: a
    string is the bytes before its NUL, and an array that holds one is that
    string with its NUL and whatever follows it. *)

From Stdlib Require Import String.
From S2P Require Import Prelude.
From S2P Require Import BootConfig.
Import ListNotations.
#[local] Open Scope list_scope.

(** ** Reading a byte and what follows it *)

Lemma rd_at (a : bytes) x (b : bytes) i : i = zlen a -> rd (a ++ x :: b) i = Ret x.
Proof.
  intros ->. unfold rd. pose proof (zlen_nonneg a) as Ha.
  replace ((0 <=? zlen a) && _) with true
    by (symmetry; rewrite zlen_app; unfold zlen in *; cbn [length]; zbool).
  f_equal. unfold zget, zlen. by rewrite Nat2Z.id, nth_middle.
Qed.

Lemma rd_end (a : bytes) i : zlen a <= i -> rd a i = UB.
Proof. intros H. unfold rd. by replace (i <? zlen a) with false by (symmetry; zbool); rewrite andb_false_r. Qed.

Lemma rd_get (a : bytes) i : 0 <= i < zlen a -> rd a i = Ret (zget a i).
Proof. intros H. unfold rd. by replace ((0 <=? i) && (i <? zlen a)) with true by (symmetry; zbool). Qed.

Lemma rd_le_at (a c b : bytes) i n : i = zlen a -> n = zlen c -> rd_le (a ++ c ++ b) i n = Ret (le_val c).
Proof.
  intros -> ->. unfold rd_le. pose proof (zlen_nonneg a). pose proof (zlen_nonneg c). pose proof (zlen_nonneg b).
  replace ((0 <=? zlen a) && _) with true by (symmetry; rewrite !zlen_app; zbool).
  f_equal. f_equal. unfold sub, zlen. by rewrite !Nat2Z.id, drop_app_length, take_app_length.
Qed.

(** ** [strtok] called until it returns NULL, always with the same delimiters *)

Fixpoint strtok_from (is_delim : Z -> bool) (cur s : bytes) : list bytes :=
  match s with
  | [] => if decide (cur = []) then [] else [cur]
  | c :: s' =>
      if is_delim c then
        if decide (cur = []) then strtok_from is_delim [] s' else cur :: strtok_from is_delim [] s'
      else strtok_from is_delim (cur ++ [c]) s'
  end.

Definition strtok (is_delim : Z -> bool) (s : bytes) : list bytes := strtok_from is_delim [] s.

(** A token: not empty, and without delimiters. *)
Definition token_of (is_delim : Z -> bool) (t : bytes) : Prop :=
  t <> [] /\ Forall (fun c => is_delim c = false) t.

Lemma strtok_from_token is_delim t : forall cur s, Forall (fun c => is_delim c = false) t ->
  strtok_from is_delim cur (t ++ s) = strtok_from is_delim (cur ++ t) s.
Proof.
  induction t as [|c t IH]; intros cur s Ht; [by rewrite app_nil_r|].
  apply Forall_cons_1 in Ht as [Hc Ht]. cbn [strtok_from app]. rewrite Hc, IH by done.
  by rewrite <- app_assoc.
Qed.

Lemma strtok_cons is_delim t d s : token_of is_delim t -> is_delim d = true ->
  strtok is_delim (t ++ d :: s) = t :: strtok is_delim s.
Proof.
  intros [Hn Ht] Hd. unfold strtok. rewrite strtok_from_token by done. cbn [strtok_from app].
  by rewrite Hd, decide_False.
Qed.

(** Printing tokens with a delimiter behind each and splitting again. *)
Lemma strtok_concat is_delim d (ts : list bytes) s : Forall (token_of is_delim) ts -> is_delim d = true ->
  strtok is_delim (concat (List.map (fun t => t ++ [d]) ts) ++ s) = ts ++ strtok is_delim s.
Proof.
  intros Hts Hd. induction Hts as [|t ts Ht Hts IH]; [done|]. cbn [List.map concat].
  rewrite <- !app_assoc. cbn [app]. by rewrite strtok_cons, IH.
Qed.

(** Whatever the string is, the pieces are tokens. *)
Lemma strtok_tokens is_delim s : Forall (token_of is_delim) (strtok is_delim s).
Proof.
  unfold strtok. assert (H : Forall (fun c => is_delim c = false) []) by constructor. revert H.
  generalize ([] : bytes). induction s as [|c s IH]; intros cur Hc; cbn [strtok_from].
  - destruct (decide (cur = [])); [constructor|]. by repeat constructor.
  - destruct (is_delim c) eqn:E.
    + destruct (decide (cur = [])); [by apply IH|]. constructor; [done|by apply IH].
    + apply IH. apply Forall_app. split; [done|]. by repeat constructor.
Qed.

(** ** [atoi] *)

Definition is_space (c : Z) : bool := (c =? 32) || ((9 <=? c) && (c <=? 13)).
Definition INT_MIN : Z := - 2 ^ 31.
Definition INT_MAX : Z := 2 ^ 31 - 1.
Definition is_int (x : Z) : Prop := INT_MIN <= x <= INT_MAX.

#[export] Instance is_int_dec x : Decision (is_int x).
Proof. unfold is_int. apply _. Defined.

(** A signed result: outside [int] the behaviour is undefined. *)
Definition int_of (x : Z) : run Z := if decide (is_int x) then mret x else UB.

Fixpoint digits_value (v : Z) (s : bytes) : Z :=
  match s with
  | c :: s' => if is_digit c then digits_value (10 * v + (c - 48)) s' else v
  | [] => v
  end.

Definition atoi (s : bytes) : run Z :=
  match drop_while is_space s with
  | 45 :: s' => int_of (- digits_value 0 s')
  | 43 :: s' => int_of (digits_value 0 s')
  | s' => int_of (digits_value 0 s')
  end.

(** What follows an optional sign. *)
Definition after_sign (s : bytes) : bytes :=
  match s with 45 :: s' => s' | 43 :: s' => s' | _ => s end.

(** [%d] *)
Definition print_int (x : Z) : bytes := if x <? 0 then 45 :: decimal (- x) else decimal x.

Lemma digits_value_decimal fuel : forall n acc v, 0 <= n < 10 ^ Z.of_nat fuel -> v = 0 ->
  digits_value v (decimal_digits fuel n acc) = digits_value n acc.
Proof.
  induction fuel as [|fuel IH]; intros n acc v Hn ->.
  { change (10 ^ Z.of_nat 0) with 1 in Hn. by assert (n = 0) as -> by lia. }
  rewrite Nat2Z.inj_succ, Z.pow_succ_r in Hn by lia. cbn [decimal_digits].
  destruct (Z.ltb_spec n 10).
  - cbn [digits_value]. rewrite is_digit_digit by lia. f_equal. lia.
  - rewrite IH by (try dlia; done). cbn [digits_value]. rewrite is_digit_digit by dlia. f_equal. dlia.
Qed.

Lemma digits_value_stop v c s : is_digit c = false -> digits_value v (c :: s) = v.
Proof. intros H. cbn [digits_value]. by rewrite H. Qed.

Lemma digits_value_app s : forall v c t, Forall (fun x => 48 <= x <= 57) s -> is_digit c = false ->
  digits_value v (s ++ c :: t) = digits_value v s.
Proof.
  induction s as [|x s IH]; intros v c t Hs Hc; [by apply digits_value_stop|].
  apply Forall_cons_1 in Hs as [Hx Hs]. cbn [digits_value app].
  destruct (is_digit x); [by apply IH|done].
Qed.

Lemma decimal_value n : 0 <= n < 10 ^ 20 -> digits_value 0 (decimal n) = n.
Proof. intros Hn. unfold decimal. by rewrite digits_value_decimal. Qed.

Lemma int_of_int x : is_int x -> int_of x = Ret x.
Proof. intros H. unfold int_of. by rewrite decide_True. Qed.

Lemma decimal_cons n : 0 <= n -> exists c s, decimal n = c :: s /\ 48 <= c <= 57.
Proof.
  intros Hn. pose proof (decimal_all n Hn) as H. destruct (decimal n) as [|c s] eqn:E.
  - exfalso. unfold decimal in E. revert E. cbn [decimal_digits].
    destruct (n <? 10); [done|]. generalize (n / 10) (48 + n mod 10). intros m d.
    assert (G : forall fuel m acc, acc <> [] -> decimal_digits fuel m acc <> []).
    { induction fuel as [|fuel IH]; intros m' acc Ha; [done|]. cbn [decimal_digits].
      destruct (m' <? 10); [done|]. by apply IH. }
    intros E. by apply (G 19%nat m [d]) in E.
  - exists c, s. split; [done|]. by apply Forall_cons_1 in H as [H _].
Qed.

Lemma decimal_digits_length fuel : forall k n acc, 0 <= n < 10 ^ Z.of_nat k -> (1 <= k)%nat ->
  (length (decimal_digits fuel n acc) <= k + length acc)%nat.
Proof.
  induction fuel as [|fuel IH]; intros k n acc Hn Hk; cbn [decimal_digits]; [lia|].
  destruct (Z.ltb_spec n 10); [cbn [length]; lia|].
  destruct k as [|k]; [lia|]. rewrite Nat2Z.inj_succ, Z.pow_succ_r in Hn by lia.
  destruct k as [|k]; [change (10 ^ Z.of_nat 0) with 1 in Hn; lia|].
  specialize (IH (S k) (n / 10) ((48 + n mod 10) :: acc)). cbn [length] in IH.
  enough (0 <= n / 10 < 10 ^ Z.of_nat (S k)) by (specialize (IH ltac:(done) ltac:(lia)); lia). dlia.
Qed.

(** A number below [10 ^ k] has at most [k] digits. *)
Lemma decimal_length k n : 0 <= n < 10 ^ Z.of_nat k -> (1 <= k)%nat -> zlen (decimal n) <= Z.of_nat k.
Proof.
  intros Hn Hk. unfold zlen, decimal. pose proof (decimal_digits_length 20 k n [] Hn Hk) as H.
  cbn [length] in H. lia.
Qed.

Lemma no_sign (c : Z) (s : bytes) : 48 <= c <= 57 ->
  match c :: s with 45 :: s' => int_of (- digits_value 0 s') | 43 :: s' => int_of (digits_value 0 s')
  | s' => int_of (digits_value 0 s') end = int_of (digits_value 0 (c :: s)) /\ after_sign (c :: s) = c :: s.
Proof. intros Hc. destruct c as [|p|p]; try lia. do 6 (destruct p as [p|p|]; try done; try lia). Qed.

(** Printing an [int] and reading it back, also when a NUL or a delimiter follows. *)
Lemma atoi_print x : is_int x -> atoi (print_int x) = Ret x.
Proof.
  intros Hx. unfold is_int, INT_MIN, INT_MAX in Hx. unfold atoi, print_int.
  destruct (Z.ltb_spec x 0).
  - change (drop_while is_space (45 :: decimal (- x))) with (45 :: decimal (- x)). cbv iota.
    rewrite decimal_value by lia.
    replace (- - x) with x by lia. by apply int_of_int.
  - destruct (decimal_cons x) as (c & s & E & Hc); [done|].
    assert (Hv : digits_value 0 (c :: s) = x) by (rewrite <- E; apply decimal_value; lia).
    rewrite E. cbn [drop_while].
    replace (is_space c) with false by (symmetry; unfold is_space; zbool; apply andb_false_iff; right; zbool).
    destruct (no_sign c s Hc) as [-> _]. rewrite Hv. by apply int_of_int.
Qed.

Lemma print_int_plain is_delim x : is_int x ->
  (forall c, is_delim c = true -> c <= 32) -> token_of is_delim (print_int x).
Proof.
  intros Hx Hd. unfold is_int, INT_MIN, INT_MAX in Hx. unfold print_int.
  assert (H : forall n, 0 <= n -> Forall (fun c => is_delim c = false) (decimal n)).
  { intros n Hn. eapply Forall_impl; [by apply decimal_all|]. intros c Hc. cbv beta in Hc.
    destruct (is_delim c) eqn:E; [apply Hd in E; lia|done]. }
  destruct (Z.ltb_spec x 0).
  - split; [done|]. constructor; [|apply H; lia]. destruct (is_delim 45) eqn:E; [apply Hd in E; lia|done].
  - split; [|by apply H]. destruct (decimal_cons x) as (c & s & -> & _); [done|]. done.
Qed.

(** ** Copying with a bound *)

(** [strncpy(dst, s, n); dst[n] = 0;] for an array of more than [n] characters:
    the string [dst] holds. *)
Definition strncpy (n : Z) (s : bytes) : bytes := take (Z.to_nat n) s.

(** [snprintf(dst, size, "%s", s)] for [size > 0]. *)
Definition snprintf_s (size : Z) (s : bytes) : bytes := take (Z.to_nat (size - 1)) s.

Lemma strncpy_short n s : zlen s <= n -> strncpy n s = s.
Proof. unfold strncpy, zlen. intros. apply take_ge. lia. Qed.

Lemma zlen_strncpy n s : 0 <= n -> zlen (strncpy n s) <= n.
Proof. unfold strncpy, zlen. intros. rewrite length_take. lia. Qed.

Lemma snprintf_short size s : zlen s < size -> snprintf_s size s = s.
Proof. unfold snprintf_s, zlen. intros. apply take_ge. lia. Qed.

Lemma zlen_snprintf size s : 0 < size -> zlen (snprintf_s size s) < size.
Proof. unfold snprintf_s, zlen. intros. rewrite length_take. lia. Qed.

(** [atoi] in an object without a NUL behind: past its end the behaviour is
    undefined. *)
Definition atoi_in (s : bytes) : run Z :=
  match drop_while is_digit (after_sign (drop_while is_space s)) with
  | [] => UB
  | _ => atoi s
  end.

Lemma drop_while_app (p : Z -> bool) s c t : Forall (fun x => p x = true) s -> p c = false ->
  drop_while p (s ++ c :: t) = c :: t.
Proof.
  intros Hs Hc. induction Hs as [|x s Hx Hs IH]; cbn [drop_while app]; [by rewrite Hc|]. by rewrite Hx.
Qed.

Lemma decimal_digit_chars n : 0 <= n -> Forall (fun c => is_digit c = true) (decimal n).
Proof.
  intros Hn. eapply Forall_impl; [by apply decimal_all|]. intros c Hc. cbv beta in Hc. unfold is_digit. zbool.
Qed.

Lemma atoi_in_print x c t : is_int x -> is_digit c = false -> atoi_in (print_int x ++ c :: t) = Ret x.
Proof.
  intros Hx Hc. pose proof Hx as Hi. unfold is_int, INT_MIN, INT_MAX in Hx. unfold atoi_in, atoi, print_int.
  destruct (Z.ltb_spec x 0).
  - change (drop_while is_space ((45 :: decimal (- x)) ++ c :: t)) with (45 :: decimal (- x) ++ c :: t).
    cbn [after_sign]. rewrite drop_while_app by (try done; apply decimal_digit_chars; lia).
    rewrite digits_value_app by (try done; apply decimal_all; lia).
    rewrite decimal_value by lia. replace (- - x) with x by lia. by apply int_of_int.
  - pose proof (decimal_digit_chars x ltac:(done)) as Hall. pose proof (decimal_all x ltac:(done)) as Hall'.
    pose proof (decimal_value x ltac:(lia)) as Hv.
    destruct (decimal_cons x) as (d & s & E & Hd); [done|]. rewrite E in *.
    assert (Hs : drop_while is_space ((d :: s) ++ c :: t) = d :: s ++ c :: t).
    { cbn [drop_while app].
      by replace (is_space d) with false by (symmetry; unfold is_space; zbool; apply andb_false_iff; right; zbool). }
    rewrite Hs. destruct (no_sign d (s ++ c :: t) Hd) as [-> ->].
    change (d :: s ++ c :: t) with ((d :: s) ++ c :: t).
    rewrite drop_while_app by done. rewrite digits_value_app by done. rewrite Hv. by apply int_of_int.
Qed.

Lemma atoi_int s x : atoi s = Ret x -> is_int x.
Proof.
  unfold atoi. assert (H : forall y, int_of y = Ret x -> is_int x).
  { intros y. unfold int_of. destruct (decide (is_int y)); [|done]. by intros [= <-]. }
  destruct (drop_while is_space s) as [|c t]; [apply H|].
  repeat match goal with |- context [match ?v with _ => _ end] => destruct v; try apply H end.
Qed.

(** ** [fgets] *)

(** [fgets(line, room + 1, f)]: up to [room] characters, up to and with a newline; the
    line and the rest of the file. *)
Fixpoint fgets (room : nat) (f : bytes) : bytes * bytes :=
  match room, f with
  | S room, c :: f =>
      if c =? 10 then ([10], f) else let '(l, r) := fgets room f in (c :: l, r)
  | _, _ => ([], f)
  end.

Lemma fgets_line l : forall room rest, Forall (fun c => c <> 10) l -> (length l < room)%nat ->
  fgets room (l ++ 10 :: rest) = (l ++ [10], rest).
Proof.
  induction l as [|c l IH]; intros [|room] rest Hl Hr; try (cbn [length] in Hr; lia); [done|].
  apply Forall_cons_1 in Hl as [Hc Hl]. cbn [fgets app]. rewrite (proj2 (Z.eqb_neq c 10)) by done.
  rewrite IH by (try done; cbn [length] in Hr; lia). done.
Qed.

(** The file name with these characters. *)
Definition name_string (s : bytes) : string :=
  string_of_list_ascii (List.map (fun c => Ascii.ascii_of_nat (Z.to_nat c)) s).
