(* ===== verification/Net.v ===== *)
(** * Network messages (src/net/net_utils.c, arp.c, dhcp.c, tftp.c)

    The Internet checksum in its two variants (net_utils.c, and the one pxe.c
    uses for its echo request), ARP requests and resolution with its one-entry
    cache, DHCP messages and the parsing of an offer's options, TFTP requests,
    data packets and option acknowledgements.  The network card is a parameter:
    the frame each call of [recv_ethernet] delivers.  Packets are byte lists of
    exactly the object's size. *)

From S2P Require Import Prelude.
From S2P Require Import BootConfig.
From S2P Require Import CString.
Import ListNotations.
#[local] Open Scope list_scope.

(** ** Checksums *)

(** [for (i = 0; i < len; i += 2)] from [i] on. *)
Fixpoint net_sum (fuel : nat) (data : bytes) (i len sum : Z) : run Z :=
  match fuel with
  | O => OutOfFuel
  | S fuel =>
      if i <? len then
        a ← rd data i; b ← rd data (i + 1);
        let sum := u32 (sum + ((a <<< 8) ||| b)) in
        net_sum fuel data (i + 2) len (if 0xFFFF <? sum then sum - 0xFFFF else sum)
      else mret sum
  end.

Definition net_checksum (data : bytes) (len : Z) : run Z :=
  sum ← net_sum (S (Z.to_nat len)) data 0 len 0;
  mret (u16 (-1 - sum)).

Definition net_mac_copy (dst src : bytes) : run bytes := memcpy dst 0 src 0 6.
Definition net_ip_copy (dst src : bytes) : run bytes := memcpy dst 0 src 0 4.

(** [while (len > 1)] of [icmp_checksum], and the odd byte. *)
Fixpoint icmp_sum (fuel : nat) (data : bytes) (ptr len sum : Z) : run Z :=
  match fuel with
  | O => OutOfFuel
  | S fuel =>
      if 1 <? len then w ← rd_le data ptr 2; icmp_sum fuel data (ptr + 2) (len - 2) (u32 (sum + w))
      else if len =? 1 then b ← rd data ptr; mret (u32 (sum + b))
      else mret sum
  end.

Definition icmp_checksum (data : bytes) (len : Z) : run Z :=
  sum ← icmp_sum (S (Z.to_nat len)) data 0 len 0;
  let sum := (sum >>> 16) + (sum &&& 0xFFFF) in
  let sum := sum + (sum >>> 16) in
  mret (u16 (-1 - sum)).

(** ** The checksums are the one's complement sum *)

(** The sum of the big-endian words, an odd byte padded with zero; and the same
    of the little-endian words. *)
Fixpoint be_words (l : bytes) : Z :=
  match l with
  | a :: b :: l => 256 * a + b + be_words l
  | [a] => 256 * a
  | [] => 0
  end.

Fixpoint le_words (l : bytes) : Z :=
  match l with
  | a :: b :: l => a + 256 * b + le_words l
  | [a] => a
  | [] => 0
  end.

(** The one's complement representative of a sum: 0 only for 0. *)
Definition ones (s : Z) : Z := if s =? 0 then 0 else (s - 1) mod 65535 + 1.

Definition swap16 (x : Z) : Z := 256 * (x mod 256) + x / 256.

Lemma ones_range s : 0 <= ones s <= 65535.
Proof. unfold ones. destruct (Z.eqb_spec s 0); dlia. Qed.

Lemma ones_step s w : 0 <= s -> 0 <= w <= 65535 ->
  ones (s + w) = (if 65535 <? ones s + w then ones s + w - 65535 else ones s + w).
Proof.
  intros Hs Hw. unfold ones. destruct (Z.eqb_spec s 0), (Z.eqb_spec (s + w) 0);
    match goal with |- context [65535 <? ?x] => destruct (Z.ltb_spec 65535 x) end; dlia.
Qed.

Lemma ones_complement s : 0 <= s -> ones (s + (65535 - ones s)) = 65535.
Proof.
  intros Hs. unfold ones at 2. destruct (Z.eqb_spec s 0) as [->|]; [done|].
  unfold ones. destruct (Z.eqb_spec (s + (65535 - ((s - 1) mod 65535 + 1))) 0); dlia.
Qed.

Lemma be_words_nonneg l : is_bytes l -> 0 <= be_words l.
Proof.
  revert l. fix IH 1. intros [|a [|b l]] H; cbn [be_words]; [lia| |].
  - apply Forall_cons_1 in H as [H _]. unfold is_byte, in_u in H. lia.
  - apply Forall_cons_1 in H as [Ha H]. apply Forall_cons_1 in H as [Hb H]. specialize (IH l H).
    unfold is_byte, in_u in *. lia.
Qed.

Lemma le_words_bound l : is_bytes l -> 0 <= le_words l <= 65535 * ((zlen l + 1) / 2).
Proof.
  revert l. fix IH 1. intros [|a [|b l]] H; cbn [le_words].
  - done.
  - apply Forall_cons_1 in H as [H _]. unfold is_byte, in_u in H. change (65535 * ((zlen [a] + 1) / 2)) with 65535. lia.
  - apply Forall_cons_1 in H as [Ha H]. apply Forall_cons_1 in H as [Hb H]. specialize (IH l H).
    unfold is_byte, in_u in *.
    replace (zlen (a :: b :: l)) with (zlen l + 2) by (unfold zlen; cbn [length]; lia). dlia.
Qed.

Lemma word_of a b : is_byte a -> is_byte b -> (a <<< 8) ||| b = 256 * a + b.
Proof.
  intros Ha Hb. rewrite <- Z.add_nocarry_lor.
  - rewrite Z.shiftl_mul_pow2 by lia. lia.
  - apply Z.bits_inj'. intros i Hi. rewrite Z.land_spec, Z.bits_0.
    destruct (Z.lt_ge_cases i 8) as [H|H].
    + by rewrite Z.shiftl_spec_low.
    + by rewrite (in_u_testbit 8 b i Hb H), andb_false_r.
Qed.

Lemma net_sum_words l : forall fuel pre s, is_bytes l -> Z.Even (zlen l) -> (length l < fuel)%nat -> 0 <= s ->
  net_sum fuel (pre ++ l) (zlen pre) (zlen pre + zlen l) (ones s) = Ret (ones (s + be_words l)).
Proof.
  revert l. fix IH 1. intros [|a [|b l]] [|fuel] pre s Hl He Hf Hs; try (cbn [length] in Hf; lia).
  - cbn [net_sum be_words]. change (zlen []) with 0. rewrite Z.add_0_r, Z.ltb_irrefl. by rewrite Z.add_0_r.
  - exfalso. destruct He as [k Hk]. unfold zlen in Hk. cbn in Hk. lia.
  - apply Forall_cons_1 in Hl as [Ha Hl]. apply Forall_cons_1 in Hl as [Hb Hl].
    assert (E : zlen (a :: b :: l) = zlen l + 2) by (unfold zlen; cbn [length]; lia).
    pose proof (zlen_nonneg l). pose proof (zlen_nonneg pre). cbn [net_sum].
    rewrite (proj2 (Z.ltb_lt _ _)) by lia. rewrite (rd_at pre a (b :: l) (zlen pre) eq_refl). bind_step.
    replace (pre ++ a :: b :: l) with ((pre ++ [a]) ++ b :: l) by (by rewrite <- app_assoc).
    rewrite rd_at by (rewrite zlen_app; reflexivity). bind_step.
    rewrite word_of by done. pose proof (ones_range s) as Ho. unfold is_byte, in_u in Ha, Hb.
    rewrite wrap_small by (split; lia). rewrite <- (ones_step s (256 * a + b)) by lia.
    specialize (IH l fuel (pre ++ [a; b]) (s + (256 * a + b)) Hl).
    rewrite E in He |- *. rewrite zlen_app in IH. change (zlen [a; b]) with 2 in IH.
    rewrite <- !app_assoc in *. cbn [app] in *.
    replace (zlen pre + (zlen l + 2)) with (zlen pre + 2 + zlen l) by lia.
    rewrite IH; [cbn [be_words]; f_equal; f_equal; lia| |cbn [length] in Hf; lia|lia].
    destruct He as [k Hk]. exists (k - 1). lia.
Qed.

(** An odd number of bytes: the last word is half outside. *)
Lemma net_sum_odd x m : forall fuel pre s, Z.Odd (zlen m + 1) -> (length m < fuel)%nat ->
  net_sum fuel (pre ++ m ++ [x]) (zlen pre) (zlen pre + (zlen m + 1)) s = UB.
Proof.
  revert m. fix IH 1. intros [|a [|b m]] [|fuel] pre s He Hf; try (cbn [length] in Hf; lia); cbn [net_sum app].
  - rewrite (proj2 (Z.ltb_lt _ _)) by (change (zlen []) with 0; lia).
    rewrite (rd_at pre x [] _ eq_refl). bind_step. rewrite rd_end; [done|]. rewrite zlen_app. unfold zlen. cbn. lia.
  - exfalso. destruct He as [k Hk]. unfold zlen in Hk. cbn in Hk. lia.
  - assert (E : zlen (a :: b :: m) = zlen m + 2) by (unfold zlen; cbn [length]; lia).
    pose proof (zlen_nonneg m). rewrite (proj2 (Z.ltb_lt _ _)) by lia.
    rewrite (rd_at pre a (b :: m ++ [x]) (zlen pre) eq_refl). bind_step.
    replace (pre ++ a :: b :: m ++ [x]) with ((pre ++ [a]) ++ b :: m ++ [x]) by (by rewrite <- app_assoc).
    rewrite rd_at by (rewrite zlen_app; reflexivity). bind_step.
    specialize (IH m fuel (pre ++ [a; b])). rewrite zlen_app, <- app_assoc in IH. change (zlen [a; b]) with 2 in IH.
    rewrite <- app_assoc. cbn [app] in IH |- *. rewrite E in *.
    replace (zlen pre + (zlen m + 2 + 1)) with (zlen pre + 2 + (zlen m + 1)) by lia. apply IH.
    + destruct He as [k Hk]. exists (k - 1). lia.
    + cbn [length] in Hf. lia.
Qed.

Lemma net_checksum_even l : is_bytes l -> Z.Even (zlen l) ->
  net_checksum l (zlen l) = Ret (65535 - ones (be_words l)).
Proof.
  intros Hl He. unfold net_checksum.
  pose proof (net_sum_words l (S (Z.to_nat (zlen l))) [] 0 Hl He) as H.
  change (ones 0) with 0 in H. cbn [app] in H. change (zlen []) with 0 in H.
  rewrite !Z.add_0_l in H. rewrite H by (unfold zlen; lia). bind_step.
  pose proof (ones_range (be_words l)). f_equal. unfold wrap. dlia.
Qed.

Lemma icmp_sum_words l : forall fuel pre s, is_bytes l -> (length l < fuel)%nat -> 0 <= s ->
  s + le_words l < 2 ^ 32 ->
  icmp_sum fuel (pre ++ l) (zlen pre) (zlen l) s = Ret (s + le_words l).
Proof.
  revert l. fix IH 1. intros [|a [|b l]] [|fuel] pre s Hl Hf Hs Hb; try (cbn [length] in Hf; lia).
  - cbn [icmp_sum le_words]. change (zlen []) with 0. cbn. f_equal. lia.
  - cbn [icmp_sum le_words] in *. change (zlen [a]) with 1. cbn [Z.ltb Z.compare Z.eqb Pos.compare Pos.compare_cont Pos.eqb].
    rewrite rd_at by done. bind_step. apply Forall_cons_1 in Hl as [Ha _]. unfold is_byte, in_u in Ha.
    by rewrite wrap_small by (split; lia).
  - apply Forall_cons_1 in Hl as [Ha Hl]. apply Forall_cons_1 in Hl as [Hb' Hl].
    assert (E : zlen (a :: b :: l) = zlen l + 2) by (unfold zlen; cbn [length]; lia).
    pose proof (zlen_nonneg l). pose proof (le_words_bound l Hl). cbn [icmp_sum le_words] in *.
    rewrite E, (proj2 (Z.ltb_lt _ _)) by lia.
    rewrite (rd_le_at pre [a; b] l) by done. bind_step. cbn [le_val].
    unfold is_byte, in_u in Ha, Hb'. rewrite wrap_small by (split; lia).
    specialize (IH l fuel (pre ++ [a; b]) (s + (a + 256 * b)) Hl ltac:(cbn [length] in Hf; lia) ltac:(lia) ltac:(lia)).
    rewrite zlen_app, <- app_assoc in IH. change (zlen [a; b]) with 2 in IH. cbn [app] in IH.
    replace (zlen l + 2 - 2) with (zlen l) by lia. replace (a + 256 * (b + 256 * 0)) with (a + 256 * b) by lia.
    rewrite IH. f_equal. lia.
Qed.

(** Two rounds of folding give the representative. *)
Lemma fold_ones s : 0 <= s < 2 ^ 32 ->
  let f := (s >>> 16) + (s &&& 0xFFFF) in u16 (-1 - (f + (f >>> 16))) = 65535 - ones s.
Proof.
  intros Hs f. subst f. change (s &&& 0xFFFF) with (s &&& Z.ones 16). rewrite !Z.land_ones, !Z.shiftr_div_pow2 by lia.
  unfold wrap, ones. destruct (Z.eqb_spec s 0) as [->|]; [done|].
  assert (exists h l, s = 65536 * h + l /\ 0 <= h < 65536 /\ 0 <= l < 65536) as (h & l & -> & Hh & Hl).
  { exists (s / 65536), (s mod 65536). dlia. }
  change (2 ^ 16) with 65536. replace ((65536 * h + l) / 65536) with h by dlia.
  replace ((65536 * h + l) mod 65536) with l by dlia.
  replace (65536 * h + l - 1) with (h + l - 1 + h * 65535) by lia. rewrite Z_mod_plus_full.
  destruct (Z.lt_ge_cases (h + l) 65536).
  - rewrite (Z.div_small (h + l)) by lia. rewrite (Z.mod_small (h + l - 1)) by lia. dlia.
  - replace ((h + l) / 65536) with 1 by dlia.
    replace (h + l - 1) with (h + l - 65536 + 1 * 65535) by lia.
    rewrite Z_mod_plus_full, (Z.mod_small (h + l - 65536)) by lia. dlia.
Qed.

Lemma icmp_checksum_words l : is_bytes l -> zlen l < 2 ^ 17 ->
  icmp_checksum l (zlen l) = Ret (65535 - ones (le_words l)).
Proof.
  intros Hl Hn. unfold icmp_checksum. pose proof (le_words_bound l Hl).
  pose proof (icmp_sum_words l (S (Z.to_nat (zlen l))) [] 0 Hl) as H'.
  cbn [app] in H'. change (zlen []) with 0 in H'. rewrite H' by (try dlia; unfold zlen; lia). bind_step.
  f_equal. apply fold_ones. dlia.
Qed.

(** The byte order does not matter, up to swapping (RFC 1071). *)
Lemma le_be_words l : exists k, le_words l = 256 * be_words l - 65535 * k.
Proof.
  revert l. fix IH 1. intros [|a [|b l]]; cbn [le_words be_words].
  - exists 0. lia.
  - exists a. lia.
  - destruct (IH l) as [k Hk]. exists (k + a). lia.
Qed.

Lemma words_zero l : is_bytes l -> (le_words l = 0 <-> be_words l = 0).
Proof.
  revert l. fix IH 1. intros [|a [|b l]] H; cbn [le_words be_words]; [done| |].
  - apply Forall_cons_1 in H as [H _]. unfold is_byte, in_u in H. lia.
  - apply Forall_cons_1 in H as [Ha H]. apply Forall_cons_1 in H as [Hb H]. specialize (IH l H).
    pose proof (be_words_nonneg l H). pose proof (le_words_bound l H) as [? _].
    unfold is_byte, in_u in *. split; intros; assert (a = 0) by lia; assert (b = 0) by lia; lia.
Qed.

Lemma ones_swap s t k : 0 <= s -> 0 <= t -> t = 256 * s - 65535 * k -> (t = 0 <-> s = 0) -> ones t = swap16 (ones s).
Proof.
  intros Hs Ht E Hz. unfold ones, swap16. destruct (Z.eqb_spec s 0) as [->|Hn].
  - rewrite (proj2 Hz) by done. done.
  - destruct (Z.eqb_spec t 0) as [|Ht0]; [tauto|].
    assert (exists q r, s = 65535 * q + r + 1 /\ 0 <= r < 65535) as (q & r & -> & Hr).
    { exists ((s - 1) / 65535), ((s - 1) mod 65535). dlia. }
    replace ((65535 * q + r + 1 - 1) mod 65535) with r
      by (replace (65535 * q + r + 1 - 1) with (r + q * 65535) by lia; rewrite Z_mod_plus_full, Z.mod_small; lia).
    symmetry.
    assert (exists h l', r + 1 = 256 * h + l' /\ 0 <= l' < 256 /\ 0 <= h < 256) as (h & l' & E' & Hl & Hh).
    { exists ((r + 1) / 256), ((r + 1) mod 256). dlia. }
    rewrite E'. replace ((256 * h + l') mod 256) with l' by dlia. replace ((256 * h + l') / 256) with h by dlia.
    assert (t - 1 = (256 * l' + h - 1) + (256 * q - k + h) * 65535) as -> by lia.
    rewrite Z_mod_plus_full, Z.mod_small by lia. lia.
Qed.

Lemma be_words_app l m : Z.Even (zlen l) -> be_words (l ++ m) = be_words l + be_words m.
Proof.
  revert l. fix IH 1. intros [|a [|b l]] H; [done| |].
  - exfalso. destruct H as [k Hk]. unfold zlen in Hk. cbn in Hk. lia.
  - cbn [be_words app]. rewrite IH; [lia|]. destruct H as [k Hk]. exists (k - 1).
    unfold zlen in *. cbn [length] in Hk. lia.
Qed.

Lemma swap16_sub x : 0 <= x <= 65535 -> 65535 - swap16 x = swap16 (65535 - x).
Proof.
  intros Hx. unfold swap16. assert (exists h l, x = 256 * h + l /\ 0 <= h < 256 /\ 0 <= l < 256)
    as (h & l & -> & Hh & Hl) by (exists (x / 256), (x mod 256); dlia).
  replace (65535 - (256 * h + l)) with (256 * (255 - h) + (255 - l)) by lia.
  rewrite !(Z.add_comm (256 * _)), !(Z.mul_comm 256), !Z_mod_plus_full, !Z.div_add by lia.
  rewrite !(Z.mod_small _ 256), !(Z.div_small _ 256) by lia. lia.
Qed.

(** ** ARP *)

Record arp_cache := mk_cache { arp_cache_ip : bytes; arp_cache_mac : bytes; arp_cache_valid : bool }.

Definition arp_build_request (buf sender_mac sender_ip target_ip : bytes) : run (Z * bytes) :=
  buf ← memcpy buf 0 (zeros 42) 0 42;
  buf ← memcpy buf 0 [0; 1; 8; 0; 6; 4; 0; 1] 0 8;
  buf ← memcpy buf 8 sender_mac 0 6;
  buf ← memcpy buf 14 sender_ip 0 4;
  buf ← memcpy buf 18 (zeros 6) 0 6;
  buf ← memcpy buf 24 target_ip 0 4;
  mret (28, buf).

Section Arp.
(** What the [k]-th call of [recv_ethernet(resp, 60)] returns and leaves in the
    60 bytes of [resp]. *)
Context (recv_ethernet : nat -> Z * bytes).

Definition arp_reply (target_ip : bytes) (f : Z * bytes) : bool :=
  (42 <=? fst f) && (zget (snd f) 12 =? 0x08) && (zget (snd f) 13 =? 0x06) &&
  bool_decide (sub (snd f) 28 4 = target_ip).

(** [for (t = 0; t < 10000; ++t)]: the index of the frame that is accepted. *)
Fixpoint arp_wait (t k : nat) (target_ip : bytes) : option nat :=
  match t with
  | O => None
  | S t => if arp_reply target_ip (recv_ethernet k) then Some k else arp_wait t (S k) target_ip
  end.

Definition arp_tries : nat := Z.to_nat 10000.

(** [for (retry = 0; retry < 3; ++retry)], with the number of frames sent. *)
Fixpoint arp_retry (retry k sent : nat) (target_ip : bytes) : option nat * nat :=
  match retry with
  | O => (None, sent)
  | S retry =>
      match arp_wait arp_tries k target_ip with
      | Some j => (Some j, S sent)
      | None => arp_retry retry (k + arp_tries) (S sent) target_ip
      end
  end.

(** The result, [out_mac], the cache, the frames sent; [k] frames have been
    received before. *)
Definition arp_resolve (c : arp_cache) (k : nat) (sender_mac sender_ip target_ip : bytes)
  : run (Z * option bytes * arp_cache * list bytes) :=
  if arp_cache_valid c && bool_decide (target_ip = arp_cache_ip c)
  then mret (0, Some (arp_cache_mac c), c, [])
  else
    r ← arp_build_request (zeros 42) sender_mac sender_ip target_ip;
    let '(found, sent) := arp_retry 3 k 0 target_ip in
    match found with
    | Some j =>
        let mac := sub (snd (recv_ethernet j)) 22 6 in
        mret (0, Some mac, mk_cache target_ip mac true, replicate sent (snd r))
    | None => mret (-1, None, c, replicate sent (snd r))
    end.

End Arp.

(** ** DHCP *)

Record dhcp := mk_dhcp {
  dhcp_options : bytes; dhcp_lease_time : Z; dhcp_renew_time : Z; dhcp_rebind_time : Z
}.

(** The common head of the messages, then the options. *)
Definition dhcp_build (opts buf : bytes) (xid : Z) : run (Z * bytes) :=
  buf ← memcpy buf 0 (zeros 300) 0 300;
  buf ← memcpy buf 0 [1; 1; 6; 0] 0 4;
  buf ← memcpy buf 4 (le_bytes 4 xid) 0 4;
  buf ← memcpy buf 236 [99; 130; 83; 99] 0 4;
  buf ← memcpy buf 240 opts 0 (zlen opts);
  mret (240 + zlen opts, buf).

Definition dhcp_build_discover := dhcp_build [53; 1; 1; 55; 4; 1; 3; 6; 15; 255].
Definition dhcp_renew := dhcp_build [53; 1; 5; 255].
Definition dhcp_release := dhcp_build [53; 1; 7; 255].

(** [if (code == ...) dhcp_... = *(uint32_t* )&dhcp_options[i]] *)
Definition dhcp_time (want code : Z) (opts : bytes) (i old : Z) : run Z :=
  if code =? want then rd_le opts i 4 else mret old.

(** [for (i = 0; i < 312;)] from [i] on. *)
Fixpoint dhcp_option_loop (fuel : nat) (st : dhcp) (i : Z) : run dhcp :=
  match fuel with
  | O => OutOfFuel
  | S fuel =>
      if i <? 312 then
        let opts := dhcp_options st in
        code ← rd opts i;
        if code =? 0xFF then mret st else
        len ← rd opts (i + 1);
        lease ← dhcp_time 51 code opts (i + 2) (dhcp_lease_time st);
        renew ← dhcp_time 58 code opts (i + 2) (dhcp_renew_time st);
        rebind ← dhcp_time 59 code opts (i + 2) (dhcp_rebind_time st);
        dhcp_option_loop fuel (mk_dhcp opts lease renew rebind) (i + 2 + len)
      else mret st
  end.

(** [*offered_ip] and the new state; the result is always 0. *)
Definition dhcp_parse_offer (st : dhcp) (buf : bytes) : run (Z * dhcp) :=
  ip ← rd_le buf 16 4;
  opts ← memcpy (zeros 312) 0 buf 240 312;
  st ← dhcp_option_loop 313 (mk_dhcp opts (dhcp_lease_time st) (dhcp_renew_time st) (dhcp_rebind_time st)) 0;
  mret (ip, st).

(** ** TFTP *)

Definition tftp_send_rrq (filename buf : bytes) (blksize : Z) : run (Z * bytes) :=
  let len := zlen filename in
  buf ← memcpy buf 0 [0; 1] 0 2;
  buf ← memcpy buf 2 filename 0 len;
  buf ← wr buf (2 + len) 0;
  buf ← memcpy buf (3 + len) (lit "octet") 0 5;
  buf ← wr buf (8 + len) 0;
  let opt := 9 + len in
  r ← (if 512 <? blksize then
         buf ← memcpy buf opt (lit "blksize") 0 7;
         buf ← wr buf (opt + 7) 0;
         let blkstr := print_int blksize in
         let n := zlen blkstr in
         if 8 <=? n then UB else
         buf ← memcpy buf (opt + 8) blkstr 0 n;
         buf ← wr buf (opt + 8 + n) 0;
         mret (opt + 9 + n, buf)
       else mret (opt, buf));
  let '(opt, buf) := r in
  buf ← wr buf opt 0;
  mret (opt + 1, buf).

Definition tftp_build_rrq (filename buf : bytes) : run (Z * bytes) := tftp_send_rrq filename buf 512.

(** [None] is the result -1; otherwise the block number and the data. *)
Definition tftp_parse_data (buf : bytes) : run (option (Z * bytes)) :=
  op ← rd buf 1;
  if negb (op =? 3) then mret None else
  b2 ← rd buf 2; b3 ← rd buf 3;
  b4 ← rd buf 4;
  short ← (if b4 =? 0 then b5 ← rd buf 5; mret (b5 =? 0) else mret false);
  let datalen := if short : bool then 0 else 512 in
  data ← memcpy (zeros 512) 0 buf 4 datalen;
  mret (Some ((b2 <<< 8) ||| b3, sub data 0 datalen)).

(** The string at [i]: [None] when no NUL ends it inside the packet. *)
Definition string_at (buf : bytes) (i : Z) : option bytes :=
  match split_at 0 (drop (Z.to_nat i) buf) with Some (s, _) => Some s | None => None end.

(** [while (buf[i])]: the new [*blksize]. *)
Fixpoint oack_loop (fuel : nat) (buf : bytes) (i blksize : Z) : run Z :=
  match fuel with
  | O => OutOfFuel
  | S fuel =>
      c ← rd buf i;
      if c =? 0 then mret blksize else
      match string_at buf i with
      | None => UB
      | Some s =>
          if bool_decide (s = lit "blksize") then
            atoi_in (drop (Z.to_nat (i + 8)) buf)
          else oack_loop fuel buf (i + zlen s + 1) blksize
      end
  end.

Definition tftp_parse_oack (buf : bytes) (blksize : Z) : run Z := oack_loop (length buf) buf 2 blksize.

(** ** ARP: lemmas *)

Section ArpLemmas.
Context (recv_ethernet : nat -> Z * bytes) (target_ip : bytes).

(** The first reply among the frames number [k] to [k + n - 1]. *)
Definition first_reply (k n : nat) : option nat :=
  List.find (fun j => arp_reply target_ip (recv_ethernet j)) (seq k n).

Lemma arp_wait_first t : forall k, arp_wait recv_ethernet t k target_ip = first_reply k t.
Proof.
  induction t as [|t IH]; intros k; [done|]. unfold first_reply in *. cbn [arp_wait seq List.find].
  by destruct (arp_reply _ _).
Qed.

Lemma find_app {A} (p : A -> bool) l l' :
  List.find p (l ++ l') = match List.find p l with Some x => Some x | None => List.find p l' end.
Proof. induction l as [|x l IH]; [done|]. cbn [List.find app]. by destruct (p x). Qed.

Lemma arp_retry_first r : forall k sent,
  fst (arp_retry recv_ethernet r k sent target_ip) = first_reply k (r * arp_tries).
Proof.
  induction r as [|r IH]; intros k sent; [done|]. cbn [arp_retry]. rewrite arp_wait_first.
  unfold first_reply in *. change (S r * arp_tries)%nat with (arp_tries + r * arp_tries)%nat.
  rewrite seq_app, find_app. by destruct (List.find _ (seq k arp_tries)).
Qed.

Lemma arp_retry_sent r : forall k sent,
  let x := arp_retry recv_ethernet r k sent target_ip in
  (sent <= snd x <= sent + r)%nat /\ (fst x = None -> snd x = sent + r)%nat /\ (fst x <> None -> sent < snd x)%nat.
Proof.
  induction r as [|r IH]; intros k sent; cbn [arp_retry].
  - cbn. split_and!; [lia|lia|lia|done].
  - destruct (arp_wait _ _ _ _); cbn [fst snd].
    + split_and!; [lia|lia|done|lia].
    + destruct (IH (k + arp_tries)%nat (S sent)) as (H1 & H2 & H3).
      split_and!; [lia|lia|intros H; specialize (H2 H); lia|intros H; specialize (H3 H); lia].
Qed.

End ArpLemmas.

Lemma request_built mac ip target : zlen mac = 6 -> zlen ip = 4 -> zlen target = 4 ->
  arp_build_request (zeros 42) mac ip target =
  Ret (28, [0; 1; 8; 0; 6; 4; 0; 1] ++ mac ++ ip ++ zeros 6 ++ target ++ zeros 14).
Proof.
  intros Hm Hi Ht. unfold arp_build_request. rewrite memcpy_start by done. bind_step.
  change (sub (zeros 42) 0 42 ++ _) with (zeros 42). rewrite memcpy_start by done. bind_step.
  change (sub _ 0 8 ++ _) with ([0; 1; 8; 0; 6; 4; 0; 1] ++ zeros 34).
  rewrite memcpy_app by (try done; rewrite ?Hm; done). bind_step. rewrite sub_all by done.
  rewrite app_assoc, memcpy_app by (try (rewrite zlen_app, Hm; done); try done; rewrite Hi; done).
  bind_step. rewrite sub_all by done. rewrite app_assoc.
  rewrite memcpy_app by (try (rewrite !zlen_app, Hm, Hi; done); done). bind_step.
  change (sub (zeros 6) 0 6) with (zeros 6). rewrite app_assoc.
  rewrite memcpy_app by (try (rewrite !zlen_app, Hm, Hi; done); try done; rewrite Ht; done). bind_step.
  rewrite sub_all by done. by rewrite <- !app_assoc.
Qed.

(** ** DHCP: lemmas *)

(** An option as it is sent: its code, its length, its contents. *)
Definition render_option (o : Z * bytes) : bytes := fst o :: zlen (snd o) :: snd o.
Definition render_options (os : list (Z * bytes)) : bytes := concat (render_option <$> os).

Definition is_time (code : Z) : bool := (code =? 51) || (code =? 58) || (code =? 59).

Definition option_ok (o : Z * bytes) : Prop :=
  0 <= fst o < 255 /\ (is_time (fst o) = true -> 4 <= zlen (snd o)).

(** The last time of a kind that the options give. *)
Definition time_of (want : Z) (os : list (Z * bytes)) (old : Z) : Z :=
  fold_left (fun v o => if fst o =? want then le_val (take 4 (snd o)) else v) os old.

Lemma render_options_length os : (2 * length os <= length (render_options os))%nat.
Proof.
  induction os as [|o os IH]; [done|]. unfold render_options in *. cbn [fmap list_fmap concat].
  rewrite length_app. cbn [length render_option]. lia.
Qed.

Lemma dhcp_time_read want code pre p rest old i : is_time want = true -> i = zlen pre ->
  (is_time code = true -> 4 <= zlen p) ->
  dhcp_time want code (pre ++ p ++ rest) i old =
  Ret (if code =? want then le_val (take 4 p) else old).
Proof.
  intros Hw -> Hl. unfold dhcp_time. destruct (Z.eqb_spec code want) as [->|]; [|done].
  specialize (Hl Hw). replace (pre ++ p ++ rest) with (pre ++ take 4 p ++ (drop 4 p ++ rest)).
  - apply rd_le_at; [done|]. unfold zlen in *. rewrite length_take. lia.
  - f_equal. by rewrite app_assoc, take_drop.
Qed.

Lemma option_loop_run os : forall fuel pre rest lease renew rebind,
  Forall option_ok os -> (length os < fuel)%nat ->
  zlen pre + zlen (render_options os) < 312 ->
  let opts := pre ++ render_options os ++ 255 :: rest in
  dhcp_option_loop fuel (mk_dhcp opts lease renew rebind) (zlen pre) =
  Ret (mk_dhcp opts (time_of 51 os lease) (time_of 58 os renew) (time_of 59 os rebind)).
Proof.
  induction os as [|[code p] os IH]; intros [|fuel] pre rest lease renew rebind Hos Hf Hl opts;
    try (cbn [length] in Hf; lia); pose proof (zlen_nonneg pre) as Hp.
  - cbn [dhcp_option_loop]. change (render_options []) with ([] : bytes) in *. change (zlen []) with 0 in Hl.
    rewrite (proj2 (Z.ltb_lt _ _)) by lia. subst opts. cbn [app dhcp_options].
    rewrite (rd_at pre 255 rest _ eq_refl). bind_step. reflexivity.
  - apply Forall_cons_1 in Hos as [[Hc Ht] Hos]. cbn [fst snd] in *.
    assert (E : render_options ((code, p) :: os) = code :: zlen p :: p ++ render_options os) by reflexivity.
    rewrite E in Hl. pose proof (zlen_nonneg p). pose proof (zlen_nonneg (render_options os)).
    assert (El : zlen (code :: zlen p :: p ++ render_options os) = 2 + zlen p + zlen (render_options os))
      by (unfold zlen; cbn [length]; rewrite length_app; lia). rewrite El in Hl.
    assert (Eo : opts = (pre ++ [code; zlen p]) ++ p ++ (render_options os ++ 255 :: rest)).
    { unfold opts. rewrite E, <- !app_assoc. cbn [app]. by rewrite <- !app_assoc. }
    assert (Eo' : opts = pre ++ code :: (zlen p :: p ++ (render_options os ++ 255 :: rest)))
      by (rewrite Eo, <- app_assoc; done).
    assert (Eo2 : opts = (pre ++ [code]) ++ zlen p :: (p ++ (render_options os ++ 255 :: rest)))
      by (rewrite Eo, <- !app_assoc; done).
    cbn [dhcp_option_loop dhcp_options dhcp_lease_time dhcp_renew_time dhcp_rebind_time].
    rewrite (proj2 (Z.ltb_lt _ _)) by lia. rewrite Eo' at 1. rewrite (rd_at pre code _ _ eq_refl). bind_step.
    rewrite (proj2 (Z.eqb_neq code 255)) by lia. rewrite Eo2 at 1.
    rewrite (rd_at (pre ++ [code])) by (rewrite zlen_app; reflexivity). bind_step.
    assert (Hr : forall want old, is_time want = true -> dhcp_time want code opts (zlen pre + 2) old =
      Ret (if code =? want then le_val (take 4 p) else old)).
    { intros want old Hw. rewrite Eo. apply dhcp_time_read; [done|by rewrite zlen_app|done]. }
    clearbody opts. rewrite !Hr by done. bind_step.
    specialize (IH fuel (pre ++ [code; zlen p] ++ p) rest
      (if code =? 51 then le_val (take 4 p) else lease) (if code =? 58 then le_val (take 4 p) else renew)
      (if code =? 59 then le_val (take 4 p) else rebind) Hos ltac:(cbn [length] in Hf; lia)).
    cbv zeta in IH. rewrite !zlen_app in IH. change (zlen [code; zlen p]) with 2 in IH.
    specialize (IH ltac:(lia)).
    replace ((pre ++ [code; zlen p] ++ p) ++ render_options os ++ 255 :: rest) with opts in IH
      by (rewrite Eo, <- !app_assoc; done).
    replace (zlen pre + 2 + zlen p) with (zlen pre + (2 + zlen p)) by lia. rewrite IH. reflexivity.
Qed.

(** ** TFTP: lemmas *)

Lemma put_next (a b src : bytes) off n : off = zlen a -> n = zlen src -> zlen src <= zlen b ->
  memcpy (a ++ b) off src 0 n = Ret ((a ++ src) ++ drop (length src) b).
Proof.
  intros -> -> H. pose proof (zlen_nonneg src). rewrite memcpy_app by lia. rewrite sub_all, app_assoc by done.
  unfold zlen. by rewrite Nat2Z.id.
Qed.

Lemma wr_next (a b : bytes) off v : off = zlen a -> 0 < zlen b ->
  wr (a ++ b) off v = Ret ((a ++ [v]) ++ drop 1 b).
Proof. intros -> H. destruct b as [|x b]; [unfold zlen in H; cbn in H; lia|]. by apply wr_app. Qed.

(** The strings of a packet, each up to its NUL. *)
Definition nul_strings (ss : list bytes) : bytes := concat (List.map (fun s => s ++ [0]) ss).

Definition rrq_strings (filename : bytes) (blksize : Z) : list bytes :=
  [filename; lit "octet"] ++ (if 512 <? blksize then [lit "blksize"; print_int blksize] else []).

Lemma zlen_nul_strings_cons s ss : zlen (nul_strings (s :: ss)) = zlen s + 1 + zlen (nul_strings ss).
Proof. unfold nul_strings. cbn [List.map concat]. by rewrite !zlen_app. Qed.

Lemma nul_strings_app ss ss' : nul_strings (ss ++ ss') = nul_strings ss ++ nul_strings ss'.
Proof. unfold nul_strings. by rewrite List.map_app, concat_app. Qed.

Lemma zlen_cons {A} (x : A) l : zlen (x :: l) = 1 + zlen l.
Proof. unfold zlen. cbn [length]. lia. Qed.

Lemma zlen_drop_length (src l : bytes) : zlen (drop (length src) l) = Z.max 0 (zlen l - zlen src).
Proof. unfold zlen. rewrite length_drop. lia. Qed.

Lemma zlen_drop_1 (l : bytes) : zlen (drop 1 l) = Z.max 0 (zlen l - 1).
Proof. unfold zlen. rewrite length_drop. lia. Qed.

(** The next piece of a message is written behind the last. *)
Ltac msg_len :=
  repeat first [rewrite zlen_cons|rewrite zlen_app|rewrite zlen_drop_length|rewrite zlen_drop_1];
  change (@zlen Z []) with 0; lia.
Ltac put_piece := first [rewrite put_next by msg_len|rewrite wr_next by msg_len]; bind_step.

Lemma rrq_message filename buf blksize : blksize < 10 ^ 7 ->
  let msg := [0; 1] ++ nul_strings (rrq_strings filename blksize) ++ [0] in
  zlen msg <= zlen buf ->
  exists buf', tftp_send_rrq filename buf blksize = Ret (zlen msg, msg ++ buf').
Proof.
  intros Hb msg Hl. subst msg. unfold rrq_strings in *. unfold tftp_send_rrq. cbv zeta.
  pose proof (zlen_nonneg filename) as Hf. rewrite !zlen_app in Hl.
  assert (Eo : zlen (lit "octet") = 5) by done. assert (Ek : zlen (lit "blksize") = 7) by done.
  set (octet := lit "octet") in *. set (key := lit "blksize") in *. clearbody octet key.
  change (memcpy buf 0 [0; 1] 0 2) with (memcpy ([] ++ buf) 0 [0; 1] 0 2).
  destruct (Z.ltb_spec 512 blksize) as [H|H].
  - assert (Hn : zlen (print_int blksize) < 8).
    { unfold print_int. rewrite (proj2 (Z.ltb_ge _ _)) by lia.
      pose proof (decimal_length 7 blksize ltac:(lia) ltac:(lia)). lia. }
    set (num := print_int blksize) in *. clearbody num. pose proof (zlen_nonneg num).
    cbn [app] in Hl. rewrite !zlen_nul_strings_cons, !zlen_cons in Hl.
    change (zlen (nul_strings [])) with 0 in Hl. change (@zlen Z []) with 0 in Hl.
    do 7 put_piece. rewrite (proj2 (Z.leb_gt 8 (zlen num))) by lia. do 3 put_piece.
    eexists. f_equal. f_equal; [|unfold nul_strings; cbn [List.map concat app]; rewrite <- ?app_assoc; cbn [app]; rewrite <- ?app_assoc; reflexivity].
    cbn [app]. rewrite ?zlen_cons, ?zlen_app, ?zlen_nul_strings_cons. change (zlen (nul_strings [])) with 0.
    rewrite ?zlen_cons. change (@zlen Z []) with 0. lia.
  - cbn [app] in Hl. rewrite !zlen_nul_strings_cons, !zlen_cons in Hl.
    change (zlen (nul_strings [])) with 0 in Hl. change (@zlen Z []) with 0 in Hl.
    do 6 put_piece.
    eexists. f_equal. f_equal; [|unfold nul_strings; cbn [List.map concat app]; rewrite <- ?app_assoc; cbn [app]; rewrite <- ?app_assoc; reflexivity].
    cbn [app]. rewrite ?zlen_cons, ?zlen_app, ?zlen_nul_strings_cons. change (zlen (nul_strings [])) with 0.
    rewrite ?zlen_cons. change (@zlen Z []) with 0. lia.
Qed.

Definition plain_string (s : bytes) : Prop := s <> [] /\ Forall (fun c => c <> 0) s.

Lemma string_at_here (pre s rest : bytes) : Forall (fun c => c <> 0) s ->
  string_at (pre ++ s ++ 0 :: rest) (zlen pre) = Some s.
Proof.
  intros Hs. unfold string_at, zlen. rewrite Nat2Z.id, drop_app_length.
  by rewrite (split_at_app 0).
Qed.

Lemma oack_skip ss : forall fuel pre rest blk,
  Forall (fun s => plain_string s /\ s <> lit "blksize") ss -> (length ss < fuel)%nat ->
  oack_loop fuel (pre ++ nul_strings ss ++ rest) (zlen pre) blk =
  oack_loop (fuel - length ss) (pre ++ nul_strings ss ++ rest) (zlen (pre ++ nul_strings ss)) blk.
Proof.
  induction ss as [|s ss IH]; intros [|fuel] pre rest blk Hss Hf; try (cbn [length] in Hf; lia).
  { change (nul_strings []) with ([] : bytes). by rewrite app_nil_r. }
  apply Forall_cons_1 in Hss as [[[Hn Hs] Hb] Hss]. destruct s as [|c s]; [done|].
  assert (E : pre ++ nul_strings ((c :: s) :: ss) ++ rest = pre ++ (c :: s) ++ 0 :: (nul_strings ss ++ rest)).
  { unfold nul_strings. cbn [List.map concat]. by rewrite <- !app_assoc. }
  cbn [oack_loop Nat.sub length]. rewrite E at 1. cbn [app]. rewrite rd_at by done. bind_step.
  apply Forall_cons_1 in Hs as Hc. destruct Hc as [Hc _]. rewrite (proj2 (Z.eqb_neq c 0)) by done.
  rewrite E at 1. rewrite string_at_here by done. rewrite bool_decide_false by done.
  specialize (IH fuel (pre ++ (c :: s) ++ [0]) rest blk Hss ltac:(cbn [length] in Hf; lia)).
  rewrite !zlen_app in IH. rewrite !zlen_app, zlen_nul_strings_cons. change (zlen [0]) with 1 in IH.
  replace ((pre ++ (c :: s) ++ [0]) ++ nul_strings ss ++ rest)
    with (pre ++ nul_strings ((c :: s) :: ss) ++ rest) in IH by (rewrite E; rewrite <- !app_assoc; done).
  rewrite Z.add_assoc in IH. rewrite IH. f_equal. lia.
Qed.

Lemma zlen_strings_length ss : (length ss <= length (nul_strings ss))%nat.
Proof.
  induction ss as [|s ss IH]; [done|]. unfold nul_strings in *. cbn [List.map concat length].
  rewrite !length_app. cbn [length]. lia.
Qed.

(** ** Properties *)

(** C30.  The Internet checksum: on data of even length [net_checksum] is the complement
    of the one's complement sum of its 16-bit words, data followed by its own
    checksum has checksum 0, and [icmp_checksum], which adds the words in the
    machine's byte order and folds the carries at the end, gives the same two
    bytes (RFC 1071).  On data of odd length [net_checksum] reads past its end. *)
Theorem internet_checksum l : is_bytes l -> zlen l < 2 ^ 17 ->
  (Z.Even (zlen l) -> exists c, net_checksum l (zlen l) = Ret c /\ c = 65535 - ones (be_words l) /\
     net_checksum (l ++ be_bytes 2 c) (zlen l + 2) = Ret 0 /\
     icmp_checksum l (zlen l) = Ret (swap16 c)) /\
  (Z.Odd (zlen l) -> net_checksum l (zlen l) = UB).
Proof.
  intros Hl Hn. pose proof (ones_range (be_words l)) as Ho. pose proof (be_words_nonneg l Hl) as Hp. split.
  - intros He. eexists. split; [by apply net_checksum_even|]. split; [done|].
    set (c := 65535 - ones (be_words l)) in *.
    assert (Hc : be_bytes 2 c = [c / 256; c mod 256]).
    { unfold be_bytes. cbn. f_equal. rewrite Z.mod_small; [done|]. subst c. dlia. }
    split.
    + replace (zlen l + 2) with (zlen (l ++ be_bytes 2 c)) by (by rewrite Hc, zlen_app).
      rewrite net_checksum_even.
      * f_equal. rewrite be_words_app by done. rewrite Hc. cbn [be_words].
        replace (256 * (c / 256) + c mod 256 + 0) with c by dlia. subst c. by rewrite ones_complement.
      * apply is_bytes_app. split; [done|]. rewrite Hc. repeat constructor; unfold is_byte, in_u; subst c; dlia.
      * rewrite Hc, zlen_app. destruct He as [k ->]. exists (k + 1). change (zlen [c / 256; c mod 256]) with 2. lia.
    + rewrite icmp_checksum_words by done. f_equal. unfold c. rewrite <- swap16_sub by done. f_equal.
      destruct (le_be_words l) as [k Hk]. pose proof (le_words_bound l Hl) as [H0 _].
      by apply (ones_swap _ _ k); [..|apply words_zero].
  - intros Hodd. unfold net_checksum. destruct (exists_last (l := l)) as (m & x & ->).
    { intros ->. destruct Hodd as [k Hk]. unfold zlen in Hk. cbn in Hk. lia. }
    rewrite zlen_app in *. change (zlen [x]) with 1 in *.
    pose proof (net_sum_odd x m (S (Z.to_nat (zlen m + 1))) [] 0 Hodd) as H.
    change (zlen []) with 0 in H. rewrite Z.add_0_l in H. cbn [app] in H. rewrite H; [done|unfold zlen; lia].
Qed.

(** ARP resolution: a cached address is answered from the cache without traffic;
    otherwise the answer is the sender address of the first of the next 30000
    frames that is an ARP frame with the target's protocol address, which then
    replaces the cache entry, so that resolving the same address again gives the
    same answer without traffic; without such a frame the result is -1, three
    requests have been sent and the cache is unchanged. *)
Theorem arp_resolve_functional recv c k mac ip target :
  zlen mac = 6 -> zlen ip = 4 -> zlen target = 4 ->
  exists res out c' sent, arp_resolve recv c k mac ip target = Ret (res, out, c', sent) /\
    if arp_cache_valid c && bool_decide (target = arp_cache_ip c)
    then res = 0 /\ out = Some (arp_cache_mac c) /\ c' = c /\ sent = []
    else Forall (eq ([0; 1; 8; 0; 6; 4; 0; 1] ++ mac ++ ip ++ zeros 6 ++ target ++ zeros 14)) sent /\
      match first_reply recv target k (3 * arp_tries) with
      | Some j =>
          let m := sub (snd (recv j)) 22 6 in
          res = 0 /\ out = Some m /\ (0 < length sent <= 3)%nat /\
          forall recv' k', arp_resolve recv' c' k' mac ip target = Ret (0, Some m, c', [])
      | None => res = -1 /\ out = None /\ c' = c /\ length sent = 3%nat
      end.
Proof.
  intros Hm Hi Ht. unfold arp_resolve at 1. destruct (arp_cache_valid c && bool_decide (target = arp_cache_ip c)).
  { by eexists _, _, _, _. }
  rewrite request_built by done. bind_step. rewrite <- (arp_retry_first recv target 3 k 0).
  pose proof (arp_retry_sent recv target 3 k 0) as Hs. cbv zeta in Hs.
  destruct (arp_retry recv 3 k 0 target) as [[j|] n]; cbn [fst snd] in *; destruct Hs as (H1 & H2 & H3);
    eexists _, _, _, _; (split; [reflexivity|]); (split; [by apply Forall_replicate|]); rewrite length_replicate.
  - split_and!; [done|done|specialize (H3 ltac:(done)); lia|lia|]. intros recv' k'. unfold arp_resolve.
    cbn [arp_cache_valid arp_cache_ip arp_cache_mac]. by rewrite bool_decide_true.
  - split_and!; [done|done|done|]. by rewrite H2.
Qed.

(** DHCP offers: with at least 552 bytes, and options that end in 255 within the 312
    bytes looked at, the offered address is the field at 16 and the lease, renewal
    and rebinding times are those of the last option of each kind, all read in
    the machine's byte order (the protocol sends them in the other one); the loop
    ends within its fuel. *)
Theorem dhcp_offer_parsed st head os rest :
  zlen head = 240 -> Forall option_ok os -> zlen (render_options os) < 312 ->
  311 <= zlen (render_options os) + zlen rest ->
  exists o, dhcp_parse_offer st (head ++ render_options os ++ 255 :: rest) =
    Ret (le_val (sub head 16 4),
         mk_dhcp o (time_of 51 os (dhcp_lease_time st)) (time_of 58 os (dhcp_renew_time st))
                   (time_of 59 os (dhcp_rebind_time st))).
Proof.
  intros Hh Hos Hlo Hl. pose proof (zlen_nonneg (render_options os)) as Hr. pose proof (render_options_length os) as Hn. pose proof (zlen_nonneg rest).
  unfold dhcp_parse_offer. unfold rd_le. rewrite zlen_app, Hh.
  replace ((0 <=? 16) && _) with true by (symmetry; zbool; rewrite zlen_app, zlen_cons; lia). bind_step.
  set (area := render_options os ++ 255 :: take (Z.to_nat (311 - zlen (render_options os))) rest).
  assert (Ha : memcpy (zeros 312) 0 (head ++ render_options os ++ 255 :: rest) 240 312 = Ret area).
  { rewrite memcpy_ok by (rewrite ?zlen_app, ?zlen_cons, ?zlen_zeros by lia; lia). f_equal.
    rewrite splice_all.
    - unfold sub. replace (Z.to_nat 240) with (length head) by (unfold zlen in Hh; lia). rewrite drop_app_length.
      rewrite take_app. rewrite take_ge by (unfold zlen in *; lia). unfold area. f_equal.
      replace (Z.to_nat 312 - length (render_options os))%nat
        with (S (Z.to_nat (311 - zlen (render_options os)))) by (unfold zlen in *; lia). done.
    - rewrite zlen_sub by (rewrite ?zlen_app, ?zlen_cons; lia). by rewrite zlen_zeros by lia. }
  rewrite Ha. bind_step. exists area.
  pose proof (option_loop_run os 313 [] (take (Z.to_nat (311 - zlen (render_options os))) rest)
    (dhcp_lease_time st) (dhcp_renew_time st) (dhcp_rebind_time st) Hos ltac:(unfold zlen in *; lia) ltac:(change (zlen []) with 0; lia)) as E.
  cbv zeta in E. cbn [app] in E. change (zlen []) with 0 in E. fold area in E. rewrite E. bind_step.
  f_equal. f_equal. unfold sub. rewrite drop_app_le by (unfold zlen in Hh; lia). f_equal.
  rewrite take_app_le; [done|]. rewrite length_drop. unfold zlen in Hh. lia.
Qed.

(** TFTP read requests: in a buffer that is large enough the request is the opcode
    and, each with its NUL, the file name, the mode and for block sizes above 512
    the option and its value, with one NUL more at the end; splitting it at its
    NULs gives these strings back. *)
Theorem tftp_rrq_roundtrip filename buf blksize :
  plain_string filename -> blksize < 10 ^ 7 ->
  zlen filename + 29 <= zlen buf ->
  exists n buf', tftp_send_rrq filename buf blksize = Ret (n, buf') /\
    take 2 buf' = [0; 1] /\
    strtok (fun c => c =? 0) (drop 2 (take (Z.to_nat n) buf')) = rrq_strings filename blksize.
Proof.
  intros [Hne Hnz] Hb Hl.
  assert (Hk : zlen (nul_strings (rrq_strings filename blksize)) <= zlen filename + 24).
  { unfold rrq_strings. cbn [app]. rewrite !zlen_nul_strings_cons. change (zlen (lit "octet")) with 5.
    destruct (Z.ltb_spec 512 blksize); rewrite ?zlen_nul_strings_cons; change (zlen (nul_strings [])) with 0; [|lia].
    unfold print_int. rewrite (proj2 (Z.ltb_ge _ _)) by lia. change (zlen (lit "blksize")) with 7.
    pose proof (decimal_length 7 blksize ltac:(lia) ltac:(lia)). lia. }
  destruct (rrq_message filename buf blksize) as (rest & E); [done|rewrite !zlen_app; change (zlen [0; 1]) with 2; change (zlen [0]) with 1; lia|].
  eexists _, _. split; [exact E|]. split; [done|].
  unfold zlen. rewrite Nat2Z.id, take_app_length.
  change (drop 2 ([0; 1] ++ ?x)) with x. unfold nul_strings.
  rewrite (strtok_concat (fun c => c =? 0) 0); [by rewrite app_nil_r| |done].
  assert (Hd : forall c : Z, c <> 0 -> (c =? 0) = false) by (intros c Hc; zbool).
  unfold rrq_strings. constructor.
  { split; [done|]. eapply Forall_impl; [exact Hnz|]. intros c Hc. by apply Hd. }
  constructor; [by split; [|repeat constructor]|].
  destruct (Z.ltb_spec 512 blksize); [|constructor].
  constructor; [by split; [|repeat constructor]|]. constructor; [|constructor].
  apply print_int_plain; [unfold is_int, INT_MIN, INT_MAX; lia|]. intros c Hc. bool_hyps. lia.
Qed.

(** TFTP data packets: the parser is not told how long the packet is.  It takes a
    payload that starts with two zero bytes for the empty last block, any other
    for a full block of 512 bytes, so that a shorter last block is completed with
    whatever lies behind it in the buffer and reads past a buffer that ends with
    the packet; the block number is right in all cases. *)
Theorem tftp_data_packets b rest : in_u 16 b -> 2 <= zlen rest ->
  tftp_parse_data ([0; 3] ++ be_bytes 2 b ++ rest) =
  if (zget rest 0 =? 0) && (zget rest 1 =? 0) then Ret (Some (b, []))
  else if zlen rest <? 512 then UB
  else Ret (Some (b, sub rest 0 512)).
Proof.
  intros Hb Hl. destruct rest as [|x [|y rest]]; try (unfold zlen in Hl; cbn in Hl; lia).
  assert (Hc : be_bytes 2 b = [b / 256; b mod 256]).
  { unfold be_bytes. cbn. f_equal. rewrite Z.mod_small; [done|]. unfold in_u in Hb. dlia. }
  rewrite Hc. cbn [app]. unfold tftp_parse_data.
  assert (Hr : forall (l : bytes) i v, nth_error l i = Some v -> rd l (Z.of_nat i) = Ret v).
  { intros l i v E. unfold rd. assert (i < length l)%nat by (apply nth_error_Some; congruence).
    replace (_ && _) with true by (symmetry; unfold zlen; zbool). f_equal. unfold zget. rewrite Nat2Z.id.
    by apply nth_error_nth. }
  set (pkt := 0 :: 3 :: b / 256 :: b mod 256 :: x :: y :: rest).
  assert (R1 : rd pkt 1 = Ret 3) by exact (Hr pkt 1%nat 3 eq_refl).
  assert (R2 : rd pkt 2 = Ret (b / 256)) by exact (Hr pkt 2%nat _ eq_refl).
  assert (R3 : rd pkt 3 = Ret (b mod 256)) by exact (Hr pkt 3%nat _ eq_refl).
  assert (R4 : rd pkt 4 = Ret x) by exact (Hr pkt 4%nat x eq_refl).
  assert (R5 : rd pkt 5 = Ret y) by exact (Hr pkt 5%nat y eq_refl).
  rewrite R1. bind_step. change (negb (3 =? 3)) with false. cbv iota. rewrite R2. bind_step. rewrite R3. bind_step.
  rewrite R4. bind_step.
  rewrite (word_of (b / 256) (b mod 256)) by (unfold is_byte, in_u in *; dlia).
  replace (256 * (b / 256) + b mod 256) with b by dlia.
  change (zget (x :: y :: rest) 0) with x. change (zget (x :: y :: rest) 1) with y.
  set (p := x :: y :: rest) in *.
  assert (Hm : forall n, 0 <= n <= 512 -> memcpy (zeros 512) 0 pkt 4 n =
    if zlen p <? n then UB else Ret (splice (zeros 512) 0 (sub p 0 n))).
  { intros n Hn. change pkt with ([0; 3; b / 256; b mod 256] ++ p). destruct (Z.ltb_spec (zlen p) n).
    - unfold memcpy. rewrite zlen_app. change (zlen [0; 3; b / 256; b mod 256]) with 4.
      by rewrite (proj2 (Z.leb_gt (4 + n) (4 + zlen p))), andb_false_r by lia.
    - rewrite memcpy_ok; [done|lia|lia|lia|rewrite zlen_zeros by lia; lia|].
      rewrite zlen_app. change (zlen [0; 3; b / 256; b mod 256]) with 4. lia. }
  destruct (Z.eqb_spec x 0) as [->|Hx]; cbn [andb].
  - rewrite R5. bind_step. destruct (Z.eqb_spec y 0); bind_step.
    + rewrite Hm by lia. rewrite (proj2 (Z.ltb_ge _ _)) by lia. bind_step. done.
    + rewrite Hm by lia. destruct (zlen p <? 512) eqn:E; [done|]. bind_step. bool_hyps.
      rewrite splice_all; [|rewrite zlen_zeros, zlen_sub by lia; lia]. by rewrite (sub_all (sub p 0 512)) by (rewrite zlen_sub; lia).
  - bind_step. rewrite Hm by lia. destruct (zlen p <? 512) eqn:E; [done|]. bind_step. bool_hyps.
    rewrite splice_all; [|rewrite zlen_zeros, zlen_sub by lia; lia]. by rewrite (sub_all (sub p 0 512)) by (rewrite zlen_sub; lia).
Qed.

(** TFTP option acknowledgements: the block size taken over is the number that
    follows the first string "blksize"; without one the old size stays. *)
Theorem tftp_oack_blksize ss n rest blk :
  Forall (fun s => plain_string s /\ s <> lit "blksize") ss -> is_int n ->
  tftp_parse_oack ([0; 6] ++ nul_strings (ss ++ [lit "blksize"; print_int n]) ++ rest) blk = Ret n /\
  tftp_parse_oack ([0; 6] ++ nul_strings ss ++ 0 :: rest) blk = Ret blk.
Proof.
  intros Hss Hn. pose proof (zlen_strings_length ss) as Hlen. unfold tftp_parse_oack. change 2 with (zlen [0; 6]). split.
  - rewrite nul_strings_app, <- app_assoc.
    set (tail := nul_strings [lit "blksize"; print_int n] ++ rest).
    assert (Et : tail = lit "blksize" ++ 0 :: print_int n ++ 0 :: rest)
      by (unfold tail, nul_strings; cbn [List.map concat]; by rewrite app_nil_r, <- !app_assoc).
    clearbody tail. subst tail.
    rewrite oack_skip by (try done; rewrite !length_app; cbn [length]; lia).
    set (pre := [0; 6] ++ nul_strings ss). rewrite (app_assoc [0; 6] (nul_strings ss)). fold pre.
    destruct (length (pre ++ _) - length ss)%nat as [|fuel] eqn:Ef.
    { exfalso. revert Ef. unfold pre. rewrite !length_app. cbn [length]. lia. }
    cbn [oack_loop].
    assert (R : forall x, rd (pre ++ lit "blksize" ++ x) (zlen pre) = Ret 98) by (intros x; exact (rd_at pre 98 _ _ eq_refl)).
    rewrite R. bind_step. cbn [Z.eqb].
    rewrite string_at_here by (repeat (apply Forall_cons_2; [discriminate|]); apply Forall_nil_2). rewrite bool_decide_true by done.
    replace (drop _ _) with (print_int n ++ 0 :: rest); [by apply atoi_in_print|].
    change (lit "blksize" ++ 0 :: ?x) with ((lit "blksize" ++ [0]) ++ x). rewrite app_assoc.
    replace (Z.to_nat (zlen pre + 8)) with (length (pre ++ lit "blksize" ++ [0]))
      by (rewrite length_app; change (length (lit "blksize" ++ [0])) with 8%nat; unfold zlen; lia).
    by rewrite drop_app_length.
  - rewrite oack_skip by (try done; rewrite !length_app; cbn [length]; lia).
    rewrite (app_assoc [0; 6] (nul_strings ss)). set (pre := [0; 6] ++ nul_strings ss).
    destruct (length (pre ++ _) - length ss)%nat as [|fuel] eqn:Ef.
    { exfalso. revert Ef. unfold pre. rewrite !length_app. cbn [length]. lia. }
    cbn [oack_loop]. rewrite rd_at by done. done.
Qed.

(** ** Samples *)

Lemma internet_checksum_witness :
  exists c, net_checksum [0x45; 0; 0; 0x54] 4 = Ret c /\ icmp_checksum [0x45; 0; 0; 0x54] 4 = Ret (swap16 c).
Proof.
  destruct (internet_checksum [0x45; 0; 0; 0x54]) as [H _].
  - repeat (apply Forall_cons_2; [split; lia|]). apply Forall_nil_2.
  - reflexivity.
  - destruct H as (c & E1 & _ & _ & E2); [by exists 2|]. exists c. split; [exact E1|exact E2].
Defined.

(** The frame number 2 is the reply of 10.0.0.1. *)
Definition sample_recv (k : nat) : Z * bytes :=
  match k with
  | 2%nat => (60, zeros 12 ++ [8; 6] ++ zeros 8 ++ [2; 0; 0; 0; 0; 7] ++ [10; 0; 0; 1] ++ zeros 28)
  | _ => (0, zeros 60)
  end.

Lemma arp_resolve_functional_witness :
  exists c' sent, arp_resolve sample_recv (mk_cache [] [] false) 0 (zeros 6) (zeros 4) [10; 0; 0; 1] =
    Ret (0, Some [2; 0; 0; 0; 0; 7], c', sent) /\ (0 < length sent)%nat.
Proof.
  destruct (arp_resolve_functional sample_recv (mk_cache [] [] false) 0 (zeros 6) (zeros 4) [10; 0; 0; 1])
    as (res & out & c' & sent & E & H); [reflexivity..|]. cbn [arp_cache_valid andb] in H.
  destruct H as [_ H]. unfold first_reply in H.
  change (seq 0 (3 * arp_tries)) with (0%nat :: 1%nat :: 2%nat :: seq 3 (3 * arp_tries - 3)) in H.
  cbn [List.find] in H. change (arp_reply [10; 0; 0; 1] (sample_recv 0)) with false in H.
  change (arp_reply [10; 0; 0; 1] (sample_recv 1)) with false in H.
  change (arp_reply [10; 0; 0; 1] (sample_recv 2)) with true in H. cbv iota beta zeta in H.
  destruct H as (-> & -> & H & _). exists c', sent. split; [exact E|exact (proj1 H)].
Defined.

Lemma dhcp_offer_parsed_witness :
  exists o, dhcp_parse_offer (mk_dhcp [] 1 2 3)
      (zeros 240 ++ render_options [(53, [2]); (51, [0x80; 0x51; 1; 0])] ++ 255 :: zeros 320) =
    Ret (0, mk_dhcp o 86400 2 3).
Proof.
  destruct (dhcp_offer_parsed (mk_dhcp [] 1 2 3) (zeros 240) [(53, [2]); (51, [0x80; 0x51; 1; 0])] (zeros 320))
    as [o E]; [reflexivity| |reflexivity|vm_compute; discriminate|].
  - repeat (apply Forall_cons_2; [vm_compute; split; [split; [discriminate|reflexivity]|discriminate]|]). apply Forall_nil_2.
  - exists o. exact E.
Defined.

Lemma tftp_rrq_roundtrip_witness :
  exists n buf', tftp_send_rrq (lit "kernel") (zeros 64) 1432 = Ret (n, buf') /\
    strtok (fun c => c =? 0) (drop 2 (take (Z.to_nat n) buf')) =
      [lit "kernel"; lit "octet"; lit "blksize"; lit "1432"].
Proof.
  destruct (tftp_rrq_roundtrip (lit "kernel") (zeros 64) 1432) as (n & buf' & E & _ & H).
  - split; [discriminate|]. repeat (apply Forall_cons_2; [discriminate|]). apply Forall_nil_2.
  - reflexivity.
  - vm_compute. discriminate.
  - exists n, buf'. split; [exact E|exact H].
Defined.

Lemma tftp_data_packets_witness :
  tftp_parse_data ([0; 3] ++ be_bytes 2 1 ++ [1; 2; 3]) = UB /\
  tftp_parse_data ([0; 3] ++ be_bytes 2 1 ++ zeros 512) = Ret (Some (1, [])).
Proof.
  split; (rewrite tftp_data_packets; [reflexivity|split; lia|vm_compute; discriminate]).
Defined.

Lemma tftp_oack_blksize_witness :
  tftp_parse_oack ([0; 6] ++ nul_strings ([lit "tsize"; lit "0"] ++ [lit "blksize"; print_int 1432]) ++ []) 512 =
  Ret 1432.
Proof.
  apply (tftp_oack_blksize [lit "tsize"; lit "0"] 1432 [] 512).
  - repeat (apply Forall_cons_2; [split; [split; [discriminate|repeat (apply Forall_cons_2; [discriminate|]); apply Forall_nil_2]|discriminate]|]).
    apply Forall_nil_2.
  - vm_compute. split; discriminate.
Defined.
