(* ===== verification/Pxe.v ===== *)
(** * Booting over the network (src/net/pxe.c)

    Bringing the network up, loading a kernel and an initrd by TFTP, choosing the
    boot protocol by the kernel's first word, and the echo request.  The PXE
    stack, the memory allocator and the clock are parameters; the boot protocols
    are those of the loader files. *)

From S2P Require Import Prelude.
From S2P Require Import PhysMem.
From S2P Require Import Multiboot1.
From S2P Require Import Multiboot2.
From S2P Require Import LinuxBoot.
From S2P Require Import Limine.
From S2P Require Import Net.
Import ListNotations.
#[local] Open Scope list_scope.

(** The results of the PXE stack: [pxe_tftp_read] gives its status and what the
    buffer of the given size holds afterwards. *)
Record pxe_stack := mk_stack {
  pxe_init : Z; pxe_dhcp_discover : Z;
  pxe_get_file_size : bytes -> Z;
  allocate_memory : Z -> bool;
  pxe_tftp_read : bytes -> Z -> Z * bytes
}.

Section Pxe.
Context (e : pxe_stack).

(** The result, [pxe_initialized], and whether [pxe_cleanup] was called. *)
Definition pxe_network_init (initialized : bool) : Z * bool * bool :=
  if initialized then (0, initialized, false)
  else if negb (pxe_init e =? 0) then (-1, initialized, false)
  else if negb (pxe_dhcp_discover e =? 0) then (-1, initialized, true)
  else (0, true, false).

Definition pxe_cleanup_network (initialized : bool) : Z * bool * bool :=
  if initialized then (0, false, true) else (0, initialized, false).

(** The bytes of an allocated buffer of [size] bytes that holds [data]. *)
Definition buffer_of (size : Z) (data : bytes) : bytes :=
  take (Z.to_nat size) (data ++ zeros (size - zlen data)).

(** [allocate_memory] and [pxe_tftp_read] for a file of the given size: the buffer. *)
Definition pxe_fetch (path : bytes) (size : Z) : option bytes :=
  if negb (allocate_memory e size) then None
  else let r := pxe_tftp_read e path size in if fst r =? 0 then Some (buffer_of size (snd r)) else None.

(** [kernel_size]: 1 MB when the reported size is 0xFFFF. *)
Definition pxe_kernel_size (kernel_path : bytes) : Z :=
  let size := u32 (pxe_get_file_size e kernel_path) in if size =? 0xFFFF then 1024 * 1024 else size.

Definition pxe_load_kernel (initialized : bool) (kernel_path : bytes) : option bytes :=
  if negb initialized then None else pxe_fetch kernel_path (pxe_kernel_size kernel_path).

Definition pxe_load_initrd (initialized : bool) (initrd_path : bytes) : option bytes :=
  if negb initialized then None else
  let size := u32 (pxe_get_file_size e initrd_path) in
  if size =? 0xFFFF then None else pxe_fetch initrd_path size.

(** The choice of the protocol. *)
Definition pxe_dispatch (mem : phys) (data : bytes) (initrd cmdline : option bytes) : run loaded :=
  magic ← word data 0;
  if magic =? 0x53726448 then boot_linux_kernel mem data initrd cmdline
  else if magic =? 0x1BADB002 then mret (Mb1.boot_multiboot1_kernel mem data cmdline)
  else if magic =? 0xE85250D6 then mret (Mb2.boot_multiboot2_kernel mem data cmdline)
  else if magic =? 0x67cf3d9d then boot_limine_kernel mem data cmdline
  else mret (-1, None).

(** The result and [pxe_initialized]. *)
Definition pxe_boot_kernel (initialized : bool) (mem : phys) (kernel_path : bytes)
    (initrd_path cmdline : option bytes) : run (loaded * bool) :=
  let '(r, initialized, _) := pxe_network_init initialized in
  if negb (r =? 0) then mret (-1, None, initialized) else
  match pxe_load_kernel initialized kernel_path with
  | None => mret (-1, None, initialized)
  | Some data =>
      match given initrd_path with
      | Some p =>
          match pxe_load_initrd initialized p with
          | None => mret (-1, None, initialized)
          | Some d => r ← pxe_dispatch mem data (Some d) cmdline; mret (r, initialized)
          end
      | None => r ← pxe_dispatch mem data None cmdline; mret (r, initialized)
      end
  end.

End Pxe.

(** ** The echo request *)

Definition sizeof_icmp_echo : Z := 40.

(** The 40 bytes of [req] with the given checksum field. *)
Definition echo_bytes (checksum : Z) : bytes :=
  [8; 0] ++ le_bytes 2 checksum ++ [0x12; 0x34] ++ [0; 1] ++ replicate 32 0xAA.

Definition echo_request : run bytes :=
  c ← icmp_checksum (echo_bytes 0) sizeof_icmp_echo;
  mret (echo_bytes c).

(** [send] is the result of [pxe_udp_send] for the packet, [recv] the result of
    [pxe_udp_recv] and the reply's bytes; [None] is the result -1, otherwise the
    round-trip time, from the clock's values and its rate. *)
Definition pxe_icmp_echo (send : bytes -> Z) (recv : Z * bytes) (start stop clocks_per_sec : Z) : run (option Z) :=
  req ← echo_request;
  if send req <? 0 then mret None
  else if fst recv <? sizeof_icmp_echo then mret None
  else
    let resp := snd recv in
    t ← rd_le resp 0 1; id ← rd_le resp 4 2; seq ← rd_le resp 6 2;
    if negb (t =? 0) || negb (id =? 0x3412) || negb (seq =? 0x0100) then mret None
    else if clocks_per_sec =? 0 then UB
    else mret (Some (s32 (u32 (u32 (stop - start) * 1000) / clocks_per_sec))).

(** ** Properties *)

Lemma network_ready e init : init = true \/ (pxe_init e = 0 /\ pxe_dhcp_discover e = 0) ->
  exists cleaned, pxe_network_init e init = (0, true, cleaned).
Proof.
  intros [->|[H1 H2]]; unfold pxe_network_init; [by eexists|].
  destruct init; [by eexists|]. rewrite H1, H2. by eexists.
Qed.

Lemma multiboot1_memory mem data cmdline : exists m,
  Mb1.boot_multiboot1_kernel mem data cmdline = (0, Some (mk_jump 0x100000 [0x2BADB002; 0x1000] m)) /\
  holds m 0x100000 data /\
  (forall c, given cmdline = Some c -> zlen c < 0xFD000 -> holds m (fetch_le m 0x1010 4) (c ++ [0])).
Proof.
  eexists. split; [reflexivity|]. split; [apply holds_poke|]. intros c E Hc. rewrite E. pose proof (zlen_nonneg c).
  assert (Hl : zlen (c ++ [0]) = zlen c + 1) by (rewrite zlen_app; reflexivity).
  rewrite (fetch_word _ _ 0x2000); [| |done].
  - unfold Mb1.i_cmdline. mem_find.
  - unfold Mb1.i_cmdline. mem_find.
Qed.

Lemma limine_refuses mem data cmdline : 4 <= zlen data -> le_val (sub data 0 4) = 0x67cf3d9d ->
  boot_limine_kernel mem data cmdline = Ret (-1, None).
Proof.
  intros Hl Hm. unfold boot_limine_kernel. rewrite file_part_ok by lia. bind_step.
  rewrite bool_decide_false; [done|]. intros E. by rewrite E in Hm.
Qed.

Lemma zlen_buffer size data : 0 <= size -> zlen (buffer_of size data) = size.
Proof.
  intros Hs. unfold buffer_of, zeros, zlen. rewrite length_take, length_app, length_replicate. lia.
Qed.

Lemma buffer_whole data : buffer_of (zlen data) data = data.
Proof.
  unfold buffer_of. rewrite Z.sub_diag. change (zeros 0) with (@nil Z). rewrite app_nil_r. apply take_ge. unfold zlen. lia.
Qed.

(** The initrd that goes with the kernel, when one is asked for and could be loaded. *)
Definition pxe_initrd (e : pxe_stack) (initrd_path : option bytes) : option bytes :=
  match given initrd_path with Some p => pxe_load_initrd e true p | None => None end.

(** C16. Network boot, with the network up, the kernel's buffer (of the reported size,
    or of 1 MB when 0xFFFF is reported) allocated and filled by a successful
    [pxe_tftp_read]:
    when an initrd is asked for and cannot be loaded the result is -1; otherwise the
    buffer is what is booted.  A file with the Multiboot 1 magic in its first word
    is at 1 MB when it is entered there with the protocol's magic, and finds its
    command line where the information structure says; one with the Multiboot 2
    magic is at 1 MB when it is entered there with that protocol's magic; one with
    the Linux magic goes to the Linux loader, with the initrd; every other file of
    at least four bytes is refused with -1, also one with the Limine magic, because
    the Limine loader demands the ELF magic in the same four bytes; a buffer of
    fewer than four bytes is read past its end. *)
Theorem pxe_boot_functional e init mem path initrd_path cmdline data :
  init = true \/ (pxe_init e = 0 /\ pxe_dhcp_discover e = 0) ->
  let size := pxe_kernel_size e path in
  allocate_memory e size = true -> pxe_tftp_read e path size = (0, data) -> zlen data = size ->
  let r := pxe_boot_kernel e init mem path initrd_path cmdline in
  let initrd := pxe_initrd e initrd_path in
  let magic := le_val (sub data 0 4) in
  (given initrd_path <> None -> initrd = None -> r = Ret (-1, None, true)) /\
  (given initrd_path = None \/ initrd <> None ->
   (size < 4 -> r = UB) /\
   (4 <= size -> magic = 0x1BADB002 -> exists m,
     r = Ret (0, Some (mk_jump 0x100000 [0x2BADB002; 0x1000] m), true) /\ holds m 0x100000 data /\
     (forall c, given cmdline = Some c -> zlen c < 0xFD000 -> holds m (fetch_le m 0x1010 4) (c ++ [0]))) /\
   (4 <= size -> magic = 0xE85250D6 -> exists m,
     r = Ret (0, Some (mk_jump 0x100000 [0x36d76289; 0x1000] m), true) /\ holds m 0x100000 data) /\
   (4 <= size -> magic = HDRS -> r = (x ← boot_linux_kernel mem data initrd cmdline; Ret (x, true))) /\
   (4 <= size -> magic <> 0x1BADB002 -> magic <> 0xE85250D6 -> magic <> HDRS -> r = Ret (-1, None, true))).
Proof.
  intros Hi size Ha Hr Hl. destruct (network_ready e init Hi) as [cl En].
  cbv zeta. unfold pxe_boot_kernel, pxe_initrd. rewrite En. cbn [Z.eqb negb].
  unfold pxe_load_kernel. cbn [negb]. fold size.
  assert (Ef : pxe_fetch e path size = Some data).
  { unfold pxe_fetch. rewrite Ha, Hr. cbn [negb fst snd Z.eqb]. by rewrite <- Hl, buffer_whole. }
  rewrite Ef. split.
  { destruct (given initrd_path) as [p|]; [|done]. intros _ Hn. by rewrite Hn. }
  intros Hd. set (initrd := match given initrd_path with Some p => pxe_load_initrd e true p | None => None end) in *.
  assert (E : match given initrd_path with
      | Some p => match pxe_load_initrd e true p with
                  | Some d => r ← pxe_dispatch mem data (Some d) cmdline; mret (r, true)
                  | None => mret (-1, None, true) end
      | None => r ← pxe_dispatch mem data None cmdline; mret (r, true) end =
    (x ← pxe_dispatch mem data initrd cmdline; Ret (x, true))).
  { subst initrd. destruct (given initrd_path) as [p|]; [|done].
    destruct (pxe_load_initrd e true p); [done|]. by destruct Hd. }
  rewrite E. clear E. clearbody initrd. unfold pxe_dispatch.
  split.
  { intros Hs. unfold word, rd_le. destruct (Z.leb_spec (4 * 0 + 4) (zlen data)); [lia|]. by rewrite andb_false_r. }
  set (magic := le_val (sub data 0 4)).
  assert (Ew : 4 <= size -> word data 0 = Ret magic).
  { intros Hs. rewrite (Mb1.word_ok data 0) by lia. reflexivity. }
  split_and!; intros Hs; rewrite (Ew Hs); bind_step.
  - intros ->. cbn [Z.eqb Pos.eqb]. destruct (multiboot1_memory mem data cmdline) as (m & -> & H). by exists m.
  - intros ->. cbn [Z.eqb Pos.eqb]. unfold Mb2.boot_multiboot2_kernel. cbv zeta.
    destruct (given cmdline); eexists; (split; [reflexivity|apply holds_poke]).
  - intros ->. reflexivity.
  - intros H1 H2 H3. unfold HDRS in H3. rewrite (proj2 (Z.eqb_neq magic 0x53726448)) by done.
    rewrite (proj2 (Z.eqb_neq magic 0x1BADB002)), (proj2 (Z.eqb_neq magic 0xE85250D6)) by done.
    destruct (Z.eqb_spec magic 0x67cf3d9d) as [E|]; [|done]. by rewrite limine_refuses by (done || lia).
Qed.

(** The echo request is a valid ICMP message: its checksum verifies. *)
Theorem echo_request_valid : exists req, echo_request = Ret req /\ zlen req = 40 /\ net_checksum req 40 = Ret 0.
Proof. eexists. split; [vm_compute; reflexivity|]. split; reflexivity. Qed.

(** ** Samples *)

Definition sample_stack (data : bytes) : pxe_stack :=
  mk_stack 0 0 (fun _ => zlen data) (fun _ => true) (fun _ _ => (0, data)).

Lemma pxe_boot_functional_witness :
  exists m, pxe_boot_kernel (sample_stack (le_bytes 4 0x1BADB002 ++ [1; 2; 3])) false Mb1.zero_phys [107] (Some [105]) (Some [113]) =
    Ret (0, Some (mk_jump 0x100000 [0x2BADB002; 0x1000] m), true) /\
    holds m 0x100000 (le_bytes 4 0x1BADB002 ++ [1; 2; 3]).
Proof.
  destruct (pxe_boot_functional (sample_stack (le_bytes 4 0x1BADB002 ++ [1; 2; 3])) false Mb1.zero_phys [107] (Some [105]) (Some [113])
    (le_bytes 4 0x1BADB002 ++ [1; 2; 3])) as [_ H].
  - right. split; reflexivity.
  - reflexivity.
  - reflexivity.
  - reflexivity.
  - destruct H as (_ & H & _); [right; vm_compute; discriminate|].
    destruct H as (m & E & Hm & _); [vm_compute; discriminate|reflexivity|]. exists m. split; [exact E|exact Hm].
Defined.
