(* ===== verification/BootWrappers.v ===== *)
(** * The boot functions of the menu (src/main.c)

    Each entry of [UefiMain]'s menu has a wrapper that calls one of the loaders
    with fixed paths and turns its result into an [EFI_STATUS]; the BloodChain
    wrapper builds the boot structure itself, and the UEFI-shell wrapper starts
    an image.  This file composes the loaders, the PXE stack and the BloodChain
    structure into those wrappers, and the wrappers into the menu's entries. *)

From S2P Require Import Prelude.
From S2P Require Import PhysMem.
From S2P Require Import BootConfig.
From S2P Require Import Menu.
From S2P Require Import BootFlow.
From S2P Require Import BloodChain.
From S2P Require Import Multiboot1.
From S2P Require Import Multiboot2.
From S2P Require Import LinuxBoot.
From S2P Require Import ArchBoot.
From S2P Require Import Chainload.
From S2P Require Import Limine.
From S2P Require Import CString.
From S2P Require Import Pxe.
Import ListNotations.
#[local] Open Scope list_scope.

(** An [int] returned as [EFI_STATUS]: sign-extended to 64 bits. *)
Definition efi_status_of_int (r : Z * option jump) : Z * option jump := (u64 (fst r), snd r).

(** ** Wrappers of the loaders *)

Section Loaders.
(** The files the loaders read, physical memory, and the fuel of the Multiboot2
    tag loop. *)
Context (files : bytes -> option bytes) (mem : phys) (fuel : nat).

Definition root_cmdline : bytes := lit "root=/dev/sda1 ro".

Definition BootLinuxKernelWrapper : run (Z * option jump) :=
  r ← linux_load_kernel files mem (lit "/boot/vmlinuz") (Some (lit "/boot/initrd.img")) (Some root_cmdline);
  mret (efi_status_of_int r).

Definition BootMultiboot2KernelWrapper : run (Z * option jump) :=
  r ← Mb2.multiboot2_load_kernel files fuel mem (lit "/boot/vmlinuz-mb2") (Some root_cmdline);
  mret (efi_status_of_int r).

(** [limine_load_kernel] does not use its command line. *)
Definition BootLimineKernelWrapper : run (Z * option jump) :=
  r ← limine_load_kernel files mem (lit "/boot/vmlinuz-limine"); mret (efi_status_of_int r).

Definition BootChainloadWrapper : run (Z * option jump) :=
  r ← chainload_file files mem (lit "/boot/grub2.bin"); mret (efi_status_of_int r).

Definition BootIa32Wrapper : run (Z * option jump) :=
  r ← ia32_load_kernel files mem (lit "/boot/vmlinuz-ia32") (Some (lit "/boot/initrd-ia32.img")) (Some root_cmdline);
  mret (efi_status_of_int r).

Definition BootX86_64Wrapper : run (Z * option jump) :=
  r ← x86_64_load_kernel files mem (lit "/boot/vmlinuz-x86_64") (Some (lit "/boot/initrd-x86_64.img")) (Some root_cmdline);
  mret (efi_status_of_int r).

Definition BootAarch64Wrapper : run (Z * option jump) :=
  r ← aarch64_load_kernel files mem (lit "/boot/Image-aarch64") (Some (lit "/boot/initrd-aarch64.img")) (Some root_cmdline);
  mret (efi_status_of_int r).

Definition BootRiscv64Wrapper : run (Z * option jump) :=
  r ← riscv64_load_kernel files mem (lit "/boot/Image-riscv64") (Some (lit "/boot/initrd-riscv64.img")) (Some root_cmdline);
  mret (efi_status_of_int r).

Definition BootLoongarch64Wrapper : run (Z * option jump) :=
  r ← loongarch64_load_kernel files mem (lit "/boot/Image-loongarch64") (Some (lit "/boot/initrd-loongarch64.img")) (Some root_cmdline);
  mret (efi_status_of_int r).

End Loaders.

(** ** Network *)

Section Network.
Context (stack : pxe_stack) (mem : phys).

(** The status and [pxe_initialized]. *)
Definition InitializeNetwork (initialized : bool) : Z * bool :=
  let '(rc, initialized, _) := pxe_network_init stack initialized in
  (if rc =? 0 then EFI_SUCCESS else EFI_DEVICE_ERROR, initialized).

Definition ShutdownNetwork (initialized : bool) : bool := snd (fst (pxe_cleanup_network initialized)).

(** The paths are CHAR16 strings of ASCII characters; a path too long for the
    array of 256 is left empty. *)
Definition ascii_path (path : option bytes) : bytes :=
  match path with Some p => if zlen p <? 256 then p else [] | None => [] end.

Definition BootFromNetwork (initialized : bool) (kernel_path initrd_path cmdline : option bytes)
  : run (Z * option jump * bool) :=
  let initrd := match initrd_path with Some _ => Some (ascii_path initrd_path) | None => None end in
  let cmd := match cmdline with Some c => c | None => [] end in
  r ← pxe_boot_kernel stack initialized mem (ascii_path kernel_path) initrd (Some cmd);
  let '(rc, j, initialized) := r in
  mret (if rc =? 0 then EFI_SUCCESS else EFI_LOAD_ERROR, j, initialized).

Definition BootPxeNetworkWrapper (initialized : bool) : run (Z * option jump * bool) :=
  let '(status, initialized) := InitializeNetwork initialized in
  if EFI_ERROR status then mret (status, None, initialized)
  else BootFromNetwork initialized (Some (lit "/boot/kernel.efi")) (Some (lit "/boot/initrd.img"))
         (Some (lit "console=ttyS0")).

End Network.

(** ** Starting an image *)

(** What the firmware answers for the device the loader came from: the loaded
    image and the file system protocols, [OpenVolume], [FileDevicePath],
    [LoadImage] with the buffer, and [StartImage]. *)
Record image_services := mk_images {
  im_loaded_image : Z; im_fs : Z; im_volume : Z + efi_dir; im_device_path : string -> bool;
  im_load : string -> bytes -> Z; im_start : string -> Z
}.

Section Images.
Context (im : image_services).

(** The status, and the image that was started. *)
Definition LoadAndStartImageFromPath (path : string) : run (Z * option bytes) :=
  if EFI_ERROR (im_fs im) then mret (im_fs im, None) else
  match im_volume im with
  | inl status => mret (status, None)
  | inr root =>
      r ← ReadWholeFileAscii root path;
      match r with
      | (status, None) => mret (status, None)
      | (_, Some buffer) =>
          if negb (im_device_path im path) then mret (EFI_OUT_OF_RESOURCES, None) else
          let status := im_load im path buffer in
          if EFI_ERROR status then mret (status, None) else mret (im_start im path, Some buffer)
      end
  end.

Definition shell_candidates : list string :=
  ["\EFI\BOOT\Shell.efi"; "\EFI\tools\Shell.efi"; "\Shell.efi"]%string.

(** The images started on the way are kept in order. *)
Fixpoint try_images (paths : list string) (started : list bytes) : run (Z * list bytes) :=
  match paths with
  | [] => mret (EFI_NOT_FOUND, started)
  | path :: paths =>
      r ← LoadAndStartImageFromPath path;
      let started := match snd r with Some b => started ++ [b] | None => started end in
      if negb (EFI_ERROR (fst r)) then mret (EFI_SUCCESS, started) else try_images paths started
  end.

Definition BootUefiShellWrapper : run (Z * list bytes) :=
  if EFI_ERROR (im_loaded_image im) then mret (im_loaded_image im, [])
  else try_images shell_candidates [].

End Images.

(** The reset the firmware is asked for. *)
Definition ExitToFirmwareWrapper (gCorebootAvailable : bool) : Z * event := (EFI_SUCCESS, EvReset gCorebootAvailable).

(** ** BloodChain *)

Inductive vendor_guid := Acpi20 | Smbios | OtherGuid.
#[export] Instance vendor_guid_eq : EqDecision vendor_guid.
Proof. solve_decision. Defined.

(** [AllocatePages] (a status, or the address and contents of 64 KiB),
    [LoadFileToMemory] (status, address and size; the address is proposed by the
    caller), [FileExists] and [ALIGN_UP], which no file defines, the configuration table, the graphics protocol's frame
    buffer, the SecureBoot variable, the memory map. *)
Record bc_services := mk_bc {
  bc_pages : Z + Z * bytes;
  bc_load : bytes -> Z -> Z * Z * Z;
  bc_exists : bytes -> bool;
  bc_align_up : Z -> Z -> Z;
  bc_tables : list (vendor_guid * Z);
  bc_gop : option Z;
  bc_secure : option Z;
  bc_map : memory_map
}.

(** The wrapper returns, or it enters the kernel with the structure: [left] is
    the map key boot services were left with. *)
Inductive bc_result := BcReturn (status : Z) | BcEnter (entry hdr : Z) (mem : bytes) (left : option Z).

Section BloodChainWrapper.
Context (fw : bc_services).

(** The first table with the GUID. *)
Definition table_with (g : vendor_guid) : option Z :=
  match List.find (fun t => bool_decide (fst t = g)) (bc_tables fw) with Some (_, p) => Some p | None => None end.

(** [GetMemoryMap] twice, then [ExitBootServices], whose status is not used. *)
Definition leave_boot_services : option Z :=
  let m := bc_map fw in
  let status := if (mm_probe m =? EFI_BUFFER_TOO_SMALL) && mm_alloc m then mm_status m else mm_probe m in
  if EFI_ERROR status then None else Some (mm_key m).

(** ACPI, SMBIOS, the frame buffer and the two flags. *)
Definition describe_platform (base : Z) (hdr : option bytes) : run (option bytes) :=
  hdr ← match table_with Acpi20 with
        | Some rsdp => if rsdp =? 0 then mret hdr else bcbp_set_acpi_rsdp base hdr rsdp
        | None => mret hdr
        end;
  hdr ← match table_with Smbios with Some p => bcbp_set_smbios base hdr p | None => mret hdr end;
  hdr ← match bc_gop fw with Some fb => bcbp_set_framebuffer base hdr fb | None => mret hdr end;
  match hdr with
  | None => mret None
  | Some mem =>
      mem ← match bc_secure fw with Some v => store base mem (base + off_secure_boot) 1 v | None => mret mem end;
      mem ← store base mem (base + off_uefi_64bit) 1 1;
      mret (Some mem)
  end.

Definition BootBloodchainWrapper : run bc_result :=
  match bc_pages fw with
  | inl status => mret (BcReturn status)
  | inr (base, pages) =>
      hdr ← bcbp_init base (Some pages) 0x100000 0;
      let '(status, kernel, size) := bc_load fw (lit "kernel.elf") 0x100000 in
      if EFI_ERROR status then mret (BcReturn status) else
      hdr ← bcbp_add_module base hdr kernel size (Some (lit "kernel")) BCBP_MODTYPE_KERNEL (Some root_cmdline);
      hdr ← (if bc_exists fw (lit "initrd.img") then
               let '(status, initrd, isize) := bc_load fw (lit "initrd.img") (u64 (kernel + bc_align_up fw size 0x1000)) in
               if negb (EFI_ERROR status) && (0 <? isize)
               then bcbp_add_module base hdr initrd isize (Some (lit "initrd")) BCBP_MODTYPE_INITRD None
               else mret hdr
             else mret hdr);
      hdr ← describe_platform base hdr;
      v ← bcbp_validate base hdr;
      if negb (v =? 0) then mret (BcReturn EFI_LOAD_ERROR)
      else match hdr with
           | Some m => mret (BcEnter kernel base m leave_boot_services)
           | None => UB
           end
  end.

End BloodChainWrapper.

(** ** The BloodChain wrapper enters the kernel *)

Section Enter.
Context (fw : bc_services) (base : Z).

(** What [describe_platform] puts into the header. *)
Definition platform_of : platform_info :=
  mk_platform (from_option id 0 (table_with fw Acpi20)) (from_option id 0 (table_with fw Smbios))
    (from_option id 0 (bc_gop fw)) (from_option id 0 (bc_secure fw)) 0 1.

Lemma header_magic pf ep bd count tl :
  load base (concat (header_chunks pf base ep bd count ++ tl)) (base + off_magic) 4 = Ret BCBP_MAGIC.
Proof. cbn [app header_chunks]. do_load 0%nat 4%nat; [reflexivity|unfold BCBP_MAGIC; lia]. Qed.

(** A setter on a well-formed header. *)
Lemma set_field_store pf ep bd count tl off v :
  set_field base (Some (concat (header_chunks pf base ep bd count ++ tl))) off v =
  (m ← store base (concat (header_chunks pf base ep bd count ++ tl)) (base + off) 8 v; mret (Some m)).
Proof. unfold set_field. by rewrite header_magic. Qed.

Lemma describe_layout ep bd count tl :
  describe_platform fw base (Some (concat (header_chunks no_platform base ep bd count ++ tl))) =
  Ret (Some (concat (header_chunks platform_of base ep bd count ++ tl))).
Proof.
  unfold describe_platform, platform_of.
  set (acpi := from_option id 0 (table_with fw Acpi20)). set (smb := from_option id 0 (table_with fw Smbios)).
  set (fb := from_option id 0 (bc_gop fw)). set (sec := from_option id 0 (bc_secure fw)).
  assert (E1 : match table_with fw Acpi20 with
        | Some rsdp => if rsdp =? 0 then mret (Some (concat (header_chunks no_platform base ep bd count ++ tl)))
                       else bcbp_set_acpi_rsdp base (Some (concat (header_chunks no_platform base ep bd count ++ tl))) rsdp
        | None => mret (Some (concat (header_chunks no_platform base ep bd count ++ tl))) end =
     Ret (Some (concat (header_chunks (mk_platform acpi 0 0 0 0 0) base ep bd count ++ tl)))).
  { unfold acpi. destruct (table_with fw Acpi20) as [r|]; [|done]. cbn [from_option].
    destruct (Z.eqb_spec r 0) as [->|]; [done|]. unfold bcbp_set_acpi_rsdp. rewrite set_field_store.
    cbn [header_chunks app]. do_store 5%nat. done. }
  rewrite E1. bind_step. clear E1.
  assert (E2 : match table_with fw Smbios with
        | Some p => bcbp_set_smbios base (Some (concat (header_chunks (mk_platform acpi 0 0 0 0 0) base ep bd count ++ tl))) p
        | None => mret (Some (concat (header_chunks (mk_platform acpi 0 0 0 0 0) base ep bd count ++ tl))) end =
     Ret (Some (concat (header_chunks (mk_platform acpi smb 0 0 0 0) base ep bd count ++ tl)))).
  { unfold smb. destruct (table_with fw Smbios) as [r|]; [|done]. cbn [from_option].
    unfold bcbp_set_smbios. rewrite set_field_store. cbn [header_chunks app]. do_store 6%nat. done. }
  rewrite E2. bind_step. clear E2.
  assert (E3 : match bc_gop fw with
        | Some p => bcbp_set_framebuffer base (Some (concat (header_chunks (mk_platform acpi smb 0 0 0 0) base ep bd count ++ tl))) p
        | None => mret (Some (concat (header_chunks (mk_platform acpi smb 0 0 0 0) base ep bd count ++ tl))) end =
     Ret (Some (concat (header_chunks (mk_platform acpi smb fb 0 0 0) base ep bd count ++ tl)))).
  { unfold fb. destruct (bc_gop fw) as [r|]; [|done]. cbn [from_option].
    unfold bcbp_set_framebuffer. rewrite set_field_store. cbn [header_chunks app]. do_store 7%nat. done. }
  rewrite E3. bind_step. clear E3.
  assert (E4 : match bc_secure fw with
        | Some v => store base (concat (header_chunks (mk_platform acpi smb fb 0 0 0) base ep bd count ++ tl)) (base + off_secure_boot) 1 v
        | None => mret (concat (header_chunks (mk_platform acpi smb fb 0 0 0) base ep bd count ++ tl)) end =
     Ret (concat (header_chunks (mk_platform acpi smb fb sec 0 0) base ep bd count ++ tl))).
  { unfold sec. destruct (bc_secure fw) as [r|]; [|done]. cbn [from_option].
    cbn [header_chunks app]. do_store 10%nat. done. }
  rewrite E4. bind_step. cbn [header_chunks app]. do_store 12%nat. done.
Qed.
End Enter.

(** A file system in which the initrd is missing, cannot be loaded, or is empty. *)
Definition no_initrd (fw : bc_services) (kernel size : Z) : Prop :=
  bc_exists fw (lit "initrd.img") = true ->
  let '(status, _, isize) := bc_load fw (lit "initrd.img") (u64 (kernel + bc_align_up fw size 0x1000)) in
  EFI_ERROR status = true \/ isize <= 0.

(** C27. The BloodChain entry of the menu, without an initrd: with memory for the
    structure and a kernel that loads, the wrapper enters the kernel where it was
    loaded, with a structure that validates, in which the module "kernel" is the
    loaded kernel with the fixed command line, and whose header holds the ACPI,
    SMBIOS and frame buffer addresses of the firmware.  Boot services have been
    left exactly when the memory map could be read. *)
Theorem boot_bloodchain_functional fw base pages kernel size :
  bc_pages fw = inr (base, pages) -> zlen pages = 0x10000 -> 0 < base -> base + 0x10000 < 2 ^ 64 ->
  bc_load fw (lit "kernel.elf") 0x100000 = (EFI_SUCCESS, kernel, size) -> in_u 64 kernel -> 0 < size < 2 ^ 64 ->
  no_initrd fw kernel size ->
  in_u 64 (from_option id 0 (table_with fw Acpi20)) -> in_u 64 (from_option id 0 (table_with fw Smbios)) ->
  in_u 64 (from_option id 0 (bc_gop fw)) ->
  let md := base + BCBP_HEADER_SIZE in
  exists m, BootBloodchainWrapper fw = Ret (BcEnter kernel base m (leave_boot_services fw)) /\
    bcbp_validate base (Some m) = Ret 0 /\
    bcbp_find_module base (Some m) (Some (lit "kernel")) = Ret (Some md) /\
    load base m (md + mod_start) 8 = Ret kernel /\ load base m (md + mod_size) 8 = Ret size /\
    (exists tl, string_at base m (base + 184) = lit "kernel" ++ 0 :: root_cmdline ++ 0 :: tl) /\
    load base m (base + off_acpi_rsdp) 8 = Ret (from_option id 0 (table_with fw Acpi20)) /\
    load base m (base + off_smbios) 8 = Ret (from_option id 0 (table_with fw Smbios)) /\
    load base m (base + off_framebuffer) 8 = Ret (from_option id 0 (bc_gop fw)).
Proof.
  intros Hp Hl Hb Hw Hk Hka Hks Hi Ha Hs Hf md. unfold BootBloodchainWrapper. rewrite Hp.
  rewrite bcbp_init_layout by (unfold BCBP_HEADER_SIZE; lia). bind_step. rewrite Hk. cbv beta iota.
  change (EFI_ERROR EFI_SUCCESS) with false. cbv iota. rewrite add_module_guard by lia.
  assert (Z1 : zlen (lit "kernel") = 6) by reflexivity. assert (Z2 : zlen root_cmdline = 17) by reflexivity.
  destruct (add_first no_platform base 0x100000 0 Hb pages kernel size BCBP_MODTYPE_KERNEL (lit "kernel") root_cmdline)
    as (res & rest & -> & Hres & Hrest); [done|lia|lia|]. bind_step.
  assert (Ei : forall h, (if bc_exists fw (lit "initrd.img") then
      let '(status, initrd, isize) := bc_load fw (lit "initrd.img") (u64 (kernel + bc_align_up fw size 0x1000)) in
      if negb (EFI_ERROR status) && (0 <? isize)
      then bcbp_add_module base h initrd isize (Some (lit "initrd")) BCBP_MODTYPE_INITRD None else mret h
      else mret h) = Ret h).
  { intros h. revert Hi. unfold no_initrd. destruct (bc_exists fw (lit "initrd.img")); [|done].
    intros Hi. specialize (Hi eq_refl). revert Hi. destruct (bc_load fw (lit "initrd.img") _) as [[st a] n].
    intros [->|Hn]; [done|].
    by rewrite (proj2 (Z.ltb_ge _ _)), andb_false_r by lia. }
  rewrite Ei. bind_step. unfold one_module at 1. rewrite describe_layout. bind_step.
  fold (one_module (platform_of fw) base 0x100000 0 kernel size BCBP_MODTYPE_KERNEL (lit "kernel") root_cmdline res rest).
  assert (Hn : no_nul (lit "kernel") /\ no_nul root_cmdline) by (split; unfold no_nul; vm_compute; repeat constructor; discriminate).
  rewrite one_validate by (try apply Hn; unfold BCBP_MODTYPE_KERNEL; done || lia). bind_step. cbn [Z.eqb negb].
  eexists. split; [reflexivity|].
  split; [apply one_validate; (try apply Hn; unfold BCBP_MODTYPE_KERNEL; done || lia)|].
  split; [apply one_find; (try apply Hn; unfold BCBP_MODTYPE_KERNEL; done || lia)|].
  destruct (one_module_strings (platform_of fw) base 0x100000 0 kernel size BCBP_MODTYPE_KERNEL (lit "kernel") root_cmdline res rest Hres) as [S1 _].
  unfold in_u in *. subst md.
  split_and!; [..|by eexists| | |]; unfold one_module; cbn [app header_chunks module_chunks].
  - do_load 14%nat 8%nat; [reflexivity|change (256 ^ 8) with (2 ^ 64); lia].
  - do_load 15%nat 8%nat; [reflexivity|change (256 ^ 8) with (2 ^ 64); lia].
  - do_load 5%nat 8%nat; [reflexivity|change (256 ^ 8) with (2 ^ 64); cbn [platform_of p_acpi]; lia].
  - do_load 6%nat 8%nat; [reflexivity|change (256 ^ 8) with (2 ^ 64); cbn [platform_of p_smbios]; lia].
  - do_load 7%nat 8%nat; [reflexivity|change (256 ^ 8) with (2 ^ 64); cbn [platform_of p_fb]; lia].
Qed.

(** ** The wrapper with an initrd *)

Section TwoLoaded.
Context (pf : platform_info) (base kernel size start2 size2 : Z) (reserved gap rest : bytes).
Let m := concat (two_modules pf base 0x100000 0 kernel size BCBP_MODTYPE_KERNEL (base + 191) reserved
                   start2 size2 BCBP_MODTYPE_INITRD (base + 224) (lit "initrd") gap rest).
Hypothesis (Hb : 0 < base) (Hw : base + 0x10000 < 2 ^ 64) (Hres : zlen reserved = 7) (Hgap : zlen gap = 7).
Hypothesis (Hstart : start2 mod 256 = 0) (Hs56 : 0 <= start2 < 2 ^ 56).

(** The strings: the kernel's name and command line now lie in the bytes of the
    initrd's address. *)
Lemma loaded_strings :
  (exists t, string_at base m (base + 184) = 0 :: t) /\ (exists t, string_at base m (base + 191) = 0 :: t) /\
  string_at base m (base + 224) = lit "initrd" ++ 0 :: rest.
Proof.
  destruct (two_strings pf base 0x100000 0 kernel size BCBP_MODTYPE_KERNEL (base + 191) reserved start2 size2
    BCBP_MODTYPE_INITRD (base + 224) (lit "initrd") gap rest) as [[tl S1] S2]; [lia..|].
  fold m in S1, S2. split_and!; [| |done].
  - exists (le_bytes 7 (start2 / 256) ++ tl). rewrite S1. cbn [le_bytes app]. by rewrite Hstart.
  - exists tl. transitivity (drop 7 (string_at base m (base + 184))).
    + unfold string_at. rewrite drop_drop. f_equal. lia.
    + rewrite S1. cbn [le_bytes app drop]. f_equal. dlia.
Qed.

Ltac two_load k n :=
  unfold m, two_modules; cbn [app header_chunks module_chunks];
  do_load k n; [reflexivity|change (256 ^ 8) with (2 ^ 64);
    unfold BCBP_HEADER_SIZE, BCBP_MAGIC, BCBP_VERSION, BCBP_MODTYPE_KERNEL, BCBP_MODTYPE_INITRD in *; lia].

Lemma two_magic : load base m (base + off_magic) 4 = Ret BCBP_MAGIC.
Proof. two_load 0%nat 4%nat. Qed.
Lemma two_version : load base m (base + off_version) 4 = Ret BCBP_VERSION.
Proof. two_load 1%nat 4%nat. Qed.
Lemma two_count : load base m (base + off_module_count) 8 = Ret 2.
Proof. two_load 8%nat 8%nat. Qed.
Lemma two_mods : load base m (base + off_modules) 8 = Ret (base + BCBP_HEADER_SIZE).
Proof. two_load 9%nat 8%nat. Qed.
Lemma two_cmd1 : load base m (base + BCBP_HEADER_SIZE + 0 * BCBP_MODULE_SIZE + mod_cmdline) 8 = Ret (base + 191).
Proof. two_load 16%nat 8%nat. Qed.
Lemma two_name1 : load base m (base + BCBP_HEADER_SIZE + 0 * BCBP_MODULE_SIZE + mod_name) 8 = Ret (base + 184).
Proof. two_load 17%nat 8%nat. Qed.
Lemma two_type1 : load base m (base + BCBP_HEADER_SIZE + 0 * BCBP_MODULE_SIZE + mod_type) 1 = Ret BCBP_MODTYPE_KERNEL.
Proof. two_load 18%nat 1%nat. Qed.
Lemma two_cmd2 : load base m (base + BCBP_HEADER_SIZE + (0 + 1) * BCBP_MODULE_SIZE + mod_cmdline) 8 = Ret 0.
Proof. two_load 22%nat 8%nat. Qed.
Lemma two_name2 : load base m (base + BCBP_HEADER_SIZE + (0 + 1) * BCBP_MODULE_SIZE + mod_name) 8 = Ret (base + 224).
Proof. two_load 23%nat 8%nat. Qed.
Lemma two_type2 : load base m (base + BCBP_HEADER_SIZE + (0 + 1) * BCBP_MODULE_SIZE + mod_type) 1 = Ret BCBP_MODTYPE_INITRD.
Proof. two_load 24%nat 1%nat. Qed.

Lemma initrd_no_nul : no_nul (lit "initrd").
Proof. unfold no_nul. vm_compute. repeat constructor; discriminate. Qed.

Lemma two_strlens : strlen_at base m (base + 184) = Ret 0 /\ strlen_at base m (base + 191) = Ret 0 /\
  strlen_at base m (base + 224) = Ret 6.
Proof.
  destruct loaded_strings as ((t1 & E1) & (t2 & E2) & E3). unfold strlen_at, string_at in *.
  rewrite E1, E2, E3, (strlen_string (lit "initrd") rest initrd_no_nul).
  rewrite !(proj2 (Z.ltb_ge _ base)) by lia. done.
Qed.

Lemma two_required : calculate_required_memory base m = Ret 233.
Proof.
  destruct two_strlens as (L1 & L2 & L3). unfold calculate_required_memory.
  rewrite two_magic; bind_step. rewrite Z.eqb_refl. cbn [negb].
  rewrite two_mods; bind_step. rewrite two_count; bind_step.
  change (Z.to_nat 2) with 2%nat. cbn [required_loop]. unfold add_strlen.
  rewrite two_name1; bind_step. rewrite (proj2 (Z.eqb_neq (base + 184) 0)) by lia. rewrite L1; bind_step.
  rewrite two_cmd1; bind_step. rewrite (proj2 (Z.eqb_neq (base + 191) 0)) by lia. rewrite L2; bind_step.
  rewrite two_name2; bind_step. rewrite (proj2 (Z.eqb_neq (base + 224) 0)) by lia. rewrite L3; bind_step.
  rewrite two_cmd2; bind_step. done.
Qed.

Lemma check_ok p s t max bad long : base + 184 <= p < base + 233 -> string_at base m p = s ++ 0 :: t -> no_nul s ->
  zlen s < max -> check_string base m p max bad long = Ret 0.
Proof.
  intros Hp Es Hs Hm. unfold check_string. pose proof (zlen_nonneg s).
  rewrite (proj2 (Z.eqb_neq p 0)), (proj2 (Z.ltb_ge p base)), two_required by lia. bind_step.
  rewrite (proj2 (Z.leb_gt _ _)), Es, strnlen_string by (done || (unfold zlen in *; lia)). bind_step.
  by rewrite (proj2 (Z.eqb_neq _ _)) by lia.
Qed.

Lemma two_validate : bcbp_validate base (Some m) = Ret 0.
Proof.
  destruct loaded_strings as ((t1 & E1) & (t2 & E2) & E3).
  unfold bcbp_validate. rewrite two_magic; bind_step. rewrite Z.eqb_refl. cbn [negb].
  rewrite two_version; bind_step. change (_ <? BCBP_VERSION >>> 16) with false. cbv iota.
  rewrite two_count; bind_step. change (1024 <? 2) with false. change (0 <? 2) with true. cbv iota.
  rewrite two_mods; bind_step. rewrite two_required; bind_step.
  rewrite (proj2 (Z.leb_gt (base + BCBP_HEADER_SIZE) base)) by (unfold BCBP_HEADER_SIZE; lia).
  rewrite (proj2 (Z.leb_gt (base + _) _)) by (unfold BCBP_HEADER_SIZE; lia).
  change (Z.to_nat 2) with 2%nat. cbn [validate_loop].
  rewrite two_type1; bind_step. change ((BCBP_MODTYPE_KERNEL <? _) || _) with false. cbv iota.
  rewrite two_name1; bind_step. rewrite (check_ok _ [] t1) by (done || lia || constructor). bind_step. cbn [Z.eqb negb].
  rewrite two_cmd1; bind_step. rewrite (check_ok _ [] t2) by (done || lia || constructor). bind_step. cbn [Z.eqb negb].
  rewrite two_type2; bind_step. change ((BCBP_MODTYPE_INITRD <? _) || _) with false. cbv iota.
  rewrite two_name2; bind_step. rewrite (check_ok _ (lit "initrd") rest) by (done || lia || apply initrd_no_nul). bind_step. cbn [Z.eqb negb].
  rewrite two_cmd2; bind_step. done.
Qed.
End TwoLoaded.

Lemma kernel_no_nul : no_nul (lit "kernel").
Proof. unfold no_nul. vm_compute. repeat constructor; discriminate. Qed.
Lemma cmdline_no_nul : no_nul root_cmdline.
Proof. unfold no_nul. vm_compute. repeat constructor; discriminate. Qed.

(** A machine with ACPI tables, a frame buffer, a kernel, and possibly an initrd. *)
Definition bc_sample (initrd : bool) : bc_services :=
  mk_bc (inr (0x4000000, zeros 0x10000))
    (fun path addr => (EFI_SUCCESS, addr, if bool_decide (path = lit "kernel.elf") then 0x5000 else 0x9000))
    (fun _ => initrd) (fun size _ => size) [(OtherGuid, 1); (Acpi20, 0xE0000)] (Some 0x80000000) (Some 1)
    (mk_map EFI_BUFFER_TOO_SMALL true EFI_SUCCESS [] 48 77).

(** With an initrd at a page boundary below 2^56 the wrapper enters the kernel as
    well, but with a structure in which the kernel module has lost its name and
    its command line: the initrd's descriptor lies over them, the validator does
    not notice, and looking up "kernel" finds nothing. *)
Theorem boot_bloodchain_initrd fw base pages kernel size initrd isize :
  bc_pages fw = inr (base, pages) -> zlen pages = 0x10000 -> 0 < base -> base + 0x10000 < 2 ^ 64 ->
  bc_load fw (lit "kernel.elf") 0x100000 = (EFI_SUCCESS, kernel, size) -> 0 < size ->
  bc_exists fw (lit "initrd.img") = true ->
  bc_load fw (lit "initrd.img") (u64 (kernel + bc_align_up fw size 0x1000)) = (EFI_SUCCESS, initrd, isize) ->
  0 < isize -> 0 <= initrd < 2 ^ 56 -> initrd mod 0x1000 = 0 ->
  exists m, BootBloodchainWrapper fw = Ret (BcEnter kernel base m (leave_boot_services fw)) /\
    bcbp_find_module base (Some m) (Some (lit "kernel")) = Ret None /\
    strlen_at base m (base + 184) = Ret 0 /\ strlen_at base m (base + 191) = Ret 0.
Proof.
  intros Hp Hl Hb Hw Hk Hks He Hi His Hia Hal. unfold BootBloodchainWrapper. rewrite Hp.
  rewrite bcbp_init_layout by (unfold BCBP_HEADER_SIZE; lia). bind_step. rewrite Hk. cbv beta iota.
  change (EFI_ERROR EFI_SUCCESS) with false. cbv iota. rewrite add_module_guard by lia.
  assert (Z1 : zlen (lit "kernel") = 6) by reflexivity. assert (Z2 : zlen root_cmdline = 17) by reflexivity.
  assert (Z3 : zlen (lit "initrd") = 6) by reflexivity.
  destruct (add_first no_platform base 0x100000 0 Hb pages kernel size BCBP_MODTYPE_KERNEL (lit "kernel") root_cmdline)
    as (res & rest & -> & Hres & Hrest); [done|lia|lia|]. bind_step.
  rewrite He, Hi. cbv beta iota. change (negb (EFI_ERROR EFI_SUCCESS)) with true.
  rewrite (proj2 (Z.ltb_lt _ _)) by lia. cbn [andb].
  unfold one_module at 1. rewrite add_module_guard by lia.
  fold (one_module no_platform base 0x100000 0 kernel size BCBP_MODTYPE_KERNEL (lit "kernel") root_cmdline res rest).
  assert (Es : second_string base (lit "kernel") root_cmdline = base + 224) by (unfold second_string; lia).
  destruct (add_second no_platform base 0x100000 0 kernel size BCBP_MODTYPE_KERNEL (lit "kernel") root_cmdline res rest
    Hb Hres kernel_no_nul cmdline_no_nul initrd isize BCBP_MODTYPE_INITRD (lit "initrd")) as (gap & rest2 & -> & Hgap).
  { rewrite !zlen_app, Es. change (zlen [0]) with 1. lia. }
  { rewrite !zlen_app. change (zlen [0]) with 1. lia. }
  bind_step. rewrite Es in Hgap |- *. replace (base + 185 + zlen (lit "kernel")) with (base + 191) by lia.
  unfold two_modules at 1. rewrite describe_layout. bind_step.
  fold (two_modules (platform_of fw) base 0x100000 0 kernel size BCBP_MODTYPE_KERNEL (base + 191) res initrd isize
    BCBP_MODTYPE_INITRD (base + 224) (lit "initrd") gap rest2).
  assert (H256 : initrd mod 256 = 0) by dlia.
  rewrite two_validate by (done || lia). bind_step. cbn [Z.eqb negb]. eexists. split; [reflexivity|].
  destruct (two_strlens (platform_of fw) base kernel size initrd isize res gap rest2) as (L1 & L2 & _); [done || lia..|].
  split_and!; [|done|done]. rewrite two_find_loop; [|done || lia..|apply kernel_no_nul|apply initrd_no_nul|done|done].
  done.
Qed.

Lemma boot_bloodchain_functional_witness :
  exists m, BootBloodchainWrapper (bc_sample false) =
    Ret (BcEnter 0x100000 0x4000000 m (leave_boot_services (bc_sample false))) /\
    bcbp_find_module 0x4000000 (Some m) (Some (lit "kernel")) = Ret (Some (0x4000000 + BCBP_HEADER_SIZE)).
Proof.
  destruct (boot_bloodchain_functional (bc_sample false) 0x4000000 (zeros 0x10000) 0x100000 0x5000)
    as (m & E & _ & F & _).
  - reflexivity.
  - apply zlen_zeros. lia.
  - lia.
  - lia.
  - reflexivity.
  - unfold in_u. lia.
  - lia.
  - intros H. discriminate H.
  - change (from_option id 0 _) with 0xE0000. unfold in_u. lia.
  - change (from_option id 0 _) with 0. unfold in_u. lia.
  - change (from_option id 0 _) with 0x80000000. unfold in_u. lia.
  - exists m. split; [exact E|exact F].
Defined.

Lemma boot_bloodchain_initrd_witness :
  exists m, BootBloodchainWrapper (bc_sample true) =
    Ret (BcEnter 0x100000 0x4000000 m (leave_boot_services (bc_sample true))) /\
    bcbp_find_module 0x4000000 (Some m) (Some (lit "kernel")) = Ret None.
Proof.
  destruct (boot_bloodchain_initrd (bc_sample true) 0x4000000 (zeros 0x10000) 0x100000 0x5000 0x105000 0x9000)
    as (m & E & F & _).
  - reflexivity.
  - apply zlen_zeros. lia.
  - lia.
  - lia.
  - reflexivity.
  - lia.
  - reflexivity.
  - reflexivity.
  - lia.
  - lia.
  - reflexivity.
  - exists m. split; [exact E|exact F].
Defined.

(** ** The other wrappers *)

(** A loader that cannot read its kernel returns -1, and the wrapper's status is
    an error, so [UefiMain] reports it: no file, no jump. *)
Theorem missing_kernel_is_error files mem fuel :
  (forall path, files path = None) ->
  Forall (fun w => w = Ret (2 ^ 64 - 1, None) /\ EFI_ERROR (2 ^ 64 - 1) = true)
    [BootLinuxKernelWrapper files mem; BootMultiboot2KernelWrapper files mem fuel; BootLimineKernelWrapper files mem;
     BootChainloadWrapper files mem; BootIa32Wrapper files mem; BootX86_64Wrapper files mem;
     BootAarch64Wrapper files mem; BootRiscv64Wrapper files mem; BootLoongarch64Wrapper files mem].
Proof.
  intros Hf. repeat constructor.
  - unfold BootLinuxKernelWrapper, linux_load_kernel. by rewrite Hf.
  - unfold BootMultiboot2KernelWrapper, Mb2.multiboot2_load_kernel. by rewrite Hf.
  - unfold BootLimineKernelWrapper, limine_load_kernel. by rewrite Hf.
  - unfold BootChainloadWrapper, chainload_file. by rewrite Hf.
  - unfold BootIa32Wrapper, ia32_load_kernel. by rewrite Hf.
  - unfold BootX86_64Wrapper, x86_64_load_kernel. by rewrite Hf.
  - unfold BootAarch64Wrapper, aarch64_load_kernel, load_arch64. by rewrite Hf.
  - unfold BootRiscv64Wrapper, riscv64_load_kernel, load_arch64. by rewrite Hf.
  - unfold BootLoongarch64Wrapper, loongarch64_load_kernel, load_arch64. by rewrite Hf.
Qed.

(** A file that opens and reads without an error. *)
Definition readable (r : Z + efi_file) (data : bytes) : Prop :=
  exists f, r = inr f /\ f_info_probe f = EFI_BUFFER_TOO_SMALL /\ f_info_alloc f = true /\
    EFI_ERROR (f_info_status f) = false /\ f_buf_alloc f = true /\ EFI_ERROR (f_read_status f) = false /\
    zlen (f_data f) <= f_size f /\ f_data f = data.

Lemma read_present dir path data : readable (dir path) data ->
  ReadWholeFileAscii dir path = Ret (EFI_SUCCESS, Some data).
Proof.
  intros (f & E & H1 & H2 & H3 & H4 & H5 & H6 & <-). unfold ReadWholeFileAscii.
  rewrite E, H1, H2, H3, H4, H5. cbn [negb]. rewrite Z.eqb_refl. by rewrite (proj2 (Z.ltb_ge _ _)) by lia.
Qed.

Lemma try_missing im dir paths rest started : im_volume im = inr dir -> EFI_ERROR (im_fs im) = false ->
  Forall (fun q => exists e, dir q = inl e /\ EFI_ERROR e = true) paths ->
  try_images im (paths ++ rest) started = try_images im rest started.
Proof.
  intros Hv Hfs H. induction H as [|q paths (e & Hq & He) _ IH]; [done|]. cbn [app try_images].
  unfold LoadAndStartImageFromPath, ReadWholeFileAscii. rewrite Hv, Hfs, Hq. bind_step. cbn [fst snd]. by rewrite He.
Qed.

(** The UEFI-shell entry starts the first of the three candidates that exists,
    with the bytes of its file, and reports success when it does; when none
    exists it reports that, with nothing started. *)
Theorem uefi_shell_first im dir before path after data :
  EFI_ERROR (im_loaded_image im) = false -> EFI_ERROR (im_fs im) = false -> im_volume im = inr dir ->
  shell_candidates = before ++ path :: after ->
  Forall (fun q => exists e, dir q = inl e /\ EFI_ERROR e = true) before ->
  readable (dir path) data -> im_device_path im path = true -> EFI_ERROR (im_load im path data) = false ->
  EFI_ERROR (im_start im path) = false ->
  BootUefiShellWrapper im = Ret (EFI_SUCCESS, [data]).
Proof.
  intros Hi Hfs Hv Hc Hb Hr Hd Hl Hst. unfold BootUefiShellWrapper. rewrite Hi, Hc, (try_missing im dir) by done.
  cbn [try_images]. unfold LoadAndStartImageFromPath. rewrite Hv, Hfs, (read_present _ _ _ Hr). bind_step.
  rewrite Hd, Hl. cbn [negb]. bind_step. cbn [fst snd]. by rewrite Hst.
Qed.

(** The PXE entry of the menu: when the network comes up and the kernel and the
    initrd are downloaded, a Multiboot kernel is entered at 1 MB with the bytes
    that were downloaded and the fixed command line where the information
    structure says, and success is reported. *)
Theorem boot_pxe_functional stack mem kdata idata :
  let kpath := lit "/boot/kernel.efi" in let ipath := lit "/boot/initrd.img" in
  pxe_init stack = 0 -> pxe_dhcp_discover stack = 0 ->
  pxe_load_kernel stack true kpath = Some kdata -> pxe_load_initrd stack true ipath = Some idata ->
  4 <= zlen kdata -> le_val (sub kdata 0 4) = 0x1BADB002 ->
  exists m, BootPxeNetworkWrapper stack mem false = Ret (EFI_SUCCESS, Some (mk_jump 0x100000 [0x2BADB002; 0x1000] m), true) /\
    holds m 0x100000 kdata /\ holds m (fetch_le m 0x1010 4) (lit "console=ttyS0" ++ [0]).
Proof.
  intros kpath ipath H1 H2 Hk Hi Hl Hm.
  unfold BootPxeNetworkWrapper, InitializeNetwork, pxe_network_init. rewrite H1, H2. cbn [Z.eqb negb].
  change (EFI_ERROR EFI_SUCCESS) with false. cbv iota. unfold BootFromNetwork, ascii_path.
  change (zlen (lit "/boot/kernel.efi") <? 256) with true. change (zlen (lit "/boot/initrd.img") <? 256) with true. cbv iota.
  unfold pxe_boot_kernel, pxe_network_init. cbn [Z.eqb negb]. fold kpath ipath. rewrite Hk.
  change (given (Some ipath)) with (Some ipath). cbv iota. rewrite Hi.
  unfold pxe_dispatch. rewrite (Multiboot1.Mb1.word_ok kdata 0) by lia. change (4 * 0) with 0. bind_step. rewrite Hm.
  cbn [Z.eqb Pos.eqb].
  destruct (multiboot1_memory mem kdata (Some (lit "console=ttyS0"))) as (m & -> & Hh & Hc). bind_step. cbn [Z.eqb].
  exists m. split; [done|]. split; [done|]. by apply Hc.
Qed.
