(* ===== verification/Tables.v ===== *)
(** * Registries (src/plugins, src/scripting/script_api.c, script_env.c,
      script_loader.c, src/recovery/shell_history.c)

    The fixed-size tables of the program: the plugin registry, the loaded shared
    objects, the C functions offered to scripts, the script environment and the
    shell's history.  [table_add] and [table_find] are their common shape; the
    array and its counter are one list, never longer than the array.  [dlopen],
    [dlsym] and [load_file] are parameters. *)

From S2P Require Import Prelude.
From S2P Require Import BootConfig.
From S2P Require Import CString.
Import ListNotations.
#[local] Open Scope list_scope.

Section Table.
Context {A : Type} (name_of : A -> bytes) (capacity : Z).

(** [if (count < CAPACITY) { table[count++] = x; return 0; } return -1;] *)
Definition table_add (t : list A) (x : A) : Z * list A :=
  if zlen t <? capacity then (0, t ++ [x]) else (-1, t).

(** The first entry whose name compares equal. *)
Definition table_find (t : list A) (name : bytes) : option A :=
  List.find (fun x => bool_decide (name_of x = name)) t.

(** ** The shape's invariant and laws *)

Definition table_wf (limit : Z) (t : list A) : Prop :=
  zlen t <= capacity /\ Forall (fun x => zlen (name_of x) <= limit) t.

Lemma table_add_wf limit t x : table_wf limit t -> zlen (name_of x) <= limit ->
  table_wf limit (snd (table_add t x)).
Proof.
  intros [Hl Hn] Hx. unfold table_add. destruct (Z.ltb_spec (zlen t) capacity); [|by split].
  cbn [snd]. split; [rewrite zlen_app; unfold zlen in *; cbn [length]; lia|].
  apply Forall_app. split; [done|]. by repeat constructor.
Qed.

Lemma find_snoc (p : A -> bool) t x :
  List.find p (t ++ [x]) = match List.find p t with Some y => Some y | None => if p x then Some x else None end.
Proof. induction t as [|y t IH]; [done|]. cbn [List.find app]. by destruct (p y). Qed.

Lemma table_find_add t x name : zlen t < capacity ->
  table_find (snd (table_add t x)) name =
  match table_find t name with Some y => Some y | None => if bool_decide (name_of x = name) then Some x else None end.
Proof.
  intros Hl. unfold table_add. rewrite (proj2 (Z.ltb_lt _ _)) by done. cbn [snd]. unfold table_find.
  apply find_snoc.
Qed.

Lemma table_find_in t name x : table_find t name = Some x -> In x t /\ name_of x = name.
Proof.
  unfold table_find. intros H. apply List.find_some in H as [Hi Hb]. split; [done|].
  by apply bool_decide_eq_true in Hb.
Qed.

End Table.

(** ** The plugin registry (plugin_registry.c, plugin_loader.c) *)

Record plugin_entry := mk_entry { pe_name : bytes; pe_data : bytes; pe_size : Z }.

Definition plugin_registry_register (t : list plugin_entry) (name data : bytes) (size : Z)
  : Z * list plugin_entry :=
  table_add 16 t (mk_entry (strncpy 63 name) data size).

Definition plugin_registry_find (t : list plugin_entry) (name : bytes) : option (bytes * Z) :=
  match table_find pe_name t name with Some x => Some (pe_data x, pe_size x) | None => None end.

Definition plugin_loader_load (load_file : bytes -> option bytes) (t : list plugin_entry) (path : bytes)
  : Z * list plugin_entry :=
  match load_file path with
  | None => (-1, t)
  | Some data => plugin_registry_register t path data (zlen data)
  end.

(** ** C functions for scripts (script_api.c) *)

Record cfunc := mk_cfunc { cf_name : bytes; cf_fn : Z }.

Definition script_api_register (t : list cfunc) (name : bytes) (fn : Z) : Z * list cfunc :=
  table_add 16 t (mk_cfunc (strncpy 31 name) fn).

Definition script_api_lookup (t : list cfunc) (name : bytes) : option Z :=
  match table_find cf_name t name with Some x => Some (cf_fn x) | None => None end.

(** ** The script environment (script_env.c) *)

(** [snprintf(env[i], 64, "%s=%s", key, value)] *)
Definition script_env_set (env : list bytes) (key value : bytes) : Z * list bytes :=
  table_add 16 env (snprintf_s 64 (key ++ 61 :: value)).

(** [strncmp(e, key, eq - e) == 0]: what precedes the '=' starts the key asked for. *)
Definition env_value (key e : bytes) : option bytes :=
  match split_at 61 e with
  | Some (k, v) => if prefix_of k key then Some v else None
  | None => None
  end.

Fixpoint script_env_get (env : list bytes) (key : bytes) : option bytes :=
  match env with
  | [] => None
  | e :: env => match env_value key e with Some v => Some v | None => script_env_get env key end
  end.

(** ** Loading a script (script_loader.c) *)

(** The bytes of [out], an array of [maxlen] bytes, after the call; the
    comparison is unsigned. *)
Definition script_loader_load (load_file : bytes -> option bytes) (path out : bytes) (maxlen : Z)
  : run (Z * bytes) :=
  match load_file path with
  | None => mret (-1, out)
  | Some data =>
      let size := if u32 (maxlen - 1) <? zlen data then u32 (maxlen - 1) else zlen data in
      out ← memcpy out 0 data 0 size;
      out ← wr out size 0;
      mret (0, out)
  end.

(** ** The shell's history (shell_history.c) *)

(** The result is always 0. *)
Definition shell_history_add (history : list bytes) (cmd : bytes) : list bytes :=
  if zlen history <? 16 then history ++ [strncpy 127 cmd] else history.

Definition shell_history_get (history : list bytes) (idx : Z) : option bytes :=
  if (idx <? 0) || (zlen history <=? idx) then None else history !! Z.to_nat idx.

(** ** Shared objects (plugin.c) *)

Record plugin := mk_plugin { p_name : bytes; p_version : bytes; p_init : option Z; p_cleanup : option Z }.
Record plugin_handle := mk_handle { handle : Z; info : plugin }.

(** What the dynamic linker and the plugins do, in order. *)
Inductive plugin_event :=
| PlInit (fn : Z)
| PlCleanup (fn : Z)
| PlClose (handle : Z).

Definition MAX_PLUGINS : Z := 32.

Definition plugin_init : list plugin_handle := [].

Definition call_init (p : plugin) : list plugin_event := match p_init p with Some f => [PlInit f] | None => [] end.
Definition call_cleanup (p : plugin) : list plugin_event :=
  match p_cleanup p with Some f => [PlCleanup f] | None => [] end.

(** [dlopen] gives a handle and, through [dlsym], the "plugin_info" there. *)
Definition plugin_register (dlopen : bytes -> option (Z * option plugin)) (t : list plugin_handle) (path : bytes)
  : Z * list plugin_handle * list plugin_event :=
  if MAX_PLUGINS <=? zlen t then (-1, t, [])
  else match dlopen path with
  | None => (-1, t, [])
  | Some (h, None) => (-1, t, [PlClose h])
  | Some (h, Some p) => (0, t ++ [mk_handle h p], call_init p)
  end.

Definition handle_name (x : plugin_handle) : bytes := p_name (info x).

Definition plugin_load (t : list plugin_handle) (name : bytes) : Z * list plugin_event :=
  match table_find handle_name t name with Some x => (0, call_init (info x)) | None => (-1, []) end.

(** The first plugin of that name is taken out, those behind it move up. *)
Fixpoint plugin_unload (t : list plugin_handle) (name : bytes) : Z * list plugin_handle * list plugin_event :=
  match t with
  | [] => (-1, [], [])
  | x :: t =>
      if bool_decide (handle_name x = name) then (0, t, call_cleanup (info x) ++ [PlClose (handle x)])
      else let '(r, t, es) := plugin_unload t name in (r, x :: t, es)
  end.

(** ** Lemmas *)

Lemma prefix_of_app k s : prefix_of k (k ++ s) = true.
Proof. induction k as [|c k IH]; [done|]. cbn [prefix_of app]. by rewrite Z.eqb_refl. Qed.

Lemma prefix_of_iff k s : prefix_of k s = true <-> exists t, s = k ++ t.
Proof.
  split; [|intros [t ->]; apply prefix_of_app]. revert s.
  induction k as [|c k IH]; intros s; [by exists s|]. destruct s as [|x s]; [done|]. cbn [prefix_of].
  intros H. apply andb_true_iff in H as [Hc H]. apply Z.eqb_eq in Hc as ->.
  destruct (IH s H) as [t ->]. by exists t.
Qed.

Lemma env_get_snoc env key e : script_env_get (env ++ [e]) key =
  match script_env_get env key with Some v => Some v | None => env_value key e end.
Proof.
  induction env as [|x env IH]; cbn [script_env_get app]; [by destruct (env_value key e)|].
  by destruct (env_value key x).
Qed.

Lemma unload_absent t name : table_find handle_name t name = None -> plugin_unload t name = (-1, t, []).
Proof.
  unfold table_find. induction t as [|x t IH]; [done|]. cbn [List.find plugin_unload].
  destruct (bool_decide (handle_name x = name)); [done|]. intros H. by rewrite IH.
Qed.

Lemma unload_snoc t x : table_find handle_name t (handle_name x) = None ->
  plugin_unload (t ++ [x]) (handle_name x) = (0, t, call_cleanup (info x) ++ [PlClose (handle x)]).
Proof.
  unfold table_find. induction t as [|y t IH]; cbn [List.find plugin_unload app]; [by rewrite bool_decide_true|].
  destruct (bool_decide (handle_name y = handle_name x)); [done|]. intros H. by rewrite IH.
Qed.

(** ** Properties *)

(** The plugin registry: a plugin loaded from a path of at most 63 characters that is
    not registered yet is found under that path with its data and size, and what
    other names find is unchanged; a longer path is cut, so the plugin is found
    under its first 63 characters only and never under its path.  The registry
    refuses the seventeenth plugin. *)
Theorem plugin_registry_roundtrip load_file t path data :
  load_file path = Some data -> table_wf pe_name 16 63 t ->
  let r := plugin_loader_load load_file t path in
  table_wf pe_name 16 63 (snd r) /\ (fst r = 0 <-> zlen t < 16) /\
  (fst r = -1 -> snd r = t) /\
  (zlen t < 16 -> plugin_registry_find t (strncpy 63 path) = None ->
     plugin_registry_find (snd r) (strncpy 63 path) = Some (data, zlen data) /\
     (63 < zlen path -> plugin_registry_find (snd r) path = None) /\
     (forall name, name <> strncpy 63 path ->
        plugin_registry_find (snd r) name = plugin_registry_find t name)).
Proof.
  intros Hf Hw. cbv zeta. unfold plugin_loader_load. rewrite Hf. unfold plugin_registry_register.
  assert (Hx : zlen (strncpy 63 path) <= 63) by (by apply zlen_strncpy).
  pose proof (table_add_wf pe_name 16 63 t (mk_entry (strncpy 63 path) data (zlen data)) Hw Hx) as Hw'.
  split; [done|]. split; [unfold table_add; destruct (Z.ltb_spec (zlen t) 16); cbn; lia|].
  split; [unfold table_add; by destruct (zlen t <? 16)|]. intros Hl Hn.
  unfold plugin_registry_find in *. rewrite (table_find_add pe_name 16 t _ (strncpy 63 path) Hl). cbn [pe_name].
  destruct (table_find pe_name t (strncpy 63 path)) eqn:E; [done|]. split; [by rewrite bool_decide_true|]. split.
  - intros Hlong. destruct (table_find pe_name _ path) as [y|] eqn:Ey; [exfalso|done].
    apply table_find_in in Ey as [Hi Hy]. destruct Hw' as [_ Hall]. rewrite List.Forall_forall in Hall.
    specialize (Hall y Hi). rewrite Hy in Hall. lia.
  - intros name Hne. rewrite table_find_add by done. cbn [pe_name].
    rewrite bool_decide_false by congruence. by destruct (table_find pe_name t name).
Qed.

(** The script environment finds more than was set: after setting a key without '='
    that no earlier entry answers, in an environment with room and an entry of at
    most 63 characters, the value is found under the key, but also under every
    longer name that starts with the key and that no earlier entry answers; what
    was found before is still found. *)
Theorem script_env_set_get env key value suffix :
  zlen env < 16 -> Forall (fun c => c <> 61) key -> zlen key + zlen value + 1 <= 63 ->
  script_env_get env (key ++ suffix) = None ->
  let env' := snd (script_env_set env key value) in
  fst (script_env_set env key value) = 0 /\
  script_env_get env' (key ++ suffix) = Some value /\
  (forall other v, script_env_get env other = Some v -> script_env_get env' other = Some v).
Proof.
  intros Hl Hk Hn Hg. cbv zeta. unfold script_env_set, table_add. rewrite (proj2 (Z.ltb_lt _ _)) by done.
  cbn [fst snd].
  rewrite snprintf_short by (rewrite zlen_app; replace (zlen (61 :: value)) with (1 + zlen value)
    by (unfold zlen; cbn [length]; lia); lia).
  split; [done|]. split.
  - rewrite env_get_snoc, Hg. unfold env_value. rewrite split_at_app by done. by rewrite prefix_of_app.
  - intros other v Hv. by rewrite env_get_snoc, Hv.
Qed.

(** The life of a plugin: registering a shared object under a name that is not loaded
    appends it and runs its initialiser; loading it by name then finds it, and
    unloading it runs its clean-up, closes its handle and gives the old table
    back; the table never exceeds its 32 places, and an object without plugin
    information is closed again. *)
Theorem plugin_lifecycle dlopen t path h p :
  zlen t < MAX_PLUGINS -> dlopen path = Some (h, Some p) -> table_find handle_name t (p_name p) = None ->
  exists t', plugin_register dlopen t path = (0, t', call_init p) /\ zlen t' <= MAX_PLUGINS /\
    plugin_load t' (p_name p) = (0, call_init p) /\
    plugin_unload t' (p_name p) = (0, t, call_cleanup p ++ [PlClose h]).
Proof.
  intros Hl Hd Hn. unfold plugin_register. rewrite (proj2 (Z.leb_gt _ _)) by done. rewrite Hd.
  eexists. split; [reflexivity|]. split; [rewrite zlen_app; unfold zlen, MAX_PLUGINS in *; cbn; lia|]. split.
  - unfold plugin_load, table_find in *. rewrite find_snoc, Hn. unfold handle_name. cbn [info].
    by rewrite bool_decide_true.
  - by apply (unload_snoc t (mk_handle h p)).
Qed.

(** The history keeps the first sixteen commands, each cut at 127 characters. *)
Theorem shell_history_first cmds i :
  shell_history_get (fold_left shell_history_add cmds []) i =
  if (0 <=? i) && (i <? 16) then strncpy 127 <$> (cmds !! Z.to_nat i) else None.
Proof.
  assert (H : forall cmds h, zlen h <= 16 ->
    fold_left shell_history_add cmds h = h ++ (strncpy 127 <$> take (16 - length h) cmds)).
  { clear. induction cmds as [|c cmds IH]; intros h Hh; cbn [fold_left].
    - by rewrite take_nil, app_nil_r.
    - unfold shell_history_add at 2. destruct (Z.ltb_spec (zlen h) 16).
      + rewrite IH by (rewrite zlen_app; unfold zlen in *; cbn; lia).
        rewrite length_app. cbn [length].
        replace (16 - length h)%nat with (S (16 - (length h + 1)))%nat by (unfold zlen in *; lia).
        cbn [take fmap list_fmap]. by rewrite <- app_assoc.
      + rewrite IH by done. replace (16 - length h)%nat with 0%nat by (unfold zlen in *; lia). done. }
  rewrite H by done. cbn [app]. change (16 - length [])%nat with 16%nat. unfold shell_history_get.
  destruct (Z.ltb_spec i 0) as [Hi|Hi]; cbn [orb].
  { by rewrite (proj2 (Z.leb_gt _ _)) by lia. }
  rewrite (proj2 (Z.leb_le 0 i)) by done. cbn [andb]. unfold zlen. rewrite length_fmap, length_take.
  rewrite list_lookup_fmap. destruct (Z.ltb_spec i 16).
  - rewrite lookup_take_lt by lia. destruct (Z.leb_spec (Z.of_nat (Nat.min 16 (length cmds))) i); [|done].
    rewrite lookup_ge_None_2 by lia. done.
  - by rewrite (proj2 (Z.leb_le _ _)) by lia.
Qed.

(** ** Samples *)

Lemma plugin_registry_roundtrip_witness :
  plugin_registry_find (snd (plugin_loader_load (fun _ => Some [1; 2]) [] [112; 49])) [112; 49] = Some ([1; 2], 2).
Proof.
  destruct (plugin_registry_roundtrip (fun _ => Some [1; 2]) [] [112; 49] [1; 2]) as (_ & _ & _ & H).
  - reflexivity.
  - split; [vm_compute; discriminate|constructor].
  - apply H; reflexivity.
Defined.

Lemma script_env_set_get_witness :
  script_env_get (snd (script_env_set [] (lit "PATH") (lit "bin"))) (lit "PATH" ++ lit "NAME") = Some (lit "bin").
Proof.
  destruct (script_env_set_get [] (lit "PATH") (lit "bin") (lit "NAME")) as (_ & H & _); [..|exact H].
  - reflexivity.
  - repeat (apply Forall_cons_2; [discriminate|]). apply Forall_nil_2.
  - vm_compute. discriminate.
  - reflexivity.
Defined.

Lemma plugin_lifecycle_witness :
  exists t', plugin_register (fun _ => Some (7, Some (mk_plugin [97] [49] (Some 1) None))) [] [112] = (0, t', [PlInit 1]) /\
    plugin_unload t' [97] = (0, [], [PlClose 7]).
Proof.
  destruct (plugin_lifecycle (fun _ => Some (7, Some (mk_plugin [97] [49] (Some 1) None))) [] [112] 7
    (mk_plugin [97] [49] (Some 1) None)) as (t' & E & _ & _ & H); [reflexivity..|].
  exists t'. split; [exact E|exact H].
Defined.
