(* ===== verification/Lua.v ===== *)
(** * The script interpreter (src/scripting/lua.c)

    A stack machine over words: push a number, add, subtract, call a registered
    function.  The state is the stack (its top first, [stack_top] is its length)
    and the table of functions; a callback is an address, and what calling it
    does to the state is a parameter (callbacks that run scripts themselves would
    also disturb [strtok] and are excluded by this).  Expressions compiled to
    scripts are evaluated correctly. *)

From S2P Require Import Prelude.
From S2P Require Import BootConfig.
From S2P Require Import CString.
From S2P Require Import Tables.
Import ListNotations.
#[local] Open Scope list_scope.

Definition LUA_STACK_SIZE : Z := 256.
Definition LUA_MAX_FUNCTIONS : Z := 64.

Record lua_function := mk_fun { fn_name : bytes; fn_callback : Z }.
Record lua_state := mk_lua { stack : list Z; functions : list lua_function }.

Definition lua_init : lua_state := mk_lua [] [].

(** A full stack drops the value. *)
Definition lua_push (st : lua_state) (value : Z) : lua_state :=
  if zlen (stack st) <? LUA_STACK_SIZE then mk_lua (value :: stack st) (functions st) else st.

(** An empty stack gives 0. *)
Definition lua_pop (st : lua_state) : Z * lua_state :=
  match stack st with
  | v :: s => (v, mk_lua s (functions st))
  | [] => (0, st)
  end.

(** [strcpy] into [name[32]]. *)
Definition lua_add_function (st : lua_state) (name : bytes) (func : Z) : run lua_state :=
  if zlen (functions st) <? LUA_MAX_FUNCTIONS then
    if zlen name <? 32 then mret (mk_lua (stack st) (functions st ++ [mk_fun name func])) else UB
  else mret st.

Section Exec.
Context (callback : Z -> lua_state -> run (Z * lua_state)).

Definition lua_call_function (st : lua_state) (name : bytes) : run (Z * lua_state) :=
  match table_find fn_name (functions st) name with
  | Some f => callback (fn_callback f) st
  | None => mret (0, st)
  end.

(** [int b = lua_pop(); int a = lua_pop(); lua_push(a op b);] *)
Definition lua_binop (op : Z -> Z -> Z) (st : lua_state) : run lua_state :=
  let '(b, st) := lua_pop st in
  let '(a, st) := lua_pop st in
  v ← int_of (op a b);
  mret (lua_push st v).

Definition is_blank_nl (c : Z) : bool := (c =? 32) || (c =? 10).

(** The loop over the words [strtok] gives. *)
Fixpoint lua_run (st : lua_state) (tokens : list bytes) : run lua_state :=
  match tokens with
  | [] => mret st
  | token :: tokens =>
      if bool_decide (token = lit "push") then
        match tokens with
        | v :: tokens => x ← atoi v; lua_run (lua_push st x) tokens
        | [] => mret st
        end
      else if bool_decide (token = lit "add") then st ← lua_binop Z.add st; lua_run st tokens
      else if bool_decide (token = lit "sub") then st ← lua_binop Z.sub st; lua_run st tokens
      else if bool_decide (token = lit "call") then
        match tokens with
        | f :: tokens => r ← lua_call_function st f; lua_run (snd r) tokens
        | [] => mret st
        end
      else lua_run st tokens
  end.

Definition lua_execute_script (st : lua_state) (script : bytes) : run (Z * lua_state) :=
  st ← lua_run st (strtok is_blank_nl script);
  mret (lua_pop st).

(** ** Expressions *)

Inductive expr :=
| Num (n : Z)
| Add (a b : expr)
| Sub (a b : expr).

Fixpoint eval (e : expr) : Z :=
  match e with Num n => n | Add a b => eval a + eval b | Sub a b => eval a - eval b end.

(** Every intermediate value is an [int]. *)
Fixpoint ints (e : expr) : Prop :=
  is_int (eval e) /\ match e with Num _ => True | Add a b | Sub a b => ints a /\ ints b end.

(** The stack places an expression needs. *)
Fixpoint places (e : expr) : Z :=
  match e with Num _ => 1 | Add a b | Sub a b => Z.max (places a) (1 + places b) end.

Fixpoint compile (e : expr) : list bytes :=
  match e with
  | Num n => [lit "push"; print_int n]
  | Add a b => compile a ++ compile b ++ [lit "add"]
  | Sub a b => compile a ++ compile b ++ [lit "sub"]
  end.

Definition script_of (e : expr) : bytes := concat (List.map (fun t => t ++ [32]) (compile e)).

(** ** Lemmas *)

Lemma places_pos e : 1 <= places e.
Proof. induction e; cbn [places]; lia. Qed.

Lemma ints_eval e : ints e -> is_int (eval e).
Proof. by destruct e; intros [H _]. Qed.

Lemma compile_tokens e : ints e -> Forall (token_of is_blank_nl) (compile e).
Proof.
  assert (Hw : forall w, w = lit "push" \/ w = lit "add" \/ w = lit "sub" -> token_of is_blank_nl w).
  { intros w [->|[->| ->]]; (split; [done|by repeat constructor]). }
  induction e as [n|a IHa b IHb|a IHa b IHb]; intros [Hi H]; cbn [compile].
  - constructor; [by apply Hw; left|]. constructor; [|constructor].
    apply print_int_plain; [done|]. intros c Hc. unfold is_blank_nl in Hc.
    apply orb_true_iff in Hc as [Hc|Hc]; apply Z.eqb_eq in Hc; lia.
  - destruct H as [Ha Hb]. rewrite !Forall_app. split_and!; [by apply IHa|by apply IHb|].
    constructor; [|constructor]. apply Hw. tauto.
  - destruct H as [Ha Hb]. rewrite !Forall_app. split_and!; [by apply IHa|by apply IHb|].
    constructor; [|constructor]. apply Hw. tauto.
Qed.

Lemma push_room st v : zlen (stack st) < LUA_STACK_SIZE -> lua_push st v = mk_lua (v :: stack st) (functions st).
Proof. intros H. unfold lua_push. by rewrite (proj2 (Z.ltb_lt _ _)). Qed.

Lemma binop_run op a b s fs rest : is_int (op a b) -> zlen s < LUA_STACK_SIZE ->
  lua_binop op (mk_lua (b :: a :: s) fs) ≫= (fun st => lua_run st rest) = lua_run (mk_lua (op a b :: s) fs) rest.
Proof.
  intros Hi Hs. unfold lua_binop, lua_pop. cbn [stack functions]. rewrite int_of_int by done. bind_step.
  by rewrite push_room.
Qed.

(** Running a compiled expression pushes its value, whatever follows. *)
Lemma compile_run e : forall s fs rest, ints e -> zlen s + places e <= LUA_STACK_SIZE ->
  lua_run (mk_lua s fs) (compile e ++ rest) = lua_run (mk_lua (eval e :: s) fs) rest.
Proof.
  induction e as [n|a IHa b IHb|a IHa b IHb]; intros s fs rest [Hi H] Hs; cbn [compile eval places] in *.
  - cbn [app lua_run]. rewrite bool_decide_true by done. rewrite atoi_print by done. bind_step.
    by rewrite push_room by (cbn [stack]; lia).
  - destruct H as [Ha Hb]. pose proof (places_pos b). rewrite <- !app_assoc, IHa by (try done; lia).
    rewrite IHb by (try done; unfold zlen in *; cbn [length]; lia). cbn [app lua_run].
    rewrite bool_decide_false, bool_decide_true by done. apply binop_run; [done|lia].
  - destruct H as [Ha Hb]. pose proof (places_pos b). rewrite <- !app_assoc, IHa by (try done; lia).
    rewrite IHb by (try done; unfold zlen in *; cbn [length]; lia). cbn [app lua_run].
    rewrite bool_decide_false, bool_decide_false, bool_decide_true by done. apply binop_run; [done|lia].
Qed.

(** ** The stack is bounded *)

Definition lua_wf (st : lua_state) : Prop := zlen (stack st) <= LUA_STACK_SIZE /\ Forall is_int (stack st).

Lemma push_wf st v : lua_wf st -> is_int v -> lua_wf (lua_push st v).
Proof.
  intros [Hl Hs] Hv. unfold lua_push. destruct (Z.ltb_spec (zlen (stack st)) LUA_STACK_SIZE); [|by split].
  split; cbn [stack]; [unfold zlen in *; cbn [length]; lia|by constructor].
Qed.

Lemma pop_wf st : lua_wf st -> lua_wf (snd (lua_pop st)) /\ is_int (fst (lua_pop st)).
Proof.
  intros [Hl Hs]. unfold lua_pop. destruct (stack st) as [|v s] eqn:E; cbn [fst snd].
  - split; [unfold lua_wf; rewrite E; by split|]. unfold is_int, INT_MIN, INT_MAX. lia.
  - apply Forall_cons_1 in Hs as [Hv Hs]. split; [|done]. split; cbn [stack]; [|done].
    unfold zlen in *. cbn [length] in Hl. lia.
Qed.

Lemma binop_wf op st st' : lua_wf st -> lua_binop op st = Ret st' -> lua_wf st'.
Proof.
  intros Hw. unfold lua_binop. destruct (pop_wf st Hw) as [Hw1 _]. destruct (lua_pop st) as [b s1].
  cbn [fst snd] in Hw1. destruct (pop_wf s1 Hw1) as [Hw2 _]. destruct (lua_pop s1) as [a s2]. cbn [fst snd] in Hw2.
  unfold int_of. destruct (decide (is_int (op a b))); [|done]. bind_step. intros [= <-]. by apply push_wf.
Qed.

End Exec.

(** ** Properties *)

(** C32.  Compiled expressions are evaluated: when every intermediate value is an [int]
    and the expression needs at most the 256 places of the stack, running the
    script printed from it returns its value and leaves the stack empty, whatever
    functions are registered. *)
Theorem lua_expression callback e fs : ints e -> places e <= LUA_STACK_SIZE ->
  lua_execute_script callback (mk_lua [] fs) (script_of e) = Ret (eval e, mk_lua [] fs).
Proof.
  intros Hi Hp. unfold lua_execute_script, script_of.
  rewrite <- (app_nil_r (concat _)), (strtok_concat is_blank_nl 32) by (try done; by apply compile_tokens).
  change (strtok is_blank_nl []) with ([] : list bytes).
  rewrite compile_run by (try done; change (zlen []) with 0; lia). cbn [lua_run]. by bind_step.
Qed.

(** Whatever the script, the stack stays within its 256 places and holds ints, as
    long as the registered functions keep it so: the result and the state that a
    script leaves satisfy the interpreter's invariant. *)
Theorem lua_invariant callback :
  (forall f st r st', lua_wf st -> callback f st = Ret (r, st') -> lua_wf st') ->
  forall st script v st', lua_wf st -> lua_execute_script callback st script = Ret (v, st') ->
  lua_wf st' /\ is_int v.
Proof.
  intros Hcb st script v st' Hw. unfold lua_execute_script. generalize (strtok is_blank_nl script). intros ts.
  enough (H : forall st'', lua_run callback st ts = Ret st'' -> lua_wf st'').
  { destruct (lua_run callback st ts) as [st''| |] eqn:E; [|done..]. bind_step. intros [= Ep].
    specialize (H st'' eq_refl). destruct (pop_wf st'' H) as [H1 H2]. rewrite Ep in H1, H2. done. }
  revert st Hw. induction ts as [ts IH] using (well_founded_induction (well_founded_ltof _ (@length bytes))).
  unfold ltof in IH. intros st Hw st''. destruct ts as [|t ts]; cbn [lua_run]; [by intros [= <-]|].
  destruct (bool_decide (t = lit "push")).
  { destruct ts as [|x ts]; [by intros [= <-]|]. destruct (atoi x) as [n| |] eqn:E; [|done..]. bind_step.
    apply IH; [cbn [length]; lia|]. apply push_wf; [done|]. by apply (atoi_int x). }
  destruct (bool_decide (t = lit "add")).
  { destruct (lua_binop Z.add st) as [s| |] eqn:E; [|done..]. bind_step.
    apply IH; [cbn [length]; lia|]. by apply (binop_wf Z.add st). }
  destruct (bool_decide (t = lit "sub")).
  { destruct (lua_binop Z.sub st) as [s| |] eqn:E; [|done..]. bind_step.
    apply IH; [cbn [length]; lia|]. by apply (binop_wf Z.sub st). }
  destruct (bool_decide (t = lit "call")).
  { destruct ts as [|x ts]; [by intros [= <-]|].
    destruct (lua_call_function callback st x) as [[r s]| |] eqn:E; [|done..]. bind_step. cbn [snd].
    apply IH; [cbn [length]; lia|]. unfold lua_call_function in E.
    destruct (table_find fn_name (functions st) x); [by apply (Hcb _ _ _ _ Hw E)|]. by injection E as <- <-. }
  apply IH; [cbn [length]; lia|done].
Qed.

(** ** Samples *)

Lemma lua_expression_witness :
  lua_execute_script (fun _ st => Ret (0, st)) lua_init (script_of (Sub (Add (Num 2) (Num (-3))) (Num 40))) =
  Ret (-41, lua_init).
Proof.
  apply (lua_expression (fun _ st => Ret (0, st)) (Sub (Add (Num 2) (Num (-3))) (Num 40)) []).
  - vm_compute. repeat split; discriminate.
  - vm_compute. discriminate.
Defined.

Lemma lua_invariant_witness : exists st', lua_execute_script (fun _ st => Ret (0, st)) lua_init (lit "push 5 add x") =
  Ret (5, st') /\ lua_wf st'.
Proof.
  eexists. split; [vm_compute; reflexivity|].
  apply (lua_invariant (fun _ st => Ret (0, st))) with (st := lua_init) (script := lit "push 5 add x") (v := 5).
  - intros f st r st' H [= <- <-]. exact H.
  - split; [vm_compute; discriminate|constructor].
  - vm_compute. reflexivity.
Defined.
