(* ===== verification/ConfigParsers.v ===== *)
(** * The stand-alone configuration parsers (src/config)

    The INI parser for boot menu entries, the JSON parser for key/value pairs, the
    lookup in the process environment, and the validation of keys and values.  A
    file is the text that [fopen] gives access to; a text has no NUL.  Position
    pointers are the rest of the text they point to. *)

From S2P Require Import Prelude.
From S2P Require Import BootConfig.
From S2P Require Import CString.
From S2P Require Import Tables.
Import ListNotations.
#[local] Open Scope list_scope.

(** ** INI (config_ini.c) *)

Record boot_menu_entry := mk_menu_entry { me_section : bytes; me_name : bytes; me_path : bytes }.

Definition is_blank_tab (c : Z) : bool := (c =? 32) || (c =? 9).

(** [*p]: the NUL at the end of the text. *)
Definition head (p : bytes) : Z := match p with c :: _ => c | [] => 0 end.

(** What one line does: the section, and the entry if there is one. *)
Definition ini_entry (section line : bytes) : bytes * option boot_menu_entry :=
  let p := drop_while is_blank_tab line in
  if (head p =? 59) || (head p =? 35) then (section, None)
  else if head p =? 91 then
    (match split_at 93 p with
     | Some (before, _) =>
         let len := zlen before - 1 in
         if (0 <? len) && (len <? 64) then drop 1 before else section
     | None => section
     end, None)
  else
    match split_at 61 p with
    | None => (section, None)
    | Some (key, value) =>
        let value := drop_while is_blank_tab value in
        let value := match split_at 10 value with Some (v, _) => v | None => value end in
        (section, Some (mk_menu_entry (snprintf_s 128 section) (snprintf_s 64 key) (snprintf_s 128 value)))
    end.

(** [while (fgets(...) && count < max_entries)]; [n] is [max_entries - count]. *)
Fixpoint ini_file_loop (fuel : nat) (section f : bytes) (n : nat) : run (list boot_menu_entry) :=
  match fuel with
  | O => OutOfFuel
  | S fuel =>
      match f with
      | [] => mret []
      | _ =>
          let '(line, f) := fgets 255 f in
          match n with
          | O => mret []
          | S n' =>
              match ini_entry section line with
              | (section, Some e) => es ← ini_file_loop fuel section f n'; mret (e :: es)
              | (section, None) => ini_file_loop fuel section f n
              end
          end
      end
  end.

(** The entries, or -1 when the file cannot be opened. *)
Definition parse_ini (fopen : bytes -> option bytes) (filename : bytes) (max_entries : Z)
  : run (option (list boot_menu_entry)) :=
  match fopen filename with
  | None => mret None
  | Some f => es ← ini_file_loop (S (length f)) [] f (Z.to_nat max_entries); mret (Some es)
  end.

(** ** JSON (config_json.c) *)

Record config_json := mk_json { cj_key : bytes; cj_value : bytes }.

(** [while ( **p && stop) ( *p)++] is [drop_while]; [( *p)++] on the NUL leaves the
    text. *)
Definition step (p : bytes) : run bytes := match p with _ :: p => mret p | [] => UB end.

Definition until (stop : Z -> bool) (p : bytes) : bytes := drop_while (fun c => negb (stop c)) p.

(** The characters before the first that stops. *)
Fixpoint taken (stop : Z -> bool) (p : bytes) : bytes :=
  match p with c :: p' => if stop c then [] else c :: taken stop p' | [] => [] end.

(** [snprintf(buf, 64, "%s%s%s", section, section[0] ? "." : "", key)]: [key] is a
    pointer into the text and ends where the text ends. *)
Definition full_key (section key : bytes) : bytes :=
  snprintf_s 64 (section ++ match section with [] => [] | _ => [46] end ++ key).

(** A value that is no object: the position behind it, the value's start and its
    length. *)
Definition json_scalar (p : bytes) : run (bytes * bytes * Z) :=
  let p := drop_while (fun c => (c =? 32) || (c =? 34)) p in
  if head p =? 34 then
    value ← step p;
    let len := zlen (taken (fun c => c =? 34) value) in
    p ← step (until (fun c => c =? 34) value);
    mret (p, value, len)
  else
    let stop := fun c => (c =? 44) || (c =? 125) || (c =? 10) in
    mret (until stop p, p, zlen (taken stop p)).

(** [parse_json_object]: the position and the entries found so far. *)
Fixpoint parse_json_object (fuel : nat) (p section : bytes) (out : list config_json) (max_entries : Z)
  : run (bytes * list config_json) :=
  match fuel with
  | O => OutOfFuel
  | S fuel =>
      if head p =? 0 then mret (p, out) else
      let p := until (fun c => (c =? 34) || (c =? 125)) p in
      if head p =? 125 then p ← step p; mret (p, out)
      else if negb (head p =? 34) then mret (p, out)
      else
        key ← step p;
        let keylen := zlen (taken (fun c => c =? 34) key) in
        p ← step (until (fun c => c =? 34) key);
        p ← step (until (fun c => c =? 58) p);
        let p := drop_while (fun c => (c =? 32) || (c =? 10)) p in
        if head p =? 123 then
          p ← step p;
          r ← parse_json_object fuel p (full_key section key) out max_entries;
          let '(p, out) := r in
          parse_json_object fuel p section out max_entries
        else
          r ← json_scalar p;
          let '(p, value, vallen) := r in
          let out :=
            if (keylen <? 32) && (vallen <? 128) && (zlen out <? max_entries)
            then out ++ [mk_json (strncpy 31 (full_key section key)) (strncpy vallen value)] else out in
          let p := until (fun c => (c =? 44) || (c =? 125)) p in
          p ← (if head p =? 44 then step p else mret p);
          parse_json_object fuel p section out max_entries
  end.

Definition config_json_parse (json : bytes) (max_entries : Z) : run (list config_json) :=
  let p := until (fun c => c =? 123) json in
  if head p =? 123 then
    p ← step p;
    r ← parse_json_object (S (length json)) p [] [] max_entries;
    mret (snd r)
  else mret [].

(** ** The environment (config_env.c) *)

(** The value copied into [value[maxlen]]; a negative length is an access outside. *)
Fixpoint config_env_get (environ : list bytes) (key : bytes) (maxlen : Z) : run (option bytes) :=
  match environ with
  | [] => mret None
  | e :: environ =>
      match env_value key e with
      | Some v =>
          let len := if maxlen - 1 <? zlen v then maxlen - 1 else zlen v in
          if len <? 0 then UB else mret (Some (take (Z.to_nat len) v))
      | None => config_env_get environ key maxlen
      end
  end.

(** ** Validation (config_validate.c) *)

Definition printable (c : Z) : bool := negb ((c <? 32) || (126 <? c)).

Definition config_validate_key (key : option bytes) : Z :=
  match key with
  | None | Some [] => 0
  | Some k => if forallb printable k then 1 else 0
  end.

Definition config_validate_value (value : option bytes) : Z := config_validate_key value.

(** ** INI files: printing and reading *)

Inductive ini_item :=
| ISection (s : bytes)
| IKey (k v : bytes).

Definition render_item (i : ini_item) : bytes :=
  match i with
  | ISection s => (91 :: s ++ [93]) ++ [10]
  | IKey k v => (k ++ 61 :: v) ++ [10]
  end.

(** Characters of one line. *)
Definition ini_text (s : bytes) : Prop := Forall (fun c => c <> 10 /\ c <> 0) s.

Lemma ini_text_line s : ini_text s -> Forall (fun c => c <> 10) s.
Proof. intros H. eapply Forall_impl; [exact H|]. by intros c [Hc _]. Qed.

(** Sections of 1 to 63 characters; keys that do not look like something else;
    lengths that fit the entry's arrays. *)
Definition item_ok (i : ini_item) : Prop :=
  match i with
  | ISection s => 0 < zlen s < 64 /\ ini_text s /\ Forall (fun c => c <> 93) s
  | IKey k v =>
      zlen k < 64 /\ zlen v < 128 /\ ini_text k /\ ini_text v /\ Forall (fun c => c <> 61) k /\
      Forall (fun c => c <> head k) [32; 9; 59; 35; 91] /\ k <> [] /\
      Forall (fun c => c <> head v) [32; 9]
  end.

(** The entries the items stand for. *)
Fixpoint item_entries (section : bytes) (items : list ini_item) : list boot_menu_entry :=
  match items with
  | [] => []
  | ISection s :: items => item_entries s items
  | IKey k v :: items => mk_menu_entry section k v :: item_entries section items
  end.

Lemma drop_blanks p : Forall (fun c => c <> head p) [32; 9] -> drop_while is_blank_tab p = p.
Proof.
  intros H. destruct p as [|c p]; [done|]. cbn [head] in H. apply Forall_cons_1 in H as [H1 H].
  apply Forall_cons_1 in H as [H2 _]. cbn [drop_while].
  by replace (is_blank_tab c) with false by (symmetry; unfold is_blank_tab; zbool).
Qed.

Lemma entry_section section s : item_ok (ISection s) ->
  ini_entry section (render_item (ISection s)) = (s, None).
Proof.
  intros (Hl & _ & Hs). unfold ini_entry, render_item. cbv zeta.
  rewrite drop_blanks by (repeat constructor; discriminate). cbn [app head].
  change (((91 =? 59) || (91 =? 35))) with false. change (91 =? 91) with true. cbv iota.
  assert (E : split_at 93 (91 :: (s ++ [93]) ++ [10]) = Some (91 :: s, [10])).
  { rewrite <- app_assoc. apply (split_at_app 93 (91 :: s) [10]). by constructor. }
  rewrite E.
  replace (zlen (91 :: s) - 1) with (zlen s) by (unfold zlen; cbn [length]; lia).
  by replace ((0 <? zlen s) && (zlen s <? 64)) with true by (symmetry; zbool).
Qed.

Lemma entry_key section k v : item_ok (IKey k v) -> zlen section < 64 ->
  ini_entry section (render_item (IKey k v)) = (section, Some (mk_menu_entry section k v)).
Proof.
  intros (Hk & Hv & _ & Htv%ini_text_line & He & Hh & Hn & Hb) Hs. destruct k as [|c k]; [done|]. cbn [head] in Hh.
  rewrite !Forall_cons in Hh. destruct Hh as (H1 & H2 & H3 & H4 & H5 & _).
  unfold ini_entry, render_item. cbv zeta.
  rewrite drop_blanks by (cbn [head app]; repeat constructor; done). cbn [app head].
  rewrite (proj2 (Z.eqb_neq c 59)), (proj2 (Z.eqb_neq c 35)), (proj2 (Z.eqb_neq c 91)) by congruence. cbn [orb].
  change (c :: (k ++ 61 :: v) ++ [10]) with (((c :: k) ++ 61 :: v) ++ [10]).
  rewrite <- app_assoc. change ((61 :: v) ++ [10]) with (61 :: (v ++ [10])). rewrite (split_at_app 61 (c :: k)) by done.
  rewrite drop_blanks.
  - rewrite split_at_app by done. by rewrite !snprintf_short by lia.
  - destruct v as [|x v]; [repeat constructor; discriminate|done].
Qed.

Lemma ini_loop_items items : forall fuel section n, Forall item_ok items -> zlen section < 64 ->
  (length (concat (render_item <$> items)) < fuel)%nat ->
  ini_file_loop fuel section (concat (render_item <$> items)) n = Ret (take n (item_entries section items)).
Proof.
  induction items as [|i items IH]; intros [|fuel] section n Hi Hs Hf; try (cbn [length] in Hf; lia).
  { cbn. by rewrite take_nil. }
  apply Forall_cons_1 in Hi as [Hi Hit]. cbn [fmap list_fmap concat] in *. rewrite length_app in Hf.
  set (rest := concat (render_item <$> items)) in *.
  assert (Hlen : (0 < length (render_item i))%nat) by (destruct i; cbn [render_item]; rewrite length_app; cbn [length]; lia).
  assert (Hg : fgets 255 (render_item i ++ rest) = (render_item i, rest)).
  { destruct i as [s|k v]; cbn [render_item]; rewrite <- app_assoc; cbn [app].
    - destruct Hi as (Hl & Ht%ini_text_line & _). apply (fgets_line (91 :: s ++ [93])).
      + constructor; [discriminate|]. apply Forall_app. split; [done|]. by repeat constructor.
      + cbn [length]. rewrite length_app. unfold zlen in Hl. cbn [length]. lia.
    - destruct Hi as (Hk & Hv & Htk%ini_text_line & Htv%ini_text_line & _). apply fgets_line.
      + apply Forall_app. split; [done|]. by constructor.
      + rewrite length_app. unfold zlen in *. cbn [length]. lia. }
  cbn [ini_file_loop]. destruct (render_item i ++ rest) as [|c f] eqn:Ef.
  { apply (f_equal length) in Ef. rewrite length_app in Ef. cbn [length] in Ef. lia. }
  rewrite <- Ef in *. rewrite Hg. destruct n as [|n]; [by rewrite take_0|].
  destruct i as [s|k v].
  - rewrite entry_section by done. destruct Hi as (Hl & _). cbn [item_entries]. apply IH; [done|lia|lia].
  - rewrite entry_key by done. rewrite IH by (try done; lia). bind_step. done.
Qed.

(** ** JSON: lemmas *)

Lemma drop_while_length (f : Z -> bool) p : (length (drop_while f p) <= length p)%nat.
Proof. induction p as [|c p IH]; cbn [drop_while length]; [done|]. destruct (f c); cbn [length]; lia. Qed.

Lemma until_length stop p : (length (until stop p) <= length p)%nat.
Proof. apply drop_while_length. Qed.

(** The parser's result: no fuel is missing, and the position has not moved back. *)
Definition advances (p : bytes) (r : run (bytes * list config_json)) : Prop :=
  match r with
  | Ret (q, _) => (length q <= length p)%nat
  | UB => True
  | OutOfFuel => False
  end.

Lemma advances_step p q (k : bytes -> run (bytes * list config_json)) :
  (length q <= length p)%nat ->
  (forall q', (length q' < length p)%nat -> advances p (k q')) -> advances p (step q ≫= k).
Proof. intros Hq Hk. destruct q as [|c q]; [done|]. cbn [step]. bind_step. apply Hk. cbn [length] in Hq. lia. Qed.

Lemma json_scalar_advances p q (k : bytes * bytes * Z -> run (bytes * list config_json)) :
  (length q <= length p)%nat ->
  (forall r, (length (fst (fst r)) <= length q)%nat -> advances p (k r)) -> advances p (json_scalar q ≫= k).
Proof.
  intros Hq Hk. unfold json_scalar. cbv zeta.
  set (d := drop_while _ q). pose proof (drop_while_length (fun c => (c =? 32) || (c =? 34)) q) as Hd. fold d in Hd.
  destruct (head d =? 34).
  - destruct d as [|c d']; [done|]. cbn [step length] in *. bind_step.
    pose proof (until_length (fun c => c =? 34) d') as Hu.
    destruct (until (fun c => c =? 34) d') as [|x u]; [done|]. cbn [step length] in *. bind_step.
    apply Hk. cbn [fst]. lia.
  - bind_step. apply Hk. cbn [fst]. pose proof (until_length (fun c => (c =? 44) || (c =? 125) || (c =? 10)) d). lia.
Qed.

Lemma parse_object_advances fuel : forall p section out max, (length p < fuel)%nat ->
  advances p (parse_json_object fuel p section out max).
Proof.
  induction fuel as [|fuel IH]; intros p section out max Hf; [lia|]. cbn [parse_json_object].
  assert (Hmono : forall q r, advances q r -> (length q <= length p)%nat -> advances p r).
  { intros q [[q' o]| |] H Hq; cbn in *; try done; lia. }
  destruct (head p =? 0); [bind_step; cbn; lia|].
  set (q := until (fun c => (c =? 34) || (c =? 125)) p).
  pose proof (until_length (fun c => (c =? 34) || (c =? 125)) p) as Hq. fold q in Hq.
  destruct (head q =? 125); [apply advances_step; [done|]; intros q' Hq'; cbn; lia|].
  destruct (negb (head q =? 34)); [bind_step; cbn; lia|].
  apply advances_step; [done|]. intros key Hkey.
  apply advances_step; [etrans; [apply until_length|lia]|]. intros p1 Hp1.
  apply advances_step; [etrans; [apply until_length|lia]|]. intros p2 Hp2.
  set (p3 := drop_while _ p2). pose proof (drop_while_length (fun c => (c =? 32) || (c =? 10)) p2) as Hp3.
  fold p3 in Hp3. destruct (head p3 =? 123).
  - apply advances_step; [lia|]. intros p4 Hp4.
    pose proof (IH p4 (full_key section key) out max ltac:(lia)) as H4.
    destruct (parse_json_object fuel p4 _ out max) as [[p5 o]| |]; [|done|done]. bind_step. cbn in H4.
    apply (Hmono p5); [apply IH; lia|lia].
  - apply json_scalar_advances; [lia|]. intros [[p4 v] len] H4. cbn [fst] in H4.
    set (p5 := until _ p4). pose proof (until_length (fun c => (c =? 44) || (c =? 125)) p4) as H5. fold p5 in H5.
    destruct (head p5 =? 44).
    + apply advances_step; [lia|]. intros p6 H6. apply (Hmono p6); [apply IH; lia|lia].
    + bind_step. apply (Hmono p5); [apply IH; lia|lia].
Qed.

Lemma until_hit stop a c b : Forall (fun x => stop x = false) a -> stop c = true ->
  until stop (a ++ c :: b) = c :: b /\ taken stop (a ++ c :: b) = a.
Proof.
  intros Ha Hc. unfold until. induction Ha as [|x a Hx Ha [IH1 IH2]]; cbn [drop_while taken app].
  - by rewrite Hc.
  - rewrite Hx. cbn [negb]. by rewrite IH1, IH2.
Qed.

(** ** Properties *)

(** C33. INI files: printing sections and key lines and parsing the text gives the
    entries back, each with the section it stands in, in order and cut after
    [max_entries]; for section names of 1 to 63, keys of 1 to 63 and values of up to
    127 characters without NUL and newline, where a section has no closing
    bracket, a key no equals sign and neither blank, comment sign nor bracket in
    front, and a value no blank in front. *)
Theorem parse_ini_roundtrip fopen filename items max :
  fopen filename = Some (concat (render_item <$> items)) -> Forall item_ok items ->
  parse_ini fopen filename max = Ret (Some (take (Z.to_nat max) (item_entries [] items))).
Proof. intros Hf Hi. unfold parse_ini. rewrite Hf, ini_loop_items by (try done; lia). by bind_step. Qed.

(** JSON texts: the parser returns or steps past the NUL at the end of the text, and
    does so within [n + 1] rounds and levels of recursion for a text of [n]
    characters. *)
Theorem config_json_terminates json max : config_json_parse json max <> OutOfFuel.
Proof.
  unfold config_json_parse. set (p := until _ json).
  pose proof (until_length (fun c => c =? 123) json) as Hp. fold p in Hp.
  destruct (head p =? 123); [|done]. destruct p as [|c p]; [done|]. cbn [step length] in *. bind_step.
  pose proof (parse_object_advances (S (length json)) p [] [] max ltac:(lia)) as H.
  by destruct (parse_json_object _ p [] [] max) as [[q o]| |].
Qed.

(** A text that ends inside the key of a member, or behind the key before the
    colon, makes the parser step past the NUL and read on from there. *)
Theorem config_json_past_the_end key rest max :
  Forall (fun c => c <> 34) key -> Forall (fun c => c <> 58) rest ->
  config_json_parse ([123; 34] ++ key) max = UB /\
  config_json_parse ([123; 34] ++ key ++ 34 :: rest) max = UB.
Proof.
  intros Hk Hr.
  assert (Hend : forall x l, Forall (fun c => c <> x) l -> until (fun c => c =? x) l = []).
  { intros x l. unfold until. induction 1 as [|c l Hc _ IH]; cbn [drop_while]; [done|].
    by rewrite (proj2 (Z.eqb_neq c x)). }
  assert (Hgo : forall l, config_json_parse ([123; 34] ++ l) max =
    r ← (p ← step (until (fun c => c =? 34) l); step (until (fun c => c =? 58) p)); 
    config_json_parse ([123; 34] ++ l) max).
  { intros l. unfold config_json_parse. cbn [app until drop_while Z.eqb Pos.eqb negb head step length].
    bind_step. remember (S (length l)) as m. cbn [parse_json_object head Z.eqb until drop_while Pos.eqb orb negb step]. bind_step.
    destruct (step (until (fun c => c =? 34) l)) as [p| |]; [|done..]. bind_step.
    by destruct (step (until (fun c => c =? 58) p)). }
  split; rewrite Hgo; [by rewrite Hend|].
  destruct (until_hit (fun c => c =? 34) key 34 rest) as [-> _]; [|done|].
  { eapply Forall_impl; [exact Hk|]. intros c Hc. by apply Z.eqb_neq. }
  cbn [step]. bind_step. by rewrite Hend.
Qed.

(** JSON strings come out garbled: for an object with one string member, with a key
    of less than 32 and a value of 1 to 126 characters, the entry's key is
    the first 31 characters of the text from the key on (nothing ends the key),
    and its value keeps the closing quote. *)
Theorem json_string_garbled key value max :
  Forall (fun c => c <> 34) key -> zlen key < 32 ->
  Forall (fun c => c <> 44 /\ c <> 125 /\ c <> 10) value -> Forall (fun c => c <> head value) [32; 34] ->
  value <> [] -> zlen value < 127 -> 0 < max ->
  config_json_parse ([123; 34] ++ key ++ [34; 58; 34] ++ value ++ [34; 125]) max =
  Ret [mk_json (take 31 (key ++ [34; 58; 34] ++ value ++ [34; 125])) (value ++ [34])].
Proof.
  intros Hk Hkl Hv Hh Hne Hvl Hmax. unfold config_json_parse. cbn [app].
  set (tail := 34 :: 58 :: 34 :: value ++ [34; 125]).
  change (until (fun c => c =? 123) (123 :: 34 :: key ++ tail)) with (123 :: 34 :: key ++ tail).
  cbn [head Z.eqb Pos.eqb step]. bind_step.
  assert (exists m, length (123 :: 34 :: key ++ tail) = S m) as [m ->] by (by eexists).
  remember (S m) as rounds eqn:Er. cbn [parse_json_object head Z.eqb].
  change (until (fun c => (c =? 34) || (c =? 125)) (34 :: key ++ tail)) with (34 :: key ++ tail).
  cbn [head Z.eqb Pos.eqb negb step]. bind_step.
  destruct (until_hit (fun c => c =? 34) key 34 (58 :: 34 :: value ++ [34; 125])) as [E1 E2]; [|done|].
  { eapply Forall_impl; [exact Hk|]. intros c Hc. cbv beta in *. zbool. }
  change (34 :: 58 :: 34 :: value ++ [34; 125]) with tail in E1, E2. rewrite E1, E2.
  change (step tail) with (Ret (58 :: 34 :: value ++ [34; 125])). bind_step.
  change (until (fun c => c =? 58) (58 :: ?x)) with (58 :: x). cbn [step]. bind_step.
  change (drop_while (fun c => (c =? 32) || (c =? 10)) (34 :: ?x)) with (34 :: x). cbn [head Z.eqb Pos.eqb].
  assert (Es : json_scalar (34 :: value ++ [34; 125]) = Ret ([125], value ++ [34; 125], zlen value + 1)).
  { unfold json_scalar. cbn [drop_while]. change ((34 =? 32) || (34 =? 34)) with true. cbv iota.
    destruct value as [|c v]; [done|]. cbn [head] in Hh. rewrite !Forall_cons in Hh. destruct Hh as (H1 & H2 & _).
    cbn [app drop_while head]. rewrite (proj2 (Z.eqb_neq c 32)), (proj2 (Z.eqb_neq c 34)) by congruence. cbn [orb head].
    rewrite (proj2 (Z.eqb_neq c 34)) by congruence.
    destruct (until_hit (fun c => (c =? 44) || (c =? 125) || (c =? 10)) ((c :: v) ++ [34]) 125 []) as [U1 U2]; [|done|].
    { apply Forall_app. split; [|by repeat constructor]. eapply Forall_impl; [exact Hv|].
      intros x (X1 & X2 & X3). cbv beta. zbool. }
    rewrite <- app_assoc in U1, U2. cbn [app] in U1, U2. cbv zeta. rewrite U1, U2. bind_step. f_equal. f_equal.
    change (c :: v ++ [34]) with ((c :: v) ++ [34]). by rewrite zlen_app. }
  rewrite Es. bind_step.
  replace ((zlen key <? 32) && (zlen value + 1 <? 128) && (zlen [] <? max)) with true
    by (symmetry; change (@zlen config_json []) with 0; zbool).
  change (until (fun c => (c =? 44) || (c =? 125)) [125]) with [125]. cbn [head Z.eqb Pos.eqb]. bind_step.
  subst rounds. cbn [parse_json_object head Z.eqb]. change (until (fun c => (c =? 34) || (c =? 125)) [125]) with [125].
  cbn [head Z.eqb Pos.eqb step]. bind_step. cbn [snd app]. f_equal. f_equal. f_equal.
  - unfold full_key, strncpy, snprintf_s. cbn [app]. rewrite take_take. f_equal.
  - unfold strncpy. change [34; 125] with ([34] ++ [125]). rewrite app_assoc.
    replace (Z.to_nat (zlen value + 1)) with (length (value ++ [34])) by (rewrite length_app; unfold zlen; cbn; lia).
    by rewrite take_app_length.
Qed.

(** The environment lookup is that of the scripts, cut to the caller's array. *)
Theorem config_env_get_cut environ key maxlen : 0 < maxlen ->
  config_env_get environ key maxlen = Ret (strncpy (maxlen - 1) <$> script_env_get environ key).
Proof.
  intros Hm. induction environ as [|e environ IH]; [done|]. cbn [config_env_get script_env_get].
  destruct (env_value key e) as [v|]; [|done]. cbn [fmap option_fmap option_map]. pose proof (zlen_nonneg v).
  destruct (Z.ltb_spec (maxlen - 1) (zlen v)).
  - by rewrite (proj2 (Z.ltb_ge _ _)) by lia.
  - rewrite (proj2 (Z.ltb_ge _ _)) by lia. rewrite strncpy_short by lia. rewrite take_ge; [done|unfold zlen; lia].
Qed.

(** A key or value is valid when it is not empty and all of it is printable. *)
Theorem config_validate_spec s : config_validate_key (Some s) = 1 <-> s <> [] /\ Forall (fun c => 32 <= c <= 126) s.
Proof.
  unfold config_validate_key. destruct s as [|c s]; [split; [done|by intros [? _]]|].
  destruct (forallb printable (c :: s)) eqn:E; (split; [|try done]).
  - intros _. split; [done|]. rewrite forallb_forall in E. apply List.Forall_forall. intros x Hx. specialize (E x Hx).
    unfold printable in E. bool_hyps. lia.
  - done.
  - intros [_ H]. exfalso. enough (forallb printable (c :: s) = true) by congruence.
    apply forallb_forall. intros x Hx. rewrite List.Forall_forall in H. specialize (H x Hx). unfold printable. zbool.
Qed.

(** ** Samples *)

Definition sample_items : list ini_item := [ISection (lit "linux"); IKey (lit "kernel") (lit "/boot/vmlinuz")].

Lemma parse_ini_roundtrip_witness :
  parse_ini (fun _ => Some (concat (render_item <$> sample_items))) [98] 4 =
  Ret (Some [mk_menu_entry (lit "linux") (lit "kernel") (lit "/boot/vmlinuz")]).
Proof.
  apply (parse_ini_roundtrip (fun _ => Some (concat (render_item <$> sample_items))) [98] sample_items 4); [reflexivity|].
  assert (H : forall P (l : bytes) (d : forall x, Decision (P x)), forallb (fun x => bool_decide (P x)) l = true -> Forall P l).
  { intros P l d E. apply List.Forall_forall. rewrite forallb_forall in E. intros x Hx.
    apply (bool_decide_eq_true_1 _ (E x Hx)). }
  repeat apply Forall_cons_2; [| |apply Forall_nil_2].
  - repeat split; try lia; try (apply (H _ _ _); reflexivity).
  - split; [reflexivity|]. split; [reflexivity|].
    repeat split; try discriminate; (apply (H _ _ _); reflexivity).
Defined.

Lemma json_string_garbled_witness :
  config_json_parse (lit "{'kernel':'/vmlinuz'}" ) 4 = Ret [] /\
  config_json_parse ([123; 34] ++ lit "kernel" ++ [34; 58; 34] ++ lit "/vmlinuz" ++ [34; 125]) 4 =
  Ret [mk_json (lit "kernel" ++ [34; 58; 34] ++ lit "/vmlinuz" ++ [34; 125]) (lit "/vmlinuz" ++ [34])].
Proof.
  split; [reflexivity|].
  apply (json_string_garbled (lit "kernel") (lit "/vmlinuz") 4).
  - repeat (apply Forall_cons_2; [discriminate|]). apply Forall_nil_2.
  - reflexivity.
  - repeat (apply Forall_cons_2; [repeat split; discriminate|]). apply Forall_nil_2.
  - repeat (apply Forall_cons_2; [discriminate|]). apply Forall_nil_2.
  - discriminate.
  - reflexivity.
  - reflexivity.
Defined.
