(* ===== verification/Shell.v ===== *)
(** * The recovery shell (src/recovery/shell.c, shell_cmds.c, shell_net.c)

    Reading a command line, splitting it into arguments, executing it, and the
    endless loop around these as a step function over the characters still to be
    read from the console; the commands that format their answer into a caller's
    array.  shell_fs.c is in [ShellFs.v], shell_history.c in [Tables.v]. *)

From S2P Require Import Prelude.
From S2P Require Import BootConfig.
From S2P Require Import CString.
Import ListNotations.
#[local] Open Scope list_scope.

Definition MAX_CMD_LEN : Z := 256.
Definition MAX_ARGS : nat := 16.

(** [cmd_buffer] is the storage of [args]. *)
Definition shell_parse_command (input : bytes) : run (list bytes) :=
  if MAX_CMD_LEN <=? zlen input then UB
  else mret (take MAX_ARGS (strtok (fun c => c =? 32) input)).

Definition nl (s : bytes) : bytes := s ++ [10].
Definition clear_screen : bytes := [27; 91; 50; 74; 27; 91; 72].

(** What is printed. *)
Definition shell_execute_command (args : list bytes) : bytes :=
  match args with
  | [] => []
  | cmd :: rest =>
      if bool_decide (cmd = lit "help") then
        nl (lit "Available commands:") ++ nl (lit "  help     - Show this help") ++ nl (lit "  ls       - List files") ++
        nl (lit "  cat <file> - Show file contents") ++ nl (lit "  reboot   - Reboot system") ++
        nl (lit "  clear    - Clear screen")
      else if bool_decide (cmd = lit "ls") then nl (lit "Filesystem not mounted")
      else if bool_decide (cmd = lit "cat") then
        match rest with
        | file :: _ => nl (lit "File '" ++ file ++ lit "' not found")
        | [] => nl (lit "Usage: cat <filename>")
        end
      else if bool_decide (cmd = lit "reboot") then nl (lit "Rebooting...")
      else if bool_decide (cmd = lit "clear") then clear_screen
      else nl (lit "Unknown command: " ++ cmd)
  end.

Definition prompt : bytes := lit "bloodhorn> ".

(** [input], an array of 256 characters on the stack, as the string it holds
    ([None] before the first line), what is still to be read, what was printed. *)
Record shell := mk_shell { input : option bytes; stdin : bytes; output : bytes }.

(** One round of [while (1)]. *)
Definition shell_round (s : shell) : run shell :=
  let out := output s ++ prompt in
  let '(line, rest) := match stdin s with
                       | [] => (input s, [])
                       | t => let '(l, r) := fgets 255 t in (Some l, r)
                       end in
  match line with
  | None => UB
  | Some line =>
      if zlen line =? 0 then UB
      else
        let line := take (length line - 1) line in
        if 0 <? zlen line then
          args ← shell_parse_command line;
          mret (mk_shell (Some line) rest (out ++ shell_execute_command args))
        else mret (mk_shell (Some line) rest out)
  end.

Fixpoint shell_run (rounds : nat) (s : shell) : run shell :=
  match rounds with
  | O => mret s
  | S rounds => s ← shell_round s; shell_run rounds s
  end.

Definition shell_init : bytes := nl (lit "BloodHorn Rescue Shell v1.0") ++ nl (lit "Type 'help' for available commands").

(** [shell_start] runs [shell_init] and then the loop. *)
Definition shell_start (rounds : nat) (console : bytes) : run shell :=
  shell_run rounds (mk_shell None console shell_init).

(** ** Commands with a caller's array *)

(** [if (len > maxlen - 1) len = maxlen - 1; memcpy(out, help, len); out[len] = 0;] *)
Definition shell_cmd_help (out : bytes) (maxlen : Z) : run bytes :=
  let help := lit "help clear reboot ls cat exit" in
  let len := if maxlen - 1 <? zlen help then maxlen - 1 else zlen help in
  out ← memcpy out 0 help 0 len;
  wr out len 0.

Definition shell_cmd_clear : Z * bytes := (0, clear_screen).
Definition shell_cmd_exit : Z := 1.

(** The result and the string left in [out], for [maxlen > 0]; [echo] is what
    [pxe_icmp_echo] makes of the host. *)
Definition shell_cmd_ping (echo : bytes -> option Z) (host : bytes) (maxlen : Z) : Z * bytes :=
  match echo host with
  | Some rtt => (0, snprintf_s maxlen (nl (lit "Reply from " ++ host ++ lit ": time=" ++ print_int rtt ++ lit "ms")))
  | None => (-1, snprintf_s maxlen (nl (lit "No reply from " ++ host)))
  end.

Record pxe_network_info := mk_info {
  client_ip : Z; subnet_mask : Z; router_ip : Z; dns_server : Z;
  tftp_server : bytes; boot_file : bytes; domain_name : bytes
}.

(** [%u.%u.%u.%u] of the four bytes of a value in memory. *)
Definition dotted (v : Z) : bytes :=
  match le_bytes 4 v with
  | [a; b; c; d] => decimal a ++ 46 :: decimal b ++ 46 :: decimal c ++ 46 :: decimal d
  | _ => []
  end.

Definition shell_cmd_ifconfig (info : option pxe_network_info) (maxlen : Z) : Z * bytes :=
  match info with
  | None => (-1, snprintf_s maxlen (nl (lit "No network info available")))
  | Some i =>
      (0, snprintf_s maxlen
        (nl (lit "eth0: " ++ dotted (client_ip i)) ++ nl (lit "  netmask: " ++ dotted (subnet_mask i)) ++
         nl (lit "  gateway: " ++ dotted (router_ip i)) ++ nl (lit "  dns: " ++ dotted (dns_server i)) ++
         nl (lit "  tftp: " ++ tftp_server i) ++ nl (lit "  bootfile: " ++ boot_file i) ++
         nl (lit "  domain: " ++ domain_name i)))
  end.

(** ** Lemmas *)

Lemma shell_run_app n m s : shell_run (n + m) s = (t ← shell_run n s; shell_run m t).
Proof.
  revert s. induction n as [|n IH]; intros s; [done|]. cbn [shell_run Nat.add].
  destruct (shell_round s); bind_step; [apply IH|done|done].
Qed.

(** What a line makes the shell print. *)
Definition answer (line : bytes) : bytes :=
  shell_execute_command (take MAX_ARGS (strtok (fun c => c =? 32) line)).

Lemma parse_short line : zlen line < MAX_CMD_LEN ->
  shell_parse_command line = Ret (take MAX_ARGS (strtok (fun c => c =? 32) line)).
Proof. intros H. unfold shell_parse_command. by rewrite (proj2 (Z.leb_gt _ _)). Qed.

(** The line read loses its last character; an empty one is not executed, which
    prints as much as executing no arguments. *)
Lemma shell_round_line line i rest out : zlen line < 255 -> Forall (fun x => x <> 10) line ->
  shell_round (mk_shell i (line ++ [10] ++ rest) out) =
  Ret (mk_shell (Some line) rest (out ++ prompt ++ answer line)).
Proof.
  intros Hl Hn. unfold shell_round. cbn [stdin input output]. cbn [app].
  destruct (line ++ 10 :: rest) as [|x t] eqn:E; [by destruct line|].
  rewrite <- E, fgets_line by (try done; unfold zlen in Hl; lia).
  assert (Hz : (zlen (line ++ [10]) =? 0) = false).
  { apply Z.eqb_neq. rewrite zlen_app. pose proof (zlen_nonneg line). change (zlen [10]) with 1. lia. }
  rewrite Hz. rewrite length_app. cbn [length]. rewrite Nat.add_sub, take_app_length.
  destruct (Z.ltb_spec 0 (zlen line)).
  - rewrite parse_short by (unfold MAX_CMD_LEN; lia). bind_step. by rewrite <- app_assoc.
  - destruct line as [|y line]; [|unfold zlen in *; cbn in *; lia]. bind_step.
    change (answer []) with ([] : bytes). by rewrite app_nil_r.
Qed.

(** At the end of the input the last line stays in the array and loses its last
    character once more. *)
Lemma shell_round_eof line out :
  shell_round (mk_shell (Some line) [] out) =
  if zlen line =? 0 then UB
  else let line' := take (length line - 1) line in
    if zlen line' <? MAX_CMD_LEN then Ret (mk_shell (Some line') [] (out ++ prompt ++ answer line')) else UB.
Proof.
  unfold shell_round. cbn [stdin input output]. destruct (zlen line =? 0); [done|]. cbv zeta.
  set (l := take (length line - 1) line). destruct (Z.ltb_spec 0 (zlen l)) as [H|H].
  - unfold shell_parse_command. destruct (Z.leb_spec MAX_CMD_LEN (zlen l)), (Z.ltb_spec (zlen l) MAX_CMD_LEN); try lia; [done|].
    bind_step. by rewrite <- app_assoc.
  - rewrite (proj2 (Z.ltb_lt _ _)) by (unfold MAX_CMD_LEN; lia). bind_step.
    assert (l = []) as -> by (destruct l; [done|unfold zlen in H; cbn in H; lia]).
    change (answer []) with ([] : bytes). by rewrite app_nil_r.
Qed.

(** Lines of console input. *)
Definition console_lines (ls : list bytes) : bytes := concat (List.map nl ls).
Definition transcript (ls : list bytes) : bytes := concat (List.map (fun l => prompt ++ answer l) ls).

Lemma shell_lines ls : forall i rest out,
  Forall (fun l => zlen l < 255 /\ Forall (fun x => x <> 10) l) ls ->
  shell_run (length ls) (mk_shell i (console_lines ls ++ rest) out) =
  Ret (mk_shell (match last ls with Some l => Some l | None => i end) rest (out ++ transcript ls)).
Proof.
  induction ls as [|l ls IH]; intros i rest out Hls.
  { cbn. by rewrite app_nil_r. }
  apply Forall_cons_1 in Hls as [[Hl Hn] Hls]. cbn [length shell_run].
  unfold console_lines, transcript in *. cbn [List.map concat]. unfold nl at 1. rewrite <- !app_assoc.
  rewrite shell_round_line by done. bind_step. rewrite IH by done. f_equal. f_equal.
  - destruct ls as [|l' ls]; [done|]. rewrite last_cons_cons. destruct (last (l' :: ls)) eqn:E; [done|]. by apply last_None in E.
  - by rewrite <- !app_assoc.
Qed.

(** The lines executed once the input has ended: the last one, ever shorter. *)
Fixpoint shrinking (n : nat) (line : bytes) : list bytes :=
  match n with O => [] | S n => take n line :: shrinking n line end.

Lemma shell_eof_run n : forall line out, length line = n -> zlen line <= MAX_CMD_LEN ->
  shell_run n (mk_shell (Some line) [] out) = Ret (mk_shell (Some []) [] (out ++ transcript (shrinking n line))).
Proof.
  induction n as [|n IH]; intros line out Hn Hl.
  { destruct line; [|done]. cbn. by rewrite app_nil_r. }
  cbn [shell_run]. rewrite shell_round_eof. rewrite (proj2 (Z.eqb_neq _ _)) by (unfold zlen; lia).
  cbv zeta. rewrite Hn. replace (S n - 1)%nat with n by lia.
  assert (Hz : zlen (take n line) = Z.of_nat n) by (unfold zlen; rewrite length_take; lia).
  rewrite (proj2 (Z.ltb_lt _ _)) by (unfold zlen in *; lia). bind_step.
  rewrite IH by (unfold zlen in *; lia). f_equal. f_equal.
  unfold transcript. cbn [shrinking List.map concat]. rewrite <- !app_assoc. do 4 f_equal.
  assert (Hs : forall k, (k <= n)%nat -> shrinking k (take n line) = shrinking k line).
  { induction k as [|k IHk]; intros Hk; [done|]. cbn [shrinking]. rewrite take_take, IHk by lia. f_equal. f_equal. lia. }
  by rewrite Hs.
Qed.

(** ** Properties *)

(** C34.  The recovery shell answers the lines of the console one after the other; when the
    console's input ends, it does not notice: it executes the last line again and
    again, each time without its last character, and then writes before its input
    array.  No sequence of lines makes it return. *)
Theorem shell_session ls last : Forall (fun l => zlen l < 255 /\ Forall (fun x => x <> 10) l) (ls ++ [last]) ->
  let n := length (ls ++ [last]) in
  let console := console_lines (ls ++ [last]) in
  (exists s, shell_start n console = Ret s /\ output s = shell_init ++ transcript (ls ++ [last])) /\
  (exists s, shell_start (n + length last) console = Ret s /\
     output s = shell_init ++ transcript (ls ++ [last]) ++ transcript (shrinking (length last) last)) /\
  shell_start (n + length last + 1) console = UB.
Proof.
  intros Hls. cbv zeta. unfold shell_start. set (c := console_lines (ls ++ [last])).
  pose proof (shell_lines (ls ++ [last]) None [] shell_init Hls) as H. rewrite app_nil_r in H. fold c in H.
  rewrite last_snoc in H.
  assert (Hlen : zlen last <= MAX_CMD_LEN).
  { apply Forall_app in Hls as [_ Hls]. apply Forall_cons_1 in Hls as [[Hl _] _]. unfold MAX_CMD_LEN. lia. }
  assert (H2 : shell_run (length (ls ++ [last]) + length last) (mk_shell None c shell_init) =
    Ret (mk_shell (Some []) [] ((shell_init ++ transcript (ls ++ [last])) ++ transcript (shrinking (length last) last)))).
  { rewrite shell_run_app, H. bind_step. by apply shell_eof_run. }
  split_and!.
  - by eexists.
  - eexists. split; [exact H2|]. cbn [output]. by rewrite <- app_assoc.
  - rewrite shell_run_app, H2. bind_step. done.
Qed.

Lemma shell_session_witness :
  shell_start (2 + 4 + 1) (console_lines [lit "help"; lit "exit"]) = UB.
Proof.
  destruct (shell_session [lit "help"] (lit "exit")) as (_ & _ & H); [|exact H].
  repeat (apply Forall_cons_2; [split; [reflexivity|repeat (apply Forall_cons_2; [discriminate|]); apply Forall_nil_2]|]).
  apply Forall_nil_2.
Defined.
