(* ===== verification/ShellFs.v ===== *)
(** * The shell's file commands (src/recovery/shell_fs.c)

    [ls] and [cat] on FAT32 and ext2.  The functions of the drivers they call
    ([fat32_read_bootsector], [read_sector], [fat32_find_file] on a sector number,
    [fat32_read_file], [ext2_read_superblock], ...) are defined nowhere in the
    repository and are parameters.  The caller's array is [maxlen] bytes long. *)

From S2P Require Import Prelude.
From S2P Require Import BootConfig.
From S2P Require Import CString.
Import ListNotations.
#[local] Open Scope list_scope.

(** The fields of the boot sector and of the super block that are read. *)
Record fat32_bs := mk_bs {
  bs_bytes_per_sector : Z; bs_reserved_sectors : Z; bs_num_fats : Z; bs_root_entries : Z; bs_sectors_per_fat : Z }.

(** A name of the array: up to its NUL. *)
Fixpoint c_name (s : bytes) : bytes :=
  match s with [] => [] | c :: s => if c =? 0 then [] else c :: c_name s end.

(** [int n = snprintf(out + pos, maxlen - pos, "%s ", name); pos += n;]: what the
    array holds from its start, and [pos]. *)
Definition append_name (maxlen pos : Z) (text name : bytes) : Z * bytes :=
  (pos + (zlen name + 1), take (Z.to_nat pos) text ++ snprintf_s (maxlen - pos) (name ++ [32])).

(** [out[pos] = 0], behind the loop. *)
Definition terminate (maxlen : Z) (r : Z * bytes) : run (Z * bytes) :=
  if maxlen <=? fst r then UB else mret (0, take (Z.to_nat (fst r)) (snd r)).

Section Fs.
Context (read_sector : Z -> bytes).

(** [read_sector(lba, array)] into an array of [size] bytes. *)
Definition read_into (size lba : Z) : run bytes :=
  if size <? zlen (read_sector lba) then UB else mret (read_sector lba).

(** The loop over 32-byte entries: [n] more, from [i]. *)
Fixpoint ls_fat32_loop (n : nat) (dir : bytes) (maxlen i pos : Z) (text : bytes) : Z * bytes :=
  match n with
  | O => (pos, text)
  | S n =>
      if zget dir i =? 0 then (pos, text)
      else if zget dir i =? 0xE5 then ls_fat32_loop n dir maxlen (i + 32) pos text
      else if negb (Z.land (zget dir (i + 11)) 0x10 =? 0) then ls_fat32_loop n dir maxlen (i + 32) pos text
      else
        let '(pos, text) := append_name maxlen pos text (c_name (sub dir i 11)) in
        if maxlen - 1 <=? pos then (pos, text) else ls_fat32_loop n dir maxlen (i + 32) pos text
  end.

Definition shell_cmd_ls_fat32 (fat32_read_bootsector : Z -> fat32_bs) (lba maxlen : Z) : run (Z * bytes) :=
  let bs := fat32_read_bootsector lba in
  if bs_bytes_per_sector bs =? 0 then UB
  else
    let root_dir_start := u32 (u32 (lba + bs_reserved_sectors bs) + bs_num_fats bs * bs_sectors_per_fat bs) in
    dir ← read_into 512 root_dir_start;
    terminate maxlen (ls_fat32_loop 16 dir maxlen 0 0 []).

(** The status, and the array when it was filled: [data] and a NUL in its last
    byte. *)
Definition shell_cmd_cat_fat32 (fat32_find_file : Z -> bytes -> option Z) (fat32_read_file : Z -> Z -> Z -> bytes)
    (lba : Z) (filename : bytes) (maxlen : Z) : run (Z * option bytes) :=
  match fat32_find_file lba filename with
  | None => mret (-1, None)
  | Some cluster => out ← wr (fat32_read_file lba cluster maxlen) (maxlen - 1) 0; mret (0, Some out)
  end.

(** The records of a directory block: [name_len] bytes at [offset + 8]. *)
Fixpoint ls_ext2_loop (fuel : nat) (dir : bytes) (maxlen offset pos : Z) (text : bytes) : run (Z * bytes) :=
  if offset <? 1024 then
    match fuel with
    | O => OutOfFuel
    | S fuel =>
        inode_num ← rd_le dir offset 4;
        rec_len ← rd_le dir (offset + 4) 2;
        name_len ← rd dir (offset + 6);
        if zlen dir <? offset + 8 + name_len then UB
        else
          let '(pos, text) := if inode_num =? 0 then (pos, text)
                              else append_name maxlen pos text (c_name (sub dir (offset + 8) name_len)) in
          if negb (inode_num =? 0) && (maxlen - 1 <=? pos) then mret (pos, text)
          else if rec_len =? 0 then mret (pos, text)
          else ls_ext2_loop fuel dir maxlen (u32 (offset + rec_len)) pos text
    end
  else mret (pos, text).

(** [sb.s_log_block_size] decides the block size; the array of a group descriptor
    is 32 bytes, that of an inode 128, that of the directory 1024. *)
Definition shell_cmd_ls_ext2 (s_log_block_size : Z -> Z) (lba maxlen : Z) : run (Z * bytes) :=
  let block_size := u32 (Z.shiftl 1024 (s_log_block_size lba)) in
  group_desc ← read_into 32 (u32 (lba + 2 + block_size / 512));
  inode_table ← rd_le group_desc 8 4;
  inode ← read_into 128 (u32 (lba + inode_table * (block_size / 512)));
  dir_block ← rd_le inode 40 4;
  dir ← read_into 1024 (u32 (lba + dir_block * (block_size / 512)));
  r ← ls_ext2_loop 1024 dir maxlen 0 0 [];
  terminate maxlen r.

Definition shell_cmd_cat_ext2 (ext2_find_file_in_root : Z -> bytes -> option Z) (ext2_read_file : Z -> Z -> Z -> bytes)
    (lba : Z) (filename : bytes) (maxlen : Z) : run (Z * option bytes) :=
  match ext2_find_file_in_root lba filename with
  | None => mret (-1, None)
  | Some inode_num => out ← wr (ext2_read_file lba inode_num maxlen) (maxlen - 1) 0; mret (0, Some out)
  end.
End Fs.

(** ** Properties *)

(** The names a directory sector lists: of files, up to the end mark. *)
Fixpoint fat32_names (n : nat) (dir : bytes) (i : Z) : list bytes :=
  match n with
  | O => []
  | S n =>
      if zget dir i =? 0 then []
      else if (zget dir i =? 0xE5) || negb (Z.land (zget dir (i + 11)) 0x10 =? 0) then fat32_names n dir (i + 32)
      else c_name (sub dir i 11) :: fat32_names n dir (i + 32)
  end.

Definition listing (names : list bytes) : bytes := concat ((fun s => s ++ [32]) <$> names).

Lemma ls_loop_ok dir maxlen n : forall i text, zlen text + zlen (listing (fat32_names n dir i)) < maxlen - 1 ->
  ls_fat32_loop n dir maxlen i (zlen text) text =
  (zlen (text ++ listing (fat32_names n dir i)), text ++ listing (fat32_names n dir i)).
Proof.
  induction n as [|n IH]; intros i text Hl; cbn [ls_fat32_loop fat32_names]; [by rewrite app_nil_r|].
  cbn [fat32_names] in Hl. destruct (zget dir i =? 0); [by rewrite app_nil_r|].
  destruct (zget dir i =? 0xE5); cbn [orb] in *; [by apply IH|].
  destruct (negb (Z.land (zget dir (i + 11)) 16 =? 0)); [by apply IH|].
  set (name := c_name (sub dir i 11)) in *. change (listing (name :: ?l)) with ((name ++ [32]) ++ listing l) in *.
  assert (Hz : zlen (name ++ [32]) = zlen name + 1) by (rewrite zlen_app; done). pose proof (zlen_nonneg (listing (fat32_names n dir (i + 32)))).
  rewrite zlen_app, Hz in Hl. unfold append_name. cbv zeta.
  assert (Et : take (Z.to_nat (zlen text)) text = text) by (unfold zlen; rewrite Nat2Z.id; by apply take_ge).
  rewrite Et, snprintf_short by (rewrite Hz; lia). rewrite (proj2 (Z.leb_gt _ _)) by lia.
  replace (zlen text + (zlen name + 1)) with (zlen (text ++ (name ++ [32]))) by (rewrite zlen_app, Hz; lia).
  rewrite IH by (rewrite zlen_app, Hz; lia). by rewrite <- !app_assoc.
Qed.

(** [ls] on FAT32: when the listing is shorter than the array, it is stored as it
    is: the names of the files of the directory sector, each with a blank. *)
Theorem ls_fat32_functional read_sector bsf lba maxlen dir :
  let bs := bsf lba in
  bs_bytes_per_sector bs <> 0 ->
  read_sector (u32 (u32 (lba + bs_reserved_sectors bs) + bs_num_fats bs * bs_sectors_per_fat bs)) = dir -> zlen dir = 512 ->
  zlen (listing (fat32_names 16 dir 0)) < maxlen - 1 ->
  shell_cmd_ls_fat32 read_sector bsf lba maxlen = Ret (0, listing (fat32_names 16 dir 0)).
Proof.
  intros bs Hb Hd Hl Hm. unfold shell_cmd_ls_fat32, read_into. fold bs. rewrite (proj2 (Z.eqb_neq _ _) Hb). rewrite Hd, Hl.
  change (512 <? 512) with false. cbv iota. bind_step.
  pose proof (ls_loop_ok dir maxlen 16 0 [] ltac:(change (zlen []) with 0; lia)) as E. change (zlen []) with 0 in E. cbn [app] in E.
  rewrite E. unfold terminate. cbn [fst snd]. rewrite (proj2 (Z.leb_gt _ _)) by lia. unfold zlen. rewrite Nat2Z.id, take_ge by done. done.
Qed.

Definition one_file_dir : bytes := lit "KERNEL  BIN" ++ zeros 501.
Definition demo_bs (_ : Z) : fat32_bs := mk_bs 512 32 2 0 100.

Lemma ls_fat32_functional_witness :
  shell_cmd_ls_fat32 (fun _ => one_file_dir) demo_bs 0 64 = Ret (0, lit "KERNEL  BIN ").
Proof. apply (ls_fat32_functional (fun _ => one_file_dir) demo_bs 0 64 one_file_dir); try done; by vm_compute. Defined.

(** The number of characters [snprintf] would have written is added to the
    position: a name that does not fit moves it behind the array, and the NUL is
    stored there. *)
Theorem ls_fat32_overflow : shell_cmd_ls_fat32 (fun _ => one_file_dir) demo_bs 0 8 = UB.
Proof. reflexivity. Qed.

(** [ls] on ext2 reads a sector of 512 bytes into an array of 32: it is undefined
    on every volume. *)
Theorem ls_ext2_undefined read_sector s_log lba maxlen : (forall a, zlen (read_sector a) = 512) ->
  shell_cmd_ls_ext2 read_sector s_log lba maxlen = UB.
Proof. intros H. unfold shell_cmd_ls_ext2, read_into. rewrite H. reflexivity. Qed.
