(* ===== verification/Localization.v ===== *)
(** * Localisation and theme (src/boot/localization.c, theme.c)

    Reading \locales\<language>.ini into a table of strings, and looking a string
    up there and in the built-in English and Spanish tables.  A wide string is the
    list of its code units.  The file system is that of [BootConfig.v]; the pool
    allocator is a parameter that answers the [n]-th request of the parser. *)

From Stdlib Require Import String.
From S2P Require Import Prelude.
From S2P Require Import BootConfig.
From S2P Require Import CString.
Import ListNotations.
#[local] Open Scope list_scope.

(** The built-in strings: key, English, Spanish. *)
Definition table : list (bytes * bytes * bytes) :=
  [(lit "menu_title", lit "BloodHorn Boot Menu", lit "Men" ++ [250] ++ lit " de Arranque BloodHorn");
   (lit "select", lit "Select", lit "Seleccionar");
   (lit "boot", lit "Boot", lit "Arrancar");
   (lit "exit", lit "Exit", lit "Salir");
   (lit "instructions", [8593; 47; 8595] ++ lit ": Select  Enter: Boot  ESC: Exit",
                        [8593; 47; 8595] ++ lit ": Seleccionar  Enter: Arrancar  ESC: Salir")].

(** [g_loc] with its count ([None] is NULL), and [current_lang]. *)
Record locale := mk_locale { g_loc : option (list (bytes * bytes)); current_lang : bytes }.

Definition free_locale_table (st : locale) : locale := mk_locale None (current_lang st).

(** ** Parsing *)

(** The number of lines from which a '=' can still be found. *)
Fixpoint locale_count (fuel : nat) (p : bytes) : Z :=
  match p, fuel with
  | [], _ | _, O => 0
  | _, S fuel =>
      (if AsciiStrStr p [61] then 1 else 0) + locale_count fuel (snd (next_line p))
  end.

Definition blank (c : Z) : bool := (c =? 32) || (c =? 9).

(** [while (vl > 0 && ...) { v[vl-1] = 0; vl--; }] *)
Fixpoint trim_end (n : nat) (v : bytes) : bytes :=
  match n with
  | O => v
  | S n => if (zget v (zlen v - 1) =? 13) || blank (zget v (zlen v - 1)) then trim_end n (take (length v - 1) v) else v
  end.

(** The key and the value of a line, if it has them. *)
Definition locale_entry (line : bytes) : option (bytes * bytes) :=
  if (zget line 0 =? 35) || (zget line 0 =? 59) then None
  else match split_at 61 line with
  | None => None
  | Some (k, v) =>
      let v := drop_while blank v in
      Some (drop_while blank k, trim_end (length v) v)
  end.

Section Parse.
Context (alloc : nat -> bool).

(** The loop over the lines, after [n] requests; [cap] is the size of the table,
    [None] for a table that could not be allocated. *)
Fixpoint locale_loop (fuel n : nat) (p : bytes) (cap : option Z) (tbl : list (bytes * bytes))
  : run (list (bytes * bytes)) :=
  match p, fuel with
  | [], _ => mret tbl
  | _, O => OutOfFuel
  | _, S fuel =>
      let '(line, rest) := next_line p in
      if negb (alloc n) then mret tbl
      else match locale_entry line with
      | None => locale_loop fuel (n + 1) rest cap tbl
      | Some kv =>
          if negb (alloc (n + 1)) then mret tbl
          else if negb (alloc (n + 2)) then mret tbl
          else match cap with
          | None => UB
          | Some cap => if cap <=? zlen tbl then UB else locale_loop fuel (n + 3) rest (Some cap) (tbl ++ [kv])
          end
      end
  end.

Definition locale_cap (text : bytes) : Z :=
  let count := locale_count (length text) text in if count =? 0 then 1 else count.

Definition parse_locale_ini (text : bytes) (st : locale) : run locale :=
  tbl ← locale_loop (length text) 1 text (if alloc 0 then Some (locale_cap text) else None) [];
  mret (mk_locale (if alloc 0 then Some tbl else None) (current_lang st)).

(** [UnicodeSPrint(path, sizeof(path), L"\\locales\\%a.ini", current_lang)], 64 characters. *)
Definition locale_path (lang : bytes) : string :=
  name_string (take 63 (lit "\locales\" ++ lang ++ lit ".ini")).

(** [root] is what [get_root] gives. *)
Definition SetLanguage (root : Z + efi_dir) (lang_code : option bytes) (st : locale) : run locale :=
  let lang := match lang_code with None | Some [] => lit "en" | Some l => l end in
  let st := mk_locale (g_loc st) lang in
  match root with
  | inl _ => mret (free_locale_table st)
  | inr dir =>
      r ← ReadWholeFileAscii dir (locale_path lang);
      match snd r with
      | Some buf => parse_locale_ini (c_string buf) st
      | None => mret (free_locale_table st)
      end
  end.

End Parse.

(** ** Looking a string up *)

Definition builtin_string (lang key : bytes) : bytes :=
  match List.find (fun e => bool_decide (fst (fst e) = key)) table with
  | Some (_, en, es) => if bool_decide (lang = lit "es") then es else en
  | None => []
  end.

Definition GetLocalizedString (st : locale) (key : bytes) : bytes :=
  match g_loc st with
  | None => builtin_string (current_lang st) key
  | Some tbl =>
      match List.find (fun e => bool_decide (fst e = key)) tbl with
      | Some (_, value) => value
      | None => builtin_string (current_lang st) key
      end
  end.

(** ** The theme (theme.c) *)

Record BootMenuTheme := mk_theme {
  background_color : Z; header_color : Z; highlight_color : Z; text_color : Z;
  selected_text_color : Z; footer_color : Z; background_image : option Z
}.

Definition default_theme : BootMenuTheme := mk_theme 0x1A1A2E 0x2D2D4F 0x4A4A8A 0xCCCCCC 0xFFFFFF 0x8888AA None.
Definition SetBootMenuTheme (current theme : BootMenuTheme) : BootMenuTheme := theme.

(** ** The table is large enough *)

Lemma strstr_eq a b : split_at 61 a = None \/ AsciiStrStr (a ++ b) [61] <> None.
Proof.
  induction a as [|c a IH]; [by left|]. cbn [split_at AsciiStrStr prefix_of app].
  destruct (Z.eqb_spec c 61) as [->|Hc]; [right; by cbn|]. cbn [andb].
  destruct IH as [->|H]; [by left|by right].
Qed.

Lemma next_line_split p : exists b, p = fst (next_line p) ++ b /\ (length (snd (next_line p)) < length p \/ p = [])%nat.
Proof.
  unfold next_line. destruct (split_at 10 p) as [[l r]|] eqn:E; cbn [fst snd].
  - exists (10 :: r). split; [|left; apply split_at_length in E; lia].
    revert l E. induction p as [|c p IH]; intros l; cbn [split_at]; [done|].
    destruct (Z.eqb_spec c 10) as [->|]; [by intros [= <- <-]|].
    destruct (split_at 10 p) as [[a' b']|]; [|done]. intros [= <- <-]. cbn [app]. f_equal. by apply IH.
  - exists []. rewrite app_nil_r. split; [done|]. destruct p; [by right|left; cbn; lia].
Qed.

Lemma locale_entry_counts line b kv : locale_entry line = Some kv -> AsciiStrStr (line ++ b) [61] <> None.
Proof.
  unfold locale_entry. destruct (_ || _); [done|]. destruct (strstr_eq line b) as [->|H]; [done|]. done.
Qed.

Lemma locale_count_nonneg fuel p : 0 <= locale_count fuel p.
Proof.
  revert p. induction fuel as [|fuel IH]; intros [|c p]; cbn [locale_count]; try lia.
  specialize (IH (snd (next_line (c :: p)))). destruct (AsciiStrStr _ _); lia.
Qed.

Lemma locale_loop_fits alloc fuel : forall n p cap tbl, (length p <= fuel)%nat ->
  zlen tbl + locale_count fuel p <= cap -> 
  exists tbl', locale_loop alloc fuel n p (Some cap) tbl = Ret tbl' /\ zlen tbl' <= cap.
Proof.
  induction fuel as [|fuel IH]; intros n p cap tbl Hf Hc.
  { destruct p; [|cbn in Hf; lia]. exists tbl. split; [done|]. cbn in Hc. lia. }
  destruct p as [|c p].
  { exists tbl. split; [done|]. cbn in Hc. lia. }
  cbn [locale_count locale_loop] in *. destruct (next_line_split (c :: p)) as (b & Eb & Hl).
  destruct (next_line (c :: p)) as [line rest]. cbn [fst snd] in *.
  assert (Hr : (length rest <= fuel)%nat) by (destruct Hl as [Hl|?]; [cbn [length] in *; lia|done]).
  pose proof (locale_count_nonneg fuel rest) as Hp.
  assert (Hle : zlen tbl <= cap) by (destruct (AsciiStrStr (c :: p) [61]); lia).
  destruct (negb (alloc n)); [by exists tbl|].
  destruct (locale_entry line) as [kv|] eqn:Ek.
  - apply (locale_entry_counts line b) in Ek. rewrite <- Eb in Ek.
    destruct (AsciiStrStr (c :: p) [61]); [|done].
    destruct (negb (alloc (n + 1)%nat)); [by exists tbl|]. destruct (negb (alloc (n + 2)%nat)); [by exists tbl|].
    rewrite (proj2 (Z.leb_gt _ _)) by lia. apply IH; [done|]. rewrite zlen_app. change (zlen [kv]) with 1. lia.
  - apply IH; [done|]. destruct (AsciiStrStr (c :: p) [61]); lia.
Qed.

(** ** Printing and reading a locale file *)

Definition locale_line (kv : bytes * bytes) : bytes := fst kv ++ 61 :: snd kv.

(** No blank around the sign or at the line's ends, no comment, one line. *)
Definition pair_ok (kv : bytes * bytes) : Prop :=
  let '(k, v) := kv in
  Forall (fun c => c <> 61 /\ c <> 10 /\ c <> 0) k /\ Forall (fun c => c <> 10 /\ c <> 0) v /\
  k <> [] /\ Forall (fun c => c <> zget k 0) [35; 59; 32; 9] /\ Forall (fun c => c <> zget v 0) [32; 9] /\
  Forall (fun c => c <> zget v (zlen v - 1)) [13; 32; 9].

Lemma drop_blank s : Forall (fun c => c <> zget s 0) [32; 9] -> drop_while blank s = s.
Proof.
  intros H. destruct s as [|c s]; [done|]. change (zget (c :: s) 0) with c in H. rewrite !Forall_cons in H.
  destruct H as (H1 & H2 & _). cbn [drop_while].
  by replace (blank c) with false by (symmetry; unfold blank; zbool).
Qed.

Lemma trim_end_id n v : Forall (fun c => c <> zget v (zlen v - 1)) [13; 32; 9] -> trim_end n v = v.
Proof.
  intros H. rewrite !Forall_cons in H. destruct H as (H1 & H2 & H3 & _). destruct n; [done|]. cbn [trim_end].
  by replace (_ || _) with false by (symmetry; unfold blank; zbool).
Qed.

Lemma locale_line_entry kv : pair_ok kv -> locale_entry (locale_line kv) = Some kv.
Proof.
  destruct kv as [k v]. intros (Hk & Hv & Hn & Hh & Hb & Ht). unfold locale_entry, locale_line. cbn [fst snd].
  destruct k as [|c k]; [done|]. change (zget (c :: k) 0) with c in Hh.
  change (zget ((c :: k) ++ 61 :: v) 0) with c. rewrite !Forall_cons in Hh. destruct Hh as (H1 & H2 & H3 & H4 & _).
  replace (_ || _) with false by (symmetry; zbool).
  rewrite (split_at_app 61 (c :: k)) by (eapply Forall_impl; [exact Hk|]; by intros x (Hx & _)).
  cbv zeta. rewrite (drop_blank v) by done.
  rewrite (drop_blank (c :: k)) by (change (zget (c :: k) 0) with c; repeat constructor; done).
  by rewrite trim_end_id.
Qed.

Lemma locale_line_plain kv : pair_ok kv -> no_newline (locale_line kv) /\ Forall (fun c => c <> 0) (locale_line kv).
Proof.
  destruct kv as [k v]. intros (Hk & Hv & _). unfold no_newline, locale_line. cbn [fst snd]. rewrite !Forall_app, !Forall_cons.
  split_and!; try done; (eapply Forall_impl; [exact Hk || exact Hv|]; cbv beta; tauto).
Qed.

Lemma locale_loop_lines alloc kvs : forall fuel n cap tbl tbl',
  (forall k, alloc k = true) -> Forall pair_ok kvs ->
  locale_loop alloc fuel n (unlines (locale_line <$> kvs)) cap tbl = Ret tbl' -> tbl' = tbl ++ kvs.
Proof.
  induction kvs as [|kv kvs IH]; intros fuel n cap tbl tbl' Ha Hk.
  { destruct fuel; intros [= <-]; by rewrite app_nil_r. }
  apply Forall_cons_1 in Hk as [Hk Hks]. destruct (locale_line_plain kv Hk) as [Hn _].
  cbn [fmap list_fmap]. change (unlines (?l :: ?ls)) with ((l ++ [10]) ++ unlines ls).
  rewrite <- app_assoc. cbn [app]. destruct fuel as [|fuel]; cbn [locale_loop];
    destruct (locale_line kv ++ 10 :: _) eqn:E; try (by destruct (locale_line kv)); try done. rewrite <- E.
  unfold next_line. rewrite split_at_app by done. rewrite !Ha. cbn [negb]. rewrite locale_line_entry by done.
  destruct cap as [cap|]; [|done]. destruct (cap <=? zlen tbl); [done|]. intros H. apply IH in H; [|done|done].
  by rewrite H, <- app_assoc.
Qed.

Lemma c_string_plain s : Forall (fun c => c <> 0) s -> c_string s = s.
Proof. induction 1 as [|c s Hc Hs IH]; [done|]. cbn [c_string]. by rewrite (proj2 (Z.eqb_neq c 0)), IH. Qed.

(** ** Properties *)

(** Parsing a locale file cannot overrun the table it allocates: for every text and
    every pattern of failing line allocations, once the table itself is
    allocated the parser returns with at most as many entries as the table has
    places (the first pass counts a line when a '=' follows anywhere behind its
    start, which is at least the number of entries). *)
Theorem locale_table_fits alloc text st : alloc 0%nat = true ->
  exists tbl, parse_locale_ini alloc text st = Ret (mk_locale (Some tbl) (current_lang st)) /\
    zlen tbl <= locale_cap text.
Proof.
  intros Ha. unfold parse_locale_ini. rewrite Ha.
  destruct (locale_loop_fits alloc (length text) 1 text (locale_cap text) []) as (tbl & -> & H).
  - done.
  - change (@zlen (bytes * bytes) []) with 0. unfold locale_cap. destruct (Z.eqb_spec (locale_count (length text) text) 0); lia.
  - bind_step. by exists tbl.
Qed.

(** A locale file is honoured: when \locales\<language>.ini holds a list of keys and
    values and every allocation succeeds, selecting the language makes every key
    of the file give the value of its first line, and every other key the
    built-in string of the language. *)
Theorem set_language_roundtrip alloc dir lang st kvs :
  (forall n, alloc n = true) -> lang <> [] ->
  ReadWholeFileAscii dir (locale_path lang) = Ret (EFI_SUCCESS, Some (unlines (locale_line <$> kvs))) ->
  Forall pair_ok kvs ->
  exists st', SetLanguage alloc (inr dir) (Some lang) st = Ret st' /\ forall key,
    GetLocalizedString st' key =
    match List.find (fun e => bool_decide (fst e = key)) kvs with
    | Some (_, value) => value
    | None => builtin_string lang key
    end.
Proof.
  intros Ha Hl Hr Hk. unfold SetLanguage. destruct lang as [|c lang]; [done|]. rewrite Hr. bind_step. cbn [snd].
  assert (Hp : Forall (fun c => c <> 0) (unlines (locale_line <$> kvs))).
  { unfold unlines. apply Forall_concat. clear Hr. induction Hk as [|kv kvs Hkv Hk IH]; [constructor|].
    cbn [fmap list_fmap List.map]. constructor; [|done].
    apply Forall_app. split; [by apply locale_line_plain|]. by repeat constructor. }
  rewrite c_string_plain by done.
  set (text := unlines _) in *.
  destruct (locale_loop_fits alloc (length text) 1 text (locale_cap text) []) as (tbl & E & _).
  - done.
  - change (@zlen (bytes * bytes) []) with 0. unfold locale_cap. destruct (Z.eqb_spec (locale_count (length text) text) 0); lia.
  - unfold parse_locale_ini. rewrite Ha, E. bind_step. eexists. split; [reflexivity|]. intros key.
    apply locale_loop_lines in E as ->; [|done|done]. reflexivity.
Qed.

(** ** Samples *)

Definition sample_pairs : list (bytes * bytes) := [(lit "boot", lit "Starten"); (lit "boot", lit "X")].
Definition sample_locale_dir : efi_dir := fun path =>
  if bool_decide (path = locale_path (lit "de")) then inr (sample_file (unlines (locale_line <$> sample_pairs)))
  else inl EFI_NOT_FOUND.

Lemma locale_table_fits_witness :
  exists tbl, parse_locale_ini (fun _ => true) (lit "a=b") (mk_locale None []) = Ret (mk_locale (Some tbl) []) /\
    zlen tbl <= locale_cap (lit "a=b").
Proof. apply (locale_table_fits (fun _ => true) (lit "a=b") (mk_locale None [])). reflexivity. Defined.

Lemma set_language_roundtrip_witness :
  exists st', SetLanguage (fun _ => true) (inr sample_locale_dir) (Some (lit "de")) (mk_locale None []) = Ret st' /\
    GetLocalizedString st' (lit "boot") = lit "Starten" /\ GetLocalizedString st' (lit "exit") = lit "Exit".
Proof.
  destruct (set_language_roundtrip (fun _ => true) sample_locale_dir (lit "de") (mk_locale None [])
    sample_pairs) as (st' & E & H).
  - reflexivity.
  - discriminate.
  - reflexivity.
  - repeat (apply Forall_cons_2; [|]); [| |apply Forall_nil_2];
      (split_and!; repeat first [apply Forall_nil_2|apply Forall_cons_2; [vm_compute; repeat split; discriminate|]]); discriminate.
  - exists st'. split; [exact E|]. split; apply H.
Defined.
