(* ===== verification/Graphics.v ===== *)
(** * Screen output (src/uefi/graphics.c)

    The choice of the video mode, and rectangles drawn into the frame buffer.
    [GraphicsOutput] is [None] while no graphics protocol has been located.  The
    frame buffer is a list of 32-bit pixels, and a store outside it is undefined
    behaviour. *)

From S2P Require Import Prelude.
Import ListNotations.
#[local] Open Scope list_scope.

(** ** Choosing a mode *)

(** What the firmware answers: the status of [LocateProtocol], the current mode,
    [MaxMode], [QueryMode] (a status or a resolution) and [SetMode]. *)
Record gop := mk_gop {
  locate_status : Z; cur_mode : Z; max_mode : nat;
  query_mode : Z -> Z + (Z * Z); set_mode : Z -> Z
}.

(** [BestMode], [BestWidth] and [BestHeight] after one more mode. *)
Definition better_mode (g : gop) (best : Z * Z * Z) (i : Z) : Z * Z * Z :=
  let '(m, w, h) := best in
  match query_mode g i with
  | inl _ => best
  | inr (w', h') => if wrap 32 (w * h) <? wrap 32 (w' * h') then (i, w', h') else best
  end.

Definition best_mode (g : gop) : Z * Z * Z :=
  fold_left (better_mode g) (seqZ 0 (Z.of_nat (max_mode g))) (0, 0, 0).

(** The status, and the mode that was set when there was one to set. *)
Definition InitializeGraphics (g : gop) : Z * option Z :=
  if EFI_ERROR (locate_status g) then (locate_status g, None)
  else match query_mode g (cur_mode g) with
  | inl status => (status, None)
  | inr _ =>
      let '(m, _, _) := best_mode g in
      if negb (m =? cur_mode g) then
        let status := set_mode g m in
        if EFI_ERROR status then (status, None) else (EFI_SUCCESS, Some m)
      else (EFI_SUCCESS, None)
  end.

(** ** Drawing *)

(** [Mode->Info] and the frame buffer. *)
Record screen := mk_screen {
  HorizontalResolution : Z; VerticalResolution : Z; PixelsPerScanLine : Z; framebuffer : list Z
}.
Definition set_fb (s : screen) (fb : list Z) : screen :=
  mk_screen (HorizontalResolution s) (VerticalResolution s) (PixelsPerScanLine s) fb.

(** The stores of a loop, in order: [Framebuffer[i] = c]. *)
Fixpoint plot (ws : list (Z * Z)) (fb : list Z) : run (list Z) :=
  match ws with
  | [] => mret fb
  | (i, c) :: ws => fb ← wr fb i c; plot ws fb
  end.

(** [y * PixelsPerScanline + x], in 32 bits. *)
Definition pixel_index (s : screen) (x y : Z) : Z := wrap 32 (y * PixelsPerScanLine s + x).

(** The two nested loops, for [y] up to [ye] and [x] up to [xe]. *)
Definition rect_writes (s : screen) (color x xe y ye : Z) : list (Z * Z) :=
  flat_map (fun y => map (fun x => (pixel_index s x y, color)) (seqZ x (xe - x))) (seqZ y (ye - y)).

Definition DrawRect (GraphicsOutput : option screen) (X Y Width Height Color : Z) : run (Z * option screen) :=
  match GraphicsOutput with
  | None => mret (EFI_NOT_READY, None)
  | Some s =>
      if (HorizontalResolution s <=? X) || (VerticalResolution s <=? Y)
      then mret (EFI_INVALID_PARAMETER, Some s)
      else
        let Width := if HorizontalResolution s <? wrap 32 (X + Width)
                     then wrap 32 (HorizontalResolution s - X) else Width in
        let Height := if VerticalResolution s <? wrap 32 (Y + Height)
                      then wrap 32 (VerticalResolution s - Y) else Height in
        fb ← plot (rect_writes s Color X (wrap 32 (X + Width)) Y (wrap 32 (Y + Height))) (framebuffer s);
        mret (EFI_SUCCESS, Some (set_fb s fb))
  end.

Definition ClearScreen (GraphicsOutput : option screen) (Color : Z) : run (Z * option screen) :=
  match GraphicsOutput with
  | None => mret (EFI_NOT_READY, None)
  | Some s => DrawRect (Some s) 0 0 (HorizontalResolution s) (VerticalResolution s) Color
  end.

(** ** The stores of a loop *)

(** No pixel is given two colours. *)
Definition consistent (ws : list (Z * Z)) : Prop :=
  forall i c c', In (i, c) ws -> In (i, c') ws -> c = c'.

Lemma wr_in (fb : list Z) i c : 0 <= i < zlen fb -> wr fb i c = Ret (zset fb i c).
Proof. intros H. unfold wr. by rewrite (proj2 (Z.leb_le 0 i)), (proj2 (Z.ltb_lt i _)) by lia. Qed.

(** Stores inside the frame buffer: each pixel has its new colour, the others
    are as before. *)
Lemma plot_spec ws : consistent ws -> forall fb, (forall i c, In (i, c) ws -> 0 <= i < zlen fb) ->
  exists fb', plot ws fb = Ret fb' /\ zlen fb' = zlen fb /\
    (forall i c, In (i, c) ws -> zget fb' i = c) /\
    (forall j, 0 <= j -> (forall c, ~ In (j, c) ws) -> zget fb' j = zget fb j).
Proof.
  induction ws as [|[i c] ws IH]; intros Hc fb Hr; [by exists fb|]. cbn [plot].
  rewrite wr_in by (apply (Hr i c); by left). bind_step.
  destruct (IH ltac:(intros j d d' H H'; apply (Hc j d d'); by right) (zset fb i c)) as (fb' & E & El & Eg & Ek).
  { intros j d H. rewrite zlen_zset. apply (Hr j d). by right. }
  rewrite zlen_zset in El. exists fb'. split; [done|]. split; [done|]. split.
  - intros j d [[= <- <-]|H]; [|by apply Eg].
    pose proof (Hr i c (or_introl eq_refl)) as Hi.
    destruct (in_dec (Z.eq_dec) i (map fst ws)) as [Hin|Hin].
    + apply in_map_iff in Hin as ([j d] & E1 & Hin). cbn in E1. subst j. rewrite (Eg _ _ Hin).
      symmetry. apply (Hc i); [by left|by right].
    + rewrite Ek; [|lia|].
      * rewrite zget_zset by lia. by rewrite Z.eqb_refl, (proj2 (Z.ltb_lt _ _)) by lia.
      * intros d H. apply Hin. apply in_map_iff. by exists (i, d).
  - intros j Hj H. rewrite Ek; [|done|intros d Hd; apply (H d); by right].
    pose proof (Hr i c (or_introl eq_refl)) as Hi. rewrite zget_zset by lia.
    destruct (Z.eqb_spec i j) as [->|]; [exfalso; apply (H c); by left|done].
Qed.

(** ** Rectangles *)

(** A screen with a frame buffer for all its lines that 32-bit pixel numbers can
    address. *)
Definition screen_ok (s : screen) : Prop :=
  0 <= HorizontalResolution s <= PixelsPerScanLine s /\ 0 <= VerticalResolution s < 2 ^ 32 /\
  PixelsPerScanLine s * VerticalResolution s <= zlen (framebuffer s) /\
  PixelsPerScanLine s * VerticalResolution s < 2 ^ 32 /\ PixelsPerScanLine s < 2 ^ 32.

Lemma pixel_index_small s x y : screen_ok s -> 0 <= x < PixelsPerScanLine s -> 0 <= y < VerticalResolution s ->
  pixel_index s x y = y * PixelsPerScanLine s + x /\ 0 <= y * PixelsPerScanLine s + x < zlen (framebuffer s).
Proof.
  intros (H1 & H2 & H3 & H4 & H5) Hx Hy. assert (0 <= y * PixelsPerScanLine s + x < PixelsPerScanLine s * VerticalResolution s) by nia.
  split; [|lia]. unfold pixel_index. apply wrap_small. unfold in_u. lia.
Qed.

Lemma pixel_index_inj s x y x' y' : screen_ok s -> 0 <= x < PixelsPerScanLine s -> 0 <= y < VerticalResolution s ->
  0 <= x' < PixelsPerScanLine s -> 0 <= y' < VerticalResolution s ->
  pixel_index s x y = pixel_index s x' y' -> x = x' /\ y = y'.
Proof.
  intros Hs Hx Hy Hx' Hy'.
  rewrite (proj1 (pixel_index_small s x y Hs Hx Hy)), (proj1 (pixel_index_small s x' y' Hs Hx' Hy')). intros E. assert (y = y') by nia. nia.
Qed.

(** The clamped right (or lower) edge. *)
Lemma edge X W r : 0 <= X < r -> r < 2 ^ 32 ->
  wrap 32 (X + (if r <? wrap 32 (X + W) then wrap 32 (r - X) else W)) = Z.min (wrap 32 (X + W)) r.
Proof.
  intros HX Hr. destruct (Z.ltb_spec r (wrap 32 (X + W))) as [Hlt|Hge]; [|lia].
  rewrite (wrap_small 32 (r - X)) by (unfold in_u; lia). replace (X + (r - X)) with r by lia.
  rewrite wrap_small by (unfold in_u; lia). lia.
Qed.

Lemma in_rect_writes s c x xe y ye i d : In (i, d) (rect_writes s c x xe y ye) <->
  d = c /\ exists px py, i = pixel_index s px py /\ x <= px < xe /\ y <= py < ye.
Proof.
  unfold rect_writes. rewrite in_flat_map. split.
  - intros (py & Hy%list_elem_of_In & Hx). apply in_map_iff in Hx as (px & [= <- <-] & Hx%list_elem_of_In).
    apply elem_of_seqZ in Hx, Hy. split; [done|]. exists px, py. lia.
  - intros (-> & px & py & -> & Hx & Hy). exists py. split; [apply list_elem_of_In, elem_of_seqZ; lia|].
    apply in_map_iff. exists px. split; [done|]. apply list_elem_of_In, elem_of_seqZ. lia.
Qed.

(** ** Painting *)

(** A screen whose resolution is below 2^31, so that a negative coordinate, as an
    unsigned number, is off the screen. *)
Definition display_ok (s : screen) : Prop :=
  screen_ok s /\ HorizontalResolution s <= 2 ^ 31 /\ VerticalResolution s <= 2 ^ 31.

(** The screens [s] and [s'] differ in their pixels only, and those of [s'] are
    given by [new] from the coordinates and the old pixel. *)
Definition painted (s s' : screen) (new : Z -> Z -> Z -> Z) : Prop :=
  exists fb, s' = set_fb s fb /\ zlen fb = zlen (framebuffer s) /\
  forall px py, 0 <= px < PixelsPerScanLine s -> 0 <= py < VerticalResolution s ->
    zget fb (py * PixelsPerScanLine s + px) = new px py (zget (framebuffer s) (py * PixelsPerScanLine s + px)).

Lemma painted_ok s s' new : painted s s' new -> display_ok s -> display_ok s'.
Proof. intros (fb & -> & E & _) ((H1 & H2 & H3 & H) & Hd). unfold display_ok, screen_ok. cbn. rewrite E. done. Qed.

Lemma painted_refl s new : (forall px py c, 0 <= px < PixelsPerScanLine s -> 0 <= py < VerticalResolution s -> new px py c = c) ->
  painted s s new.
Proof.
  intros H. exists (framebuffer s). split; [by destruct s|]. split; [done|]. intros px py Hx Hy. by rewrite H.
Qed.

Lemma painted_trans s s1 s2 f g h : painted s s1 f -> painted s1 s2 g ->
  (forall px py c, 0 <= px < PixelsPerScanLine s -> 0 <= py < VerticalResolution s -> g px py (f px py c) = h px py c) ->
  painted s s2 h.
Proof.
  intros (fb & -> & E & P) (fb' & -> & E' & P') H. exists fb'.
  cbn [set_fb PixelsPerScanLine VerticalResolution HorizontalResolution framebuffer] in *.
  split; [done|]. split; [lia|].
  intros px py Hx Hy. rewrite P', P by done. by apply H.
Qed.

Lemma painted_res s s' f : painted s s' f -> HorizontalResolution s' = HorizontalResolution s.
Proof. by intros (fb & -> & _). Qed.

(** Whether a pixel is on the rectangle [DrawRect] draws. *)
Definition in_rect (s : screen) (X Y W H px py : Z) : bool :=
  (X <=? px) && (px <? Z.min (wrap 32 (X + W)) (HorizontalResolution s)) &&
  (Y <=? py) && (py <? Z.min (wrap 32 (Y + H)) (VerticalResolution s)).

(** [DrawRect] always returns, and paints the rectangle (nothing when it starts
    outside the screen). *)
Lemma draw_rect_painted s X Y W H color : screen_ok s -> in_u 32 X -> in_u 32 Y -> in_u 32 W -> in_u 32 H ->
  exists s', DrawRect (Some s) X Y W H color =
    Ret (if (HorizontalResolution s <=? X) || (VerticalResolution s <=? Y) then EFI_INVALID_PARAMETER else EFI_SUCCESS, Some s') /\
    painted s s' (fun px py old => if in_rect s X Y W H px py then color else old).
Proof.
  intros Hs HX HY HW HH. pose proof Hs as (S1 & S2 & S3 & S4 & S5). unfold in_u in *. unfold DrawRect, in_rect.
  destruct ((HorizontalResolution s <=? X) || (VerticalResolution s <=? Y)) eqn:Out.
  { exists s. split; [done|]. apply painted_refl. intros px py c _ _. case_match; [|done]. bool_hyps. lia. }
  bool_hyps. rewrite (edge X W (HorizontalResolution s)), (edge Y H (VerticalResolution s)) by lia.
  set (xe := Z.min _ _). set (ye := Z.min _ _).
  assert (Hin : forall i c, In (i, c) (rect_writes s color X xe Y ye) -> 0 <= i < zlen (framebuffer s)).
  { intros i c (-> & px & py & -> & Hpx & Hpy)%in_rect_writes.
    destruct (pixel_index_small s px py) as (-> & ?); [done|lia|lia|done]. }
  destruct (plot_spec (rect_writes s color X xe Y ye)) with (fb := framebuffer s) as (fb & E & El & Eg & Ek); [|done|].
  { intros i c c' (-> & _)%in_rect_writes (-> & _)%in_rect_writes. done. }
  rewrite E. bind_step. eexists. split; [done|]. exists fb. split; [done|]. split; [done|]. intros x y Hpx Hpy.
  destruct (pixel_index_small s x y Hs Hpx Hpy) as (Ei & Hi). rewrite <- Ei.
  destruct ((X <=? x) && (x <? xe) && (Y <=? y) && (y <? ye)) eqn:B; bool_hyps.
  - apply Eg. apply in_rect_writes. split; [done|]. exists x, y. lia.
  - apply Ek; [lia|]. intros c (_ & px & py & E' & Hqx & Hqy)%in_rect_writes.
    apply pixel_index_inj in E' as (-> & ->); [|done|lia..].
    rewrite !(proj2 (Z.leb_le _ _)), !(proj2 (Z.ltb_lt _ _)) in B by lia. done.
Qed.

(** C35. [DrawRect] on any 32-bit arguments: outside the screen it fails with
    nothing drawn, and otherwise it stores inside the frame buffer only, giving
    the colour to exactly the pixels of the rectangle that are on the screen; the
    right and lower edges are computed in 32 bits, so a rectangle whose edge
    passes 2^32 is drawn empty. *)
Theorem draw_rect_functional s X Y W H color : screen_ok s -> in_u 32 X -> in_u 32 Y -> in_u 32 W -> in_u 32 H ->
  (HorizontalResolution s <= X \/ VerticalResolution s <= Y ->
     DrawRect (Some s) X Y W H color = Ret (EFI_INVALID_PARAMETER, Some s)) /\
  (X < HorizontalResolution s -> Y < VerticalResolution s ->
     exists fb, DrawRect (Some s) X Y W H color = Ret (EFI_SUCCESS, Some (set_fb s fb)) /\
       zlen fb = zlen (framebuffer s) /\
       forall x y, 0 <= x < PixelsPerScanLine s -> 0 <= y < VerticalResolution s ->
         zget fb (y * PixelsPerScanLine s + x) =
         (if (X <=? x) && (x <? Z.min (wrap 32 (X + W)) (HorizontalResolution s)) &&
             (Y <=? y) && (y <? Z.min (wrap 32 (Y + H)) (VerticalResolution s))
          then color else zget (framebuffer s) (y * PixelsPerScanLine s + x))).
Proof.
  intros Hs HX HY HW HH. split.
  { unfold DrawRect. intros [Hx|Hy]; [by rewrite (proj2 (Z.leb_le _ _)) by lia|].
    by rewrite (proj2 (Z.leb_le (VerticalResolution s) _)), orb_true_r by lia. }
  intros Hx Hy. destruct (draw_rect_painted s X Y W H color Hs HX HY HW HH) as (s' & E & fb & -> & El & P).
  rewrite !(proj2 (Z.leb_gt _ _)) in E by lia. by exists fb.
Qed.

Lemma draw_rect_functional_witness : exists fb,
  DrawRect (Some (mk_screen 2 2 3 (zeros 6))) 1 0 5 1 7 = Ret (EFI_SUCCESS, Some (set_fb (mk_screen 2 2 3 (zeros 6)) fb)) /\
  zget fb 1 = 7 /\ zget fb 2 = 0.
Proof.
  destruct (draw_rect_functional (mk_screen 2 2 3 (zeros 6)) 1 0 5 1 7) as (_ & H).
  - repeat split; by vm_compute.
  - unfold in_u; lia.
  - unfold in_u; lia.
  - unfold in_u; lia.
  - unfold in_u; lia.
  - destruct H as (fb & E & _ & Hp); [cbn; lia|cbn; lia|]. exists fb. split; [exact E|]. split.
    + specialize (Hp 1 0 ltac:(cbn; lia) ltac:(cbn; lia)). exact Hp.
    + specialize (Hp 2 0 ltac:(cbn; lia) ltac:(cbn; lia)). exact Hp.
Defined.

(** The mode [InitializeGraphics] chooses has the most pixels of all modes the
    firmware describes (whose pixel numbers fit 32 bits); with none, mode 0. *)
Theorem best_mode_largest g :
  (forall i w h, query_mode g i = inr (w, h) -> 0 <= w /\ 0 <= h /\ w * h < 2 ^ 32) ->
  let '(m, w, h) := best_mode g in
  (forall i w' h', 0 <= i < Z.of_nat (max_mode g) -> query_mode g i = inr (w', h') -> w' * h' <= w * h) /\
  ((m, w, h) = (0, 0, 0) \/ 0 <= m < Z.of_nat (max_mode g) /\ query_mode g m = inr (w, h)).
Proof.
  intros Hq. unfold best_mode. generalize (max_mode g). intros n. induction n as [|n IH].
  { cbn. split; [lia|by left]. }
  replace (Z.of_nat (S n)) with (Z.of_nat n + 1) by lia. rewrite seqZ_app by lia. rewrite fold_left_app.
  replace (seqZ (0 + Z.of_nat n) 1) with [Z.of_nat n] by (cbn; f_equal; lia).
  destruct (fold_left _ (seqZ 0 (Z.of_nat n)) _) as [[m w] h]. destruct IH as (IH1 & IH2). cbn [fold_left better_mode].
  assert (Hb : 0 <= w /\ 0 <= h /\ w * h < 2 ^ 32).
  { destruct IH2 as [[= -> -> ->]|(_ & E)]; [lia|by apply (Hq m)]. }
  destruct (query_mode g (Z.of_nat n)) as [e|[w' h']] eqn:E.
  - split; [|destruct IH2 as [?|(? & ?)]; [by left|right; split; [lia|done]]].
    intros i a b Hi Eq. destruct (Z.eq_dec i (Z.of_nat n)) as [->|]; [congruence|apply (IH1 i); [lia|done]].
  - pose proof (Hq _ _ _ E) as Hc. rewrite !wrap_small by (unfold in_u; nia).
    destruct (Z.ltb_spec (w * h) (w' * h')) as [Hlt|Hge].
    + split; [|right; split; [lia|done]]. intros i a b Hi Eq.
      destruct (Z.eq_dec i (Z.of_nat n)) as [->|]; [rewrite E in Eq; injection Eq as <- <-; lia|].
      specialize (IH1 i a b ltac:(lia) Eq). lia.
    + split; [|destruct IH2 as [?|(? & ?)]; [by left|right; split; [lia|done]]].
      intros i a b Hi Eq. destruct (Z.eq_dec i (Z.of_nat n)) as [->|]; [rewrite E in Eq; injection Eq as <- <-; lia|].
      apply (IH1 i); [lia|done].
Qed.

Definition two_modes : gop :=
  mk_gop EFI_SUCCESS 0 2 (fun i => if i =? 0 then inr (640, 480) else inr (1024, 768)) (fun _ => EFI_SUCCESS).

Lemma best_mode_largest_witness : best_mode two_modes = (1, 1024, 768) /\ 640 * 480 <= 1024 * 768.
Proof.
  split; [reflexivity|].
  pose proof (best_mode_largest two_modes) as H. change (best_mode two_modes) with (1, 1024, 768) in H.
  apply (proj1 (H ltac:(intros i w h; cbn; destruct (i =? 0); intros [= <- <-]; lia)) 0 640 480); [cbn; lia|reflexivity].
Defined.
