(* ===== verification/Font.v ===== *)
(** * Fonts (src/boot/font.c)

    The font objects on the heap, the cache of loaded fonts with the three
    built-in ones, loading a PSF font, and drawing: glyphs and text into the
    frame buffer, and measuring a text.  A font pointer is an address in a finite
    map of live objects, so that a use after [free] is undefined behaviour; the
    frame buffer is a function from pixel numbers. *)

From stdpp Require Import gmap.
From S2P Require Import Prelude.
From S2P Require Import BootConfig.
From S2P Require Import CString.
From S2P Require Import Graphics.
Import ListNotations.
#[local] Open Scope list_scope.

(** ** Data *)

Inductive FontFormat := FONT_FORMAT_BITMAP | FONT_FORMAT_PSF | FONT_FORMAT_TTF | FONT_FORMAT_OTF.
Inductive FontWeight := FONT_WEIGHT_REGULAR | FONT_WEIGHT_BOLD | FONT_WEIGHT_LIGHT.

(** [font_data] points to a static array for the built-in fonts, to an allocated
    copy otherwise. *)
Record Font := mk_font {
  format : FontFormat; font_size_px : Z; weight : FontWeight;
  line_height : Z; baseline : Z; max_width : Z;
  font_data : bytes; data_static : bool
}.

(** The arrays as they are in the source: the tables are not complete. *)
Definition builtin_font_8x16 : bytes :=
  zeros 16 ++                                                                        (* space *)
  zeros 2 ++ [0x18; 0x3C; 0x3C; 0x3C; 0x18; 0x18; 0x18; 0; 0x18; 0x18] ++ zeros 4 ++ (* ! *)
  zeros 2 ++ [0x66; 0x66; 0x66; 0x24] ++ zeros 10 ++                                 (* double quote *)
  zeros 2 ++ [0x6C; 0x6C; 0xFE; 0x6C; 0x6C; 0x6C; 0xFE; 0x6C; 0x6C] ++ zeros 5 ++    (* # *)
  zeros 2 ++ [0x10; 0x38; 0x6C; 0xC6; 0xC6; 0xFE] ++ replicate 4 0xC6 ++ zeros 4 ++  (* A *)
  zeros 2 ++ [0xFC; 0x66; 0x66; 0x66; 0x7C] ++ replicate 4 0x66 ++ 0xFC :: zeros 4.  (* B *)
Definition builtin_mono_font_8x8 : bytes :=
  zeros 8 ++ [0x18; 0x3C; 0x3C; 0x18; 0x18; 0; 0x18; 0].
Definition builtin_bold_font_8x16 : bytes := zeros 16.

Definition default_font : Font := mk_font FONT_FORMAT_BITMAP 16 FONT_WEIGHT_REGULAR 16 12 8 builtin_font_8x16 true.
Definition mono_font : Font := mk_font FONT_FORMAT_BITMAP 8 FONT_WEIGHT_REGULAR 8 6 8 builtin_mono_font_8x8 true.
Definition bold_font : Font := mk_font FONT_FORMAT_BITMAP 16 FONT_WEIGHT_BOLD 16 12 8 builtin_bold_font_8x16 true.

(** The heap, the next address, [g_font_cache] with its count, and the three
    global pointers. *)
Record fonts := mk_fonts {
  heap : gmap Z Font; next : Z;
  g_font_cache : list (option Z); g_font_cache_count : nat;
  g_default_font : option Z; g_mono_font : option Z; g_bold_font : option Z
}.

Definition MAX_CACHED_FONTS : nat := 16.

(** [malloc(sizeof(Font))] and the assignments to its fields. *)
Definition new_font (ok : bool) (f : Font) (st : fonts) : option Z * fonts :=
  if ok then (Some (next st),
              mk_fonts (<[next st := f]> (heap st)) (next st + 1) (g_font_cache st) (g_font_cache_count st)
                       (g_default_font st) (g_mono_font st) (g_bold_font st))
  else (None, st).

Definition set_heap (st : fonts) (h : gmap Z Font) : fonts :=
  mk_fonts h (next st) (g_font_cache st) (g_font_cache_count st) (g_default_font st) (g_mono_font st) (g_bold_font st).
Definition set_cache (st : fonts) (c : list (option Z)) (n : nat) : fonts :=
  mk_fonts (heap st) (next st) c n (g_default_font st) (g_mono_font st) (g_bold_font st).
Definition set_globals (st : fonts) (d m b : option Z) : fonts :=
  mk_fonts (heap st) (next st) (g_font_cache st) (g_font_cache_count st) d m b.

(** [ok1] .. [ok3]: whether the allocations succeed. *)
Definition InitBuiltinFonts (ok1 ok2 ok3 : bool) (st : fonts) : fonts :=
  let '(d, st) := new_font ok1 default_font st in
  let '(m, st) := new_font ok2 mono_font st in
  let '(b, st) := new_font ok3 bold_font st in
  set_globals st d m b.

Definition InitFontSystem (ok1 ok2 ok3 : bool) (st : fonts) : fonts :=
  InitBuiltinFonts ok1 ok2 ok3 (set_cache st (replicate MAX_CACHED_FONTS None) 0).

Definition GetDefaultFont (st : fonts) : option Z := g_default_font st.
Definition GetMonospaceFont (st : fonts) : option Z := g_mono_font st.
Definition GetBoldFont (st : fonts) : option Z := g_bold_font st.

Definition SetDefaultFont (st : fonts) (font : option Z) : fonts :=
  match font with
  | Some a => set_globals st (Some a) (g_mono_font st) (g_bold_font st)
  | None => st
  end.

(** [if (count < MAX) cache[count++] = font] *)
Definition cache_font (st : fonts) (a : Z) : fonts :=
  if (g_font_cache_count st <? MAX_CACHED_FONTS)%nat
  then set_cache st (<[g_font_cache_count st := Some a]> (g_font_cache st)) (S (g_font_cache_count st))
  else st.

(** [data] is [None] for NULL; the two flags are the two allocations. *)
Definition LoadFontFromMemory (ok1 ok2 : bool) (data : option bytes) (fmt : FontFormat) (st : fonts)
  : option Z * fonts :=
  match data with
  | None | Some [] => (None, st)
  | Some d =>
      if negb ok1 || negb ok2 then (None, st)
      else match new_font true (mk_font fmt 16 FONT_WEIGHT_REGULAR 16 12 8 d false) st with
      | (Some a, st) => (Some a, cache_font st a)
      | (None, st) => (None, st)
      end
  end.

(** ** PSF files *)

(** The height and the glyph table; [None] is FALSE. *)
Definition parse_psf1 (data : bytes) : option (Z * bytes) :=
  if zlen data <? 4 then None
  else if negb ((zget data 0 =? 0x36) && (zget data 1 =? 0x04)) then None
  else
    let mode := zget data 2 in
    let charsize := zget data 3 in
    let glyph_count := if negb (mode &&& 1 =? 0) then 512 else 256 in
    if zlen data <? 4 + charsize * glyph_count then None
    else Some (charsize, sub data 4 (charsize * glyph_count)).

(** [root] is what [get_root] gives: its status, or the root directory. *)
Definition read_file (root : Z + efi_dir) (path : bytes) : run (Z * option bytes) :=
  match root with
  | inl status => mret (status, None)
  | inr dir => ReadWholeFileAscii dir (name_string path)
  end.

(** The name is printed into 256 characters; the flags are the two allocations. *)
Definition LoadFontFile (root : Z + efi_dir) (ok1 ok2 : bool) (filename : option bytes) (st : fonts)
  : run (option Z * fonts) :=
  match filename with
  | None | Some [] => mret (GetDefaultFont st, st)
  | Some name =>
      r ← read_file root (take 255 name);
      match snd r with
      | None => mret (GetDefaultFont st, st)
      | Some buf =>
          if zlen buf <? 4 then mret (GetDefaultFont st, st) else
          match parse_psf1 buf with
          | None => mret (GetDefaultFont st, st)
          | Some (h, glyphs) =>
              if negb ok1 || negb ok2 then mret (GetDefaultFont st, st)
              else match new_font true (mk_font FONT_FORMAT_BITMAP h FONT_WEIGHT_REGULAR h
                                               (if 4 <? h then h - 4 else h) 8 glyphs false) st with
              | (Some a, st) => mret (Some a, cache_font st a)
              | (None, st) => mret (None, st)
              end
          end
      end
  end.

(** ** Unloading *)

(** The first index below [n] that holds [a]. *)
Fixpoint cache_index (c : list (option Z)) (n : nat) (a : Z) : option nat :=
  match n, c with
  | S n, x :: c => if bool_decide (x = Some a) then Some O else S <$> cache_index c n a
  | _, _ => None
  end.

(** [for (j = i; j < n - 1; j++) c[j] = c[j + 1]] *)
Definition cache_shift (c : list (option Z)) (i n : nat) : list (option Z) :=
  take i c ++ take (n - 1 - i) (drop (S i) c) ++ drop (n - 1) c.

Definition UnloadFont (font : option Z) (st : fonts) : run fonts :=
  match font with
  | None => mret st
  | Some a =>
      let n := g_font_cache_count st in
      let st := match cache_index (g_font_cache st) n a with
                | Some i => set_cache st (cache_shift (g_font_cache st) i n) (n - 1)
                | None => st
                end in
      match heap st !! a with
      | None => UB
      | Some f => if data_static f then UB else mret (set_heap st (delete a (heap st)))
      end
  end.

(** [for (i = 0; i < g_font_cache_count; i++)] with a test on the entry. *)
Fixpoint unload_loop (fuel i : nat) (keep : fonts -> Z -> bool) (st : fonts) : run fonts :=
  match fuel with
  | O => OutOfFuel
  | S fuel =>
      if (i <? g_font_cache_count st)%nat then
        match g_font_cache st !! i with
        | Some (Some a) =>
            st ← (if keep st a then mret st else UnloadFont (Some a) st);
            unload_loop fuel (S i) keep st
        | Some None => unload_loop fuel (S i) keep st
        | None => UB
        end
      else mret st
  end.

(** [if (p) { free(p); p = NULL; }] *)
Definition free_global (p : option Z) (st : fonts) : run fonts :=
  match p with
  | None => mret st
  | Some a => match heap st !! a with Some _ => mret (set_heap st (delete a (heap st))) | None => UB end
  end.

Definition ShutdownFontSystem (st : fonts) : run fonts :=
  st ← unload_loop 17 0 (fun _ _ => false) st;
  st ← free_global (g_default_font st) st;
  st ← free_global (g_mono_font st) st;
  st ← free_global (g_bold_font st) st;
  mret (set_globals (set_cache st (g_font_cache st) 0) None None None).

(** The built-in fonts are recognised by their pointers. *)
Definition ClearFontCache (st : fonts) : run fonts :=
  st ← unload_loop 17 0 (fun st a => bool_decide (Some a = g_default_font st) ||
         bool_decide (Some a = g_mono_font st) || bool_decide (Some a = g_bold_font st)) st;
  mret (set_cache st (g_font_cache st) 3).

(** ** Drawing *)

Record GlyphRenderOptions := mk_options { color : Z; bg_color : Z; use_bg : bool }.

(** [if (GraphicsOutput)] and the test against the resolution. *)
Definition put_pixel (s : option screen) (px py c : Z) : run (option screen) :=
  match s with
  | None => mret None
  | Some s =>
      if (px <? HorizontalResolution s) && (py <? VerticalResolution s)
      then fb ← wr (framebuffer s) (pixel_index s px py) c; mret (Some (set_fb s fb))
      else mret (Some s)
  end.

(** The loop over [col], [n] columns left; the sums are signed. *)
Fixpoint glyph_cols (n : nat) (col b x y row : Z) (o : GlyphRenderOptions) (s : option screen) : run (option screen) :=
  match n with
  | O => mret s
  | S n =>
      s ← (if negb (b &&& (0x80 >>> col) =? 0) then
             px ← int_of (x + col); py ← int_of (y + row); put_pixel s (wrap 32 px) (wrap 32 py) (color o)
           else if use_bg o then
             px ← int_of (x + col); py ← int_of (y + row); put_pixel s (wrap 32 px) (wrap 32 py) (bg_color o)
           else mret s);
      glyph_cols n (col + 1) b x y row o s
  end.

(** The loop over [row], [n] rows left; [off] is where the glyph starts. *)
Fixpoint glyph_rows (n : nat) (row off : Z) (data : bytes) (x y : Z) (o : GlyphRenderOptions) (s : option screen)
  : run (option screen) :=
  match n with
  | O => mret s
  | S n =>
      b ← rd data (off + row);
      s ← glyph_cols 8 0 b x y row o s;
      glyph_rows n (row + 1) off data x y o s
  end.

Definition bytes_per_glyph (f : Font) : Z :=
  if (line_height f =? 16) && (max_width f =? 8) then 16
  else if (line_height f =? 8) && (max_width f =? 8) then 8
  else (line_height f * max_width f + 7) / 8.

Definition RenderBitmapGlyph (f : Font) (codepoint x y : Z) (o : GlyphRenderOptions) (s : option screen)
  : run (Z * option screen) :=
  if (codepoint <? 32) || (126 <? codepoint) then mret (0, s)
  else
    s ← glyph_rows (Z.to_nat (line_height f)) 0 (wrap 32 ((codepoint - 32) * bytes_per_glyph f)) (font_data f) x y o s;
    mret (max_width f, s).

Definition RenderGlyph (f : option Font) (codepoint x y : Z) (o : option GlyphRenderOptions) (s : option screen)
  : run (Z * option screen) :=
  match f, o with
  | Some f, Some o =>
      match format f with
      | FONT_FORMAT_BITMAP => RenderBitmapGlyph f codepoint x y o s
      | FONT_FORMAT_PSF => mret (0, s)
      | FONT_FORMAT_TTF | FONT_FORMAT_OTF => mret (0, s)
      end
  | _, _ => mret (0, s)
  end.

(** [text] up to its terminator. *)
Fixpoint render_loop (f : option Font) (text : list Z) (current_x text_width y : Z) (o : option GlyphRenderOptions)
  (s : option screen) : run (Z * option screen) :=
  match text with
  | [] => mret (text_width, s)
  | c :: text =>
      r ← RenderGlyph f c current_x y o s;
      current_x ← int_of (current_x + fst r);
      text_width ← int_of (text_width + fst r);
      render_loop f text current_x text_width y o (snd r)
  end.

Definition RenderText (f : option Font) (text : option (list Z)) (x y : Z) (o : option GlyphRenderOptions)
  (s : option screen) : run (Z * option screen) :=
  match f, text, o with
  | Some _, Some text, Some _ => render_loop f text x 0 y o s
  | _, _, _ => mret (0, s)
  end.

Record TextMetrics := mk_metrics { tm_width : Z; tm_height : Z; tm_ascent : Z; tm_descent : Z }.

Fixpoint measure_loop (f : Font) (text : list Z) (width : Z) : run Z :=
  match text with
  | [] => mret width
  | c :: text =>
      width ← (if (32 <=? c) && (c <=? 126) then int_of (width + max_width f) else mret width);
      measure_loop f text width
  end.

Definition MeasureText (f : option Font) (text : option (list Z)) (metrics : option TextMetrics) : run (option TextMetrics) :=
  match f, text, metrics with
  | Some f, Some text, Some _ =>
      width ← measure_loop f text 0;
      mret (Some (mk_metrics width (line_height f) (baseline f) (line_height f - baseline f)))
  | _, _, _ => mret metrics
  end.

(** ** Shutting down *)

(** The loop skips the font that moves into the place of the one just unloaded. *)
Fixpoint every_other {A} (l : list A) : list A :=
  match l with
  | a :: _ :: l => a :: every_other l
  | l => l
  end.

Lemma cache_index_at kept a rest n : ~ In (Some a) kept -> (length kept < n)%nat ->
  cache_index (kept ++ Some a :: rest) n a = Some (length kept).
Proof.
  revert n. induction kept as [|x kept IH]; intros [|n] Hn Hl; try (cbn [length] in Hl; lia); cbn [cache_index app].
  - by rewrite bool_decide_true.
  - rewrite bool_decide_false by (intros ->; apply Hn; by left).
    rewrite IH; [done|intros H; apply Hn; by right|cbn [length] in Hl; lia].
Qed.

(** Unloading the font at position [length kept]. *)
Lemma unload_at kept a rest tail st f :
  g_font_cache st = kept ++ Some a :: rest ++ tail -> g_font_cache_count st = (length kept + S (length rest))%nat ->
  ~ In (Some a) kept -> heap st !! a = Some f -> data_static f = false ->
  exists tail', UnloadFont (Some a) st =
    Ret (set_heap (set_cache st (kept ++ rest ++ tail') (length kept + length rest)) (delete a (heap st))).
Proof.
  intros Hc Hn Hk Hh Hs. unfold UnloadFont. cbv zeta. rewrite Hc, Hn.
  rewrite cache_index_at by (try done; lia). cbn [heap set_cache]. rewrite Hh, Hs.
  exists (drop (length kept + S (length rest) - 1) (kept ++ Some a :: rest ++ tail)).
  unfold mret, run_ret. f_equal. f_equal.
  replace (length kept + S (length rest) - 1)%nat with (length kept + length rest)%nat by lia. f_equal.
  unfold cache_shift. rewrite take_app_length. f_equal.
  replace (S (length kept)) with (length (kept ++ [Some a])) by (rewrite length_app; cbn; lia).
  change (kept ++ Some a :: rest ++ tail) with (kept ++ [Some a] ++ rest ++ tail) at 1.
  rewrite (app_assoc kept), drop_app_length.
  replace (length kept + S (length rest) - 1 - length kept)%nat with (length rest) by lia.
  rewrite take_app_length. f_equal. f_equal. lia.
Qed.

Definition free_all (l : list Z) (h : gmap Z Font) : gmap Z Font := foldl (fun h a => delete a h) h l.

Definition somes (l : list Z) : list (option Z) := map Some l.

Lemma not_in_somes a l : a ∉ l -> ~ In (Some a) (somes l).
Proof. intros H Hin%in_map_iff. destruct Hin as (x & [= ->] & Hx). apply H. by apply list_elem_of_In. Qed.

(** All cached fonts are live and own their data. *)
Definition owned (h : gmap Z Font) (l : list Z) : Prop :=
  forall a, a ∈ l -> exists f, h !! a = Some f /\ data_static f = false.

Lemma owned_delete h l a : a ∉ l -> owned h l -> owned (delete a h) l.
Proof.
  intros Ha H b Hb. destruct (H b Hb) as (f & Hf & Hs). exists f. split; [|done].
  rewrite lookup_delete_ne; [done|]. by intros ->.
Qed.

(** The loop from position [length kept] frees every other font of [rest]. *)
Lemma unload_every_other fuel : forall kept rest tail st,
  (length rest < fuel)%nat -> NoDup (kept ++ rest) -> owned (heap st) rest ->
  g_font_cache st = somes kept ++ somes rest ++ tail -> g_font_cache_count st = (length kept + length rest)%nat ->
  exists c n, unload_loop fuel (length kept) (fun _ _ => false) st =
    Ret (set_heap (set_cache st c n) (free_all (every_other rest) (heap st))).
Proof.
  induction fuel as [|fuel IH]; intros kept rest tail st Hf Hd Ho Hc Hn; [lia|]. cbn [unload_loop].
  destruct rest as [|a rest].
  { rewrite Hn. cbn [length]. rewrite (proj2 (Nat.ltb_ge _ _)) by lia.
    exists (g_font_cache st), (g_font_cache_count st). by destruct st. }
  rewrite Hn, (proj2 (Nat.ltb_lt _ _)) by (cbn [length]; lia).
  assert (Hl : g_font_cache st !! length kept = Some (Some a)).
  { rewrite Hc, lookup_app_r; unfold somes; rewrite length_map; [by rewrite Nat.sub_diag|lia]. }
  rewrite Hl. clear Hl.
  apply NoDup_app in Hd as (Hk & Hdj & Hr). apply NoDup_cons in Hr as (Har & Hr).
  destruct (Ho a) as (f & Hh & Hs); [left|].
  assert (Hak : a ∉ kept) by (intros H; apply (Hdj a H); left).
  destruct (unload_at (somes kept) a (somes rest) tail st f) as (tail' & ->); try done.
  { rewrite Hn. unfold somes. rewrite !length_map. done. }
  { by apply not_in_somes. }
  bind_step. unfold somes. rewrite !length_map. set (st1 := set_heap _ _).
  assert (Hst1 : forall c n h, set_heap (set_cache st1 c n) h = set_heap (set_cache st c n) h) by done.
  destruct rest as [|b rest].
  - destruct fuel as [|fuel]; [cbn [length] in Hf; lia|]. cbn [unload_loop].
    change (g_font_cache_count st1) with (length kept + 0)%nat.
    rewrite (proj2 (Nat.ltb_ge _ _)) by lia.
    exists (g_font_cache st1), (g_font_cache_count st1). by destruct st.
  - apply NoDup_cons in Hr as (Hbr & Hr). cbn [length] in Hf.
    replace (S (length kept)) with (length (kept ++ [b])) by (rewrite length_app; cbn; lia).
    destruct (IH (kept ++ [b]) rest tail' st1) as (c & n & ->); [lia|..].
    + apply NoDup_app. split; [apply NoDup_app; split; [done|split; [|apply NoDup_singleton]]|split; [|done]].
      * intros x Hx Hb. apply list_elem_of_singleton in Hb as ->. apply (Hdj b Hx). right. left.
      * intros x Hx Hxr. apply elem_of_app in Hx as [Hx|Hx].
        -- apply (Hdj x Hx). by right; right.
        -- apply list_elem_of_singleton in Hx as ->. done.
    + apply owned_delete; [intros H; apply Har; by right|]. intros x Hx. apply Ho. by right; right.
    + cbn. unfold somes. rewrite map_app, <- app_assoc. done.
    + cbn. rewrite length_app. cbn. lia.
    + exists c, n. by rewrite Hst1.
Qed.

(** The static objects before the first call. *)
Definition fonts0 : fonts := mk_fonts ∅ 1 (replicate MAX_CACHED_FONTS None) 0 None None None.

(** The system initialised, then fonts loaded from memory one after the other. *)
Definition load_all (datas : list bytes) : fonts :=
  foldl (fun st d => snd (LoadFontFromMemory true true (Some d) FONT_FORMAT_BITMAP st))
    (InitFontSystem true true true fonts0) datas.

(** [n] fonts loaded after the three built-in ones. *)
Record loaded (st : fonts) (n : nat) : Prop := mk_loaded {
  l_cache : g_font_cache st = somes (seqZ 4 (Z.of_nat n)) ++ replicate (MAX_CACHED_FONTS - n) None;
  l_count : g_font_cache_count st = n;
  l_next : next st = 4 + Z.of_nat n;
  l_globals : g_default_font st = Some 1 /\ g_mono_font st = Some 2 /\ g_bold_font st = Some 3;
  l_owned : owned (heap st) (seqZ 4 (Z.of_nat n));
  l_live : forall x, is_Some (heap st !! x) <-> 1 <= x < 4 + Z.of_nat n }.

Lemma loaded_init : loaded (InitFontSystem true true true fonts0) 0.
Proof.
  split; [done|done|done|done|intros a Ha; by apply elem_of_nil in Ha|]. intros x. cbn.
  destruct (decide (x = 3)) as [->|H3]; [rewrite lookup_insert_eq; split; [lia|done]|].
  rewrite lookup_insert_ne by done.
  destruct (decide (x = 2)) as [->|H2]; [rewrite lookup_insert_eq; split; [lia|done]|].
  rewrite lookup_insert_ne by done.
  destruct (decide (x = 1)) as [->|H1]; [rewrite lookup_insert_eq; split; [lia|done]|].
  rewrite lookup_insert_ne by done. rewrite lookup_empty. split; [by intros []|lia].
Qed.

(** A new font with its own data, put into the cache. *)
Lemma loaded_cache st n f : loaded st n -> (n < MAX_CACHED_FONTS)%nat -> data_static f = false ->
  let st' := snd (new_font true f st) in loaded (cache_font st' (next st)) (S n).
Proof.
  intros [Hc Hn Hx Hg Ho Hl] Hlt Hs. cbv zeta. unfold cache_font, new_font. cbn [snd g_font_cache_count g_font_cache].
  rewrite Hn, (proj2 (Nat.ltb_lt _ _)) by done.
  assert (Hsq : seqZ 4 (Z.of_nat (S n)) = seqZ 4 (Z.of_nat n) ++ [4 + Z.of_nat n]).
  { replace (Z.of_nat (S n)) with (Z.of_nat n + 1) by lia. rewrite seqZ_app by lia. done. }
  split; cbn [g_font_cache g_font_cache_count set_cache next heap g_default_font g_mono_font g_bold_font].
  - rewrite Hc, insert_app_r_alt by (unfold somes; rewrite length_map, length_seqZ; lia).
    unfold somes at 2. rewrite length_map, length_seqZ, Nat2Z.id, Nat.sub_diag.
    replace (MAX_CACHED_FONTS - n)%nat with (S (MAX_CACHED_FONTS - S n)) by (unfold MAX_CACHED_FONTS in *; lia).
    cbn [replicate]. rewrite Hsq, Hx. unfold somes. rewrite map_app, <- app_assoc. done.
  - done.
  - lia.
  - done.
  - rewrite Hsq. intros a [Ha|Ha]%elem_of_app.
    + destruct (Ho a Ha) as (g & Hg1 & Hg2). exists g. split; [|done]. apply elem_of_seqZ in Ha.
      rewrite lookup_insert_ne by lia. done.
    + apply list_elem_of_singleton in Ha as ->. exists f. rewrite <- Hx, lookup_insert_eq. done.
  - intros x. destruct (decide (x = next st)) as [->|E].
    + rewrite lookup_insert_eq. split; [lia|done].
    + rewrite lookup_insert_ne by done. rewrite Hl. lia.
Qed.

Lemma loaded_all datas : Forall (fun d => d <> []) datas -> (length datas <= MAX_CACHED_FONTS)%nat ->
  loaded (load_all datas) (length datas).
Proof.
  intros Hd. unfold load_all. induction datas as [|d datas IH] using rev_ind; intros Hl; [apply loaded_init|].
  apply Forall_app in Hd as (Hd & Hn). apply Forall_inv in Hn. rewrite length_app in *. cbn [length] in *.
  rewrite foldl_app. cbn [foldl]. specialize (IH Hd ltac:(lia)). set (st := foldl _ _ datas) in *.
  rewrite Nat.add_1_r. destruct d as [|x d]; [done|]. cbn [LoadFontFromMemory negb orb].
  apply (loaded_cache st _ (mk_font FONT_FORMAT_BITMAP 16 FONT_WEIGHT_REGULAR 16 12 8 (x :: d) false)); [done|lia|done].
Qed.

Lemma free_all_lookup l : forall h x, free_all l h !! x = if bool_decide (x ∈ l) then None else h !! x.
Proof.
  induction l as [|a l IH]; intros h x; [done|]. cbn [free_all foldl]. fold (free_all l (delete a h)). rewrite IH.
  destruct (decide (x ∈ l)) as [H|H].
  - rewrite !bool_decide_true by (try right; done). done.
  - rewrite (bool_decide_false (x ∈ l)) by done. destruct (decide (x = a)) as [->|E].
    + rewrite lookup_delete_eq, bool_decide_true by left. done.
    + rewrite lookup_delete_ne by done. rewrite bool_decide_false; [done|]. rewrite elem_of_cons. tauto.
Qed.

Lemma every_other_seq n : forall b x, x ∈ every_other (seqZ b (Z.of_nat n)) <->
  exists k, x = b + 2 * Z.of_nat k /\ (2 * k < n)%nat.
Proof.
  induction n as [[|[|n]] IH] using lt_wf_ind; intros b x.
  - cbn. split; [by intros ?%elem_of_nil|intros (k & _ & ?); lia].
  - replace (seqZ b (Z.of_nat 1)) with [b] by (cbn; f_equal; lia). cbn [every_other].
    rewrite list_elem_of_singleton. split; [intros ->; exists O; lia|intros (k & ? & ?); lia].
  - rewrite !seqZ_cons by lia. cbn [every_other].
    replace (Z.pred (Z.pred (Z.of_nat (S (S n))))) with (Z.of_nat n) by lia.
    rewrite elem_of_cons, IH by lia. split.
    + intros [->|(k & -> & ?)]; [exists O; lia|exists (S k); lia].
    + intros ([|k] & -> & ?); [left; lia|right; exists k; lia].
Qed.

Lemma free_global_live a st : is_Some (heap st !! a) ->
  free_global (Some a) st = Ret (set_heap st (delete a (heap st))).
Proof. intros (f & Hf). unfold free_global. by rewrite Hf. Qed.

Lemma free_global_dead a st : heap st !! a = None -> free_global (Some a) st = UB.
Proof. intros H. unfold free_global. by rewrite H. Qed.

(** The loop of [ShutdownFontSystem] on a system with [n] loaded fonts. *)
Lemma loaded_unload st n : loaded st n -> (n <= MAX_CACHED_FONTS)%nat ->
  exists c m, unload_loop 17 0 (fun _ _ => false) st =
    Ret (set_heap (set_cache st c m) (free_all (every_other (seqZ 4 (Z.of_nat n))) (heap st))).
Proof.
  intros [Hc Hn Hx Hg Ho Hl] Hle. apply (unload_every_other 17 [] _ (replicate (MAX_CACHED_FONTS - n) None)).
  - rewrite length_seqZ, Nat2Z.id. unfold MAX_CACHED_FONTS in Hle. lia.
  - apply NoDup_seqZ.
  - done.
  - done.
  - rewrite Hn. cbn. rewrite length_seqZ, Nat2Z.id. done.
Qed.

(** [ShutdownFontSystem] after the built-in fonts and up to sixteen loaded
    ones: it returns and frees the built-in fonts, but [UnloadFont] moves the
    next cached font into the place the loop just visited, so the loop frees the
    first, third, fifth ... loaded font and leaks every second one. *)
Theorem font_shutdown_leaks datas :
  Forall (fun d => d <> []) datas -> (length datas <= MAX_CACHED_FONTS)%nat ->
  exists st', ShutdownFontSystem (load_all datas) = Ret st' /\
    g_font_cache_count st' = O /\ g_default_font st' = None /\
    forall a, is_Some (heap st' !! a) <-> exists k, a = 5 + 2 * Z.of_nat k /\ (2 * k + 1 < length datas)%nat.
Proof.
  intros Hd Hle. pose proof (loaded_all datas Hd Hle) as HL. set (st := load_all datas) in *.
  destruct (loaded_unload st _ HL Hle) as (c & m & E). unfold ShutdownFontSystem. rewrite E. bind_step.
  destruct HL as [_ _ _ (G1 & G2 & G3) _ Hl]. cbn [g_default_font set_heap set_cache]. rewrite G1.
  set (h := free_all _ _).
  assert (Hh : forall a, is_Some (h !! a) <-> 1 <= a <= 3 \/
     exists k, a = 5 + 2 * Z.of_nat k /\ (2 * k + 1 < length datas)%nat).
  { intros a. unfold h. rewrite free_all_lookup. case_bool_decide as Ha.
    - apply every_other_seq in Ha as (k & -> & Hk). split; [by intros []|]. intros [?|(j & ? & ?)]; lia.
    - rewrite Hl. rewrite every_other_seq in Ha. split.
      + intros Hb. destruct (Z_lt_le_dec 3 a) as [H3|]; [right|lia].
        destruct (Z.Even_or_Odd (a - 4)) as [(j & Hj)|(j & Hj)].
        * exfalso. apply Ha. exists (Z.to_nat j). lia.
        * exists (Z.to_nat j). lia.
      + intros [?|(k & -> & ?)]; lia. }
  rewrite free_global_live by (apply Hh; lia). bind_step. cbn [g_mono_font heap set_heap set_cache]. rewrite G2.
  rewrite free_global_live by (cbn [heap set_heap]; rewrite lookup_delete_ne by lia; apply Hh; lia).
  bind_step. cbn [g_bold_font heap set_heap set_cache]. rewrite G3.
  rewrite free_global_live by (cbn [heap set_heap]; rewrite !lookup_delete_ne by lia; apply Hh; lia).
  bind_step. eexists. split; [reflexivity|]. split; [done|]. split; [done|]. intros a. cbn [heap set_heap set_globals set_cache].
  rewrite !lookup_delete_is_Some, Hh. split.
  - intros (? & ? & ? & [?|?]); [lia|done].
  - intros (k & -> & ?). repeat (split; [lia|]). right. eauto.
Qed.

Lemma font_shutdown_leaks_witness : exists st', ShutdownFontSystem (load_all [[1]; [2]; [3]; [4]]) = Ret st' /\
  is_Some (heap st' !! 7).
Proof.
  destruct (font_shutdown_leaks [[1]; [2]; [3]; [4]]) as (st' & E & _ & _ & H).
  - repeat constructor; done.
  - cbn. unfold MAX_CACHED_FONTS. lia.
  - exists st'. split; [exact E|]. apply H. exists 1%nat. cbn. lia.
Defined.

(** A font that [LoadFontFile] loads from a file and that [SetDefaultFont]
    makes the default is both in the cache and in [g_default_font]: shutting
    down frees it in the loop and then once more as the default font. *)
Theorem font_default_freed_twice root name a st :
  LoadFontFile root true true name (InitFontSystem true true true fonts0) = Ret (Some a, st) ->
  Some a <> GetDefaultFont (InitFontSystem true true true fonts0) ->
  ShutdownFontSystem (SetDefaultFont st (Some a)) = UB.
Proof.
  intros E Ha. pose proof loaded_init as HL. revert E Ha HL. generalize (InitFontSystem true true true fonts0).
  intros st0 E Ha HL.
  assert (E' : exists f, data_static f = false /\ a = next st0 /\ st = cache_font (snd (new_font true f st0)) (next st0)).
  { destruct name as [[|x name]|]; cbn [LoadFontFile] in E; unfold mret, run_ret in E; [congruence| |congruence].
    destruct (read_file root _) as [[s o]| |]; cbn in E; [|done|done].
    unfold mret, run_ret, GetDefaultFont in E, Ha. destruct o as [buf|]; [|congruence]. destruct (zlen buf <? 4); [congruence|].
    destruct (parse_psf1 buf) as [[h g]|]; [|congruence].
    cbn [negb orb new_font] in E. injection E as <- <-. eexists. split; [|split; reflexivity]. reflexivity. }
  destruct E' as (f & Hf & -> & ->). pose proof (loaded_cache st0 0 f HL ltac:(unfold MAX_CACHED_FONTS; lia) Hf) as HL1.
  cbv zeta in HL1. set (st := cache_font _ _) in *.
  set (st1 := SetDefaultFont st (Some (next st0))).
  destruct HL1 as [Hc Hn Hx Hg Ho Hl].
  destruct (unload_every_other 17 [] (seqZ 4 1) (replicate 15 None) st1) as (c & m & Eu).
  - rewrite length_seqZ. lia.
  - apply NoDup_seqZ.
  - exact Ho.
  - exact Hc.
  - exact Hn.
  - unfold ShutdownFontSystem. cbn [length] in Eu. rewrite Eu. bind_step. cbn [g_default_font set_heap set_cache].
    change (g_default_font st1) with (Some (next st0)). rewrite free_global_dead; [done|].
    cbn [heap set_heap]. rewrite free_all_lookup, bool_decide_true; [done|]. rewrite (l_next _ _ HL). left.
Qed.

Definition psf_file : efi_file :=
  mk_file EFI_BUFFER_TOO_SMALL true EFI_SUCCESS 4 true EFI_SUCCESS [0x36; 0x04; 0; 0].

Lemma font_default_freed_twice_witness : exists a st,
  LoadFontFile (inr (fun _ => inr psf_file)) true true (Some [65]) (InitFontSystem true true true fonts0) = Ret (Some a, st) /\
  ShutdownFontSystem (SetDefaultFont st (Some a)) = UB.
Proof.
  eexists _, _. split; [reflexivity|].
  apply (font_default_freed_twice (inr (fun _ => inr psf_file)) (Some [65])); [reflexivity|done].
Defined.

(** ** Drawing: the pixels *)

Lemma wrap_int x : is_int x -> wrap 32 x = if x <? 0 then x + 2 ^ 32 else x.
Proof.
  unfold is_int, INT_MIN, INT_MAX. intros H. destruct (Z.ltb_spec x 0) as [Hn|Hn]; [|apply wrap_small; unfold in_u; lia].
  unfold wrap. rewrite <- (Z_mod_plus_full x 1), Z.mul_1_l. apply Z.mod_small. lia.
Qed.

(** One pixel at signed coordinates. *)
Lemma put_pixel_painted s X Y c : display_ok s -> is_int X -> is_int Y ->
  exists s', put_pixel (Some s) (wrap 32 X) (wrap 32 Y) c = Ret (Some s') /\
    painted s s' (fun px py old =>
      if (px =? X) && (py =? Y) && (px <? HorizontalResolution s) then c else old).
Proof.
  intros (Hs & Hh & Hv) HX HY. pose proof Hs as (S1 & S2 & S3 & S4 & S5). unfold put_pixel.
  rewrite !wrap_int by done. unfold is_int, INT_MIN, INT_MAX in *.
  destruct (Z.ltb_spec X 0); [|destruct (Z.ltb_spec Y 0)].
  1,2: rewrite ?(proj2 (Z.ltb_ge _ (HorizontalResolution s))), ?(proj2 (Z.ltb_ge _ (VerticalResolution s))), ?andb_false_r by lia;
    cbn [andb]; exists s; split; [done|]; apply painted_refl; intros px py d Hx Hy.
  { by rewrite (proj2 (Z.eqb_neq px X)) by lia. }
  { by rewrite (proj2 (Z.eqb_neq py Y)), andb_false_r by lia. }
  destruct (Z.ltb_spec X (HorizontalResolution s)); [destruct (Z.ltb_spec Y (VerticalResolution s))|]; cbn [andb].
  - destruct (pixel_index_small s X Y Hs) as (Ei & Hi); [lia|lia|]. rewrite Ei, wr_in by done. bind_step.
    eexists. split; [reflexivity|]. eexists. split; [reflexivity|]. split; [apply zlen_zset|].
    intros px py Hx Hy. rewrite zget_zset by nia.
    destruct (pixel_index_small s px py Hs Hx Hy) as (Ej & Hj).
    destruct (Z.eqb_spec px X) as [->|Nx]; [destruct (Z.eqb_spec py Y) as [->|Ny]|]; cbn [andb].
    + by rewrite Z.eqb_refl, !(proj2 (Z.ltb_lt _ _)) by lia.
    + rewrite (proj2 (Z.eqb_neq _ _)); [done|]. intros E. apply Ny. nia.
    + rewrite (proj2 (Z.eqb_neq _ _)); [done|]. rewrite <- Ei, <- Ej. intros E.
      apply Nx. symmetry. by apply (pixel_index_inj s X Y px py Hs); try lia.
  - exists s. split; [done|]. apply painted_refl. intros px py d Hx Hy.
    by rewrite (proj2 (Z.eqb_neq py Y)), andb_false_r by lia.
  - exists s. split; [done|]. apply painted_refl. intros px py d Hx Hy.
    destruct (Z.eqb_spec px X) as [->|]; [|done]. by rewrite (proj2 (Z.ltb_ge _ _)), andb_false_r by lia.
Qed.

(** The colour of a pixel of a glyph: bit [7 - k] of its row decides. *)
Definition glyph_colour (b k : Z) (o : GlyphRenderOptions) (old : Z) : Z :=
  if Z.testbit b (7 - k) then color o else if use_bg o then bg_color o else old.

Lemma mask_bit b k : 0 <= k < 8 -> negb (b &&& (0x80 >>> k) =? 0) = Z.testbit b (7 - k).
Proof.
  intros Hk. assert (E : 0x80 >>> k = 2 ^ (7 - k)).
  { change 0x80 with (2 ^ 7). rewrite Z.shiftr_div_pow2, Z.pow_sub_r by lia. done. }
  rewrite E. destruct (Z.testbit b (7 - k)) eqn:T.
  - rewrite (proj2 (Z.eqb_neq _ _)); [done|]. intros Z0.
    assert (F : Z.testbit (b &&& 2 ^ (7 - k)) (7 - k) = true) by (rewrite Z.land_spec, T, Z.pow2_bits_true by lia; done).
    rewrite Z0, Z.bits_0 in F. done.
  - assert (Z0 : b &&& 2 ^ (7 - k) = 0); [|by rewrite Z0].
    apply Z.bits_inj'. intros n Hn. rewrite Z.land_spec, Z.pow2_bits_eqb, Z.bits_0 by lia.
    destruct (Z.eqb_spec (7 - k) n) as [<-|]; [by rewrite T|by rewrite andb_false_r].
Qed.

Lemma glyph_cols_painted b x y row o : is_int x -> is_int (x + 7) -> is_int (y + row) -> forall n col s,
  0 <= col -> col + Z.of_nat n <= 8 -> display_ok s ->
  exists s', glyph_cols n col b x y row o (Some s) = Ret (Some s') /\
    painted s s' (fun px py old =>
      if (py =? y + row) && (x + col <=? px) && (px <? x + col + Z.of_nat n) && (px <? HorizontalResolution s)
      then glyph_colour b (px - x) o old else old).
Proof.
  intros Hx Hx7 Hy. induction n as [|n IH]; intros col s H0 H8 Hs.
  { exists s. split; [done|]. apply painted_refl. intros px py c _ _.
    destruct (Z.leb_spec (x + col) px), (Z.ltb_spec px (x + col + Z.of_nat 0)); rewrite ?andb_false_r; try done; lia. }
  assert (Hc : is_int (x + col)) by (unfold is_int in *; lia).
  cbn [glyph_cols]. rewrite mask_bit by lia.
  assert (P : exists s1, (if Z.testbit b (7 - col) then
             px ← int_of (x + col); py ← int_of (y + row); put_pixel (Some s) (wrap 32 px) (wrap 32 py) (color o)
           else if use_bg o then
             px ← int_of (x + col); py ← int_of (y + row); put_pixel (Some s) (wrap 32 px) (wrap 32 py) (bg_color o)
           else mret (Some s)) = Ret (Some s1) /\
     painted s s1 (fun px py old => if (px =? x + col) && (py =? y + row) && (px <? HorizontalResolution s)
                                    then glyph_colour b col o old else old)).
  { rewrite !int_of_int by done. bind_step. unfold glyph_colour.
    destruct (Z.testbit b (7 - col)); [by apply put_pixel_painted|]. destruct (use_bg o); [by apply put_pixel_painted|].
    exists s. split; [done|]. apply painted_refl. intros px py c _ _. by destruct (_ && _). }
  destruct P as (s1 & -> & P1). bind_step.
  destruct (IH (col + 1) s1) as (s2 & E2 & P2); [lia|lia|by eapply painted_ok|].
  rewrite E2. exists s2. split; [done|]. rewrite (painted_res _ _ _ P1) in P2.
  apply (painted_trans _ _ _ _ _ _ P1 P2). intros px py c Hpx Hpy.
  destruct (Z.eqb_spec py (y + row)), (Z.ltb_spec px (HorizontalResolution s)), (Z.eqb_spec px (x + col)),
    (Z.leb_spec (x + col) px), (Z.leb_spec (x + (col + 1)) px), (Z.ltb_spec px (x + col + Z.of_nat (S n))),
    (Z.ltb_spec px (x + (col + 1) + Z.of_nat n)); cbn [andb];
    first [lia|done|f_equal; lia].
Qed.

Lemma glyph_rows_painted data off x y o : is_int x -> is_int (x + 7) -> forall n row s,
  0 <= off -> 0 <= row -> is_int (y + row) -> is_int (y + row + Z.of_nat n) -> off + row + Z.of_nat n <= zlen data -> display_ok s ->
  exists s', glyph_rows n row off data x y o (Some s) = Ret (Some s') /\
    painted s s' (fun px py old =>
      if (y + row <=? py) && (py <? y + row + Z.of_nat n) && (x <=? px) && (px <? x + 8) && (px <? HorizontalResolution s)
      then glyph_colour (zget data (off + (py - y))) (px - x) o old else old).
Proof.
  intros Hx Hx7. induction n as [|n IH]; intros row s H0 Hr Hy Hyn Hl Hs.
  { exists s. split; [done|]. apply painted_refl. intros px py c _ _.
    destruct (Z.leb_spec (y + row) py), (Z.ltb_spec py (y + row + Z.of_nat 0)); rewrite ?andb_false_r; try done; lia. }
  cbn [glyph_rows]. rewrite rd_get by lia. bind_step.
  destruct (glyph_cols_painted (zget data (off + row)) x y row o Hx Hx7 Hy 8 0 s) as (s1 & -> & P1); [lia|lia|done|].
  bind_step. destruct (IH (row + 1) s1) as (s2 & E2 & P2); [lia|lia|unfold is_int in *; lia|unfold is_int in *; lia|lia|by eapply painted_ok|].
  rewrite E2. exists s2. split; [done|]. rewrite (painted_res _ _ _ P1) in P2.
  apply (painted_trans _ _ _ _ _ _ P1 P2). intros px py c Hpx Hpy.
  rewrite Z.add_0_r. change (Z.of_nat 8) with 8.
  destruct (px <? HorizontalResolution s); rewrite ?andb_false_r, ?andb_true_r; [|done].
  destruct (px <? x + 8); rewrite ?andb_false_r, ?andb_true_r; [|done].
  destruct (x <=? px); rewrite ?andb_false_r, ?andb_true_r; [|done].
  destruct (Z.eqb_spec py (y + row)), (Z.leb_spec (y + row) py), (Z.leb_spec (y + (row + 1)) py),
    (Z.ltb_spec py (y + row + Z.of_nat (S n))), (Z.ltb_spec py (y + (row + 1) + Z.of_nat n)); cbn [andb];
    first [lia|done|f_equal; f_equal; lia].
Qed.

Lemma render_bitmap f c x y o s :
  32 <= c <= 126 -> 0 <= line_height f -> 0 <= bytes_per_glyph f < 2 ^ 24 ->
  (c - 32) * bytes_per_glyph f + line_height f <= zlen (font_data f) ->
  is_int x -> is_int (x + 7) -> is_int y -> is_int (y + line_height f) -> display_ok s ->
  exists s', RenderBitmapGlyph f c x y o (Some s) = Ret (max_width f, Some s') /\
    painted s s' (fun px py old =>
      if (y <=? py) && (py <? y + line_height f) && (x <=? px) && (px <? x + 8) && (px <? HorizontalResolution s)
      then glyph_colour (zget (font_data f) ((c - 32) * bytes_per_glyph f + (py - y))) (px - x) o old else old).
Proof.
  intros Hc Hh Hb Hd Hx Hx7 Hy Hyh Hs. unfold RenderBitmapGlyph. rewrite !(proj2 (Z.ltb_ge _ _)) by lia. cbn [orb].
  rewrite wrap_small by (unfold in_u; nia).
  destruct (glyph_rows_painted (font_data f) ((c - 32) * bytes_per_glyph f) x y o Hx Hx7 (Z.to_nat (line_height f)) 0 s)
    as (s' & -> & P); rewrite ?Z2Nat.id, ?Z.add_0_r by lia; try done; try nia.
  bind_step. exists s'. split; [done|]. rewrite Z.add_0_r, Z2Nat.id in P by lia. exact P.
Qed.

Lemma render_loop_width f y o :
  format f = FONT_FORMAT_BITMAP -> 0 <= line_height f -> 0 <= bytes_per_glyph f < 2 ^ 24 ->
  94 * bytes_per_glyph f + line_height f <= zlen (font_data f) -> 7 <= max_width f ->
  is_int y -> is_int (y + line_height f) -> forall text x w s,
  is_int x -> is_int (x + max_width f * (zlen text + 1)) -> is_int w -> is_int (w + max_width f * zlen text) -> display_ok s ->
  let w' := w + max_width f * zlen (filter (fun c => 32 <= c <= 126) text) in
  exists s', render_loop (Some f) text x w y (Some o) (Some s) = Ret (w', Some s') /\
    measure_loop f text w = Ret w' /\ display_ok s'.
Proof.
  intros Hf Hh Hb Hd Hw Hy Hyh. induction text as [|c text IH]; intros x w s Hx Hxw Hw0 Hww Hs; cbv zeta.
  { cbn [render_loop measure_loop]. change (filter _ []) with (@nil Z).
    change (zlen (@nil Z)) with 0. rewrite Z.mul_0_r, Z.add_0_r. by exists s. }
  assert (Hlen : forall a (l : list Z), zlen (a :: l) = zlen l + 1) by (intros; unfold zlen; cbn [length]; lia).
  rewrite Hlen in *. pose proof (zlen_nonneg text) as Hz. unfold is_int, INT_MIN, INT_MAX in Hx, Hxw, Hw0, Hww.
  cbn [render_loop measure_loop RenderGlyph]. rewrite Hf. rewrite filter_cons. destruct (decide (32 <= c <= 126)) as [Hc|Hc].
  - destruct (render_bitmap f c x y o s) as (s1 & -> & P); try done; try (unfold is_int, INT_MIN, INT_MAX; nia).
    bind_step. cbn [fst snd]. rewrite !int_of_int by (unfold is_int, INT_MIN, INT_MAX; nia). bind_step.
    rewrite !(proj2 (Z.leb_le _ _)) by lia. cbn [andb].
    destruct (IH (x + max_width f) (w + max_width f) s1) as (s' & E1 & E2 & Hs');
      try (unfold is_int, INT_MIN, INT_MAX; nia); [by eapply painted_ok|].
    bind_step. rewrite E1, E2. exists s'. rewrite Hlen. split; [do 2 f_equal; lia|]. split; [f_equal; lia|done].
  - assert (Hr : RenderBitmapGlyph f c x y o (Some s) = Ret (0, Some s)).
    { unfold RenderBitmapGlyph. destruct (Z.ltb_spec c 32), (Z.ltb_spec 126 c); try done. lia. }
    rewrite Hr. bind_step. cbn [fst snd]. rewrite !Z.add_0_r, !int_of_int by (unfold is_int, INT_MIN, INT_MAX; nia). bind_step.
    replace ((32 <=? c) && (c <=? 126)) with false by (destruct (Z.leb_spec 32 c), (Z.leb_spec c 126); try done; lia).
    bind_step. apply IH; try done; unfold is_int, INT_MIN, INT_MAX; nia.
Qed.

(** A glyph of a bitmap font drawn at any position, partly or wholly off the
    screen: nothing is stored outside the frame buffer, the advance is the font's
    width, a pixel of the screen inside the 8 columns and [line_height] rows gets
    the text colour where the row's bit is set and the background colour where it
    is not (if wanted), and every other pixel stays as it was. *)
Theorem render_glyph_functional f c x y o s :
  format f = FONT_FORMAT_BITMAP -> 32 <= c <= 126 -> 0 <= line_height f -> 0 <= bytes_per_glyph f < 2 ^ 24 ->
  (c - 32) * bytes_per_glyph f + line_height f <= zlen (font_data f) ->
  is_int x -> is_int (x + 7) -> is_int y -> is_int (y + line_height f) -> display_ok s ->
  exists s', RenderGlyph (Some f) c x y (Some o) (Some s) = Ret (max_width f, Some s') /\
    painted s s' (fun px py old =>
      if (y <=? py) && (py <? y + line_height f) && (x <=? px) && (px <? x + 8) && (px <? HorizontalResolution s)
      then glyph_colour (zget (font_data f) ((c - 32) * bytes_per_glyph f + (py - y))) (px - x) o old else old).
Proof.
  intros Hf Hc Hh Hb Hd Hx Hx7 Hy Hyh Hs. cbn [RenderGlyph]. rewrite Hf. by apply render_bitmap.
Qed.

Definition dot_font : Font := mk_font FONT_FORMAT_BITMAP 1 FONT_WEIGHT_REGULAR 1 1 8 [0x80; 0x40] false.

Lemma render_glyph_functional_witness : exists s',
  RenderGlyph (Some dot_font) 33 (-1) 0 (Some (mk_options 9 0 false)) (Some (mk_screen 2 1 2 [5; 6])) = Ret (8, Some s') /\
  zget (framebuffer s') 0 = 9 /\ zget (framebuffer s') 1 = 6.
Proof.
  destruct (render_glyph_functional dot_font 33 (-1) 0 (mk_options 9 0 false) (mk_screen 2 1 2 [5; 6]))
    as (s' & E & fb & -> & _ & H); try (vm_compute; repeat split; done).
  exists (set_fb (mk_screen 2 1 2 [5; 6]) fb). split; [exact E|]. split.
  - exact (H 0 0 ltac:(cbn; lia) ltac:(cbn; lia)).
  - exact (H 1 0 ltac:(cbn; lia) ltac:(cbn; lia)).
Defined.

(** The tables of the built-in fonts end early: from the ampersand on (the
    default font has six glyphs) drawing a character reads past the array. *)
Theorem builtin_font_incomplete c x y o s : 38 <= c <= 126 ->
  RenderGlyph (Some default_font) c x y (Some o) s = UB.
Proof.
  intros Hc. cbn [RenderGlyph default_font format]. unfold RenderBitmapGlyph.
  rewrite !(proj2 (Z.ltb_ge _ _)) by lia. cbn [orb].
  change (bytes_per_glyph _) with 16. change (Z.to_nat (line_height _)) with 16%nat.
  rewrite wrap_small by (unfold in_u; lia). cbn [glyph_rows font_data].
  rewrite (rd_end (font_data default_font) ((c - 32) * 16 + 0)); [reflexivity|].
  change (zlen (font_data default_font)) with 96. lia.
Qed.

(** [RenderText] with a bitmap font whose table has all printable characters
    draws the whole text, stays in the frame buffer, and returns the width
    [MeasureText] computes, characters without a glyph counting nothing in both. *)
Theorem render_text_measured f text x y o m s :
  format f = FONT_FORMAT_BITMAP -> 0 <= line_height f -> 0 <= bytes_per_glyph f < 2 ^ 24 ->
  94 * bytes_per_glyph f + line_height f <= zlen (font_data f) -> 7 <= max_width f ->
  is_int y -> is_int (y + line_height f) ->
  is_int x -> is_int (x + max_width f * (zlen text + 1)) -> is_int (max_width f * zlen text) -> display_ok s ->
  exists w s', RenderText (Some f) (Some text) x y (Some o) (Some s) = Ret (w, Some s') /\ display_ok s' /\
    MeasureText (Some f) (Some text) (Some m) =
      Ret (Some (mk_metrics w (line_height f) (baseline f) (line_height f - baseline f))) /\
    w = max_width f * zlen (filter (fun c => 32 <= c <= 126) text).
Proof.
  intros Hf Hh Hb Hd Hw Hy Hyh Hx Hxw Hww Hs. cbn [RenderText MeasureText].
  destruct (render_loop_width f y o Hf Hh Hb Hd Hw Hy Hyh text x 0 s) as (s' & E1 & E2 & Hs'); try done.
  rewrite E1, E2. bind_step. rewrite Z.add_0_l. eexists _, s'. by split; [reflexivity|].
Qed.

Definition blank_font : Font := mk_font FONT_FORMAT_BITMAP 0 FONT_WEIGHT_REGULAR 0 0 8 [] false.

Lemma render_text_measured_witness : exists w s',
  RenderText (Some blank_font) (Some [72; 10; 105]) 0 0 (Some (mk_options 9 0 false)) (Some (mk_screen 2 1 2 [5; 6])) = Ret (w, Some s') /\
  w = 16.
Proof.
  destruct (render_text_measured blank_font [72; 10; 105] 0 0 (mk_options 9 0 false) (mk_metrics 0 0 0 0) (mk_screen 2 1 2 [5; 6]))
    as (w & s' & E & _ & _ & Hw); try (vm_compute; repeat split; done).
  exists w, s'. split; [exact E|exact Hw].
Defined.

(** [ClearFontCache] sets the count to 3 although the built-in fonts are not in
    the cache, so a pointer to a font it has just freed counts as cached again. *)
Theorem clear_cache_stale x d : (st ← ClearFontCache (load_all [x :: d]); ShutdownFontSystem st) = UB.
Proof. reflexivity. Qed.
