(* ===== verification/MenuUi.v ===== *)
(** * The boot menu on the screen (src/boot/menu.c, mouse.c)

    What [DrawBootMenu] and the text fallback show, the pointer device, and the
    whole loop of [ShowBootMenu]: drawing, the mouse, then the iteration of
    [Menu.v].  [GraphicsOutput] is [None] while no graphics protocol has been
    located; the console is the list of the calls made to [gST->ConOut].
    [DrawImage] and [AddLocalizedString] are declared nowhere in the repository, and what the C library's
    [swprintf] makes of a wide string given to [%s] depends on the library (the
    whole string in Microsoft's, its first bytes in ISO C): both are parameters. *)

From Stdlib Require Import String.
From S2P Require Import Prelude.
From S2P Require Import BootConfig.
From S2P Require Import CString.
From S2P Require Import Menu.
From S2P Require Import Localization.
From S2P Require Import Graphics.
Import ListNotations.
#[local] Open Scope list_scope.

(** ** The console *)

Inductive con_op :=
| ConClearScreen
| SetCursorPosition (column row : Z)
| SetAttribute (attr : Z)
| OutputString (s : bytes).

Definition EFI_LIGHTGRAY : Z := 7.
Definition EFI_WHITE : Z := 15.
Definition EFI_BLACK : Z := 0.
Definition EFI_TEXT_ATTR (fg bg : Z) : Z := Z.lor fg (Z.shiftl bg 4).

(** [PrintXY] with the text its format gives; the two colours are not used.  The
    buffer holds 256 characters with the terminator. *)
Definition PrintXY (X Y FgColor BgColor : Z) (text : bytes) : list con_op :=
  [SetCursorPosition X Y; SetAttribute (EFI_TEXT_ATTR EFI_LIGHTGRAY EFI_BLACK);
   OutputString (take 255 text); SetAttribute (EFI_TEXT_ATTR EFI_WHITE EFI_BLACK)].

(** ** The pointer (mouse.c) *)

Record MouseState := mk_mouse { mouse_x : Z; mouse_y : Z; left_button : bool; right_button : bool }.
Record EFI_SIMPLE_POINTER_STATE := mk_pointer {
  RelativeMovementX : Z; RelativeMovementY : Z; LeftButton : bool; RightButton : bool }.

(** [SimplePointer] after [LocateProtocol], which stores NULL when it fails. *)
Definition InitMouse (locate : Z) : bool := negb (EFI_ERROR locate).

(** The device answers [GetState] with a status or a state. *)
Definition GetMouseState (SimplePointer : bool) (answer : Z + EFI_SIMPLE_POINTER_STATE) (st : MouseState) : run MouseState :=
  if negb SimplePointer then mret st
  else match answer with
  | inl _ => mret st
  | inr p =>
      x ← int_of (mouse_x st + RelativeMovementX p);
      y ← int_of (mouse_y st + RelativeMovementY p);
      mret (mk_mouse x y (LeftButton p) (RightButton p))
  end.

(** ** The language file *)

Section Language.
Context {St : Type} (AddLocalizedString : bytes -> bytes -> St -> St).

Fixpoint take_while (p : Z -> bool) (s : bytes) : bytes :=
  match s with c :: s => if p c then c :: take_while p s else [] | [] => [] end.

(** [sscanf(line, "%63[^=]=%255ls", key, value) == 2]: the key and the value.  A
    byte of the value is one wide character. *)
Definition scan_line (line : bytes) : option (bytes * bytes) :=
  let key := take 63 (take_while (fun c => negb (c =? 61)) line) in
  match key, drop (length key) line with
  | _ :: _, 61 :: rest =>
      match take 255 (take_while (fun c => negb (is_space c)) (drop_while is_space rest)) with
      | [] => None
      | value => Some (key, value)
      end
  | _, _ => None
  end.

(** [while (fgets(line, 256, f))] *)
Fixpoint language_loop (fuel : nat) (f : bytes) (st : St) : run St :=
  match f, fuel with
  | [], _ => mret st
  | _, O => OutOfFuel
  | _, S fuel =>
      let '(line, rest) := fgets 255 f in
      language_loop fuel rest (match scan_line line with Some (k, v) => AddLocalizedString k v st | None => st end)
  end.

Definition LoadLocalizationFile (fopen : bytes -> option bytes) (lang_code : bytes) (st : St) : run St :=
  match fopen (snprintf_s 64 (lit "lang_" ++ lang_code ++ lit ".txt")) with
  | None => mret st
  | Some f => language_loop (length f) f st
  end.
End Language.

(** ** Drawing *)

Section Draw.
Context (DrawImage : Z -> option screen -> option screen) (wide_s : bytes -> bytes).

Definition entry_label (key : Z) (name : bytes) : bytes :=
  if negb (key =? 0) then [40; key; 41; 32] ++ wide_s name else wide_s name.

Definition draw_rect (g : option screen) (X Y W H color : Z) : run (option screen) :=
  r ← DrawRect g (wrap 32 X) (wrap 32 Y) (wrap 32 W) (wrap 32 H) color; mret (snd r).

(** The loop over the visible entries: [n] more, the next one [i]. *)
Fixpoint draw_entries (theme : BootMenuTheme) (m : menu) (MenuX MenuWidth : Z)
    (n : nat) (i TextY : Z) (g : option screen) : run (option screen * list con_op) :=
  match n with
  | O => mret (g, [])
  | S n =>
      if i <? BootEntryCount m then
        g ← (if i =? SelectedEntry m
             then draw_rect g (MenuX + 10) (TextY - 5) (MenuWidth - 20) 40 (highlight_color theme)
             else mret g);
        key ← rd (BootEntryHotkeys m) i;
        match BootEntries m !! Z.to_nat i with
        | None => UB
        | Some e =>
            r ← draw_entries theme m MenuX MenuWidth n (i + 1) (TextY + 50) g;
            mret (fst r,
              PrintXY (wrap 64 (MenuX + 20)) (wrap 64 TextY)
                (if i =? SelectedEntry m then selected_text_color theme else text_color theme) 0
                (entry_label key (entry_name e)) ++ snd r)
        end
      else mret (g, [])
  end.

(** [(ScreenWidth - StrLen(s) * 10) / 2], in [UINTN]. *)
Definition centered (ScreenWidth : Z) (s : bytes) : Z := wrap 64 (ScreenWidth - zlen s * 10) / 2.

Definition DrawBootMenu (theme : BootMenuTheme) (loc : locale) (m : menu) (GraphicsOutput : option screen)
  : run (option screen * list con_op) :=
  g ← match background_image theme with
      | Some img => mret (DrawImage img GraphicsOutput)
      | None => r ← ClearScreen GraphicsOutput (background_color theme); mret (snd r)
      end;
  match g with
  | None => UB
  | Some s =>
      let ScreenWidth := s32 (HorizontalResolution s) in
      g ← draw_rect g 0 0 ScreenWidth 60 (header_color theme);
      let MenuX := ScreenWidth ÷ 4 in
      let MenuY := 100 in
      let MenuWidth := ScreenWidth ÷ 2 in
      let MenuHeight := VISIBLE_MENU_ENTRIES * 50 + 40 in
      g ← draw_rect g MenuX MenuY MenuWidth MenuHeight (header_color theme);
      let menu_title := GetLocalizedString loc (lit "menu_title") in
      let title := PrintXY (centered ScreenWidth menu_title) 30 (selected_text_color theme) (header_color theme) menu_title in
      r ← draw_entries theme m MenuX MenuWidth (Z.to_nat VISIBLE_MENU_ENTRIES) (MenuScrollOffset m) (MenuY + 20) g;
      let up := if 0 <? MenuScrollOffset m
                then PrintXY (wrap 64 (MenuX + MenuWidth - 40)) (MenuY + 10) (footer_color theme) 0 [8593] else [] in
      let down := if MenuScrollOffset m + VISIBLE_MENU_ENTRIES <? BootEntryCount m
                  then PrintXY (wrap 64 (MenuX + MenuWidth - 40)) (MenuY + MenuHeight - 30) (footer_color theme) 0 [8595] else [] in
      let instructions := GetLocalizedString loc (lit "instructions") in
      let foot := PrintXY (centered ScreenWidth instructions) (MenuY + MenuHeight + 20) (footer_color theme) 0 instructions in
      mret (fst r, title ++ snd r ++ up ++ down ++ foot)
  end.

(** The fallback in text mode. *)
Definition DrawTextMenu (m : menu) : list con_op :=
  [ConClearScreen; OutputString ([13; 10] ++ lit "  BloodHorn Boot Menu" ++ [13; 10; 13; 10])] ++
  imap (fun i e => OutputString ([32; 32; if Z.of_nat i =? SelectedEntry m then 62 else 32; 32] ++ entry_name e ++ [13; 10]))
    (BootEntries m) ++
  [OutputString ([13; 10] ++ lit "  Use arrow keys to select, Enter to boot, ESC to exit")].

(** ** The loop of [ShowBootMenu] *)

Context (towlower : Z -> Z) (SimplePointer : bool) (theme : BootMenuTheme) (loc : locale).

(** What one iteration sees: the pointer, the event wait, the keyboard. *)
Record frame_input := mk_frame {
  f_pointer : Z + EFI_SIMPLE_POINTER_STATE; f_wait : Z; f_read : Z; f_char : Z; f_scan : Z }.

(** [Status], the graphics output, the globals of the menu and the mouse. *)
Record ui := mk_ui { ui_status : Z; ui_gfx : option screen; ui_menu : menu; ui_mouse : MouseState }.

Definition to_input (W : Z) (ms : MouseState) (f : frame_input) : input :=
  mk_input W (mouse_x ms) (mouse_y ms) (left_button ms)
    (f_wait f) (f_read f) (f_char f) (f_scan f).

(** One iteration: the new state, how the menu ends if it does, and the console. *)
Definition ui_iter (u : ui) (f : frame_input) : run (ui * option outcome * list con_op) :=
  r ← (if negb (EFI_ERROR (ui_status u)) then DrawBootMenu theme loc (ui_menu u) (ui_gfx u)
       else mret (ui_gfx u, DrawTextMenu (ui_menu u)));
  ms ← GetMouseState SimplePointer (f_pointer f) (ui_mouse u);
  match fst r with
  | None => UB
  | Some s =>
      q ← menu_iter towlower (ui_menu u) (to_input (HorizontalResolution s) ms f);
      let status := if EFI_ERROR (f_wait f) then f_wait f else f_read f in
      mret (mk_ui status (Some s) (fst q) ms, snd q, snd r)
  end.

Fixpoint ui_loop (u : ui) (fs : list frame_input) : run (ui * option outcome) :=
  match fs with
  | [] => mret (u, None)
  | f :: fs =>
      r ← ui_iter u f;
      match snd (fst r) with
      | Some o => mret (fst (fst r), Some o)
      | None => ui_loop (fst (fst r)) fs
      end
  end.

(** The state the loop starts in: [gfx_status] is what [InitializeGraphics]
    returns. *)
Definition start_ui (gfx_status : Z) (g : option screen) (m : menu) : ui :=
  mk_ui gfx_status g (start_menu towlower m) (mk_mouse 0 0 false false).
End Draw.

(** ** What the screen shows *)

(** The label of an entry, and the calls that print the visible entries, from
    entry [i] on the [k]-th line. *)
Section Spec.
Context (wide_s : bytes -> bytes).

Definition entry_texts (theme : BootMenuTheme) (m : menu) (x : Z) (i : Z) : list con_op :=
  PrintXY x (120 + 50 * (i - MenuScrollOffset m))
    (if i =? SelectedEntry m then selected_text_color theme else text_color theme) 0
    (entry_label wide_s (zget (BootEntryHotkeys m) i) (default [] (entry_name <$> BootEntries m !! Z.to_nat i))).

(** The entries on the page. *)
Definition page (m : menu) : list Z :=
  seqZ (MenuScrollOffset m) (Z.min (BootEntryCount m - MenuScrollOffset m) VISIBLE_MENU_ENTRIES).

Definition menu_texts (theme : BootMenuTheme) (loc : locale) (m : menu) (W : Z) : list con_op :=
  let title := GetLocalizedString loc (lit "menu_title") in
  let foot := GetLocalizedString loc (lit "instructions") in
  PrintXY (centered W title) 30 (selected_text_color theme) (header_color theme) title ++
  flat_map (entry_texts theme m (W / 4 + 20)) (page m) ++
  (if 0 <? MenuScrollOffset m then PrintXY (wrap 64 (W / 4 + W / 2 - 40)) 110 (footer_color theme) 0 [8593] else []) ++
  (if MenuScrollOffset m + VISIBLE_MENU_ENTRIES <? BootEntryCount m
   then PrintXY (wrap 64 (W / 4 + W / 2 - 40)) 610 (footer_color theme) 0 [8595] else []) ++
  PrintXY (centered W foot) 660 (footer_color theme) 0 foot.
End Spec.

Definition on (x y w h px py : Z) : bool := (x <=? px) && (px <? x + w) && (y <=? py) && (py <? y + h).

(** The line of the selected entry. *)
Definition on_selected (m : menu) (W px py : Z) : bool :=
  bool_decide (SelectedEntry m ∈ page m) &&
  on (W / 4 + 10) (115 + 50 * (SelectedEntry m - MenuScrollOffset m)) (W / 2 - 20) 40 px py.

(** The colour of a pixel: the selected line, the bar and the panel, the background;
    what is right of the visible columns keeps its value. *)
Definition menu_pixel (theme : BootMenuTheme) (m : menu) (W px py old : Z) : Z :=
  if W <=? px then old
  else if on_selected m W px py then highlight_color theme
  else if on 0 0 W 60 px py || on (W / 4) 100 (W / 2) 540 px py then header_color theme
  else background_color theme.

(** ** Drawing is correct *)

(** A screen wide enough for the selected line, with a width that is an [INT32]. *)
Definition menu_screen (s : screen) : Prop :=
  screen_ok s /\ 40 <= HorizontalResolution s < 2 ^ 31.

Lemma painted_screen s s' f : painted s s' f -> screen_ok s -> screen_ok s' /\
  HorizontalResolution s' = HorizontalResolution s /\ VerticalResolution s' = VerticalResolution s /\
  PixelsPerScanLine s' = PixelsPerScanLine s.
Proof. intros (fb & -> & E & _) (H1 & H2 & H3 & H). unfold screen_ok. cbn. by rewrite E. Qed.

(** A rectangle drawn on a painted screen. *)
Lemma draw_rect_after s0 s f X Y W H c : painted s0 s f -> screen_ok s0 -> in_u 32 X -> in_u 32 Y -> in_u 32 W -> in_u 32 H ->
  exists s', draw_rect (Some s) X Y W H c = Ret (Some s') /\
    painted s0 s' (fun px py old => if in_rect s0 X Y W H px py then c else f px py old).
Proof.
  intros P Hs HX HY HW HH. destruct (painted_screen _ _ _ P Hs) as (Hs' & E1 & E2 & _).
  unfold draw_rect. rewrite !wrap_small by done.
  destruct (draw_rect_painted s X Y W H c Hs' HX HY HW HH) as (s' & -> & P'). bind_step. exists s'. split; [done|].
  apply (painted_trans _ _ _ _ _ _ P P'). intros px py o _ _. unfold in_rect. by rewrite E1, E2.
Qed.

Lemma painted_eq s s' f g : painted s s' f ->
  (forall px py c, 0 <= px < PixelsPerScanLine s -> 0 <= py < VerticalResolution s -> f px py c = g px py c) -> painted s s' g.
Proof. intros (fb & -> & E & P) H. exists fb. split; [done|]. split; [done|]. intros px py Hx Hy. by rewrite P, H. Qed.

(** The invariant of the menu, with a hotkey for each possible entry. *)
Definition menu_ok (m : menu) : Prop := menu_inv m /\ zlen (BootEntryHotkeys m) = MAX_BOOT_ENTRIES.

Lemma draw_entries_ok wide_s theme m s0 MX MW : menu_ok m -> screen_ok s0 -> 0 <= MX -> 20 <= MW -> MX + MW < 2 ^ 31 ->
  forall n i s f, painted s0 s f -> MenuScrollOffset m <= i -> i + Z.of_nat n <= MenuScrollOffset m + VISIBLE_MENU_ENTRIES ->
  exists s', draw_entries wide_s theme m MX MW n i (120 + 50 * (i - MenuScrollOffset m)) (Some s) =
      Ret (Some s', flat_map (entry_texts wide_s theme m (MX + 20)) (seqZ i (Z.min (BootEntryCount m - i) (Z.of_nat n)))) /\
    painted s0 s' (fun px py old =>
      if bool_decide (SelectedEntry m ∈ seqZ i (Z.min (BootEntryCount m - i) (Z.of_nat n))) &&
         in_rect s0 (MX + 10) (115 + 50 * (SelectedEntry m - MenuScrollOffset m)) (MW - 20) 40 px py
      then highlight_color theme else f px py old).
Proof.
  intros ((Hm1 & Hm2 & Hm3) & Hk) Hs HX HW HXW. unfold VISIBLE_MENU_ENTRIES, MAX_BOOT_ENTRIES in *.
  induction n as [|n IH]; intros i s f P Hi Hn.
  { cbn [draw_entries]. rewrite seqZ_nil by lia. exists s. split; [done|].
    apply (painted_eq _ _ _ _ P). intros px py c _ _. by rewrite bool_decide_eq_false_2 by apply not_elem_of_nil. }
  cbn [draw_entries]. destruct (Z.ltb_spec i (BootEntryCount m)) as [Hlt|Hge]; cycle 1.
  { rewrite seqZ_nil by lia. exists s. split; [done|].
    apply (painted_eq _ _ _ _ P). intros px py c _ _. by rewrite bool_decide_eq_false_2 by apply not_elem_of_nil. }
  rewrite seqZ_cons by lia.
  replace (Z.pred (Z.min (BootEntryCount m - i) (Z.of_nat (S n)))) with (Z.min (BootEntryCount m - (i + 1)) (Z.of_nat n)) by lia.
  replace (Z.succ i) with (i + 1) by lia.
  assert (exists s1, (if i =? SelectedEntry m
      then draw_rect (Some s) (MX + 10) (120 + 50 * (i - MenuScrollOffset m) - 5) (MW - 20) 40 (highlight_color theme)
      else mret (Some s)) = Ret (Some s1) /\
      painted s0 s1 (fun px py old =>
        if (i =? SelectedEntry m) && in_rect s0 (MX + 10) (115 + 50 * (SelectedEntry m - MenuScrollOffset m)) (MW - 20) 40 px py
        then highlight_color theme else f px py old)) as (s1 & -> & P1).
  { destruct (Z.eqb_spec i (SelectedEntry m)) as [<-|Ne]; [|by exists s].
    replace (120 + 50 * (i - MenuScrollOffset m) - 5) with (115 + 50 * (i - MenuScrollOffset m)) by lia.
    apply draw_rect_after; unfold in_u; [done|done|lia..]. }
  bind_step. rewrite rd_get by lia. bind_step.
  destruct (lookup_lt_is_Some_2 (BootEntries m) (Z.to_nat i)) as [e Ee]; [unfold BootEntryCount, zlen in *; lia|].
  rewrite Ee. destruct (IH (i + 1) s1 _ P1) as (s' & E & P'); [lia|lia|].
  replace (120 + 50 * (i - MenuScrollOffset m) + 50) with (120 + 50 * (i + 1 - MenuScrollOffset m)) by lia.
  rewrite E. bind_step. exists s'. split.
  - cbn [flat_map fst snd]. unfold entry_texts at 2. rewrite Ee. cbn [fmap option_fmap option_map].
    rewrite !wrap_small by (unfold in_u; lia). done.
  - apply (painted_eq _ _ _ _ P'). intros px py c _ _. set (l := seqZ _ _).
    rewrite (bool_decide_ext (SelectedEntry m ∈ i :: l) (SelectedEntry m = i \/ SelectedEntry m ∈ l)) by apply elem_of_cons.
    rewrite bool_decide_or.
    destruct (Z.eqb_spec i (SelectedEntry m)) as [->|Ne]; [rewrite (bool_decide_eq_true_2 (_ = _)) by done|rewrite (bool_decide_eq_false_2 (_ = i)) by lia];
      by destruct (bool_decide (_ ∈ l)), (in_rect _ _ _ _ _ _ _).
Qed.

Lemma in_rect_on s X Y W H px py : 0 <= X -> 0 <= W -> X + W < 2 ^ 32 -> 0 <= Y -> 0 <= H -> Y + H < 2 ^ 32 ->
  0 <= py < VerticalResolution s ->
  in_rect s X Y W H px py = on X Y W H px py && negb (HorizontalResolution s <=? px).
Proof.
  intros. unfold in_rect, on. rewrite !wrap_small by (unfold in_u; lia).
  destruct (Z.leb_spec (HorizontalResolution s) px), (Z.ltb_spec px (Z.min (X + W) (HorizontalResolution s))),
    (Z.ltb_spec py (Z.min (Y + H) (VerticalResolution s))), (Z.ltb_spec px (X + W)), (Z.ltb_spec py (Y + H)); try lia;
    by rewrite ?andb_true_r, ?andb_false_r.
Qed.

(** The menu is drawn as specified. *)
Lemma draw_boot_menu_ok DrawImage wide_s theme loc m s : menu_ok m -> menu_screen s -> background_image theme = None ->
  exists s', DrawBootMenu DrawImage wide_s theme loc m (Some s) =
      Ret (Some s', menu_texts wide_s theme loc m (HorizontalResolution s)) /\
    painted s s' (menu_pixel theme m (HorizontalResolution s)).
Proof.
  intros Hm (Hs & HW) Hb. pose proof Hs as (S1 & S2 & _). pose proof Hm as ((_ & _ & Hm3) & _).
  unfold DrawBootMenu, ClearScreen. rewrite Hb.
  destruct (draw_rect_painted s 0 0 (HorizontalResolution s) (VerticalResolution s) (background_color theme))
    as (s1 & -> & P1); [done|unfold in_u; lia..|]. bind_step. bind_step. cbn [snd].
  destruct (painted_screen _ _ _ P1 Hs) as (_ & -> & _). rewrite s32_small by lia.
  rewrite !Z.quot_div_nonneg by lia. set (W := HorizontalResolution s) in *.
  assert (0 <= W / 4 /\ 20 <= W / 2 /\ W / 4 + W / 2 < 2 ^ 31) as (W1 & W2 & W3)
    by (pose proof (Z.div_mod W 4); pose proof (Z.mod_pos_bound W 4); pose proof (Z.div_mod W 2); pose proof (Z.mod_pos_bound W 2); lia).
  destruct (draw_rect_after s s1 _ 0 0 W 60 (header_color theme) P1 Hs) as (s2 & -> & P2); [unfold in_u; lia..|]. bind_step.
  change (VISIBLE_MENU_ENTRIES * 50 + 40) with 540.
  destruct (draw_rect_after s s2 _ (W / 4) 100 (W / 2) 540 (header_color theme) P2 Hs) as (s3 & -> & P3); [unfold in_u; lia..|]. bind_step.
  destruct (draw_entries_ok wide_s theme m s (W / 4) (W / 2) Hm Hs W1 W2 W3 (Z.to_nat VISIBLE_MENU_ENTRIES) (MenuScrollOffset m) s3 _ P3)
    as (s4 & E4 & P4); [lia|rewrite Z2Nat.id by (unfold VISIBLE_MENU_ENTRIES; lia); lia|].
  replace (100 + 20) with (120 + 50 * (MenuScrollOffset m - MenuScrollOffset m)) by lia. rewrite E4. bind_step.
  exists s4. split; [reflexivity|].
  apply (painted_eq _ _ _ _ P4). intros px py c Hx Hy. change (Z.of_nat (Z.to_nat VISIBLE_MENU_ENTRIES)) with VISIBLE_MENU_ENTRIES.
  fold (page m). unfold menu_pixel, on_selected.
  assert (Hon : in_rect s 0 0 W (VerticalResolution s) px py = negb (W <=? px)).
  { rewrite in_rect_on by lia. unfold on, W. destruct (Z.leb_spec (HorizontalResolution s) px); [by rewrite andb_false_r|].
    by rewrite !(proj2 (Z.leb_le _ _)), !(proj2 (Z.ltb_lt _ _)) by lia. }
  rewrite Hon. rewrite (in_rect_on s 0 0 W 60) by lia. rewrite (in_rect_on s (W / 4) 100) by lia. fold W.
  clear P1 P2 P3 P4 E4. case_bool_decide as Hin; cbn [andb].
  - unfold page in Hin. apply elem_of_seqZ in Hin. unfold VISIBLE_MENU_ENTRIES in Hin.
    rewrite in_rect_on by lia. fold W. destruct (W <=? px); cbn [negb]; rewrite ?andb_false_r, ?andb_true_r; [done|].
    destruct (on (W / 4 + 10) _ _ _ _ _); [done|]. by destruct (on (W / 4) _ _ _ _ _), (on 0 _ _ _ _ _).
  - destruct (W <=? px); cbn [negb]; rewrite ?andb_false_r, ?andb_true_r; [done|].
    by destruct (on (W / 4) _ _ _ _ _), (on 0 _ _ _ _ _).
Qed.

(** ** The loop *)

(** The menu is well formed, and so is the screen, of width [W]. *)
Definition ui_ok (W : Z) (u : ui) : Prop :=
  menu_ok (ui_menu u) /\ exists s, ui_gfx u = Some s /\ menu_screen s /\ HorizontalResolution s = W.

(** The pointer is within [b] of the origin; one answer moves it by at most [B]. *)
Definition pointer_within (b : Z) (ms : MouseState) : Prop := Z.abs (mouse_x ms) <= b /\ Z.abs (mouse_y ms) <= b.
Definition moves_within (B : Z) (f : frame_input) : Prop :=
  match f_pointer f with
  | inl _ => True
  | inr p => Z.abs (RelativeMovementX p) <= B /\ Z.abs (RelativeMovementY p) <= B
  end.

Lemma get_mouse_ok sp b B f ms : pointer_within b ms -> (sp = true -> moves_within B f) -> 0 <= B -> b + B < 2 ^ 31 ->
  exists ms', GetMouseState sp (f_pointer f) ms = Ret ms' /\ pointer_within (b + B) ms' /\ (sp = false -> ms' = ms).
Proof.
  unfold pointer_within, moves_within, GetMouseState. intros H1 H2 H3 H4.
  destruct sp; cbn [negb]; [|exists ms; split; [done|]; split; [lia|done]].
  specialize (H2 eq_refl). destruct (f_pointer f) as [e|p]; [exists ms; split; [done|]; split; [lia|done]|].
  rewrite !int_of_int by (unfold is_int, INT_MIN, INT_MAX; lia). bind_step.
  eexists. split; [reflexivity|]. cbn [mouse_x mouse_y]. split; [lia|done].
Qed.

Lemma start_menu_ok towlower m : built m -> menu_ok (start_menu towlower m) /\ selected_visible (start_menu towlower m).
Proof.
  intros Hb. destruct (start_menu_inv towlower m Hb) as (Hi & Hv). split; [|done]. split; [done|].
  destruct (built_inv m Hb) as (Hc & _ & _ & Hz).
  destruct (assign_loop_fresh towlower (BootEntries m) [] 0 (BootEntryHotkeys m)) as (L & _);
    [lia|rewrite Hz; exact Hc|intros j _; rewrite Hz; apply zget_zeros|].
  unfold start_menu. case_match; [unfold AddBootEntry; case_match|]; cbn [snd AssignHotkeys BootEntryHotkeys]; rewrite L, Hz; reflexivity.
Qed.

Section Loop.
Context (DrawImage : Z -> option screen -> option screen) (wide_s : bytes -> bytes) (towlower : Z -> Z).
Context (sp : bool) (theme : BootMenuTheme) (loc : locale) (Hb : background_image theme = None).
Notation iter := (ui_iter DrawImage wide_s towlower sp theme loc).
Notation loop := (ui_loop DrawImage wide_s towlower sp theme loc).

(** One iteration is one of [Menu.v], on the width of the screen and the new
    place of the pointer, with the menu drawn before it. *)
Lemma ui_iter_ok W u f b B : ui_ok W u -> pointer_within b (ui_mouse u) -> (sp = true -> moves_within B f) -> 0 <= B -> b + B < 2 ^ 31 ->
  exists u' o ops, iter u f = Ret (u', o, ops) /\ ui_ok W u' /\ pointer_within (b + B) (ui_mouse u') /\
    (sp = false -> ui_mouse u' = ui_mouse u) /\
    menu_iter towlower (ui_menu u) (to_input W (ui_mouse u') f) = Ret (ui_menu u', o) /\
    (EFI_ERROR (ui_status u) = false -> ops = menu_texts wide_s theme loc (ui_menu u) W /\
       exists s s', ui_gfx u = Some s /\ ui_gfx u' = Some s' /\ painted s s' (menu_pixel theme (ui_menu u) W)) /\
    (EFI_ERROR (ui_status u) = true -> ops = DrawTextMenu (ui_menu u)).
Proof.
  intros (Hm & s & Eg & Hs & HW) Hp Hf HB Hbb. unfold ui_iter. rewrite Eg.
  destruct (draw_boot_menu_ok DrawImage wide_s theme loc (ui_menu u) s Hm Hs Hb) as (s' & Ed & P). rewrite HW in *.
  assert (Hs' : menu_screen s' /\ HorizontalResolution s' = W).
  { destruct Hs as (Hs & ?). destruct (painted_screen _ _ _ P Hs) as (? & E & _). unfold menu_screen. rewrite E, HW in *. by split; [split|]. }
  destruct (get_mouse_ok sp b B f (ui_mouse u) Hp Hf HB Hbb) as (ms & Em & Hms & Hns).
  destruct (menu_iter_ok towlower (ui_menu u) (to_input W ms f) (proj1 Hm)) as ([m' o] & Ei & Hi & _ & Hk & _). cbn [fst snd] in *.
  assert (Hm' : menu_ok m') by (split; [done|rewrite Hk; apply Hm]).
  destruct (EFI_ERROR (ui_status u)) eqn:Es; cbn [negb].
  - bind_step. rewrite Em. bind_step. cbn [fst]. rewrite HW, Ei. bind_step. eexists _, o, _. split; [reflexivity|].
    cbn [ui_menu ui_mouse ui_gfx fst]. unfold ui_ok. cbn. split_and!; try done. by exists s.
  - rewrite Ed. bind_step. rewrite Em. bind_step. cbn [fst]. rewrite (proj2 Hs'), Ei. bind_step. eexists _, o, _. split; [reflexivity|].
    cbn [ui_menu ui_mouse ui_gfx fst]. unfold ui_ok. cbn. split_and!; try done.
    + exists s'. by destruct Hs'.
    + intros _. split; [done|]. by exists s, s'.
Qed.

(** The whole loop is that of [Menu.v] on the same keys. *)
Lemma ui_loop_ok W B : 0 <= B -> forall fs u b, ui_ok W u -> pointer_within b (ui_mouse u) -> (sp = true -> Forall (moves_within B) fs) ->
  b + B * zlen fs < 2 ^ 31 ->
  exists r inputs, loop u fs = Ret r /\ ui_ok W (fst r) /\ (sp = false -> ui_mouse (fst r) = ui_mouse u) /\
    Forall2 (fun inp f => exists ms, inp = to_input W ms f) inputs fs /\
    menu_loop towlower (ui_menu u) inputs = Ret (ui_menu (fst r), snd r).
Proof.
  intros HB. induction fs as [|f fs IH]; intros u b Hu Hp Hf Hbb.
  { exists (u, None), []. split_and!; try done. }
  assert (Hfs : sp = true -> Forall (moves_within B) fs) by (intros H; apply (Forall_inv_tail (Hf H))).
  assert (Hl : zlen (f :: fs) = zlen fs + 1) by (unfold zlen; cbn [length]; lia).
  pose proof (zlen_nonneg fs). rewrite Hl in Hbb.
  destruct (ui_iter_ok W u f b B Hu Hp (fun H => Forall_inv (Hf H)) HB) as (u' & o & ops & E & Hu' & Hp' & Hm & Ei & _); [nia|].
  cbn [ui_loop]. rewrite E. bind_step. cbn [fst snd]. destruct o as [o|].
  - exists (u', Some o), (to_input W (ui_mouse u') f :: map (to_input W (ui_mouse u')) fs). split_and!; [done|done|done| |].
    + constructor; [eexists; reflexivity|]. clear. induction fs; constructor; [eexists; reflexivity|done].
    + cbn [menu_loop]. rewrite Ei. by bind_step.
  - destruct (IH u' (b + B) Hu' Hp' Hfs) as (r & inputs & E' & Hr & Hmr & Hin & El); [nia|].
    exists r, (to_input W (ui_mouse u') f :: inputs). split_and!; [done|done| |constructor; [eexists; reflexivity|done]|].
    + intros Hsp. by rewrite Hmr, Hm.
    + cbn [menu_loop]. rewrite Ei. bind_step. exact El.
Qed.
End Loop.

(** ** Keys *)

(** The hotkeys of the entries are printable characters, or none. *)
Definition keys_ok (m : menu) : Prop := forall j, 0 <= j < BootEntryCount m -> zget (BootEntryHotkeys m) j = 0 \/ 32 <= zget (BootEntryHotkeys m) j.

Lemma start_menu_keys towlower m : built m -> keys_ok (start_menu towlower m).
Proof.
  intros Hb j. destruct (built_inv m Hb) as (Hc & _ & _ & Hz).
  destruct (assign_loop_fresh towlower (BootEntries m) [] 0 (BootEntryHotkeys m)) as (_ & _ & F & _);
    [lia|rewrite Hz; exact Hc|intros j' _; rewrite Hz; apply zget_zeros|].
  unfold start_menu. change (BootEntryCount (AssignHotkeys towlower m)) with (BootEntryCount m).
  destruct (Z.eqb_spec (BootEntryCount m) 0) as [E|E].
  - intros _. left. unfold BootEntryCount, zlen in E. destruct (BootEntries m) as [|] eqn:Em; [|done].
    unfold AddBootEntry, BootEntryCount, AssignHotkeys. cbn [BootEntries]. rewrite Em. cbn [assign_loop].
    change (MAX_BOOT_ENTRIES <=? zlen []) with false. cbn [snd BootEntryHotkeys]. rewrite Hz. apply zget_zeros.
  - cbn [AssignHotkeys BootEntryHotkeys]. intros Hj. destruct (F j) as [?|(? & _)]; [exact Hj|by left|by right].
Qed.

Lemma find_hotkey_none keys : forall count c i, Z.of_nat count <= zlen keys ->
  (forall j, 0 <= j < Z.of_nat count -> zget keys j <> c) -> find_hotkey keys count c i = None.
Proof.
  induction keys as [|k keys IH]; intros [|count] c i Hl Hne; try done. cbn [find_hotkey].
  rewrite (proj2 (Z.eqb_neq k c)) by (apply (Hne 0); lia).
  apply IH; [unfold zlen in *; cbn [length] in Hl; lia|]. intros j Hj. specialize (Hne (j + 1) ltac:(lia)).
  unfold zget in *. by replace (Z.to_nat (j + 1)) with (S (Z.to_nat j)) in Hne by lia.
Qed.

(** A pointer left of the entries changes nothing. *)
Lemma mouse_loop_left inp n : forall m k, in_mouse_x inp < in_hres inp ÷ 4 + 20 -> mouse_loop inp m k n = Ret (m, None).
Proof.
  induction n as [|n IH]; intros m k H; [done|]. cbn [mouse_loop].
  assert (mouse_over inp k = false) as -> by (unfold mouse_over; by rewrite (proj2 (Z.leb_gt _ _)) by lia).
  case_match; [by apply IH|done].
Qed.

(** Enter starts the selected entry, whatever the hotkeys. *)
Lemma menu_iter_enter towlower m inp : menu_ok m -> keys_ok m -> towlower CHAR_CARRIAGE_RETURN = CHAR_CARRIAGE_RETURN ->
  in_mouse_x inp < in_hres inp ÷ 4 + 20 -> in_wait inp = EFI_SUCCESS -> in_read inp = EFI_SUCCESS ->
  in_char inp = CHAR_CARRIAGE_RETURN ->
  exists o, menu_iter towlower m inp = Ret (m, Some o) /\ outcome_of m o.
Proof.
  intros (Hm & Hl) Hk Ht Hx Hw Hr Hc. destruct (boot_selected_ok m Hm) as (o & Eo & Ho). exists o. split; [|done].
  unfold menu_iter. rewrite mouse_loop_left by done. bind_step. rewrite Hw, Hr, Hc.
  assert (hotkey towlower m CHAR_CARRIAGE_RETURN = m) as ->.
  { unfold hotkey. cbn [Z.eqb CHAR_CARRIAGE_RETURN]. destruct Hm as (Hm & _). unfold BootEntryCount, zlen in *.
    rewrite find_hotkey_none; [done|unfold zlen; lia|]. rewrite Ht. intros j Hj.
    destruct (Hk j Hj) as [->|?]; unfold CHAR_CARRIAGE_RETURN; lia. }
  change (EFI_ERROR EFI_SUCCESS) with false. cbv iota. rewrite Z.eqb_refl, Eo. by bind_step.
Qed.

(** ** Properties *)

(** C37. The menu with its screen, mouse and keyboard refines the state machine of
    the menu: on a menu the program set up and a screen with graphics, for any
    keys and any pointer movements that stay in 32 bits, the loop runs without
    undefined behaviour, and its selection and its outcome are those of the
    abstract loop on the same keys and some pointer positions. *)
Theorem boot_menu_ui_refines DrawImage wide_s towlower sp theme loc s m fs B :
  built m -> menu_screen s -> background_image theme = None ->
  0 <= B -> Forall (moves_within B) fs -> B * zlen fs < 2 ^ 31 ->
  exists r inputs,
    ui_loop DrawImage wide_s towlower sp theme loc (start_ui towlower EFI_SUCCESS (Some s) m) fs = Ret r /\
    Forall2 (fun inp f => exists ms, inp = to_input (HorizontalResolution s) ms f) inputs fs /\
    ShowBootMenu towlower m inputs = Ret (ui_menu (fst r), snd r) /\ menu_inv (ui_menu (fst r)).
Proof.
  intros Hb Hs Hi HB Hf Hl. destruct (start_menu_ok towlower m Hb) as (Hm & _).
  destruct (ui_loop_ok DrawImage wide_s towlower sp theme loc Hi (HorizontalResolution s) B HB fs
    (start_ui towlower EFI_SUCCESS (Some s) m) 0) as (r & inputs & E & (Hr & _) & _ & Hin & El); [|done|done|lia|].
  - split; [done|]. by exists s.
  - exists r, inputs. split_and!; [done|done|exact El|apply Hr].
Qed.

Definition demo_theme : BootMenuTheme := default_theme.
Definition demo_locale : locale := mk_locale None (lit "en").
Definition demo_screen : screen := mk_screen 64 2 64 (zeros 128).
Definition no_image (_ : Z) (g : option screen) : option screen := g.
Definition key_frame (char scan : Z) : frame_input := mk_frame (inl EFI_NOT_FOUND) EFI_SUCCESS EFI_SUCCESS char scan.

Lemma demo_screen_ok : menu_screen demo_screen.
Proof. unfold menu_screen, screen_ok. cbn [HorizontalResolution VerticalResolution PixelsPerScanLine framebuffer demo_screen]. rewrite zlen_zeros by lia. lia. Qed.

Lemma boot_menu_ui_refines_witness : exists r inputs,
  ui_loop no_image id ascii_lower true demo_theme demo_locale (start_ui ascii_lower EFI_SUCCESS (Some demo_screen) two_entries)
    [key_frame 0 SCAN_DOWN; key_frame CHAR_CARRIAGE_RETURN 0] = Ret r /\
  Forall2 (fun inp f => exists ms, inp = to_input 64 ms f) inputs [key_frame 0 SCAN_DOWN; key_frame CHAR_CARRIAGE_RETURN 0] /\
  ShowBootMenu ascii_lower two_entries inputs = Ret (ui_menu (fst r), snd r) /\ menu_inv (ui_menu (fst r)).
Proof.
  apply (boot_menu_ui_refines no_image id ascii_lower true demo_theme demo_locale demo_screen two_entries
    [key_frame 0 SCAN_DOWN; key_frame CHAR_CARRIAGE_RETURN 0] 0).
  - apply built_add, built_add, built_init.
  - exact demo_screen_ok.
  - reflexivity.
  - lia.
  - repeat constructor.
  - reflexivity.
Defined.

(** The pixels of the [k]-th line of the panel. *)
Definition on_line (W k px py : Z) : bool := on (W / 4 + 10) (115 + 50 * k) (W / 2 - 20) 40 px py.

Lemma on_line_inj W j k px py : on_line W j px py = true -> on_line W k px py = true -> j = k.
Proof. unfold on_line, on. intros H1 H2. bool_hyps. lia. Qed.

Lemma on_line_panel W k px py : 40 <= W -> 0 <= k < 10 -> on_line W k px py = true ->
  on (W / 4) 100 (W / 2) 540 px py = true /\ px < W.
Proof.
  intros HW Hk H. unfold on_line, on in *. bool_hyps.
  pose proof (Z.div_mod W 4); pose proof (Z.mod_pos_bound W 4); pose proof (Z.div_mod W 2); pose proof (Z.mod_pos_bound W 2).
  rewrite !(proj2 (Z.leb_le _ _)), !(proj2 (Z.ltb_lt _ _)) by lia. split; [done|lia].
Qed.

(** The line of the selected entry, and only it, is highlighted. *)
Lemma menu_pixel_line theme m W j px py old : menu_inv m -> selected_visible m -> 40 <= W -> 0 <= j < 10 -> on_line W j px py = true ->
  menu_pixel theme m W px py old =
  if j =? SelectedEntry m - MenuScrollOffset m then highlight_color theme else header_color theme.
Proof.
  intros Hm Hv HW Hj Hl. destruct (on_line_panel W j px py HW Hj Hl) as (Hp & Hx). unfold menu_pixel.
  rewrite (proj2 (Z.leb_gt _ _)), Hp, orb_true_r by lia. unfold on_selected. rewrite bool_decide_eq_true_2.
  2: { unfold page. menu_arith. apply elem_of_seqZ. lia. }
  fold (on_line W (SelectedEntry m - MenuScrollOffset m) px py). cbn [andb].
  destruct (Z.eqb_spec j (SelectedEntry m - MenuScrollOffset m)) as [->|Ne]; [by rewrite Hl|].
  destruct (on_line W (SelectedEntry m - MenuScrollOffset m) px py) eqn:E; [|done]. by destruct Ne; apply (on_line_inj W _ _ px py).
Qed.

(** The calls that print the selected entry are among those of the page. *)
Lemma menu_texts_selected wide_s theme loc m W : menu_inv m -> selected_visible m ->
  exists pre post, menu_texts wide_s theme loc m W = pre ++ entry_texts wide_s theme m (W / 4 + 20) (SelectedEntry m) ++ post.
Proof.
  intros Hm Hv. assert (Hin : In (SelectedEntry m) (page m)).
  { apply list_elem_of_In. unfold page. menu_arith. apply elem_of_seqZ. lia. }
  apply in_split in Hin as (l1 & l2 & E). unfold menu_texts. rewrite E, flat_map_app. cbn [flat_map].
  match goal with |- context [?a ++ (?x ++ ?y ++ ?z) ++ ?c] => exists (a ++ x), (z ++ c) end. by rewrite <- !app_assoc.
Qed.

(** The drawing calls of the frame in which Enter is read: on a menu the program
    set up, in graphics mode and without a pointer device, after any arrow keys,
    pressing Enter starts the boot function of the entry that is the [k]-th of the
    page; the frame's calls include the one that prints this entry's label with the
    vertical coordinate 120 + 50 [k], and the pixel rectangles filled are the
    highlighted one for line [k] and the plain one for every other line.  (The
    print coordinates are pixels although the console takes rows and columns, so
    this says which calls are made and not where a console shows the text.)
    ([towlower] keeps the carriage return.) *)
Theorem boot_menu_boots_shown DrawImage wide_s towlower theme loc s m fs u f :
  built m -> menu_screen s -> background_image theme = None ->
  towlower CHAR_CARRIAGE_RETURN = CHAR_CARRIAGE_RETURN ->
  Forall (fun f => f_char f = 0) fs ->
  ui_loop DrawImage wide_s towlower false theme loc (start_ui towlower EFI_SUCCESS (Some s) m) fs = Ret (u, None) ->
  EFI_ERROR (ui_status u) = false ->
  f_wait f = EFI_SUCCESS -> f_read f = EFI_SUCCESS -> f_char f = CHAR_CARRIAGE_RETURN ->
  exists u' o ops k e old s' pre post,
    ui_iter DrawImage wide_s towlower false theme loc u f = Ret (u', Some o, ops) /\
    0 <= k < VISIBLE_MENU_ENTRIES /\
    BootEntries (start_menu towlower m) !! Z.to_nat (MenuScrollOffset (ui_menu u) + k) = Some e /\
    o = match BootFunction e with Some f => Boot f | None => Return EFI_SUCCESS end /\
    ops = pre ++ PrintXY (HorizontalResolution s / 4 + 20) (120 + 50 * k) (selected_text_color theme) 0
                   (entry_label wide_s (zget (BootEntryHotkeys (ui_menu u)) (MenuScrollOffset (ui_menu u) + k)) (entry_name e)) ++ post /\
    ui_gfx u = Some old /\ ui_gfx u' = Some s' /\
    painted old s' (menu_pixel theme (ui_menu u) (HorizontalResolution s)) /\
    (forall j px py c, 0 <= j < VISIBLE_MENU_ENTRIES -> on_line (HorizontalResolution s) j px py = true ->
       menu_pixel theme (ui_menu u) (HorizontalResolution s) px py c =
       if j =? k then highlight_color theme else header_color theme).
Proof.
  intros Hb Hs Hi Ht Hf El He Hw Hr Hc. set (W := HorizontalResolution s).
  destruct (start_menu_ok towlower m Hb) as (Hm & Hv).
  destruct (ui_loop_ok DrawImage wide_s towlower false theme loc Hi W 0 ltac:(lia) fs (start_ui towlower EFI_SUCCESS (Some s) m) 0)
    as (r & inputs & E & Hu & Hms & Hin & Em); [by split; [|exists s]|done|done|lia|].
  change (ui_menu (start_ui _ _ _ _)) with (start_menu towlower m) in Em.
  rewrite El in E. injection E as <-. cbn [fst snd] in *. specialize (Hms eq_refl).
  destruct (menu_loop_ok towlower inputs _ (proj1 Hm)) as (r & Er & _ & Eb & Ek & _). rewrite Em in Er. injection Er as <-. cbn [fst] in *.
  assert (Hv' : selected_visible (ui_menu u)).
  { apply (menu_loop_visible towlower inputs (start_menu towlower m) (ui_menu u, None) (proj1 Hm) Hv); [|done].
    clear -Hf Hin. induction Hin as [|inp g inputs fs (ms & ->) _ IH]; [done|]. apply Forall_cons in Hf as (? & ?). constructor; [done|by apply IH]. }
  destruct (ui_iter_ok DrawImage wide_s towlower false theme loc Hi W u f 0 0 Hu) as (u' & o & ops & Ei & _ & _ & Hm' & Eo & Hd & _);
    [rewrite Hms; done|done|lia|lia|]. specialize (Hm' eq_refl). destruct (Hd He) as (-> & old & s' & Eg & Eg' & P).
  pose proof Hu as (Hmu & _).
  destruct (menu_iter_enter towlower (ui_menu u) (to_input W (ui_mouse u') f) Hmu) as (o' & Eo' & e & Ee & ->); try done.
  { intros j. unfold BootEntryCount. rewrite Eb, Ek. apply (start_menu_keys towlower m Hb). }
  { rewrite Hm', Hms. cbn. pose proof (Z.quot_pos W 4). destruct Hs as (_ & Hs). fold W in Hs. lia. }
  rewrite Eo in Eo'. injection Eo' as _ ->.
  destruct (menu_texts_selected wide_s theme loc (ui_menu u) W (proj1 Hmu) Hv') as (pre & post & Et).
  assert (Hk : MenuScrollOffset (ui_menu u) + (SelectedEntry (ui_menu u) - MenuScrollOffset (ui_menu u)) = SelectedEntry (ui_menu u)) by lia.
  eexists u', _, _, (SelectedEntry (ui_menu u) - MenuScrollOffset (ui_menu u)), e, old, s', pre, post.
  split; [exact Ei|]. rewrite Hk, <- Eb. split; [unfold selected_visible in Hv'; lia|]. split_and!; try done.
  - rewrite Et. unfold entry_texts. by rewrite Z.eqb_refl, Ee.
  - intros j px py c Hj Hl. apply menu_pixel_line; [apply Hmu|done|apply Hs|done|done].
Qed.

(** Down, then Enter, on a two-entry menu: the second entry, on line 1. *)
Lemma boot_menu_boots_shown_witness :
  exists u, ui_loop no_image id ascii_lower false demo_theme demo_locale
      (start_ui ascii_lower EFI_SUCCESS (Some demo_screen) two_entries) [key_frame 0 SCAN_DOWN] = Ret (u, None) /\
  exists u' o ops k e old s' pre post,
    ui_iter no_image id ascii_lower false demo_theme demo_locale u (key_frame CHAR_CARRIAGE_RETURN 0) = Ret (u', Some o, ops) /\
    0 <= k < VISIBLE_MENU_ENTRIES /\
    BootEntries (start_menu ascii_lower two_entries) !! Z.to_nat (MenuScrollOffset (ui_menu u) + k) = Some e /\
    o = match BootFunction e with Some f => Boot f | None => Return EFI_SUCCESS end /\
    ops = pre ++ PrintXY (HorizontalResolution demo_screen / 4 + 20) (120 + 50 * k) (selected_text_color demo_theme) 0
                   (entry_label id (zget (BootEntryHotkeys (ui_menu u)) (MenuScrollOffset (ui_menu u) + k)) (entry_name e)) ++ post /\
    ui_gfx u = Some old /\ ui_gfx u' = Some s' /\
    painted old s' (menu_pixel demo_theme (ui_menu u) (HorizontalResolution demo_screen)) /\
    (forall j px py c, 0 <= j < VISIBLE_MENU_ENTRIES -> on_line (HorizontalResolution demo_screen) j px py = true ->
       menu_pixel demo_theme (ui_menu u) (HorizontalResolution demo_screen) px py c =
       if j =? k then highlight_color demo_theme else header_color demo_theme).
Proof.
  eexists. split; [vm_compute; reflexivity|].
  apply (boot_menu_boots_shown no_image id ascii_lower demo_theme demo_locale demo_screen two_entries [key_frame 0 SCAN_DOWN]).
  - apply built_add, built_add, built_init.
  - exact demo_screen_ok.
  - reflexivity.
  - reflexivity.
  - repeat constructor.
  - vm_compute. reflexivity.
  - reflexivity.
  - reflexivity.
  - reflexivity.
  - reflexivity.
Defined.

(** Without a graphics protocol the text menu is printed once, and the mouse code
    then reads through the NULL [GraphicsOutput]: no input is ever handled. *)
Theorem text_menu_null DrawImage wide_s towlower sp theme loc status m f fs ms :
  EFI_ERROR status = true -> GetMouseState sp (f_pointer f) (mk_mouse 0 0 false false) = Ret ms ->
  ui_loop DrawImage wide_s towlower sp theme loc (start_ui towlower status None m) (f :: fs) = UB.
Proof.
  intros Hs Hm. cbn [ui_loop]. unfold ui_iter. cbn [start_ui ui_status ui_gfx ui_menu ui_mouse]. rewrite Hs. cbn [negb]. bind_step.
  rewrite Hm. bind_step. reflexivity.
Qed.

(** The place a click selects an entry and the place drawn for it differ: the
    pointer area of line [k] starts 5 pixels below the highlighted line, and a
    pointer on the last 5 pixels of that area is below the line. *)
Theorem click_area_below_line inp k : 40 <= in_hres inp -> mouse_over inp k = true ->
  on_line (in_hres inp) k (in_mouse_x inp) (in_mouse_y inp) = true <-> in_mouse_y inp < 50 * k + 155.
Proof.
  intros HW Ho. unfold mouse_over in Ho. rewrite !Z.quot_div_nonneg in Ho by lia. unfold on_line, on. bool_hyps.
  split.
  - intros Hl. bool_hyps. lia.
  - intros Hy. by rewrite !(proj2 (Z.leb_le _ _)), !(proj2 (Z.ltb_lt _ _)) by lia.
Qed.

(** Reading the language file ends, on any file. *)
Lemma fgets_shorter room f : (0 < room)%nat -> f <> [] -> (length (snd (fgets room f)) < length f)%nat.
Proof.
  assert (Hle : forall room f, (length (snd (fgets room f)) <= length f)%nat).
  { clear. induction room as [|room IH]; intros [|c f]; cbn [fgets]; try done. case_match; [cbn; lia|].
    specialize (IH f). destruct (fgets room f). cbn in *. lia. }
  destruct room as [|room], f as [|c f]; intros Hr Hf; try done; [lia|]. cbn [fgets]. case_match; [cbn; lia|].
  specialize (Hle room f). destruct (fgets room f). cbn in *. lia.
Qed.

Theorem load_localization_total {St} (add : bytes -> bytes -> St -> St) fopen lang st : exists st', LoadLocalizationFile add fopen lang st = Ret st'.
Proof.
  unfold LoadLocalizationFile. destruct (fopen _) as [f|]; [|by eexists].
  assert (H : forall fuel f st, (length f <= fuel)%nat -> exists st', language_loop add fuel f st = Ret st'); [|by apply H].
  clear. induction fuel as [|fuel IH]; intros f st Hf; (destruct f as [|c f]; [by eexists|]); [cbn in Hf; lia|]. cbn [language_loop].
  pose proof (fgets_shorter 255 (c :: f) ltac:(lia) ltac:(done)) as Hs. destruct (fgets 255 (c :: f)) as (line & rest). apply IH. cbn [snd] in Hs. cbn in *. lia.
Qed.
