(* ===== verification/Printing.v ===== *)
(** * The formatted strings of the boot loader

    The file names of languages and fonts, the text of the menu and the messages
    are made by EDK2's print library ([EdkPrint.v]).  This file shows that what
    [Localization.v], [Font.v] and [MenuUi.v] take for the result is what the
    library computes for the format strings in the source. *)

From Stdlib Require Import String.
From S2P Require Import Prelude.
From S2P Require Import BootConfig.
From S2P Require Import CString.
From S2P Require Import Localization.
From S2P Require Import Font.
From S2P Require Import MenuUi.
From S2P Require Import EdkString.
From S2P Require Import EdkPrint.
Import ListNotations.
#[local] Open Scope list_scope.

(** A format string without directives, as pieces. *)
Lemma chars_format s : concat (piece_format <$> (PChar <$> s)) = s.
Proof. induction s as [|c s IH]; [done|]. cbn. by rewrite IH. Qed.
Lemma chars_args s : concat (piece_args <$> (PChar <$> s)) = [].
Proof. induction s as [|c s IH]; [done|]. cbn. by rewrite IH. Qed.
Lemma chars_text s : concat (piece_text <$> (PChar <$> s)) = s.
Proof. induction s as [|c s IH]; [done|]. cbn. by rewrite IH. Qed.

Definition plain_char (c : Z) : Prop := char16 c /\ c <> 37 /\ c <> 13 /\ c <> 10.

Lemma chars_ok s : Forall plain_char s -> Forall piece_ok (PChar <$> s).
Proof. intros H. by apply Forall_fmap. Qed.

(** A text around one argument. *)
Lemma sprint_around size pre p post :
  Forall plain_char pre -> Forall plain_char post -> piece_ok p -> 2 <= size <= 2 * RSIZE_MAX ->
  zlen (pre ++ piece_format p ++ post) <= RSIZE_MAX ->
  UnicodeSPrint size (pre ++ piece_format p ++ post) (piece_args p) =
  Ret (Some (take (Z.to_nat (size / 2 - 1)) (pre ++ piece_text p ++ post))).
Proof.
  intros Hpre Hpost Hp Hs Hl.
  assert (Hf : concat (piece_format <$> ((PChar <$> pre) ++ p :: (PChar <$> post))) = pre ++ piece_format p ++ post).
  { rewrite fmap_app, concat_app, fmap_cons. cbn [concat]. by rewrite !chars_format. }
  assert (Ha : concat (piece_args <$> ((PChar <$> pre) ++ p :: (PChar <$> post))) = piece_args p).
  { rewrite fmap_app, concat_app, fmap_cons. cbn [concat]. by rewrite !chars_args, app_nil_r. }
  assert (Ht : concat (piece_text <$> ((PChar <$> pre) ++ p :: (PChar <$> post))) = pre ++ piece_text p ++ post).
  { rewrite fmap_app, concat_app, fmap_cons. cbn [concat]. by rewrite !chars_text. }
  rewrite <- Hf, <- Ha, <- Ht. apply unicode_vsprint_pieces; [|done|by rewrite Hf].
  apply Forall_app. split; [by apply chars_ok|]. constructor; [done|by apply chars_ok].
Qed.

(** The name of a font counts only as far as it fits its buffer. *)
Lemma font_path_cut root ok1 ok2 name st : LoadFontFile root ok1 ok2 (Some name) st = LoadFontFile root ok1 ok2 (Some (take 255 name)) st.
Proof.
  destruct name as [|c name]; [done|]. replace (take 255 (c :: name)) with (c :: take 254 name) by done. cbn [LoadFontFile].
  replace (take 255 (c :: take 254 name)) with (take 255 (c :: name)); [done|].
  change (c :: take 254 name) with (take 255 (c :: name)). by rewrite take_take.
Qed.

(** The strings the boot loader has EDK2 format are those its model uses: the
    path of a language file (64 characters with the NUL), the path of the font file
    that is loaded (256), and the text [PrintXY] puts on the screen (256), each cut where its buffer
    ends. *)
Theorem formatted_strings lang name text :
  Forall (fun c => 0 < c < 256) lang -> zlen lang < 2 ^ 62 -> Forall (fun c => 0 < c < 256) name -> zlen name < 2 ^ 62 ->
  Forall char16 text -> zlen text < 2 ^ 62 ->
  (exists path, UnicodeSPrint 128 (lit "\locales\%a.ini") [VaStr8 (Some lang)] = Ret (Some path) /\
     locale_path lang = name_string path) /\
  (forall root ok1 ok2 st, exists path, UnicodeSPrint 512 (lit "%a") [VaStr8 (Some name)] = Ret (Some path) /\
     LoadFontFile root ok1 ok2 (Some name) st = LoadFontFile root ok1 ok2 (Some path) st) /\
  (forall X Y fg bg, exists out, UnicodeVSPrint 512 (lit "%s") [VaStr16 (Some text)] = Ret (Some out) /\
     PrintXY X Y fg bg text =
     [SetCursorPosition X Y; SetAttribute (EFI_TEXT_ATTR EFI_LIGHTGRAY EFI_BLACK); OutputString out;
      SetAttribute (EFI_TEXT_ATTR EFI_WHITE EFI_BLACK)]).
Proof.
  intros Hlang Hll Hname Hnl Htext Htl.
  assert (Hplain : Forall plain_char (lit "\locales\") /\ Forall plain_char (lit ".ini")).
  { unfold plain_char, char16. split; apply (bool_decide_eq_true_1 _); vm_compute; reflexivity. }
  split.
  - exists (take 63 (lit "\locales\" ++ lang ++ lit ".ini")). split; [|done].
    apply (sprint_around 128 (lit "\locales\") (PAscii lang) (lit ".ini")); [apply Hplain|apply Hplain|done|unfold RSIZE_MAX; lia|by vm_compute].
  - split.
    + intros root ok1 ok2 st. exists (take 255 name). split; [|by apply font_path_cut].
      pose proof (sprint_around 512 [] (PAscii name) [] ltac:(constructor) ltac:(constructor) ltac:(done) ltac:(unfold RSIZE_MAX; lia) ltac:(by vm_compute)) as E.
      cbn [piece_text app] in E. rewrite !app_nil_r in E. exact E.
    + intros X Y fg bg. exists (take 255 text). split; [|done].
      pose proof (sprint_around 512 [] (PWide text) [] ltac:(constructor) ltac:(constructor) ltac:(done) ltac:(unfold RSIZE_MAX; lia) ltac:(by vm_compute)) as E.
      cbn [piece_text app] in E. rewrite !app_nil_r in E. exact E.
Qed.

Lemma formatted_strings_witness :
  (exists path, UnicodeSPrint 128 (lit "\locales\%a.ini") [VaStr8 (Some (lit "es"))] = Ret (Some path) /\
     locale_path (lit "es") = name_string path) /\
  (forall root ok1 ok2 st, exists path, UnicodeSPrint 512 (lit "%a") [VaStr8 (Some (lit "f.psf"))] = Ret (Some path) /\
     LoadFontFile root ok1 ok2 (Some (lit "f.psf")) st = LoadFontFile root ok1 ok2 (Some path) st) /\
  (forall X Y fg bg, exists out, UnicodeVSPrint 512 (lit "%s") [VaStr16 (Some [8593])] = Ret (Some out) /\
     PrintXY X Y fg bg [8593] =
     [SetCursorPosition X Y; SetAttribute (EFI_TEXT_ATTR EFI_LIGHTGRAY EFI_BLACK); OutputString out;
      SetAttribute (EFI_TEXT_ATTR EFI_WHITE EFI_BLACK)]).
Proof.
  apply (formatted_strings (lit "es") (lit "f.psf") [8593]).
  - repeat constructor; lia.
  - by vm_compute.
  - repeat constructor; lia.
  - by vm_compute.
  - repeat constructor; lia.
  - by vm_compute.
Defined.
