(* ===== verification/MainProgram.v ===== *)
(** * The program (src/main.c)

    [UefiMain] as a program on a state: memory, the console, the static variables
    of main.c and of the modules it initialises (the development library, the
    coreboot platform, localisation, fonts, mouse), the actions that were taken and
    the kernels that were entered.  It calls the models of the other components:
    coreboot's table ([Coreboot.v]) at the memory of that moment, the configuration
    ([BootConfig.v]), the menu ([Menu.v]), the Linux loader ([LinuxBoot.v]), EDK2's
    [Print] ([EdkPrint.v]) and the boot parameters ([BootParams.v]).

    [BootFlow.v] is the specification of this program: [firmware_of] gives the
    answers its flow is a function of, and the program refines it.  Boot services
    that are called after they were left are recorded; whether they still answer is
    a field of the machine, and when they do not the run is undefined from there on. *)

From Stdlib Require Import String.
From S2P Require Import Prelude.
From S2P Require Import PhysMem.
From S2P Require Import EdkMem.
From S2P Require Import Libb.
From S2P Require Import BootConfig.
From S2P Require Import Menu.
From S2P Require Import EdkString.
From S2P Require Import EdkPrint.
From S2P Require Import BootFlow.
From S2P Require Import BootParams.
From S2P Require Import Coreboot.
From S2P Require Import CorebootPayload.
From S2P Require Import UefiHelpers.
From S2P Require Import LinuxBoot.
From S2P Require Import Localization.
From S2P Require Import Font.
From S2P Require Import MenuUi.
Import ListNotations.
#[local] Open Scope list_scope.

(** A C string literal: the escapes [\n] and [\r]. *)
Fixpoint c_text_of (s : bytes) : bytes :=
  match s with
  | 92 :: 110 :: s => 10 :: c_text_of s
  | 92 :: 114 :: s => 13 :: c_text_of s
  | c :: s => c :: c_text_of s
  | [] => []
  end.
Definition c_text (s : string) : bytes := c_text_of (lit s).

Module Main.

(** ** State *)

(** What the console is told. *)
Inductive con_event := ConReset | ConSetMode (mode : Z) | ConClearScreen | ConText (t : bytes).

(** The boot services the program calls. *)
Inductive boot_service := BsProtocol | BsFile | BsMemoryMap | BsPool | BsPrint | BsWait.

(** The console, the number of calls of [Print], whether boot services were left,
    and the ones called since. *)
Record console := mk_console {
  con_log : list con_event; con_prints : nat; bs_exited : bool; bs_late : list boot_service }.

Record world := mk_world {
  w_con : console; w_mem : phys; w_events : list event;
  w_entries : list jump;                      (* kernel.efi, as [EntryPoint(boot_params)] enters it *)
  w_loaded : list jump;                       (* what the loaders and the boot functions enter *)
  gCorebootAvailable : bool; w_platform : platform;
  w_lib : lib; w_locale : locale; w_fonts : fonts; SimplePointer : bool }.

Definition set_con (w : world) (c : console) : world :=
  mk_world c (w_mem w) (w_events w) (w_entries w) (w_loaded w) (gCorebootAvailable w) (w_platform w)
    (w_lib w) (w_locale w) (w_fonts w) (SimplePointer w).
Definition set_mem (w : world) (m : phys) : world :=
  mk_world (w_con w) m (w_events w) (w_entries w) (w_loaded w) (gCorebootAvailable w) (w_platform w)
    (w_lib w) (w_locale w) (w_fonts w) (SimplePointer w).
Definition add_event (w : world) (e : event) : world :=
  mk_world (w_con w) (w_mem w) (w_events w ++ [e]) (w_entries w) (w_loaded w) (gCorebootAvailable w) (w_platform w)
    (w_lib w) (w_locale w) (w_fonts w) (SimplePointer w).
Definition add_entry (w : world) (j : jump) : world :=
  mk_world (w_con w) (w_mem w) (w_events w) (w_entries w ++ [j]) (w_loaded w) (gCorebootAvailable w) (w_platform w)
    (w_lib w) (w_locale w) (w_fonts w) (SimplePointer w).
Definition add_loaded (w : world) (js : list jump) : world :=
  mk_world (w_con w) (w_mem w) (w_events w) (w_entries w) (w_loaded w ++ js) (gCorebootAvailable w) (w_platform w)
    (w_lib w) (w_locale w) (w_fonts w) (SimplePointer w).
Definition set_platform (w : world) (b : bool) (p : platform) : world :=
  mk_world (w_con w) (w_mem w) (w_events w) (w_entries w) (w_loaded w) b p
    (w_lib w) (w_locale w) (w_fonts w) (SimplePointer w).
Definition set_ui (w : world) (l : lib) (loc : locale) (fs : fonts) (p : bool) : world :=
  mk_world (w_con w) (w_mem w) (w_events w) (w_entries w) (w_loaded w) (gCorebootAvailable w) (w_platform w) l loc fs p.

Definition log (c : console) (es : list con_event) : console :=
  mk_console (con_log c ++ es) (con_prints c) (bs_exited c) (bs_late c).
Definition called (c : console) (s : boot_service) : console :=
  mk_console (con_log c) (con_prints c) (bs_exited c) (if bs_exited c then bs_late c ++ [s] else bs_late c).
Definition exited (c : console) (b : bool) : console :=
  mk_console (con_log c) (con_prints c) (bs_exited c || b) (bs_late c).
(** One call of [Print], and the text that [OutputString] was given, if any. *)
Definition printed (c : console) (t : option bytes) : console :=
  mk_console (con_log c ++ match t with Some t => [ConText t] | None => [] end) (S (con_prints c)) (bs_exited c)
    (if bs_exited c then bs_late c ++ [BsPrint] else bs_late c).

(** ** The machine *)

(** What a boot function of the menu did: its status, the code it entered, memory
    when it came back, and whether it left boot services. *)
Record boot_result := mk_boot { br_status : Z; br_jumps : list jump; br_memory : phys; br_exited : bool }.

Record machine := mk_machine {
  mc_services : services; mc_image : Z;       (* HandleProtocol, OpenVolume; the image handle *)
  mc_pool : nat -> bool;                      (* whether the n-th Print gets its buffer *)
  mc_alloc : Z -> option Z; mc_memory_map : bh_status_t * bytes; mc_rsdp : option Z;
  mc_line_alloc : nat -> bool; mc_vars : string -> efi_var;
  mc_locale_alloc : nat -> bool; mc_font_alloc : bool * bool; mc_pointer : Z;
  mc_key : nat -> bool;                       (* the n-th ReadKeyStroke of the countdown has a key *)
  mc_files : bytes -> option bytes;           (* the loaders' read_file *)
  mc_towlower : Z -> Z; mc_inputs : list input;
  mc_boot : Z -> phys -> run boot_result;     (* the boot functions *)
  mc_sha512 : bytes -> bytes;
  mc_buffer : Z;                              (* the pool buffer of kernel.efi *)
  mc_map_execute : memory_map; mc_map_exit : memory_map; mc_exit : Z -> Z; mc_gop : option gop_mode;
  mc_return : jump -> phys;                   (* memory when entered code comes back *)
  mc_lingers : bool }.                        (* boot services still answer once they were left *)

(** ** Programs *)

Definition prog (A : Type) : Type := world -> run (A * world).

#[global] Instance prog_ret : MRet prog := fun A a w => Ret (a, w).
#[global] Instance prog_bind : MBind prog := fun A B f p w =>
  match p w with Ret (a, w) => f a w | UB => UB | OutOfFuel => OutOfFuel end.

Definition lift {A} (r : run A) : prog A := fun w =>
  match r with Ret a => Ret (a, w) | UB => UB | OutOfFuel => OutOfFuel end.
Definition get {A} (f : world -> A) : prog A := fun w => Ret (f w, w).
Definition modify (f : world -> world) : prog () := fun w => Ret ((), f w).
Definition act (e : event) : prog () := modify (fun w => add_event w e).
Definition service (s : boot_service) : prog () := modify (fun w => set_con w (called (w_con w) s)).
Definition console_do (es : list con_event) : prog () := modify (fun w => set_con w (log (w_con w) es)).

Section Program.
Context (mc : machine).

Definition Print (Format : string) (args : list va_arg) : prog () := fun w =>
  match InternalPrint (mc_pool mc (con_prints (w_con w))) (c_text Format) args with
  | Ret t => Ret ((), set_con w (printed (w_con w) t))
  | UB => UB
  | OutOfFuel => OutOfFuel
  end.

Fixpoint print_all (ms : list string) (args : list va_arg) : prog () :=
  match ms with [] => mret () | m :: ms => _ ← Print m args; print_all ms args end.

(** ** Start *)

Definition InitializeBloodHorn : prog Z :=
  m ← get w_mem;
  p ← get w_platform;
  let '(status, available, p, messages) := UefiHelpers.InitializeBloodHorn m p in
  _ ← modify (fun w => set_platform w available p);
  _ ← print_all messages [];
  mret status.

(** [bloodhorn_system_table] *)
Definition bloodhorn_system_table : Libb.table :=
  mk_table 1 (Some (mc_alloc mc)) true true true true (Some (mc_memory_map mc)) None (Some (mc_rsdp mc)) None true true true.

(** [bh_initialize]; what it hands to [puts] is printed character by character. *)
Definition initialize_library : prog () :=
  l ← get w_lib;
  let '(bh_status, l') := bh_initialize l (Some bloodhorn_system_table) in
  _ ← modify (fun w => set_ui w l' (w_locale w) (w_fonts w) (SimplePointer w));
  _ ← console_do (ConText <$> flat_map (fun s => bh_uefi_puts (lit s)) (drop (length (bh_output l)) (bh_output l')));
  if bool_decide (bh_status = BH_SUCCESS) then
    _ ← Print "BloodHorn library initialized successfully\n" [];
    let '(major, minor, patch) := bh_get_version in
    Print "BloodHorn Library v%d.%d.%d\n" [VaInt major; VaInt minor; VaInt patch]
  else
    Print "Warning: BloodHorn library initialization failed: %a\n" [VaStr8 (Some (lit (bh_status_to_string bh_status)))].

Definition get_root_dir : prog (Z + efi_dir) :=
  _ ← service BsProtocol;
  let '(r, messages) := UefiHelpers.get_root_dir (mc_services mc) (mc_image mc) in
  match r with
  | inl status => _ ← print_all messages [VaInt status]; mret (inl status)
  | inr root => mret (inr root)
  end.

Definition LoadBootConfig : prog BOOT_CONFIG :=
  r ← get_root_dir;
  _ ← match r with
      | inl status => Print "Failed to open filesystem for config: %r\n" [VaInt status]
      | inr _ => mret ()
      end;
  c ← lift (BootConfig.LoadBootConfig r (mc_line_alloc mc) (mc_vars mc));
  mret (snd c).

(** [LoadFileRaw], which no code calls: the whole file, without verification. *)
Definition LoadFileRaw (Path : string) : prog (Z * option bytes) :=
  r ← get_root_dir;
  match r with
  | inl status => mret (status, None)
  | inr root =>
      _ ← service BsFile;
      match root Path with
      | inl status => mret (status, None)
      | inr f =>
          if f_info_probe f =? EFI_BUFFER_TOO_SMALL then
            if negb (f_info_alloc f) then mret (EFI_OUT_OF_RESOURCES, None)
            else if EFI_ERROR (f_info_status f) then mret (f_info_status f, None)
            else if negb (f_buf_alloc f) then mret (EFI_OUT_OF_RESOURCES, None)
            else if EFI_ERROR (f_read_status f) then mret (f_read_status f, None)
            else if f_size f <? zlen (f_data f) then lift UB
            else mret (EFI_SUCCESS, Some (f_data f))
          else if EFI_ERROR (f_info_probe f) then mret (f_info_probe f, None)
          else lift UB
      end
  end.

(** Language, font, theme (nothing is loaded) and mouse. *)
Definition initialize_ui (config : BOOT_CONFIG) : prog () :=
  let root := UefiHelpers.get_root (mc_services mc) (mc_image mc) in
  loc ← get w_locale;
  loc ← lift (SetLanguage (mc_locale_alloc mc) root (Some (language config)) loc);
  fs ← get w_fonts;
  fs ← (if bool_decide (font_path config = []) then mret fs
        else r ← lift (LoadFontFile root (fst (mc_font_alloc mc)) (snd (mc_font_alloc mc)) (Some (font_path config)) fs);
             mret (SetDefaultFont (snd r) (fst r)));
  modify (fun w => set_ui w (w_lib w) loc fs (InitMouse (mc_pointer mc))).

(** ** Autoboot *)

(** Ten polls within a second, from the [n]-th on. *)
Definition poll_second (n : nat) : bool := existsb (fun i => mc_key mc (n + i)%nat) (List.seq 0 10).

Fixpoint countdown (config : BOOT_CONFIG) (secs n : nat) : prog bool :=
  match secs with
  | O => mret true
  | S secs' =>
      _ ← Print "Auto-boot '%a' in %d seconds... Press any key to open menu.\r\n"
            [VaStr8 (Some (default_entry config)); VaInt (Z.of_nat secs)];
      if poll_second n then mret true
      else match secs' with O => mret false | S _ => countdown config secs' (n + 10)%nat end
  end.

Definition showMenu (config : BOOT_CONFIG) : prog bool :=
  if 0 <? menu_timeout config then countdown config (Z.to_nat (menu_timeout config)) 0 else mret true.

(** Code is entered, and comes back. *)
Definition enter_loaded (j : option jump) : prog () :=
  match j with
  | Some j => modify (fun w => set_mem (add_loaded w [j]) (mc_return mc j))
  | None => mret ()
  end.

(** The status of [linux_load_kernel]: an [int] as an [EFI_STATUS]. *)
Definition autoboot_linux (config : BOOT_CONFIG) : prog Z :=
  let '(k, i, c) := autoboot_args config in
  _ ← act (EvLinux k i c);
  m ← get w_mem;
  r ← lift (linux_load_kernel (mc_files mc) m k i (Some c));
  _ ← enter_loaded (snd r);
  mret (u64 (fst r)).

(** ** The menu *)

Definition run_menu : prog Z :=
  _ ← act EvMenu;
  r ← lift (ShowBootMenu (mc_towlower mc) main_menu (mc_inputs mc));
  match snd r with
  | Some (Boot f) =>
      _ ← act (EvBoot f);
      m ← get w_mem;
      b ← lift (mc_boot mc f m);
      _ ← modify (fun w => set_con (set_mem (add_loaded w (br_jumps b)) (br_memory b)) (exited (w_con w) (br_exited b)));
      _ ← lift (if br_exited b && negb (mc_lingers mc) then UB else mret ());
      mret (br_status b)
  | Some (Return status) => mret status
  | None => lift OutOfFuel
  end.

(** ** kernel.efi *)

(** The pool buffer is zeroed and read into; the status and, on success, the
    size.  [expected] is the hash of [g_known_hashes[0]]. *)
Definition read_kernel (f : efi_file) : prog (Z * option Z) :=
  if negb (f_buf_alloc f) then mret (EFI_OUT_OF_RESOURCES, None)
  else
    _ ← modify (fun w => set_mem w (fill (w_mem w) (mc_buffer mc) 0 (f_size f)));
    if EFI_ERROR (f_read_status f) then mret (f_read_status f, None)
    else if f_size f <? zlen (f_data f) then lift UB
    else
      _ ← modify (fun w => set_mem w (poke (w_mem w) (mc_buffer mc) (f_data f)));
      mret (EFI_SUCCESS, Some (zlen (f_data f))).

Definition verify_kernel (expected : bytes) (size : Z) : prog (Z * option Z) :=
  if negb (zget expected 0 =? 0) then
    m ← get w_mem;
    if bool_decide (mc_sha512 mc (fetch m (mc_buffer mc) (u32 size)) = expected) then mret (EFI_SUCCESS, Some size)
    else _ ← Print "Kernel hash verification failed!\n" []; mret (EFI_SECURITY_VIOLATION, None)
  else mret (EFI_SUCCESS, Some size).

Definition load_kernel_file (expected : bytes) (f : efi_file) : prog (Z * option Z) :=
  if f_info_probe f =? EFI_BUFFER_TOO_SMALL then
    if negb (f_info_alloc f) then mret (EFI_OUT_OF_RESOURCES, None)
    else if EFI_ERROR (f_info_status f) then mret (f_info_status f, None)
    else
      k ← read_kernel f;
      match snd k with Some size => verify_kernel expected size | None => mret k end
  else if EFI_ERROR (f_info_probe f) then mret (f_info_probe f, None)
  else lift UB.

Definition LoadAndVerifyKernel (expected : bytes) (KernelPath : string) : prog (Z * option Z) :=
  r ← get_root_dir;
  match r with
  | inl status => _ ← Print "Failed to get root directory\n" []; mret (status, None)
  | inr root =>
      _ ← service BsFile;
      match root KernelPath with
      | inl status => _ ← Print "Failed to open kernel file: %s\n" [VaStr16 (Some (lit KernelPath))]; mret (status, None)
      | inr f => load_kernel_file expected f
      end
  end.

(** ** Entering the kernel *)

Definition ValidateBootParameters (boot_params : Z) : prog bool :=
  m ← get w_mem;
  let p := read_params m boot_params in
  if boot_params =? 0 then mret false
  else if negb (bp_signature p =? COREBOOT_BOOT_SIGNATURE) then
    _ ← Print "Invalid boot parameters signature: 0x%x\n" [VaInt (bp_signature p)]; mret false
  else if negb (bp_version p =? 1) then
    _ ← Print "Unsupported boot parameters version: %d\n" [VaInt (bp_version p)]; mret false
  else if (bp_kernel_base p =? 0) || (bp_kernel_size p =? 0) then
    _ ← Print "Invalid kernel base or size\n" []; mret false
  else if negb (has_flag (bp_boot_flags p) COREBOOT_BOOT_FLAG_KERNEL) then
    _ ← Print "Kernel flag not set in boot parameters\n" []; mret false
  else if has_flag (bp_boot_flags p) COREBOOT_BOOT_FLAG_FRAMEBUFFER &&
          ((bp_framebuffer_addr p =? 0) || (bp_framebuffer_width p =? 0) || (bp_framebuffer_height p =? 0)) then
    _ ← Print "Invalid framebuffer information\n" []; mret false
  else if has_flag (bp_boot_flags p) COREBOOT_BOOT_FLAG_INITRD && (bp_initrd_addr p =? 0) then
    _ ← Print "Invalid initrd address\n" []; mret false
  else mret true.

(** [if (MemMap) FreePool(MemMap)]: there is a buffer when one was allocated. *)
Definition free_map (m : memory_map) : prog () :=
  if (mm_probe m =? EFI_BUFFER_TOO_SMALL) && mm_alloc m then service BsPool else mret ().

(** The structure is written at [boot_params]. *)
Definition write_mem (f : phys -> run phys) : prog () :=
  m ← get w_mem; m ← lift (f m); modify (fun w => set_mem w m).

Definition print_framebuffer (boot_params : Z) : prog () :=
  m ← get w_mem;
  let p := read_params m boot_params in
  Print "Framebuffer: %ux%u @ 0x%llx\n"
    [VaInt (bp_framebuffer_width p); VaInt (bp_framebuffer_height p); VaInt (bp_framebuffer_addr p)].

(** The framebuffer fields: coreboot's, or the graphics protocol's. *)
Definition store_framebuffer (boot_params : Z) : prog () :=
  available ← get gCorebootAvailable;
  if (available : bool) then
    p ← get w_platform;
    write_mem (fun m => mret match CorebootGetFramebuffer m p with Some fb => put_framebuffer m boot_params fb | None => m end)
  else
    _ ← service BsProtocol;
    write_mem (fun m => mret match mc_gop mc with Some g => put_gop m boot_params g | None => m end).

Definition store_memory (boot_params : Z) : prog () :=
  available ← get gCorebootAvailable;
  if (available : bool) then
    p ← get w_platform;
    write_mem (fun m => mret (put_memory m boot_params (CorebootGetTotalMemory m p)))
  else
    ds ← lift (descriptors (mc_map_exit mc));
    write_mem (fun m => mret (put_memory m boot_params (total_memory ds))).

(** The whole structure. *)
Definition store_params (KernelBuffer KernelSize boot_params : Z) : prog () :=
  _ ← write_mem (fun m => put_basic m boot_params KernelBuffer KernelSize);
  _ ← store_framebuffer boot_params;
  store_memory boot_params.

(** [EntryPoint(boot_params)], which comes back with some memory. *)
Definition enter_kernel (KernelBuffer boot_params : Z) : prog () :=
  m ← get w_mem;
  let j := mk_jump KernelBuffer [boot_params] m in
  _ ← act (EvEnterKernel KernelBuffer boot_params (read_params m boot_params));
  modify (fun w => set_mem (add_entry w j) (mc_return mc j)).

(** [GetMemoryMap], the buffer, [GetMemoryMap] again: the status, [None] when there
    is no buffer. *)
Definition GetMemoryMap (m : memory_map) : prog (option Z) :=
  _ ← service BsMemoryMap;
  mret (if (mm_probe m =? EFI_BUFFER_TOO_SMALL) && negb (mm_alloc m) then None else Some (GetMemoryMap_status m)).

Definition ExitBootServicesAndExecuteKernel (KernelBuffer KernelSize BootParamsAddr : Z) : prog Z :=
  let MemMap := mc_map_exit mc in
  s ← GetMemoryMap MemMap;
  match s with
  | None => mret EFI_OUT_OF_RESOURCES
  | Some status =>
      if EFI_ERROR status then
        _ ← Print "Failed to get memory map for boot services exit\n" [];
        _ ← free_map MemMap;
        mret status
      else
        let status := mc_exit mc (mm_key MemMap) in
        if EFI_ERROR status then
          _ ← Print "Failed to exit boot services: %r\n" [VaInt status];
          _ ← free_map MemMap;
          mret status
        else
          _ ← modify (fun w => set_con w (exited (w_con w) true));
          _ ← act (EvExitBootServices (mm_key MemMap));
          _ ← lift (if mc_lingers mc then mret () else UB);
          _ ← store_params KernelBuffer KernelSize BootParamsAddr;
          valid ← ValidateBootParameters BootParamsAddr;
          if negb valid then
            _ ← Print "Boot parameters validation failed\n" [];
            _ ← free_map MemMap;
            mret EFI_INVALID_PARAMETER
          else
            _ ← Print "Boot parameters validated successfully\n" [];
            _ ← print_framebuffer BootParamsAddr;
            _ ← Print "Jumping to kernel entry point at 0x%llx\n" [VaInt KernelBuffer];
            _ ← enter_kernel KernelBuffer BootParamsAddr;
            _ ← free_map MemMap;
            mret EFI_LOAD_ERROR
  end.

(** The structure as [ExecuteKernelWithCoreboot] writes it. *)
Definition store_coreboot_params (kernel_base KernelSize : Z) (InitrdBuffer : option Z) (boot_params : Z) : prog () :=
  p ← get w_platform;
  _ ← write_mem (fun m => put_basic m boot_params kernel_base KernelSize);
  _ ← write_mem (fun m => mret match CorebootGetFramebuffer m p with Some fb => put_framebuffer m boot_params fb | None => m end);
  _ ← write_mem (fun m => mret (put_memory m boot_params (CorebootGetTotalMemory m p)));
  write_mem (fun m => mret match InitrdBuffer with Some a => put_initrd m boot_params a | None => m end).

(** [if (framebuffer)]: two messages. *)
Definition report_framebuffer (framebuffer : option COREBOOT_FB) : prog () :=
  match framebuffer with
  | Some fb =>
      _ ← Print "Configuring Coreboot framebuffer for kernel\n" [];
      Print "Framebuffer: 0x%llx, %ux%u, %u bpp\n"
        [VaInt (physical_address fb); VaInt (x_resolution fb); VaInt (y_resolution fb); VaInt (bits_per_pixel fb)]
  | None => mret ()
  end.

Definition report_gop : prog () :=
  match mc_gop mc with
  | Some g =>
      _ ← Print "Configuring UEFI GOP framebuffer for kernel\n" [];
      Print "GOP Framebuffer: 0x%llx, %ux%u, %u bpp\n"
        [VaInt (FrameBufferBase g); VaInt (HorizontalResolution g); VaInt (VerticalResolution g);
         VaInt (if PixelFormat g =? PixelBlueGreenRedReserved8BitPerColor then 32 else 24)]
  | None => mret ()
  end.

Definition ExecuteKernelWithCoreboot (KernelBuffer KernelSize : Z) (InitrdBuffer : option Z) : prog Z :=
  m ← get w_mem;
  p ← get w_platform;
  match CorebootGetMemoryMap m p with
  | None | Some [] =>
      _ ← Print "Failed to get Coreboot memory map for kernel execution\n" []; mret EFI_DEVICE_ERROR
  | Some map =>
      let kernel_base := fst (largest_ram map) in
      if kernel_base =? 0 then
        _ ← Print "No suitable RAM region found for kernel execution\n" []; mret EFI_DEVICE_ERROR
      else
        _ ← Print "Setting up kernel execution environment...\n" [];
        _ ← Print "Kernel base: 0x%llx, Size: %u bytes\n" [VaInt kernel_base; VaInt KernelSize];
        _ ← report_framebuffer (CorebootGetFramebuffer m p);
        let boot_params_addr := u64 (kernel_base + 0x1000) in
        _ ← store_coreboot_params kernel_base KernelSize InitrdBuffer boot_params_addr;
        valid ← ValidateBootParameters boot_params_addr;
        if negb valid then
          _ ← Print "Boot parameters validation failed\n" []; mret EFI_INVALID_PARAMETER
        else
          _ ← Print "Boot parameters set up at 0x%llx\n" [VaInt boot_params_addr];
          _ ← print_framebuffer boot_params_addr;
          ExitBootServicesAndExecuteKernel KernelBuffer KernelSize boot_params_addr
  end.

Definition ExecuteKernelWithUefi (KernelBuffer KernelSize : Z) : prog Z :=
  let MemMap := mc_map_execute mc in
  s ← GetMemoryMap MemMap;
  match s with
  | None => mret EFI_OUT_OF_RESOURCES
  | Some status =>
      if EFI_ERROR status then _ ← Print "Failed to get UEFI memory map\n" []; mret status
      else
        ds ← lift (descriptors MemMap);
        _ ← service BsProtocol;
        _ ← report_gop;
        status ← ExitBootServicesAndExecuteKernel KernelBuffer KernelSize (u64 (find_kernel_base ds KernelSize + 0x1000));
        _ ← free_map MemMap;
        mret status
  end.

Definition ExecuteKernel (KernelBuffer KernelSize : Z) (InitrdBuffer : option Z) : prog Z :=
  _ ← Print "Executing kernel at 0x%llx (%u bytes)\n" [VaInt KernelBuffer; VaInt KernelSize];
  available ← get gCorebootAvailable;
  if (available : bool) then ExecuteKernelWithCoreboot KernelBuffer KernelSize InitrdBuffer
  else ExecuteKernelWithUefi KernelBuffer KernelSize.

(** ** [UefiMain] *)

(** kernel.efi after a menu that ended with success; the status. *)
Definition boot_kernel_efi : prog Z :=
  k ← LoadAndVerifyKernel g_known_hash "kernel.efi";
  match k with
  | (status, Some size) => if EFI_ERROR status then mret status else ExecuteKernel (mc_buffer mc) size None
  | (status, None) => mret status
  end.

Definition no_kernel : prog Z :=
  _ ← Print "\r\n  No bootable device found or kernel failed.\r\n" [];
  _ ← Print "  Press any key to reboot..." [];
  _ ← service BsWait;
  available ← get gCorebootAvailable;
  _ ← act (EvReset available);
  mret EFI_DEVICE_ERROR.

(** From the menu on. *)
Definition after_autoboot : prog Z :=
  status ← run_menu;
  if status =? EFI_SUCCESS then
    status ← boot_kernel_efi;
    if negb (EFI_ERROR status) then mret EFI_SUCCESS else no_kernel
  else no_kernel.

Definition UefiMain : prog Z :=
  match HandleProtocol (mc_services mc) (mc_image mc) gEfiLoadedImageProtocolGuid with
  | inl status => mret status
  | inr _ =>
      _ ← console_do [ConReset; ConSetMode 0; ConClearScreen];
      status ← InitializeBloodHorn;
      if EFI_ERROR status then _ ← Print "Failed to initialize BloodHorn: %r\n" [VaInt status]; mret status
      else
        _ ← initialize_library;
        config ← LoadBootConfig;
        _ ← initialize_ui config;
        show ← showMenu config;
        if (show : bool) then after_autoboot
        else if bool_decide (default_entry config = lit "linux") && negb (bool_decide (kernel config = [])) then
          ls ← autoboot_linux config;
          if negb (EFI_ERROR ls) then mret EFI_SUCCESS
          else
            _ ← Print "Autoboot linux failed: %r\n" [VaInt ls];
            after_autoboot
        else after_autoboot
  end.

End Program.
End Main.
