(* ===== verification/MainRefine.v ===== *)
(** * The program refines the boot flow

    [UefiMain] of [MainProgram.v], which works on memory, the console and static
    variables, takes the actions of the flow of [BootFlow.v] and ends with its
    status; every kernel is entered with the flow's boot parameters in memory, byte
    by byte.  [does] is the total-correctness judgement the proofs use. *)

From Stdlib Require Import String.
From S2P Require Import Prelude.
From S2P Require Import PhysMem.
From S2P Require Import EdkMem.
From S2P Require Import Libb.
From S2P Require Import BootConfig.
From S2P Require Import Menu.
From S2P Require Import EdkString.
From S2P Require Import EdkPrint.
From S2P Require Import BootFlow.
From S2P Require Import BootParams.
From S2P Require Import Coreboot.
From S2P Require Import CorebootPayload.
From S2P Require Import UefiHelpers.
From S2P Require Import LinuxBoot.
From S2P Require Import Localization.
From S2P Require Import Font.
From S2P Require Import MenuUi.
From S2P Require Import MainProgram.
Import ListNotations.
Import Main.
#[local] Open Scope list_scope.

(** ** Total correctness *)

(** The state after some work: the console, memory, and what was appended to the
    actions, to the kernels entered and to the code the loaders entered. *)
Record effect := mk_effect {
  e_con : console; e_mem : phys; e_events : list event; e_entries : list jump; e_loaded : list jump }.

Definition after (w : world) (e : effect) : world :=
  mk_world (e_con e) (e_mem e) (w_events w ++ e_events e) (w_entries w ++ e_entries e) (w_loaded w ++ e_loaded e)
    (gCorebootAvailable w) (w_platform w) (w_lib w) (w_locale w) (w_fonts w) (SimplePointer w).

Definition nothing (w : world) : effect := mk_effect (w_con w) (w_mem w) [] [] [].
Definition then_effect (e e' : effect) : effect :=
  mk_effect (e_con e') (e_mem e') (e_events e ++ e_events e') (e_entries e ++ e_entries e') (e_loaded e ++ e_loaded e').

Lemma after_nothing w : after w (nothing w) = w.
Proof. destruct w. unfold after, nothing. cbn. by rewrite !app_nil_r. Qed.
Lemma after_then w e e' : after (after w e) e' = after w (then_effect e e').
Proof. unfold after, then_effect. cbn. by rewrite <- !app_assoc. Qed.

(** [p] ends, with an effect of which [P] holds. *)
Definition does {A} (p : prog A) (w : world) (P : A -> effect -> Prop) : Prop :=
  exists a e, p w = Ret (a, after w e) /\ P a e.

Section Rules.
Context {A B : Type}.
Implicit Types (w : world) (e : effect).

Lemma does_weaken (p : prog A) w (P Q : A -> effect -> Prop) : does p w P -> (forall a e, P a e -> Q a e) -> does p w Q.
Proof. intros (a & e & E & H) HQ. exists a, e. auto. Qed.

Lemma does_ret (a : A) w P : P a (nothing w) -> does (mret a) w P.
Proof. intros H. exists a, (nothing w). split; [|done]. by rewrite after_nothing. Qed.

Lemma does_bind (p : prog A) (k : A -> prog B) w P :
  does p w (fun a e => does (k a) (after w e) (fun b e' => P b (then_effect e e'))) -> does (p ≫= k) w P.
Proof.
  intros (a & e & E & b & e' & E' & H). exists b, (then_effect e e'). split; [|done].
  unfold mbind, prog_bind. by rewrite E, E', after_then.
Qed.

Lemma does_get (f : world -> A) w P : P (f w) (nothing w) -> does (get f) w P.
Proof. intros H. exists (f w), (nothing w). split; [|done]. by rewrite after_nothing. Qed.

Lemma does_lift (r : run A) a w P : r = Ret a -> P a (nothing w) -> does (lift r) w P.
Proof. intros -> H. exists a, (nothing w). split; [|done]. by rewrite after_nothing. Qed.
End Rules.

Lemma does_modify (f : world -> world) w e P : f w = after w e -> P () e -> does (modify f) w P.
Proof. intros H HP. exists (), e. split; [|done]. unfold modify. by rewrite H. Qed.

(** The effects of single steps. *)
Definition at_con (w : world) (c : console) : effect := mk_effect c (w_mem w) [] [] [].
Definition at_mem (w : world) (m : phys) : effect := mk_effect (w_con w) m [] [] [].

Lemma does_set_con (f : world -> console) w P : P () (at_con w (f w)) -> does (modify (fun w => set_con w (f w))) w P.
Proof. intros H. apply (does_modify _ _ (at_con w (f w))); [|done]. unfold set_con, after. cbn. by rewrite !app_nil_r. Qed.

Lemma does_set_mem (f : world -> phys) w P : P () (at_mem w (f w)) -> does (modify (fun w => set_mem w (f w))) w P.
Proof. intros H. apply (does_modify _ _ (at_mem w (f w))); [|done]. unfold set_mem, after. cbn. by rewrite !app_nil_r. Qed.

Lemma does_act ev w P : P () (mk_effect (w_con w) (w_mem w) [ev] [] []) -> does (act ev) w P.
Proof. intros H. apply (does_modify _ _ (mk_effect (w_con w) (w_mem w) [ev] [] [])); [|done]. unfold add_event, after. cbn. by rewrite !app_nil_r. Qed.

Lemma does_service s w P : P () (at_con w (called (w_con w) s)) -> does (service s) w P.
Proof. apply (does_set_con (fun w => called (w_con w) s)). Qed.

(** A message whose arguments match its format is printed, whatever its text. *)
Lemma does_print mc f args w (P : () -> effect -> Prop) : args_match false false (c_text f) args = true ->
  (forall t, P () (at_con w (printed (w_con w) t))) -> does (Print mc f args) w P.
Proof.
  intros Hm HP. destruct (internal_print_matches (mc_pool mc (con_prints (w_con w))) (c_text f) args Hm) as (t & E).
  exists (), (at_con w (printed (w_con w) t)). split; [|apply HP]. unfold Print. rewrite E.
  unfold set_con, after. cbn. by rewrite !app_nil_r.
Qed.

Lemma does_write_mem f m w P : f (w_mem w) = Ret m -> P () (at_mem w m) -> does (write_mem f) w P.
Proof.
  intros E H. exists (), (at_mem w m). split; [|done]. unfold write_mem, get, mbind, prog_bind, lift, modify. rewrite E.
  unfold set_mem, after. cbn. by rewrite !app_nil_r.
Qed.

(** A message in a program: the state after it differs in the console only. *)
Lemma does_print_then {A} mc f args (k : prog A) w P : args_match false false (c_text f) args = true ->
  (forall t, does k (after w (at_con w (printed (w_con w) t))) (fun a e => P a (then_effect (at_con w (printed (w_con w) t)) e))) ->
  does (_ ← Print mc f args; k) w P.
Proof. intros Hm H. apply does_bind, does_print; [done|]. exact H. Qed.

Ltac message := refine (does_print_then _ _ _ _ _ _ _ _); [reflexivity|intros ?].

(** ** Coreboot's answers *)

(** The addresses of the table entries that are read when a kernel is started. *)
Definition table_area (p : platform) (x : Z) : Prop :=
  (exists a, cb_framebuffer p = Some a /\ a <= x < a + 21) \/
  (exists a, cb_memory_map p = Some a /\ a <= x < a + sizeof_mem_entry * cb_memory_map_entries p).

Lemma fetch_le_ext m m' a n : (forall x, a <= x < a + n -> m' x = m x) -> fetch_le m' a n = fetch_le m a n.
Proof.
  intros H. unfold fetch_le, fetch. f_equal. apply list_fmap_ext. intros i x Hx. apply lookup_seqZ in Hx as (-> & Hi).
  apply H. lia.
Qed.

Lemma fb_entry_ext m m' a : (forall x, a <= x < a + 21 -> m' x = m x) -> fb_entry m' a = fb_entry m a.
Proof. intros H. unfold fb_entry. rewrite !(fetch_le_ext m m') by (intros x Hx; apply H; lia). done. Qed.

Lemma mem_entry_ext m m' a n i : (forall x, a <= x < a + sizeof_mem_entry * n -> m' x = m x) -> 0 <= i < n ->
  mem_entry m' a i = mem_entry m a i.
Proof.
  intros H Hi. unfold mem_entry. cbv zeta. rewrite !(fetch_le_ext m m') by (intros x Hx; apply H; unfold sizeof_mem_entry in *; lia). done.
Qed.

(** They decide all that is asked. *)
Lemma answers_ext m m' p : (forall x, table_area p x -> m' x = m x) ->
  CorebootGetMemoryMap m' p = CorebootGetMemoryMap m p /\ CorebootGetFramebuffer m' p = CorebootGetFramebuffer m p /\
  CorebootGetTotalMemory m' p = CorebootGetTotalMemory m p.
Proof.
  intros H. split_and!.
  - unfold CorebootGetMemoryMap. destruct (cb_memory_map p) as [a|] eqn:E; [|done]. f_equal. unfold mem_entries.
    apply list_fmap_ext. intros i x Hx. apply lookup_seqZ in Hx as (-> & Hi).
    apply (mem_entry_ext m m' a (cb_memory_map_entries p)); [|lia]. intros x Hx. apply H. right. by exists a.
  - unfold CorebootGetFramebuffer. destruct (cb_framebuffer p) as [a|] eqn:E; [|done]. cbn. f_equal.
    apply fb_entry_ext. intros x Hx. apply H. left. by exists a.
  - unfold CorebootGetTotalMemory. destruct (cb_memory_map p) as [a|] eqn:E; [|done]. unfold for_loop.
    apply fold_left_ext_in. intros total i Hi. apply elem_of_seqZ in Hi.
    rewrite (mem_entry_ext m m' a (cb_memory_map_entries p)); [done| |lia]. intros x Hx. apply H. right. by exists a.
Qed.

(** ** Types *)

Definition fb_typed (fb : COREBOOT_FB) : Prop :=
  in_u 64 (physical_address fb) /\ in_u 32 (x_resolution fb) /\ in_u 32 (y_resolution fb) /\
  in_u 32 (bits_per_pixel fb) /\ in_u 32 (bytes_per_line fb).

Definition gop_typed (g : gop_mode) : Prop :=
  in_u 64 (FrameBufferBase g) /\ in_u 32 (HorizontalResolution g) /\ in_u 32 (VerticalResolution g).

Lemma gop_framebuffer_typed g : gop_typed g -> fb_typed (gop_framebuffer g).
Proof.
  intros (H1 & H2 & H3). unfold fb_typed, gop_framebuffer. cbn [physical_address x_resolution y_resolution bits_per_pixel bytes_per_line].
  split_and!; try done. - case_match; unfold in_u; lia. - apply Z.mod_pos_bound. lia.
Qed.

Lemma cb_framebuffer_typed m p fb : byte_mem m -> CorebootGetFramebuffer m p = Some fb -> fb_typed fb.
Proof.
  intros Hm H. unfold CorebootGetFramebuffer in H. destruct (cb_framebuffer p) as [a|]; [|done]. injection H as <-.
  unfold fb_typed, fb_entry, in_u. cbn [physical_address x_resolution y_resolution bits_per_pixel bytes_per_line].
  pose proof (fetch_le_range m a 8 Hm ltac:(lia)). pose proof (fetch_le_range m (a + 8) 4 Hm ltac:(lia)).
  pose proof (fetch_le_range m (a + 12) 4 Hm ltac:(lia)). pose proof (fetch_le_range m (a + 20) 1 Hm ltac:(lia)).
  pose proof (fetch_le_range m (a + 16) 4 Hm ltac:(lia)). lia.
Qed.

Lemma cb_total_typed m p : in_u 64 (CorebootGetTotalMemory m p).
Proof.
  unfold CorebootGetTotalMemory. destruct (cb_memory_map p) as [a|]; [|by split]. unfold for_loop.
  apply (fold_left_inv (fun n => in_u 64 n)); [|by split]. intros n i Hn. cbv zeta.
  case_match; [|done]. apply Z.mod_pos_bound. lia.
Qed.

Lemma total_memory_typed ds : in_u 64 (total_memory ds).
Proof.
  unfold total_memory. apply (fold_left_inv (fun n => in_u 64 n)); [|by split]. intros n d Hn.
  case_match; [|done]. apply Z.mod_pos_bound. lia.
Qed.

Definition fbs_typed (fb : option COREBOOT_FB) : Prop := match fb with Some fb => fb_typed fb | None => True end.

(** The record that is written is typed, so that reading it gives it back. *)
Lemma flow_params_typed base size fb n initrd : in_u 64 base -> in_u 64 size -> fbs_typed fb -> in_u 64 n ->
  match initrd with Some a => in_u 64 a | None => True end ->
  let p := set_memory (add_framebuffer (basic_params base size) fb) n in
  params_typed (match initrd with Some a => set_params_initrd p a | None => p end).
Proof.
  intros Hb Hs Hf Hn Hi. unfold params_typed.
  destruct fb as [fb|], initrd as [a|]; cbn; [destruct Hf as (F1 & F2 & F3 & F4 & F5)..| |]; split_and!; (done || unfold in_u; lia).
Qed.

(** ** The flow's firmware *)

Definition available (w : world) : bool := fst (CorebootPlatformInit (w_mem w) (w_platform w)).
Definition platform_of (w : world) : platform := snd (CorebootPlatformInit (w_mem w) (w_platform w)).

(** What the machine answers from the state [w] on. *)
Definition firmware_of (mc : machine) (w : world) : firmware :=
  mk_fw (match HandleProtocol (mc_services mc) (mc_image mc) gEfiLoadedImageProtocolGuid with inl status => status | inr _ => EFI_SUCCESS end)
    (available w) (get_root (mc_services mc) (mc_image mc)) (mc_line_alloc mc) (mc_vars mc) (mc_key mc)
    (fun k i c => match linux_load_kernel (mc_files mc) (w_mem w) k i (Some c) with Ret r => u64 (fst r) | _ => EFI_LOAD_ERROR end)
    (mc_towlower mc) (mc_inputs mc)
    (fun f => match mc_boot mc f (w_mem w) with Ret b => br_status b | _ => EFI_LOAD_ERROR end)
    (mc_sha512 mc) (mc_buffer mc)
    (CorebootGetMemoryMap (w_mem w) (platform_of w)) (CorebootGetFramebuffer (w_mem w) (platform_of w))
    (CorebootGetTotalMemory (w_mem w) (platform_of w)) (mc_map_execute mc) (mc_map_exit mc) (mc_exit mc) (mc_gop mc) (mc_lingers mc).

(** The kernels an action list enters. *)
Definition enters (es : list event) : list (Z * Z * COREBOOT_BOOT_PARAMS) :=
  omap (fun e => match e with EvEnterKernel a pa p => Some (a, pa, p) | _ => None end) es.

(** A kernel as it is entered: at its address, with the address of the structure as
    its argument, the structure in memory, and outside it the memory [m]. *)
Definition entered (m : phys) (e : Z * Z * COREBOOT_BOOT_PARAMS) (j : jump) : Prop :=
  let '(a, pa, p) := e in
  j_entry j = a /\ j_args j = [pa] /\ params_at (j_memory j) pa p /\ only_params m (j_memory j) pa.

Section Refine.
Context (mc : machine) (w0 : world).
#[local] Abbreviation fw := (firmware_of mc w0).

(** Later states: coreboot's tables are as they were. *)
Definition tables_kept (m : phys) : Prop :=
  available w0 = true -> forall x, table_area (platform_of w0) x -> m x = w_mem w0 x.
Definition ready (w : world) : Prop :=
  gCorebootAvailable w = available w0 /\ w_platform w = platform_of w0 /\ tables_kept (w_mem w).

(** [n] bytes at [a] without a byte of them. *)
Definition off_tables (a n : Z) : Prop :=
  available w0 = true -> forall x, table_area (platform_of w0) x -> x < a \/ a + n <= x.

Lemma ready_answers w : ready w -> available w0 = true ->
  CorebootGetMemoryMap (w_mem w) (w_platform w) = fw_cb_mem_map fw /\
  CorebootGetFramebuffer (w_mem w) (w_platform w) = fw_cb_framebuffer fw /\
  CorebootGetTotalMemory (w_mem w) (w_platform w) = fw_cb_total_memory fw.
Proof. intros (_ & -> & Hk) Ha. apply answers_ext. by apply Hk. Qed.

Lemma tables_kept_params m m' a : tables_kept m -> off_tables a sizeof_params -> only_params m m' a -> tables_kept m'.
Proof. intros Hk Ho Hp Ha x Hx. rewrite (Hp x (Ho Ha x Hx)). by apply Hk. Qed.

(** A step that changes the console only. *)
Definition quiet_effect (w : world) (e : effect) : Prop := exists c, e = at_con w c /\ bs_exited c = bs_exited (w_con w).

Lemma ready_quiet w e : ready w -> quiet_effect w e -> ready (after w e).
Proof. intros H (c & -> & _). exact H. Qed.

Lemma called_exited c s : bs_exited (called c s) = bs_exited c.
Proof. done. Qed.

Lemma validate_does a w : does (ValidateBootParameters mc a) w (fun b e =>
  b = BootFlow.ValidateBootParameters (at_address a (read_params (w_mem w) a)) /\ quiet_effect w e).
Proof.
  unfold ValidateBootParameters. apply does_bind, does_get. rewrite after_nothing. unfold at_address.
  destruct (a =? 0).
  { apply does_ret. split; [done|]. exists (w_con w). by split. }
  cbn [BootFlow.ValidateBootParameters]. set (p := read_params (w_mem w) a).
  assert (Hq : forall f args, args_match false false (c_text f) args = true ->
    does (_ ← Print mc f args; mret false) w (fun b e => b = false /\ quiet_effect w (then_effect (nothing w) e))).
  { intros f args Hm. apply does_print_then; [done|]. intros t. apply does_ret. split; [done|].
    exists (printed (w_con w) t). by split. }
  repeat (match goal with |- does (if ?b then _ else _) _ _ => destruct b; [by apply Hq|] end).
  apply does_ret. split; [done|]. exists (w_con w). by split.
Qed.

Lemma get_map_does m w : does (GetMemoryMap m) w (fun s e =>
  s = (if (mm_probe m =? EFI_BUFFER_TOO_SMALL) && negb (mm_alloc m) then None else Some (GetMemoryMap_status m)) /\ quiet_effect w e).
Proof.
  unfold GetMemoryMap. apply does_bind, does_service, does_ret. split; [done|]. by exists (called (w_con w) BsMemoryMap).
Qed.

Lemma no_map_status m : (mm_probe m =? EFI_BUFFER_TOO_SMALL) && negb (mm_alloc m) = true -> GetMemoryMap_status m = EFI_OUT_OF_RESOURCES.
Proof. intros H. apply andb_true_iff in H as (H1 & H2). unfold GetMemoryMap_status. rewrite H1. by destruct (mm_alloc m). Qed.

Lemma free_map_does m w : does (free_map m) w (fun _ e =>
  quiet_effect w e /\ (In BsPrint (bs_late (w_con w)) -> In BsPrint (bs_late (e_con e)))).
Proof.
  unfold free_map. case_match.
  - apply does_service. split; [by exists (called (w_con w) BsPool)|]. cbn. case_match; [|done]. intros. apply in_or_app. by left.
  - apply does_ret. split; [by exists (w_con w)|done].
Qed.

(** A message after boot services were left calls one. *)
Lemma printed_late c t : bs_exited c = true -> In BsPrint (bs_late (printed c t)).
Proof. intros H. cbn. rewrite H. apply in_or_app. right. by left. Qed.

Lemma print_framebuffer_does a w : does (print_framebuffer mc a) w (fun _ e => quiet_effect w e).
Proof.
  unfold print_framebuffer. apply does_bind, does_get. rewrite after_nothing. apply does_print; [done|]. intros t.
  by exists (printed (w_con w) t).
Qed.

(** A step that writes the structure at [a]. *)
Record params_effect (w : world) (a : Z) (p : COREBOOT_BOOT_PARAMS) (e : effect) : Prop := {
  pe_events : e_events e = []; pe_entries : e_entries e = []; pe_loaded : e_loaded e = [];
  pe_exited : bs_exited (e_con e) = bs_exited (w_con w);
  pe_params : params_at (e_mem e) a p; pe_only : only_params (w_mem w) (e_mem e) a }.

Lemma ready_params w a p e : ready w -> off_tables a sizeof_params -> params_effect w a p e -> ready (after w e).
Proof.
  intros (H1 & H2 & H3) Ho [_ _ _ _ _ He]. split; [exact H1|]. split; [exact H2|]. by apply (tables_kept_params (w_mem w) _ a).
Qed.

Lemma params_then w a p p' e e' : params_effect w a p e -> params_effect (after w e) a p' e' -> params_effect w a p' (then_effect e e').
Proof.
  intros [E1 E2 E3 E4 E5 E6] [F1 F2 F3 F4 F5 F6]. split; cbn in *; rewrite ?E1, ?E2, ?E3, ?F1, ?F2, ?F3; try done; [congruence|].
  by apply (only_params_trans _ (e_mem e)).
Qed.

(** The framebuffer the flow puts into the structure. *)
Definition flow_fb : option COREBOOT_FB := if available w0 then fw_cb_framebuffer fw else gop_framebuffer <$> mc_gop mc.

Lemma put_fb_ok m a p fb : params_at m a p -> in_u 32 (bp_boot_flags p) ->
  let m' := match fb with Some fb => put_framebuffer m a fb | None => m end in
  params_at m' a (add_framebuffer p fb) /\ only_params m m' a.
Proof. intros Hp Hf. destruct fb as [fb|]; [by apply put_framebuffer_ok|]. by split. Qed.

Lemma store_framebuffer_does a p w : ready w -> params_at (w_mem w) a p -> in_u 32 (bp_boot_flags p) ->
  does (store_framebuffer mc a) w (fun _ e => params_effect w a (add_framebuffer p flow_fb) e).
Proof.
  intros Hr Hp Hf. unfold store_framebuffer, flow_fb. apply does_bind, does_get. rewrite after_nothing.
  pose proof Hr as (Ha & _ & _). rewrite Ha. destruct (available w0) eqn:Eav.
  - apply does_bind, does_get. rewrite after_nothing. destruct (ready_answers w Hr Eav) as (_ & E & _).
    eapply does_write_mem; [reflexivity|]. rewrite E. destruct (put_fb_ok (w_mem w) a p (fw_cb_framebuffer fw) Hp Hf).
    by split.
  - apply does_bind, does_service. eapply does_write_mem; [reflexivity|].
    destruct (put_fb_ok (w_mem w) a p (gop_framebuffer <$> mc_gop mc) Hp Hf) as (H1 & H2).
    cbn [after e_mem at_con w_mem]. destruct (mc_gop mc) as [g|]; cbn [fmap option_fmap option_map] in *;
      [rewrite (put_gop_framebuffer _ _ p) by done|]; by split.
Qed.

Lemma store_memory_does a p w n : ready w -> params_at (w_mem w) a p ->
  (if available w0 then Ret (fw_cb_total_memory fw) else ds ← descriptors (mc_map_exit mc); mret (total_memory ds)) = Ret n ->
  does (store_memory mc a) w (fun _ e => params_effect w a (set_memory p n) e).
Proof.
  intros Hr Hp Hn. unfold store_memory. apply does_bind, does_get. rewrite after_nothing.
  pose proof Hr as (Ha & _ & _). rewrite Ha. destruct (available w0) eqn:Eav.
  - injection Hn as <-. apply does_bind, does_get. rewrite after_nothing. destruct (ready_answers w Hr Eav) as (_ & _ & E).
    eapply does_write_mem; [reflexivity|]. rewrite E. destruct (put_memory_ok (w_mem w) a p (fw_cb_total_memory fw) Hp).
    by split.
  - destruct (descriptors (mc_map_exit mc)) as [ds| |]; [|done|done]. injection Hn as <-.
    apply does_bind, (does_lift _ ds); [done|]. rewrite after_nothing. eapply does_write_mem; [reflexivity|].
    destruct (put_memory_ok (w_mem w) a p (total_memory ds) Hp). by split.
Qed.

(** What entering a kernel amounts to, for a flow that does [es] and ends with [st]. *)
Definition runs_as (w : world) (st : Z) (es : list event) (s : Z) (e : effect) : Prop :=
  s = st /\ e_events e = es /\ Forall2 (entered (w_mem w)) (enters es) (e_entries e).

(** The same, with the structure at [pa]. *)
Definition runs_at (pa : Z) (w : world) (st : Z) (es : list event) (s : Z) (e : effect) : Prop :=
  runs_as w st es s e /\ Forall (fun k => snd (fst k) = pa) (enters es).

(** A flow that left boot services, by a program that called one afterwards. *)
Definition late_print (es : list event) (e : effect) : Prop := es <> [] -> In BsPrint (bs_late (e_con e)).

Lemma late_nil e : late_print [] e.
Proof. intros H. by destruct H. Qed.

Lemma runs_as_quiet w st e : e_events e = [] -> e_entries e = [] -> runs_as w st [] st e.
Proof. intros H1 H2. split; [done|]. split; [done|]. rewrite H2. constructor. Qed.

(** A message, what is freed, and the end. *)
Lemma give_up_does f args st w : args_match false false (c_text f) args = true ->
  does (_ ← Print mc f args; mret st : prog Z) w (fun s e => s = st /\ quiet_effect w e).
Proof. intros Hm. apply does_print_then; [done|]. intros t. apply does_ret. split; [done|]. by exists (printed (w_con w) t). Qed.

Lemma give_up_map_does f args m st w : args_match false false (c_text f) args = true ->
  does (_ ← Print mc f args; _ ← free_map m; mret st : prog Z) w (fun s e => s = st /\ quiet_effect w e /\
    (bs_exited (w_con w) = true -> In BsPrint (bs_late (e_con e)))).
Proof.
  intros Hm. apply does_print_then; [done|]. intros t. apply does_bind. eapply does_weaken; [apply free_map_does|].
  intros [] e ((c & -> & Hc) & Hl). apply does_ret. split; [done|]. split; [exists c; split; [done|exact Hc]|].
  intros Hx. apply Hl. by apply printed_late.
Qed.

Context (Hfb : fbs_typed flow_fb).

(** What the structure holds when a kernel is entered. *)
Definition flow_params (base size n : Z) : COREBOOT_BOOT_PARAMS := set_memory (add_framebuffer (basic_params base size) flow_fb) n.

Definition flow_total : run Z :=
  if available w0 then mret (fw_cb_total_memory fw) else ds ← descriptors (mc_map_exit mc); mret (total_memory ds).

Lemma flow_total_typed n : flow_total = Ret n -> in_u 64 n.
Proof.
  unfold flow_total. destruct (available w0); [intros [= <-]; apply cb_total_typed|].
  destruct (descriptors (mc_map_exit mc)); [|done|done]. intros [= <-]. apply total_memory_typed.
Qed.

Lemma store_params_does base size pa w n : ready w -> off_tables pa sizeof_params -> flow_total = Ret n ->
  does (store_params mc base size pa) w (fun _ e => params_effect w pa (flow_params base size n) e).
Proof.
  intros Hr Ho En. destruct (put_basic_ok (w_mem w) pa base size) as (m1 & Eb & P1 & O1).
  apply does_bind. eapply does_write_mem; [exact Eb|].
  assert (Q1 : params_effect w pa (basic_params base size) (at_mem w m1)) by by split.
  pose proof (ready_params _ _ _ _ Hr Ho Q1) as Hr1. apply does_bind. eapply does_weaken.
  { apply (store_framebuffer_does pa (basic_params base size)); [exact Hr1|exact P1|by split]. }
  intros [] e2 Q2. pose proof (params_then _ _ _ _ _ _ Q1 Q2) as Q12. pose proof (ready_params _ _ _ _ Hr Ho Q12) as Hr2.
  rewrite after_then. eapply does_weaken; [apply (store_memory_does pa _ _ n Hr2 ltac:(apply Q2) En)|].
  intros [] e3 Q3. pose proof (params_then _ _ _ _ _ _ Q12 Q3) as [F1 F2 F3 F4 F5 F6]. split; cbn in *; try done.
  all: by rewrite ?app_nil_l in *.
Qed.

Lemma enter_kernel_does base pa p w : params_at (w_mem w) pa p -> params_typed p ->
  does (enter_kernel mc base pa) w (fun _ e =>
    e_events e = [EvEnterKernel base pa p] /\ e_entries e = [mk_jump base [pa] (w_mem w)] /\ e_con e = w_con w).
Proof.
  intros Hp Ht. unfold enter_kernel. apply does_bind, does_get. rewrite after_nothing, (read_params_at _ _ p Hp Ht).
  apply does_bind, does_act. set (w1 := after w _). set (j := mk_jump base [pa] (w_mem w)).
  apply (does_modify _ _ (mk_effect (w_con w1) (mc_return mc j) [] [j] [])); [|done].
  unfold set_mem, add_entry, after. cbn. by rewrite !app_nil_r.
Qed.

Lemma exit_does base size pa w st es : ready w -> off_tables pa sizeof_params -> in_u 64 base -> in_u 64 size ->
  BootFlow.ExitBootServicesAndExecuteKernel fw base size pa = Ret (st, es) ->
  does (ExitBootServicesAndExecuteKernel mc base size pa) w (fun s e => runs_at pa w st es s e /\ late_print es e).
Proof.
  intros Hr Ho Hb Hs H. unfold BootFlow.ExitBootServicesAndExecuteKernel in H. cbv zeta in H.
  change (fw_map_exit fw) with (mc_map_exit mc) in H. change (fw_exit fw) with (mc_exit mc) in H.
  change (fw_coreboot fw) with (available w0) in H. change (fw_lingers fw) with (mc_lingers mc) in H. fold flow_total in H. set (total := flow_total) in H.
  unfold ExitBootServicesAndExecuteKernel. cbv zeta. set (m := mc_map_exit mc) in *.
  apply does_bind. eapply does_weaken; [apply get_map_does|]. intros s e (-> & c & -> & Hc).
  destruct (_ && _) eqn:Em.
  { rewrite (no_map_status m Em) in H. injection H as <- <-. apply does_ret. split; [|apply late_nil]. split; [by apply runs_as_quiet|constructor]. }
  destruct (EFI_ERROR (GetMemoryMap_status m)) eqn:E1.
  { injection H as <- <-. eapply does_weaken; [by apply give_up_map_does|]. intros s e (-> & (c' & -> & _) & _). split; [|apply late_nil]. split; [by apply runs_as_quiet|constructor]. }
  destruct (EFI_ERROR (mc_exit mc (mm_key m))) eqn:E2.
  { injection H as <- <-. eapply does_weaken; [by apply give_up_map_does|]. intros s e (-> & (c' & -> & _) & _). split; [|apply late_nil]. split; [by apply runs_as_quiet|constructor]. }
  destruct (mc_lingers mc) eqn:El; [|done]. cbn [negb] in H.
  destruct total as [n| |] eqn:En; subst total; [|done|done]. rewrite run_bind_ret in H.
  replace (if available w0 then _ else _) with (add_framebuffer (basic_params base size) flow_fb) in H
    by (unfold flow_fb; by destruct (available w0)).
  fold (flow_params base size n) in H.
  pose proof (flow_params_typed base size flow_fb n None Hb Hs Hfb (flow_total_typed n En) I) as Ht. cbv zeta in Ht.
  fold (flow_params base size n) in Ht. set (q := flow_params base size n) in *.
  apply does_bind, (does_set_con (fun w => exited (w_con w) true)). apply does_bind, does_act. set (w1 := after (after (after w _) _) _).
  apply does_bind, (does_lift _ ()); [done|]. rewrite after_nothing.
  apply does_bind. eapply does_weaken; [exact (store_params_does base size pa w1 n Hr Ho En)|]. fold q.
  intros [] e1 [Q1 Q2 Q3 Q4 Q5 Q6]. apply does_bind. eapply does_weaken; [apply validate_does|].
  intros valid e4 (-> & c4 & -> & Hc4). change (w_mem (after w1 e1)) with (e_mem e1). rewrite (read_params_at (e_mem e1) pa q Q5 Ht).
  assert (Hx : bs_exited c4 = true) by (rewrite Hc4; change (bs_exited (e_con e1) = true); rewrite Q4; apply orb_true_r).
  destruct (negb _).
  { injection H as <- <-. eapply does_weaken; [by apply give_up_map_does|]. intros s e (-> & (c' & -> & _) & Hl).
    split; [|intros _; by apply Hl]. split; [|constructor]. split; [done|]. cbn. rewrite Q1, Q2. cbn. split; [done|constructor]. }
  injection H as <- <-. message. apply does_bind. eapply does_weaken; [apply print_framebuffer_does|]. intros [] e5 (c5 & -> & Hc5).
  message. apply does_bind. eapply does_weaken; [apply (enter_kernel_does base pa q); [exact Q5|exact Ht]|].
  intros [] e6 (F1 & F2 & F3). apply does_bind. eapply does_weaken; [apply free_map_does|]. intros [] e7 ((c7 & -> & Hc7) & Hl). apply does_ret.
  split; [|intros _; apply Hl; cbn [after w_con]; rewrite F3; apply printed_late; cbn; by rewrite Hc5].
  split; [|by repeat constructor]. split; [done|]. cbn. rewrite F1, F2, Q1, Q2. cbn. split; [done|]. constructor; [|constructor]. by split_and!.
Qed.

(** Writes to the structure before a kernel is entered with it. *)
Lemma runs_at_params w e a p st es s e' : params_effect w a p e -> runs_at a (after w e) st es s e' ->
  runs_at a w st es s (then_effect e e').
Proof.
  intros [E1 E2 _ _ _ E6] ((-> & <- & H) & Ha). split; [|exact Ha]. split; [done|]. cbn. rewrite E1, E2. split; [done|].
  cbn [app]. revert Ha. induction H as [|[[b pa] q] j ks js Hk Hks IH]; intros Ha; [constructor|].
  apply Forall_cons in Ha as (Hpa & Ha). cbn in Hpa. subst pa. constructor; [|by apply IH].
  destruct Hk as (K1 & K2 & K3 & K4). split_and!; try done. by apply (only_params_trans _ (e_mem e)).
Qed.

Lemma runs_at_quiet pa w e st es s e' : quiet_effect w e -> runs_at pa (after w e) st es s e' -> runs_at pa w st es s (then_effect e e').
Proof. intros (c & -> & _) ((H1 & H2 & H3) & Ha). by split; [split|]. Qed.

Lemma runs_at_after pa w st es s e e' : runs_at pa w st es s e -> e_events e' = [] -> e_entries e' = [] -> runs_at pa w st es s (then_effect e e').
Proof. intros ((H1 & H2 & H3) & Ha) E1 E2. split; [|exact Ha]. split; [done|]. cbn. rewrite E1, E2, !app_nil_r. done. Qed.

(** ** The execution environment *)

Context (Hmem : byte_mem (w_mem w0)).
Context (Hoff : forall map, fw_cb_mem_map fw = Some map -> off_tables (u64 (fst (largest_ram map) + 0x1000)) sizeof_params).

Lemma largest_ram_typed map : CorebootGetMemoryMap (w_mem w0) (platform_of w0) = Some map -> in_u 64 (fst (largest_ram map)).
Proof.
  unfold CorebootGetMemoryMap. destruct (cb_memory_map (platform_of w0)) as [a|]; [|done]. intros [= <-].
  unfold largest_ram, mem_entries. rewrite fold_left_fmap. apply (fold_left_inv (fun b => in_u 64 (fst b))); [|by split].
  intros b i Hb. case_match; [|done]. cbn. apply fetch_le_range; [done|lia].
Qed.

(** The three stores, and the initrd. *)
Lemma coreboot_params_does a base size initrd w : ready w -> available w0 = true -> off_tables a sizeof_params ->
  does (store_coreboot_params base size initrd a) w
  (fun _ e => params_effect w a
     (let p := set_memory (add_framebuffer (basic_params base size) (fw_cb_framebuffer fw)) (fw_cb_total_memory fw) in
      match initrd with Some i => set_params_initrd p i | None => p end) e).
Proof.
  intros Hr Hav Ho. destruct (put_basic_ok (w_mem w) a base size) as (m1 & Eb & P1 & O1).
  unfold store_coreboot_params. apply does_bind, does_get. rewrite after_nothing. apply does_bind. eapply does_write_mem; [exact Eb|].
  assert (Q1 : params_effect w a (basic_params base size) (at_mem w m1)) by by split.
  pose proof (ready_params _ _ _ _ Hr Ho Q1) as Hr1. destruct (ready_answers _ Hr1 Hav) as (_ & Ef & _).
  destruct (put_fb_ok m1 a _ (fw_cb_framebuffer fw) P1 ltac:(by split)) as (P2 & O2).
  change (w_mem (after w (at_mem w m1))) with m1 in Ef. change (w_platform (after w (at_mem w m1))) with (w_platform w) in Ef.
  apply does_bind. eapply does_write_mem; [reflexivity|]. change (w_mem (after w (at_mem w m1))) with m1. rewrite Ef.
  set (m2 := match fw_cb_framebuffer fw with Some _ => _ | None => _ end) in *. set (w1 := after w _).
  assert (Q2 : params_effect w1 a _ (at_mem w1 m2)) by by split.
  pose proof (params_then _ _ _ _ _ _ Q1 Q2) as Q12. pose proof (ready_params _ _ _ _ Hr Ho Q12) as Hr2.
  destruct (ready_answers _ Hr2 Hav) as (_ & _ & Et). cbn in Et.
  destruct (put_memory_ok m2 a _ (fw_cb_total_memory fw) P2) as (P3 & O3).
  apply does_bind. eapply does_write_mem; [reflexivity|]. change (w_mem (after w1 (at_mem w1 m2))) with m2. rewrite Et.
  set (m3 := put_memory _ _ _) in *. set (w2 := after w1 _).
  set (m4 := match initrd with Some i => put_initrd m3 a i | None => m3 end).
  eapply (does_write_mem _ m4); [reflexivity|].
  assert (H4 : params_at m4 a (let p := set_memory (add_framebuffer (basic_params base size) (fw_cb_framebuffer fw)) (fw_cb_total_memory fw) in
    match initrd with Some i => set_params_initrd p i | None => p end) /\ only_params m3 m4 a).
  { subst m4. destruct initrd as [i|]; [|by split]. apply put_initrd_ok; [exact P3|]. destruct (fw_cb_framebuffer fw); by split. }
  destruct H4 as (P4 & O4). split; try done. cbn. eapply only_params_trans; [exact O1|]. eapply only_params_trans; [exact O2|].
  by apply (only_params_trans _ m3).
Qed.

Lemma report_framebuffer_does fb w : does (report_framebuffer mc fb) w (fun _ e => quiet_effect w e).
Proof.
  destruct fb; [|apply does_ret; by exists (w_con w)]. cbn [report_framebuffer]. message. apply does_print; [done|].
  intros t'. by exists (printed (printed (w_con w) t) t').
Qed.

Lemma report_gop_does w : does (report_gop mc) w (fun _ e => quiet_effect w e).
Proof.
  unfold report_gop. destruct (mc_gop mc); [|apply does_ret; by exists (w_con w)]. message. apply does_print; [done|].
  intros t'. by exists (printed (printed (w_con w) t) t').
Qed.

Lemma coreboot_does base size initrd w st es : ready w -> available w0 = true -> in_u 64 base -> in_u 64 size ->
  match initrd with Some a => in_u 64 a | None => True end ->
  BootFlow.ExecuteKernelWithCoreboot fw base size initrd = Ret (st, es) ->
  does (ExecuteKernelWithCoreboot mc base size initrd) w (runs_as w st es).
Proof.
  intros Hr Hav Hb Hs Hi H. unfold ExecuteKernelWithCoreboot, BootFlow.ExecuteKernelWithCoreboot in *.
  destruct (ready_answers w Hr Hav) as (Em & Ef & Et). apply does_bind, does_get. rewrite after_nothing.
  apply does_bind, does_get. rewrite after_nothing, Em, Ef. pose proof Hoff as Ho.
  assert (Hfail : forall f st', args_match false false (c_text f) [] = true -> Ret (st', []) = Ret (st, es) ->
    does (_ ← Print mc f []; mret st' : prog Z) w (runs_as w st es)).
  { intros f st' Hm [= <- <-]. eapply does_weaken; [by apply give_up_does|]. intros s e (-> & c & -> & _). by apply runs_as_quiet. }
  assert (Htyped : forall map, fw_cb_mem_map fw = Some map -> in_u 64 (fst (largest_ram map))) by apply largest_ram_typed.
  destruct (fw_cb_mem_map fw) as [[|entry map]|]; [by apply Hfail| |by apply Hfail].
  specialize (Ho _ eq_refl). specialize (Htyped _ eq_refl). set (kb := fst (largest_ram (entry :: map))) in *.
  destruct (kb =? 0); [by apply Hfail|]. cbv zeta in *. set (pa := u64 (kb + 0x1000)) in *.
  message. message.
  apply does_bind. eapply does_weaken; [apply report_framebuffer_does|]. intros [] e0 (c & -> & Hc).
  apply does_bind. eapply does_weaken; [apply (coreboot_params_does pa kb size initrd); [exact Hr|exact Hav|exact Ho]|].
  intros [] e1 Q. cbv zeta in H, Q.
  pose (q := set_memory (add_framebuffer (basic_params kb size) (fw_cb_framebuffer fw)) (fw_cb_total_memory fw)).
  pose (p := match initrd with Some a => set_params_initrd q a | None => q end).
  lazymatch type of Q with params_effect ?w1 _ _ _ => change (params_effect w1 pa p e1) in Q end.
  assert (Ht : params_typed p).
  { apply (flow_params_typed kb size (fw_cb_framebuffer fw) (fw_cb_total_memory fw) initrd); try done; [|apply cb_total_typed].
    unfold fbs_typed, flow_fb in *. by rewrite Hav in Hfb. }
  lazymatch type of H with (if negb (BootFlow.ValidateBootParameters (at_address _ ?x)) then _ else _) = _ => change x with p in H end.
  apply does_bind. eapply does_weaken; [apply validate_does|]. intros valid e2 (-> & c2 & -> & Hc2).
  match goal with |- context [w_mem (after ?w1 e1)] => change (w_mem (after w1 e1)) with (e_mem e1) end.
  rewrite (read_params_at (e_mem e1) pa p ltac:(apply Q) Ht). pose proof Q as [Q1 Q2 Q3 Q4 Q5 Q6].
  destruct (negb _).
  { injection H as <- <-. eapply does_weaken; [by apply give_up_does|]. intros s e (-> & c3 & -> & _).
    apply runs_as_quiet; cbn; by rewrite ?Q1, ?Q2. }
  message. apply does_bind. eapply does_weaken; [apply print_framebuffer_does|]. intros [] e5 (c5 & -> & Hc5).
  match goal with |- does _ (after (after (after (after ?w1 e1) ?f2) ?f3) ?f4) _ => set (ww := w1) in *; set (fc2 := f2); set (fc3 := f3); set (fc4 := f4) end.
  assert (Hr' : ready (after (after (after (after ww e1) fc2) fc3) fc4)).
  { apply (ready_params ww pa p e1 Hr Ho Q). }
  eapply does_weaken; [exact (exit_does base size pa _ st es Hr' Ho Hb Hs H)|]. intros s e (He & _).
  assert (Hq : runs_at pa ww st es s (then_effect e1 e)).
  { apply (runs_at_params ww e1 pa p); [exact Q|]. destruct He as ((K1 & K2 & K3) & K4). split; [|exact K4]. by split. }
  destruct Hq as ((K1 & K2 & K3) & _). split; [exact K1|]. split; [exact K2|exact K3].
Qed.

Lemma uefi_does base size w st es : ready w -> available w0 = false -> in_u 64 base -> in_u 64 size ->
  BootFlow.ExecuteKernelWithUefi fw base size = Ret (st, es) ->
  does (ExecuteKernelWithUefi mc base size) w (runs_as w st es).
Proof.
  intros Hr Hav Hb Hs H. unfold ExecuteKernelWithUefi, BootFlow.ExecuteKernelWithUefi in *. cbv zeta in *.
  change (fw_map_execute fw) with (mc_map_execute mc) in H. set (m := mc_map_execute mc) in *.
  apply does_bind. eapply does_weaken; [apply get_map_does|]. intros s e (-> & c & -> & Hc).
  destruct (_ && _) eqn:Em.
  { rewrite (no_map_status m Em) in H. injection H as <- <-. apply does_ret. by apply runs_as_quiet. }
  destruct (EFI_ERROR (GetMemoryMap_status m)) eqn:E1.
  { injection H as <- <-. eapply does_weaken; [by apply give_up_does|]. intros s e (-> & c' & -> & _). by apply runs_as_quiet. }
  destruct (descriptors m) as [ds| |] eqn:Ed; [|done|done]. rewrite run_bind_ret in H. set (pa := u64 (find_kernel_base ds size + 0x1000)) in *.
  apply does_bind, (does_lift _ ds); [done|]. rewrite after_nothing. apply does_bind, does_service.
  apply does_bind. eapply does_weaken; [apply report_gop_does|]. intros [] e2 (c2 & -> & Hc2).
  apply does_bind. eapply does_weaken.
  { refine (exit_does base size pa _ st es _ _ Hb Hs H); [exact Hr|]. intros Ha. by rewrite Ha in Hav. }
  intros s e (((-> & <- & H3) & _) & _). apply does_bind. eapply does_weaken; [apply free_map_does|]. intros [] e3 ((c3 & -> & Hc3) & _).
  apply does_ret. split; [done|]. cbn. rewrite !app_nil_r. by split.
Qed.

Lemma execute_does base size initrd w st es : ready w -> in_u 64 base -> in_u 64 size ->
  match initrd with Some a => in_u 64 a | None => True end ->
  BootFlow.ExecuteKernel fw base size initrd = Ret (st, es) ->
  does (ExecuteKernel mc base size initrd) w (runs_as w st es).
Proof.
  intros Hr Hb Hs Hi H. unfold ExecuteKernel, BootFlow.ExecuteKernel in *. change (fw_coreboot fw) with (available w0) in H.
  message. apply does_bind, does_get. rewrite after_nothing. set (w1 := after w _).
  assert (Hr1 : ready w1) by exact Hr. pose proof Hr1 as (Ha & _). rewrite Ha. destruct (available w0) eqn:Eav.
  - eapply does_weaken; [exact (coreboot_does base size initrd w1 st es Hr1 Eav Hb Hs Hi H)|]. intros s e (H1 & H2 & H3). by split.
  - eapply does_weaken; [exact (uefi_does base size w1 st es Hr1 Eav Hb Hs H)|]. intros s e (H1 & H2 & H3). by split.
Qed.

(** ** Loading the kernel *)

Lemma get_root_dir_does w : does (get_root_dir mc) w (fun r e => r = get_root (mc_services mc) (mc_image mc) /\ quiet_effect w e).
Proof.
  unfold get_root_dir. apply does_bind, does_service.
  pose proof (proj1 (root_lookups_agree (mc_services mc) (mc_image mc))) as E.
  assert (Hms : forall st ms, UefiHelpers.get_root_dir (mc_services mc) (mc_image mc) = (inl st, ms) ->
    exists f, ms = [f] /\ forall v, args_match false false (c_text f) [VaInt v] = true).
  { unfold UefiHelpers.get_root_dir. intros st ms. repeat case_match; intros [= _ <-]; eexists; by split. }
  destruct (UefiHelpers.get_root_dir (mc_services mc) (mc_image mc)) as [[st|root] ms]; cbn [fst] in E; rewrite <- E.
  - destruct (Hms st ms eq_refl) as (f & -> & Hm). cbn [print_all].
    apply does_bind, does_bind, does_print; [apply Hm|]. intros t. apply does_ret, does_ret. split; [done|].
    by exists (printed (called (w_con w) BsProtocol) t).
  - apply does_ret. split; [done|]. by exists (called (w_con w) BsProtocol).
Qed.

(** Memory after kernel.efi was read: only its buffer changed. *)
Definition loads (w : world) (n : Z) (e : effect) : Prop :=
  e_events e = [] /\ e_entries e = [] /\ forall x, x < mc_buffer mc \/ mc_buffer mc + n <= x -> e_mem e x = w_mem w x.

Lemma fetch_take m a l n : holds m a l -> 0 <= n <= zlen l -> fetch m a n = take (Z.to_nat n) l.
Proof.
  intros H Hn. rewrite <- (take_drop (Z.to_nat n) l) in H. apply holds_app in H as (H & _). unfold holds in H.
  assert (E : zlen (take (Z.to_nat n) l) = n) by (unfold zlen in *; rewrite length_take; lia). by rewrite E in H.
Qed.

Lemma read_kernel_does f w : (zlen (f_data f) <= f_size f \/ f_buf_alloc f = false \/ EFI_ERROR (f_read_status f) = true) ->
  does (read_kernel mc f) w (fun k e => loads w (f_size f) e /\
    k = (if negb (f_buf_alloc f) then (EFI_OUT_OF_RESOURCES, None) else if EFI_ERROR (f_read_status f) then (f_read_status f, None)
         else (EFI_SUCCESS, Some (zlen (f_data f)))) /\
    (forall n, snd k = Some n -> holds (e_mem e) (mc_buffer mc) (f_data f))).
Proof.
  intros Hsz. unfold read_kernel. destruct (f_buf_alloc f); cbn [negb]; [|by apply does_ret].
  apply does_bind, does_set_mem. cbn [after w_mem e_mem at_mem].
  assert (Hfill : forall x, x < mc_buffer mc \/ mc_buffer mc + f_size f <= x -> fill (w_mem w) (mc_buffer mc) 0 (f_size f) x = w_mem w x)
    by (intros x Hx; by apply fill_other).
  destruct (EFI_ERROR (f_read_status f)).
  { apply does_ret. split; [|done]. by split. }
  destruct Hsz as [Hsz|[|]]; [|done|done]. rewrite (proj2 (Z.ltb_ge _ _) Hsz).
  apply does_bind, does_set_mem, does_ret. split; [|split; [done|intros _ _; apply holds_poke]].
  split; [done|]. split; [done|]. intros x Hx. cbn. rewrite poke_other by (pose proof (zlen_nonneg (f_data f)); lia). by apply Hfill.
Qed.

Lemma loads_then w n e e' : loads w n e -> loads (after w e) n e' -> loads w n (then_effect e e').
Proof.
  intros (H1 & H2 & H3) (H4 & H5 & H6). split; [|split]; [cbn; by rewrite H1, H4|cbn; by rewrite H2, H5|].
  intros x Hx. cbn. rewrite H6 by done. by apply H3.
Qed.

Lemma verify_kernel_does expected data w : holds (w_mem w) (mc_buffer mc) data ->
  does (verify_kernel mc expected (zlen data)) w (fun k e => quiet_effect w e /\
    k = if verify_kernel_hash fw expected data then (EFI_SUCCESS, Some (zlen data)) else (EFI_SECURITY_VIOLATION, None)).
Proof.
  intros Hd. unfold verify_kernel, verify_kernel_hash. destruct (negb _).
  - apply does_bind, does_get. rewrite after_nothing. pose proof (zlen_nonneg data) as H0. unfold u32.
    rewrite (fetch_take _ _ data) by first [done | split; [apply Z.mod_pos_bound; lia|apply Z.mod_le; lia]].
    change (fw_sha512 fw) with (mc_sha512 mc). case_bool_decide.
    + apply does_ret. split; [by exists (w_con w)|done].
    + message. apply does_ret. split; [by exists (printed (w_con w) t)|done].
  - apply does_ret. split; [by exists (w_con w)|done].
Qed.

Lemma load_file_does expected f w st out : BootFlow.load_kernel_file fw expected f = Ret (st, out) ->
  does (load_kernel_file mc expected f) w (fun k e => k = (st, zlen <$> out) /\ loads w (f_size f) e /\
    (forall data, out = Some data -> data = f_data f /\ holds (e_mem e) (mc_buffer mc) data)).
Proof.
  unfold BootFlow.load_kernel_file, load_kernel_file. intros H.
  assert (Hret : forall st', Ret (st', None) = Ret (st, out) -> does (mret (st', None)) w (fun k e => k = (st, zlen <$> out) /\
    loads w (f_size f) e /\ (forall data, out = Some data -> data = f_data f /\ holds (e_mem e) (mc_buffer mc) data))).
  { intros st' [= <- <-]. by apply does_ret. }
  destruct (f_info_probe f =? EFI_BUFFER_TOO_SMALL); [|destruct (EFI_ERROR (f_info_probe f)); [by apply Hret|done]].
  destruct (negb (f_info_alloc f)); [by apply Hret|]. destruct (EFI_ERROR (f_info_status f)); [by apply Hret|].
  apply does_bind. eapply does_weaken; [apply read_kernel_does|].
  { destruct (f_buf_alloc f); [|by auto]. destruct (EFI_ERROR (f_read_status f)); [by auto|]. cbn [negb] in H.
    destruct (Z.ltb_spec (f_size f) (zlen (f_data f))); [done|]. left. lia. }
  intros k e (Hl & -> & Hd). destruct (negb (f_buf_alloc f)); cbn [snd] in *.
  { injection H as <- <-. apply does_ret. split; [done|]. split; [|done]. by apply loads_then. }
  destruct (EFI_ERROR (f_read_status f)); cbn [snd] in *.
  { injection H as <- <-. apply does_ret. split; [done|]. split; [|done]. by apply loads_then. }
  destruct (_ <? _); [done|]. specialize (Hd _ eq_refl).
  eapply does_weaken; [by apply verify_kernel_does|]. intros k e' ((c & -> & Hc) & ->).
  destruct (verify_kernel_hash fw expected (f_data f)); injection H as <- <-;
    (split; [done|]); (split; [by apply loads_then|]); [|done]. intros data [= <-]. by split.
Qed.

Lemma ready_loads w n e : ready w -> off_tables (mc_buffer mc) n -> loads w n e -> ready (after w e).
Proof.
  intros (H1 & H2 & H3) Ho (_ & _ & He). split; [exact H1|]. split; [exact H2|]. intros Ha x Hx. cbn.
  rewrite (He x (Ho Ha x Hx)). by apply H3.
Qed.

Context (Hbuf : forall dir f, get_root (mc_services mc) (mc_image mc) = inr dir -> dir "kernel.efi"%string = inr f -> off_tables (mc_buffer mc) (f_size f)).

Lemma load_does expected w st out : ready w -> BootFlow.LoadAndVerifyKernel fw expected "kernel.efi" = Ret (st, out) ->
  does (LoadAndVerifyKernel mc expected "kernel.efi") w (fun k e => k = (st, zlen <$> out) /\ ready (after w e) /\
    e_events e = [] /\ e_entries e = [] /\ (forall data, out = Some data -> kernel_image fw data /\ holds (e_mem e) (mc_buffer mc) data)).
Proof.
  intros Hr H. unfold LoadAndVerifyKernel, BootFlow.LoadAndVerifyKernel in *. change (fw_root fw) with (get_root (mc_services mc) (mc_image mc)) in H.
  apply does_bind. eapply does_weaken; [apply get_root_dir_does|]. intros r e (-> & c & -> & Hc).
  destruct (get_root (mc_services mc) (mc_image mc)) as [st'|dir] eqn:Eroot.
  { injection H as <- <-. message. apply does_ret. by split_and!; try apply Hr. }
  apply does_bind, does_service. destruct (dir "kernel.efi"%string) as [st'|f] eqn:Ef.
  { injection H as <- <-. message. apply does_ret. by split_and!; try apply Hr. }
  set (w1 := after (after w _) _). eapply does_weaken; [exact (load_file_does expected f w1 st out H)|].
  intros k e (-> & Hl & Hd). assert (Hr1 : ready w1) by exact Hr.
  destruct (ready_loads w1 _ e Hr1 (Hbuf dir f eq_refl Ef) Hl) as (R1 & R2 & R3). pose proof Hl as (L1 & L2 & _).
  split; [done|]. split; [by split_and!|]. split; [exact L1|]. split; [exact L2|].
  intros data Hout. destruct (Hd data Hout) as (-> & Hh). split; [|exact Hh]. by exists dir, f.
Qed.

(** ** The menu and kernel.efi *)

(** A kernel that was entered: the boot parameters lie in memory where its argument
    points, and kernel.efi is in its buffer unless they were stored over it. *)
Definition booted (k : Z * Z * COREBOOT_BOOT_PARAMS) (j : jump) : Prop :=
  let '(a, pa, p) := k in
  j_entry j = a /\ j_args j = [pa] /\ params_at (j_memory j) pa p /\
  exists data, kernel_image fw data /\ (apart pa sizeof_params a (zlen data) -> holds (j_memory j) a data).

Definition boots_as (st : Z) (es : list event) (s : Z) (e : effect) : Prop :=
  s = st /\ e_events e = es /\ Forall2 booted (enters es) (e_entries e).

Lemma only_params_holds m m' pa a l : only_params m m' pa -> apart pa sizeof_params a (zlen l) -> holds m a l -> holds m' a l.
Proof. rewrite !holds_iff. intros Ho Ha H i Hi. unfold apart in Ha. rewrite Ho by lia. by apply H. Qed.

Context (Hbase : in_u 64 (mc_buffer mc)) (Hsize : forall data, kernel_image fw data -> in_u 64 (zlen data)).

(** The same part of the flow. *)
Definition flow_kernel : run (Z * list event) :=
  k ← BootFlow.LoadAndVerifyKernel fw g_known_hash "kernel.efi"%string;
  match k with
  | (st, Some data) => if EFI_ERROR st then mret (st, []) else BootFlow.ExecuteKernel fw (fw_buffer fw) (zlen data) None
  | (st, None) => mret (st, [])
  end.

(** The kernels the flow enters are in the buffer. *)
Lemma flow_enters_buffer base size initrd st es : BootFlow.ExecuteKernel fw base size initrd = Ret (st, es) ->
  Forall (fun k => fst (fst k) = base) (enters es).
Proof.
  assert (Hx : forall pa, BootFlow.ExitBootServicesAndExecuteKernel fw base size pa = Ret (st, es) -> Forall (fun k => fst (fst k) = base) (enters es)).
  { intros pa. unfold BootFlow.ExitBootServicesAndExecuteKernel. cbv zeta. repeat (case_match; [intros [= _ <-]; constructor|]).
    destruct (negb (fw_lingers fw)); [done|].
    match goal with |- context [mbind _ ?t] => destruct t as [n| |]; [|done|done] end. rewrite run_bind_ret.
    destruct (negb _); intros [= _ <-]; by repeat constructor. }
  unfold BootFlow.ExecuteKernel, BootFlow.ExecuteKernelWithCoreboot, BootFlow.ExecuteKernelWithUefi. cbv zeta.
  destruct (fw_coreboot fw).
  - destruct (fw_cb_mem_map fw) as [[|entry map]|]; [intros [= _ <-]; constructor| |intros [= _ <-]; constructor].
    destruct (_ =? 0); [intros [= _ <-]; constructor|]. destruct (negb _); [intros [= _ <-]; constructor|]. apply Hx.
  - destruct (EFI_ERROR _); [intros [= _ <-]; constructor|]. destruct (descriptors _); [|done|done]. rewrite run_bind_ret. apply Hx.
Qed.

Lemma kernel_efi_does w st es : ready w -> flow_kernel = Ret (st, es) -> does (boot_kernel_efi mc) w (boots_as st es).
Proof.
  intros Hr H. unfold flow_kernel in H. unfold boot_kernel_efi.
  destruct (BootFlow.LoadAndVerifyKernel fw g_known_hash "kernel.efi") as [[st' out]| |] eqn:El; [|done|done].
  rewrite run_bind_ret in H. apply does_bind. eapply does_weaken; [exact (load_does _ w st' out Hr El)|].
  intros k e (-> & Hr1 & E1 & E2 & Hd). destruct out as [data|]; cbn [fmap option_fmap option_map].
  2:{ injection H as <- <-. apply does_ret. split; [done|]. cbn. rewrite E1, E2. split; [done|constructor]. }
  destruct (EFI_ERROR st').
  { injection H as <- <-. apply does_ret. split; [done|]. cbn. rewrite E1, E2. split; [done|constructor]. }
  destruct (Hd data eq_refl) as (Hi & Hh). eapply does_weaken; [exact (execute_does _ _ None _ st es Hr1 Hbase (Hsize data Hi) I H)|].
  intros s e' (-> & <- & Hf). split; [done|]. cbn. rewrite E1, E2. split; [done|]. cbn [app].
  pose proof (flow_enters_buffer _ _ _ _ _ H) as Hb. change (fw_buffer fw) with (mc_buffer mc) in Hb.
  induction Hf as [|[[a pa] p] j ks js (K1 & K2 & K3 & K4) Hks IH]; [constructor|]. apply Forall_cons in Hb as (Ha & Hb). cbn in Ha. subst a.
  constructor; [|by apply IH]. split_and!; try done. exists data. split; [done|]. intros Hap. rewrite Ha in *. by apply (only_params_holds (e_mem e) _ pa).
Qed.

Context (Hboot : forall f, In f (List.map snd main_entries) -> exists b, mc_boot mc f (w_mem w0) = Ret b /\ tables_kept (br_memory b) /\
  (br_exited b = true -> mc_lingers mc = true)).

Lemma run_menu_does w st es : ready w -> w_mem w = w_mem w0 -> BootFlow.run_menu fw = Ret (st, es) ->
  does (run_menu mc) w (fun s e => s = st /\ e_events e = es /\ enters es = [] /\ e_entries e = [] /\ ready (after w e)).
Proof.
  intros Hr Hw H. unfold BootFlow.run_menu, run_menu in *. pose proof (menu_boots_entry fw) as Hentry.
  change (fw_towlower fw) with (mc_towlower mc) in *. change (fw_inputs fw) with (mc_inputs mc) in *.
  apply does_bind, does_act. apply does_bind.
  destruct (ShowBootMenu (mc_towlower mc) main_menu (mc_inputs mc)) as [[m o]| |] eqn:Em; [|done|done].
  apply (does_lift _ (m, o)); [done|]. rewrite after_nothing. rewrite run_bind_ret in H. cbn [snd] in *.
  destruct o as [[f|status]|]; [| |done].
  2:{ injection H as <- <-. apply does_ret. by split_and!; try apply Hr. }
  destruct (Hboot f (Hentry m f eq_refl)) as (b & Eb & Hk & Hl). injection H as <- <-.
  apply does_bind, does_act. apply does_bind, does_get. rewrite after_nothing. apply does_bind, (does_lift _ b).
  { change (mc_boot mc f (w_mem w) = Ret b). by rewrite Hw. }
  rewrite after_nothing. set (w1 := after (after w _) _). apply does_bind.
  apply (does_modify _ _ (mk_effect (exited (w_con w1) (br_exited b)) (br_memory b) [] [] (br_jumps b))).
  { unfold set_con, set_mem, add_loaded, after. cbn. by rewrite !app_nil_r. }
  apply does_bind, (does_lift _ ()).
  { destruct (br_exited b); [|done]. by rewrite (Hl eq_refl). }
  rewrite after_nothing. apply does_ret. split; [cbn; by rewrite Eb|]. do 3 (split; [done|]). split; [apply Hr|]. split; [apply Hr|exact Hk].
Qed.

Lemma enters_app es es' : enters (es ++ es') = enters es ++ enters es'.
Proof. apply omap_app. Qed.

Lemma no_kernel_does w : gCorebootAvailable w = available w0 -> does (no_kernel mc) w (fun s e => s = EFI_DEVICE_ERROR /\ e_events e = [EvReset (available w0)] /\ e_entries e = []).
Proof.
  intros Hr. unfold no_kernel. message. message. apply does_bind, does_service. apply does_bind, does_get.
  rewrite after_nothing. apply does_bind, does_act, does_ret. split_and!; try done.
  cbn. by rewrite Hr.
Qed.

Lemma after_autoboot_does w st es : ready w -> w_mem w = w_mem w0 -> BootFlow.after_autoboot fw true = Ret (st, es) ->
  does (after_autoboot mc) w (boots_as st es).
Proof.
  intros Hr Hw H. unfold BootFlow.after_autoboot, after_autoboot in *.
  destruct (BootFlow.run_menu fw) as [[status menu]| |] eqn:Em; [|done|done]. rewrite run_bind_ret in H.
  apply does_bind. eapply does_weaken; [exact (run_menu_does w status menu Hr Hw Em)|]. intros s e (-> & <- & Hn & He & Hr1).
  destruct (status =? EFI_SUCCESS) eqn:Es; cbn [andb] in H.
  2:{ injection H as <- <-. eapply does_weaken; [exact (no_kernel_does _ (proj1 Hr1))|]. intros s e' (-> & E1 & E2). split; [done|].
      cbn. rewrite E1, E2, He. split; [done|]. rewrite !enters_app, Hn. constructor. }
  fold flow_kernel in H. destruct flow_kernel as [[st' es']| |] eqn:Ek; [|done|done]. rewrite run_bind_ret in H. cbn [fst snd] in H.
  apply does_bind. eapply does_weaken; [exact (kernel_efi_does _ st' es' Hr1 Ek)|]. intros s e' (-> & <- & Hf).
  destruct (negb (EFI_ERROR st')).
  { injection H as <- <-. apply does_ret. split; [done|]. cbn. rewrite !app_nil_r, He, enters_app, Hn. by split. }
  injection H as <- <-. eapply does_weaken; [exact (no_kernel_does (after (after w e) e') (proj1 Hr1))|]. intros s e2 (-> & E1 & E2).
  split; [done|]. cbn. rewrite E1, E2, He, app_nil_r. split; [done|]. rewrite !enters_app, Hn, app_nil_r. exact Hf.
Qed.

(** ** From the start *)

(** The parts of the state the flow depends on do not change. *)
Definition stays (w w' : world) : Prop :=
  w_mem w' = w_mem w /\ w_events w' = w_events w /\ w_entries w' = w_entries w /\
  gCorebootAvailable w' = gCorebootAvailable w /\ w_platform w' = w_platform w /\ w_loaded w' = w_loaded w.

Definition runs {A} (p : prog A) (w : world) (P : A -> world -> Prop) : Prop := exists a w', p w = Ret (a, w') /\ P a w'.

Lemma runs_bind {A B} (p : prog A) (k : A -> prog B) w P : runs p w (fun a w' => runs (k a) w' P) -> runs (p ≫= k) w P.
Proof. intros (a & w1 & E & b & w2 & E' & H). exists b, w2. split; [|done]. unfold mbind, prog_bind. by rewrite E. Qed.

Lemma runs_weaken {A} (p : prog A) w (P Q : A -> world -> Prop) : runs p w P -> (forall a w', P a w' -> Q a w') -> runs p w Q.
Proof. intros (a & w' & E & H) HQ. exists a, w'. auto. Qed.

Lemma does_runs {A} (p : prog A) w P : does p w P -> runs p w (fun a w' => exists e, w' = after w e /\ P a e).
Proof. intros (a & e & E & H). exists a, (after w e). eauto. Qed.

Lemma stays_trans w w' w'' : stays w w' -> stays w' w'' -> stays w w''.
Proof. unfold stays. intros (? & ? & ? & ? & ? & ?) (? & ? & ? & ? & ? & ?). split_and!; congruence. Qed.

Lemma stays_con w c : stays w (set_con w c).
Proof. by split_and!. Qed.

Lemma quiet_stays w e : quiet_effect w e -> stays w (after w e).
Proof. intros (c & -> & _). unfold stays. cbn. by rewrite !app_nil_r. Qed.

Lemma runs_print f args w : args_match false false (c_text f) args = true -> runs (Print mc f args) w (fun _ w' => stays w w').
Proof.
  intros Hm. destruct (internal_print_matches (mc_pool mc (con_prints (w_con w))) (c_text f) args Hm) as (t & E).
  eexists (), _. unfold Print. rewrite E. split; [reflexivity|]. apply stays_con.
Qed.

Lemma runs_print_all ms : forall w, Forall (fun f => args_match false false (c_text f) [] = true) ms -> runs (print_all mc ms []) w (fun _ w' => stays w w').
Proof.
  induction ms as [|f ms IH]; intros w Hm; cbn [print_all]; [by eexists (), w|]. apply Forall_cons in Hm as (Hf & Hm).
  apply runs_bind. eapply runs_weaken; [by apply runs_print|]. intros [] w1 S1. eapply runs_weaken; [by apply IH|].
  intros [] w2 S2. by apply (stays_trans w w1).
Qed.

Lemma initialize_runs w : w_mem w = w_mem w0 -> w_platform w = w_platform w0 -> runs (InitializeBloodHorn mc) w (fun s w' =>
  s = EFI_SUCCESS /\ w_mem w' = w_mem w /\ w_events w' = w_events w /\ w_entries w' = w_entries w /\
  gCorebootAvailable w' = available w0 /\ w_platform w' = platform_of w0 /\ w_loaded w' = w_loaded w).
Proof.
  intros Hm Hp. unfold InitializeBloodHorn, UefiHelpers.InitializeBloodHorn. apply runs_bind. exists (w_mem w), w. split; [done|].
  apply runs_bind. exists (w_platform w), w. split; [done|]. rewrite Hm, Hp. unfold available, platform_of.
  destruct (CorebootPlatformInit (w_mem w0) (w_platform w0)) as [av p]. cbn [fst snd].
  apply runs_bind. eexists (), _. split; [reflexivity|]. apply runs_bind. eapply runs_weaken.
  { apply runs_print_all. destruct av; [|by repeat constructor]. rewrite !Forall_app.
    destruct (CorebootInitGraphics p); split_and!; by repeat constructor. }
  intros [] w1 (S1 & S2 & S3 & S4 & S5 & S6). eexists _, w1. split_and!; try done. by rewrite S1.
Qed.

Lemma library_runs w : runs (initialize_library mc) w (fun _ w' => stays w w').
Proof.
  unfold initialize_library. apply runs_bind. exists (w_lib w), w. split; [done|].
  destruct (bh_initialize (w_lib w) _) as [st l']. apply runs_bind. eexists (), _. split; [reflexivity|].
  apply runs_bind. eexists (), _. split; [reflexivity|]. set (w1 := set_con _ _). assert (S : stays w w1) by by split_and!.
  case_bool_decide.
  - apply runs_bind. eapply runs_weaken; [by apply runs_print|]. intros [] w2 S2. unfold bh_get_version.
    eapply runs_weaken; [by apply runs_print|]. intros [] w3 S3. apply (stays_trans w w2); [by apply (stays_trans w w1)|exact S3].
  - eapply runs_weaken; [by apply runs_print|]. intros [] w3 S3. by apply (stays_trans w w1).
Qed.

Lemma config_runs w c : BootConfig.LoadBootConfig (fw_root fw) (fw_line_alloc fw) (fw_vars fw) = Ret c ->
  runs (LoadBootConfig mc) w (fun c' w' => c' = snd c /\ stays w w').
Proof.
  intros H. clear - H. unfold LoadBootConfig. apply runs_bind. eapply runs_weaken; [apply does_runs, get_root_dir_does|].
  intros r w1 (e & -> & -> & Hq). change (fw_root fw) with (get_root (mc_services mc) (mc_image mc)) in H.
  set (w1 := after w e). assert (S1 : stays w w1) by by apply quiet_stays.
  apply runs_bind. apply (runs_weaken _ _ (fun _ w' => stays w1 w')).
  { destruct (get_root (mc_services mc) (mc_image mc)); [by apply runs_print|]. by eexists (), w1. }
  intros [] w2 S2. apply runs_bind. eexists c, w2. split; [unfold lift; cbn in H; by rewrite H|].
  eexists _, w2. split; [reflexivity|]. split; [done|]. by apply (stays_trans w w1).
Qed.

Context (Hfiles : forall dir path, get_root (mc_services mc) (mc_image mc) = inr dir -> file_ok (dir path)) (Halloc : mc_locale_alloc mc 0 = true).

Lemma set_language_ret lang st : exists st', SetLanguage (mc_locale_alloc mc) (get_root (mc_services mc) (mc_image mc)) lang st = Ret st'.
Proof.
  clear - Hfiles Halloc. unfold SetLanguage. destruct (get_root (mc_services mc) (mc_image mc)) as [e|dir] eqn:Er; [by eexists|].
  match goal with |- context [ReadWholeFileAscii dir ?p] => destruct (read_file_total dir p (Hfiles dir p eq_refl)) as (r & -> & _) end.
  bind_step. destruct (snd r) as [buf|]; [|by eexists].
  match goal with |- context [parse_locale_ini _ ?t ?l] => destruct (locale_table_fits (mc_locale_alloc mc) t l Halloc) as (tbl & E & _) end.
  rewrite E. by eexists.
Qed.

Lemma load_font_ret ok1 ok2 name st : exists r, LoadFontFile (get_root (mc_services mc) (mc_image mc)) ok1 ok2 name st = Ret r.
Proof.
  clear - Hfiles. unfold LoadFontFile. destruct name as [[|c name]|]; [by eexists| |by eexists]. unfold read_file.
  destruct (get_root (mc_services mc) (mc_image mc)) as [e|dir] eqn:Er; [bind_step; by eexists|].
  match goal with |- context [ReadWholeFileAscii dir ?p] => destruct (read_file_total dir p (Hfiles dir p eq_refl)) as (r & -> & _) end.
  bind_step. destruct (snd r) as [buf|]; [|by eexists]. destruct (zlen buf <? 4); [by eexists|].
  destruct (parse_psf1 buf) as [[h glyphs]|]; [|by eexists]. destruct (_ || _); [by eexists|].
  destruct (new_font _ _ _) as [[a|] st']; by eexists.
Qed.

Lemma ui_runs config w : runs (initialize_ui mc config) w (fun _ w' => stays w w').
Proof.
  unfold initialize_ui. cbv zeta. apply runs_bind. exists (w_locale w), w. split; [done|]. apply runs_bind.
  destruct (set_language_ret (Some (language config)) (w_locale w)) as (loc & El).
  exists loc, w. split; [unfold lift; by rewrite El|]. apply runs_bind. exists (w_fonts w), w. split; [done|]. apply runs_bind.
  apply (runs_weaken _ _ (fun _ w' => w' = w)).
  - case_bool_decide; [by eexists _, w|]. apply runs_bind.
    destruct (load_font_ret (fst (mc_font_alloc mc)) (snd (mc_font_alloc mc)) (Some (font_path config)) (w_fonts w)) as (r & Ef).
    exists r, w. split; [unfold lift; by rewrite Ef|]. by eexists _, w.
  - intros fs w' ->. eexists (), _. split; [reflexivity|]. by split_and!.
Qed.

(** The countdown asks the same polls. *)
Lemma countdown_runs config secs : forall n w, runs (countdown mc config secs n) w (fun b w' => b = BootFlow.countdown fw secs n /\ stays w w').
Proof.
  induction secs as [|secs IH]; intros n w; cbn [countdown BootFlow.countdown]; [by eexists _, w|].
  apply runs_bind. eapply runs_weaken; [by apply runs_print|]. intros [] w1 S1.
  change (BootFlow.poll_second fw n) with (poll_second mc n). destruct (poll_second mc n); [by eexists _, w1|].
  destruct secs as [|secs]; [by eexists _, w1|]. eapply runs_weaken; [apply IH|]. intros b w2 (-> & S2). split; [done|]. by apply (stays_trans w w1).
Qed.

Lemma show_menu_runs config w : runs (showMenu mc config) w (fun b w' => b = BootFlow.showMenu fw config /\ stays w w').
Proof. unfold showMenu, BootFlow.showMenu. destruct (0 <? menu_timeout config); [apply countdown_runs|]. by eexists _, w. Qed.

Context (Hlinux : forall k i c, exists r, linux_load_kernel (mc_files mc) (w_mem w0) k i (Some c) = Ret r).

(** A Linux kernel is entered exactly when the status is success. *)
Lemma linux_status files m k i c st j : linux_load_kernel files m k i c = Ret (st, j) -> (st = -1 /\ j = None) \/ (st = 0 /\ exists j', j = Some j').
Proof.
  unfold linux_load_kernel, boot_linux. destruct (files k) as [data|]; [|intros [= <- <-]; by left].
  destruct (rd_le data o_header 4) as [h| |]; [|done|done]. bind_step. destruct (negb _); [intros [= <- <-]; by left|].
  destruct (rd_le data o_setup_sects 1) as [s| |]; [|done|done]. bind_step. destruct (file_part data (setup_size s) _) as [kd| |]; [|done|done]. bind_step.
  match goal with |- context [match ?p with (_, _) => _ end] => destruct p as [m' placed] end.
  destruct (file_part data 0 _) as [sd| |]; [|done|done]. bind_step. intros [= <- <-]. right. eauto.
Qed.

Lemma autoboot_runs config w : w_mem w = w_mem w0 -> let '(k, i, c) := autoboot_args config in
  runs (autoboot_linux mc config) w (fun s w' => s = fw_linux_load_kernel fw k i c /\
    w_events w' = w_events w ++ [EvLinux k i c] /\ w_entries w' = w_entries w /\ gCorebootAvailable w' = gCorebootAvailable w /\
    w_platform w' = w_platform w /\ (EFI_ERROR s = true -> w_mem w' = w_mem w)).
Proof.
  intros Hm. unfold autoboot_linux. destruct (autoboot_args config) as [[k i] c]. apply runs_bind. eexists (), _. split; [reflexivity|].
  apply runs_bind. eexists _, _. split; [reflexivity|]. apply runs_bind. destruct (Hlinux k i c) as ([st j] & El).
  exists (st, j). eexists. split; [unfold lift; cbn; rewrite Hm, El; reflexivity|]. cbn [fst snd].
  apply runs_bind. cbn [fw_linux_load_kernel firmware_of]. rewrite El. cbn [fst].
  destruct (linux_status _ _ _ _ _ _ _ El) as [(-> & ->)|(-> & j' & ->)]; cbn [enter_loaded]; eexists (), _; (split; [reflexivity|]);
    eexists _, _; (split; [reflexivity|]); by split_and!.
Qed.

Context (Hloaded : forall st, HandleProtocol (mc_services mc) (mc_image mc) gEfiLoadedImageProtocolGuid = inl st -> EFI_ERROR st = true).

(** The end of a run that refines the flow from [w] on. *)
Definition ends_as (w : world) (st : Z) (tr : list event) (s : Z) (w' : world) : Prop :=
  s = st /\ w_events w' = w_events w ++ tr /\ exists js, w_entries w' = w_entries w ++ js /\ Forall2 booted (enters tr) js.

Lemma ends_from w w1 st tr s w' : w_events w1 = w_events w -> w_entries w1 = w_entries w -> ends_as w1 st tr s w' -> ends_as w st tr s w'.
Proof. intros E1 E2 (H1 & H2 & js & H3 & H4). split; [done|]. rewrite H2, H3, E1, E2. split; [done|]. by exists js. Qed.

Lemma ready_stays w w' : ready w -> stays w w' -> ready w'.
Proof. intros (H1 & H2 & H3) (S1 & _ & _ & S4 & S5 & _). unfold ready, tables_kept in *. rewrite S1, S4, S5. by split_and!. Qed.

Lemma menu_runs w st es : ready w -> w_mem w = w_mem w0 -> BootFlow.after_autoboot fw true = Ret (st, es) ->
  runs (after_autoboot mc) w (ends_as w st es).
Proof.
  intros Hr Hm H. eapply runs_weaken; [apply does_runs; exact (after_autoboot_does w st es Hr Hm H)|].
  intros s w' (e & -> & -> & <- & Hf). split; [done|]. split; [done|]. by exists (e_entries e).
Qed.

(** From the configuration on. *)
Lemma flow_runs config w st tr : ready w -> w_mem w = w_mem w0 ->
  (if BootFlow.showMenu fw config then BootFlow.after_autoboot fw true
   else if bool_decide (default_entry config = lit "linux") && negb (bool_decide (kernel config = [])) then
     let '(k, i, a) := autoboot_args config in
     if EFI_ERROR (fw_linux_load_kernel fw k i a) then
       r ← BootFlow.after_autoboot fw true; mret (fst r, EvLinux k i a :: snd r)
     else mret (EFI_SUCCESS, [EvLinux k i a])
   else BootFlow.after_autoboot fw true) = Ret (st, tr) ->
  runs (show ← showMenu mc config;
        if (show : bool) then after_autoboot mc
        else if bool_decide (default_entry config = lit "linux") && negb (bool_decide (kernel config = [])) then
          ls ← autoboot_linux mc config;
          if negb (EFI_ERROR ls) then mret EFI_SUCCESS
          else _ ← Print mc "Autoboot linux failed: %r\n" [VaInt ls]; after_autoboot mc
        else after_autoboot mc) w (ends_as w st tr).
Proof.
  intros Hr Hm H. apply runs_bind. eapply runs_weaken; [apply show_menu_runs|]. intros b w1 (-> & S1).
  pose proof (ready_stays w w1 Hr S1) as Hr1. pose proof S1 as (M1 & E1 & J1 & _). rewrite Hm in M1.
  destruct (BootFlow.showMenu fw config).
  { eapply runs_weaken; [exact (menu_runs w1 st tr Hr1 M1 H)|]. intros s w'. by apply ends_from. }
  destruct (_ && _).
  2:{ eapply runs_weaken; [exact (menu_runs w1 st tr Hr1 M1 H)|]. intros s w'. by apply ends_from. }
  pose proof (autoboot_runs config w1 M1) as Ha. destruct (autoboot_args config) as [[k i] a].
  apply runs_bind. eapply runs_weaken; [exact Ha|]. intros s w2 (-> & E2 & J2 & A2 & P2 & M2). rewrite E1 in E2. rewrite J1 in J2.
  destruct (EFI_ERROR _); cbn [negb].
  2:{ injection H as <- <-. eexists _, w2. split; [reflexivity|]. split; [done|]. rewrite E2, J2. split; [done|]. exists []. by rewrite app_nil_r. }
  destruct (BootFlow.after_autoboot fw true) as [[st' es]| |] eqn:Eb; [|done|done]. injection H as <- <-.
  apply runs_bind. eapply runs_weaken; [by apply runs_print|]. intros [] w3 S3. pose proof S3 as (M3 & E3 & J3 & A3 & P3 & _).
  specialize (M2 eq_refl). eapply runs_weaken; [refine (menu_runs w3 st' es _ _ Eb)|].
  - destruct Hr1 as (R1 & R2 & R3). split; [congruence|]. split; [congruence|]. unfold tables_kept. by rewrite M3, M2.
  - congruence.
  - intros s w' (-> & H2 & js & H3 & H4). split; [done|]. rewrite H2, H3, E3, J3, E2, J2, <- app_assoc. split; [done|]. by exists js.
Qed.

Lemma main_runs st tr : BootFlow.UefiMain fw = Ret (st, tr) -> runs (UefiMain mc) w0 (ends_as w0 st tr).
Proof.
  unfold BootFlow.UefiMain, UefiMain. cbn [fw_loaded_image firmware_of].
  destruct (HandleProtocol (mc_services mc) (mc_image mc) gEfiLoadedImageProtocolGuid) as [status|image].
  { rewrite (Hloaded status eq_refl). intros [= <- <-]. eexists _, w0. split; [reflexivity|]. split; [done|]. rewrite app_nil_r.
    split; [done|]. exists []. by rewrite app_nil_r. }
  change (EFI_ERROR EFI_SUCCESS) with false. cbv iota. fold fw.
  destruct (BootConfig.LoadBootConfig _ _ _) as [c| |] eqn:Ec; [|done|done]. rewrite run_bind_ret. cbv zeta. intros H.
  apply runs_bind. eexists (), _. split; [reflexivity|]. set (w1 := set_con _ _).
  apply runs_bind. eapply runs_weaken; [by apply (initialize_runs w1)|]. intros s w2 (-> & M2 & E2 & J2 & A2 & P2 & _).
  change (EFI_ERROR EFI_SUCCESS) with false. cbv iota.
  apply runs_bind. eapply runs_weaken; [apply library_runs|]. intros [] w3 S3.
  apply runs_bind. eapply runs_weaken; [exact (config_runs w3 c Ec)|]. intros c' w4 (-> & S4).
  apply runs_bind. eapply runs_weaken; [apply ui_runs|]. intros [] w5 S5.
  assert (S : stays w2 w5) by (apply (stays_trans w2 w4); [by apply (stays_trans w2 w3)|done]).
  assert (Hr2 : ready w2) by (split; [done|]; split; [done|]; intros _ x _; by rewrite M2).
  eapply runs_weaken; [refine (flow_runs (snd c) w5 st tr (ready_stays w2 w5 Hr2 S) _ H)|].
  - destruct S as (-> & _). by rewrite M2.
  - intros s w'. destruct S as (_ & E5 & J5 & _). apply ends_from; [by rewrite E5, E2|by rewrite J5, J2].
Qed.
End Refine.

(** ** The theorem *)

(** The machine and the state it starts from: boot services answer as specified,
    memory holds bytes, the loaders return (and when one of them left boot services,
    these still answer), and nothing that is stored hits coreboot's tables (the boot
    functions, the buffer of kernel.efi, the boot parameters). *)
Record machine_ok (mc : machine) (w : world) : Prop := {
  ok_loaded : forall st, HandleProtocol (mc_services mc) (mc_image mc) gEfiLoadedImageProtocolGuid = inl st -> EFI_ERROR st = true;
  ok_files : forall dir path, get_root (mc_services mc) (mc_image mc) = inr dir -> file_ok (dir path);
  ok_locale : mc_locale_alloc mc 0 = true;
  ok_linux : forall k i c, exists r, linux_load_kernel (mc_files mc) (w_mem w) k i (Some c) = Ret r;
  ok_boot : forall f, In f (List.map snd main_entries) -> exists b, mc_boot mc f (w_mem w) = Ret b /\ tables_kept w (br_memory b) /\
    (br_exited b = true -> mc_lingers mc = true);
  ok_bytes : byte_mem (w_mem w);
  ok_gop : match mc_gop mc with Some g => gop_typed g | None => True end;
  ok_buffer : in_u 64 (mc_buffer mc);
  ok_kernel : forall dir f, get_root (mc_services mc) (mc_image mc) = inr dir -> dir "kernel.efi"%string = inr f ->
    in_u 64 (zlen (f_data f)) /\ off_tables w (mc_buffer mc) (f_size f);
  ok_params : forall map, CorebootGetMemoryMap (w_mem w) (platform_of w) = Some map ->
    off_tables w (u64 (fst (largest_ram map) + 0x1000)) sizeof_params }.

Lemma flow_fb_typed mc w : machine_ok mc w -> fbs_typed (flow_fb mc w).
Proof.
  intros H. unfold flow_fb, fbs_typed. destruct (available w).
  - cbn [fw_cb_framebuffer firmware_of]. destruct (CorebootGetFramebuffer (w_mem w) (platform_of w)) eqn:E; [|done].
    apply (cb_framebuffer_typed (w_mem w) (platform_of w)); [apply H|exact E].
  - pose proof (ok_gop mc w H) as Hg. destruct (mc_gop mc); [|done]. by apply gop_framebuffer_typed.
Qed.

(** C2. The program does what the flow says, on a machine whose boot services and
    files answer as specified, whose loaders return and on which nothing that is
    stored hits coreboot's tables: whatever ends [UefiMain] of the boot flow with a
    status and a list of actions (the Linux kernel, the menu, the boot function,
    leaving boot services, entering kernel.efi, the reset) ends the program, with its
    messages, its static variables and its stores to memory, with the same status
    after the same actions, in the same order; each kernel.efi is entered at the
    flow's address with the flow's boot parameters in memory, byte for byte, where
    its argument points, and with kernel.efi in its buffer provided the buffer lies
    apart from the boot parameters.  (A flow that leaves boot services only ends on
    firmware whose services still answer then.) *)
Theorem main_refines mc w st tr : machine_ok mc w -> BootFlow.UefiMain (firmware_of mc w) = Ret (st, tr) ->
  exists w' js, Main.UefiMain mc w = Ret (st, w') /\ w_events w' = w_events w ++ tr /\
    w_entries w' = w_entries w ++ js /\ Forall2 (booted mc w) (enters tr) js.
Proof.
  intros Hok H. destruct (main_runs mc w) with (st := st) (tr := tr) as (s & w' & E & -> & E1 & js & E2 & E3).
  - by apply flow_fb_typed. - apply Hok. - apply Hok. - apply Hok.
  - apply Hok. - intros data (dir & f & Hr & Hf & <-). by apply (ok_kernel mc w Hok dir f).
  - apply Hok. - apply Hok. - apply Hok. - apply Hok. - apply Hok. - done.
  - by exists w', js.
Qed.

(** ** A machine *)

(** Coreboot's table at 0x520, a kernel.efi of three bytes read to 0x500000, Enter on
    the third entry of the menu, a boot function that comes back. *)
Definition start_world : world :=
  mk_world (mk_console [] 0 false []) sample_mem [] [] [] false cb_start (mk_lib None false 0 [])
    (mk_locale None []) (mk_fonts ∅ 1 (replicate MAX_CACHED_FONTS None) 0 None None None) false.

Definition sample_machine : machine :=
  mk_machine (mk_services (fun _ _ => inr 1) (fun _ => inr BootFlow.sample_root)) 1 (fun _ => true) (fun _ => None) (BH_SUCCESS, []) None
    (fun _ => true) sample_vars (fun _ => true) (true, true) EFI_NOT_FOUND (fun _ => true) (fun _ => None) ascii_lower
    [arrow SCAN_DOWN; arrow SCAN_DOWN; enter] (fun _ m => mret (mk_boot EFI_SUCCESS [] m false)) (fun _ => []) 0x500000
    BootFlow.sample_map BootFlow.sample_map (fun _ => EFI_SUCCESS) None j_memory true.

Lemma sample_mem_bytes : byte_mem sample_mem.
Proof.
  intros x. unfold sample_mem. destruct (0x520 <=? x); [|lia]. apply is_bytes_get.
  unfold is_bytes, is_byte. apply (bool_decide_eq_true _). vm_compute. reflexivity.
Qed.

Lemma sample_tables_low x : table_area (platform_of start_world) x -> 0x520 <= x < 0x1000.
Proof.
  assert (E : cb_framebuffer (platform_of start_world) = Some 0x5A1 /\ cb_memory_map (platform_of start_world) = Some 0x53C /\
    cb_memory_map_entries (platform_of start_world) = 3) by (vm_compute; by split_and!).
  destruct E as (E1 & E2 & E3). unfold table_area, sizeof_mem_entry. rewrite E1, E2, E3. intros [(a & [= <-] & H)|(a & [= <-] & H)]; lia.
Qed.

Lemma sample_map_regions : CorebootGetMemoryMap (w_mem start_world) (platform_of start_world) = Some sample_regions.
Proof. vm_compute. reflexivity. Qed.

Lemma sample_machine_ok : machine_ok sample_machine start_world.
Proof.
  split.
  - done.
  - intros dir path [= <-]. unfold BootFlow.sample_root. case_match; by vm_compute.
  - done.
  - intros k i c. by eexists.
  - intros f _. eexists. split; [reflexivity|]. split; [by intros _ x _|done].
  - apply sample_mem_bytes.
  - done.
  - by vm_compute.
  - intros dir f [= <-] [= <-]. split; [by vm_compute|]. intros _ x Hx%sample_tables_low. left. change (x < 0x500000). lia.
  - intros map E _ x Hx%sample_tables_low. rewrite sample_map_regions in E. injection E as <-. left. change (x < 0x101000). lia.
Qed.

Definition sample_trace : list event :=
  [EvMenu; EvBoot 2; EvExitBootServices 7;
   EvEnterKernel 0x500000 0x101000 (set_memory (set_framebuffer (basic_params 0x500000 3) sample_fb) 0x7FF9F000); EvReset true].

(** The kernel is entered with the record in memory, and with kernel.efi. *)
Lemma main_refines_witness :
  exists w' j, Main.UefiMain sample_machine start_world = Ret (EFI_DEVICE_ERROR, w') /\ w_events w' = sample_trace /\
    w_entries w' = [j] /\ holds (j_memory j) 0x500000 [77; 90; 144] /\ fetch_le (j_memory j) 0x101000 4 = 0x12345678.
Proof.
  destruct (main_refines sample_machine start_world EFI_DEVICE_ERROR sample_trace sample_machine_ok) as (w' & js & E & E1 & E2 & Hf);
    [vm_compute; reflexivity|].
  change (enters sample_trace) with [(0x500000, 0x101000, set_memory (set_framebuffer (basic_params 0x500000 3) sample_fb) 0x7FF9F000)] in Hf.
  apply Forall2_cons_inv_l in Hf as (j & js' & Hj & Hn & ->). apply Forall2_nil_inv_l in Hn as ->.
  destruct Hj as (_ & _ & (Hp & _) & data & (dir & f & [= <-] & [= <-] & <-) & Hd).
  exists w', j. split; [exact E|]. split; [exact E1|]. split; [exact E2|]. split.
  - apply Hd. left. vm_compute. discriminate.
  - apply fetch_word; [|lia]. apply holds_app in Hp as (Hp & _). exact Hp.
Defined.

(** [LoadFileRaw] gives what [ReadWholeFileAscii] gives on the root directory. *)
Theorem load_file_raw_reads mc path w : (forall dir, get_root (mc_services mc) (mc_image mc) = inr dir -> file_ok (dir path)) ->
  exists r w', LoadFileRaw mc path w = Ret (r, w') /\ stays w w' /\
    match get_root (mc_services mc) (mc_image mc) with inl st => Ret (st, None) | inr dir => ReadWholeFileAscii dir path end = Ret r.
Proof.
  intros Hf. assert (H : runs (LoadFileRaw mc path) w (fun r w' => stays w w' /\
    match get_root (mc_services mc) (mc_image mc) with inl st => Ret (st, None) | inr dir => ReadWholeFileAscii dir path end = Ret r)).
  { unfold LoadFileRaw. apply runs_bind. eapply runs_weaken; [apply does_runs, get_root_dir_does|].
    intros r w1 (e & -> & -> & Hq). apply quiet_stays in Hq. set (w1 := after w e) in *.
    destruct (get_root (mc_services mc) (mc_image mc)) as [st|dir]; [by eexists _, w1|].
    specialize (Hf dir eq_refl). apply runs_bind. eexists (), _. split; [reflexivity|]. set (w2 := set_con w1 _).
    assert (S2 : stays w w2) by (apply (stays_trans w w1); [done|apply stays_con]).
    destruct (read_file_total dir path Hf) as (r & Er & _). unfold ReadWholeFileAscii in *. destruct (dir path) as [st|f]; [by eexists _, w2|].
    repeat (match goal with |- context [if ?b then _ else _] => destruct b end; try discriminate Er;
      try (eexists _, w2; split; [reflexivity|by split])). }
  destruct H as (r & w' & E & H1 & H2). by exists r, w'.
Qed.

(** Boot services are called after they were left: every run that leaves them (on
    firmware whose services linger) goes on to call [Print], whether or not the boot
    parameters are found valid. *)
Theorem exit_calls_boot_services mc w0 w base size pa st es : machine_ok mc w0 -> ready w0 w -> off_tables w0 pa sizeof_params ->
  in_u 64 base -> in_u 64 size ->
  BootFlow.ExitBootServicesAndExecuteKernel (firmware_of mc w0) base size pa = Ret (st, es) -> es <> [] ->
  exists w', Main.ExitBootServicesAndExecuteKernel mc base size pa w = Ret (st, w') /\ In BsPrint (bs_late (w_con w')).
Proof.
  intros Hok Hr Ho Hb Hs H Hne. destruct (exit_does mc w0 (flow_fb_typed mc w0 Hok) base size pa w st es Hr Ho Hb Hs H)
    as (s & e & E & ((-> & _) & _) & Hl). exists (after w e). split; [exact E|]. by apply Hl.
Qed.

(** The boot parameters are stored over whatever lies at their address: a kernel
    whose image reaches there, and has another byte than the signature's first
    there, is not the one that is entered. *)
Theorem params_overwrite m pa p a data : params_at m pa p -> bp_signature p = COREBOOT_BOOT_SIGNATURE ->
  a <= pa < a + zlen data -> zget data (pa - a) <> 0x78 -> ~ holds m a data.
Proof.
  intros (Hp & _) Hs Ha Hz H. apply holds_app in Hp as (Hp & _). rewrite Hs in Hp.
  apply (proj1 (holds_iff _ _ _)) with (i := 0) in Hp; [|by vm_compute]. rewrite Z.add_0_r in Hp.
  apply (proj1 (holds_iff _ _ _)) with (i := pa - a) in H; [|lia]. replace (a + (pa - a)) with pa in H by lia.
  apply Hz. rewrite <- H, Hp. reflexivity.
Qed.
