(* ===== verification/MainBoot.v ===== *)
(** * From the configuration file to the kernel

    Whole runs of [MainProgram.v]: what the user reads during the countdown, and a
    bloodhorn.ini that names a Linux kernel, booted without a key being pressed. *)

From Stdlib Require Import String.
From S2P Require Import Prelude.
From S2P Require Import PhysMem.
From S2P Require Import EdkMem.
From S2P Require Import Libb.
From S2P Require Import BootConfig.
From S2P Require Import Menu.
From S2P Require Import EdkString.
From S2P Require Import EdkPrint.
From S2P Require Import BootFlow.
From S2P Require Import BootParams.
From S2P Require Import Coreboot.
From S2P Require Import CorebootPayload.
From S2P Require Import UefiHelpers.
From S2P Require Import Multiboot1.
From S2P Require Import LinuxBoot.
From S2P Require Import BootWrappers.
From S2P Require Import Localization.
From S2P Require Import Font.
From S2P Require Import MenuUi.
From S2P Require Import CString.
From S2P Require Import Printing.
From S2P Require Import MainProgram.
From S2P Require Import MainRefine.
Import ListNotations.
Import Main.
#[local] Open Scope list_scope.

(** ** The countdown *)

Definition countdown_message (entry : bytes) (secs : Z) : bytes :=
  lit "Auto-boot '" ++ entry ++ lit "' in " ++ decimal secs ++ lit " seconds... Press any key to open menu." ++ [13; 10].

(** Its format, in pieces. *)
Definition countdown_pieces (entry : bytes) (secs : Z) : list piece :=
  (PChar <$> lit "Auto-boot '") ++ [PAscii entry] ++ (PChar <$> lit "' in ") ++ [PInt secs] ++
  (PChar <$> lit " seconds... Press any key to open menu.") ++ [PCrLf].

Lemma plain_text s : bool_decide (Forall plain_char (lit s)) = true -> Forall piece_ok (PChar <$> lit s).
Proof. intros H. apply chars_ok. by apply bool_decide_eq_true in H. Qed.

Lemma countdown_prints entry secs : Forall (fun c => 0 < c < 256) entry -> zlen entry < default_entry_size -> 0 < secs <= 300 ->
  InternalPrint true (c_text "Auto-boot '%a' in %d seconds... Press any key to open menu.\r\n") [VaStr8 (Some entry); VaInt secs] =
  Ret (Some (countdown_message entry secs)).
Proof.
  intros He Hl Hs. unfold InternalPrint. cbn [negb].
  assert (Ep : UnicodeVSPrint ((PcdUefiLibMaxPrintBufferSize + 1) * 2) (concat (piece_format <$> countdown_pieces entry secs)) (concat (piece_args <$> countdown_pieces entry secs)) =
    Ret (Some (take 320 (concat (piece_text <$> countdown_pieces entry secs))))).
  { apply (unicode_vsprint_pieces (countdown_pieces entry secs) 642); [|by vm_compute|by vm_compute].
    unfold countdown_pieces. rewrite !Forall_app, !Forall_singleton. split_and!; try (by apply plain_text; vm_compute); cbn.
    - split; [done|]. unfold default_entry_size in Hl. lia.
    - lia.
    - done. }
  assert (Ef : concat (piece_format <$> countdown_pieces entry secs) = c_text "Auto-boot '%a' in %d seconds... Press any key to open menu.\r\n") by reflexivity.
  assert (Ea : concat (piece_args <$> countdown_pieces entry secs) = [VaStr8 (Some entry); VaInt secs]).
  { unfold countdown_pieces. rewrite !fmap_app, !concat_app, !chars_args. cbn. by rewrite wrap_small by (unfold in_u; lia). }
  assert (Et : concat (piece_text <$> countdown_pieces entry secs) = countdown_message entry secs).
  { unfold countdown_pieces, countdown_message. rewrite !fmap_app, !concat_app, !chars_text. cbn [fmap list_fmap concat piece_text].
    rewrite (proj2 (Z.ltb_ge secs 0)), !app_nil_r by lia. reflexivity. }
  rewrite Ef, Ea, Et in Ep. rewrite Ep. bind_step. rewrite take_ge; [reflexivity|].
  pose proof (decimal_length 3 secs ltac:(lia) ltac:(lia)) as Hd. unfold countdown_message, default_entry_size in *.
  rewrite !length_app. unfold zlen in *. change (length (lit "Auto-boot '")) with 11%nat. change (length (lit "' in ")) with 5%nat.
  change (length (lit " seconds... Press any key to open menu.")) with 39%nat. change (length [13; 10]) with 2%nat. lia.
Qed.

(** The texts of the first [n] seconds of a countdown from [secs]. *)
Definition countdown_log (entry : bytes) (secs n : nat) : list con_event :=
  (fun j => ConText (countdown_message entry (Z.of_nat (secs - j)))) <$> List.seq 0 n.

Lemma countdown_log_cons entry secs n : countdown_log entry (S secs) (S n) =
  ConText (countdown_message entry (Z.of_nat (S secs))) :: countdown_log entry secs n.
Proof.
  unfold countdown_log. cbn [List.seq fmap list_fmap]. f_equal. rewrite <- seq_shift. change (map S ?l) with (S <$> l).
  rewrite <- list_fmap_compose. done.
Qed.

Section Countdown.
Context (mc : machine) (config : BOOT_CONFIG) (Hpool : forall k, mc_pool mc k = true).
Context (Hentry : Forall (fun c => 0 < c < 256) (default_entry config)) (Hlen : zlen (default_entry config) < default_entry_size).

Lemma countdown_print secs w : (0 < secs <= 300)%nat ->
  Print mc "Auto-boot '%a' in %d seconds... Press any key to open menu.\r\n" [VaStr8 (Some (default_entry config)); VaInt (Z.of_nat secs)] w =
  Ret ((), set_con w (printed (w_con w) (Some (countdown_message (default_entry config) (Z.of_nat secs))))).
Proof. intros Hs. unfold Print. rewrite Hpool, countdown_prints by (done || lia). reflexivity. Qed.

Lemma countdown_runs_log i : forall secs n w, (i < secs <= 300)%nat -> (forall p, (p < 10 * i)%nat -> mc_key mc (n + p) = false) ->
  (poll_second mc (n + 10 * i) = true \/ S i = secs) ->
  exists w', countdown mc config secs n w = Ret (poll_second mc (n + 10 * i), w') /\
    con_log (w_con w') = con_log (w_con w) ++ countdown_log (default_entry config) secs (S i).
Proof.
  induction i as [|i IH]; intros secs n w Hs Hq Hend; (destruct secs as [|secs]; [lia|]); cbn [countdown];
    unfold mbind, prog_bind; rewrite countdown_print by lia; set (w1 := set_con w _).
  - rewrite Nat.mul_0_r, Nat.add_0_r in *. destruct (poll_second mc n) eqn:Ep; [eexists; split; [reflexivity|reflexivity]|].
    destruct Hend as [|[= <-]]; [done|]. eexists. split; [reflexivity|reflexivity].
  - assert (Hn : poll_second mc n = false).
    { unfold poll_second. apply not_true_iff_false. intros H. apply existsb_exists in H as (j & Hj & Hk). apply in_seq in Hj.
      rewrite Hq in Hk by lia. done. }
    rewrite Hn. destruct secs as [|secs]; [lia|].
    destruct (IH (S secs) (n + 10)%nat w1) as (w' & E & El); [lia| | |].
    + intros p Hp. rewrite <- Nat.add_assoc. apply Hq. lia.
    + replace (n + 10 + 10 * i)%nat with (n + 10 * S i)%nat by lia. destruct Hend as [|[= <-]]; [by left|by right].
    + replace (n + 10 + 10 * i)%nat with (n + 10 * S i)%nat in E by lia. exists w'. split; [exact E|].
      rewrite El, (countdown_log_cons _ (S secs)).
      change (con_log (w_con w1)) with (con_log (w_con w) ++ [ConText (countdown_message (default_entry config) (Z.of_nat (S (S secs))))]).
      rewrite <- app_assoc. reflexivity.
Qed.
End Countdown.

(** C24. What the user reads: during a countdown of [secs] seconds the console shows,
    for each second that is waited and none else, the line with the default
    entry and the seconds that are left, from [secs] down; it ends with the menu in
    the second in which a key is found, and without it when the last second has
    passed. *)
Theorem countdown_messages mc config secs i w :
  (forall k, mc_pool mc k = true) -> Forall (fun c => 0 < c < 256) (default_entry config) ->
  zlen (default_entry config) < default_entry_size -> (i < secs <= 300)%nat ->
  (forall p, (p < 10 * i)%nat -> mc_key mc p = false) -> (poll_second mc (10 * i) = true \/ S i = secs) ->
  exists w', countdown mc config secs 0 w = Ret (poll_second mc (10 * i), w') /\
    con_log (w_con w') = con_log (w_con w) ++ countdown_log (default_entry config) secs (S i).
Proof. intros Hp He Hl Hs Hq Hend. by apply (countdown_runs_log mc config Hp He Hl i secs 0 w). Qed.

(** Three seconds, and a key at the thirteenth poll: two lines. *)
Definition keyed_machine : machine :=
  mk_machine (mk_services (fun _ _ => inr 1) (fun _ => inl EFI_NOT_FOUND)) 1 (fun _ => true) (fun _ => None) (BH_SUCCESS, []) None
    (fun _ => true) sample_vars (fun _ => true) (true, true) EFI_NOT_FOUND (fun n => bool_decide (n = 12%nat)) (fun _ => None) ascii_lower
    [] (fun _ m => mret (mk_boot EFI_SUCCESS [] m false)) (fun _ => []) 0x500000
    BootFlow.sample_map BootFlow.sample_map (fun _ => EFI_SUCCESS) None j_memory true.

Lemma countdown_messages_witness :
  exists w', countdown keyed_machine default_config 3 0 start_world = Ret (true, w') /\
    con_log (w_con w') = [ConText (lit "Auto-boot 'linux' in 3 seconds... Press any key to open menu." ++ [13; 10]);
                          ConText (lit "Auto-boot 'linux' in 2 seconds... Press any key to open menu." ++ [13; 10])].
Proof.
  destruct (countdown_messages keyed_machine default_config 3 1 start_world) as (w' & E & El); [done| |by vm_compute|lia| |by left|].
  - repeat constructor; lia.
  - intros p Hp. apply bool_decide_eq_false_2. lia.
  - exists w'. split; [exact E|exact El].
Defined.

(** ** bloodhorn.ini *)

(** No value contains a NUL. *)
Definition no_nuls (c : BOOT_CONFIG) : Prop :=
  Forall (Forall (fun x => x <> 0)) [default_entry c; language c; kernel c; initrd c; cmdline c].

Lemma unlines_no_nul ls : Forall (Forall (fun x => x <> 0)) ls -> Forall (fun x => x <> 0) (unlines ls).
Proof.
  intros H. unfold unlines. apply Forall_concat, Forall_map. apply (Forall_impl _ _ _ H). intros l Hl.
  apply Forall_app. by split; [|repeat constructor].
Qed.

Lemma entry_no_nul k v : Forall (fun x => x <> 0) (lit k) -> Forall (fun x => x <> 0) v -> Forall (fun x => x <> 0) (entry_line k v).
Proof. intros Hk Hv. unfold entry_line. apply Forall_app. split; [done|]. by constructor. Qed.

Lemma ini_text_no_nul c : ini_config c -> no_nuls c -> Forall (fun x => x <> 0) (unlines (ini_of_config c)).
Proof.
  intros (_ & Hm & _) H. unfold no_nuls in H. rewrite !Forall_cons in H. destruct H as (H1 & H2 & H3 & H4 & H5 & _).
  apply unlines_no_nul. unfold ini_of_config.
  assert (Hd : Forall (fun x => x <> 0) (decimal (menu_timeout c))).
  { apply (Forall_impl _ _ _ (decimal_all (menu_timeout c) ltac:(lia))). lia. }
  assert (Hb : forall b, Forall (fun x => x <> 0) (bool_text b)) by (intros []; by repeat constructor).
  repeat (apply Forall_cons; split); try apply entry_no_nul; try done; try apply Hb; by repeat constructor.
Qed.

(** No UEFI variable is set. *)
Lemma env_absent vars c : (forall name, v_probe (vars name) <> EFI_BUFFER_TOO_SMALL) -> ApplyUefiEnvOverrides vars c = Ret c.
Proof.
  intros H. assert (Hg : forall name, get_var (vars name) = Ret None).
  { intros name. unfold get_var. by rewrite (proj2 (Z.eqb_neq _ _) (H name)). }
  assert (Hs : forall name dst size, env_str (vars name) dst size = Ret dst) by (intros; unfold env_str; by rewrite Hg).
  assert (Hi : forall name dst, env_int (vars name) dst = Ret dst) by (intros; unfold env_int; by rewrite Hg).
  assert (Hb : forall name dst, env_bool (vars name) dst = Ret dst) by (intros; unfold env_bool; by rewrite Hg).
  unfold ApplyUefiEnvOverrides. rewrite ?Hs, ?Hi, ?Hb, ?run_bind_ret. repeat (rewrite ?Hs, ?Hi, ?Hb; bind_step). by destruct c.
Qed.

(** The configuration a file alone gives. *)
Definition config_of (c : BOOT_CONFIG) : BOOT_CONFIG :=
  mk_config (default_entry c) (menu_timeout c) (kernel c) (initrd c) (cmdline c) (tpm_enabled c) (secure_boot c) (use_gui c)
    (font_path default_config) (font_size default_config) (header_font_size default_config) (language c) (enable_networking default_config).

Lemma load_ini dir alloc vars c st : (forall k, alloc k = true) -> ini_config c -> no_nuls c -> menu_timeout c <= 300 ->
  readable (dir "bloodhorn.ini"%string) (unlines (ini_of_config c)) -> dir "bloodhorn.json"%string = inl st ->
  (forall name, v_probe (vars name) <> EFI_BUFFER_TOO_SMALL) ->
  BootConfig.LoadBootConfig (inr dir) alloc vars = Ret (EFI_SUCCESS, config_of c).
Proof.
  intros Ha Hc Hn Ht Hr Hj Hv. replace (config_of c) with (clamp_timeout (config_of c)).
  2:{ destruct Hc as (_ & Hm & _). unfold clamp_timeout. cbv zeta. change (menu_timeout (config_of c)) with (menu_timeout c).
      rewrite (proj2 (Z.ltb_ge (menu_timeout c) 0)) by lia. change (menu_timeout (config_of c)) with (menu_timeout c).
      by rewrite (proj2 (Z.ltb_ge 300 (menu_timeout c))) by lia. }
  apply (load_config_inr dir alloc vars (config_of c)); [|by apply env_absent].
  rewrite (read_present _ _ _ Hr). bind_step. unfold ReadWholeFileAscii. rewrite Hj. cbn [apply_file].
  change (EFI_ERROR EFI_SUCCESS) with false. change (0 <? zlen (unlines (ini_of_config c))) with true. cbn [negb andb].
  rewrite c_string_plain by by apply ini_text_no_nul. rewrite ini_reads_back by done. bind_step. reflexivity.
Qed.

(** ** The whole run *)

(** [linux_load_kernel] enters the kernel and comes back. *)
Lemma autoboot_enters mc config w j : let '(k, i, c) := autoboot_args config in
  linux_load_kernel (mc_files mc) (w_mem w) k i (Some c) = Ret (0, Some j) ->
  autoboot_linux mc config w = Ret (0, set_mem (add_loaded (add_event w (EvLinux k i c)) [j]) (mc_return mc j)).
Proof.
  destruct (autoboot_args config) as [[k i] c] eqn:Ea. intros E. unfold autoboot_linux. rewrite Ea.
  unfold act, modify, get, lift, mbind, prog_bind. cbn [w_mem add_event]. by rewrite E.
Qed.

Section IniBoot.
Context (mc : machine) (w : world) (dir : efi_dir) (cfg : BOOT_CONFIG) (json : Z).

(** The firmware: the image was loaded from a device whose root directory has a
    bloodhorn.ini and no bloodhorn.json, files read as specified, no UEFI variable
    is set and memory can be allocated. *)
Record ini_machine : Prop := {
  im_image : exists dev, HandleProtocol (mc_services mc) (mc_image mc) gEfiLoadedImageProtocolGuid = inr dev;
  im_root : get_root (mc_services mc) (mc_image mc) = inr dir;
  im_files : forall path, file_ok (dir path);
  im_ini : readable (dir "bloodhorn.ini"%string) (unlines (ini_of_config cfg));
  im_json : dir "bloodhorn.json"%string = inl json;
  im_vars : forall name, v_probe (mc_vars mc name) <> EFI_BUFFER_TOO_SMALL;
  im_lines : forall n, mc_line_alloc mc n = true;
  im_locale : mc_locale_alloc mc 0 = true }.

(** The file: it says how to boot Linux, after a countdown. *)
Record ini_linux : Prop := {
  il_config : ini_config cfg; il_nuls : no_nuls cfg;
  il_entry : default_entry cfg = lit "linux"; il_kernel : kernel cfg <> [];
  il_timeout : 0 < menu_timeout cfg <= 300 }.

Context (Hmc : ini_machine) (Hcfg : ini_linux).
Context (Hkeys : forall i, (i < 10 * Z.to_nat (menu_timeout cfg))%nat -> mc_key mc i = false).

Lemma ini_autoboots : let '(k, i, c) := autoboot_args cfg in forall j,
  linux_load_kernel (mc_files mc) (w_mem w) k i (Some c) = Ret (0, Some j) ->
  exists w', Main.UefiMain mc w = Ret (EFI_SUCCESS, w') /\ w_events w' = w_events w ++ [EvLinux k i c] /\
    w_loaded w' = w_loaded w ++ [j] /\ w_entries w' = w_entries w.
Proof.
  destruct Hmc as [(dev & Ei) Er Hf Hini Hj Hv Hl Hlo], Hcfg as [Hc Hn He Hk Ht].
  destruct (autoboot_args cfg) as [[k i] c] eqn:Ea. intros j Ej.
  assert (Hfiles : forall dir' path, get_root (mc_services mc) (mc_image mc) = inr dir' -> file_ok (dir' path))
    by (intros dir' path; rewrite Er; intros [= <-]; apply Hf).
  assert (Econf : BootConfig.LoadBootConfig (fw_root (firmware_of mc w)) (fw_line_alloc (firmware_of mc w)) (fw_vars (firmware_of mc w)) = Ret (EFI_SUCCESS, config_of cfg)).
  { cbn [fw_root fw_line_alloc fw_vars firmware_of]. rewrite Er. apply (load_ini dir _ _ cfg json); try done. apply Ht. }
  assert (Eshow : BootFlow.showMenu (firmware_of mc w) (config_of cfg) = false).
  { apply showMenu_quiet. split; [apply Ht|]. intros p Hp. by apply Hkeys. }
  assert (Hrun : runs (Main.UefiMain mc) w (fun s w' => s = EFI_SUCCESS /\ w_events w' = w_events w ++ [EvLinux k i c] /\
    w_loaded w' = w_loaded w ++ [j] /\ w_entries w' = w_entries w)).
  { unfold Main.UefiMain. rewrite Ei. apply runs_bind. eexists (), _. split; [reflexivity|]. set (w1 := set_con _ _).
    apply runs_bind. eapply runs_weaken; [by apply (initialize_runs mc w w1)|]. intros s w2 (-> & M2 & E2 & J2 & _ & _ & L2).
    change (EFI_ERROR EFI_SUCCESS) with false. cbv iota.
    apply runs_bind. eapply runs_weaken; [apply library_runs|]. intros [] w3 S3.
    apply runs_bind. eapply runs_weaken; [exact (config_runs mc w w3 _ Econf)|]. intros c' w4 (-> & S4). cbn [snd].
    apply runs_bind. eapply runs_weaken; [by apply ui_runs|]. intros [] w5 S5.
    apply runs_bind. eapply runs_weaken; [apply (show_menu_runs mc w)|]. intros b w6 (-> & S6). rewrite Eshow.
    assert (S : stays w2 w6) by (apply (stays_trans w2 w5); [apply (stays_trans w2 w4); [by apply (stays_trans w2 w3)|done]|done]).
    destruct S as (M6 & E6 & J6 & _ & _ & L6).
    change (default_entry (config_of cfg)) with (default_entry cfg). change (kernel (config_of cfg)) with (kernel cfg).
    rewrite !bool_decide_eq_true_2, bool_decide_eq_false_2 by done. cbn [negb andb].
    apply runs_bind. pose proof (autoboot_enters mc (config_of cfg) w6 j) as Hab.
    change (autoboot_args (config_of cfg)) with (autoboot_args cfg) in Hab. rewrite Ea in Hab.
    rewrite M6, M2 in Hab. eexists 0, _. split; [exact (Hab Ej)|]. change (EFI_ERROR 0) with false. cbn [negb].
    eexists _, _. split; [reflexivity|]. cbn. rewrite E6, L6, J6, E2, L2, J2. by split_and!. }
  destruct Hrun as (s & w' & E & -> & H1 & H2 & H3). by exists w'.
Qed.
End IniBoot.


Definition demo_config : BOOT_CONFIG :=
  mk_config (lit "linux") 1 (lit "/boot/vmlinuz") [] (lit "root=/dev/sda1 ro") true false true (lit "DejaVuSans.ttf") 12 16 (lit "en") false.
Definition ini_dir : efi_dir := fun path =>
  if String.eqb path "bloodhorn.ini" then inr (sample_file (unlines (ini_of_config demo_config))) else inl EFI_NOT_FOUND.
Definition no_vars (name : string) : efi_var := mk_var EFI_NOT_FOUND 0 true EFI_SUCCESS [].

Definition linux_machine : machine :=
  mk_machine (mk_services (fun _ _ => inr 1) (fun _ => inr ini_dir)) 1 (fun _ => true) (fun _ => None) (BH_SUCCESS, []) None
    (fun _ => true) no_vars (fun _ => true) (true, true) EFI_NOT_FOUND (fun _ => false)
    (fun p => if bool_decide (p = lit "/boot/vmlinuz") then Some sample_linux else None) ascii_lower
    [] (fun _ m => mret (mk_boot EFI_SUCCESS [] m false)) (fun _ => []) 0x500000
    BootFlow.sample_map BootFlow.sample_map (fun _ => EFI_SUCCESS) None j_memory true.

